(* ===== verification/_CoqProject ===== *)
-Q . S2P
Prelude.v
ListHead.v
RangeLock.v
Bitops.v
Slot.v
Arena.v
Btree.v
Rbtree.v
RbErase.v
DirIndex.v
DirIter.v
Pm.v
Heap.v
Mkfs.v
Shm.v
Fs.v
Journal.v
Dir.v
DirView.v
File.v
FileIndex.v
FileLog.v
Recover.v
RecoverWalk.v
RecoverThreads.v
FileRead.v
FileWrite.v
FileExample.v
Runtime.v
Vfs.v
VfsLocks.v
VfsWalk.v
FsInv.v
Create.v
Func.v
FuncDir.v
FuncFile.v
FuncRename.v
Replay.v
Mount.v
FuncCreate.v
Session.v
Trace.v
Lib.v
LibTrace.v
Stream.v
TraceExample.v
FuncExample.v
FuncCases.v
LibCases.v
