(* ===== verification/Prelude.v ===== *)
(** * SlotFS: a verification development

    SlotFS (src/slotfs) is a file system in user space for persistent memory.
    Its library is linked into the processes of an application; the processes
    share the device, mapped at one address, and an area of shared memory with
    the inode cache and the allocators.  This library models its C code as
    executable Rocq functions and proves what the parts promise to each other.

    ** The program and the files of the model

    Device and layout.  [Pm.v] has persistent memory as bytes with the list of
    states a crash can leave behind, and the copy routines of slotfs.h.
    [Mkfs.v] has the layout of the device and mkfs.c; [Shm.v] the bitmaps that
    a mount builds from the device (shm.c).  [Mount.v] has the rest of shm.c and
    slotfs.c: how a process starts and stops; what the system calls return is a
    parameter.

    Allocators.  [Bitops.v] (bitops.h) and [Slot.v] (slot.c) hand out the slots
    of the device: inodes, directory entries, file entries, data pages.
    [Arena.v] (arena.c) hands out objects in shared memory, [Heap.v] (heap/)
    memory of a process.

    Indexes.  [Btree.v] (btree.c) is the radix tree from the blocks of a file
    to its entries.  [Rbtree.v], [RbErase.v] and [DirIter.v] (rbtree.c, .h) are the
    red-black tree at the level of pointers; [DirIndex.v] is its use as the
    index of a directory (inode.c).

    State.  [Fs.v] has the record [fs] of the mounted file system with the
    inodes and entries of inode.h and entry.h, and the record [sys] of
    [Runtime.v] adds the heap and the open files of the process (runtime.c).
    An operation of the code is a function of the state monad [M] of this file;
    it ends with a value and a new state, or with a [fault] where the C code
    leaves its defined behaviour.

    Inodes.  [Journal.v] and [Replay.v] (journal.c); [Dir.v] and [DirView.v] have directories, [File.v],
    [FileIndex.v], [FileLog.v], [FileRead.v] and [FileWrite.v] inodes and
    files (all inode.c).  The definitions of inode.c are in [Dir.v] and [File.v],
    the other files have the invariants and the proofs.

    Recovery.  [Recover.v] (recover.c) has the threads that rebuild the bitmaps
    of the slots from the logs on the device, with their queue and their
    barrier; the interleaving is a list of thread numbers.  [RecoverWalk.v] has
    the invariant of the walk, [RecoverThreads.v] that of the threads.

    Calls.  [Vfs.v], [VfsLocks.v] and [VfsWalk.v] have the inode cache and the path
    lookup (slot_vfs.c); [Func.v], [FuncDir.v], [FuncFile.v], [FuncRename.v]
    the system calls (slotfs_func.c).  [FsInv.v] has the invariant of the whole
    file system, [Create.v] and [FuncCreate.v] the proofs about new files and
    directories.  [FileExample.v], [FuncExample.v], [FuncCases.v] and
    [TraceExample.v] have small concrete file systems, on which the theorems are
    applied, and runs that show deviations.

    Sessions.  [Session.v] has the abstract file system, a tree of names with
    files of bytes and a table of open files, and what the calls may answer;
    [Trace.v] has the sequences of calls that a process makes.

    Interposition.  [Lib.v] (lib.c) has the calls of the C library that the
    library of SlotFS replaces; the functions that dlsym finds are parameters on
    a state of the C library.  [LibTrace.v] has sequences of such calls,
    [Stream.v] the streams (glibc/ffile.c), [LibCases.v] examples and runs that
    show deviations.

    Lists and locks.  [ListHead.v] (list.h) has the intrusive lists on the memory
    of their links, and that they are sequences; the other files have a list as
    the sequence of the addresses on it.  [RangeLock.v] (lock.c) is the lock on
    ranges of a file.

    ** What the theorems show

    - Sessions ([Session], [Trace]): from the first start on, every call of
      open, close, pwrite, pread and rename that is [ready] returns, keeps the
      invariant [fs_inv] of the file system and answers as the abstract file
      system allows, errors and short counts included; a file reads back what was
      written to it, whatever happens elsewhere.  [ready] is more than resources:
      a write is within one page, and ends inside the size when it is a small
      overwrite; a read starts inside the file or at its end; a rename is not of
      or to the root and does not put a directory into itself.  The runs of
      [FuncCases] and [FileExample] show what the code does in some of the
      other cases.
    - Interposition ([LibTrace], [Stream]): calls for SlotFS and for the C library
      do not interfere, and those for SlotFS are calls of a session; a stream
      reads back what was written.
    - Files ([FileRead], [FileWrite], [FuncFile]): a write sets the bytes of its
      range and keeps the other bytes that were in a block, and those of other
      files; a read returns the contents when it meets no partly replaced extent;
      all files keep their invariant [files_inv].
    - Directories ([Dir], [DirView], [FuncDir], [FuncRename], [FuncCreate]):
      appending and removing an entry update the directory as a map, keep the
      invariant [dirs_inv], and every store leaves the old or the new chain of
      slots on the device; a stream shows each entry once, with a string that
      begins with its name; a rename moves one name; a new file adds one name and
      leaves all files and other names as they were.
    - Lookup ([Vfs*]): it ends; without symbolic links it follows the components
      of the path; it returns with exactly the lock of what it found.
    - Allocators ([Slot], [Arena], [Runtime], [Shm]): what is handed out was free and is
      marked, invariants hold, a mount after mkfs has exactly the reserved slots
      in use, and threads that interleave are safe while slots are left.
    - Indexes ([Btree], [Rbtree], [DirIndex]): they refine finite maps, and
      the red-black tree keeps its depth logarithmic.  Lists ([ListHead]) refine
      sequences.
    - Journal ([Journal], [Replay]): a write journal is undone from any crash
      state, a rename journal finishes the rename between two directories, and
      transactions one after the other restore a free journal.
    - Start and stop ([Mount]): the first start formats, mounts and establishes
      every invariant that the operations keep; for a process without calls, the flag
      on the device tells a crash from an unmount.
    - Recovery ([RecoverThreads]): for images that meet [image_ok] (among others
      no block of a file written twice), under every interleaving of handled
      inodes that ends, the bitmaps of inodes and of log slots written back are
      those of what the entries lead to from the root; every partial run can be
      completed; a mount finds those bitmaps.  The data bitmap is written back
      empty, and the counts of directories include their ghost slot.
    - Locks ([RangeLock]): no two threads hold overlapping ranges, and a thread
      whose range is free takes it in two steps of its own.

    Several closed theorems evaluate runs in which the code does not do what it
    means to; their comments say what goes wrong.

    ** Bounds and fuel

    Integers are [Z] with the wrap-around of their C type written out
    ([u32], [u64], [i32], [i64]).  Loops over a list or a counter are structural.  The
    other loops take fuel, and theorems show that it is enough: the walks of
    the red-black tree take the number of nodes of the store, those of the
    radix tree its ten levels, the log of a file its entries, the loops of
    reading and writing the number of pages of the range, recovery the number of
    entry slots of the device ([log_fuel]), and the
    path lookup [lookup_fuel] nested symbolic links, of which the code allows
    fewer ([path_lookup_terminates]).  A run out of fuel is [Fault OutOfFuel],
    which no theorem takes for a result.

    ** Not modelled

    gather.c, whose thread is not started, and debug.c (statistics); the loop
    macros and the hlist functions of list.h; the mmap of the kernel, which is a
    parameter.  Threads are modelled for the slot allocator, the range lock and
    recovery, where a handled inode is one step although the code shares
    [rc_inode_t] and the bitmaps without a lock; elsewhere a lock that is taken is
    held for the whole of the operation, and [slotfs_init] does not include the
    steps of another process that initialises the shared memory.  The bytes of
    the device are a total function of the address: an access to it does not
    fault, and that accesses stay inside the device is not shown.  src/nova,
    src/pmfs, src/splitfs and src/madfs are the systems that SlotFS is measured
    against. *)
From stdpp Require Import base numbers list gmap relations.

(** ** Faults and outcomes *)

(** The ways a C execution of the modelled code leaves the defined part of
    its behaviour, or does not return. *)
Inductive fault : Type :=
| NullDeref      (* a NULL (or error) pointer is dereferenced *)
| UseAfterFree   (* an object is used after it went back to its arena *)
| OutOfBounds    (* an array is indexed outside its bounds *)
| BadPointer     (* an address that is not mapped, or not of this structure *)
| Deadlock       (* a spin lock is taken by the thread that already holds it *)
| DivByZero      (* an integer division by zero *)
| AssertFail     (* an [assert] that is compiled in fails *)
| OutOfFuel.     (* the loop did not finish within the fuel *)

#[export] Instance fault_eq_dec : EqDecision fault.
Proof. solve_decision. Defined.

Inductive outcome (A : Type) : Type :=
| Ok (a : A)
| Fault (f : fault).
Arguments Ok {A} a.
Arguments Fault {A} f.

#[export] Instance outcome_ret : MRet outcome := fun A a => Ok a.
#[export] Instance outcome_bind : MBind outcome := fun A B k m =>
  match m with Ok a => k a | Fault f => Fault f end.

(** State and faults: the effect of a C function on the state [S]. *)
Definition M (S A : Type) : Type := S -> outcome (A * S).
#[export] Instance M_ret S : MRet (M S) := fun A a s => Ok (a, s).
#[export] Instance M_bind S : MBind (M S) := fun A B k m s =>
  match m s with Ok (a, s') => k a s' | Fault f => Fault f end.

Definition get {S} : M S S := fun s => Ok (s, s).
Definition gets {S A} (f : S -> A) : M S A := fun s => Ok (f s, s).
Definition modify {S} (f : S -> S) : M S unit := fun s => Ok (tt, f s).
Definition throw {S A} (f : fault) : M S A := fun _ => Fault f.
Definition lift {S A} (o : outcome A) : M S A := fun s =>
  match o with Ok a => Ok (a, s) | Fault f => Fault f end.
(** The result of a run, without the final state. *)
Definition eval {S A} (m : M S A) (s : S) : outcome A :=
  match m s with Ok (a, _) => Ok a | Fault f => Fault f end.

(** Runs a computation on the part of the state that [get] and [put] select. *)
Definition zoom {S T A} (get : S -> T) (put : T -> S -> S) (m : M T A) : M S A := fun s =>
  match m (get s) with Ok (a, t) => Ok (a, put t s) | Fault f => Fault f end.

(** ** Machine integers *)

Local Open Scope Z_scope.

Definition u8  (x : Z) : Z := x mod 2 ^ 8.
Definition u16 (x : Z) : Z := x mod 2 ^ 16.
Definition u32 (x : Z) : Z := x mod 2 ^ 32.
Definition u64 (x : Z) : Z := x mod 2 ^ 64.
Definition signed (w x : Z) : Z :=
  let y := x mod 2 ^ w in if y <? 2 ^ (w - 1) then y else y - 2 ^ w.
Definition i8  (x : Z) : Z := signed 8 x.
Definition i32 (x : Z) : Z := signed 32 x.
Definition i64 (x : Z) : Z := signed 64 x.

Lemma u64_small x : 0 <= x < 2 ^ 64 -> u64 x = x.
Proof. intros. unfold u64. by apply Z.mod_small. Qed.
Lemma u32_small x : 0 <= x < 2 ^ 32 -> u32 x = x.
Proof. intros. unfold u32. by apply Z.mod_small. Qed.
Lemma u64_range x : 0 <= u64 x < 2 ^ 64.
Proof. unfold u64. apply Z.mod_pos_bound. lia. Qed.
Lemma u32_range x : 0 <= u32 x < 2 ^ 32.
Proof. unfold u32. apply Z.mod_pos_bound. lia. Qed.

Lemma signed_small w x :
  0 < w -> - 2 ^ (w - 1) <= x < 2 ^ (w - 1) -> signed w x = x.
Proof.
  intros Hw Hx. unfold signed.
  assert (2 ^ w = 2 * 2 ^ (w - 1)) as Hp.
  { replace w with (1 + (w - 1)) at 1 by lia. rewrite Z.pow_add_r by lia. lia. }
  destruct (decide (0 <= x)).
  - rewrite Z.mod_small by lia. destruct (Z.ltb_spec x (2 ^ (w - 1))); lia.
  - assert (x mod 2 ^ w = x + 2 ^ w) as ->.
    { rewrite <- (Z.mod_small (x + 2 ^ w) (2 ^ w)) by lia.
      replace (x + 2 ^ w) with (x + 1 * 2 ^ w) by lia. by rewrite Z_mod_plus_full. }
    destruct (Z.ltb_spec (x + 2 ^ w) (2 ^ (w - 1))); lia.
Qed.
Lemma i64_range x : - 2 ^ 63 <= i64 x < 2 ^ 63.
Proof.
  unfold i64, signed. pose proof (Z.mod_pos_bound x (2 ^ 64) ltac:(lia)). change (2 ^ (64 - 1)) with (2 ^ 63).
  destruct (Z.ltb_spec (x mod 2 ^ 64) (2 ^ 63)); lia.
Qed.
Lemma i32_small x : - 2 ^ 31 <= x < 2 ^ 31 -> i32 x = x.
Proof. apply (signed_small 32). lia. Qed.
Lemma i64_small x : - 2 ^ 63 <= x < 2 ^ 63 -> i64 x = x.
Proof. apply (signed_small 64). lia. Qed.
Lemma i8_small x : - 2 ^ 7 <= x < 2 ^ 7 -> i8 x = x.
Proof. apply (signed_small 8). lia. Qed.

Lemma u8_small x : 0 <= x < 2 ^ 8 -> u8 x = x.
Proof. intros. unfold u8. by apply Z.mod_small. Qed.
Lemma u8_range x : 0 <= u8 x < 2 ^ 8.
Proof. unfold u8. apply Z.mod_pos_bound. lia. Qed.

(** ** Arrays indexed by machine integers *)

(** [zget l i] is the C read [l[i]] of an array of [length l] elements and
    [zset l i x] the write [l[i] = x]; both fault outside the array. *)
Definition zget {A} (l : list A) (i : Z) : outcome A :=
  if 0 <=? i then match l !! Z.to_nat i with Some x => Ok x | None => Fault OutOfBounds end
  else Fault OutOfBounds.
Definition zset {A} (l : list A) (i : Z) (x : A) : outcome (list A) :=
  if (0 <=? i) && (i <? Z.of_nat (length l)) then Ok (<[Z.to_nat i := x]> l)
  else Fault OutOfBounds.

Definition zlength {A} (l : list A) : Z := Z.of_nat (length l).

Lemma zget_Ok {A} (l : list A) i x :
  zget l i = Ok x <-> 0 <= i /\ l !! Z.to_nat i = Some x.
Proof.
  unfold zget. destruct (Z.leb_spec 0 i); [|split; [done|lia]].
  destruct (l !! Z.to_nat i); split; intros; destruct_and?; simplify_eq; auto.
Qed.
Lemma zget_in {A} (l : list A) i :
  0 <= i < zlength l -> exists x, l !! Z.to_nat i = Some x /\ zget l i = Ok x.
Proof.
  unfold zlength. intros Hi.
  destruct (lookup_lt_is_Some_2 l (Z.to_nat i)) as [x Hx]; [lia|].
  exists x. split; [done|]. apply zget_Ok. split; [lia|done].
Qed.
Lemma zset_in {A} (l : list A) i x :
  0 <= i < zlength l -> zset l i x = Ok (<[Z.to_nat i := x]> l).
Proof.
  unfold zset, zlength. intros Hi.
  destruct (Z.leb_spec 0 i); [|lia]. destruct (Z.ltb_spec i (Z.of_nat (length l))); [done|lia].
Qed.
Lemma zset_Ok {A} (l l' : list A) i x :
  zset l i x = Ok l' <-> 0 <= i < zlength l /\ l' = <[Z.to_nat i := x]> l.
Proof.
  unfold zset, zlength. destruct (Z.leb_spec 0 i); simpl; [|split; [done|lia]].
  destruct (Z.ltb_spec i (Z.of_nat (length l))); split; intros; destruct_and?; simplify_eq; auto; lia.
Qed.
Lemma zlength_insert {A} (l : list A) i x : zlength (<[i := x]> l) = zlength l.
Proof. unfold zlength. by rewrite length_insert. Qed.
Lemma zlength_nonneg {A} (l : list A) : 0 <= zlength l.
Proof. unfold zlength. lia. Qed.

(** ** Reasoning about the monads *)

Lemma bind_Ok {A B} (m : outcome A) (k : A -> outcome B) b :
  (m ≫= k) = Ok b <-> exists a, m = Ok a /\ k a = Ok b.
Proof.
  destruct m as [a|f]; simpl; split; [|intros (a' & [= ->] & ?)| |intros (a' & [=] & ?)]; eauto.
  discriminate.
Qed.

Lemma M_bind_Ok {S A B} (m : M S A) (k : A -> M S B) s b s' :
  (m ≫= k) s = Ok (b, s') <-> exists a s1, m s = Ok (a, s1) /\ k a s1 = Ok (b, s').
Proof.
  unfold mbind, M_bind.
  destruct (m s) as [[a s1]|f]; split;
    [|intros (a' & s1' & [= -> ->] & ?)| |intros (a' & s1' & [=] & ?)]; eauto.
  discriminate.
Qed.

Lemma M_bind_step {S A B} (m : M S A) (k : A -> M S B) s a s1 :
  m s = Ok (a, s1) -> (m ≫= k) s = k a s1.
Proof. unfold mbind, M_bind. by intros ->. Qed.

Lemma M_bind_fault {S A B} (m : M S A) (k : A -> M S B) s f :
  m s = Fault f -> (m ≫= k) s = Fault f.
Proof. unfold mbind, M_bind. by intros ->. Qed.

(** [mstep H] runs the first step of a computation, whose result is [H]. *)
Tactic Notation "mstep" uconstr(H) := rewrite (M_bind_step _ _ _ _ _ H).

(** Rule induction for an invariant of a step relation. *)
Lemma rtc_invariant {A} (R : relation A) (P : A -> Prop) x y :
  (forall a b, P a -> R a b -> P b) -> P x -> rtc R x y -> P y.
Proof. intros Hs Hx Hr. induction Hr as [|x y z Hxy _ IH]; [done|]. eauto. Qed.

(** [inv_ok] takes apart hypotheses that say a computation returned. *)
Ltac inv_ok :=
  repeat match goal with
  | H : Ok _ = Ok _ |- _ => injection H as H; try subst
  | H : Fault _ = Ok _ |- _ => discriminate H
  | H : Ok _ = Fault _ |- _ => discriminate H
  | H : mret _ = Ok _ |- _ => unfold mret, outcome_ret in H
  | H : (_ ≫= _) = Ok _ |- _ => apply bind_Ok in H; destruct H as (? & ? & ?)
  | H : (_ ≫= _) _ = Ok (_, _) |- _ => apply M_bind_Ok in H; destruct H as (? & ? & ? & ?)
  | H : zget _ _ = Ok _ |- _ => apply zget_Ok in H; destruct H as [? ?]
  | H : zset _ _ _ = Ok _ |- _ => apply zset_Ok in H; destruct H as [? ?]
  end.

(** Partial correctness: when [m] returns, the states are related by [R] and
    the result satisfies [V]. *)
Definition runs {S A} (R : S -> S -> Prop) (m : M S A) (V : A -> Prop) : Prop :=
  forall s a s', m s = Ok (a, s') -> R s s' /\ V a.

Section runs.
Context {S : Type} (R : S -> S -> Prop).
Context `{!Reflexive R, !Transitive R}.

Lemma runs_ret {A} (a : A) (V : A -> Prop) : V a -> runs R (mret a) V.
Proof. intros HV s b s' H. injection H as <- <-. by split. Qed.
Lemma runs_bind {A B} (m : M S A) (k : A -> M S B) V W :
  runs R m V -> (forall a, V a -> runs R (k a) W) -> runs R (m ≫= k) W.
Proof.
  intros Hm Hk s b s' H. apply M_bind_Ok in H as (a & s1 & H1 & H2).
  destruct (Hm _ _ _ H1) as [HR1 HV]. destruct (Hk a HV _ _ _ H2) as [HR2 HW]. split; [by etrans|done].
Qed.
Lemma runs_get : runs R get (fun _ => True).
Proof. intros s a s' H. injection H as <- <-. by split. Qed.
Lemma runs_gets {A} (f : S -> A) : runs R (gets f) (fun _ => True).
Proof. intros s a s' H. injection H as <- <-. by split. Qed.
Lemma runs_modify f : (forall s, R s (f s)) -> runs R (modify f) (fun _ => True).
Proof. intros HR s a s' H. injection H as <- <-. by split. Qed.
Lemma runs_throw {A} f (V : A -> Prop) : runs R (throw f) V.
Proof. intros s a s' H. discriminate. Qed.
Lemma runs_lift {A} (o : outcome A) : runs R (lift o) (fun a => o = Ok a).
Proof. intros s a s' H. unfold lift in H. destruct o; [|done]. injection H as <- <-. by split. Qed.
Lemma runs_weaken {A} (m : M S A) (V W : A -> Prop) : runs R m V -> (forall a, V a -> W a) -> runs R m W.
Proof. intros Hm HV s a s' H. destruct (Hm _ _ _ H). auto. Qed.
End runs.

(** Case analysis on the boolean comparisons of the code. *)
Ltac zb :=
  repeat match goal with
  | |- context [?a <? ?b] => destruct (Z.ltb_spec a b)
  | |- context [?a <=? ?b] => destruct (Z.leb_spec a b)
  | |- context [?a =? ?b] => destruct (Z.eqb_spec a b)
  | H : context [?a <? ?b] |- _ => destruct (Z.ltb_spec a b)
  | H : context [?a <=? ?b] |- _ => destruct (Z.leb_spec a b)
  | H : context [?a =? ?b] |- _ => destruct (Z.eqb_spec a b)
  end.

(** Integer division and remainder by literals, as linear facts. *)
Ltac zdm := Z.div_mod_to_equations; lia.

Create HintDb slotfs.
Create Rewrite HintDb slotfs.
#[export] Hint Resolve zlength_nonneg u64_range u32_range u8_range : slotfs.
#[export] Hint Rewrite @zlength_insert @length_insert : slotfs.

(** ** Macros of config.h *)

Definition ALIGN (x a : Z) : Z := Z.land (u64 (x + a - 1)) (u64 (Z.lnot (a - 1))).
Definition ROUND_UP (n d : Z) : Z := (n + d - 1) / d * d.

Lemma land_lnot_ones x k :
  0 <= k <= 64 -> 0 <= x < 2 ^ 64 ->
  Z.land x (u64 (Z.lnot (2 ^ k - 1))) = x / 2 ^ k * 2 ^ k.
Proof.
  intros Hk Hx. rewrite Z.sub_1_r, <- Z.ones_equiv, <- Z.shiftr_div_pow2, <- Z.shiftl_mul_pow2 by lia.
  apply Z.bits_inj'. intros j Hj.
  rewrite Z.land_spec, Z.shiftl_spec by done. unfold u64.
  destruct (decide (j < 64)).
  - rewrite Z.mod_pow2_bits_low, Z.lnot_spec by lia.
    destruct (decide (j < k)).
    + rewrite Z.ones_spec_low by lia. rewrite andb_false_r. symmetry. apply Z.testbit_neg_r. lia.
    + rewrite Z.ones_spec_high by lia. rewrite andb_true_r, Z.shiftr_spec by lia. f_equal. lia.
  - rewrite Z.mod_pow2_bits_high by lia. rewrite andb_false_r.
    rewrite Z.shiftr_spec by lia. replace (j - k + k) with j by lia.
    rewrite <- (Z.mod_small x (2 ^ 64)) by lia. symmetry. apply Z.mod_pow2_bits_high. lia.
Qed.

(** [ALIGN] to a power of two is the least multiple that is not smaller. *)
Lemma ALIGN_pow2 x k :
  0 <= k <= 64 -> 0 <= x -> x + 2 ^ k - 1 < 2 ^ 64 ->
  ALIGN x (2 ^ k) = (x + 2 ^ k - 1) / 2 ^ k * 2 ^ k.
Proof.
  intros Hk Hx Hb. unfold ALIGN. assert (0 < 2 ^ k) by (apply Z.pow_pos_nonneg; lia).
  rewrite u64_small by lia. apply land_lnot_ones; lia.
Qed.
Lemma ALIGN_bounds x k :
  0 <= k <= 64 -> 0 <= x -> x + 2 ^ k - 1 < 2 ^ 64 -> x <= ALIGN x (2 ^ k) < x + 2 ^ k.
Proof.
  intros Hk Hx Hb. rewrite ALIGN_pow2 by done. assert (0 < 2 ^ k) by (apply Z.pow_pos_nonneg; lia).
  pose proof (Z.div_mod (x + 2 ^ k - 1) (2 ^ k)). pose proof (Z.mod_pos_bound (x + 2 ^ k - 1) (2 ^ k)).
  lia.
Qed.
