(* ===== verification/ListHead.v ===== *)
(** * Intrusive lists (src/slotfs/list.h)

    The doubly linked lists of the kernel: an object has a [list_head] with the
    addresses of its neighbours, and a list is a ring through a head.  The other
    files have such a list as the sequence of the addresses on it; here the
    operations are those of the code, on the memory of the [list_head]s, and
    shown to be the operations on sequences. *)
From stdpp Require Import base numbers list gmap.
From S2P Require Import Prelude.
Local Open Scope Z_scope.

Definition LIST_POISON1 : Z := 0x00100100.
Definition LIST_POISON2 : Z := 0x00200200.

Record list_head : Type := mk_lh { next : Z; prev : Z }.
(** The [list_head]s that are in memory. *)
Abbreviation lmem := (gmap Z list_head).

Definition rd_lh (p : Z) : M lmem list_head := fun m =>
  match m !! p with Some n => Ok (n, m) | None => Fault (if p =? 0 then NullDeref else BadPointer) end.
Definition get_next (p : Z) : M lmem Z := n ← rd_lh p; mret (next n).
Definition get_prev (p : Z) : M lmem Z := n ← rd_lh p; mret (prev n).
Definition put_next (p v : Z) (m : lmem) : lmem := alter (fun n => mk_lh v (prev n)) p m.
Definition put_prev (p v : Z) (m : lmem) : lmem := alter (fun n => mk_lh (next n) v) p m.
Definition set_next (p v : Z) : M lmem unit := _ ← rd_lh p; modify (put_next p v).
Definition set_prev (p v : Z) : M lmem unit := _ ← rd_lh p; modify (put_prev p v).

(** ** The operations *)

Definition INIT_LIST_HEAD (list : Z) : M lmem unit := _ ← set_next list list; set_prev list list.

Definition __list_add (new prev next : Z) : M lmem unit :=
  _ ← set_prev next new;
  _ ← set_next new next;
  _ ← set_prev new prev;
  set_next prev new.
Definition list_add (new head : Z) : M lmem unit := n ← get_next head; __list_add new head n.
Definition list_add_tail (new head : Z) : M lmem unit := p ← get_prev head; __list_add new p head.

Definition __list_del (prev next : Z) : M lmem unit := _ ← set_prev next prev; set_next prev next.
Definition __list_del_entry (entry : Z) : M lmem unit := p ← get_prev entry; n ← get_next entry; __list_del p n.
Definition list_del (entry : Z) : M lmem unit :=
  p ← get_prev entry;
  n ← get_next entry;
  _ ← __list_del p n;
  _ ← set_next entry LIST_POISON1;
  set_prev entry LIST_POISON2.

Definition list_replace (old new : Z) : M lmem unit :=
  n ← get_next old;
  _ ← set_next new n;
  n ← get_next new;
  _ ← set_prev n new;
  p ← get_prev old;
  _ ← set_prev new p;
  p ← get_prev new;
  set_next p new.
Definition list_replace_init (old new : Z) : M lmem unit := _ ← list_replace old new; INIT_LIST_HEAD old.
Definition list_del_init (entry : Z) : M lmem unit := _ ← __list_del_entry entry; INIT_LIST_HEAD entry.
Definition list_move (list head : Z) : M lmem unit := _ ← __list_del_entry list; list_add list head.
Definition list_move_tail (list head : Z) : M lmem unit := _ ← __list_del_entry list; list_add_tail list head.

Definition list_is_last (list head : Z) : M lmem bool := n ← get_next list; mret (n =? head).
Definition list_empty (head : Z) : M lmem bool := n ← get_next head; mret (n =? head).
Definition list_empty_careful (head : Z) : M lmem bool :=
  n ← get_next head; if n =? head then p ← get_prev head; mret (n =? p) else mret false.
Definition list_rotate_left (head : Z) : M lmem unit :=
  e ← list_empty head; if (e : bool) then mret tt else first ← get_next head; list_move_tail first head.
Definition list_is_singular (head : Z) : M lmem bool :=
  e ← list_empty head; if (e : bool) then mret false else n ← get_next head; p ← get_prev head; mret (n =? p).

Definition __list_cut_position (list head entry : Z) : M lmem unit :=
  new_first ← get_next entry;
  n ← get_next head;
  _ ← set_next list n;
  n ← get_next list;
  _ ← set_prev n list;
  _ ← set_prev list entry;
  _ ← set_next entry list;
  _ ← set_next head new_first;
  set_prev new_first head.
Definition list_cut_position (list head entry : Z) : M lmem unit :=
  e ← list_empty head;
  if (e : bool) then mret tt else
  s ← list_is_singular head;
  n ← get_next head;
  if (s : bool) && (negb (n =? entry) && negb (head =? entry)) then mret tt else
  if entry =? head then INIT_LIST_HEAD list else __list_cut_position list head entry.

Definition __list_splice (list prev next : Z) : M lmem unit :=
  first ← get_next list;
  last ← get_prev list;
  _ ← set_prev first prev;
  _ ← set_next prev first;
  _ ← set_next last next;
  set_prev next last.
Definition list_splice (list head : Z) : M lmem unit :=
  e ← list_empty list; if (e : bool) then mret tt else n ← get_next head; __list_splice list head n.
Definition list_splice_tail (list head : Z) : M lmem unit :=
  e ← list_empty list; if (e : bool) then mret tt else p ← get_prev head; __list_splice list p head.
Definition list_splice_init (list head : Z) : M lmem unit :=
  e ← list_empty list; if (e : bool) then mret tt else n ← get_next head; _ ← __list_splice list head n; INIT_LIST_HEAD list.
Definition list_splice_tail_init (list head : Z) : M lmem unit :=
  e ← list_empty list; if (e : bool) then mret tt else p ← get_prev head; _ ← __list_splice list p head; INIT_LIST_HEAD list.

(** The address in the first entry of a list, for [list_first_entry]. *)
Definition list_first (head : Z) : M lmem Z := get_next head.

(** ** Sequences *)

Definition nxt (m : lmem) (a : Z) : option Z := next <$> m !! a.
Definition prv (m : lmem) (a : Z) : option Z := prev <$> m !! a.
Definition linked (m : lmem) (a b : Z) : Prop := nxt m a = Some b /\ prv m b = Some a.
Fixpoint chain (m : lmem) (c : list Z) : Prop :=
  match c with
  | a :: (b :: _) as r => linked m a b /\ chain m r
  | _ => True
  end.
(** The entries [l] on the ring through [h]. *)
Definition ring (m : lmem) (h : Z) (l : list Z) : Prop := NoDup (h :: l) /\ chain m (h :: l ++ [h]).

(** All lists of a memory, by the address of their head. *)
Abbreviation lists := (gmap Z (list Z)).
Definition owned (W : lists) (x h : Z) : Prop := exists l, W !! h = Some l /\ x ∈ h :: l.
Definition loose (W : lists) (x : Z) : Prop := forall h, ~ owned W x h.

Record rep (D : gset Z) (m : lmem) (W : lists) : Prop := mk_rep {
  rp_dom : dom m = D;
  rp_ring : forall h l, W !! h = Some l -> ring m h l;
  rp_sep : forall x h h', owned W x h -> owned W x h' -> h = h' }.

(** The calls, and what they are on sequences. *)
Inductive lop : Type :=
  | Init (x : Z) | Add (x h : Z) | AddTail (x h : Z) | Del (x : Z) | DelInit (x : Z)
  | Replace (x y : Z) | ReplaceInit (x y : Z) | Move (x h : Z) | MoveTail (x h : Z) | RotateLeft (h : Z)
  | Cut (k h x : Z) | Splice (k h : Z) | SpliceTail (k h : Z) | SpliceInit (k h : Z) | SpliceTailInit (k h : Z)
  | IsLast (x h : Z) | Empty (h : Z) | EmptyCareful (h : Z) | IsSingular (h : Z) | First (h : Z).

Definition void (c : M lmem unit) : M lmem Z := _ ← c; mret 0.
Definition int (c : M lmem bool) : M lmem Z := b ← c; mret (Z.b2z b).
Definition run_lop (o : lop) : M lmem Z :=
  match o with
  | Init x => void (INIT_LIST_HEAD x)
  | Add x h => void (list_add x h)
  | AddTail x h => void (list_add_tail x h)
  | Del x => void (list_del x)
  | DelInit x => void (list_del_init x)
  | Replace x y => void (list_replace x y)
  | ReplaceInit x y => void (list_replace_init x y)
  | Move x h => void (list_move x h)
  | MoveTail x h => void (list_move_tail x h)
  | RotateLeft h => void (list_rotate_left h)
  | Cut k h x => void (list_cut_position k h x)
  | Splice k h => void (list_splice k h)
  | SpliceTail k h => void (list_splice_tail k h)
  | SpliceInit k h => void (list_splice_init k h)
  | SpliceTailInit k h => void (list_splice_tail_init k h)
  | IsLast x h => int (list_is_last x h)
  | Empty h => int (list_empty h)
  | EmptyCareful h => int (list_empty_careful h)
  | IsSingular h => int (list_is_singular h)
  | First h => list_first h
  end.

(** One call on the sequences, with its result.  An object that is added is
    on no list; [list_splice] leaves the head of the list it takes, and
    [list_del] the entry, in no state to be used. *)
Inductive seq_step (D : gset Z) (W : lists) : lop -> Z -> lists -> Prop :=
  | sq_init x : x ∈ D -> (forall h, owned W x h -> h = x) -> seq_step D W (Init x) 0 (<[x := []]> W)
  | sq_add x h l : x ∈ D -> loose W x -> W !! h = Some l -> seq_step D W (Add x h) 0 (<[h := x :: l]> W)
  | sq_add_tail x h l : x ∈ D -> loose W x -> W !! h = Some l -> seq_step D W (AddTail x h) 0 (<[h := l ++ [x]]> W)
  | sq_del x h l1 l2 : W !! h = Some (l1 ++ x :: l2) -> seq_step D W (Del x) 0 (<[h := l1 ++ l2]> W)
  | sq_del_init x h l1 l2 : W !! h = Some (l1 ++ x :: l2) -> seq_step D W (DelInit x) 0 (<[x := []]> (<[h := l1 ++ l2]> W))
  | sq_replace x y h l1 l2 : W !! h = Some (l1 ++ x :: l2) -> y ∈ D -> loose W y -> seq_step D W (Replace x y) 0 (<[h := l1 ++ y :: l2]> W)
  | sq_replace_init x y h l1 l2 : W !! h = Some (l1 ++ x :: l2) -> y ∈ D -> loose W y ->
      seq_step D W (ReplaceInit x y) 0 (<[x := []]> (<[h := l1 ++ y :: l2]> W))
  | sq_move x h l1 l2 g l : W !! h = Some (l1 ++ x :: l2) -> <[h := l1 ++ l2]> W !! g = Some l ->
      seq_step D W (Move x g) 0 (<[g := x :: l]> (<[h := l1 ++ l2]> W))
  | sq_move_tail x h l1 l2 g l : W !! h = Some (l1 ++ x :: l2) -> <[h := l1 ++ l2]> W !! g = Some l ->
      seq_step D W (MoveTail x g) 0 (<[g := l ++ [x]]> (<[h := l1 ++ l2]> W))
  | sq_rotate_nil h : W !! h = Some [] -> seq_step D W (RotateLeft h) 0 W
  | sq_rotate h x l : W !! h = Some (x :: l) -> seq_step D W (RotateLeft h) 0 (<[h := l ++ [x]]> W)
  | sq_cut_nil k h x : W !! h = Some [] -> seq_step D W (Cut k h x) 0 W
  | sq_cut_head k h l : W !! h = Some l -> W !! k = Some [] -> seq_step D W (Cut k h h) 0 W
  | sq_cut k h x l1 l2 : W !! h = Some (l1 ++ x :: l2) -> W !! k = Some [] -> seq_step D W (Cut k h x) 0 (<[k := l1 ++ [x]]> (<[h := l2]> W))
  | sq_splice_nil o k h : In o [Splice; SpliceTail; SpliceInit; SpliceTailInit] -> W !! k = Some [] -> seq_step D W (o k h) 0 W
  | sq_splice k h l0 l : k <> h -> W !! k = Some l0 -> l0 <> [] -> W !! h = Some l -> seq_step D W (Splice k h) 0 (<[h := l0 ++ l]> (delete k W))
  | sq_splice_tail k h l0 l : k <> h -> W !! k = Some l0 -> l0 <> [] -> W !! h = Some l -> seq_step D W (SpliceTail k h) 0 (<[h := l ++ l0]> (delete k W))
  | sq_splice_init k h l0 l : k <> h -> W !! k = Some l0 -> l0 <> [] -> W !! h = Some l ->
      seq_step D W (SpliceInit k h) 0 (<[k := []]> (<[h := l0 ++ l]> (delete k W)))
  | sq_splice_tail_init k h l0 l : k <> h -> W !! k = Some l0 -> l0 <> [] -> W !! h = Some l ->
      seq_step D W (SpliceTailInit k h) 0 (<[k := []]> (<[h := l ++ l0]> (delete k W)))
  | sq_is_last x h l1 l2 : W !! h = Some (l1 ++ x :: l2) -> seq_step D W (IsLast x h) (Z.b2z (bool_decide (l2 = []))) W
  | sq_empty o h l : In o [Empty; EmptyCareful] -> W !! h = Some l -> seq_step D W (o h) (Z.b2z (bool_decide (l = []))) W
  | sq_is_singular h l : W !! h = Some l -> seq_step D W (IsSingular h) (Z.b2z (bool_decide (length l = 1%nat))) W
  | sq_first h x l : W !! h = Some (x :: l) -> seq_step D W (First h) x W.

Inductive seq_run (D : gset Z) : lists -> list (lop * Z) -> lists -> Prop :=
  | sr_nil W : seq_run D W [] W
  | sr_cons W o r W1 t W2 : seq_step D W o r W1 -> seq_run D W1 t W2 -> seq_run D W ((o, r) :: t) W2.
Fixpoint run_lops (os : list lop) : M lmem (list Z) :=
  match os with [] => mret [] | o :: os' => r ← run_lop o; rs ← run_lops os'; mret (r :: rs) end.

(** ** Memory *)

Lemma nxt_put_next p v m a : p ∈ dom m -> nxt (put_next p v m) a = if decide (a = p) then Some v else nxt m a.
Proof.
  intros [n Hn]%elem_of_dom. unfold nxt, put_next. case_decide as Ha; [subst a; by rewrite lookup_alter_eq, Hn|by rewrite lookup_alter_ne by congruence].
Qed.
Lemma prv_put_prev p v m a : p ∈ dom m -> prv (put_prev p v m) a = if decide (a = p) then Some v else prv m a.
Proof.
  intros [n Hn]%elem_of_dom. unfold prv, put_prev. case_decide as Ha; [subst a; by rewrite lookup_alter_eq, Hn|by rewrite lookup_alter_ne by congruence].
Qed.
Lemma nxt_put_prev p v m a : nxt (put_prev p v m) a = nxt m a.
Proof. unfold nxt, put_prev. destruct (decide (a = p)) as [->|Ha]; [rewrite lookup_alter_eq; by destruct (m !! p)|by rewrite lookup_alter_ne by congruence]. Qed.
Lemma prv_put_next p v m a : prv (put_next p v m) a = prv m a.
Proof. unfold prv, put_next. destruct (decide (a = p)) as [->|Ha]; [rewrite lookup_alter_eq; by destruct (m !! p)|by rewrite lookup_alter_ne by congruence]. Qed.
Lemma dom_put_next p v m : dom (put_next p v m) = dom m.
Proof. apply dom_alter_L. Qed.
Lemma dom_put_prev p v m : dom (put_prev p v m) = dom m.
Proof. apply dom_alter_L. Qed.
Lemma lookup_put_next p v m a : a <> p -> put_next p v m !! a = m !! a.
Proof. intros Ha. by apply lookup_alter_ne. Qed.
Lemma lookup_put_prev p v m a : a <> p -> put_prev p v m !! a = m !! a.
Proof. intros Ha. by apply lookup_alter_ne. Qed.

Lemma get_next_eq p v m : nxt m p = Some v -> get_next p m = Ok (v, m).
Proof. unfold nxt, get_next, rd_lh. intros (n & Hn & ->)%fmap_Some. unfold mbind, M_bind. by rewrite Hn. Qed.
Lemma get_prev_eq p v m : prv m p = Some v -> get_prev p m = Ok (v, m).
Proof. unfold prv, get_prev, rd_lh. intros (n & Hn & ->)%fmap_Some. unfold mbind, M_bind. by rewrite Hn. Qed.
Lemma set_next_eq p v m : p ∈ dom m -> set_next p v m = Ok (tt, put_next p v m).
Proof. intros [n Hn]%elem_of_dom. unfold set_next, rd_lh. unfold mbind, M_bind. by rewrite Hn. Qed.
Lemma set_prev_eq p v m : p ∈ dom m -> set_prev p v m = Ok (tt, put_prev p v m).
Proof. intros [n Hn]%elem_of_dom. unfold set_prev, rd_lh. unfold mbind, M_bind. by rewrite Hn. Qed.

(** Addresses that are in memory, and the fields of a memory after stores. *)
Ltac doms := repeat first [rewrite dom_put_next|rewrite dom_put_prev].
Ltac in_dom := doms; assumption.
Ltac fields := repeat first [rewrite nxt_put_prev|rewrite prv_put_next|rewrite nxt_put_next by in_dom|rewrite prv_put_prev by in_dom].

(** ** Chains *)

Lemma last_cons (l : list Z) x a : List.last (x :: l) a = List.last l x.
Proof. revert x a. induction l as [|y l IH]; intros x a; [done|]. change (List.last (y :: l) a = List.last (y :: l) x). by rewrite !IH. Qed.
Lemma chain_app m a c1 b c2 :
  chain m (a :: c1 ++ b :: c2) <-> chain m (a :: c1) /\ linked m (List.last c1 a) b /\ chain m (b :: c2).
Proof.
  revert a. induction c1 as [|x c1 IH]; intros a; [cbn; tauto|]. rewrite last_cons.
  change (linked m a x /\ chain m (x :: c1 ++ b :: c2) <-> (linked m a x /\ chain m (x :: c1)) /\ linked m (List.last c1 x) b /\ chain m (b :: c2)).
  rewrite IH. tauto.
Qed.
(** The point between [l1] and [l2] on a chain. *)
Lemma chain_at m a h l1 l2 :
  chain m (a :: (l1 ++ l2) ++ [h]) <-> chain m (a :: l1) /\ linked m (List.last l1 a) (hd h l2) /\ chain m (l2 ++ [h]).
Proof. rewrite <- app_assoc. destruct l2 as [|y l2]; cbn [app hd]; apply chain_app. Qed.

Lemma chain_frame m m' c : chain m c ->
  (forall a, a ∈ removelast c -> nxt m' a = nxt m a) -> (forall b, b ∈ tail c -> prv m' b = prv m b) -> chain m' c.
Proof.
  induction c as [|a [|b c] IH]; [done..|]. intros [[Hn Hp] Hc] H1 H2. split.
  - split; [rewrite H1; [exact Hn|apply list_elem_of_here]|rewrite H2; [exact Hp|apply list_elem_of_here]].
  - apply IH; [exact Hc|intros x Hx; apply H1; by apply list_elem_of_further|intros x Hx; apply H2; by apply list_elem_of_further].
Qed.
Lemma chain_dom m c x y : chain m (x :: y :: c) -> forall a, a ∈ x :: y :: c -> a ∈ dom m.
Proof.
  revert x y. induction c as [|z c IH]; intros x y [[Hn Hp] Hc] a Ha.
  - assert (x ∈ dom m) as Hx by (apply elem_of_dom; unfold nxt in Hn; destruct (m !! x); [by eexists|done]).
    assert (y ∈ dom m) as Hy by (apply elem_of_dom; unfold prv in Hp; destruct (m !! y); [by eexists|done]). set_solver.
  - apply elem_of_cons in Ha as [->|Ha]; [apply elem_of_dom; unfold nxt in Hn; destruct (m !! x); [by eexists|done]|]. by apply (IH y z).
Qed.

Lemma chain_hd m x h l : chain m (x :: l ++ [h]) <-> linked m x (hd h l) /\ chain m (l ++ [h]).
Proof. by destruct l. Qed.
Lemma last_in (l : list Z) h : List.last l h ∈ h :: l.
Proof. revert h. induction l as [|x l IH]; intros h; [apply list_elem_of_here|]. destruct l as [|y l]; [cbn; set_solver|]. specialize (IH h). change (List.last (x :: y :: l) h) with (List.last (y :: l) h). set_solver. Qed.
Lemma hd_in (l : list Z) h : hd h l ∈ l ++ [h].
Proof. destruct l; cbn; set_solver. Qed.
Lemma removelast_snoc (l : list Z) h : removelast (l ++ [h]) = l.
Proof. apply removelast_last. Qed.
Lemma removelast_in (l : list Z) a : a ∈ removelast l -> a ∈ l.
Proof. induction l as [|x [|y l] IH]; [done|cbn; set_solver|]. change (removelast (x :: y :: l)) with (x :: removelast (y :: l)). set_solver. Qed.
Lemma last_not_before (l : list Z) h : NoDup (h :: l) -> List.last l h ∉ removelast (h :: l).
Proof.
  revert h. induction l as [|x l IH]; intros h Hd; [cbn; set_solver|]. change (removelast (h :: x :: l)) with (h :: removelast (x :: l)).
  rewrite last_cons. apply NoDup_cons in Hd as [Hh Hd]. specialize (IH x Hd). pose proof (last_in l x). set_solver.
Qed.

(** The neighbours of a point of a ring are not met elsewhere on it. *)
Lemma ends (h : Z) (l1 l2 : list Z) : NoDup (h :: l1 ++ l2) ->
  (forall a, a ∈ removelast (h :: l1) -> a <> List.last l1 h) /\ (forall a, a ∈ l2 -> a <> List.last l1 h) /\
  (forall b, b ∈ l1 -> b <> hd h l2) /\ (forall b, b ∈ tail (l2 ++ [h]) -> b <> hd h l2).
Proof.
  intros Hd. change (h :: l1 ++ l2) with ((h :: l1) ++ l2) in Hd. apply NoDup_app in Hd as (H1 & H12 & H2). split_and!.
  - intros a Ha ->. by apply (last_not_before l1 h).
  - intros a Ha ->. by apply (H12 (List.last l1 h)); [apply last_in|].
  - intros b Hb ->. pose proof (hd_in l2 h) as Hn. apply elem_of_app in Hn as [Hn|Hn%list_elem_of_singleton]; [apply (H12 (hd h l2)); [by apply list_elem_of_further|done]|].
    rewrite Hn in Hb. by apply NoDup_cons in H1 as [H1 _].
  - intros b Hb ->. destruct l2 as [|y l2]; cbn [hd app tail] in *; [set_solver|]. apply NoDup_cons in H2 as [H2 _]. apply elem_of_app in Hb as [Hb|Hb%list_elem_of_singleton]; [done|].
    apply (H12 h); [apply list_elem_of_here|rewrite <- Hb; apply list_elem_of_here].
Qed.

(** A ring with the chain [f :: l0] put between [l1] and [l2]. *)
Lemma chain_put m m' h l1 l2 f l0 : NoDup (h :: l1 ++ (f :: l0) ++ l2) ->
  chain m (h :: l1) -> chain m (f :: l0) -> chain m (l2 ++ [h]) ->
  linked m' (List.last l1 h) f -> linked m' (List.last l0 f) (hd h l2) ->
  (forall a, a <> List.last l1 h -> a <> List.last l0 f -> nxt m' a = nxt m a) ->
  (forall b, b <> f -> b <> hd h l2 -> prv m' b = prv m b) ->
  chain m' (h :: (l1 ++ (f :: l0) ++ l2) ++ [h]).
Proof.
  intros Hd H1 H0 H2 L1 L2 En Ep. rewrite (Permutation_app_comm (f :: l0) l2) in Hd.
  assert (NoDup (h :: l1 ++ l2) /\ NoDup (f :: l0) /\ forall a, a ∈ f :: l0 -> a ∉ h :: l1 ++ l2) as (Hd' & Hf & Hsep).
  { rewrite app_assoc in Hd. change (NoDup ((h :: l1 ++ l2) ++ f :: l0)) in Hd. apply NoDup_app in Hd as (? & Hs & ?). split_and!; [done..|]. intros a Ha Ha'. by apply (Hs a). }
  destruct (ends h l1 l2 Hd') as (A1 & A2 & A3 & A4). pose proof (last_in l1 h) as Hp. pose proof (hd_in l2 h) as Hn. pose proof (last_in l0 f) as He.
  assert (forall b, b ∈ tail (l2 ++ [h]) -> b ∈ l2 ++ [h]) as Ht by (intros b Hb; by destruct (l2 ++ [h]); [|apply list_elem_of_further]).
  rewrite chain_at. cbn [hd app]. rewrite chain_at. split_and!; [|exact L1| |exact L2|].
  - apply (chain_frame m); [exact H1|..]; intros a Ha.
    + apply En; [by apply A1|]. apply removelast_in in Ha. intros ->. apply (Hsep _ He). set_solver.
    + cbn [tail] in Ha. apply Ep; [|by apply A3]. intros ->. apply (Hsep f); set_solver.
  - apply (chain_frame m); [exact H0|..]; intros a Ha.
    + apply En; [|intros ->; by apply (last_not_before l0 f)]. apply removelast_in in Ha. intros ->. apply (Hsep _ Ha). set_solver.
    + cbn [tail] in Ha. apply Ep; [intros ->; by apply NoDup_cons in Hf as [? _]|]. intros ->. apply (Hsep (hd h l2)); set_solver.
  - apply (chain_frame m); [exact H2|..]; intros a Ha.
    + rewrite removelast_snoc in Ha. apply En; [by apply A2|]. intros ->. apply (Hsep _ He). set_solver.
    + apply Ep; [|by apply A4]. apply Ht in Ha. intros ->. apply (Hsep f); set_solver.
Qed.

(** ** Memories with lists *)

Lemma ring_dom m h l : ring m h l -> forall a, a ∈ h :: l -> a ∈ dom m.
Proof.
  intros [_ Hc] a Ha. destruct l as [|y l]; cbn [app] in Hc; apply (chain_dom _ _ _ _ Hc); set_solver.
Qed.
Lemma owned_insert W h l x g : owned (<[h := l]> W) x g -> (g = h /\ x ∈ h :: l) \/ (g <> h /\ owned W x g).
Proof. intros (l' & El & Hx). apply lookup_insert_Some in El as [[<- <-]|[Hne El]]; [by left|right; split; [congruence|by exists l']]. Qed.
Lemma owned_delete W k x g : owned (delete k W) x g -> g <> k /\ owned W x g.
Proof. intros (l & [Hk El]%lookup_delete_Some & Hx). split; [congruence|by exists l]. Qed.

Lemma lrep_insert D m m' W h l : rep D m W -> dom m' = D -> ring m' h l ->
  (forall x g, x ∈ h :: l -> owned W x g -> g = h) ->
  (forall x g, g <> h -> owned W x g -> m' !! x = m !! x) -> rep D m' (<[h := l]> W).
Proof.
  intros [Hd Hr Hs] Hd' Hl Ho Hf. split; [exact Hd'|..].
  - intros g k Eg. apply lookup_insert_Some in Eg as [[<- <-]|[Hne Eg]]; [exact Hl|]. destruct (Hr _ _ Eg) as [Hn Hc]. split; [exact Hn|].
    assert (forall x, x ∈ g :: k ++ [g] -> m' !! x = m !! x) as He by (intros x Hx; apply (Hf x g); [congruence|exists k; set_solver]).
    apply (chain_frame m); [exact Hc|..]; intros x Hx; unfold nxt, prv; rewrite He; [done| |done|].
    + by apply removelast_in.
    + cbn [tail] in Hx. by apply list_elem_of_further.
  - intros x g g' [[-> Hx]|[_ Hx]]%owned_insert [[-> Hx']|[_ Hx']]%owned_insert; [done|symmetry; by apply (Ho x)|by apply (Ho x)|by apply (Hs x)].
Qed.
Lemma rep_delete D m W k : rep D m W -> rep D m (delete k W).
Proof.
  intros [Hd Hr Hs]. split; [exact Hd|intros h l [_ El]%lookup_delete_Some; by apply Hr|].
  intros x h h' [_ H1]%owned_delete [_ H2]%owned_delete. by apply (Hs x).
Qed.
Lemma rep_loose D m m' W : rep D m W -> dom m' = D -> (forall x, ~ loose W x -> m' !! x = m !! x) -> rep D m' W.
Proof.
  intros [Hd Hr Hs] Hd' Hf. split; [exact Hd'| |exact Hs]. intros h l El. destruct (Hr _ _ El) as [Hn Hc]. split; [exact Hn|].
  assert (forall x, x ∈ h :: l ++ [h] -> m' !! x = m !! x) as He by (intros x Hx; apply Hf; intros Hx'; apply (Hx' h); exists l; set_solver).
  apply (chain_frame m); [exact Hc|..]; intros x Hx; unfold nxt, prv; rewrite He; [done| |done|].
  - by apply removelast_in.
  - cbn [tail] in Hx. by apply list_elem_of_further.
Qed.

Section ops.
Context {D : gset Z} {m : lmem} {W : lists} (R : rep D m W).

Lemma owned_dom x h : owned W x h -> x ∈ dom m.
Proof. intros (l & El & Hx). by apply (ring_dom m h l); [apply (rp_ring _ _ _ R)|]. Qed.

(** What is known at the point between [l1] and [l2] of a ring. *)
Record point (h : Z) (l1 l2 : list Z) : Prop := mk_point {
  pt_nodup : NoDup (h :: l1 ++ l2);
  pt_left : chain m (h :: l1);
  pt_right : chain m (l2 ++ [h]);
  pt_next : nxt m (List.last l1 h) = Some (hd h l2);
  pt_prev : prv m (hd h l2) = Some (List.last l1 h);
  pt_p : owned W (List.last l1 h) h;
  pt_n : owned W (hd h l2) h }.

Lemma at_point h l1 l2 : W !! h = Some (l1 ++ l2) -> point h l1 l2.
Proof.
  intros El. destruct (rp_ring _ _ _ R _ _ El) as [Hn Hc]. apply chain_at in Hc as (H1 & [Hx Hp] & H2).
  pose proof (last_in l1 h). pose proof (hd_in l2 h). split; try done; eexists; (split; [exact El|set_solver]).
Qed.
Lemma owned_by x h g : owned W x h -> owned W x g -> g = h.
Proof. intros H1 H2. by apply (rp_sep _ _ _ R x). Qed.
Lemma other x y h g : g <> h -> owned W y g -> owned W x h -> y <> x.
Proof. intros Hne Hy Hx ->. destruct Hne. by apply (owned_by x). Qed.
Lemma loose_ne x y g : owned W y g -> loose W x -> y <> x.
Proof. intros Hy Hx ->. by apply (Hx g). Qed.
Lemma in_owned h l x : W !! h = Some l -> x ∈ h :: l -> owned W x h.
Proof. intros El Hx. by exists l. Qed.

Lemma add_at h l1 l2 x : W !! h = Some (l1 ++ l2) -> x ∈ D -> loose W x ->
  exists m', __list_add x (List.last l1 h) (hd h l2) m = Ok (tt, m') /\ rep D m' (<[h := l1 ++ x :: l2]> W).
Proof.
  intros El Hx Hl. destruct (at_point h l1 l2 El) as [Hd H1 H2 En Ep Op On]. pose proof (owned_dom _ _ Op) as Dp. pose proof (owned_dom _ _ On) as Dn.
  rewrite <- (rp_dom _ _ _ R) in Hx. assert (x ∉ h :: l1 ++ l2) as Hxl by (intros Hi; apply (Hl h); by eapply in_owned).
  set (m' := put_next (List.last l1 h) x (put_prev x (List.last l1 h) (put_next x (hd h l2) (put_prev (hd h l2) x m)))). exists m'. split.
  - unfold __list_add. erewrite M_bind_step by (apply set_prev_eq; in_dom). erewrite M_bind_step by (apply set_next_eq; in_dom).
    erewrite M_bind_step by (apply set_prev_eq; in_dom). apply set_next_eq. in_dom.
  - assert (List.last l1 h <> x) as N1 by eauto using loose_ne. assert (hd h l2 <> x) as N2 by eauto using loose_ne.
    assert (NoDup (h :: l1 ++ x :: l2)) as Hd' by (rewrite <- Permutation_middle, Permutation_swap; by apply NoDup_cons).
    apply (lrep_insert D m); [exact R|unfold m'; doms; apply (rp_dom _ _ _ R)|split; [exact Hd'|]|..].
    + apply (chain_put m m' h l1 l2 x []); unfold m'; [done..|split|split|intros a ? ?|intros a ? ?]; cbn [List.last] in *; fields; repeat case_decide; congruence.
    + intros y g Hy Hg. assert (y = x \/ y ∈ h :: l1 ++ l2) as [->|Hy'] by set_solver; [by destruct (Hl g)|]. apply (owned_by y h g); [by eapply in_owned|done].
    + intros y g Hne Hg. unfold m'. rewrite lookup_put_next, lookup_put_prev, lookup_put_next, lookup_put_prev; eauto using other, loose_ne.
Qed.

Lemma get_next_head h l : W !! h = Some l -> get_next h m = Ok (hd h l, m).
Proof. intros El. apply get_next_eq. apply (pt_next h [] l (at_point h [] l El)). Qed.
Lemma get_prev_head h l : W !! h = Some l -> get_prev h m = Ok (List.last l h, m).
Proof. intros El. apply get_prev_eq. rewrite <- (app_nil_r l) in El. apply (pt_prev h l [] (at_point h l [] El)). Qed.
Lemma prv_entry h l1 x l2 : W !! h = Some (l1 ++ x :: l2) -> prv m x = Some (List.last l1 h).
Proof. intros El. apply (pt_prev h l1 (x :: l2) (at_point h l1 (x :: l2) El)). Qed.
Lemma nxt_entry h l1 x l2 : W !! h = Some (l1 ++ x :: l2) -> nxt m x = Some (hd h l2).
Proof.
  intros El. rewrite cons_middle, app_assoc in El. pose proof (pt_next h (l1 ++ [x]) l2 (at_point h (l1 ++ [x]) l2 El)) as En.
  by rewrite last_last in En.
Qed.

Lemma init_at x : x ∈ D -> (forall h, owned W x h -> h = x) ->
  exists m', INIT_LIST_HEAD x m = Ok (tt, m') /\ rep D m' (<[x := []]> W).
Proof.
  intros Hx Ho. rewrite <- (rp_dom _ _ _ R) in Hx. eexists. split.
  - unfold INIT_LIST_HEAD. erewrite M_bind_step by (apply set_next_eq; in_dom). apply set_prev_eq. in_dom.
  - apply (lrep_insert D m); [exact R|doms; apply (rp_dom _ _ _ R)|split|..].
    + apply NoDup_singleton.
    + split; [|done]. split; fields; by rewrite decide_True.
    + intros y g ->%list_elem_of_singleton. apply Ho.
    + intros y g Hne Hg. assert (y <> x) by (intros ->; by destruct Hne; apply Ho). by rewrite lookup_put_prev, lookup_put_next.
Qed.

Lemma del_at h l1 x l2 : W !! h = Some (l1 ++ x :: l2) ->
  exists m', __list_del_entry x m = Ok (tt, m') /\ __list_del (List.last l1 h) (hd h l2) m = Ok (tt, m') /\
    rep D m' (<[h := l1 ++ l2]> W) /\ x ∈ D /\ loose (<[h := l1 ++ l2]> W) x.
Proof.
  intros El. pose proof (at_point h l1 (x :: l2) El) as [Hd H1 H2 _ Ep Op Ox]. cbn [hd app] in Ep, Ox, H2. apply chain_hd in H2 as [[En _] H2].
  rewrite cons_middle, app_assoc in El. pose proof (at_point h (l1 ++ [x]) l2 El) as [_ _ _ _ _ _ On].
  pose proof (owned_dom _ _ Op) as Dp. pose proof (owned_dom _ _ On) as Dn.
  assert (__list_del (List.last l1 h) (hd h l2) m = Ok (tt, put_next (List.last l1 h) (hd h l2) (put_prev (hd h l2) (List.last l1 h) m))) as Hrun.
  { unfold __list_del. erewrite M_bind_step by (apply set_prev_eq; in_dom). apply set_next_eq. in_dom. }
  rewrite <- Permutation_middle, Permutation_swap in Hd. apply NoDup_cons in Hd as [Hx Hd]. destruct (ends h l1 l2 Hd) as (A1 & A2 & A3 & A4).
  eexists. split_and!; [|exact Hrun| | |].
  - unfold __list_del_entry. erewrite M_bind_step by (apply get_prev_eq, Ep). erewrite M_bind_step by (apply get_next_eq, En). exact Hrun.
  - apply (lrep_insert D m); [exact R|doms; apply (rp_dom _ _ _ R)|split; [exact Hd|]|..].
    + rewrite chain_at. split_and!.
      * apply (chain_frame m); [exact H1|..]; intros a Ha; fields; (rewrite decide_False; [done|]); [by apply A1|by apply A3].
      * split; fields; by rewrite decide_True.
      * apply (chain_frame m); [exact H2|..]; intros a Ha; fields; (rewrite decide_False; [done|]); [|by apply A4]. apply A2. by rewrite removelast_snoc in Ha.
    + intros y g Hy Hg. apply (owned_by y h g); [|done]. eapply in_owned; [exact El|]. set_solver.
    + intros y g Hne Hg. rewrite lookup_put_next, lookup_put_prev; eauto using other.
  - rewrite <- (rp_dom _ _ _ R). by apply (owned_dom _ h).
  - intros g [[-> Hi]|[Hne Hi]]%owned_insert; [done|]. destruct Hne. by apply (owned_by x).
Qed.

Lemma replace_at h l1 x l2 y : W !! h = Some (l1 ++ x :: l2) -> y ∈ D -> loose W y ->
  exists m', list_replace x y m = Ok (tt, m') /\ rep D m' (<[h := l1 ++ y :: l2]> W) /\ x ∈ D /\ loose (<[h := l1 ++ y :: l2]> W) x.
Proof.
  intros El Hy Hl. pose proof (at_point h l1 (x :: l2) El) as [Hd H1 H2 _ Ep Op Ox]. cbn [hd app] in Ep, Ox, H2. apply chain_hd in H2 as [[En _] H2].
  assert (owned W (hd h l2) h) as On by (pose proof (hd_in l2 h); eapply in_owned; [exact El|set_solver]).
  pose proof (owned_dom _ _ Op) as Dp. pose proof (owned_dom _ _ On) as Dn. pose proof (owned_dom _ _ Ox) as Dx. rewrite <- (rp_dom _ _ _ R) in Hy.
  assert (y ∉ h :: l1 ++ x :: l2) as Hyl by (intros Hi; apply (Hl h); by eapply in_owned).
  rewrite <- Permutation_middle, Permutation_swap in Hd. apply NoDup_cons in Hd as [Hx Hd].
  assert (List.last l1 h <> y) as N1 by eauto using loose_ne. assert (hd h l2 <> y) as N2 by eauto using loose_ne. assert (x <> y) as N3 by eauto using loose_ne.
  assert (hd h l2 <> x) as N4 by (pose proof (hd_in l2 h); set_solver).
  assert (prv m x = Some (List.last l1 h)) as Epx by exact Ep.
  assert (NoDup (h :: l1 ++ y :: l2)) as Hd' by (rewrite <- Permutation_middle, Permutation_swap; apply NoDup_cons; split; [set_solver|done]).
  set (m' := put_next (List.last l1 h) y (put_prev y (List.last l1 h) (put_prev (hd h l2) y (put_next y (hd h l2) m)))). exists m'. split_and!.
  - unfold list_replace. erewrite M_bind_step by (apply get_next_eq, En). erewrite M_bind_step by (apply set_next_eq; in_dom).
    erewrite M_bind_step by (apply get_next_eq; fields; by rewrite decide_True). erewrite M_bind_step by (apply set_prev_eq; in_dom).
    erewrite M_bind_step by (apply get_prev_eq; fields; rewrite decide_False by congruence; exact Epx). erewrite M_bind_step by (apply set_prev_eq; in_dom).
    erewrite M_bind_step by (apply get_prev_eq; fields; by rewrite decide_True). apply set_next_eq. in_dom.
  - apply (lrep_insert D m); [exact R|unfold m'; doms; apply (rp_dom _ _ _ R)|split; [exact Hd'|]|..].
    + apply (chain_put m m' h l1 l2 y []); unfold m'; [done..|split|split|intros a ? ?|intros a ? ?]; cbn [List.last] in *; fields; repeat case_decide; congruence.
    + intros z g Hz Hg. assert (z = y \/ z ∈ h :: l1 ++ x :: l2) as [->|Hz'] by set_solver; [by destruct (Hl g)|]. apply (owned_by z h g); [by eapply in_owned|done].
    + intros z g Hne Hg. unfold m'. rewrite lookup_put_next, lookup_put_prev, lookup_put_prev, lookup_put_next; eauto using other, loose_ne.
  - by rewrite <- (rp_dom _ _ _ R).
  - intros g [[-> Hi]|[Hne Hi]]%owned_insert; [set_solver|]. destruct Hne. by apply (owned_by x).
Qed.

Lemma splice_at k h f l0 l1 l2 : k <> h -> W !! k = Some (f :: l0) -> W !! h = Some (l1 ++ l2) ->
  exists m', __list_splice k (List.last l1 h) (hd h l2) m = Ok (tt, m') /\ rep D m' (<[h := l1 ++ (f :: l0) ++ l2]> (delete k W)) /\
    k ∈ D /\ loose (<[h := l1 ++ (f :: l0) ++ l2]> (delete k W)) k.
Proof.
  intros Hkh Ek El. destruct (at_point h l1 l2 El) as [Hd H1 H2 En Ep Op On]. destruct (rp_ring _ _ _ R _ _ Ek) as [Hdk Hck].
  assert (chain m (f :: l0)) as H0 by (cbn [app] in Hck; destruct Hck as [_ Hck]; rewrite <- (app_nil_r l0), chain_at in Hck; by destruct Hck).
  assert (owned W f k) as Of by (eapply in_owned; [exact Ek|set_solver]).
  assert (owned W (List.last l0 f) k) as Oe by (eapply in_owned; [exact Ek|apply list_elem_of_further, last_in]).
  assert (owned W k k) as Ok' by (eapply in_owned; [exact Ek|set_solver]).
  pose proof (owned_dom _ _ Op) as Dp. pose proof (owned_dom _ _ On) as Dn. pose proof (owned_dom _ _ Of) as Df. pose proof (owned_dom _ _ Oe) as De.
  assert (forall a b, a ∈ h :: l1 ++ l2 -> owned W b k -> a <> b) as Nhk by (intros a b Ha Hb; eapply (other b a k h); [congruence|by eapply in_owned|done]).
  assert (forall a b, a ∈ f :: l0 -> owned W b h -> a <> b) as Nkh by (intros a b Ha Hb; eapply (other b a h k); [congruence|eapply in_owned; [exact Ek|set_solver]|done]).
  assert (NoDup (h :: l1 ++ (f :: l0) ++ l2)) as Hd'.
  { apply NoDup_cons in Hdk as [_ Hdk]. rewrite (Permutation_app_comm (f :: l0) l2), app_assoc. change (NoDup ((h :: l1 ++ l2) ++ f :: l0)).
    apply NoDup_app. split_and!; [exact Hd| |exact Hdk]. intros a Ha Ha'. by apply (Nkh a a Ha'); [eapply in_owned|]. }
  pose proof (Nkh _ (List.last l1 h) (last_in l0 f) Op) as N1. pose proof (Nkh f (hd h l2) (list_elem_of_here _ _) On) as N2.
  set (m' := put_prev (hd h l2) (List.last l0 f) (put_next (List.last l0 f) (hd h l2) (put_next (List.last l1 h) f (put_prev f (List.last l1 h) m)))).
  exists m'. split_and!.
  - unfold __list_splice. erewrite M_bind_step by (by apply (get_next_head k (f :: l0))). erewrite M_bind_step by (by apply (get_prev_head k (f :: l0))). rewrite last_cons. cbn [hd].
    erewrite M_bind_step by (apply set_prev_eq; in_dom). erewrite M_bind_step by (apply set_next_eq; in_dom). erewrite M_bind_step by (apply set_next_eq; in_dom). apply set_prev_eq. in_dom.
  - apply (lrep_insert D m); [by apply rep_delete|unfold m'; doms; apply (rp_dom _ _ _ R)|split; [exact Hd'|]|..].
    + apply (chain_put m m' h l1 l2 f l0); unfold m'; [done..|split|split|intros a ? ?|intros a ? ?]; fields; repeat case_decide; congruence.
    + intros z g Hz [Hne Hg]%owned_delete. assert (z ∈ f :: l0 \/ z ∈ h :: l1 ++ l2) as [Hz'|Hz'] by set_solver.
      * destruct Hne. apply (owned_by z k g); [|done]. eapply in_owned; [exact Ek|set_solver].
      * apply (owned_by z h g); [by eapply in_owned|done].
    + intros z g Hne [Hgk Hg]%owned_delete. unfold m'. rewrite lookup_put_prev, lookup_put_next, lookup_put_next, lookup_put_prev; eauto using other.
  - rewrite <- (rp_dom _ _ _ R). by apply (owned_dom _ k).
  - intros g [[-> Hi]|[Hne [Hg Hi]%owned_delete]]%owned_insert; [|destruct Hg; by apply (owned_by k)].
    assert (k ∈ f :: l0 \/ k ∈ h :: l1 ++ l2) as [Hz'|Hz'] by set_solver; [by apply NoDup_cons in Hdk as [? _]|by apply (Nhk k k)].
Qed.

Lemma cut_at k h f l0 l2 : W !! k = Some [] -> W !! h = Some ((f :: l0) ++ l2) ->
  exists m', __list_cut_position k h (List.last l0 f) m = Ok (tt, m') /\ rep D m' (<[k := f :: l0]> (<[h := l2]> W)).
Proof.
  intros Ek El. assert (h <> k) as Hhk by (intros ->; rewrite El in Ek; discriminate). destruct (at_point h (f :: l0) l2 El) as [Hd [_ H1] H2 En Ep Op On]. rewrite last_cons in En, Ep, Op.
  set (x := List.last l0 f) in *. set (n := hd h l2) in *. assert (x ∈ f :: l0) as Hx by apply last_in. assert (n ∈ l2 ++ [h]) as Hn by apply hd_in.
  assert (forall a, a ∈ h :: (f :: l0) ++ l2 -> a <> k) as Nk.
  { intros a Ha ->. apply Hhk. eapply (owned_by k k h); [by exists []; split; [|apply list_elem_of_here]|by eapply in_owned]. }
  assert (k ∈ dom m) as Dk by (apply (owned_dom k k); exists []; split; [done|apply list_elem_of_here]).
  assert (owned W f h) as Of by (eapply in_owned; [exact El|set_solver]). assert (owned W h h) as Oh by (eapply in_owned; [exact El|set_solver]).
  pose proof (owned_dom _ _ Op) as Dx. pose proof (owned_dom _ _ On) as Dn. pose proof (owned_dom _ _ Of) as Df. pose proof (owned_dom _ _ Oh) as Dh.
  destruct (ends h (f :: l0) l2 Hd) as (A1 & A2 & A3 & A4). rewrite last_cons in A1, A2. fold x in A1, A2. fold n in A3, A4.
  pose proof Hd as [Hh Hd']%NoDup_cons. apply NoDup_app in Hd' as (Hf & Hfl & _).
  assert (x <> h) as N1 by set_solver. assert (f <> n) as N2 by (apply A3, list_elem_of_here).
  pose proof (Nk f ltac:(set_solver +)) as N3. pose proof (Nk n ltac:(set_solver +Hn)) as N4. pose proof (Nk x ltac:(set_solver +Hx)) as N5.
  set (m' := put_prev n h (put_next h n (put_next x k (put_prev k x (put_prev f k (put_next k f m)))))). exists m'. split.
  - unfold __list_cut_position. erewrite M_bind_step by (apply get_next_eq, En). erewrite M_bind_step by (by apply (get_next_head h ((f :: l0) ++ l2))). cbn [hd app].
    erewrite M_bind_step by (apply set_next_eq; in_dom). erewrite M_bind_step by (apply get_next_eq; fields; by rewrite decide_True). erewrite M_bind_step by (apply set_prev_eq; in_dom).
    erewrite M_bind_step by (apply set_prev_eq; in_dom). erewrite M_bind_step by (apply set_next_eq; in_dom). erewrite M_bind_step by (apply set_next_eq; in_dom). apply set_prev_eq. in_dom.
  - assert (dom m' = D) as Dm by (unfold m'; doms; apply (rp_dom _ _ _ R)).
    assert (forall a, a <> h -> a <> x -> a <> k -> nxt m' a = nxt m a) as En' by (intros a ? ? ?; unfold m'; fields; by rewrite !decide_False).
    assert (forall b, b <> n -> b <> k -> b <> f -> prv m' b = prv m b) as Ep' by (intros b ? ? ?; unfold m'; fields; by rewrite !decide_False).
    rewrite <- (insert_delete_eq _ k), delete_insert_ne by done. apply (lrep_insert D m'); [|exact Dm|split|..].
    + apply (lrep_insert D m); [by apply rep_delete|exact Dm|split|..].
      * apply NoDup_cons. apply NoDup_cons in Hd as [? (_ & _ & ?)%NoDup_app]. split; [set_solver +Hh|done].
      * rewrite chain_hd. split; [split; unfold m'; fold n; fields; by rewrite decide_True|]. apply (chain_frame m); [exact H2|..]; intros a Ha.
        -- rewrite removelast_snoc in Ha. apply En'; [set_solver +Ha Hh|by apply A2|apply Nk; set_solver +Ha].
        -- pose proof (A4 a Ha). assert (a ∈ l2 ++ [h]) as Ha' by (by destruct (l2 ++ [h]); [|apply list_elem_of_further]). apply Ep'; [done|apply Nk; set_solver +Ha'|intros ->; apply elem_of_app in Ha' as [Ha'|Ha']; [apply (Hfl f); [apply list_elem_of_here|done]|set_solver +Hh Ha']].
      * intros z g Hz [_ Hg]%owned_delete. apply (owned_by z h g); [eapply in_owned; [exact El|set_solver +Hz]|done].
      * intros z g Hne [Hgk Hg]%owned_delete. assert (z <> k) by (intros ->; apply Hgk, (owned_by k k g); [by exists []; split; [|apply list_elem_of_here]|done]).
        unfold m'. rewrite lookup_put_prev, lookup_put_next, lookup_put_next, lookup_put_prev, lookup_put_prev, lookup_put_next; eauto using other.
    + apply NoDup_cons. split; [|exact Hf]. intros Hk. by apply (Nk k); [set_solver +Hk|].
    + rewrite <- (app_nil_r (f :: l0)), chain_at, last_cons. fold x. split_and!; [split|..]; [| |split|done].
      * split; unfold m'; fields; repeat case_decide; congruence.
      * apply (chain_frame m); [exact H1|..]; intros a Ha.
        -- pose proof (last_not_before l0 f Hf). apply removelast_in in Ha as Ha'. apply En'; [set_solver +Ha' Hh|intros ->; done|apply Nk; set_solver +Ha'].
        -- cbn [tail] in Ha. apply Ep'; [apply A3; set_solver +Ha|apply Nk; set_solver +Ha|]. apply NoDup_cons in Hf as [? _]. congruence.
      * unfold m'. cbn [hd]. fields. repeat case_decide; congruence.
      * unfold m'. cbn [hd]. fields. repeat case_decide; congruence.
    + intros z g Hz [[-> Hz']|[Hne [Hgk Hg]%owned_delete]]%owned_insert.
      * exfalso. apply elem_of_cons in Hz as [->|Hz]; [by apply (Nk k); [set_solver +Hz'|]|]. apply elem_of_cons in Hz' as [->|Hz']; [set_solver +Hh Hz|by apply (Hfl z)].
      * apply elem_of_cons in Hz as [->|Hz]; [apply (owned_by k k g); [by exists []; split; [|apply list_elem_of_here]|done]|].
        destruct Hne. apply (owned_by z h g); [eapply in_owned; [exact El|set_solver +Hz]|done].
    + done.
Qed.

Lemma nodup_at h l : W !! h = Some l -> NoDup (h :: l).
Proof. intros El. apply (rp_ring _ _ _ R _ _ El). Qed.
Lemma empty_at h l : W !! h = Some l -> list_empty h m = Ok (bool_decide (l = []), m).
Proof.
  intros El. unfold list_empty. erewrite M_bind_step by (by apply get_next_head). unfold mret, M_ret. do 2 f_equal.
  destruct l as [|y l]; cbn [hd]; [apply Z.eqb_refl|]. rewrite (bool_decide_eq_false_2 (y :: l = [])) by done. apply Z.eqb_neq. intros ->.
  apply nodup_at, NoDup_cons in El as [Hh _]. apply Hh, list_elem_of_here.
Qed.
Lemma first_is_last h l : W !! h = Some l -> l <> [] -> (hd h l =? List.last l h) = bool_decide (length l = 1%nat).
Proof.
  intros El Hl. destruct l as [|y [|z l]]; [done|apply Z.eqb_refl|]. rewrite bool_decide_eq_false_2 by done. apply Z.eqb_neq. cbn [hd]. rewrite !last_cons.
  intros Hy. apply nodup_at, NoDup_cons in El as [_ [Hh _]%NoDup_cons]. apply Hh. rewrite Hy. apply last_in.
Qed.
Lemma singular_at h l : W !! h = Some l -> list_is_singular h m = Ok (bool_decide (length l = 1%nat), m).
Proof.
  intros El. unfold list_is_singular. erewrite M_bind_step by (by apply empty_at). case_bool_decide as Hl; [by subst l|].
  erewrite M_bind_step by (by apply get_next_head). erewrite M_bind_step by (by apply get_prev_head). by rewrite first_is_last.
Qed.

Lemma add_head h l x : W !! h = Some l -> x ∈ D -> loose W x -> exists m', list_add x h m = Ok (tt, m') /\ rep D m' (<[h := x :: l]> W).
Proof. intros El Hx Hl. unfold list_add. erewrite M_bind_step by (by apply get_next_head). by apply (add_at h [] l x). Qed.
Lemma add_last h l x : W !! h = Some l -> x ∈ D -> loose W x -> exists m', list_add_tail x h m = Ok (tt, m') /\ rep D m' (<[h := l ++ [x]]> W).
Proof.
  intros El Hx Hl. unfold list_add_tail. erewrite M_bind_step by (by apply get_prev_head). apply (add_at h l [] x); [by rewrite app_nil_r|done..].
Qed.
Lemma list_del_at h l1 x l2 : W !! h = Some (l1 ++ x :: l2) -> exists m', list_del x m = Ok (tt, m') /\ rep D m' (<[h := l1 ++ l2]> W).
Proof.
  intros El. destruct (del_at h l1 x l2 El) as (m1 & _ & Hrun & R1 & Hx & Hl). rewrite <- (rp_dom _ _ _ R1) in Hx. eexists. split.
  - unfold list_del. erewrite M_bind_step by (by eapply get_prev_eq, prv_entry). erewrite M_bind_step by (by eapply get_next_eq, nxt_entry).
    erewrite M_bind_step by exact Hrun. erewrite M_bind_step by (apply set_next_eq; in_dom). apply set_prev_eq. in_dom.
  - eapply rep_loose; [exact R1|doms; apply (rp_dom _ _ _ R1)|]. intros y Hy. assert (y <> x) by congruence. by rewrite lookup_put_prev, lookup_put_next.
Qed.
Lemma list_cut_at k h x l1 l2 : W !! h = Some (l1 ++ x :: l2) -> W !! k = Some [] ->
  exists m', list_cut_position k h x m = Ok (tt, m') /\ rep D m' (<[k := l1 ++ [x]]> (<[h := l2]> W)).
Proof.
  intros El Ek. unfold list_cut_position. erewrite M_bind_step by (by apply empty_at). rewrite bool_decide_eq_false_2 by (by destruct l1).
  erewrite M_bind_step by (by apply singular_at). erewrite M_bind_step by (by apply get_next_head).
  assert (x <> h) as Hx by (intros ->; apply nodup_at, NoDup_cons in El as [Hh _]; set_solver).
  replace (bool_decide (length (l1 ++ x :: l2) = 1%nat) && _) with false.
  2: { case_bool_decide as Hs; [|done]. rewrite length_app in Hs. cbn in Hs. destruct l1, l2; cbn in Hs; try lia. cbn. by rewrite Z.eqb_refl. }
  rewrite (proj2 (Z.eqb_neq x h) Hx). rewrite cons_middle, app_assoc in El. destruct (l1 ++ [x]) as [|f l0] eqn:E; [by destruct l1|].
  assert (x = List.last l0 f) as -> by (rewrite <- (last_cons l0 f x), <- E; by rewrite last_last). by apply cut_at.
Qed.
End ops.

Lemma void_run c m m' : c m = Ok (tt, m') -> void c m = Ok (0, m').
Proof. intros Hc. unfold void. by erewrite M_bind_step by exact Hc. Qed.
Lemma int_run c m b : c m = Ok (b, m) -> int c m = Ok (Z.b2z b, m).
Proof. intros Hc. unfold int. by erewrite M_bind_step by exact Hc. Qed.

Lemma move_at D m W h l1 x l2 : rep D m W -> W !! h = Some (l1 ++ x :: l2) ->
  (forall g l, <[h := l1 ++ l2]> W !! g = Some l -> exists m', list_move x g m = Ok (tt, m') /\ rep D m' (<[g := x :: l]> (<[h := l1 ++ l2]> W))) /\
  (forall g l, <[h := l1 ++ l2]> W !! g = Some l -> exists m', list_move_tail x g m = Ok (tt, m') /\ rep D m' (<[g := l ++ [x]]> (<[h := l1 ++ l2]> W))).
Proof.
  intros R El. destruct (del_at R h l1 x l2 El) as (m1 & Hrun & _ & R1 & Hx & Hl).
  split; intros g l Eg; [unfold list_move|unfold list_move_tail]; erewrite M_bind_step by exact Hrun; [by apply (add_head R1)|by apply (add_last R1)].
Qed.
Lemma splices_at D m W k h l0 l : rep D m W -> k <> h -> W !! k = Some l0 -> l0 <> [] -> W !! h = Some l ->
  (exists m', list_splice k h m = Ok (tt, m') /\ rep D m' (<[h := l0 ++ l]> (delete k W))) /\
  (exists m', list_splice_tail k h m = Ok (tt, m') /\ rep D m' (<[h := l ++ l0]> (delete k W))) /\
  (exists m', list_splice_init k h m = Ok (tt, m') /\ rep D m' (<[k := []]> (<[h := l0 ++ l]> (delete k W)))) /\
  (exists m', list_splice_tail_init k h m = Ok (tt, m') /\ rep D m' (<[k := []]> (<[h := l ++ l0]> (delete k W)))).
Proof.
  intros R Hkh Ek Hl El. destruct l0 as [|f l0]; [done|].
  destruct (splice_at R k h f l0 [] l Hkh Ek El) as (m1 & Hrun & R1 & Hk & Hlo). cbn [app List.last] in Hrun, R1, Hlo.
  rewrite <- (app_nil_r l) in El. destruct (splice_at R k h f l0 l [] Hkh Ek El) as (m2 & Hrun2 & R2 & _ & Hlo2). rewrite !app_nil_r in R2, Hlo2. rewrite app_nil_r in El. cbn [hd] in Hrun2.
  destruct (init_at R1 k Hk) as (m3 & Hi & R3); [intros g Hg; by destruct (Hlo g)|]. destruct (init_at R2 k Hk) as (m4 & Hi2 & R4); [intros g Hg; by destruct (Hlo2 g)|].
  unfold list_splice, list_splice_tail, list_splice_init, list_splice_tail_init.
  split_and!; eexists; (split; [erewrite M_bind_step by (by apply (empty_at R)); rewrite bool_decide_eq_false_2 by done;
    erewrite M_bind_step by first [by apply (get_next_head R)|by apply (get_prev_head R)]|]); first [exact Hrun|exact Hrun2|erewrite M_bind_step by first [exact Hrun|exact Hrun2]; first [exact Hi|exact Hi2]|done].
Qed.

(** [found H] ends a case in which the lemma [H] gives the memory after the call. *)
Ltac found H := let m' := fresh "m'" in let Hrun := fresh in let R' := fresh in
  destruct H as (m' & Hrun & R'); exists m'; split; [apply void_run; exact Hrun|exact R'].

Lemma seq_step_run D m W o r W' : rep D m W -> seq_step D W o r W' -> exists m', run_lop o m = Ok (r, m') /\ rep D m' W'.
Proof.
  intros R Hs. destruct Hs; cbn [run_lop].
  - found (init_at R x H H0).
  - found (add_head R h l x H1 H H0).
  - found (add_last R h l x H1 H H0).
  - found (list_del_at R h l1 x l2 H).
  - destruct (del_at R h l1 x l2 H) as (m1 & Hrun & _ & R1 & Hx & Hl). destruct (init_at R1 x Hx) as (m2 & Hi & R2); [intros g Hg; by destruct (Hl g)|].
    exists m2. split; [|exact R2]. apply void_run. unfold list_del_init. by erewrite M_bind_step by exact Hrun.
  - destruct (replace_at R h l1 x l2 y H H0 H1) as (m1 & Hrun & R1 & _). exists m1. split; [by apply void_run|exact R1].
  - destruct (replace_at R h l1 x l2 y H H0 H1) as (m1 & Hrun & R1 & Hx & Hl). destruct (init_at R1 x Hx) as (m2 & Hi & R2); [intros g Hg; by destruct (Hl g)|].
    exists m2. split; [|exact R2]. apply void_run. unfold list_replace_init. by erewrite M_bind_step by exact Hrun.
  - found (proj1 (move_at D m W h l1 x l2 R H) g l H0).
  - found (proj2 (move_at D m W h l1 x l2 R H) g l H0).
  - exists m. split; [|exact R]. apply void_run. unfold list_rotate_left. by erewrite M_bind_step by (by apply (empty_at R)).
  - destruct (proj2 (move_at D m W h [] x l R H) h l) as (m1 & Hrun & R1); [apply lookup_insert_eq|]. rewrite insert_insert_eq in R1. exists m1. split; [|exact R1].
    apply void_run. unfold list_rotate_left. erewrite M_bind_step by (by apply (empty_at R)). rewrite bool_decide_eq_false_2 by done. by erewrite M_bind_step by (by apply (get_next_head R)).
  - exists m. split; [|exact R]. apply void_run. unfold list_cut_position. by erewrite M_bind_step by (by apply (empty_at R)).
  - destruct (init_at R k) as (m1 & Hi & R1).
    { rewrite <- (rp_dom _ _ _ R). apply (owned_dom R k k). exists []. split; [done|apply list_elem_of_here]. }
    { intros g Hg. apply (owned_by R k k g); [|done]. exists []. split; [done|apply list_elem_of_here]. }
    rewrite insert_id in R1 by done. unfold list_cut_position. destruct (decide (l = [])) as [->|Hl].
    + exists m. split; [|exact R]. apply void_run. by erewrite M_bind_step by (by apply (empty_at R)).
    + exists m1. split; [|exact R1]. apply void_run. erewrite M_bind_step by (by apply (empty_at R)). rewrite bool_decide_eq_false_2 by done.
      erewrite M_bind_step by (by apply (singular_at R)). erewrite M_bind_step by (by apply (get_next_head R)). by rewrite Z.eqb_refl, !andb_false_r.
  - found (list_cut_at R k h x l1 l2 H H0).
  - exists m. split; [|exact R]. destruct H as [<-|[<-|[<-|[<-|[]]]]]; apply void_run; unfold list_splice, list_splice_tail, list_splice_init, list_splice_tail_init; by erewrite M_bind_step by (by apply (empty_at R)).
  - found (proj1 (splices_at D m W k h l0 l R H H0 H1 H2)).
  - found (proj1 (proj2 (splices_at D m W k h l0 l R H H0 H1 H2))).
  - found (proj1 (proj2 (proj2 (splices_at D m W k h l0 l R H H0 H1 H2)))).
  - found (proj2 (proj2 (proj2 (splices_at D m W k h l0 l R H H0 H1 H2)))).
  - exists m. split; [|exact R]. apply int_run. unfold list_is_last. erewrite M_bind_step by (by eapply get_next_eq, (nxt_entry R)). unfold mret, M_ret. do 2 f_equal.
    destruct l2 as [|y l2]; cbn [hd]; [apply Z.eqb_refl|]. rewrite bool_decide_eq_false_2 by done. apply Z.eqb_neq. intros ->.
    apply (nodup_at R), NoDup_cons in H as [Hh _]. set_solver.
  - exists m. split; [|exact R]. destruct H as [<-|[<-|[]]]; apply int_run; [by apply (empty_at R)|]. unfold list_empty_careful. erewrite M_bind_step by (by apply (get_next_head R)).
    destruct (decide (l = [])) as [->|Hl]; cbn [hd]; [rewrite Z.eqb_refl; erewrite M_bind_step by (by apply (get_prev_head R)); cbn; by rewrite Z.eqb_refl|].
    rewrite bool_decide_eq_false_2 by done. destruct l as [|y l]; [done|]. cbn [hd]. rewrite (proj2 (Z.eqb_neq y h)); [done|]. intros ->.
    apply (nodup_at R), NoDup_cons in H0 as [Hh _]. apply Hh, list_elem_of_here.
  - exists m. split; [|exact R]. apply int_run. by apply (singular_at R).
  - exists m. split; [|exact R]. by apply (get_next_head R h (x :: l)).
Qed.

(** C34: the lists of list.h are sequences.  On a memory whose lists are rings,
    every sequence of calls (initialise, add, delete, replace, move, rotate, cut,
    the four kinds of splice, and the queries) that is allowed on sequences - an
    object that is added is on no list, an entry that is taken off is on one -
    returns, with the results that the queries have on the sequences, and leaves
    rings of exactly these sequences: no list gains, loses or reorders an entry
    that no call named, and no call follows an address outside of the memory. *)
Theorem lists_refine_sequences D m W t W' : rep D m W -> seq_run D W t W' ->
  exists m', run_lops t.*1 m = Ok (t.*2, m') /\ rep D m' W'.
Proof.
  intros R Ht. revert m R. induction Ht as [W|W o r W1 t W2 Hs Ht IH]; intros m R; [by exists m|].
  destruct (seq_step_run _ _ _ _ _ _ R Hs) as (m1 & Hrun & R1). destruct (IH m1 R1) as (m2 & Hrun2 & R2). exists m2. split; [|exact R2].
  cbn [run_lops fmap list_fmap]. erewrite M_bind_step by exact Hrun. by erewrite M_bind_step by exact Hrun2.
Qed.

(** Two lists and three entries. *)
Definition example_lists : lists := <[1 := [4; 5]]> (<[2 := [3]]> ∅).
Definition example_calls : list (lop * Z) :=
  [(Init 1, 0); (Init 2, 0); (Empty 1, 1); (AddTail 3 1, 0); (AddTail 4 1, 0); (Add 5 1, 0); (First 1, 5); (RotateLeft 1, 0); (IsLast 5 1, 1);
   (Cut 2 1 3, 0); (IsSingular 2, 1)].
Ltac on_lists := intros ? (? & ? & ?); repeat match goal with
  | H : <[_ := _]> _ !! _ = Some _ |- _ => apply lookup_insert_Some in H as [[<- <-]|[_ H]]
  | H : ∅ !! _ = Some _ |- _ => by rewrite lookup_empty in H
  end; set_solver.
Lemma lists_refine_sequences_witness :
  exists m', run_lops example_calls.*1 (gset_to_gmap (mk_lh 0 0) (list_to_set [1; 2; 3; 4; 5])) = Ok (example_calls.*2, m') /\
    rep (list_to_set [1; 2; 3; 4; 5]) m' example_lists.
Proof.
  apply (lists_refine_sequences _ _ ∅).
  - split; [apply dom_gset_to_gmap|intros h l Hl; by rewrite lookup_empty in Hl|intros x h h' (l & Hl & _); by rewrite lookup_empty in Hl].
  - unfold example_calls.
    eapply sr_cons; [apply sq_init; [by vm_compute|on_lists]|]. eapply sr_cons; [apply sq_init; [by vm_compute|on_lists]|].
    eapply sr_cons; [apply (sq_empty _ _ Empty 1 []); [by left|reflexivity]|].
    eapply sr_cons; [apply (sq_add_tail _ _ 3 1 []); [by vm_compute|on_lists|reflexivity]|]. eapply sr_cons; [apply (sq_add_tail _ _ 4 1 [3]); [by vm_compute|on_lists|reflexivity]|].
    eapply sr_cons; [apply (sq_add _ _ 5 1 [3; 4]); [by vm_compute|on_lists|reflexivity]|]. eapply sr_cons; [apply (sq_first _ _ 1 5 [3; 4]); reflexivity|].
    eapply sr_cons; [apply (sq_rotate _ _ 1 5 [3; 4]); reflexivity|]. eapply sr_cons; [apply (sq_is_last _ _ 5 1 [3; 4] []); reflexivity|].
    eapply sr_cons; [apply (sq_cut _ _ 2 1 3 [] [4; 5]); reflexivity|]. eapply sr_cons; [apply (sq_is_singular _ _ 2 [3]); reflexivity|].
    match goal with |- seq_run _ ?W _ _ => replace W with example_lists by (vm_compute; reflexivity) end. apply sr_nil.
Defined.
