(* ===== verification/RangeLock.v ===== *)
(** * The range lock of an inode (src/slotfs/lock.c, lock.h)

    A [range_lock_t] has [RLOCK_NUM] slots for ranges that are held.  The body
    of the outer loop of [range_lock] and the whole of [range_unlock] run under
    [global_lock], so each is one atomic step; the loop that waits for a free
    slot runs without it.  [step] interleaves any number of threads. *)
From stdpp Require Import base numbers list relations.
From S2P Require Import Prelude.
Local Open Scope Z_scope.

Definition RLOCK_NUM : Z := 20.

Record rlock_node_t : Type := mk_rnode {
  start : Z;
  end_ : Z;
  valid : bool;
}.

Record range_lock_t : Type := mk_rlock {
  rlock : list rlock_node_t;
  lock_count : Z;
}.

Definition is_overlap (start1 end1 start2 end2 : Z) : bool := (start1 <? end2) && (start2 <? end1).

(** The loop of [range_lock_init]; [start] and [end] keep what they hold. *)
Definition range_lock_init (l : range_lock_t) : range_lock_t :=
  mk_rlock ((fun n => mk_rnode (start n) (end_ n) false) <$> rlock l) 0.

(** The first loop of [range_lock]: does a valid slot overlap? *)
Fixpoint find_overlap (s e : Z) (ns : list rlock_node_t) : bool :=
  match ns with
  | [] => false
  | n :: ns' => if valid n && is_overlap s e (start n) (end_ n) then true else find_overlap s e ns'
  end.

(** The second loop: takes the first slot that is not valid. *)
Fixpoint take_free (s e : Z) (ns : list rlock_node_t) : option (list rlock_node_t) :=
  match ns with
  | [] => None
  | n :: ns' => if negb (valid n) then Some (mk_rnode s e true :: ns')
                else ns' ← take_free s e ns'; Some (n :: ns')
  end.

(** One round of the outer loop of [range_lock]: [true] when it returns. *)
Definition range_lock_round (s e : Z) : M range_lock_t bool := fun l =>
  if lock_count l =? 0 then
    ns ← zset (rlock l) 0 (mk_rnode s e true);
    Ok (true, mk_rlock ns (i32 (lock_count l + 1)))
  else if negb (find_overlap s e (rlock l)) then
    match take_free s e (rlock l) with
    | Some ns => Ok (true, mk_rlock ns (i32 (lock_count l + 1)))
    | None => Ok (false, l)
    end
  else Ok (false, l).

(** The loop of [range_unlock]: releases the first slot with this range. *)
Fixpoint release_first (s e : Z) (ns : list rlock_node_t) : option (list rlock_node_t) :=
  match ns with
  | [] => None
  | n :: ns' => if valid n && (start n =? s) && (end_ n =? e) then Some (mk_rnode (start n) (end_ n) false :: ns')
                else ns' ← release_first s e ns'; Some (n :: ns')
  end.

Definition range_unlock (s e : Z) : M range_lock_t unit := fun l =>
  match release_first s e (rlock l) with
  | Some ns => Ok (tt, mk_rlock ns (i32 (lock_count l - 1)))
  | None => Fault AssertFail
  end.

(** ** Threads *)

Inductive thread : Type :=
| Idle
| Locking (s e : Z)    (* at the head of the outer loop of [range_lock] *)
| Waiting (s e : Z)    (* in [do {} while (lock->lock_count == RLOCK_NUM)] *)
| Holding (s e : Z)    (* [range_lock] has returned *)
| Crashed.             (* stopped by a fault *)

Definition config : Type := range_lock_t * list thread.

Inductive step : config -> config -> Prop :=
| step_call l ts t s e : ts !! t = Some Idle -> 0 <= s < 2 ^ 64 -> 0 <= e < 2 ^ 64 ->
    step (l, ts) (l, <[t := Locking s e]> ts)
| step_lock l l' ts t s e b : ts !! t = Some (Locking s e) ->
    range_lock_round s e l = Ok (b, l') ->
    step (l, ts) (l', <[t := if b then Holding s e else Waiting s e]> ts)
| step_retry l ts t s e : ts !! t = Some (Waiting s e) -> lock_count l <> RLOCK_NUM ->
    step (l, ts) (l, <[t := Locking s e]> ts)
| step_unlock l l' ts t s e : ts !! t = Some (Holding s e) ->
    range_unlock s e l = Ok (tt, l') ->
    step (l, ts) (l', <[t := Idle]> ts)
| step_lock_fault l ts t s e f : ts !! t = Some (Locking s e) ->
    range_lock_round s e l = Fault f -> step (l, ts) (l, <[t := Crashed]> ts)
| step_unlock_fault l ts t s e f : ts !! t = Some (Holding s e) ->
    range_unlock s e l = Fault f -> step (l, ts) (l, <[t := Crashed]> ts).

(** ** What is held *)

(** The ranges in the valid slots, and the ranges of the threads. *)
Definition slot_range (n : rlock_node_t) : option (Z * Z) := if valid n then Some (start n, end_ n) else None.
Definition held (l : range_lock_t) : list (Z * Z) := omap slot_range (rlock l).
Definition thread_range (t : thread) : option (Z * Z) := match t with Holding s e => Some (s, e) | _ => None end.
Definition holders (ts : list thread) : list (Z * Z) := omap thread_range ts.

Definition apart (r1 r2 : Z * Z) : Prop := is_overlap r1.1 r1.2 r2.1 r2.2 = false.

(** No two ranges of a list overlap. *)
Inductive disjoint : list (Z * Z) -> Prop :=
| disjoint_nil : disjoint []
| disjoint_cons r l : Forall (apart r) l -> disjoint l -> disjoint (r :: l).

Record rlock_wf (l : range_lock_t) : Prop := {
  rw_len : zlength (rlock l) = RLOCK_NUM;
  rw_count : lock_count l = zlength (held l);
  rw_disjoint : disjoint (held l);
}.

Lemma apart_sym r1 r2 : apart r1 r2 -> apart r2 r1.
Proof. unfold apart, is_overlap. by rewrite andb_comm. Qed.

#[export] Instance disjoint_perm : Proper ((≡ₚ) ==> iff) disjoint.
Proof.
  enough (forall l l', l ≡ₚ l' -> disjoint l -> disjoint l') as H.
  { intros l l' Hp. split; apply H; [done|by symmetry]. }
  induction 1 as [|x l l' Hp IH|x y l|]; intros Hd; try tauto.
  - inversion Hd; subst. constructor; [by rewrite <- Hp|auto].
  - inversion Hd as [|? ? Hy Hd']; subst. inversion Hd' as [|? ? Hx Hd'']; subst.
    inversion Hy; subst. constructor; [constructor; [by apply apart_sym|done]|by constructor].
Qed.

Lemma find_overlap_spec s e ns : find_overlap s e ns = false -> Forall (apart (s, e)) (omap slot_range ns).
Proof.
  induction ns as [|n ns IH]; [constructor|]. csimpl. unfold slot_range at 1.
  destruct (valid n); csimpl; [|done]. destruct (is_overlap s e (start n) (end_ n)) eqn:E; [done|].
  intros H. constructor; [done|auto].
Qed.
Lemma find_overlap_apart s e ns : Forall (apart (s, e)) (omap slot_range ns) -> find_overlap s e ns = false.
Proof.
  induction ns as [|n ns IH]; [done|]. csimpl. unfold slot_range at 1.
  destruct (valid n); csimpl; [|done]. intros [Ha ?]%Forall_cons. unfold apart in Ha. simpl in Ha. rewrite Ha. auto.
Qed.

Lemma held_bound ns : zlength (omap slot_range ns) <= zlength ns.
Proof.
  unfold zlength. induction ns as [|n ns IH]; [done|]. csimpl. destruct (slot_range n); csimpl; lia.
Qed.

Lemma take_free_spec s e ns :
  match take_free s e ns with
  | Some ns' => zlength ns' = zlength ns /\ omap slot_range ns' ≡ₚ (s, e) :: omap slot_range ns
  | None => zlength (omap slot_range ns) = zlength ns
  end.
Proof.
  unfold zlength. induction ns as [|[a b []] ns IH]; [done| |done]. csimpl.
  destruct (take_free s e ns) as [ns'|]; csimpl.
  - destruct IH as [Hl Hp]. split; [lia|]. rewrite Hp. apply Permutation_swap.
  - lia.
Qed.

Lemma release_first_spec s e ns :
  (s, e) ∈ omap slot_range ns ->
  exists ns', release_first s e ns = Some ns' /\ zlength ns' = zlength ns /\
    (s, e) :: omap slot_range ns' ≡ₚ omap slot_range ns.
Proof.
  unfold zlength. induction ns as [|[a b v] ns IH]; [by intros ?%elem_of_nil|]. destruct v; csimpl.
  - destruct ((a =? s) && (b =? e)) eqn:E.
    + intros _. exists (mk_rnode a b false :: ns). apply andb_true_iff in E as [?%Z.eqb_eq ?%Z.eqb_eq]. by subst.
    + intros [[= -> ->]|Hin]%elem_of_cons; [by rewrite !Z.eqb_refl in E|].
      destruct (IH Hin) as (ns' & -> & Hl & Hp). exists (mk_rnode a b true :: ns'). csimpl.
      split_and!; [done|lia|]. rewrite <- Hp. apply Permutation_swap.
  - intros Hin. destruct (IH Hin) as (ns' & -> & Hl & Hp). exists (mk_rnode a b false :: ns'). csimpl.
    split_and!; [done|lia|done].
Qed.

(** ** The two operations *)

(** A round of [range_lock] takes the range exactly when no held range
    overlaps it and a slot is free; it then holds it besides the others. *)
Lemma range_lock_round_spec s e l :
  rlock_wf l ->
  exists b l', range_lock_round s e l = Ok (b, l') /\ rlock_wf l' /\
    (b = true <-> Forall (apart (s, e)) (held l) /\ lock_count l < RLOCK_NUM) /\
    (if b then held l' ≡ₚ (s, e) :: held l else l' = l).
Proof.
  intros [Hlen Hcnt Hdis]. unfold range_lock_round. pose proof (held_bound (rlock l)) as Hb. fold (held l) in Hb.
  assert (RLOCK_NUM = 20) as HR by done.
  assert (Hw : forall ns, zlength ns = zlength (rlock l) -> omap slot_range ns ≡ₚ (s, e) :: held l ->
    Forall (apart (s, e)) (held l) -> rlock_wf (mk_rlock ns (i32 (lock_count l + 1)))).
  { intros ns Hl Hp Hf. constructor; csimpl.
    - lia.
    - unfold held in *. cbn [rlock]. unfold zlength in *. rewrite Hp. csimpl. rewrite i32_small; lia.
    - unfold held in *. csimpl. rewrite Hp. by constructor. }
  destruct (Z.eqb_spec (lock_count l) 0) as [E|E].
  - assert (held l = []) as Hn by (destruct (held l); [done|]; unfold zlength in *; simpl in *; lia).
    rewrite zset_in by lia. csimpl. eexists _, _. split; [done|].
    assert (omap slot_range (<[0%nat := mk_rnode s e true]> (rlock l)) ≡ₚ (s, e) :: held l) as Hp.
    { unfold held in *. destruct (rlock l) as [|n ns]; [by unfold zlength in *|]. simpl in *.
      destruct (slot_range n); [done|]. by rewrite Hn. }
    split_and!; [|split; [intros _|done]|done].
    + apply Hw; [by rewrite zlength_insert|done|by rewrite Hn].
    + rewrite Hn. split; [done|]. unfold RLOCK_NUM. lia.
  - destruct (find_overlap s e (rlock l)) eqn:Hf; csimpl.
    { eexists _, _. split_and!; [done|done| |done]. split; [done|]. intros [Ha _].
      by rewrite (find_overlap_apart _ _ _ Ha) in Hf. }
    apply find_overlap_spec in Hf. pose proof (take_free_spec s e (rlock l)) as Ht.
    destruct (take_free s e (rlock l)) as [ns|].
    + destruct Ht as [Hl Hp]. eexists _, _. split; [done|]. split_and!; [by apply Hw| |done].
      split; [intros _|done]. split; [done|].
      unfold held, zlength in *. apply Permutation_length in Hp. pose proof (held_bound ns). unfold zlength in *.
      simpl in Hp. lia.
    + eexists _, _. split_and!; [done|done| |done]. split; [done|]. intros [_ Hlt].
      unfold held in *. lia.
Qed.

Lemma range_unlock_spec s e l :
  rlock_wf l -> (s, e) ∈ held l ->
  exists l', range_unlock s e l = Ok (tt, l') /\ rlock_wf l' /\ (s, e) :: held l' ≡ₚ held l.
Proof.
  intros [Hlen Hcnt Hdis] Hin. unfold range_unlock.
  destruct (release_first_spec s e (rlock l) Hin) as (ns & -> & Hl & Hp).
  eexists. split; [done|]. split; [|done]. constructor; csimpl; [lia| |].
  - unfold held in *. csimpl. unfold zlength in *. rewrite <- Hp in Hcnt. simpl in Hcnt.
    pose proof (held_bound ns). unfold zlength, RLOCK_NUM in *. rewrite i32_small; lia.
  - unfold held in *. rewrite <- Hp in Hdis. by inversion Hdis.
Qed.

(** ** The invariant of the interleaving *)

Record config_ok (c : config) : Prop := {
  co_wf : rlock_wf c.1;
  co_holders : held c.1 ≡ₚ holders c.2;
  co_alive : Crashed ∉ c.2;
}.

Lemma holders_insert ts t x y :
  ts !! t = Some x ->
  option_list (thread_range x) ++ holders (<[t := y]> ts) ≡ₚ option_list (thread_range y) ++ holders ts.
Proof.
  revert t. induction ts as [|z ts IH]; intros [|t] Ht; simplify_eq/=; unfold holders; csimpl.
  - destruct (thread_range x), (thread_range y); csimpl; try done. apply Permutation_swap.
  - specialize (IH _ Ht). unfold holders in IH. destruct (thread_range z); csimpl; [|done].
    by rewrite <- !Permutation_middle, IH.
Qed.
Lemma holders_same ts t x y :
  ts !! t = Some x -> thread_range x = thread_range y -> holders (<[t := y]> ts) ≡ₚ holders ts.
Proof.
  intros Ht He. pose proof (holders_insert ts t x y Ht) as H. rewrite He in H.
  destruct (thread_range y); simpl in H; [|done]. by apply Permutation_cons_inv in H.
Qed.

Lemma alive_insert (ts : list thread) t x : Crashed ∉ ts -> x <> Crashed -> Crashed ∉ <[t := x]> ts.
Proof.
  intros Hn Hx (j & Hj)%list_elem_of_lookup. apply list_lookup_insert_Some in Hj as [(_ & Hj & _)|[_ Hj]]; [done|].
  apply Hn. by eapply list_elem_of_lookup_2.
Qed.

Lemma holding_held l ts t s e : held l ≡ₚ holders ts -> ts !! t = Some (Holding s e) -> (s, e) ∈ held l.
Proof.
  intros Hp Ht. rewrite Hp. unfold holders. apply list_elem_of_omap. exists (Holding s e). split; [|done].
  by eapply list_elem_of_lookup_2.
Qed.

Lemma config_ok_step c c' : config_ok c -> step c c' -> config_ok c'.
Proof.
  intros [Hw Hp Ha] Hs. inversion Hs as [l ts t s e Ht|l l' ts t s e b Ht Hr|l ts t s e Ht|l l' ts t s e Ht Hr
    |l ts t s e f Ht Hr|l ts t s e f Ht Hr]; subst; simpl in *.
  1, 3: constructor; simpl; [done|by rewrite Hp, (holders_same _ _ _ _ Ht)|by apply alive_insert].
  - destruct (range_lock_round_spec s e l Hw) as (b' & l1 & Hr' & Hw' & _ & He). rewrite Hr in Hr'. simplify_eq.
    pose proof (holders_insert ts t _ (if b' then Holding s e else Waiting s e) Ht) as Hh.
    destruct b'; simpl in *; constructor; simpl; try done; try (by apply alive_insert).
    + by rewrite He, Hp, Hh.
    + subst. by rewrite Hp, Hh.
  - destruct (range_unlock_spec s e l Hw (holding_held _ _ _ _ _ Hp Ht)) as (l1 & Hr' & Hw' & He).
    rewrite Hr in Hr'. simplify_eq. pose proof (holders_insert ts t _ Idle Ht) as Hh. simpl in Hh.
    constructor; simpl; [done| |by apply alive_insert].
    apply (Permutation_cons_inv (a := (s, e))). by rewrite He, Hp, Hh.
  - destruct (range_lock_round_spec s e l Hw) as (b' & l1 & Hr' & _). by rewrite Hr in Hr'.
  - destruct (range_unlock_spec s e l Hw (holding_held _ _ _ _ _ Hp Ht)) as (l1 & Hr' & _). by rewrite Hr in Hr'.
Qed.

Lemma config_ok_init l n :
  zlength (rlock l) = RLOCK_NUM -> config_ok (range_lock_init l, replicate n Idle).
Proof.
  intros Hl. assert (held (range_lock_init l) = []) as Hh.
  { unfold held, range_lock_init. cbn [rlock]. clear. by induction (rlock l) as [|x ns IH]. }
  assert (holders (replicate n Idle) = []) as Hi by (by induction n).
  constructor; simpl.
  - constructor; [|by rewrite Hh|rewrite Hh; constructor]. unfold zlength, range_lock_init in *. simpl. by rewrite length_fmap.
  - by rewrite Hh, Hi.
  - intros H. by apply elem_of_replicate in H as [? _].
Qed.

(** Two threads that hold ranges have two positions among the holders. *)
Lemma holders_apart ts t1 t2 s1 e1 s2 e2 :
  disjoint (holders ts) -> t1 <> t2 -> ts !! t1 = Some (Holding s1 e1) -> ts !! t2 = Some (Holding s2 e2) ->
  apart (s1, e1) (s2, e2).
Proof.
  intros Hd Hne H1 H2. pose proof (holders_insert ts t1 _ Idle H1) as Hp. simpl in Hp.
  rewrite <- Hp in Hd. inversion Hd as [|? ? Hf _]; subst. eapply Forall_forall; [exact Hf|].
  apply list_elem_of_omap. exists (Holding s2 e2). split; [|done].
  apply (list_elem_of_lookup_2 _ t2). by rewrite list_lookup_insert_ne.
Qed.

(** ** Properties *)

(** C26: However threads interleave their calls of [range_lock] and
    [range_unlock] on a lock that [range_lock_init] set up, the ranges held by
    two threads never overlap, at most [RLOCK_NUM] are held, [lock_count] is
    their number, and no call fails an assertion or leaves its array. *)
Theorem range_lock_mutual_exclusion l0 n l ts :
  zlength (rlock l0) = RLOCK_NUM -> rtc step (range_lock_init l0, replicate n Idle) (l, ts) ->
  (forall t1 t2 s1 e1 s2 e2, t1 <> t2 -> ts !! t1 = Some (Holding s1 e1) -> ts !! t2 = Some (Holding s2 e2) ->
    is_overlap s1 e1 s2 e2 = false) /\
  lock_count l = zlength (holders ts) /\ lock_count l <= RLOCK_NUM /\ Crashed ∉ ts.
Proof.
  intros Hl Hr. apply (rtc_invariant step config_ok) in Hr as [[Hlen Hc Hd] Hp Ha];
    [|apply config_ok_step|by apply config_ok_init]. simpl in *. split_and!; [| | |done].
  - intros t1 t2 s1 e1 s2 e2 Hne H1 H2. rewrite Hp in Hd. by apply (holders_apart ts t1 t2 s1 e1 s2 e2).
  - rewrite Hc. unfold zlength. by rewrite Hp.
  - pose proof (held_bound (rlock l)). unfold held in *. lia.
Qed.


(** ** A run *)

Definition example_lock : range_lock_t := mk_rlock (replicate 20 (mk_rnode 3 9 true)) 7.
Definition after (f : M range_lock_t bool) (l : range_lock_t) : range_lock_t :=
  match f l with Ok (_, l') => l' | Fault _ => l end.
(** One thread holds [0, 4), the other has called [range_lock] for [4, 8). *)
Definition example_run : config :=
  (after (range_lock_round 0 4) (range_lock_init example_lock), [Holding 0 4; Locking 4 8]).

Lemma example_reach : rtc step (range_lock_init example_lock, replicate 2 Idle) example_run.
Proof.
  eapply rtc_l; [eapply (step_call _ _ 0 0 4); [reflexivity|lia|lia]|].
  eapply rtc_l; [eapply (step_lock _ _ _ 0 0 4 true); reflexivity|].
  eapply rtc_l; [eapply (step_call _ _ 1 4 8); [reflexivity|lia|lia]|]. apply rtc_refl.
Qed.
Lemma example_reach2 : rtc step (range_lock_init example_lock, replicate 2 Idle)
  (after (range_lock_round 4 8) example_run.1, [Holding 0 4; Holding 4 8]).
Proof.
  etransitivity; [apply example_reach|]. apply rtc_once. apply (step_lock example_run.1 _ example_run.2 1 4 8 true); reflexivity.
Qed.

Lemma range_lock_mutual_exclusion_witness :
  is_overlap 0 4 4 8 = false /\ lock_count (after (range_lock_round 4 8) example_run.1) = 2.
Proof.
  destruct (range_lock_mutual_exclusion example_lock 2 _ _ eq_refl example_reach2) as (H & Hc & _).
  split; [exact (H 0%nat 1%nat 0 4 4 8 ltac:(lia) eq_refl eq_refl)|exact Hc].
Defined.

