(* ===== verification/Bitops.v ===== *)
(** * Bitmap primitives (src/slotfs/bitops.h)

    A bitmap is the array of its bytes, each kept as its 8-bit pattern
    [0 <= b < 256]; bit [i] is bit [i mod 8] of byte [i / 8].  The C code
    declares the bytes [char], but every expression masks the promoted value
    with a bit below 8, so only the pattern matters.  An access outside the
    array is [Fault OutOfBounds]. *)
From stdpp Require Import base numbers list.
From S2P Require Import Prelude.
Local Open Scope Z_scope.

(** ** The operations of bitops.h *)

Definition set_bit (nr : Z) (bmp : list Z) : outcome (list Z) :=
  b ← zget bmp (nr / 8);
  zset bmp (nr / 8) (u8 (Z.lor b (Z.shiftl 1 (nr mod 8)))).

Definition clear_bit (nr : Z) (bmp : list Z) : outcome (list Z) :=
  b ← zget bmp (nr / 8);
  zset bmp (nr / 8) (u8 (Z.land b (Z.lnot (Z.shiftl 1 (nr mod 8))))).

(** [memset(bmp + start, v, n)] on the bytes of the array. *)
Fixpoint memset (bmp : list Z) (start v : Z) (n : nat) : outcome (list Z) :=
  match n with
  | O => Ok bmp
  | S n' => bmp' ← zset bmp start v; memset bmp' (start + 1) v n'
  end.

(** [bitmap[start] |= mask] and [bmp[start] &= ~mask]. *)
Definition or_byte (bmp : list Z) (start mask : Z) : outcome (list Z) :=
  b ← zget bmp start; zset bmp start (u8 (Z.lor b mask)).
Definition andnot_byte (bmp : list Z) (start mask : Z) : outcome (list Z) :=
  b ← zget bmp start; zset bmp start (u8 (Z.land b (Z.lnot mask))).

(** The bits of the first byte that a range operation starting at [nr]
    handles on its own. *)
Definition head_bits (nr length : Z) : Z :=
  let remaining_bits_in_byte := 8 - nr mod 8 in
  if length <? remaining_bits_in_byte then length else remaining_bits_in_byte.

Definition set_bit_range (nr : Z) (bitmap : list Z) (length : Z) : outcome (list Z) :=
  let start_byte := nr / 8 in
  let start_bit := nr mod 8 in
  '(bitmap, start_byte, length) ←
    (if negb (start_bit =? 0) then
       let bits_to_set := head_bits nr length in
       bitmap' ← or_byte bitmap start_byte
                  (Z.shiftl (Z.shiftl 1 bits_to_set - 1) start_bit);
       Ok (bitmap', start_byte + 1, length - bits_to_set)
     else Ok (bitmap, start_byte, length));
  bitmap ← memset bitmap start_byte 255 (Z.to_nat (length / 8));
  let length := length mod 8 in
  if 0 <? length then or_byte bitmap start_byte (Z.shiftl 1 length - 1)
  else Ok bitmap.

Definition clear_bit_range (nr : Z) (bmp : list Z) (length : Z) : outcome (list Z) :=
  let start_byte := nr / 8 in
  let start_bit := nr mod 8 in
  '(bmp, start_byte, length) ←
    (if negb (start_bit =? 0) then
       let bits_to_clear := head_bits nr length in
       bmp' ← andnot_byte bmp start_byte
               (Z.shiftl (Z.shiftl 1 bits_to_clear - 1) start_bit);
       Ok (bmp', start_byte + 1, length - bits_to_clear)
     else Ok (bmp, start_byte, length));
  bmp ← memset bmp start_byte 0 (Z.to_nat (length / 8));
  let length := length mod 8 in
  if 0 <? length then andnot_byte bmp start_byte (Z.shiftl 1 length - 1)
  else Ok bmp.

Definition check_bit (nr : Z) (bmp : list Z) : outcome Z :=
  b ← zget bmp (nr / 8);
  Ok (Z.land b (Z.shiftl 1 (nr mod 8))).

(** The loop [for (i = offset; i < size; i++) if (test (bmp[i/8] & (1 << i%8)))
    return i;] of the two searches, [n] the iterations left. *)
Fixpoint bit_scan (test : Z -> bool) (bmp : list Z) (size : Z) (n : nat) (i : Z)
    : outcome Z :=
  match n with
  | O => Ok size
  | S n' =>
      b ← zget bmp (i / 8);
      if test (Z.land b (Z.shiftl 1 (i mod 8))) then Ok i
      else bit_scan test bmp size n' (i + 1)
  end.

(** Both searches return [int]: the [size_t] result is cut to 32 bits. *)
Definition next_zero_bit (bmp : list Z) (size offset : Z) : outcome Z :=
  i ← bit_scan (fun v => v =? 0) bmp size (Z.to_nat (size - offset)) offset;
  Ok (i32 i).

Definition next_set_bit (bmp : list Z) (size offset : Z) : outcome Z :=
  i ← bit_scan (fun v => v =? 1) bmp size (Z.to_nat (size - offset)) offset;
  Ok (i32 i).

(** ** What the bits are *)

Definition byte_at (bmp : list Z) (k : Z) : Z := default 0 (bmp !! Z.to_nat k).
Definition bit_at (bmp : list Z) (i : Z) : bool := Z.testbit (byte_at bmp (i / 8)) (i mod 8).
Definition bytes_wf (bmp : list Z) : Prop := Forall (fun b => 0 <= b < 256) bmp.

(** The bits [set_bit_range] and [clear_bit_range] touch: the head bits in the
    first byte, the whole bytes that [memset] covers, and the [length mod 8]
    low bits of the byte [memset] starts at. *)
Definition head_of (nr len : Z) : Z := if nr mod 8 =? 0 then 0 else head_bits nr len.
Definition body_byte (nr : Z) : Z := if nr mod 8 =? 0 then nr / 8 else nr / 8 + 1.
Definition touched (nr len i : Z) : bool :=
  let rest := len - head_of nr len in
  let b := 8 * body_byte nr in
  ((nr <=? i) && (i <? nr + head_of nr len))
  || ((b <=? i) && (i <? b + 8 * (rest / 8)))
  || ((b <=? i) && (i <? b + rest mod 8)).

(** The ranges whose last bits are not lost: no whole byte after the head, or
    an end on a byte boundary. *)
Definition range_exact (nr len : Z) : bool :=
  let rest := len - head_of nr len in (rest <? 8) || (rest mod 8 =? 0).

(** ** Lemmas *)

Lemma bytes_wf_insert bmp k v :
  bytes_wf bmp -> 0 <= v < 256 -> bytes_wf (<[k := v]> bmp).
Proof. intros. by apply Forall_insert. Qed.

Lemma byte_at_range bmp k : bytes_wf bmp -> 0 <= byte_at bmp k < 256.
Proof.
  intros H. unfold byte_at. destruct (bmp !! Z.to_nat k) eqn:E; simpl; [|lia].
  exact (Forall_lookup_1 _ _ _ _ H E).
Qed.

Lemma zget_byte bmp k : 0 <= k < zlength bmp -> zget bmp k = Ok (byte_at bmp k).
Proof.
  intros H. destruct (zget_in bmp k H) as (x & Hx & ->). unfold byte_at. by rewrite Hx.
Qed.

Lemma bit_at_insert bmp k v i :
  0 <= k < zlength bmp -> 0 <= i ->
  bit_at (<[Z.to_nat k := v]> bmp) i =
    if i / 8 =? k then Z.testbit v (i mod 8) else bit_at bmp i.
Proof.
  intros Hk Hi. unfold bit_at, byte_at. unfold zlength in Hk.
  assert (0 <= i / 8) by (apply Z.div_pos; lia).
  destruct (Z.eqb_spec (i / 8) k) as [<-|Hne].
  - rewrite list_lookup_insert_eq by lia. done.
  - rewrite list_lookup_insert_ne by lia. done.
Qed.

Lemma testbit_u8 x j : 0 <= j < 8 -> Z.testbit (u8 x) j = Z.testbit x j.
Proof. intros. unfold u8. apply Z.mod_pow2_bits_low. lia. Qed.

Lemma testbit_mask n s j :
  0 <= n -> 0 <= s -> 0 <= j ->
  Z.testbit (Z.shiftl (Z.shiftl 1 n - 1) s) j = (s <=? j) && (j <? s + n).
Proof.
  intros Hn Hs Hj. rewrite Z.shiftl_1_l, Z.sub_1_r, <- Z.ones_equiv.
  rewrite Z.shiftl_spec by lia.
  destruct (Z.leb_spec s j); simpl.
  - destruct (Z.ltb_spec j (s + n)).
    + apply Z.ones_spec_low. lia.
    + apply Z.ones_spec_high. lia.
  - apply Z.testbit_neg_r. lia.
Qed.

Lemma testbit_one_shift k j : 0 <= k -> 0 <= j -> Z.testbit (Z.shiftl 1 k) j = (j =? k).
Proof.
  intros. rewrite Z.shiftl_1_l. destruct (Z.eqb_spec j k) as [->|].
  - by apply Z.pow2_bits_true.
  - apply Z.pow2_bits_false. lia.
Qed.

(** One byte updated with a mask, as an effect on all the bits. *)
Lemma or_byte_spec bmp k mask :
  bytes_wf bmp -> 0 <= k < zlength bmp ->
  exists bmp', or_byte bmp k mask = Ok bmp' /\ zlength bmp' = zlength bmp /\ bytes_wf bmp' /\
    forall i, 0 <= i ->
      bit_at bmp' i = bit_at bmp i || ((i / 8 =? k) && Z.testbit mask (i mod 8)).
Proof.
  intros Hwf Hk. unfold or_byte. rewrite zget_byte by done. simpl. rewrite zset_in by done.
  eexists. split; [done|]. split; [apply zlength_insert|]. split.
  { apply bytes_wf_insert; [done|]. pose proof (u8_range (Z.lor (byte_at bmp k) mask)). lia. }
  intros i Hi. rewrite bit_at_insert by done. unfold bit_at.
  assert (0 <= i mod 8 < 8) by (apply Z.mod_pos_bound; lia).
  destruct (Z.eqb_spec (i / 8) k) as [->|]; simpl; [|by rewrite orb_false_r].
  by rewrite testbit_u8, Z.lor_spec.
Qed.

Lemma andnot_byte_spec bmp k mask :
  bytes_wf bmp -> 0 <= k < zlength bmp ->
  exists bmp', andnot_byte bmp k mask = Ok bmp' /\ zlength bmp' = zlength bmp /\ bytes_wf bmp' /\
    forall i, 0 <= i ->
      bit_at bmp' i = bit_at bmp i && negb ((i / 8 =? k) && Z.testbit mask (i mod 8)).
Proof.
  intros Hwf Hk. unfold andnot_byte. rewrite zget_byte by done. simpl. rewrite zset_in by done.
  eexists. split; [done|]. split; [apply zlength_insert|]. split.
  { apply bytes_wf_insert; [done|].
    pose proof (u8_range (Z.land (byte_at bmp k) (Z.lnot mask))). lia. }
  intros i Hi. rewrite bit_at_insert by done. unfold bit_at.
  assert (0 <= i mod 8 < 8) by (apply Z.mod_pos_bound; lia).
  destruct (Z.eqb_spec (i / 8) k) as [->|]; simpl; [|by rewrite andb_true_r].
  rewrite testbit_u8, Z.land_spec by done. by rewrite Z.lnot_spec by lia.
Qed.

Lemma memset_spec v n bmp start :
  0 <= v < 256 -> bytes_wf bmp -> 0 <= start -> start + Z.of_nat n <= zlength bmp ->
  exists bmp', memset bmp start v n = Ok bmp' /\ zlength bmp' = zlength bmp /\ bytes_wf bmp' /\
    forall i, 0 <= i ->
      bit_at bmp' i = if (8 * start <=? i) && (i <? 8 * start + 8 * Z.of_nat n)
                      then Z.testbit v (i mod 8) else bit_at bmp i.
Proof.
  intros Hv. revert bmp start. induction n as [|n IH]; intros bmp start Hwf Hs Hb; simpl.
  - eexists. split; [done|]. split; [done|]. split; [done|]. intros i Hi. zb; simpl; try done; lia.
  - rewrite zset_in by lia. simpl.
    destruct (IH (<[Z.to_nat start := v]> bmp) (start + 1)) as (bmp' & -> & Hlen & Hwf' & Hbits).
    { by apply bytes_wf_insert. } { lia. } { rewrite zlength_insert. lia. }
    exists bmp'. split; [done|]. rewrite zlength_insert in Hlen. split; [done|]. split; [done|].
    intros i Hi. rewrite Hbits by done. rewrite bit_at_insert by lia.
    zb; simpl; try done; zdm.
Qed.

Lemma testbit_255 j : 0 <= j < 8 -> Z.testbit 255 j = true.
Proof. intros. change 255 with (Z.ones 8). apply Z.ones_spec_low. lia. Qed.

(** ** Properties *)

Lemma set_bit_or_byte nr bmp :
  set_bit nr bmp = or_byte bmp (nr / 8) (Z.shiftl 1 (nr mod 8)).
Proof. done. Qed.
Lemma clear_bit_andnot_byte nr bmp :
  clear_bit nr bmp = andnot_byte bmp (nr / 8) (Z.shiftl 1 (nr mod 8)).
Proof. done. Qed.

Lemma eqb_div_mod i nr :
  0 <= i -> 0 <= nr -> ((i / 8 =? nr / 8) && (i mod 8 =? nr mod 8)) = (i =? nr).
Proof. intros. zb; simpl; try done; zdm. Qed.

Lemma set_bit_spec nr bmp :
  bytes_wf bmp -> 0 <= nr < 8 * zlength bmp ->
  exists bmp', set_bit nr bmp = Ok bmp' /\ zlength bmp' = zlength bmp /\ bytes_wf bmp' /\
    forall i, 0 <= i -> bit_at bmp' i = bit_at bmp i || (i =? nr).
Proof.
  intros Hwf Hnr. rewrite set_bit_or_byte.
  destruct (or_byte_spec bmp (nr / 8) (Z.shiftl 1 (nr mod 8)) Hwf) as (b' & -> & ? & ? & Hb).
  { zdm. }
  eexists. split_and!; try done. intros i Hi. rewrite Hb by done.
  rewrite testbit_one_shift by zdm. by rewrite eqb_div_mod by lia.
Qed.

Lemma clear_bit_spec nr bmp :
  bytes_wf bmp -> 0 <= nr < 8 * zlength bmp ->
  exists bmp', clear_bit nr bmp = Ok bmp' /\ zlength bmp' = zlength bmp /\ bytes_wf bmp' /\
    forall i, 0 <= i -> bit_at bmp' i = bit_at bmp i && negb (i =? nr).
Proof.
  intros Hwf Hnr. rewrite clear_bit_andnot_byte.
  destruct (andnot_byte_spec bmp (nr / 8) (Z.shiftl 1 (nr mod 8)) Hwf) as (b' & -> & ? & ? & Hb).
  { zdm. }
  eexists. split_and!; try done. intros i Hi. rewrite Hb by done.
  rewrite testbit_one_shift by zdm. by rewrite eqb_div_mod by lia.
Qed.

Lemma head_mask nr h i :
  0 <= nr -> 0 <= i -> 0 <= h <= 8 - nr mod 8 ->
  (i / 8 =? nr / 8) && Z.testbit (Z.shiftl (Z.shiftl 1 h - 1) (nr mod 8)) (i mod 8)
  = (nr <=? i) && (i <? nr + h).
Proof. intros. rewrite testbit_mask by zdm. zb; simpl; try done; zdm. Qed.

Lemma tail_mask k t i :
  0 <= k -> 0 <= i -> 0 <= t <= 8 ->
  (i / 8 =? k) && Z.testbit (Z.shiftl 1 t - 1) (i mod 8) = (8 * k <=? i) && (i <? 8 * k + t).
Proof.
  intros. rewrite <- (Z.shiftl_0_r (Z.shiftl 1 t - 1)), testbit_mask by zdm.
  zb; simpl; try done; zdm.
Qed.

Lemma head_bits_range nr len :
  0 <= nr -> 0 <= len -> 0 <= head_bits nr len <= 8 - nr mod 8 /\ head_bits nr len <= len.
Proof. intros. unfold head_bits. zb; zdm. Qed.

Lemma head_of_range nr len :
  0 <= nr -> 0 <= len -> 0 <= head_of nr len <= len.
Proof.
  intros. unfold head_of. pose proof (head_bits_range nr len). zb; lia.
Qed.

(** The byte where the body starts directly follows the head bits, unless the
    head swallows the whole range. *)
Lemma body_byte_bound nr len :
  0 <= nr -> 0 <= len -> 0 < len - head_of nr len ->
  8 * body_byte nr = nr + head_of nr len.
Proof.
  intros ? ?. unfold head_of, body_byte, head_bits. zb; intros; zdm.
Qed.

Lemma empty_range a i : (a <=? i) && (i <? a + 0) = false.
Proof. zb; simpl; try done; lia. Qed.

(** The whole-byte and tail part, shared by the two head cases. *)
Lemma set_body bmp start len :
  bytes_wf bmp -> 0 <= start -> 0 <= len -> (0 < len -> 8 * start + len <= 8 * zlength bmp) ->
  exists bmp', (bmp1 ← memset bmp start 255 (Z.to_nat (len / 8));
                if 0 <? len mod 8 then or_byte bmp1 start (Z.shiftl 1 (len mod 8) - 1)
                else Ok bmp1) = Ok bmp' /\
    zlength bmp' = zlength bmp /\ bytes_wf bmp' /\
    forall i, 0 <= i ->
      bit_at bmp' i = bit_at bmp i
        || ((8 * start <=? i) && (i <? 8 * start + 8 * (len / 8)))
        || ((8 * start <=? i) && (i <? 8 * start + len mod 8)).
Proof.
  intros Hwf Hs Hl Hb.
  assert (0 <= len / 8) by zdm. assert (0 <= len mod 8 < 8) by zdm.
  destruct (decide (len = 0)) as [->|Hne].
  { exists bmp. split_and!; try done. intros i Hi. change (8 * (0 / 8)) with 0. change (0 mod 8) with 0.
    by rewrite !empty_range, !orb_false_r. }
  destruct (memset_spec 255 (Z.to_nat (len / 8)) bmp start) as (b1 & E1 & Hl1 & Hwf1 & Hb1);
    [lia|done|done|zdm|]. rewrite E1. clear E1. simpl.
  assert (forall i, 0 <= i -> bit_at b1 i =
    bit_at bmp i || ((8 * start <=? i) && (i <? 8 * start + 8 * (len / 8)))) as Hb1'.
  { intros i Hi. rewrite Hb1 by done. rewrite Z2Nat.id by lia.
    rewrite testbit_255 by zdm. by destruct (_ && _), (bit_at bmp i). }
  destruct (Z.ltb_spec 0 (len mod 8)).
  - destruct (or_byte_spec b1 start (Z.shiftl 1 (len mod 8) - 1) Hwf1) as (b2 & E2 & Hl2 & ? & Hb2).
    { rewrite Hl1. specialize (Hb ltac:(lia)). lia. }
    exists b2. split_and!; try done; [by rewrite Hl2, Hl1|].
    intros i Hi. rewrite Hb2, tail_mask, Hb1' by lia. done.
  - exists b1. split_and!; try done.
    intros i Hi. rewrite Hb1' by done. zb; simpl; try lia; by rewrite ?orb_true_r, ?orb_false_r.
Qed.

Lemma clear_body bmp start len :
  bytes_wf bmp -> 0 <= start -> 0 <= len -> (0 < len -> 8 * start + len <= 8 * zlength bmp) ->
  exists bmp', (bmp1 ← memset bmp start 0 (Z.to_nat (len / 8));
                if 0 <? len mod 8 then andnot_byte bmp1 start (Z.shiftl 1 (len mod 8) - 1)
                else Ok bmp1) = Ok bmp' /\
    zlength bmp' = zlength bmp /\ bytes_wf bmp' /\
    forall i, 0 <= i ->
      bit_at bmp' i = bit_at bmp i
        && negb (((8 * start <=? i) && (i <? 8 * start + 8 * (len / 8)))
                 || ((8 * start <=? i) && (i <? 8 * start + len mod 8))).
Proof.
  intros Hwf Hs Hl Hb.
  assert (0 <= len / 8) by zdm. assert (0 <= len mod 8 < 8) by zdm.
  destruct (decide (len = 0)) as [->|Hne].
  { exists bmp. split_and!; try done. intros i Hi. change (8 * (0 / 8)) with 0. change (0 mod 8) with 0.
    by rewrite !empty_range, andb_true_r. }
  destruct (memset_spec 0 (Z.to_nat (len / 8)) bmp start) as (b1 & E1 & Hl1 & Hwf1 & Hb1);
    [lia|done|done|zdm|]. rewrite E1. clear E1. simpl.
  assert (forall i, 0 <= i -> bit_at b1 i =
    bit_at bmp i && negb ((8 * start <=? i) && (i <? 8 * start + 8 * (len / 8)))) as Hb1'.
  { intros i Hi. rewrite Hb1 by done. rewrite Z2Nat.id by lia.
    rewrite Z.testbit_0_l. by destruct (_ && _), (bit_at bmp i). }
  destruct (Z.ltb_spec 0 (len mod 8)).
  - destruct (andnot_byte_spec b1 start (Z.shiftl 1 (len mod 8) - 1) Hwf1) as (b2 & E2 & Hl2 & ? & Hb2).
    { rewrite Hl1. specialize (Hb ltac:(lia)). lia. }
    exists b2. split_and!; try done; [by rewrite Hl2, Hl1|].
    intros i Hi. rewrite Hb2, tail_mask, Hb1', negb_orb, andb_assoc by lia. done.
  - exists b1. split_and!; try done.
    intros i Hi. rewrite Hb1' by done. f_equal. zb; simpl; try lia; done.
Qed.

Lemma set_bit_range_spec nr bmp len :
  bytes_wf bmp -> 0 <= nr -> 0 <= len -> nr + len <= 8 * zlength bmp ->
  exists bmp', set_bit_range nr bmp len = Ok bmp' /\ zlength bmp' = zlength bmp /\
    bytes_wf bmp' /\ forall i, 0 <= i -> bit_at bmp' i = bit_at bmp i || touched nr len i.
Proof.
  intros Hwf Hnr Hlen Hb. pose proof (body_byte_bound nr len Hnr Hlen) as Hbody.
  pose proof (head_bits_range nr len Hnr Hlen) as Hh.
  unfold set_bit_range, touched. unfold head_of, body_byte in *.
  destruct (Z.eqb_spec (nr mod 8) 0) as [Hz|Hz]; simpl.
  - destruct (set_body bmp (nr / 8) len) as (b & E & ? & ? & Hbits); [done|zdm|done|zdm|].
    exists b. rewrite E. split_and!; try done. intros i Hi. rewrite Hbits by done.
    rewrite !Z.sub_0_r. destruct (bit_at bmp i); simpl; [done|]. zb; simpl; try done; zdm.
  - assert (nr / 8 < zlength bmp) by zdm.
    destruct (or_byte_spec bmp (nr / 8) (Z.shiftl (Z.shiftl 1 (head_bits nr len) - 1) (nr mod 8)) Hwf)
      as (b1 & -> & Hl1 & Hwf1 & Hb1); [zdm|]. simpl.
    destruct (set_body b1 (nr / 8 + 1) (len - head_bits nr len)) as (b & E & ? & ? & Hbits);
      [done|zdm|lia|rewrite Hl1; lia|].
    exists b. rewrite E. split_and!; try done; [lia|].
    intros i Hi. rewrite Hbits, Hb1, head_mask by lia. by rewrite !orb_assoc.
Qed.

Lemma clear_bit_range_spec nr bmp len :
  bytes_wf bmp -> 0 <= nr -> 0 <= len -> nr + len <= 8 * zlength bmp ->
  exists bmp', clear_bit_range nr bmp len = Ok bmp' /\ zlength bmp' = zlength bmp /\
    bytes_wf bmp' /\ forall i, 0 <= i -> bit_at bmp' i = bit_at bmp i && negb (touched nr len i).
Proof.
  intros Hwf Hnr Hlen Hb. pose proof (body_byte_bound nr len Hnr Hlen) as Hbody.
  pose proof (head_bits_range nr len Hnr Hlen) as Hh.
  unfold clear_bit_range, touched. unfold head_of, body_byte in *.
  destruct (Z.eqb_spec (nr mod 8) 0) as [Hz|Hz]; simpl.
  - destruct (clear_body bmp (nr / 8) len) as (b & E & ? & ? & Hbits); [done|zdm|done|zdm|].
    exists b. rewrite E. split_and!; try done. intros i Hi. rewrite Hbits by done.
    rewrite !Z.sub_0_r. f_equal. f_equal. zb; simpl; try done; zdm.
  - assert (nr / 8 < zlength bmp) by zdm.
    destruct (andnot_byte_spec bmp (nr / 8) (Z.shiftl (Z.shiftl 1 (head_bits nr len) - 1) (nr mod 8)) Hwf)
      as (b1 & -> & Hl1 & Hwf1 & Hb1); [zdm|]. simpl.
    destruct (clear_body b1 (nr / 8 + 1) (len - head_bits nr len)) as (b & E & ? & ? & Hbits);
      [done|zdm|lia|rewrite Hl1; lia|].
    exists b. rewrite E. split_and!; try done; [lia|].
    intros i Hi. rewrite Hbits, Hb1, head_mask by lia. rewrite <- andb_assoc. f_equal.
    by rewrite <- negb_orb, !orb_assoc.
Qed.

Lemma touched_exact nr len i :
  0 <= nr -> 0 <= len -> 0 <= i -> range_exact nr len = true ->
  touched nr len i = (nr <=? i) && (i <? nr + len).
Proof.
  intros Hnr Hlen Hi Hex. unfold range_exact in Hex. unfold touched.
  pose proof (head_of_range nr len Hnr Hlen). pose proof (body_byte_bound nr len Hnr Hlen).
  set (h := head_of nr len) in *. set (b := 8 * body_byte nr) in *. clearbody h b.
  destruct (Z.eqb_spec (len - h) 0) as [Hz|Hz].
  - rewrite Hz. change (8 * (0 / 8)) with 0. change (0 mod 8) with 0.
    rewrite !empty_range, !orb_false_r. by replace h with len by lia.
  - zb; simpl in *; try done; zdm.
Qed.

Lemma range_exact_one nr : 0 <= nr -> range_exact nr 1 = true.
Proof.
  intros Hnr. unfold range_exact. pose proof (head_of_range nr 1 Hnr ltac:(lia)).
  destruct (Z.ltb_spec (1 - head_of nr 1) 8); [done|lia].
Qed.

(** A range that is not [range_exact] loses its last bit. *)
Lemma touched_inexact nr len :
  0 <= nr -> 0 <= len -> range_exact nr len = false -> touched nr len (nr + len - 1) = false.
Proof.
  intros Hnr Hlen Hex. unfold range_exact in Hex. unfold touched.
  pose proof (head_of_range nr len Hnr Hlen). pose proof (body_byte_bound nr len Hnr Hlen).
  set (h := head_of nr len) in *. set (b := 8 * body_byte nr) in *. clearbody h b.
  apply orb_false_iff in Hex as [?%Z.ltb_ge ?%Z.eqb_neq].
  zb; simpl in *; try done; zdm.
Qed.

Lemma land_bit b k : 0 <= k -> Z.land b (Z.shiftl 1 k) = if Z.testbit b k then 2 ^ k else 0.
Proof.
  intros Hk. apply Z.bits_inj'. intros j Hj. rewrite Z.land_spec, testbit_one_shift by done.
  destruct (Z.eqb_spec j k) as [->|Hne].
  - destruct (Z.testbit b k); simpl; [|by rewrite Z.testbit_0_l]. by rewrite Z.pow2_bits_true.
  - rewrite andb_false_r. destruct (Z.testbit b k); [|by rewrite Z.testbit_0_l].
    rewrite Z.pow2_bits_false by lia. done.
Qed.

Lemma bit_scan_spec test hit bmp size n i :
  (forall b k, 0 <= k < 8 -> test (Z.land b (Z.shiftl 1 k)) = hit (Z.testbit b k) k) ->
  0 <= i -> i + Z.of_nat n = Z.max i size -> size <= 8 * zlength bmp ->
  exists r, bit_scan test bmp size n i = Ok r /\
    ((r = size /\ forall j, i <= j < size -> hit (bit_at bmp j) (j mod 8) = false) \/
     (i <= r < size /\ hit (bit_at bmp r) (r mod 8) = true /\
      forall j, i <= j < r -> hit (bit_at bmp j) (j mod 8) = false)).
Proof.
  intros Ht. revert i. induction n as [|n IH]; intros i Hi Hn Hs; simpl.
  - exists size. split; [done|]. left. split; [done|]. lia.
  - rewrite zget_byte by zdm. simpl. rewrite Ht by zdm.
    change (Z.testbit (byte_at bmp (i / 8)) (i mod 8)) with (bit_at bmp i).
    destruct (hit (bit_at bmp i) (i mod 8)) eqn:E.
    + exists i. split; [done|]. right. split_and!; [lia|lia|done|lia].
    + destruct (IH (i + 1)) as (r & -> & Hr); [lia|lia|done|].
      exists r. split; [done|].
      assert (forall P : Z -> Prop, P i -> forall u, (forall j, i + 1 <= j < u -> P j) ->
        forall j, i <= j < u -> P j) as Hext.
      { intros P HP u HPs j Hj. destruct (decide (j = i)) as [->|]; [done|]. apply HPs. lia. }
      destruct Hr as [[-> Hr]|(? & ? & Hr)]; [left|right].
      * split; [done|]. by apply (Hext (fun j => hit (bit_at bmp j) (j mod 8) = false)).
      * split_and!; [lia|lia|done|].
        by apply (Hext (fun j => hit (bit_at bmp j) (j mod 8) = false)).
Qed.

Lemma next_zero_bit_spec bmp size offset :
  0 <= offset -> 0 <= size < 2 ^ 31 -> size <= 8 * zlength bmp ->
  exists r, next_zero_bit bmp size offset = Ok r /\
    ((r = size /\ forall j, offset <= j < size -> bit_at bmp j = true) \/
     (offset <= r < size /\ bit_at bmp r = false /\
      forall j, offset <= j < r -> bit_at bmp j = true)).
Proof.
  intros Ho Hs Hb. unfold next_zero_bit.
  destruct (bit_scan_spec (fun v => v =? 0) (fun b _ => negb b) bmp size
    (Z.to_nat (size - offset)) offset) as (r & -> & Hr); [|lia|lia|done|].
  { intros b k Hk. rewrite land_bit by lia. destruct (Z.testbit b k); simpl; [|done].
    apply Z.eqb_neq. pose proof (Z.pow_pos_nonneg 2 k). lia. }
  simpl. exists r. rewrite i32_small by (destruct Hr as [[-> _]|[? _]]; lia). split; [done|].
  destruct Hr as [[-> Hr]|(? & Hz & Hr)]; [left|right].
  - split; [done|]. intros j Hj. specialize (Hr j Hj). by destruct (bit_at bmp j).
  - split_and!; [lia|lia|by destruct (bit_at bmp r)|].
    intros j Hj. specialize (Hr j Hj). by destruct (bit_at bmp j).
Qed.

(** What [next_set_bit] really finds: a set bit that is the lowest of its byte. *)
Lemma next_set_bit_spec bmp size offset :
  0 <= offset -> 0 <= size < 2 ^ 31 -> size <= 8 * zlength bmp ->
  exists r, next_set_bit bmp size offset = Ok r /\
    ((r = size /\ forall j, offset <= j < size -> j mod 8 = 0 -> bit_at bmp j = false) \/
     (offset <= r < size /\ bit_at bmp r = true /\ r mod 8 = 0 /\
      forall j, offset <= j < r -> j mod 8 = 0 -> bit_at bmp j = false)).
Proof.
  intros Ho Hs Hb. unfold next_set_bit.
  destruct (bit_scan_spec (fun v => v =? 1) (fun b k => b && (k =? 0)) bmp size
    (Z.to_nat (size - offset)) offset) as (r & -> & Hr); [|lia|lia|done|].
  { intros b k Hk. rewrite land_bit by lia. destruct (Z.testbit b k); simpl; [|done].
    destruct (Z.eqb_spec k 0) as [->|]; [done|].
    apply Z.eqb_neq. pose proof (Z.pow_gt_1 2 k). lia. }
  simpl. exists r. rewrite i32_small by (destruct Hr as [[-> _]|[? _]]; lia). split; [done|].
  assert (forall j, bit_at bmp j && (j mod 8 =? 0) = false -> j mod 8 = 0 -> bit_at bmp j = false)
    as Haux.
  { intros j Hj Hm. by rewrite Hm, andb_true_r in Hj. }
  destruct Hr as [[-> Hr]|(? & Hz & Hr)]; [left|right].
  - split; [done|]. intros j Hj. apply Haux, Hr, Hj.
  - apply andb_true_iff in Hz as [? ?%Z.eqb_eq]. split_and!; [lia|lia|done|done|].
    intros j Hj. apply Haux, Hr, Hj.
Qed.

(** ** Properties *)

(** [set_bit_range] leaves every bit outside its range alone and, exactly
    when the range is [range_exact] (fewer than 8 bits after the head byte, or
    an end on a byte boundary), sets all the bits of the range. *)
Theorem set_bit_range_correct nr bmp len :
  bytes_wf bmp -> 0 <= nr -> 0 < len -> nr + len <= 8 * zlength bmp ->
  (forall i, nr <= i < nr + len -> bit_at bmp i = false) ->
  exists bmp', set_bit_range nr bmp len = Ok bmp' /\ bytes_wf bmp' /\
    zlength bmp' = zlength bmp /\
    (forall i, 0 <= i -> ~ nr <= i < nr + len -> bit_at bmp' i = bit_at bmp i) /\
    ((forall i, nr <= i < nr + len -> bit_at bmp' i = true) <-> range_exact nr len = true).
Proof.
  intros Hwf Hnr Hlen Hb Hz.
  destruct (set_bit_range_spec nr bmp len) as (b & E & ? & ? & Hbits); [done|done|lia|done|].
  exists b. split_and!; try done.
  - intros i Hi Hout. rewrite Hbits by done.
    assert (touched nr len i = false) as ->; [|by rewrite orb_false_r].
    pose proof (head_of_range nr len). pose proof (body_byte_bound nr len).
    unfold touched. set (h := head_of nr len) in *. set (b8 := 8 * body_byte nr) in *.
    clearbody h b8. destruct (decide (len - h = 0)) as [Hl|].
    + rewrite Hl. change (8 * (0 / 8)) with 0. change (0 mod 8) with 0.
      rewrite !empty_range, !orb_false_r. zb; simpl; try done; lia.
    + zb; simpl; try done; zdm.
  - split.
    + intros Hall. destruct (range_exact nr len) eqn:Hex; [done|].
      apply touched_inexact in Hex; [|lia|lia].
      specialize (Hall (nr + len - 1) ltac:(lia)). rewrite Hbits in Hall by lia.
      by rewrite Hex, (Hz (nr + len - 1)) in Hall by lia.
    + intros Hex i Hi. rewrite Hbits, (touched_exact nr len i) by (done || lia).
      destruct (bit_at bmp i); simpl; [done|]. zb; simpl; try done; lia.
Qed.

Lemma set_bit_range_correct_witness :
  exists bmp', set_bit_range 5 [3; 0; 0] 12 = Ok bmp' /\ bytes_wf bmp' /\
    zlength bmp' = zlength [3; 0; 0] /\
    (forall i, 0 <= i -> ~ 5 <= i < 5 + 12 -> bit_at bmp' i = bit_at [3; 0; 0] i) /\
    ((forall i, 5 <= i < 5 + 12 -> bit_at bmp' i = true) <-> range_exact 5 12 = true).
Proof.
  apply (set_bit_range_correct 5 [3; 0; 0] 12); [|lia|lia|done|].
  - by repeat (constructor; [lia|]); constructor.
  - intros i Hi.
    assert (i = 5 \/ i = 6 \/ i = 7 \/ i = 8 \/ i = 9 \/ i = 10 \/ i = 11 \/ i = 12 \/ i = 13 \/
            i = 14 \/ i = 15 \/ i = 16) as Hc by lia.
    repeat destruct Hc as [->|Hc]; try done. by subst i.
Defined.
