(* ===== verification/Slot.v ===== *)
(** * The slot allocator (src/slotfs/slot.c, slot.h)

    Each kind of slot (inode, directory entry, file entry, data block) has an
    array of [map_num] DRAM bitmaps.  A [dram_bitmap] holds the bytes of its
    part of the bitmap, the number [bit_offset] of its first slot, its number
    of slots [bit_num], the free slots [remain] and the next-fit [hint].  The
    code between [spin_lock] and [spin_unlock] of one bitmap is one definition
    ([alloc_locked], [range_locked], ...); the unlocked test [remain > 0] that
    precedes it stays outside, in the loop over the bitmaps, so that module
    [Race] can interleave two threads between the two. *)
From stdpp Require Import base numbers list relations.
From S2P Require Import Prelude Bitops.
Local Open Scope Z_scope.

(** ** State *)

Record dram_bitmap : Type := mk_bitmap {
  dram : list Z;        (* the bytes of the bitmap *)
  pm : Z;               (* relptr of the bitmap in persistent memory *)
  bit_offset : Z;
  bit_num : Z;
  remain : Z;           (* size_t *)
  hint : Z;
}.

Definition set_dram (d : list Z) (h r : Z) (b : dram_bitmap) : dram_bitmap :=
  mk_bitmap d (pm b) (bit_offset b) (bit_num b) r h.

(** [MAP_NUM] of config.h, the initial and only value of [map_num]. *)
Definition MAP_NUM : Z := 1.

Section slot.
(** The number of bitmaps per kind; the code runs with [MAP_NUM]. *)
Context (map_num : Z).

(** [sched_getcpu() % map_num]. *)
Definition start_map (cpu : Z) : Z := u64 (Z.rem cpu map_num).

(** ** Single slots *)

(** The next-fit search of the critical section: from the hint to the end,
    then from 0 to the hint. *)
Definition find_zero (b : dram_bitmap) : outcome Z :=
  bit ← next_zero_bit (dram b) (bit_num b) (hint b);
  let bit := u64 bit in
  if bit_num b <=? bit then
    bit ← next_zero_bit (dram b) (hint b) 0; Ok (u64 bit)
  else Ok bit.

Definition take_bit (b : dram_bitmap) (bit : Z) : outcome (Z * dram_bitmap) :=
  d ← set_bit bit (dram b);
  Ok (bit + bit_offset b, set_dram d (bit + 1) (u64 (remain b - 1)) b).

Definition alloc_locked (b : dram_bitmap) : outcome (option Z * dram_bitmap) :=
  bit ← find_zero b;
  if bit <? bit_num b then
    '(index, b') ← take_bit b bit; Ok (Some index, b')
  else Ok (None, b).

(** One pass of the [do ... while (current_bitmap != start_bitmap)] loop visits
    each bitmap once; [n] is the number of bitmaps left. *)
Fixpoint alloc_loop (locked : dram_bitmap -> outcome (option Z * dram_bitmap))
    (n : nat) (current_bitmap : Z) (bitmaps : list dram_bitmap)
    : outcome (Z * list dram_bitmap) :=
  match n with
  | O => Ok (-1, bitmaps)
  | S n' =>
      bitmap ← zget bitmaps current_bitmap;
      let next := (current_bitmap + 1) mod map_num in
      if 0 <? remain bitmap then
        '(r, bitmap') ← locked bitmap;
        bitmaps' ← zset bitmaps current_bitmap bitmap';
        match r with
        | Some index => Ok (index, bitmaps')
        | None => alloc_loop locked n' next bitmaps'
        end
      else alloc_loop locked n' next bitmaps
  end.

Definition do_slot_alloc (cpu : Z) (bitmaps : list dram_bitmap)
    : outcome (Z * list dram_bitmap) :=
  alloc_loop alloc_locked (Z.to_nat map_num) (start_map cpu) bitmaps.

(** ** Best-effort allocation *)

Definition SEARCH_ROUND : Z := 10.

(** The little-endian load of the [n] bytes at byte [k]. *)
Fixpoint load_le (bmp : list Z) (k : Z) (n : nat) : outcome Z :=
  match n with
  | O => Ok 0
  | S n' => b ← zget bmp k; r ← load_le bmp (k + 1) n'; Ok (b + 256 * r)
  end.

(** [for (i = 0; i < bit_num / w; i++)]: look for a chunk of [w] clear bits,
    giving up once [round] exceeds [SEARCH_ROUND]. *)
Fixpoint chunk_search (b : dram_bitmap) (w : Z) (n : nat) (i round : Z) : outcome (option Z) :=
  match n with
  | O => Ok None
  | S n' =>
      if SEARCH_ROUND <? round then Ok None else
      chunk ← load_le (dram b) (i * (w / 8)) (Z.to_nat (w / 8));
      if chunk =? 0 then Ok (Some (i * w))
      else chunk_search b w n' (i + 1) (round + 1)
  end.

Definition be_locked (b : dram_bitmap) : outcome (option Z * dram_bitmap) :=
  c64 ← chunk_search b 64 (Z.to_nat (bit_num b / 64)) 0 0;
  match c64 with
  | Some bit => '(index, b') ← take_bit b bit; Ok (Some index, b')
  | None =>
      c16 ← chunk_search b 16 (Z.to_nat (bit_num b / 16)) 0 0;
      match c16 with
      | Some bit => '(index, b') ← take_bit b bit; Ok (Some index, b')
      | None => alloc_locked b
      end
  end.

Definition slot_be_alloc (cpu : Z) (bitmaps : list dram_bitmap)
    : outcome (Z * list dram_bitmap) :=
  alloc_loop be_locked (Z.to_nat map_num) (start_map cpu) bitmaps.

(** [cache] and [offset] are the in/out parameters; the result is the index. *)
Definition slot_try_cache_alloc (bitmaps : list dram_bitmap) (cache offset : Z)
    : outcome (Z * Z * list dram_bitmap) :=
  if (cache =? 0) && (offset =? 0) then Ok (-1, offset, bitmaps) else
  let chunk_size :=
    if Z.rem cache 64 =? 0 then 64 else if Z.rem cache 16 =? 0 then 16 else 1 in
  if chunk_size <=? u64 offset then Ok (-1, offset, bitmaps) else
  let bit_idx := cache + offset in
  first ← zget bitmaps 0;
  let bitmap_size := bit_num first in
  if bitmap_size =? 0 then Fault DivByZero else
  let bitmap_index := u64 bit_idx / bitmap_size in
  let bit := u64 bit_idx mod bitmap_size in
  bitmap ← zget bitmaps bitmap_index;
  v ← check_bit bit (dram bitmap);
  bitmap' ← (if v =? 0 then
               d ← set_bit bit (dram bitmap);
               Ok (set_dram d (hint bitmap) (u64 (remain bitmap - 1)) bitmap)
             else Ok bitmap);
  bitmaps' ← zset bitmaps bitmap_index bitmap';
  Ok (bit_idx, offset + 1, bitmaps').

Definition do_slot_free (bitmaps : list dram_bitmap) (index : Z)
    : outcome (list dram_bitmap) :=
  first ← zget bitmaps 0;
  let bitmap_size := bit_num first in
  if bitmap_size =? 0 then Fault DivByZero else
  let bitmap_index := u64 index / bitmap_size in
  let bit := u64 index mod bitmap_size in
  if bitmap_index <? map_num then
    bitmap ← zget bitmaps bitmap_index;
    d ← clear_bit bit (dram bitmap);
    zset bitmaps bitmap_index (set_dram d (hint bitmap) (u64 (remain bitmap + 1)) bitmap)
  else Ok bitmaps.

(** ** Ranges *)

(** The critical section of [do_slot_alloc_range]: the index and the number of
    slots found, or [None] when [found_count] is 0. *)
Definition range_locked (count : Z) (b : dram_bitmap)
    : outcome (option (Z * Z) * dram_bitmap) :=
  range_start ← find_zero b;
  let limit := range_start +
    (if u64 (bit_num b - range_start) <? count then u64 (bit_num b - range_start) else count) in
  range_end ← next_set_bit (dram b) limit range_start;
  let range_end := u64 range_end in
  let found_count := u64 (range_end - range_start) in
  if found_count =? 0 then Ok (None, b) else
  d ← set_bit_range range_start (dram b) found_count;
  Ok (Some (range_start + bit_offset b, found_count),
      set_dram d range_end (u64 (remain b - found_count)) b).

Fixpoint range_loop (n : nat) (current_bitmap count : Z) (bitmaps : list dram_bitmap)
    : outcome (Z * Z * list dram_bitmap) :=
  match n with
  | O => Ok (-1, 0, bitmaps)
  | S n' =>
      bitmap ← zget bitmaps current_bitmap;
      let next := (current_bitmap + 1) mod map_num in
      if 0 <? remain bitmap then
        '(r, bitmap') ← range_locked count bitmap;
        bitmaps' ← zset bitmaps current_bitmap bitmap';
        match r with
        | Some (index, found_count) => Ok (index, found_count, bitmaps')
        | None => range_loop n' next count bitmaps'
        end
      else range_loop n' next count bitmaps
  end.

(** The result is the index and the new value of [*count]. *)
Definition do_slot_alloc_range (cpu : Z) (bitmaps : list dram_bitmap) (count : Z)
    : outcome (Z * Z * list dram_bitmap) :=
  range_loop (Z.to_nat map_num) (start_map cpu) count bitmaps.

Definition do_slot_free_range (bitmaps : list dram_bitmap) (index count : Z)
    : outcome (list dram_bitmap) :=
  first ← zget bitmaps 0;
  let bitmap_size := bit_num first in
  if bitmap_size =? 0 then Fault DivByZero else
  let bitmap_index := u64 index / bitmap_size in
  let bit := u64 index mod bitmap_size in
  bitmap ← zget bitmaps bitmap_index;
  d ← clear_bit_range bit (dram bitmap) count;
  zset bitmaps bitmap_index (set_dram d (hint bitmap) (u64 (remain bitmap + count)) bitmap).

End slot.

(** ** The free slots of one bitmap *)

(** The clear bits below [n]. *)
Fixpoint free_upto (d : list Z) (n : nat) : Z :=
  match n with
  | O => 0
  | S n' => free_upto d n' + (if bit_at d (Z.of_nat n') then 0 else 1)
  end.

Record bitmap_wf (b : dram_bitmap) : Prop := {
  wf_bytes : bytes_wf (dram b);
  wf_len : zlength (dram b) = (bit_num b + 7) / 8;
  wf_num : 0 < bit_num b < 2 ^ 31;
  wf_hint : 0 <= hint b <= bit_num b;
  wf_remain : remain b = free_upto (dram b) (Z.to_nat (bit_num b));
}.

Lemma free_upto_range d n : 0 <= free_upto d n <= Z.of_nat n.
Proof. induction n; simpl; [lia|]. destruct (bit_at d _); lia. Qed.

Lemma free_upto_zero d n :
  free_upto d n = 0 <-> (forall i, 0 <= i < Z.of_nat n -> bit_at d i = true).
Proof.
  induction n as [|n IH]; simpl.
  - split; [lia|done].
  - pose proof (free_upto_range d n). split.
    + intros Hz i Hi. destruct (bit_at d (Z.of_nat n)) eqn:E; [|lia].
      destruct (decide (i = Z.of_nat n)) as [->|]; [done|]. apply IH; lia.
    + intros Hall. rewrite (Hall (Z.of_nat n)) by lia.
      rewrite (proj2 IH); [done|]. intros i Hi. apply Hall. lia.
Qed.

Lemma free_upto_ext d d' n :
  (forall i, 0 <= i < Z.of_nat n -> bit_at d' i = bit_at d i) -> free_upto d' n = free_upto d n.
Proof.
  induction n as [|n IH]; intros He; simpl; [done|].
  rewrite IH, He; [done|lia|intros; apply He; lia].
Qed.

Lemma free_upto_set d d' k n :
  0 <= k < Z.of_nat n -> bit_at d k = false ->
  (forall i, 0 <= i -> bit_at d' i = bit_at d i || (i =? k)) ->
  free_upto d' n = free_upto d n - 1.
Proof.
  intros Hk Hz Hb. induction n as [|n IH]; simpl; [lia|].
  rewrite Hb by lia. destruct (Z.eqb_spec (Z.of_nat n) k) as [Heq|Hne].
  - rewrite orb_true_r, Heq, Hz. rewrite (free_upto_ext d); [lia|].
    intros i Hi. rewrite Hb by lia. destruct (Z.eqb_spec i k); [lia|]. by rewrite orb_false_r.
  - rewrite orb_false_r, IH by lia. lia.
Qed.

Lemma free_upto_clear d d' k n :
  0 <= k < Z.of_nat n -> bit_at d k = true ->
  (forall i, 0 <= i -> bit_at d' i = bit_at d i && negb (i =? k)) ->
  free_upto d' n = free_upto d n + 1.
Proof.
  intros Hk Ht Hb. enough (free_upto d n = free_upto d' n - 1) by lia.
  apply (free_upto_set d' d k); [done| |].
  - rewrite Hb by lia. by rewrite Z.eqb_refl, andb_false_r.
  - intros i Hi. rewrite Hb by done. destruct (Z.eqb_spec i k) as [->|]; simpl.
    + by rewrite Ht, orb_true_r.
    + by rewrite andb_true_r, orb_false_r.
Qed.

(** A range of clear bits set at once. *)
Lemma free_upto_set_range d d' s len n :
  0 <= s -> 0 <= len -> s + len <= Z.of_nat n ->
  (forall i, s <= i < s + len -> bit_at d i = false) ->
  (forall i, 0 <= i -> bit_at d' i = bit_at d i || ((s <=? i) && (i <? s + len))) ->
  free_upto d' n = free_upto d n - len.
Proof.
  intros Hs Hl Hn Hz Hb.
  assert (free_upto d' n = free_upto d n - Z.max 0 (Z.min (Z.of_nat n) (s + len) - s)) as ->;
    [|lia].
  clear Hn. induction n as [|n IH]; simpl free_upto; [lia|].
  rewrite IH, Hb by lia. destruct (bit_at d (Z.of_nat n)) eqn:E; simpl.
  - destruct (decide (s <= Z.of_nat n < s + len)) as [Hin|]; [by rewrite Hz in E|]. lia.
  - zb; simpl; lia.
Qed.

(** ** The searches and the critical section *)

Lemma find_zero_spec b :
  bitmap_wf b ->
  exists r, find_zero b = Ok r /\
    ((0 < remain b /\ 0 <= r < bit_num b /\ bit_at (dram b) r = false) \/
     (remain b = 0 /\ 0 <= r <= bit_num b)).
Proof.
  intros [Hwf Hlen Hnum Hh Hr]. unfold find_zero.
  assert (bit_num b <= 8 * zlength (dram b)) by (rewrite Hlen; zdm).
  destruct (next_zero_bit_spec (dram b) (bit_num b) (hint b)) as (r & -> & Hc); [lia|lia|lia|].
  simpl. rewrite (u64_small r) by lia.
  pose proof (free_upto_range (dram b) (Z.to_nat (bit_num b))) as Hrange.
  assert (forall k, 0 <= k < bit_num b -> bit_at (dram b) k = false -> 0 < remain b) as Hpos.
  { intros k Hk Hz. destruct (decide (remain b = 0)) as [H0|]; [|lia].
    rewrite Hr in H0. by rewrite (proj1 (free_upto_zero _ _) H0 k) in Hz by lia. }
  destruct Hc as [[-> Hfull]|(? & Hz & _)].
  - rewrite Z.leb_refl.
    destruct (next_zero_bit_spec (dram b) (hint b) 0) as (r2 & -> & Hc2); [lia|lia|lia|].
    simpl. rewrite (u64_small r2) by lia. exists r2. split; [done|].
    destruct Hc2 as [[-> Hlow]|(? & Hz & _)].
    + right. split; [|lia]. rewrite Hr. apply free_upto_zero. intros i Hi.
      destruct (decide (i < hint b)); [apply Hlow; lia|apply Hfull; lia].
    + left. split_and!; [apply (Hpos r2); [lia|done]|lia|lia|done].
  - destruct (Z.leb_spec (bit_num b) r); [lia|]. exists r. split; [done|].
    left. split_and!; [apply (Hpos r); [lia|done]|lia|lia|done].
Qed.

Lemma take_bit_spec b k :
  bitmap_wf b -> 0 <= k < bit_num b -> bit_at (dram b) k = false ->
  exists b', take_bit b k = Ok (k + bit_offset b, b') /\ bitmap_wf b' /\
    bit_offset b' = bit_offset b /\ bit_num b' = bit_num b /\ remain b' = remain b - 1 /\
    forall i, 0 <= i -> bit_at (dram b') i = bit_at (dram b) i || (i =? k).
Proof.
  intros Hb Hk Hz. pose proof Hb as [Hwf Hlen Hnum Hh Hr]. unfold take_bit.
  destruct (set_bit_spec k (dram b) Hwf) as (d & -> & Hld & Hwd & Hbits).
  { rewrite Hlen. zdm. }
  simpl. pose proof (free_upto_set (dram b) d k (Z.to_nat (bit_num b)) ltac:(lia) Hz Hbits) as Hf.
  pose proof (free_upto_range d (Z.to_nat (bit_num b))).
  pose proof (free_upto_range (dram b) (Z.to_nat (bit_num b))).
  rewrite u64_small by lia. eexists. split; [done|]. split_and!; simpl; try done.
  constructor; simpl; [done|by rewrite Hld|done|lia|lia].
Qed.

Lemma alloc_locked_spec b :
  bitmap_wf b -> 0 < remain b ->
  exists k b', alloc_locked b = Ok (Some (k + bit_offset b), b') /\ bitmap_wf b' /\
    0 <= k < bit_num b /\ bit_at (dram b) k = false /\
    bit_offset b' = bit_offset b /\ bit_num b' = bit_num b /\ remain b' = remain b - 1 /\
    forall i, 0 <= i -> bit_at (dram b') i = bit_at (dram b) i || (i =? k).
Proof.
  intros Hb Hpos. unfold alloc_locked.
  destruct (find_zero_spec b Hb) as (k & -> & [(_ & Hk & Hz)|[? _]]); [|lia]. simpl.
  destruct (Z.ltb_spec k (bit_num b)); [|lia].
  destruct (take_bit_spec b k Hb Hk Hz) as (b' & -> & ?). destruct_and!.
  exists k, b'. by split_and!.
Qed.

(** ** The array of bitmaps *)

Definition map_size (maps : list dram_bitmap) : Z :=
  match maps with b :: _ => bit_num b | [] => 0 end.

(** Slot [i] lives in bitmap [i / map_size], as [do_slot_free] computes. *)
Definition slot_bit (maps : list dram_bitmap) (i : Z) : bool :=
  match maps !! Z.to_nat (i / map_size maps) with
  | Some b => bit_at (dram b) (i mod map_size maps)
  | None => false
  end.

Definition slot_valid (maps : list dram_bitmap) (i : Z) : Prop :=
  0 <= i /\ exists b, maps !! Z.to_nat (i / map_size maps) = Some b /\
    i mod map_size maps < bit_num b.

Record maps_wf (map_num : Z) (maps : list dram_bitmap) : Prop := {
  mw_len : zlength maps = map_num;
  mw_pos : 0 < map_num;
  mw_each : forall j b, maps !! j = Some b ->
    bitmap_wf b /\ bit_offset b = Z.of_nat j * map_size maps /\ bit_num b <= map_size maps;
  mw_total : map_num * map_size maps < 2 ^ 63;
}.

(** What one allocation must do to the bitmap it is given. *)
Definition locked_ok (locked : dram_bitmap -> outcome (option Z * dram_bitmap)) : Prop :=
  forall b, bitmap_wf b -> 0 < remain b ->
  exists k b', locked b = Ok (Some (k + bit_offset b), b') /\ bitmap_wf b' /\
    0 <= k < bit_num b /\ bit_at (dram b) k = false /\
    bit_offset b' = bit_offset b /\ bit_num b' = bit_num b /\ remain b' = remain b - 1 /\
    forall i, 0 <= i -> bit_at (dram b') i = bit_at (dram b) i || (i =? k).

Section maps.
Context (map_num : Z).

Lemma map_size_pos maps : maps_wf map_num maps -> 0 < map_size maps.
Proof.
  intros [Hlen Hpos Heach _]. destruct maps as [|b maps]; unfold zlength in *; simpl in *; [lia|].
  destruct (Heach 0%nat b eq_refl) as [[? ? ? ? ?] _]. lia.
Qed.

Lemma map_size_insert maps j b b' :
  maps !! j = Some b -> bit_num b' = bit_num b -> map_size (<[j := b']> maps) = map_size maps.
Proof. intros Hj Hn. destruct maps, j; simpl in *; simplify_eq; done. Qed.

Lemma maps_wf_insert maps j b b' :
  maps_wf map_num maps -> maps !! j = Some b -> bitmap_wf b' ->
  bit_offset b' = bit_offset b -> bit_num b' = bit_num b ->
  maps_wf map_num (<[j := b']> maps).
Proof.
  intros [Hlen Hpos Heach Htot] Hj Hwf Ho Hn. constructor.
  - by rewrite zlength_insert.
  - done.
  - intros k c Hk. rewrite (map_size_insert _ _ b) by done.
    destruct (decide (k = j)) as [->|Hne].
    + rewrite list_lookup_insert_eq in Hk by (by eapply lookup_lt_Some). simplify_eq.
      destruct (Heach j b Hj) as (_ & ? & ?). by rewrite Ho, Hn.
    + rewrite list_lookup_insert_ne in Hk by done. by apply Heach.
  - by rewrite (map_size_insert _ _ b).
Qed.

Lemma slot_valid_insert maps j b b' i :
  maps !! j = Some b -> bit_num b' = bit_num b ->
  slot_valid (<[j := b']> maps) i <-> slot_valid maps i.
Proof.
  intros Hj Hn. unfold slot_valid. rewrite (map_size_insert _ _ b) by done.
  destruct (decide (Z.to_nat (i / map_size maps) = j)) as [Heq|Hne].
  - rewrite Heq, list_lookup_insert_eq, Hj by (by eapply lookup_lt_Some).
    split; intros (? & c & [= <-] & ?); eauto with lia.
  - by rewrite list_lookup_insert_ne.
Qed.

(** The bits after one bitmap of the array changed one bit by [f]. *)
Lemma slot_bit_insert (f : bool -> bool -> bool) maps j b b' k i :
  maps_wf map_num maps -> maps !! j = Some b -> bit_num b' = bit_num b ->
  0 <= k < bit_num b ->
  (forall c, f c false = c) ->
  (forall i, 0 <= i -> bit_at (dram b') i = f (bit_at (dram b) i) (i =? k)) ->
  slot_valid maps i ->
  slot_bit (<[j := b']> maps) i = f (slot_bit maps i) (i =? k + bit_offset b).
Proof.
  intros Hmw Hj Hn Hk Hf Hbits [Hi (c & Hc & Hlt)]. pose proof (map_size_pos maps Hmw) as Hpos.
  destruct (mw_each _ _ Hmw j b Hj) as (_ & Ho & Hle).
  unfold slot_bit. rewrite (map_size_insert _ _ b) by done.
  assert (0 <= i / map_size maps) by (apply Z.div_pos; lia).
  pose proof (Z.div_mod i (map_size maps)) as Hdm.
  pose proof (Z.mod_pos_bound i (map_size maps)).
  destruct (decide (Z.to_nat (i / map_size maps) = j)) as [Heq|Hne].
  - rewrite Heq, list_lookup_insert_eq, Hj by (by eapply lookup_lt_Some).
    rewrite Hbits by lia. f_equal. rewrite Ho, <- Heq, Z2Nat.id by lia.
    destruct (Z.eqb_spec (i mod map_size maps) k); symmetry; [apply Z.eqb_eq|apply Z.eqb_neq]; lia.
  - rewrite list_lookup_insert_ne by done.
    assert ((i =? k + bit_offset b) = false) as ->; [|by rewrite Hf].
    apply Z.eqb_neq. rewrite Ho. intros ->. apply Hne.
    rewrite Z.div_add, Z.div_small by lia. lia.
Qed.

Lemma slot_valid_bit maps j b k :
  maps_wf map_num maps -> maps !! j = Some b -> 0 <= k < bit_num b ->
  slot_valid maps (k + bit_offset b) /\ slot_bit maps (k + bit_offset b) = bit_at (dram b) k.
Proof.
  intros Hmw Hj Hk. pose proof (map_size_pos maps Hmw).
  destruct (mw_each _ _ Hmw j b Hj) as (_ & Ho & Hle).
  assert ((k + bit_offset b) / map_size maps = Z.of_nat j) as Hd.
  { rewrite Ho, Z.div_add, Z.div_small by lia. lia. }
  assert ((k + bit_offset b) mod map_size maps = k) as Hm.
  { rewrite Ho, Z_mod_plus_full, Z.mod_small by lia. lia. }
  unfold slot_valid, slot_bit. rewrite Hd, Hm, Nat2Z.id, Hj. split; [|done].
  split; [nia|]. exists b. split; [done|lia].
Qed.

(** A bitmap with no free bit has all its slots in use, and conversely. *)
Lemma remain_zero_used maps j b k :
  maps_wf map_num maps -> maps !! j = Some b -> remain b = 0 -> 0 <= k < bit_num b ->
  bit_at (dram b) k = true.
Proof.
  intros Hmw Hj Hr Hk. destruct (mw_each _ _ Hmw j b Hj) as ([_ _ _ _ Hrem] & _).
  rewrite Hr in Hrem. symmetry in Hrem. apply (proj1 (free_upto_zero _ _) Hrem). lia.
Qed.

(** One allocated slot, as a change of the whole array. *)
Definition alloc_effect (maps maps' : list dram_bitmap) (r : Z) : Prop :=
  slot_valid maps r /\ slot_bit maps r = false /\
  (forall i, slot_valid maps' i <-> slot_valid maps i) /\
  (forall i, slot_valid maps i -> slot_bit maps' i = slot_bit maps i || (i =? r)).

Lemma alloc_loop_spec locked n cur maps :
  locked_ok locked -> maps_wf map_num maps -> 0 <= cur < map_num ->
  exists r maps', alloc_loop map_num locked n cur maps = Ok (r, maps') /\
    maps_wf map_num maps' /\
    ((r = -1 /\ maps' = maps /\ forall k b, 0 <= k < Z.of_nat n ->
        maps !! Z.to_nat ((cur + k) mod map_num) = Some b -> remain b = 0) \/
     alloc_effect maps maps' r).
Proof.
  intros Hlk Hmw. revert cur. induction n as [|n IH]; intros cur Hcur; simpl.
  - exists (-1), maps. split_and!; [done|done|]. left. split_and!; [done|done|lia].
  - destruct (zget_in maps cur) as (b & Hb & ->); [rewrite (mw_len _ _ Hmw); lia|]. simpl.
    destruct (mw_each _ _ Hmw _ b Hb) as (Hbw & Ho & Hle). pose proof Hbw as [_ _ _ _ Hrem].
    destruct (Z.ltb_spec 0 (remain b)) as [Hpos|Hz].
    + destruct (Hlk b Hbw Hpos) as (k & b' & -> & Hbw' & Hk & Hclr & Ho' & Hn' & _ & Hbits). simpl.
      rewrite zset_in by (rewrite (mw_len _ _ Hmw); lia). simpl.
      exists (k + bit_offset b), (<[Z.to_nat cur := b']> maps). split; [done|].
      split; [by apply (maps_wf_insert maps _ b)|]. right.
      destruct (slot_valid_bit maps _ b k Hmw Hb Hk) as [? Hsb]. split_and!; try done.
      * by rewrite Hsb.
      * intros i. by apply (slot_valid_insert maps _ b).
      * intros i Hi. apply (slot_bit_insert orb maps _ b b' k i); try done. apply orb_false_r.
    + assert (remain b = 0) as Hz0 by (pose proof (free_upto_range (dram b) (Z.to_nat (bit_num b))); lia).
      destruct (IH ((cur + 1) mod map_num)) as (r & maps' & -> & Hmw' & Hres).
      { apply Z.mod_pos_bound. lia. }
      exists r, maps'. split_and!; [done|done|]. destruct Hres as [(-> & -> & Hall)|?]; [|by right].
      left. split_and!; [done|done|]. intros k c Hk Hc.
      destruct (decide (k = 0)) as [->|].
      * rewrite Z.add_0_r, Z.mod_small in Hc by lia. by simplify_eq.
      * apply (Hall (k - 1) c); [lia|]. rewrite Zplus_mod_idemp_l.
        by replace (cur + 1 + (k - 1)) with (cur + k) by lia.
Qed.

Lemma start_map_range cpu : 0 <= cpu -> 0 < map_num < 2 ^ 31 -> 0 <= start_map map_num cpu < map_num.
Proof.
  intros. unfold start_map. pose proof (Z.rem_bound_pos cpu map_num). rewrite u64_small; lia.
Qed.

(** The loop as a whole: it fails exactly when every slot is in use. *)
Lemma alloc_all_spec locked cpu maps :
  locked_ok locked -> maps_wf map_num maps -> 0 <= cpu -> map_num < 2 ^ 31 ->
  exists r maps', alloc_loop map_num locked (Z.to_nat map_num) (start_map map_num cpu) maps
      = Ok (r, maps') /\ maps_wf map_num maps' /\
    ((r = -1 /\ maps' = maps /\ forall i, slot_valid maps i -> slot_bit maps i = true) \/
     alloc_effect maps maps' r).
Proof.
  intros Hlk Hmw Hcpu Hmn. pose proof (mw_pos _ _ Hmw). pose proof (map_size_pos maps Hmw).
  pose proof (start_map_range cpu Hcpu ltac:(lia)) as Hst.
  destruct (alloc_loop_spec locked (Z.to_nat map_num) (start_map map_num cpu) maps Hlk Hmw Hst)
    as (r & maps' & -> & ? & [(-> & -> & Hall)|?]); eexists _, _; split; [done| |done|]; [|by auto].
  split; [done|]. left. split_and!; [done|done|]. intros i [Hi (b & Hb & Hlt)].
  unfold slot_bit. rewrite Hb. set (j := i / map_size maps) in *.
  assert (0 <= j) by (apply Z.div_pos; lia).
  assert (j < map_num).
  { apply lookup_lt_Some in Hb. rewrite <- (mw_len _ _ Hmw). unfold zlength. lia. }
  apply (remain_zero_used maps (Z.to_nat j)); [done|done| |].
  - apply (Hall ((j - start_map map_num cpu) mod map_num) b).
    + rewrite Z2Nat.id by lia. apply Z.mod_pos_bound. lia.
    + rewrite Zplus_mod_idemp_r, Zplus_minus, Z.mod_small by lia. done.
  - pose proof (Z.mod_pos_bound i (map_size maps)). lia.
Qed.

End maps.

(** ** Best-effort search *)

Lemma load_le_zero d k n :
  bytes_wf d -> 0 <= k -> k + Z.of_nat n <= zlength d ->
  exists v, load_le d k n = Ok v /\ 0 <= v /\
    (v = 0 -> forall j, k <= j < k + Z.of_nat n -> byte_at d j = 0).
Proof.
  intros Hwf. revert k. induction n as [|n IH]; intros k Hk Hl; simpl.
  - exists 0. split_and!; [done|done|lia].
  - rewrite zget_byte by lia. simpl. destruct (IH (k + 1)) as (v & -> & Hv & Hz); [lia|lia|]. simpl.
    pose proof (byte_at_range d k Hwf). eexists. split; [done|]. split; [lia|].
    intros H0 j Hj. destruct (decide (j = k)) as [->|]; [lia|]. apply Hz; lia.
Qed.

(** The two chunk widths, as constants. *)
Ltac wcase Hw :=
  destruct Hw as [-> | ->];
  [change (64 / 8) with 8; change (Z.to_nat 8) with 8%nat
  |change (16 / 8) with 2; change (Z.to_nat 2) with 2%nat]; simpl Z.of_nat; zdm.

Lemma chunk_search_spec b w n i round :
  bitmap_wf b -> w = 64 \/ w = 16 -> 0 <= i -> (i + Z.of_nat n) * w <= bit_num b ->
  exists r, chunk_search b w n i round = Ok r /\
    forall k, r = Some k -> 0 <= k < bit_num b /\ bit_at (dram b) k = false.
Proof.
  intros [Hwf Hlen Hnum _ _] Hw. revert i round.
  induction n as [|n IH]; intros i round Hi Hn; simpl; [by eexists|].
  destruct (SEARCH_ROUND <? round); [by eexists|].
  destruct (load_le_zero (dram b) (i * (w / 8)) (Z.to_nat (w / 8))) as (v & -> & _ & Hz);
    [done|wcase Hw|rewrite Hlen; wcase Hw|]. simpl.
  destruct (Z.eqb_spec v 0) as [H0|].
  - eexists. split; [done|]. intros k [= <-].
    assert (i * w / 8 = i * (w / 8) /\ (i * w) mod 8 = 0) as [Hd Hm]
      by wcase Hw.
    split; [destruct Hw as [-> | ->]; lia|]. unfold bit_at. rewrite Hd, Hm.
    rewrite Hz; [apply Z.testbit_0_l|done|]. wcase Hw.
  - apply IH; [lia|]. by replace (i + 1 + Z.of_nat n) with (i + Z.of_nat (S n)) by lia.
Qed.

Lemma be_locked_ok : locked_ok be_locked.
Proof.
  intros b Hb Hpos. unfold be_locked.
  assert (forall k, 0 <= k < bit_num b -> bit_at (dram b) k = false ->
    exists k' b', ('(index, b') ← take_bit b k; Ok (Some index, b')) = Ok (Some (k' + bit_offset b), b') /\
      bitmap_wf b' /\ 0 <= k' < bit_num b /\ bit_at (dram b) k' = false /\
      bit_offset b' = bit_offset b /\ bit_num b' = bit_num b /\ remain b' = remain b - 1 /\
      forall i, 0 <= i -> bit_at (dram b') i = bit_at (dram b) i || (i =? k')) as Htake.
  { intros k Hk Hz. destruct (take_bit_spec b k Hb Hk Hz) as (b' & -> & ?). destruct_and!.
    exists k, b'. by split_and!. }
  destruct (chunk_search_spec b 64 (Z.to_nat (bit_num b / 64)) 0 0) as ([k|] & -> & Hk);
    [done|by left|done|destruct Hb; zdm| |]; simpl.
  { destruct (Hk k eq_refl). by apply Htake. }
  destruct (chunk_search_spec b 16 (Z.to_nat (bit_num b / 16)) 0 0) as ([k|] & -> & Hk');
    [done|by right|done|destruct Hb; zdm| |]; simpl.
  { destruct (Hk' k eq_refl). by apply Htake. }
  by apply alloc_locked_spec.
Qed.

(** ** Ranges *)

Lemma range_locked_spec b count :
  bitmap_wf b -> 0 < remain b -> 0 < count < 2 ^ 63 ->
  exists k n b', range_locked count b = Ok (Some (k + bit_offset b, n), b') /\
    0 <= k /\ 0 < n <= count /\ k + n <= bit_num b /\
    bit_at (dram b) k = false /\
    (* the range stops early only at a used slot whose number is a multiple of 8 *)
    (n = Z.min count (bit_num b - k) \/ ((k + n) mod 8 = 0 /\ bit_at (dram b) (k + n) = true)) /\
    bit_offset b' = bit_offset b /\ bit_num b' = bit_num b /\ hint b' = k + n /\
    remain b' = u64 (remain b - n) /\
    bytes_wf (dram b') /\ zlength (dram b') = zlength (dram b) /\
    forall i, 0 <= i -> bit_at (dram b') i = bit_at (dram b) i || touched k n i.
Proof.
  intros Hb Hpos Hc. pose proof Hb as [Hwf Hlen Hnum Hh Hr]. unfold range_locked.
  destruct (find_zero_spec b Hb) as (k & -> & [(_ & Hk & Hz)|[? _]]); [|lia]. simpl.
  rewrite (u64_small (bit_num b - k)) by lia.
  set (m := if bit_num b - k <? count then bit_num b - k else count).
  assert (m = Z.min count (bit_num b - k)) as Hm by (unfold m; zb; lia).
  assert (bit_num b <= 8 * zlength (dram b)) by (rewrite Hlen; zdm).
  destruct (next_set_bit_spec (dram b) (k + m) k) as (e & -> & He); [lia|lia|lia|]. simpl.
  assert (k < e <= k + m) as Hke.
  { destruct He as [[-> _]|(Hr1 & Hset & _ & _)]; [lia|].
    destruct (decide (e = k)) as [->|]; [congruence|lia]. }
  rewrite (u64_small e) by lia. rewrite (u64_small (e - k)) by lia.
  destruct (Z.eqb_spec (e - k) 0); [lia|].
  destruct (set_bit_range_spec k (dram b) (e - k)) as (d & -> & Hl & Hw & Hbits); [done|lia|lia|lia|].
  simpl. exists k, (e - k). eexists. split; [done|]. simpl. split_and!; try done; try lia.
  destruct He as [[-> _]|(Hr1 & Hset & H8 & _)]; [left; lia|right].
  replace (k + (e - k)) with e by lia. done.
Qed.

(** When the bits of the range were free and none of them is lost, the bitmap
    stays well formed and exactly the range is now in use. *)
Lemma range_locked_exact b b' k n :
  bitmap_wf b -> 0 <= k -> 0 < n -> k + n <= bit_num b -> range_exact k n = true ->
  (forall i, k <= i < k + n -> bit_at (dram b) i = false) ->
  bit_offset b' = bit_offset b -> bit_num b' = bit_num b -> hint b' = k + n ->
  remain b' = u64 (remain b - n) ->
  bytes_wf (dram b') -> zlength (dram b') = zlength (dram b) ->
  (forall i, 0 <= i -> bit_at (dram b') i = bit_at (dram b) i || touched k n i) ->
  bitmap_wf b' /\
  forall i, 0 <= i -> bit_at (dram b') i = bit_at (dram b) i || ((k <=? i) && (i <? k + n)).
Proof.
  intros [Hwf Hlen Hnum Hh Hr] Hk Hn Hkn Hex Hfree Ho Hnum' Hh' Hr' Hwf' Hlen' Hbits.
  assert (forall i, 0 <= i ->
    bit_at (dram b') i = bit_at (dram b) i || ((k <=? i) && (i <? k + n))) as Hbits'.
  { intros i Hi. rewrite Hbits, touched_exact by (done || lia). done. }
  split; [|done].
  pose proof (free_upto_set_range (dram b) (dram b') k n (Z.to_nat (bit_num b)) Hk ltac:(lia)
    ltac:(lia) Hfree Hbits') as Hf.
  pose proof (free_upto_range (dram b') (Z.to_nat (bit_num b))).
  pose proof (free_upto_range (dram b) (Z.to_nat (bit_num b))).
  constructor; [done|by rewrite Hlen', Hnum', Hlen|by rewrite Hnum'|lia|].
  rewrite Hr', Hnum', Hf, u64_small by lia. lia.
Qed.

Section frees.
Context (map_num : Z).

(** The index arithmetic of the two [free] functions. *)
Lemma free_index maps i :
  maps_wf map_num maps -> slot_valid maps i ->
  exists first b, zget maps 0 = Ok first /\ bit_num first = map_size maps /\ map_size maps <> 0 /\
    u64 i = i /\ i / map_size maps < map_num /\
    zget maps (i / map_size maps) = Ok b /\ maps !! Z.to_nat (i / map_size maps) = Some b /\
    0 <= i mod map_size maps < bit_num b /\ i = i mod map_size maps + bit_offset b.
Proof.
  intros Hmw [Hi (b & Hb & Hlt)]. pose proof (map_size_pos _ maps Hmw).
  pose proof (mw_len _ _ Hmw) as Hlen. pose proof (mw_pos _ _ Hmw).
  destruct (mw_each _ _ Hmw _ b Hb) as (_ & Ho & _).
  assert (0 <= i / map_size maps) by (apply Z.div_pos; lia).
  assert (i / map_size maps < map_num).
  { apply lookup_lt_Some in Hb. rewrite <- Hlen. unfold zlength. lia. }
  pose proof (mw_total _ _ Hmw). pose proof (Z.div_mod i (map_size maps)).
  pose proof (Z.mod_pos_bound i (map_size maps)).
  destruct maps as [|first maps']; [done|]. exists first, b. split_and!; try done; try lia.
  - apply u64_small. nia.
  - apply zget_Ok. split; [lia|done].
Qed.

(** Clearing the bit of slot [i] in its bitmap frees exactly this slot. *)
Lemma clear_slot maps i b d :
  maps_wf map_num maps -> slot_valid maps i -> slot_bit maps i = true ->
  maps !! Z.to_nat (i / map_size maps) = Some b -> i = i mod map_size maps + bit_offset b ->
  0 <= i mod map_size maps < bit_num b -> zlength d = zlength (dram b) -> bytes_wf d ->
  (forall k, 0 <= k -> bit_at d k = bit_at (dram b) k && negb (k =? i mod map_size maps)) ->
  let maps' := <[Z.to_nat (i / map_size maps) := set_dram d (hint b) (u64 (remain b + 1)) b]> maps in
  maps_wf map_num maps' /\ (forall j, slot_valid maps' j <-> slot_valid maps j) /\
  (forall j, slot_valid maps j -> slot_bit maps' j = slot_bit maps j && negb (j =? i)).
Proof.
  intros Hmw Hv Hu Hb Heq Hk Hld Hwd Hbits maps'. destruct (mw_each _ _ Hmw _ b Hb) as (Hbw & Ho & Hle).
  pose proof Hbw as [Hwf Hlen Hnum Hh Hr].
  assert (bit_at (dram b) (i mod map_size maps) = true) as Hset.
  { unfold slot_bit in Hu. by rewrite Hb in Hu. }
  pose proof (map_size_pos _ maps Hmw).
  pose proof (free_upto_clear (dram b) d (i mod map_size maps) (Z.to_nat (bit_num b)) ltac:(lia) Hset Hbits) as Hfree.
  pose proof (free_upto_range d (Z.to_nat (bit_num b))).
  pose proof (free_upto_range (dram b) (Z.to_nat (bit_num b))).
  unfold maps'. rewrite u64_small by lia. split_and!.
  - apply (maps_wf_insert map_num maps _ b); try done. constructor; simpl; try done; lia.
  - intros j. by apply (slot_valid_insert maps _ b).
  - intros j Hj. rewrite Heq at 2.
    apply (slot_bit_insert map_num (fun u v => u && negb v) maps _ b _ (i mod map_size maps) j);
      try done. intros c. apply andb_true_r.
Qed.

Lemma do_slot_free_spec maps i :
  maps_wf map_num maps -> slot_valid maps i -> slot_bit maps i = true ->
  exists maps', do_slot_free map_num maps i = Ok maps' /\ maps_wf map_num maps' /\
    (forall j, slot_valid maps' j <-> slot_valid maps j) /\
    (forall j, slot_valid maps j -> slot_bit maps' j = slot_bit maps j && negb (j =? i)).
Proof.
  intros Hmw Hv Hu.
  destruct (free_index maps i Hmw Hv) as (first & b & Hf & Hs & Hnz & Hui & Hlt & Hg & Hb & Hk & Heq).
  unfold do_slot_free. rewrite Hf. simpl. rewrite Hs, Hui.
  destruct (Z.eqb_spec (map_size maps) 0); [done|].
  destruct (Z.ltb_spec (i / map_size maps) map_num); [|lia].
  rewrite Hg. simpl. destruct (mw_each _ _ Hmw _ b Hb) as ([Hwf Hlen _ _ _] & _).
  destruct (clear_bit_spec (i mod map_size maps) (dram b) Hwf) as (d & -> & Hld & Hwd & Hbits).
  { rewrite Hlen. zdm. }
  simpl. pose proof (map_size_pos _ maps Hmw). pose proof (proj1 Hv).
  rewrite zset_in by (rewrite (mw_len _ _ Hmw); split; [apply Z.div_pos; lia|lia]).
  eexists. split; [done|]. by apply clear_slot.
Qed.

(** Freeing a range of one slot is freeing the slot. *)
Lemma do_slot_free_range_one maps i :
  maps_wf map_num maps -> slot_valid maps i -> slot_bit maps i = true ->
  exists maps', do_slot_free_range maps i 1 = Ok maps' /\ maps_wf map_num maps' /\
    (forall j, slot_valid maps' j <-> slot_valid maps j) /\
    (forall j, slot_valid maps j -> slot_bit maps' j = slot_bit maps j && negb (j =? i)).
Proof.
  intros Hmw Hv Hu.
  destruct (free_index maps i Hmw Hv) as (first & b & Hf & Hs & Hnz & Hui & Hlt & Hg & Hb & Hk & Heq).
  unfold do_slot_free_range. rewrite Hf. simpl. rewrite Hs, Hui.
  destruct (Z.eqb_spec (map_size maps) 0); [done|].
  rewrite Hg. simpl. destruct (mw_each _ _ Hmw _ b Hb) as ([Hwf Hlen _ _ _] & _).
  destruct (clear_bit_range_spec (i mod map_size maps) (dram b) 1 Hwf) as (d & -> & Hld & Hwd & Hbits);
    [lia|lia|rewrite Hlen; zdm|].
  simpl. pose proof (map_size_pos _ maps Hmw). pose proof (proj1 Hv).
  rewrite zset_in by (rewrite (mw_len _ _ Hmw); split; [apply Z.div_pos; lia|lia]).
  eexists. split; [done|]. apply clear_slot; try done.
  intros k Hk0. rewrite Hbits by done. rewrite touched_exact by first [lia | apply range_exact_one; lia].
  do 2 f_equal. zb; simpl; lia || done.
Qed.

Definition map_dist (cur : Z) (j : nat) : Z := (Z.of_nat j - cur) mod map_num.

Lemma map_dist_step maps cur j :
  maps_wf map_num maps -> 0 <= cur < map_num -> (j < length maps)%nat -> Z.of_nat j <> cur ->
  map_dist ((cur + 1) mod map_num) j = map_dist cur j - 1.
Proof.
  intros Hmw Hcur Hj Hne. unfold map_dist. pose proof (mw_len _ _ Hmw) as Hlen.
  unfold zlength in Hlen. rewrite Zminus_mod_idemp_r.
  replace (Z.of_nat j - (cur + 1)) with (Z.of_nat j - cur - 1) by lia.
  pose proof (Z.mod_pos_bound (Z.of_nat j - cur) map_num).
  rewrite <- Zminus_mod_idemp_l. apply Z.mod_small.
  assert ((Z.of_nat j - cur) mod map_num <> 0); [|lia].
  intros [q Hq]%Z.mod_divide; [|lia].
  assert (q = 0 \/ 1 <= q \/ q <= -1) as [->|[?|?]] by lia; nia.
Qed.

Lemma range_loop_hits maps count n cur j c :
  maps_wf map_num maps -> 0 < count < 2 ^ 63 -> 0 <= cur < map_num ->
  maps !! j = Some c -> 0 < remain c -> map_dist cur j < Z.of_nat n ->
  exists j b k m b', range_loop map_num n cur count maps
      = Ok (k + bit_offset b, m, <[j := b']> maps) /\
    maps !! j = Some b /\ 0 < remain b /\
    range_locked count b = Ok (Some (k + bit_offset b, m), b').
Proof.
  intros Hmw Hc. revert cur.
  induction n as [|n IH]; intros cur Hcur Hj Hpos Hlt; simpl.
  { unfold map_dist in Hlt. pose proof (Z.mod_pos_bound (Z.of_nat j - cur) map_num). lia. }
  destruct (zget_in maps cur) as (b & Hb & ->); [rewrite (mw_len _ _ Hmw); lia|]. simpl.
  destruct (mw_each _ _ Hmw _ b Hb) as (Hbw & _).
  destruct (Z.ltb_spec 0 (remain b)) as [Hp|Hz].
  - destruct (range_locked_spec b count Hbw Hp Hc) as (k & m & b' & E & _). rewrite E. simpl.
    rewrite zset_in by (rewrite (mw_len _ _ Hmw); lia). simpl.
    by exists (Z.to_nat cur), b, k, m, b'.
  - apply IH; [apply Z.mod_pos_bound; lia|done|done|].
    rewrite (map_dist_step maps) by (done || (by eapply lookup_lt_Some) ||
      (intros <-; rewrite Nat2Z.id in Hb; simplify_eq; lia)). lia.
Qed.

(** A free slot somewhere makes some bitmap serve the range. *)
Lemma range_loop_spec maps cpu count :
  maps_wf map_num maps -> 0 <= cpu -> map_num < 2 ^ 31 -> 0 < count < 2 ^ 63 ->
  (exists i, slot_valid maps i /\ slot_bit maps i = false) ->
  exists j b k n b',
    do_slot_alloc_range map_num cpu maps count = Ok (k + bit_offset b, n, <[j := b']> maps) /\
    maps !! j = Some b /\ 0 < remain b /\
    range_locked count b = Ok (Some (k + bit_offset b, n), b').
Proof.
  intros Hmw Hcpu Hmn Hc (i0 & Hv0 & Hz0). unfold do_slot_alloc_range.
  pose proof (mw_pos _ _ Hmw).
  pose proof (start_map_range map_num cpu Hcpu ltac:(lia)) as Hst.
  destruct (free_index maps i0 Hmw Hv0) as (_ & b & _ & _ & _ & _ & Hlt & _ & Hb & Hk & Heq).
  apply (range_loop_hits maps count _ _ (Z.to_nat (i0 / map_size maps)) b); try done.
  - destruct (mw_each _ _ Hmw _ b Hb) as ([_ _ _ _ Hr] & _).
    pose proof (free_upto_range (dram b) (Z.to_nat (bit_num b))).
    destruct (decide (remain b = 0)) as [Hr0|]; [|lia].
    unfold slot_bit in Hz0. rewrite Hb in Hz0.
    by rewrite (remain_zero_used map_num maps (Z.to_nat (i0 / map_size maps)) b) in Hz0.
  - unfold map_dist. rewrite (Z2Nat.id map_num) by lia. apply Z.mod_pos_bound. lia.
Qed.

(** A request for one slot gets a free slot and takes exactly this one. *)
Lemma do_slot_alloc_range_one maps cpu :
  maps_wf map_num maps -> 0 <= cpu -> map_num < 2 ^ 31 ->
  (exists i, slot_valid maps i /\ slot_bit maps i = false) ->
  exists r maps', do_slot_alloc_range map_num cpu maps 1 = Ok (r, 1, maps') /\ maps_wf map_num maps' /\
    (forall i, slot_valid maps' i <-> slot_valid maps i) /\
    slot_valid maps r /\ slot_bit maps r = false /\
    (forall i, slot_valid maps i -> slot_bit maps' i = slot_bit maps i || (i =? r)).
Proof.
  intros Hmw Hcpu Hmn Hfree.
  destruct (range_loop_spec maps cpu 1 Hmw Hcpu Hmn ltac:(lia) Hfree) as (j & b & k & n & b' & E & Hj & Hpos & Hrl).
  destruct (mw_each _ _ Hmw j b Hj) as (Hbw & Ho & Hle).
  destruct (range_locked_spec b 1 Hbw Hpos ltac:(lia))
    as (k1 & n1 & b1 & E1 & Hk & Hn & Hkn & Hz & _ & Ho1 & Hnum & Hh & Hr & Hwf & Hlen & Hbits).
  rewrite Hrl in E1. injection E1 as Hkeq -> ->. replace k1 with k in * by lia. replace n1 with 1 in * by lia.
  destruct (range_locked_exact b b1 k 1) as [Hwf' Hb']; try done; try lia; [by apply range_exact_one| |].
  { intros i Hi. by replace i with k by lia. }
  destruct (slot_valid_bit map_num maps j b k Hmw Hj) as [Hv Hs]; [lia|].
  eexists _, _. split; [exact E|]. split_and!; [by apply (maps_wf_insert map_num maps j b)| |done|congruence|].
  - intros i. by apply (slot_valid_insert maps j b).
  - intros i Hi. apply (slot_bit_insert map_num orb maps j b b1 k i); try done; [lia|intros c; apply orb_false_r|].
    intros i0 Hi0. rewrite Hb' by done. f_equal. zb; simpl; lia || done.
Qed.

End frees.

(** ** The interface to the rest of the system *)

(** What the users of a slot pool rely on: a pool of numbered slots with an
    allocation that returns a free one or -1 and a release. *)
Class SlotAllocator (P : Type) : Type := {
  sa_inv : P -> Prop;
  sa_valid : P -> Z -> Prop;
  sa_used : P -> Z -> bool;
  sa_alloc : Z -> P -> outcome (Z * P);
  sa_free : P -> Z -> outcome P;
  sa_valid_nonneg s i : sa_valid s i -> 0 <= i;
  sa_alloc_ok cpu s : sa_inv s -> 0 <= cpu ->
    exists r s', sa_alloc cpu s = Ok (r, s') /\ sa_inv s' /\
      (forall i, sa_valid s' i <-> sa_valid s i) /\
      ((r = -1 /\ s' = s /\ forall i, sa_valid s i -> sa_used s i = true) \/
       (sa_valid s r /\ sa_used s r = false /\
        forall i, sa_valid s i -> sa_used s' i = sa_used s i || (i =? r)));
  sa_free_ok s i : sa_inv s -> sa_valid s i -> sa_used s i = true ->
    exists s', sa_free s i = Ok s' /\ sa_inv s' /\
      (forall j, sa_valid s' j <-> sa_valid s j) /\
      (forall j, sa_valid s j -> sa_used s' j = sa_used s j && negb (j =? i));
}.

(** The bitmaps of slot.c implement it. *)
#[export, refine] Instance bitmap_allocator : SlotAllocator (list dram_bitmap) := {|
  sa_inv := maps_wf MAP_NUM;
  sa_valid := slot_valid;
  sa_used := slot_bit;
  sa_alloc := do_slot_alloc MAP_NUM;
  sa_free := do_slot_free MAP_NUM;
|}.
Proof.
  - by intros s i [? _].
  - intros cpu s Hs Hcpu.
    destruct (alloc_all_spec MAP_NUM alloc_locked cpu s) as (r & s' & E & Hw & Hr);
      [exact alloc_locked_spec|done|done|done|].
    exists r, s'. split; [exact E|]. split; [done|].
    destruct Hr as [(-> & -> & ?)|(? & ? & ? & ?)]; split; auto.
  - intros s i. apply do_slot_free_spec.
Defined.

(** [n] allocations in a row, each on some CPU; the slots they return. *)
Fixpoint alloc_many {P} `{SlotAllocator P} (cpus : list Z) (s : P) : outcome (list Z * P) :=
  match cpus with
  | [] => Ok ([], s)
  | cpu :: cpus' =>
      '(r, s') ← sa_alloc cpu s;
      '(rs, s'') ← alloc_many cpus' s';
      Ok (r :: rs, s'')
  end.

Lemma alloc_many_spec {P} `{SlotAllocator P} cpus s :
  sa_inv s -> Forall (fun c => 0 <= c) cpus ->
  exists rs s', alloc_many cpus s = Ok (rs, s') /\ sa_inv s' /\
    (forall i, sa_valid s' i <-> sa_valid s i) /\
    NoDup (filter (fun r => r <> -1) rs) /\
    (forall r, r ∈ rs -> r <> -1 -> sa_valid s r /\ sa_used s r = false) /\
    (forall i, sa_valid s i -> sa_used s' i = sa_used s i || bool_decide (i ∈ rs)).
Proof.
  intros Hinv Hc. revert s Hinv. induction Hc as [|c cpus Hc0 _ IH]; intros s Hinv; simpl.
  - exists [], s. split_and!; try done; [apply NoDup_nil_2|by intros r ?%not_elem_of_nil|].
    intros i _. by rewrite orb_false_r.
  - destruct (sa_alloc_ok c s Hinv Hc0) as (r & s1 & -> & Hinv1 & Hv1 & Hr). simpl.
    destruct (IH s1 Hinv1) as (rs & s' & -> & Hinv' & Hv' & Hnd & Hfresh & Hused). simpl.
    exists (r :: rs), s'. split; [done|]. split; [done|].
    split; [intros i; by rewrite Hv', Hv1|].
    assert (forall i, sa_valid s i -> sa_used s1 i = false -> sa_used s i = false /\ i <> r) as Hback.
    { intros i Hi Hu. destruct Hr as [(-> & -> & Hall)|(Hvr & Hur & Heff)].
      - by rewrite Hall in Hu.
      - rewrite Heff in Hu by done. apply orb_false_iff in Hu as [? ?%Z.eqb_neq]. done. }
    split_and!.
    + rewrite filter_cons. case_decide as Hne; [|done]. apply NoDup_cons. split; [|done].
      intros [_ Hin]%list_elem_of_filter. destruct (Hfresh r Hin Hne) as [Hv Hu].
      by destruct (Hback r (proj1 (Hv1 r) Hv) Hu).
    + intros x [->|Hin]%elem_of_cons Hne.
      * destruct Hr as [(-> & _)|(? & ? & _)]; [done|]. done.
      * destruct (Hfresh x Hin Hne) as [Hv%Hv1 Hu]. by destruct (Hback x Hv Hu).
    + intros i Hi. rewrite Hused by (by apply Hv1). destruct Hr as [(-> & -> & Hall)|(_ & _ & Heff)].
      * by rewrite Hall.
      * rewrite Heff by done. destruct (Z.eqb_spec i r) as [->|Hne].
        -- rewrite (bool_decide_true (r ∈ r :: rs)) by (apply elem_of_cons; by left). by rewrite !orb_true_r.
        -- rewrite orb_false_r. f_equal. apply bool_decide_ext. rewrite elem_of_cons.
           split; [by right|by intros [?|?]].
Qed.

(** ** Threads that allocate from one bitmap

    [remain > 0] is read before the lock is taken: a thread first passes the
    test and later runs its critical section.  Any number of threads run. *)
Module Race.

Inductive thread : Type :=
| Start                    (* before the test [bitmap->remain > 0] *)
| Checked                  (* the test succeeded; the lock is not taken yet *)
| Done (r : option Z).     (* the critical section returned this slot *)

Definition config : Type := dram_bitmap * list thread.

Inductive step : config -> config -> Prop :=
| step_check b ts t :
    ts !! t = Some Start -> 0 < remain b ->
    step (b, ts) (b, <[t := Checked]> ts)
| step_locked b b' ts t r :
    ts !! t = Some Checked -> alloc_locked b = Ok (r, b') ->
    step (b, ts) (b', <[t := Done r]> ts).

Definition weight (t : thread) : Z := match t with Done _ => 0 | _ => 1 end.
Definition pending (ts : list thread) : Z := foldr (fun t n => weight t + n) 0 ts.
Definition result (t : thread) : option (option Z) :=
  match t with Done r => Some r | _ => None end.
Definition results (ts : list thread) : list (option Z) := omap result ts.

(** The slots handed out so far were free at the start, are distinct, and are
    marked; enough slots remain for the threads that have not finished. *)
Record inv (b0 : dram_bitmap) (c : config) : Prop := {
  inv_wf : bitmap_wf c.1;
  inv_geom : bit_offset c.1 = bit_offset b0 /\ bit_num c.1 = bit_num b0;
  inv_room : pending c.2 <= remain c.1;
  inv_nodup : NoDup (results c.2);
  inv_fresh : forall r, r ∈ results c.2 -> exists k, r = Some (k + bit_offset b0) /\
    0 <= k < bit_num b0 /\ bit_at (dram b0) k = false /\ bit_at (dram c.1) k = true;
  inv_mono : forall k, 0 <= k -> bit_at (dram b0) k = true -> bit_at (dram c.1) k = true;
}.

Lemma pending_insert ts t x y :
  ts !! t = Some x -> pending (<[t := y]> ts) = pending ts - weight x + weight y.
Proof.
  revert t. induction ts as [|z ts IH]; intros [|t] Ht; simpl in *; simplify_eq; [lia|].
  rewrite IH by done. lia.
Qed.

Lemma pending_nonneg ts : 0 <= pending ts.
Proof. induction ts as [|[] ts IH]; simpl; lia. Qed.

Lemma results_insert ts t x y :
  ts !! t = Some x -> result x = None ->
  results (<[t := y]> ts) ≡ₚ (match result y with Some r => [r] | None => [] end) ++ results ts.
Proof.
  revert t. induction ts as [|z ts IH]; intros [|t] Ht Hx; simpl in *; simplify_eq.
  - rewrite Hx. by destruct (result y).
  - specialize (IH t Ht Hx). unfold results in *. simpl.
    destruct (result z) as [w|]; [|done]. etrans; [by apply Permutation_cons, IH|].
    apply Permutation_middle.
Qed.

Lemma inv_step b0 c c' : inv b0 c -> step c c' -> inv b0 c'.
Proof.
  intros [Hwf [Hgo Hgn] Hroom Hnd Hfresh Hmono] Hstep.
  destruct Hstep as [b ts t Ht Hpos|b b' ts t r Ht Hal]; simpl in *.
  - assert (results (<[t := Checked]> ts) ≡ₚ results ts) as Hres.
    { by rewrite (results_insert _ _ Start Checked). }
    constructor; simpl; try done.
    + rewrite (pending_insert _ _ Start) by done. simpl. lia.
    + by rewrite Hres.
    + intros r Hr. apply Hfresh. by rewrite <- Hres.
  - pose proof (pending_insert ts t Checked (Done r) Ht) as Hp. simpl in Hp.
    pose proof (pending_nonneg (<[t := Done r]> ts)).
    destruct (alloc_locked_spec b Hwf ltac:(lia)) as
      (k & b1 & E & Hwf' & Hk & Hz & Ho & Hn & Hr & Hbits).
    rewrite E in Hal. injection Hal as <- <-.
    assert (results (<[t := Done (Some (k + bit_offset b))]> ts)
            ≡ₚ Some (k + bit_offset b) :: results ts) as Hres
      by (by rewrite (results_insert _ _ Checked _ Ht)).
    constructor; simpl.
    + done.
    + by rewrite Ho, Hn.
    + lia.
    + rewrite Hres. apply NoDup_cons. split; [|done]. intros Hin.
      destruct (Hfresh _ Hin) as (k' & [= Heq] & _ & _ & Hset).
      rewrite Hgo in Heq. replace k' with k in Hset by lia. congruence.
    + intros x Hx. rewrite Hres in Hx. apply elem_of_cons in Hx as [->|Hx].
      * exists k. rewrite Hgo. split_and!; [done|lia|lia| |].
        -- destruct (bit_at (dram b0) k) eqn:E0; [|done]. by rewrite Hmono in Hz by (done || lia).
        -- rewrite Hbits, Z.eqb_refl by lia. by rewrite orb_true_r.
      * destruct (Hfresh x Hx) as (k' & -> & Hk' & ? & Hset). exists k'. split_and!; try done; try lia.
        rewrite Hbits by lia. by rewrite Hset.
    + intros j Hj Hb. rewrite Hbits by done. by rewrite (Hmono j Hj Hb).
Qed.

Lemma inv_init b n :
  bitmap_wf b -> Z.of_nat n <= remain b -> inv b (b, replicate n Start).
Proof.
  intros Hwf Hn.
  assert (results (replicate n Start) = []) as Hres by (induction n; simpl; [done|]; apply IHn; lia).
  constructor; simpl; try done; try (by rewrite Hres; apply NoDup_nil_2).
  - enough (pending (replicate n Start) = Z.of_nat n) by lia. clear. induction n; simpl; lia.
  - intros r Hr. rewrite Hres in Hr. by apply not_elem_of_nil in Hr.
Qed.

End Race.

(** ** Properties *)

(** C22: [do_slot_alloc] on well-formed bitmaps always returns.  It returns -1,
    changing nothing, exactly when every slot is in use; otherwise it returns a
    slot that was free, marks it and no other slot, and keeps the bitmaps
    well formed ([remain] exact, [hint] in range). *)
Theorem do_slot_alloc_correct map_num cpu maps :
  maps_wf map_num maps -> 0 <= cpu -> map_num < 2 ^ 31 ->
  exists r maps', do_slot_alloc map_num cpu maps = Ok (r, maps') /\ maps_wf map_num maps' /\
    ((r = -1 /\ maps' = maps /\ forall i, slot_valid maps i -> slot_bit maps i = true) \/
     alloc_effect maps maps' r).
Proof. apply alloc_all_spec. exact alloc_locked_spec. Qed.

(** The best-effort search of [slot_be_alloc] (whole 64- and 16-bit chunks,
    then next fit) meets the same specification as [do_slot_alloc]. *)
Theorem slot_be_alloc_correct map_num cpu maps :
  maps_wf map_num maps -> 0 <= cpu -> map_num < 2 ^ 31 ->
  exists r maps', slot_be_alloc map_num cpu maps = Ok (r, maps') /\ maps_wf map_num maps' /\
    ((r = -1 /\ maps' = maps /\ forall i, slot_valid maps i -> slot_bit maps i = true) \/
     alloc_effect maps maps' r).
Proof. apply alloc_all_spec. exact be_locked_ok. Qed.

(** Freeing the slot an allocation returned gives back exactly the set of
    used slots there was before the allocation. *)
Theorem slot_alloc_free_roundtrip map_num cpu maps r maps' :
  maps_wf map_num maps -> 0 <= cpu -> map_num < 2 ^ 31 ->
  do_slot_alloc map_num cpu maps = Ok (r, maps') -> r <> -1 ->
  exists maps'', do_slot_free map_num maps' r = Ok maps'' /\ maps_wf map_num maps'' /\
    forall i, slot_valid maps i -> slot_bit maps'' i = slot_bit maps i.
Proof.
  intros Hmw Hcpu Hmn Hal Hr.
  destruct (alloc_all_spec map_num alloc_locked cpu maps) as (r1 & m1 & E & Hmw1 & Hres);
    [exact alloc_locked_spec|done|done|done|].
  unfold do_slot_alloc in Hal. rewrite E in Hal. injection Hal as -> ->.
  destruct Hres as [(? & _)|(Hv & Hfree & Hval & Hbits)]; [done|].
  destruct (do_slot_free_spec map_num maps' r) as (m2 & E2 & Hmw2 & _ & Hbits2).
  { done. } { by apply Hval. } { rewrite Hbits, Z.eqb_refl by done. by rewrite orb_true_r. }
  exists m2. split_and!; [done|done|]. intros i Hi. rewrite Hbits2, Hbits by (done || by apply Hval).
  destruct (Z.eqb_spec i r) as [->|]; simpl.
  - by rewrite Hfree.
  - by rewrite orb_false_r, andb_true_r.
Qed.

(** Any number of successive allocations from the bitmaps of the file
    system return pairwise distinct slots (or -1), all of them free before. *)
Theorem slot_allocs_distinct cpus maps :
  maps_wf MAP_NUM maps -> Forall (fun c => 0 <= c) cpus ->
  exists rs maps', alloc_many cpus maps = Ok (rs, maps') /\ maps_wf MAP_NUM maps' /\
    NoDup (filter (fun r => r <> -1) rs) /\
    (forall r, r ∈ rs -> r <> -1 -> slot_valid maps r /\ slot_bit maps r = false) /\
    (forall i, slot_valid maps i -> slot_bit maps' i = slot_bit maps i || bool_decide (i ∈ rs)).
Proof.
  intros Hmw Hc. destruct (@alloc_many_spec _ bitmap_allocator cpus maps Hmw Hc) as (rs & m & ? & ? & _ & ? & ? & ?).
  by exists rs, m.
Qed.

(** [do_slot_alloc_range] with a free slot anywhere returns between 1 and
    [count] slots starting at a free one.  When the slots of the returned range
    were all free and the range is [range_exact], exactly these slots become
    used and the bitmaps stay well formed. *)
Theorem do_slot_alloc_range_correct map_num cpu maps count :
  maps_wf map_num maps -> 0 <= cpu -> map_num < 2 ^ 31 -> 0 < count < 2 ^ 63 ->
  (exists i, slot_valid maps i /\ slot_bit maps i = false) ->
  exists j b k n b',
    do_slot_alloc_range map_num cpu maps count = Ok (k + bit_offset b, n, <[j := b']> maps) /\
    maps !! j = Some b /\ 0 <= k /\ 0 < n <= count /\ k + n <= bit_num b /\
    bit_at (dram b) k = false /\
    (range_exact k n = true -> (forall i, k <= i < k + n -> bit_at (dram b) i = false) ->
     maps_wf map_num (<[j := b']> maps) /\
     forall i, 0 <= i -> bit_at (dram b') i = bit_at (dram b) i || ((k <=? i) && (i <? k + n))).
Proof.
  intros Hmw Hcpu Hmn Hc Hfree.
  destruct (range_loop_spec map_num maps cpu count Hmw Hcpu Hmn Hc Hfree)
    as (j & b & k & n & b' & E & Hj & Hpos & Hrl).
  destruct (mw_each _ _ Hmw j b Hj) as (Hbw & _).
  destruct (range_locked_spec b count Hbw Hpos Hc)
    as (k1 & n1 & b1 & E1 & Hk & Hn & Hkn & Hz & _ & Ho & Hnum & Hh & Hr & Hwf & Hlen & Hbits).
  rewrite Hrl in E1. injection E1 as Hkeq -> ->. replace k1 with k in * by lia.
  exists j, b, k, n1, b1. split_and!; try done; try lia. intros Hex Hall.
  destruct (range_locked_exact b b1 k n1) as [Hwf' Hb']; try done; try lia.
  split; [|done]. by apply (maps_wf_insert map_num maps j b).
Qed.

(** A bitmap of [n] slots with the given bytes, as [shm_init_bitmap] makes it. *)
Definition example_map (d : list Z) (n h : Z) : dram_bitmap :=
  mk_bitmap d 0 0 n (free_upto d (Z.to_nat n)) h.

Lemma bitmap_wf_example d n h :
  bytes_wf d -> zlength d = (n + 7) / 8 -> 0 < n < 2 ^ 31 -> 0 <= h <= n ->
  bitmap_wf (example_map d n h).
Proof. intros. by constructor. Qed.

Lemma maps_wf_single b : bitmap_wf b -> bit_offset b = 0 -> maps_wf 1 [b].
Proof.
  intros Hb Ho. constructor; [done|lia| |simpl; destruct Hb; lia].
  intros [|j] c Hc; simpl in *; simplify_eq. split_and!; [done|lia|lia].
Qed.

Ltac example_wf :=
  apply maps_wf_single; [|done]; apply bitmap_wf_example;
  [by repeat (constructor; [lia|]); constructor|done|lia|lia].

(** [do_slot_alloc_range] can hand out a slot that is in use: on 8 slots of
    which slot 1 is used, a request for 4 slots returns slots 0..3, because
    [next_set_bit] only sees a set bit that is the lowest of its byte. *)
Theorem slot_alloc_range_overlap :
  let maps := [example_map [2] 8 0] in
  maps_wf 1 maps /\ slot_bit maps 1 = true /\
  exists maps', do_slot_alloc_range 1 0 maps 4 = Ok (0, 4, maps').
Proof. split_and!; [example_wf|done|by eexists]. Qed.

(** [do_slot_alloc_range] can leave slots it returned unmarked: a request
    for 12 of 24 free slots returns slots 0..11 but marks only slots 0..7.  Once
    the remaining slots are taken and slot 20 is freed, the next request gets
    slot 8, which is still owned by the first request. *)
Theorem slot_alloc_range_unmarked :
  let maps := [example_map [0; 0; 0] 24 0] in
  maps_wf 1 maps /\
  exists maps1 maps2 maps3 maps4,
    do_slot_alloc_range 1 0 maps 12 = Ok (0, 12, maps1) /\
    slot_bit maps1 8 = false /\
    do_slot_alloc_range 1 0 maps1 12 = Ok (12, 12, maps2) /\
    do_slot_free_range maps2 20 1 = Ok maps3 /\
    do_slot_alloc_range 1 0 maps3 1 = Ok (8, 1, maps4).
Proof.
  split; [example_wf|]. do 4 eexists. repeat (split; [by vm_compute|]). by vm_compute.
Qed.

(** C35: Threads that allocate from one bitmap concurrently, each testing
    [remain > 0] before taking the lock, get distinct slots that were free, as
    long as at least as many slots are free as there are threads. *)
Theorem slot_race_safe b n c :
  bitmap_wf b -> Z.of_nat n <= remain b ->
  rtc Race.step (b, replicate n Race.Start) c ->
  bitmap_wf c.1 /\ NoDup (Race.results c.2) /\
  forall r, r ∈ Race.results c.2 -> exists k, r = Some (k + bit_offset b) /\
    0 <= k < bit_num b /\ bit_at (dram b) k = false /\ bit_at (dram c.1) k = true.
Proof.
  intros Hb Hn Hr.
  assert (Race.inv b c) as [? _ _ ? ? _]; [|done].
  apply (rtc_invariant Race.step (Race.inv b) (b, replicate n Race.Start));
    [exact (Race.inv_step b)|by apply Race.inv_init|done].
Qed.

(** With fewer free slots than threads the unlocked test is not enough:
    two threads that both see the last free slot can each be given a slot, the
    second one a slot that was in use all along. *)
Theorem slot_race_double_alloc :
  let b := example_map [247] 8 0 in   (* only slot 3 is free *)
  bitmap_wf b /\ slot_bit [b] 4 = true /\
  exists b', rtc Race.step (b, [Race.Start; Race.Start])
               (b', [Race.Done (Some 3); Race.Done (Some 4)]).
Proof.
  split_and!; [apply bitmap_wf_example; [by repeat (constructor; [lia|]); constructor|done|lia|lia]|done|].
  eexists. eapply rtc_l; [by apply (Race.step_check _ _ 0%nat)|].
  eapply rtc_l; [by apply (Race.step_check _ _ 1%nat)|].
  eapply rtc_l; [by eapply (Race.step_locked _ _ _ 0%nat)|].
  eapply rtc_l; [by eapply (Race.step_locked _ _ _ 1%nat)|]. apply rtc_refl.
Qed.

(** ** Witnesses *)

(** 20 slots, slot 0 reserved. *)
Definition example_maps : list dram_bitmap := [example_map [1; 0; 0] 20 1].

Lemma do_slot_alloc_correct_witness :
  exists r maps', do_slot_alloc 1 0 example_maps = Ok (r, maps') /\ maps_wf 1 maps' /\
    ((r = -1 /\ maps' = example_maps /\
      forall i, slot_valid example_maps i -> slot_bit example_maps i = true) \/
     alloc_effect example_maps maps' r).
Proof. apply (do_slot_alloc_correct 1 0 example_maps); [example_wf|lia|lia]. Defined.

Lemma slot_be_alloc_correct_witness :
  exists r maps', slot_be_alloc 1 0 example_maps = Ok (r, maps') /\ maps_wf 1 maps' /\
    ((r = -1 /\ maps' = example_maps /\
      forall i, slot_valid example_maps i -> slot_bit example_maps i = true) \/
     alloc_effect example_maps maps' r).
Proof. apply (slot_be_alloc_correct 1 0 example_maps); [example_wf|lia|lia]. Defined.

Lemma slot_alloc_free_roundtrip_witness :
  exists maps', do_slot_alloc 1 0 example_maps = Ok (1, maps') /\
  exists maps'', do_slot_free 1 maps' 1 = Ok maps'' /\ maps_wf 1 maps'' /\
    forall i, slot_valid example_maps i -> slot_bit maps'' i = slot_bit example_maps i.
Proof.
  eexists. split; [by vm_compute|].
  apply (slot_alloc_free_roundtrip 1 0 example_maps 1); [example_wf|lia|lia|by vm_compute|done].
Defined.

Lemma slot_allocs_distinct_witness :
  exists rs maps', alloc_many [0; 3; 1] example_maps = Ok (rs, maps') /\ maps_wf MAP_NUM maps' /\
    NoDup (filter (fun r => r <> -1) rs) /\
    (forall r, r ∈ rs -> r <> -1 ->
       slot_valid example_maps r /\ slot_bit example_maps r = false) /\
    (forall i, slot_valid example_maps i ->
       slot_bit maps' i = slot_bit example_maps i || bool_decide (i ∈ rs)).
Proof.
  apply (slot_allocs_distinct [0; 3; 1] example_maps);
    [example_wf|by repeat (constructor; [lia|]); constructor].
Defined.

Lemma do_slot_alloc_range_correct_witness :
  exists j b k n b',
    do_slot_alloc_range 1 0 example_maps 7 = Ok (k + bit_offset b, n, <[j := b']> example_maps) /\
    example_maps !! j = Some b /\ 0 <= k /\ 0 < n <= 7 /\ k + n <= bit_num b /\
    bit_at (dram b) k = false /\
    (range_exact k n = true -> (forall i, k <= i < k + n -> bit_at (dram b) i = false) ->
     maps_wf 1 (<[j := b']> example_maps) /\
     forall i, 0 <= i -> bit_at (dram b') i = bit_at (dram b) i || ((k <=? i) && (i <? k + n))).
Proof.
  apply (do_slot_alloc_range_correct 1 0 example_maps 7); [example_wf|lia|lia|lia|].
  exists 4. split; [|done]. split; [lia|]. by eexists.
Defined.

Lemma slot_race_safe_witness :
  let b := example_map [1] 8 1 in
  exists b', rtc Race.step (b, replicate 2 Race.Start)
               (b', [Race.Done (Some 2); Race.Done (Some 1)]) /\
    bitmap_wf b' /\ NoDup (Race.results [Race.Done (Some 2); Race.Done (Some 1)]).
Proof.
  assert (rtc Race.step (example_map [1] 8 1, replicate 2 Race.Start)
    (mk_bitmap [7] 0 0 8 5 3, [Race.Done (Some 2); Race.Done (Some 1)])) as Hr.
  { eapply rtc_l; [by apply (Race.step_check _ _ 0%nat)|].
    eapply rtc_l; [by apply (Race.step_check _ _ 1%nat)|].
    eapply rtc_l; [by eapply (Race.step_locked _ _ _ 1%nat)|].
    eapply rtc_l; [by eapply (Race.step_locked _ _ _ 0%nat)|]. apply rtc_refl. }
  eexists. split; [exact Hr|].
  destruct (slot_race_safe (example_map [1] 8 1) 2 _ ltac:(apply bitmap_wf_example;
    [by repeat (constructor; [lia|]); constructor|done|lia|lia]) ltac:(vm_compute; congruence) Hr)
    as (? & ? & _). done.
Defined.
