(* ===== verification/Arena.v ===== *)
(** * The arena allocator (src/slotfs/arena.c, arena.h)

    An arena hands out fixed-size objects from one memory area.  The free
    objects form a singly linked list threaded through their first word, so
    the state of an arena is its header and the words of the area: [words]
    maps an address to the pointer stored there.  [used] and its checks exist
    only with [SLOTFS_DEBUG], which config.h leaves undefined; the spin lock is
    held for the whole of each operation. *)
From stdpp Require Import base numbers list gmap.
From S2P Require Import Prelude.
Local Open Scope Z_scope.

Record arena : Type := mk_arena {
  mem : Z;
  size : Z;
  item_size : Z;
  free_list : Z;      (* address of the first free item, 0 for NULL *)
  type : Z;
}.

Definition set_free_list (p : Z) (a : arena) : arena :=
  mk_arena (mem a) (size a) (item_size a) p (type a).

(** The loop of [arena_init] over the items [i < n]. *)
Fixpoint init_loop (n : nat) (mem item_size i free_list : Z) (words : gmap Z Z)
    : Z * gmap Z Z :=
  match n with
  | O => (free_list, words)
  | S n' =>
      let item := mem + i * item_size in
      init_loop n' mem item_size (i + 1) item (<[item := free_list]> words)
  end.

(** [arena_number] is the static counter that numbers the arenas. *)
Definition arena_init (mem size item_size : Z) (arena_number : Z) (words : gmap Z Z)
    : outcome (arena * Z * gmap Z Z) :=
  if item_size =? 0 then Fault DivByZero else
  let '(free, words') := init_loop (Z.to_nat (size / item_size)) mem item_size 0 0 words in
  Ok (mk_arena mem (ALIGN size 8) (ALIGN item_size 8) free arena_number, arena_number + 1, words').

(** The returned address is 0 (NULL) when the arena is exhausted. *)
Definition arena_alloc (a : arena) (words : gmap Z Z) : outcome (Z * arena) :=
  if free_list a =? 0 then Ok (0, a) else
  match words !! free_list a with
  | Some next => Ok (free_list a, set_free_list next a)
  | None => Fault BadPointer
  end.

Definition arena_free (a : arena) (ptr : Z) (words : gmap Z Z) : outcome (arena * gmap Z Z) :=
  if ptr =? 0 then Fault NullDeref else
  Ok (set_free_list ptr a, <[ptr := free_list a]> words).

(** ** The free list as a list of addresses *)

Fixpoint chain (words : gmap Z Z) (p : Z) (l : list Z) : Prop :=
  match l with
  | [] => p = 0
  | x :: l' => p = x /\ x <> 0 /\ exists q, words !! x = Some q /\ chain words q l'
  end.

(** The free items, without duplicates. *)
Definition arena_rep (a : arena) (words : gmap Z Z) (l : list Z) : Prop :=
  chain words (free_list a) l /\ NoDup l.

Lemma chain_ext words words' p l :
  (forall x, x ∈ l -> words' !! x = words !! x) -> chain words p l -> chain words' p l.
Proof.
  revert p. induction l as [|x l IH]; intros p He; simpl; [done|].
  intros (-> & Hx & q & Hq & Hc). split_and!; try done. exists q.
  rewrite He by (apply elem_of_cons; by left). split; [done|].
  apply IH; [|done]. intros y Hy. apply He, elem_of_cons. by right.
Qed.

Lemma chain_insert words p l x v : x ∉ l -> chain words p l -> chain (<[x := v]> words) p l.
Proof.
  intros Hx. apply chain_ext. intros y Hy. apply lookup_insert_ne. by intros ->.
Qed.

(** The items of the area, the last one first. *)
Definition items (mem item_size : Z) (n : nat) : list Z :=
  rev ((fun i => mem + i * item_size) <$> seqZ 0 (Z.of_nat n)).

Lemma items_S m isz n : items m isz (S n) = (m + Z.of_nat n * isz) :: items m isz n.
Proof.
  unfold items. replace (Z.of_nat (S n)) with (Z.of_nat n + 1) by lia.
  rewrite seqZ_app by lia. rewrite fmap_app, rev_app_distr. simpl. done.
Qed.

Lemma elem_of_items m isz n x :
  x ∈ items m isz n <-> exists i, 0 <= i < Z.of_nat n /\ x = m + i * isz.
Proof.
  induction n as [|n IH].
  - unfold items. simpl. rewrite elem_of_nil. split; [done|]. intros (i & ? & _). lia.
  - rewrite items_S, elem_of_cons, IH. split.
    + intros [->|(i & ? & ->)]; [exists (Z.of_nat n)|exists i]; split; (done || lia).
    + intros (i & ? & ->). destruct (decide (i = Z.of_nat n)) as [->|]; [by left|].
      right. exists i. split; [lia|done].
Qed.

Lemma items_NoDup m isz n : 0 < isz -> NoDup (items m isz n).
Proof.
  intros Hs. induction n as [|n IH]; [apply NoDup_nil_2|].
  rewrite items_S. apply NoDup_cons. split; [|done].
  intros (i & ? & ?)%elem_of_items. nia.
Qed.

Lemma init_loop_chain n m isz k words :
  0 < m -> 0 < isz ->
  chain words (match k with O => 0 | S k' => m + Z.of_nat k' * isz end) (items m isz k) ->
  let '(p, words') := init_loop n m isz (Z.of_nat k)
      (match k with O => 0 | S k' => m + Z.of_nat k' * isz end) words in
  chain words' p (items m isz (k + n)).
Proof.
  intros Hm Hs. revert k words. induction n as [|n IH]; intros k words Hc; simpl.
  - by rewrite Nat.add_0_r.
  - specialize (IH (S k)). replace (Z.of_nat (S k)) with (Z.of_nat k + 1) in IH by lia.
    replace (k + S n)%nat with (S k + n)%nat by lia. apply IH.
    rewrite items_S. simpl. split_and!; [done|nia|]. eexists. split; [apply lookup_insert_eq|].
    apply chain_insert; [|done]. intros (i & ? & ?)%elem_of_items. nia.
Qed.

Lemma chain_nil_inv words l : chain words 0 l -> l = [].
Proof. destruct l; simpl; [done|]. intros (<- & ? & _). done. Qed.

Lemma arena_alloc_rep a words l :
  arena_rep a words l ->
  match l with
  | [] => arena_alloc a words = Ok (0, a)
  | x :: l' => exists a', arena_alloc a words = Ok (x, a') /\ x <> 0 /\ arena_rep a' words l'
  end.
Proof.
  intros [Hc Hnd]. unfold arena_alloc. destruct l as [|x l]; simpl in Hc.
  - rewrite Hc. done.
  - destruct Hc as (-> & Hx & q & Hq & Hc). destruct (Z.eqb_spec x 0); [done|].
    rewrite Hq. eexists. split_and!; [done|done|]. split; [done|]. by apply NoDup_cons in Hnd as [_ ?].
Qed.

Lemma arena_free_rep a words l p :
  arena_rep a words l -> p <> 0 -> p ∉ l ->
  exists a' words', arena_free a p words = Ok (a', words') /\ arena_rep a' words' (p :: l) /\
    forall x, x <> p -> words' !! x = words !! x.
Proof.
  intros [Hc Hnd] Hp Hin. unfold arena_free. destruct (Z.eqb_spec p 0); [done|].
  eexists _, _. split; [done|]. split; [|intros x Hx; by rewrite lookup_insert_ne].
  split; [|by apply NoDup_cons]. simpl. split_and!; [done|done|].
  eexists. split; [apply lookup_insert_eq|]. by apply chain_insert.
Qed.

(** ** Properties *)

(** [arena_init] over an area of [size] bytes makes [size / item_size]
    objects free.  They lie inside the area and two of them never overlap. *)
Theorem arena_init_correct m sz isz num words :
  0 < m -> 0 < isz -> 0 <= sz ->
  exists a words' l, arena_init m sz isz num words = Ok (a, num + 1, words') /\
    arena_rep a words' l /\ Z.of_nat (length l) = sz / isz /\
    (forall x, x ∈ l -> m <= x /\ x + isz <= m + sz) /\
    (forall x y, x ∈ l -> y ∈ l -> x <> y -> x + isz <= y \/ y + isz <= x).
Proof.
  intros Hm Hs Hz. unfold arena_init. destruct (Z.eqb_spec isz 0); [lia|].
  assert (0 <= sz / isz) by (apply Z.div_pos; lia).
  pose proof (init_loop_chain (Z.to_nat (sz / isz)) m isz 0 words Hm Hs eq_refl) as Hc. simpl in Hc.
  destruct (init_loop _ _ _ _ _ _) as [p words'].
  exists (mk_arena m (ALIGN sz 8) (ALIGN isz 8) p num), words', (items m isz (Z.to_nat (sz / isz))).
  split_and!; [done|split; [done|by apply items_NoDup]| | |].
  - unfold items. rewrite length_rev, length_fmap, length_seqZ. lia.
  - intros x (i & Hi & ->)%elem_of_items. pose proof (Z.mul_div_le sz isz). nia.
  - intros x y (i & _ & ->)%elem_of_items (j & _ & ->)%elem_of_items Hne.
    assert (i < j \/ j < i) as [?|?]; [|left; nia|right; nia].
    destruct (decide (i = j)) as [->|]; [done|lia].
Qed.

(** C36: An arena refines a stack of free objects: [arena_alloc] pops it, or
    returns NULL when it is empty, and [arena_free] of an object that is not
    free pushes it without touching any word outside that object; so an object
    freed last is the one handed out next. *)
Theorem arena_refines_stack a words l p :
  arena_rep a words l -> p <> 0 -> p ∉ l ->
  (l = [] -> arena_alloc a words = Ok (0, a)) /\
  (forall x l', l = x :: l' -> exists a', arena_alloc a words = Ok (x, a') /\ arena_rep a' words l') /\
  exists a' words', arena_free a p words = Ok (a', words') /\ arena_rep a' words' (p :: l) /\
    (forall x, x <> p -> words' !! x = words !! x) /\
    exists a'', arena_alloc a' words' = Ok (p, a'') /\ arena_rep a'' words' l.
Proof.
  intros Hrep Hp Hin. pose proof (arena_alloc_rep a words l Hrep) as Hal. split_and!.
  - by intros ->.
  - intros x l' ->. destruct Hal as (a' & ? & _ & ?). by exists a'.
  - destruct (arena_free_rep a words l p Hrep Hp Hin) as (a' & words' & ? & Hrep' & ?).
    exists a', words'. split_and!; try done.
    destruct (arena_alloc_rep a' words' (p :: l) Hrep') as (a'' & ? & _ & ?). by exists a''.
Qed.

Lemma arena_init_correct_witness :
  exists a words' l, arena_init 4096 100 24 0 ∅ = Ok (a, 0 + 1, words') /\
    arena_rep a words' l /\ Z.of_nat (length l) = 100 / 24 /\
    (forall x, x ∈ l -> 4096 <= x /\ x + 24 <= 4096 + 100) /\
    (forall x y, x ∈ l -> y ∈ l -> x <> y -> x + 24 <= y \/ y + 24 <= x).
Proof. apply (arena_init_correct 4096 100 24 0 ∅); lia. Defined.

Lemma arena_refines_stack_witness :
  let a := mk_arena 4096 48 24 4096 0 in
  let words : gmap Z Z := {[4096 := 0]} in
  (forall x l', [4096] = x :: l' ->
     exists a', arena_alloc a words = Ok (x, a') /\ arena_rep a' words l') /\
  exists a' words', arena_free a 4120 words = Ok (a', words') /\ arena_rep a' words' [4120; 4096].
Proof.
  destruct (arena_refines_stack (mk_arena 4096 48 24 4096 0) {[4096 := 0]} [4096] 4120)
    as (_ & ? & a' & w' & ? & ? & _).
  - split; [|apply NoDup_singleton]. simpl. split_and!; [done|done|]. by eexists.
  - done.
  - rewrite list_elem_of_singleton. done.
  - split; [done|]. by exists a', w'.
Defined.
