(* ===== verification/Btree.v ===== *)
(** * The radix tree of a file (src/slotfs/btree.c, btree.h)

    A file maps its block numbers to extent entries with a 256-way radix tree.
    The model keeps the nodes in a store [nodes] from addresses to nodes, with
    the parent pointers and branch indexes the iterator climbs by, and the free
    nodes of [btree_malloc] in [pool], which is the stack of free objects that
    Arena.v proves the node arena to be.  The store holds the nodes of one tree:
    two trees share the arena but never a node. *)
From stdpp Require Import base numbers list gmap.
From S2P Require Import Prelude.
Local Open Scope Z_scope.

Definition BRANCH_NUM : Z := 256.
Definition MAX_LEVELS : Z := 10.
Definition ENOMEM : Z := 12.

Record btree_node : Type := mk_node {
  bn_parent : Z;
  bn_height : Z;
  bn_branch_index : Z;
  bn_start : Z;
  bn_children : gmap Z Z;     (* absent: NULL *)
}.

Record btree_ptr : Type := mk_ptr {
  bp_node : Z;
  bp_index : Z;
  bp_key : Z;
}.

(** [struct btree] (root and height), with its nodes and the free nodes. *)
Record btree : Type := mk_btree {
  bt_root : Z;
  bt_height : Z;
  nodes : gmap Z btree_node;
  pool : list Z;
}.

(** ** The store of nodes *)

Definition set_nodes (f : gmap Z btree_node -> gmap Z btree_node) (s : btree) : btree :=
  mk_btree (bt_root s) (bt_height s) (f (nodes s)) (pool s).

Definition read_node (p : Z) : M btree btree_node := fun s =>
  if p =? 0 then Fault NullDeref else
  match nodes s !! p with Some n => Ok (n, s) | None => Fault UseAfterFree end.

Definition write_node (p : Z) (n : btree_node) : M btree unit := fun s =>
  Ok (tt, set_nodes <[p := n]> s).

Definition get_child (n : btree_node) (i : Z) : M btree Z := fun s =>
  if (0 <=? i) && (i <? BRANCH_NUM) then Ok (default 0 (bn_children n !! i), s)
  else Fault OutOfBounds.

Definition with_child (i v : Z) (n : btree_node) : btree_node :=
  mk_node (bn_parent n) (bn_height n) (bn_branch_index n) (bn_start n) (<[i := v]> (bn_children n)).

(** [p->children[i] = v]. *)
Definition set_child (p i v : Z) : M btree unit :=
  n ← read_node p;
  if (0 <=? i) && (i <? BRANCH_NUM) then write_node p (with_child i v n) else throw OutOfBounds.

Definition btree_malloc : M btree Z := fun s =>
  match pool s with
  | [] => Ok (0, s)
  | p :: l => Ok (p, mk_btree (bt_root s) (bt_height s) (nodes s) l)
  end.

Definition btree_free (p : Z) : M btree unit := fun s =>
  match nodes s !! p with
  | Some _ => Ok (tt, mk_btree (bt_root s) (bt_height s) (delete p (nodes s)) (p :: pool s))
  | None => Fault UseAfterFree
  end.

(** ** Capacities *)

Fixpoint init_max_keys_loop (n : nat) (max_key : Z) : list Z :=
  match n with
  | O => []
  | S n' => max_key :: init_max_keys_loop n' (u64 (max_key * BRANCH_NUM))
  end.
Definition init_max_keys : list Z := init_max_keys_loop (Z.to_nat MAX_LEVELS) BRANCH_NUM.
Definition max_keys : list Z := init_max_keys.

Section btree.
(** The word in front of the array [max_keys], which [btree_node_create]
    reads as [max_keys[-1]] when it creates a leaf. *)
Context (stray : Z).

Definition max_keys_at (i : Z) : M btree Z := fun s =>
  if i =? 2 ^ 64 - 1 then Ok (stray, s) else
  match zget max_keys i with Ok k => Ok (k, s) | Fault f => Fault f end.

Definition btree_node_create (parent branch : Z) : M btree Z :=
  node ← btree_malloc;
  if node =? 0 then mret 0 else
  _ ← write_node node (mk_node parent 0 0 0 ∅);
  if parent =? 0 then mret node else
  p ← read_node parent;
  let height := u64 (bn_height p - 1) in
  _ ← set_child parent branch node;
  k ← max_keys_at (u64 (height - 1));
  _ ← write_node node (mk_node parent height branch (u64 (bn_start p + branch * k)) ∅);
  mret node.

(** The tree record is caller-owned; NULL is returned as 0 and success as 1. *)
Definition btree_create : M btree Z :=
  _ ← modify (fun s => mk_btree (bt_root s) 0 (nodes s) (pool s));
  root ← btree_node_create 0 0;
  _ ← modify (fun s => mk_btree root (bt_height s) (nodes s) (pool s));
  mret (if root =? 0 then 0 else 1).

(** ** Positions *)

(** The loops follow parent or child pointers; [levels] bounds their number. *)
Definition levels : nat := Z.to_nat (MAX_LEVELS + 1).

Fixpoint pos_loop (fuel : nat) (node key : Z) (pos : btree_ptr) (create : bool)
    : M btree (Z * btree_ptr) :=
  match fuel with
  | O => throw OutOfFuel
  | S fuel' =>
      n ← read_node node;
      if bn_height n >? 0 then
        k ← max_keys_at (bn_height n - 1);
        if k =? 0 then throw DivByZero else
        let branch := key / k in
        let key := key mod k in
        c ← get_child n branch;
        if c =? 0 then
          if negb create then mret (0, mk_ptr 0 (bp_index pos) (bp_key pos)) else
          new_node ← btree_node_create node branch;
          if new_node =? 0 then mret (- ENOMEM, pos) else
          pos_loop fuel' new_node key pos create
        else pos_loop fuel' c key pos create
      else mret (0, mk_ptr node key (bp_key pos))
  end.

Definition btree_pos (key : Z) (pos : btree_ptr) (create : bool) : M btree (Z * btree_ptr) :=
  root ← gets bt_root;
  pos_loop levels root key pos create.

Fixpoint climb_loop (fuel : nat) (node parent_index : Z) : M btree (Z * Z) :=
  match fuel with
  | O => throw OutOfFuel
  | S fuel' =>
      n ← read_node node;
      if bn_parent n =? 0 then mret (node, parent_index) else
      let parent_index := bn_branch_index n in
      let node := bn_parent n in
      if u64 (parent_index + 1) <? BRANCH_NUM then mret (node, parent_index)
      else climb_loop fuel' node parent_index
  end.

Fixpoint descend_loop (fuel : nat) (node branch : Z) (iter : btree_ptr) (create : bool)
    : M btree (Z * btree_ptr) :=
  match fuel with
  | O => throw OutOfFuel
  | S fuel' =>
      n ← read_node node;
      if bn_height n >? 0 then
        c ← get_child n branch;
        if c =? 0 then
          if negb create then mret (0, mk_ptr 0 (bp_index iter) (bp_key iter)) else
          new_node ← btree_node_create node branch;
          if new_node =? 0 then mret (- ENOMEM, mk_ptr 0 (bp_index iter) (bp_key iter)) else
          descend_loop fuel' new_node 0 iter create
        else descend_loop fuel' c 0 iter create
      else mret (0, mk_ptr node 0 (bp_key iter))
  end.

Definition btree_next (iter : btree_ptr) (create : bool) : M btree (Z * btree_ptr) :=
  let node := bp_node iter in
  let index := bp_index iter in
  if u64 (index + 1) <? BRANCH_NUM then
    c ← (if create then mret 1 else (n ← read_node node; get_child n (index + 1)));
    if c =? 0 then mret (0, mk_ptr 0 index (bp_key iter))
    else mret (0, mk_ptr node (index + 1) (bp_key iter))
  else
    n ← read_node node;
    '(node, parent_index) ← climb_loop levels node (bn_branch_index n);
    n ← read_node node;
    if (bn_parent n =? 0) && (u64 (parent_index + 1) =? BRANCH_NUM)
    then mret (0, mk_ptr 0 index (bp_key iter))
    else descend_loop levels node (u64 (parent_index + 1)) iter create.

(** ** Growing, reading and writing *)

Definition btree_expand : M btree unit :=
  new_root ← btree_node_create 0 0;
  old ← gets bt_root;
  _ ← set_child new_root 0 old;
  r ← read_node old;
  _ ← write_node old (mk_node new_root (bn_height r) (bn_branch_index r) (bn_start r) (bn_children r));
  _ ← modify (fun s => mk_btree new_root (u64 (bt_height s + 1)) (nodes s) (pool s));
  h ← gets bt_height;
  n ← read_node new_root;
  write_node new_root (mk_node (bn_parent n) h 0 0 (bn_children n)).

(** [while (key >= max_keys[tree->height]) btree_expand(tree);] *)
Fixpoint expand_loop (fuel : nat) (key : Z) : M btree unit :=
  match fuel with
  | O => throw OutOfFuel
  | S fuel' =>
      h ← gets bt_height;
      k ← max_keys_at h;
      if key >=? k then _ ← btree_expand; expand_loop fuel' key else mret tt
  end.

(** The value of an uninitialised [btree_ptr] is never read. *)
Definition no_pos : btree_ptr := mk_ptr 0 0 0.

Definition btree_set (key ptr : Z) : M btree Z :=
  _ ← expand_loop levels key;
  '(ret, pos) ← btree_pos key no_pos true;
  if negb (ret =? 0) then mret ret else
  _ ← set_child (bp_node pos) (bp_index pos) ptr;
  mret 0.

(** The callback gets the old entry, the block number as an [int] and the
    caller's context, which it may change. *)
Definition callback (C : Type) : Type := Z -> Z -> C -> outcome (Z * C).

(** The [do ... while (start < end)] loop; [n] is [end - start]. *)
Fixpoint set_range_loop {C} (n : nat) (start : Z) (pos : btree_ptr) (ptr : Z)
    (cb : option (callback C)) (ctx : C) : M btree (Z * C) :=
  match n with
  | O => mret (0, ctx)
  | S n' =>
      node ← read_node (bp_node pos);
      old_ptr ← get_child node (bp_index pos);
      '(stop, ctx) ← lift (match cb with
                   | Some f => if old_ptr =? 0 then Ok (0, ctx) else f old_ptr (i32 start) ctx
                   | None => Ok (0, ctx)
                   end);
      if negb (stop =? 0) then mret (-1, ctx) else
      _ ← set_child (bp_node pos) (bp_index pos) ptr;
      '(ret, pos) ← btree_next pos true;
      if negb (ret =? 0) then mret (ret, ctx) else
      set_range_loop n' (start + 1) pos ptr cb ctx
  end.

Definition btree_set_range_callback {C} (start end_ ptr : Z) (cb : option (callback C)) (ctx : C)
    : M btree (Z * C) :=
  if start >=? end_ then mret (-1, ctx) else
  _ ← expand_loop levels end_;
  '(ret, pos) ← btree_pos start no_pos true;
  if negb (ret =? 0) then mret (ret, ctx) else
  set_range_loop (Z.to_nat (end_ - start)) start pos ptr cb ctx.

Definition btree_set_range (start end_ ptr : Z) : M btree Z :=
  '(ret, _) ← btree_set_range_callback (C:=unit) start end_ ptr None tt;
  mret ret.

Fixpoint get_loop (fuel : nat) (node key : Z) : M btree Z :=
  match fuel with
  | O => throw OutOfFuel
  | S fuel' =>
      n ← read_node node;
      if bn_height n >? 0 then
        k ← max_keys_at (bn_height n - 1);
        if k =? 0 then throw DivByZero else
        c ← get_child n (key / k);
        if c =? 0 then mret 0 else get_loop fuel' c (key mod k)
      else get_child n key
  end.

Definition btree_get (key : Z) : M btree Z :=
  root ← gets bt_root;
  get_loop levels root key.

(** The returned [void **] is the pair of a node and an index; [None] is NULL. *)
Definition btree_get_ptr_hint (key : Z) (hint : btree_ptr) : M btree (option (Z * Z) * btree_ptr) :=
  if negb (bp_node hint =? 0) && (bp_key hint =? key) then
    mret (Some (bp_node hint, bp_index hint), hint)
  else
    '(ret, pos) ← (if negb (bp_node hint =? 0) && (key =? u64 (bp_key hint + 1))
                   then btree_next (mk_ptr (bp_node hint) (bp_index hint) 0) true
                   else btree_pos key no_pos true);
    if negb (ret =? 0) then mret (None, hint) else
    if bp_node pos =? 0 then mret (None, hint) else
    mret (Some (bp_node pos, bp_index pos), mk_ptr (bp_node pos) (bp_index pos) key).

Definition btree_get_hint (key : Z) (hint : btree_ptr) : M btree (Z * btree_ptr) :=
  '(p, hint) ← btree_get_ptr_hint key hint;
  match p with
  | None => mret (0, hint)
  | Some (node, index) =>
      n ← read_node node;
      v ← get_child n index;
      mret (v, hint)
  end.

Fixpoint set_range_hint_loop {C} (n : nat) (start : Z) (pos hint : btree_ptr) (ptr : Z)
    (cb : option (Z -> C -> outcome (Z * C))) (ctx : C) : M btree (Z * btree_ptr * C) :=
  match n with
  | O => mret (0, hint, ctx)
  | S n' =>
      node ← read_node (bp_node pos);
      old_ptr ← get_child node (bp_index pos);
      '(stop, ctx) ← lift (match cb with
                   | Some f => if old_ptr =? 0 then Ok (0, ctx) else f old_ptr ctx
                   | None => Ok (0, ctx)
                   end);
      if negb (stop =? 0) then mret (-1, hint, ctx) else
      _ ← set_child (bp_node pos) (bp_index pos) ptr;
      let hint := pos in
      '(ret, pos) ← btree_next pos true;
      if negb (ret =? 0) then mret (ret, hint, ctx) else
      set_range_hint_loop n' (start + 1) pos hint ptr cb ctx
  end.

Definition btree_set_range_hint_callbak {C} (start end_ ptr : Z) (hint : btree_ptr)
    (cb : option (Z -> C -> outcome (Z * C))) (ctx : C) : M btree (Z * btree_ptr * C) :=
  if start >=? end_ then mret (-1, hint, ctx) else
  _ ← expand_loop levels end_;
  '(ret_ptr, hint) ← btree_get_ptr_hint start hint;
  match ret_ptr with
  | None => mret (-1, hint, ctx)
  | Some _ => set_range_hint_loop (Z.to_nat (end_ - start)) start hint hint ptr cb ctx
  end.

(** ** Destruction *)

(** The loop over the children of [node]; [f] is the recursive call. *)
Fixpoint destroy_children (f : Z -> M btree unit) (n : nat) (node i : Z) : M btree unit :=
  match n with
  | O => mret tt
  | S n' =>
      nd ← read_node node;
      c ← get_child nd i;
      _ ← (if c =? 0 then mret tt else f c);
      destroy_children f n' node (i + 1)
  end.

Fixpoint btree_destroy_node (fuel : nat) (node : Z) : M btree unit :=
  match fuel with
  | O => throw OutOfFuel
  | S fuel' =>
      n ← read_node node;
      if bn_height n =? 0 then btree_free node else
      _ ← destroy_children (btree_destroy_node fuel') (Z.to_nat BRANCH_NUM) node 0;
      btree_free node
  end.

Definition btree_destroy : M btree unit :=
  root ← gets bt_root;
  btree_destroy_node levels root.

(** ** The tree as a map from block numbers *)

(** The child pointer of node [a] at [i]. *)
Definition ch (s : btree) (a i : Z) : Z :=
  match nodes s !! a with Some n => default 0 (bn_children n !! i) | None => 0 end.

(** The node at depth [d] whose keys start with the digits of [q]; 0 if absent. *)
Fixpoint desc (s : btree) (d : nat) (q : Z) : Z :=
  match d with
  | O => if q =? 0 then bt_root s else 0
  | S d' => ch s (desc s d' (q / 256)) (q mod 256)
  end.

Definition depth (s : btree) : nat := Z.to_nat (bt_height s).

(** What the tree stores for block [k]. *)
Definition contents (s : btree) (k : Z) : Z := ch s (desc s (depth s) (k / 256)) (k mod 256).

(** The number of keys of a tree of height [h]. *)
Definition capacity (h : Z) : Z := 256 ^ (h + 1).

Definition child_ok (s : btree) (a : Z) (n : btree_node) : Prop :=
  forall i c, bn_children n !! i = Some c ->
    0 <= i < 256 /\
    (0 < bn_height n -> c <> 0 -> exists cn, nodes s !! c = Some cn /\
       bn_parent cn = a /\ bn_branch_index cn = i /\ bn_height cn = bn_height n - 1).

Definition parent_ok (s : btree) (a : Z) (n : btree_node) : Prop :=
  0 <= bn_height n <= bt_height s /\
  if decide (a = bt_root s) then bn_parent n = 0 /\ bn_branch_index n = 0 /\ bn_height n = bt_height s
  else 0 <= bn_branch_index n < 256 /\
    exists pn, nodes s !! bn_parent n = Some pn /\ bn_height pn = bn_height n + 1 /\
      bn_children pn !! bn_branch_index n = Some a.

(** The invariant of a tree: the parent pointers and branch indexes are the
    inverse of the child pointers, heights decrease by one, and the free nodes
    are not part of the tree.  Seven levels are the most whose capacity fits
    [size_t]. *)
Record btree_wf (s : btree) : Prop := {
  wf_height : 0 <= bt_height s <= 6;
  wf_root : is_Some (nodes s !! bt_root s);
  wf_null : nodes s !! 0 = None;
  wf_child : forall a n, nodes s !! a = Some n -> child_ok s a n;
  wf_parent : forall a n, nodes s !! a = Some n -> parent_ok s a n;
  wf_pool : NoDup (pool s) /\ forall p, p ∈ pool s -> p <> 0 /\ nodes s !! p = None;
}.

Lemma max_keys_at_spec h s : 0 <= h <= 6 -> max_keys_at h s = Ok (256 ^ (h + 1), s).
Proof.
  intros Hh. unfold max_keys_at. zb; [lia|].
  assert (h = 0 \/ h = 1 \/ h = 2 \/ h = 3 \/ h = 4 \/ h = 5 \/ h = 6) as Hc by lia.
  by repeat destruct Hc as [->|Hc]; [..|rewrite Hc].
Qed.

Lemma max_keys_at_zero h s : 7 <= h <= 9 -> max_keys_at h s = Ok (0, s).
Proof.
  intros Hh. unfold max_keys_at. zb; [lia|].
  assert (h = 7 \/ h = 8 \/ h = 9) as [->|[->| ->]] by lia; done.
Qed.

Lemma read_node_eq s p n : p <> 0 -> nodes s !! p = Some n -> read_node p s = Ok (n, s).
Proof. intros Hp Hn. unfold read_node. rewrite Hn. zb; done. Qed.

Lemma get_child_eq s a n i :
  nodes s !! a = Some n -> 0 <= i < 256 -> get_child n i s = Ok (ch s a i, s).
Proof. intros Hn Hi. unfold get_child, ch, BRANCH_NUM. rewrite Hn. zb; simpl; (done || lia). Qed.

Lemma get_child_oob s n i : ~ 0 <= i < 256 -> get_child n i s = Fault OutOfBounds.
Proof. intros Hi. unfold get_child, BRANCH_NUM. zb; simpl; (done || lia). Qed.

Lemma set_child_eq s p n i v :
  p <> 0 -> nodes s !! p = Some n -> 0 <= i < 256 ->
  set_child p i v s = Ok (tt, set_nodes <[p := with_child i v n]> s).
Proof.
  intros Hp Hn Hi. unfold set_child. mstep (read_node_eq s p n Hp Hn).
  unfold BRANCH_NUM. zb; simpl; (done || lia).
Qed.

Lemma node_nz s a n : btree_wf s -> nodes s !! a = Some n -> a <> 0.
Proof. intros Hwf Hn ->. by rewrite (wf_null s Hwf) in Hn. Qed.

Lemma ch_zero s i : btree_wf s -> ch s 0 i = 0.
Proof. intros Hwf. unfold ch. by rewrite (wf_null s Hwf). Qed.

Lemma ch_node s a n i : nodes s !! a = Some n -> ch s a i = default 0 (bn_children n !! i).
Proof. unfold ch. by intros ->. Qed.

Lemma ch_nz s a i : ch s a i <> 0 ->
  exists n, nodes s !! a = Some n /\ bn_children n !! i = Some (ch s a i).
Proof.
  unfold ch. destruct (nodes s !! a) as [n|]; [|done].
  destruct (bn_children n !! i) as [c|] eqn:E; simpl; [|done]. by exists n.
Qed.

Lemma desc_node s d q :
  btree_wf s -> (d <= depth s)%nat -> desc s d q <> 0 ->
  exists n, nodes s !! desc s d q = Some n /\ bn_height n = bt_height s - Z.of_nat d /\
    match d with
    | O => q = 0 /\ bn_parent n = 0
    | S d' => bn_parent n = desc s d' (q / 256) /\ bn_branch_index n = q mod 256
    end.
Proof.
  intros Hwf. unfold depth. revert q. induction d as [|d IH]; intros q Hd Hnz; simpl in *.
  - destruct (Z.eqb_spec q 0); [|done]. destruct (wf_root s Hwf) as [n Hn]. exists n.
    pose proof (wf_parent s Hwf _ _ Hn) as [_ Hp]. rewrite decide_True in Hp by done.
    destruct Hp as (? & ? & Hh). split_and!; try done. rewrite Hh. lia.
  - destruct (ch_nz _ _ _ Hnz) as (pn & Hpn & Hc).
    assert (desc s d (q / 256) <> 0) as Hpz.
    { intros E. rewrite E, (wf_null s Hwf) in Hpn. done. }
    destruct (IH _ ltac:(lia) Hpz) as (pn' & Hpn' & Hh & _). rewrite Hpn in Hpn'. simplify_eq.
    destruct (wf_child s Hwf _ _ Hpn _ _ Hc) as [_ Hk].
    destruct Hk as (cn & Hcn & Hpa & Hb & Hh'); [pose proof (wf_height s Hwf); lia|done|].
    exists cn. split_and!; try done. lia.
Qed.

Lemma desc_parent_nz s d q : btree_wf s -> desc s (S d) q <> 0 -> desc s d (q / 256) <> 0.
Proof. intros Hwf Hnz E. cbn [desc] in Hnz. by rewrite E, ch_zero in Hnz. Qed.

(** Two positions of the same depth with the same node are the same. *)
Lemma desc_inj s d q1 q2 :
  btree_wf s -> (d <= depth s)%nat -> desc s d q1 <> 0 -> desc s d q1 = desc s d q2 -> q1 = q2.
Proof.
  intros Hwf. revert q1 q2. induction d as [|d IH]; intros q1 q2 Hd Hnz Heq.
  - simpl in *. zb; by subst.
  - assert (desc s (S d) q2 <> 0) as Hnz2 by congruence.
    destruct (desc_node s (S d) q1 Hwf Hd Hnz) as (n1 & Hn1 & Hh1 & Hp1 & Hb1).
    destruct (desc_node s (S d) q2 Hwf Hd Hnz2) as (n2 & Hn2 & Hh2 & Hp2 & Hb2).
    rewrite <- Heq, Hn1 in Hn2. injection Hn2 as <-.
    pose proof (desc_parent_nz s d q1 Hwf Hnz) as Hz.
    pose proof (IH (q1 / 256) (q2 / 256) ltac:(lia) Hz ltac:(congruence)).
    rewrite (Z.div_mod q1 256), (Z.div_mod q2 256) by lia. congruence.
Qed.

Lemma desc_range s d q :
  btree_wf s -> (d <= depth s)%nat -> 0 <= q -> desc s d q <> 0 -> q < 256 ^ Z.of_nat d.
Proof.
  intros Hwf. revert q. induction d as [|d IH]; intros q Hd Hq Hnz.
  - simpl in Hnz. zb; [|done]. lia.
  - pose proof (desc_parent_nz s d q Hwf Hnz) as Hz.
    assert (q / 256 < 256 ^ Z.of_nat d) by (apply IH; [lia|zdm|done]).
    replace (Z.of_nat (S d)) with (Z.of_nat d + 1) by lia. rewrite Z.pow_add_r by lia. zdm.
Qed.

Lemma contents_high s k :
  btree_wf s -> capacity (bt_height s) <= k -> contents s k = 0.
Proof.
  intros Hwf Hk. unfold contents, capacity in *.
  destruct (decide (desc s (depth s) (k / 256) = 0)) as [->|Hnz]; [by rewrite ch_zero|].
  pose proof (wf_height s Hwf). assert (0 < 256 ^ (bt_height s + 1)) by (apply Z.pow_pos_nonneg; lia).
  apply desc_range in Hnz; [|done|done|apply Z.div_pos; lia].
  unfold depth in Hnz. rewrite Z2Nat.id in Hnz by lia.
  rewrite Z.pow_add_r in Hk by lia. zdm.
Qed.

(** ** Creating a child *)

(** [s'] has the keys of [s] and keeps the nodes that were on a path. *)
Record ext (s s' : btree) : Prop := {
  ext_root : bt_root s' = bt_root s;
  ext_height : bt_height s' = bt_height s;
  ext_desc : forall d q, (d <= depth s)%nat -> desc s d q <> 0 -> desc s' d q = desc s d q;
  ext_contents : forall k, contents s' k = contents s k;
}.

#[export] Instance ext_preorder : PreOrder ext.
Proof.
  split; [done|]. intros s1 s2 s3 [Hr1 Hh1 Hd1 Hc1] [Hr2 Hh2 Hd2 Hc2].
  split; [congruence|congruence| |congruence].
  intros d q Hd Hnz. rewrite Hd2; [by apply Hd1| |by rewrite Hd1]. unfold depth in *. lia.
Qed.

(** The state after [btree_node_create] linked [node] below [par]. *)
Definition link (par branch node st : Z) (pn : btree_node) (l : list Z) (s : btree) : btree :=
  mk_btree (bt_root s) (bt_height s)
    (<[node := mk_node par (bn_height pn - 1) branch st ∅]> (<[par := with_child branch node pn]> (nodes s))) l.

Lemma ch_link par branch node st pn l s a i :
  nodes s !! par = Some pn -> nodes s !! node = None ->
  ch (link par branch node st pn l s) a i =
  if decide (a = node) then 0
  else if decide (a = par /\ i = branch) then node else ch s a i.
Proof.
  intros Hpar Hnode. unfold ch, link. simpl. destruct (decide (a = node)) as [->|Hne].
  - by rewrite lookup_insert_eq.
  - rewrite lookup_insert_ne by done. destruct (decide (a = par)) as [->|].
    + rewrite lookup_insert_eq. simpl. destruct (decide (i = branch)) as [->|Hi].
      * rewrite lookup_insert_eq, decide_True by done. done.
      * rewrite lookup_insert_ne, decide_False, Hpar by (congruence || by intros [? ?]). done.
    + rewrite lookup_insert_ne, decide_False by (congruence || by intros [? ?]). done.
Qed.

Lemma desc_link par branch node st pn l s d q :
  btree_wf s -> nodes s !! par = Some pn -> nodes s !! node = None -> node <> 0 ->
  ch s par branch = 0 -> (d <= depth s)%nat ->
  let s' := link par branch node st pn l s in
  desc s' d q = desc s d q \/ (desc s d q = 0 /\ desc s' d q = node).
Proof.
  intros Hwf Hpar Hnode Hnz Hch Hd s'. revert q. induction d as [|d IH]; intros q; simpl; [by left|].
  unfold s'. rewrite ch_link by done. fold s'.
  destruct (IH ltac:(lia) (q / 256)) as [->|[Hz ->]].
  - destruct (decide (desc s d (q / 256) = node)) as [E|].
    + destruct (desc_node s d (q / 256) Hwf) as (n & Hn & _); [lia|congruence|].
      rewrite E, Hnode in Hn. done.
    + destruct (decide (_ /\ _)) as [[-> ->]|]; [right|left]; done.
  - rewrite decide_True, Hz, ch_zero by done. by left.
Qed.

Lemma ext_link par branch node st pn l s :
  btree_wf s -> nodes s !! par = Some pn -> nodes s !! node = None -> node <> 0 ->
  0 < bn_height pn -> ch s par branch = 0 ->
  ext s (link par branch node st pn l s).
Proof.
  intros Hwf Hpar Hnode Hnz Hh Hch. split; [done|done| |].
  - intros d q Hd Hdq.
    destruct (desc_link par branch node st pn l s d q Hwf Hpar Hnode Hnz Hch Hd) as [?|[? _]]; done.
  - intros k. unfold contents.
    change (depth (link par branch node st pn l s)) with (depth s). rewrite ch_link by done.
    destruct (desc_link par branch node st pn l s (depth s) (k / 256) Hwf Hpar Hnode Hnz Hch)
      as [->|[Hz ->]]; [done| |].
    + destruct (decide (desc s (depth s) (k / 256) = 0)) as [Hz|Hdz].
      * rewrite Hz, ch_zero by done. rewrite !decide_False; [done| |done].
        intros [<- _]. by rewrite (wf_null s Hwf) in Hpar.
      * destruct (desc_node s (depth s) _ Hwf (le_n _) Hdz) as (n & Hn & Hh' & _).
        pose proof (wf_height s Hwf). unfold depth in Hh'. rewrite Z2Nat.id in Hh' by lia.
        rewrite !decide_False; [done| |congruence].
        intros [E _]. rewrite E, Hpar in Hn. simplify_eq. lia.
    + by rewrite decide_True, Hz, ch_zero.
Qed.

Lemma lookup_link_inv par branch node st pn l s a n :
  nodes (link par branch node st pn l s) !! a = Some n ->
  nodes s !! par = Some pn ->
  (a = node /\ n = mk_node par (bn_height pn - 1) branch st ∅) \/
  (a <> node /\ exists n0, nodes s !! a = Some n0 /\ bn_parent n = bn_parent n0 /\
     bn_height n = bn_height n0 /\ bn_branch_index n = bn_branch_index n0 /\
     bn_children n = if decide (a = par) then <[branch := node]> (bn_children n0) else bn_children n0).
Proof.
  simpl. intros Ha Hpar. destruct (decide (a = node)) as [->|].
  - rewrite lookup_insert_eq in Ha. simplify_eq. by left.
  - rewrite lookup_insert_ne in Ha by done. right. split; [done|].
    destruct (decide (a = par)) as [->|].
    + rewrite lookup_insert_eq in Ha. simplify_eq. by exists pn.
    + rewrite lookup_insert_ne in Ha by done. by exists n.
Qed.

(** Nodes of [s] keep their identity under [link]. *)
Lemma lookup_link par branch node st pn l s a n :
  nodes s !! a = Some n -> nodes s !! par = Some pn -> nodes s !! node = None ->
  exists n', nodes (link par branch node st pn l s) !! a = Some n' /\
    bn_parent n' = bn_parent n /\ bn_height n' = bn_height n /\
    bn_branch_index n' = bn_branch_index n /\
    forall i c, bn_children n !! i = Some c -> ~ (a = par /\ i = branch) -> bn_children n' !! i = Some c.
Proof.
  intros Ha Hpar Hnode. simpl. rewrite lookup_insert_ne by congruence.
  destruct (decide (a = par)) as [->|].
  - rewrite lookup_insert_eq. eexists. split; [done|]. rewrite Hpar in Ha. simplify_eq.
    split_and!; try done. intros i c Hc Hi. simpl. rewrite lookup_insert_ne; [done|]. naive_solver.
  - rewrite lookup_insert_ne by done. exists n. naive_solver.
Qed.

Lemma wf_link par branch node st pn l s :
  btree_wf s -> nodes s !! par = Some pn -> pool s = node :: l ->
  0 < bn_height pn -> 0 <= branch < 256 -> ch s par branch = 0 ->
  btree_wf (link par branch node st pn l s).
Proof.
  intros Hwf Hpar Hpool Hh Hb Hch. destruct (wf_pool s Hwf) as [Hnd Hfr].
  rewrite Hpool in Hnd, Hfr. apply NoDup_cons in Hnd as [Hni Hnd].
  destruct (Hfr node) as [Hnz Hnode]; [apply elem_of_cons; by left|].
  assert (par <> 0) as Hpz by (intros ->; by rewrite (wf_null s Hwf) in Hpar).
  split; [apply (wf_height s Hwf)| | | | |].
  - destruct (wf_root s Hwf) as [r Hr].
    destruct (lookup_link par branch node st pn l s _ _ Hr Hpar Hnode) as (? & ? & _). by eexists.
  - simpl. rewrite !lookup_insert_ne by done. apply (wf_null s Hwf).
  - intros a n Hl. destruct (lookup_link_inv _ _ _ _ _ _ _ _ _ Hl Hpar)
      as [[-> ->]|(Ha & n0 & Ha0 & Hp & Hhe & Hbi & Hc)].
    + intros i c. simpl. by rewrite lookup_empty.
    + intros i c Hic. rewrite Hc in Hic.
      assert (bn_children n0 !! i = Some c \/ (a = par /\ i = branch /\ c = node)) as [Hi|(-> & -> & ->)].
      { destruct (decide (a = par)); [|by left].
        destruct (decide (i = branch)) as [->|]; [|rewrite lookup_insert_ne in Hic; auto].
        rewrite lookup_insert_eq in Hic. simplify_eq. auto. }
      * destruct (wf_child s Hwf _ _ Ha0 _ _ Hi) as [? Hk]. split; [done|]. intros Hh0 Hcz.
        destruct Hk as (cn & Hcn & ? & ? & ?); [by rewrite <- Hhe|done|].
        destruct (lookup_link par branch node st pn l s _ _ Hcn Hpar Hnode) as (cn' & ? & ? & ? & ? & _).
        exists cn'. split_and!; [done|congruence|congruence|congruence].
      * split; [done|]. intros _ _. eexists. split; [apply lookup_insert_eq|].
        rewrite Hpar in Ha0. simplify_eq. split_and!; [done|done|]. simpl. congruence.
  - intros a n Hl. destruct (lookup_link_inv _ _ _ _ _ _ _ _ _ Hl Hpar)
      as [[-> ->]|(Ha & n0 & Ha0 & Hp & Hhe & Hbi & Hc)].
    + destruct (wf_parent s Hwf _ _ Hpar) as [Hpb _].
      split; [simpl; lia|]. rewrite decide_False.
      2:{ simpl. intros ->. destruct (wf_root s Hwf). congruence. }
      split; [done|]. simpl. rewrite lookup_insert_ne by congruence. rewrite lookup_insert_eq.
      eexists. split; [done|]. simpl. split; [lia|apply lookup_insert_eq].
    + destruct (wf_parent s Hwf _ _ Ha0) as [Hh0 Hpa]. unfold parent_ok. rewrite Hp, Hhe, Hbi.
      split; [done|]. simpl. destruct (decide (a = bt_root s)); [done|].
      destruct Hpa as (? & pn' & Hpn' & Hph & Hpc). split; [done|].
      destruct (lookup_link par branch node st pn l s _ _ Hpn' Hpar Hnode) as (pn'' & ? & ? & ? & ? & Hcc).
      exists pn''. split_and!; [done|congruence|]. apply Hcc; [done|].
      intros [E1 E2]. rewrite E1 in Hpn'. rewrite E2 in Hpc.
      rewrite (ch_node _ _ _ _ Hpn'), Hpc in Hch. simpl in Hch. subst a.
      by rewrite (wf_null s Hwf) in Ha0.
  - simpl. split; [done|]. intros p Hp. destruct (Hfr p) as [? Hpf]; [apply elem_of_cons; by right|].
    split; [done|]. rewrite !lookup_insert_ne; [done| |]; congruence.
Qed.

Lemma btree_node_create_child s par branch pn :
  btree_wf s -> nodes s !! par = Some pn -> 0 < bn_height pn -> 0 <= branch < 256 ->
  ch s par branch = 0 ->
  match pool s with
  | [] => btree_node_create par branch s = Ok (0, s)
  | node :: l => exists st, btree_node_create par branch s = Ok (node, link par branch node st pn l s)
  end.
Proof.
  intros Hwf Hpar Hh Hb Hch. unfold btree_node_create.
  destruct (pool s) as [|node l] eqn:Hpool.
  { unfold btree_malloc, mbind, M_bind. by rewrite Hpool. }
  destruct (proj2 (wf_pool s Hwf) node) as [Hnz Hnode]; [rewrite Hpool; apply elem_of_cons; by left|].
  assert (par <> 0) by (intros ->; by rewrite (wf_null s Hwf) in Hpar).
  destruct (wf_parent s Hwf _ _ Hpar) as [Hle _]. pose proof (wf_height s Hwf) as Hh6.
  unfold mbind at 1, M_bind at 1, btree_malloc. rewrite Hpool.
  destruct (Z.eqb_spec node 0); [done|]. unfold write_node at 1. mstep eq_refl.
  destruct (Z.eqb_spec par 0); [done|].
  erewrite M_bind_step by
    (apply read_node_eq; [done|simpl; rewrite lookup_insert_ne by congruence; exact Hpar]).
  rewrite (u64_small (bn_height pn - 1)) by lia. cbv zeta.
  erewrite M_bind_step by
    (apply set_child_eq; [done|simpl; rewrite lookup_insert_ne by congruence; exact Hpar|done]).
  assert (exists k, forall s', max_keys_at (u64 (bn_height pn - 1 - 1)) s' = Ok (k, s')) as [k Hk].
  { destruct (decide (bn_height pn = 1)) as [->|]; [by eexists|].
    rewrite u64_small by lia. eexists. intros. by apply max_keys_at_spec; lia. }
  mstep (Hk _). unfold write_node. mstep eq_refl. exists (u64 (bn_start pn + branch * k)).
  unfold mret, M_ret, set_nodes, link. simpl. do 3 f_equal.
  rewrite (insert_insert_ne _ par node) by congruence. by rewrite insert_insert_eq.
Qed.

(** ** Digits of keys *)

Lemma digit_pos (h : nat) : 0 < 256 ^ Z.of_nat h.
Proof. apply Z.pow_pos_nonneg; lia. Qed.

Lemma pow_S (h : nat) : 256 ^ Z.of_nat (S h) = 256 ^ Z.of_nat h * 256.
Proof. replace (Z.of_nat (S h)) with (Z.of_nat h + 1) by lia. rewrite Z.pow_add_r by lia. lia. Qed.

Lemma digit_div K (h : nat) :
  K mod 256 ^ Z.of_nat (S h) / 256 ^ Z.of_nat h = K / 256 ^ Z.of_nat h mod 256.
Proof.
  pose proof (digit_pos h). rewrite pow_S, Z.rem_mul_r by lia.
  rewrite Z.mul_comm, Z.div_add by lia. rewrite Z.div_small; [lia|]. apply Z.mod_pos_bound. lia.
Qed.

Lemma digit_mod K (h : nat) :
  (K mod 256 ^ Z.of_nat (S h)) mod 256 ^ Z.of_nat h = K mod 256 ^ Z.of_nat h.
Proof.
  pose proof (digit_pos h). rewrite pow_S, Z.rem_mul_r by lia.
  rewrite Z.mul_comm, Z_mod_plus_full. apply Z.mod_mod. lia.
Qed.

Lemma digit_div_S K (h : nat) : 0 <= K ->
  K / 256 ^ Z.of_nat (S h) = K / 256 ^ Z.of_nat h / 256.
Proof. intros. pose proof (digit_pos h). rewrite pow_S, Z.div_div by lia. done. Qed.

(** ** [btree_pos] *)

(** The result of a walk to block [K] that may create nodes. *)
Definition walked (s s' : btree) (K : Z) (h : nat) (r : Z) (pos' : btree_ptr) : Prop :=
  btree_wf s' /\ ext s s' /\
  (exists used, pool s = used ++ pool s' /\ (length used <= h)%nat) /\
  ((r = 0 /\ bp_node pos' = desc s' (depth s') (K / 256) /\ bp_node pos' <> 0 /\
    bp_index pos' = K mod 256) \/
   (r = - ENOMEM /\ pool s' = [])).

Lemma walked_trans s s1 s' K h r pos' x :
  ext s s1 -> pool s = x :: pool s1 -> walked s1 s' K h r pos' -> walked s s' K (S h) r pos'.
Proof.
  intros He Hp (Hwf & He' & (used & Hu & Hl) & Hr). split_and!; [done|by etrans| |done].
  exists (x :: used). rewrite Hp, Hu. simpl. split; [done|lia].
Qed.

Lemma walked_weaken s s' K h r pos' : walked s s' K h r pos' -> walked s s' K (S h) r pos'.
Proof. intros (? & ? & (u & ? & ?) & ?). split_and!; try done. exists u. split; [done|lia]. Qed.

Lemma create_step s node n b :
  btree_wf s -> nodes s !! node = Some n -> 0 < bn_height n -> 0 <= b < 256 -> ch s node b = 0 ->
  (pool s = [] /\ btree_node_create node b s = Ok (0, s)) \/
  exists x s1 xn, btree_node_create node b s = Ok (x, s1) /\ x <> 0 /\ btree_wf s1 /\ ext s s1 /\
    pool s = x :: pool s1 /\ nodes s1 !! x = Some xn /\ bn_height xn = bn_height n - 1 /\
    ch s1 node b = x.
Proof.
  intros Hwf Hn Hh Hb Hz. pose proof (btree_node_create_child s node b n Hwf Hn Hh Hb Hz) as Hcr.
  destruct (pool s) as [|x l] eqn:Hpool; [by left|right]. destruct Hcr as [st Hcr].
  destruct (proj2 (wf_pool s Hwf) x) as [Hxz Hx]; [rewrite Hpool; apply elem_of_cons; by left|].
  eexists x, _, _. split_and!; [done|done|by apply wf_link|by apply ext_link|done|apply lookup_insert_eq|done|].
  rewrite ch_link by done. rewrite decide_False by congruence. by rewrite decide_True.
Qed.

Lemma pos_loop_spec h fuel s node n K pos :
  btree_wf s -> 0 <= K -> nodes s !! node = Some n -> bn_height n = Z.of_nat h ->
  (h < fuel)%nat -> node = desc s (depth s - h) (K / 256 ^ Z.of_nat (S h)) ->
  exists r pos' s', pos_loop fuel node (K mod 256 ^ Z.of_nat (S h)) pos true s = Ok ((r, pos'), s') /\
    walked s s' K h r pos'.
Proof.
  intros Hwf HK. revert fuel s node n Hwf.
  induction h as [|h IH]; intros fuel s node n Hwf Hn Hh Hf Hnode;
    (destruct fuel as [|fuel]; [lia|]); pose proof (node_nz s node n Hwf Hn) as Hnz;
    cbn [pos_loop]; mstep (read_node_eq s node n Hnz Hn); rewrite Hh.
  - simpl (_ >? 0). change (256 ^ Z.of_nat 1) with 256 in *. eexists _, _, s. split; [done|].
    split_and!; [done|done|by exists []|]. left. simpl.
    replace (depth s - 0)%nat with (depth s) in Hnode by lia. done.
  - destruct (wf_parent s Hwf _ _ Hn) as [Hle _]. pose proof (wf_height s Hwf) as Hh6.
    assert (depth s - h = S (depth s - S h))%nat as Hdep by (unfold depth; lia).
    destruct (Z.gtb_spec (Z.of_nat (S h)) 0); [|lia].
    mstep (max_keys_at_spec (Z.of_nat (S h) - 1) s ltac:(lia)).
    replace (Z.of_nat (S h) - 1 + 1) with (Z.of_nat (S h)) by lia.
    pose proof (digit_pos (S h)). destruct (Z.eqb_spec (256 ^ Z.of_nat (S h)) 0); [lia|]. cbv zeta.
    rewrite digit_div, digit_mod. set (Q := K / 256 ^ Z.of_nat (S h)) in *.
    assert (0 <= Q mod 256 < 256) as Hb by (apply Z.mod_pos_bound; lia).
    mstep (get_child_eq s node n (Q mod 256) Hn Hb).
    rewrite digit_div_S in Hnode by done. fold Q in Hnode.
    destruct (Z.eqb_spec (ch s node (Q mod 256)) 0) as [Hz|Hc].
    + cbn [negb]. destruct (create_step s node n (Q mod 256) Hwf Hn ltac:(lia) Hb Hz)
        as [[Hpool Hcr]|(x & s1 & xn & Hcr & Hxz & Hwf1 & He1 & Hpool & Hxn & Hxh & Hx)]; mstep Hcr.
      { simpl (0 =? 0). eexists _, _, s. split; [done|].
        split_and!; [done|done|exists []; simpl; split; [done|lia]|]. by right. }
      destruct (Z.eqb_spec x 0); [done|].
      destruct (IH fuel s1 x xn) as (r & pos' & s' & Hr & Hw); [done|done|lia|lia| |].
      * unfold depth. rewrite (ext_height s s1 He1). fold (depth s). rewrite Hdep. cbn [desc]. fold Q.
        rewrite (ext_desc s s1 He1) by (lia || congruence). by rewrite <- Hnode.
      * eexists _, _, _. split; [exact Hr|]. eapply walked_trans; done.
    + destruct (ch_nz _ _ _ Hc) as (n' & Hn' & Hcn). rewrite Hn in Hn'. injection Hn' as <-.
      destruct (wf_child s Hwf _ _ Hn _ _ Hcn) as [_ Hk].
      destruct Hk as (cn & Hcn' & _ & _ & Hhc); [lia|done|].
      destruct (IH fuel s _ cn Hwf Hcn' ltac:(lia) ltac:(lia)) as (r & pos' & s' & Hr & Hw).
      { rewrite Hdep. cbn [desc]. fold Q. by rewrite <- Hnode. }
      eexists _, _, _. split; [exact Hr|]. by apply walked_weaken.
Qed.

Lemma root_node s : btree_wf s ->
  exists r, nodes s !! bt_root s = Some r /\ bn_height r = Z.of_nat (depth s) /\
    bn_parent r = 0 /\ bn_branch_index r = 0.
Proof.
  intros Hwf. pose proof (wf_height s Hwf). destruct (wf_root s Hwf) as [r Hr]. exists r.
  destruct (wf_parent s Hwf _ _ Hr) as [_ Hp]. rewrite decide_True in Hp by done.
  unfold depth. rewrite Z2Nat.id by lia. by destruct Hp as (? & ? & ?).
Qed.

Lemma capacity_depth s : btree_wf s -> capacity (bt_height s) = 256 ^ Z.of_nat (S (depth s)).
Proof.
  intros Hwf. pose proof (wf_height s Hwf). unfold capacity, depth. f_equal. lia.
Qed.

Lemma btree_pos_spec s K pos :
  btree_wf s -> 0 <= K < capacity (bt_height s) ->
  exists r pos' s', btree_pos K pos true s = Ok ((r, pos'), s') /\ walked s s' K (depth s) r pos'.
Proof.
  intros Hwf HK. rewrite capacity_depth in HK by done. destruct (root_node s Hwf) as (r & Hr & Hh & _ & _).
  unfold btree_pos. unfold gets. mstep eq_refl. pose proof (wf_height s Hwf).
  destruct (pos_loop_spec (depth s) levels s (bt_root s) r K pos Hwf) as (r' & pos' & s' & Hp & Hw); try done.
  - lia.
  - unfold depth. change levels with 11%nat. lia.
  - rewrite Nat.sub_diag, Z.div_small by done. done.
  - rewrite Z.mod_small in Hp by done. by exists r', pos', s'.
Qed.

(** ** [btree_get] *)

(** Below an absent node everything is absent. *)
Lemma desc_absent s d (j : nat) q :
  btree_wf s -> 0 <= q -> desc s d (q / 256 ^ Z.of_nat j) = 0 -> desc s (d + j) q = 0.
Proof.
  intros Hwf. revert q. induction j as [|j IH]; intros q Hq Hz.
  - rewrite Nat.add_0_r. by rewrite Z.div_1_r in Hz.
  - rewrite Nat.add_succ_r. cbn [desc]. rewrite IH; [by apply ch_zero|zdm|].
    rewrite Z.div_div by (pose proof (digit_pos j); lia).
    replace (256 * 256 ^ Z.of_nat j) with (256 ^ Z.of_nat (S j)) by (rewrite pow_S; lia). done.
Qed.

Lemma get_loop_spec h fuel s node n K :
  btree_wf s -> 0 <= K -> nodes s !! node = Some n -> bn_height n = Z.of_nat h ->
  (h < fuel)%nat -> node = desc s (depth s - h) (K / 256 ^ Z.of_nat (S h)) ->
  get_loop fuel node (K mod 256 ^ Z.of_nat (S h)) s = Ok (contents s K, s).
Proof.
  intros Hwf HK. revert fuel node n.
  induction h as [|h IH]; intros fuel node n Hn Hh Hf Hnode;
    (destruct fuel as [|fuel]; [lia|]); pose proof (node_nz s node n Hwf Hn) as Hnz;
    cbn [get_loop]; mstep (read_node_eq s node n Hnz Hn); rewrite Hh.
  - change (Z.of_nat 0 >? 0) with false. cbv iota. change (256 ^ Z.of_nat 1) with 256 in *.
    rewrite (get_child_eq s node n) by (done || apply Z.mod_pos_bound; lia).
    unfold contents. rewrite Hnode. by rewrite Nat.sub_0_r.
  - destruct (wf_parent s Hwf _ _ Hn) as [Hle _]. pose proof (wf_height s Hwf) as Hh6.
    assert (depth s - h = S (depth s - S h))%nat as Hdep by (unfold depth; lia).
    destruct (Z.gtb_spec (Z.of_nat (S h)) 0); [|lia].
    mstep (max_keys_at_spec (Z.of_nat (S h) - 1) s ltac:(lia)).
    replace (Z.of_nat (S h) - 1 + 1) with (Z.of_nat (S h)) by lia.
    pose proof (digit_pos (S h)). destruct (Z.eqb_spec (256 ^ Z.of_nat (S h)) 0); [lia|]. cbv zeta.
    rewrite digit_div, digit_mod. set (Q := K / 256 ^ Z.of_nat (S h)) in *.
    assert (0 <= Q mod 256 < 256) as Hb by (apply Z.mod_pos_bound; lia).
    mstep (get_child_eq s node n (Q mod 256) Hn Hb).
    rewrite digit_div_S in Hnode by done. fold Q in Hnode.
    assert (ch s node (Q mod 256) = desc s (depth s - h) Q) as Hd.
    { rewrite Hdep. cbn [desc]. by rewrite <- Hnode. }
    destruct (Z.eqb_spec (ch s node (Q mod 256)) 0) as [Hz|Hc].
    + unfold contents, mret, M_ret. do 2 f_equal.
      assert (desc s (depth s - h + h) (K / 256) = 0) as Hda.
      { apply desc_absent; [done|zdm|]. rewrite Z.div_div by (pose proof (digit_pos h); lia).
        replace (256 * 256 ^ Z.of_nat h) with (256 ^ Z.of_nat (S h)) by (rewrite pow_S; lia).
        fold Q. congruence. }
      replace (depth s - h + h)%nat with (depth s) in Hda by (unfold depth; lia).
      by rewrite Hda, ch_zero.
    + destruct (ch_nz _ _ _ Hc) as (n' & Hn' & Hcn). rewrite Hn in Hn'. injection Hn' as <-.
      destruct (wf_child s Hwf _ _ Hn _ _ Hcn) as [_ Hk].
      destruct Hk as (cn & Hcn' & _ & _ & Hhc); [lia|done|].
      apply (IH fuel _ cn Hcn'); (done || lia).
Qed.

Lemma btree_get_spec s K :
  btree_wf s -> 0 <= K < capacity (bt_height s) -> btree_get K s = Ok (contents s K, s).
Proof.
  intros Hwf HK. rewrite capacity_depth in HK by done. destruct (root_node s Hwf) as (r & Hr & Hh & _ & _).
  unfold btree_get, gets. mstep eq_refl. pose proof (wf_height s Hwf).
  rewrite <- (Z.mod_small K (256 ^ Z.of_nat (S (depth s)))) at 1 by done.
  apply (get_loop_spec _ _ _ _ r); try done; [lia| |].
  - unfold depth. change levels with 11%nat. lia.
  - by rewrite Nat.sub_diag, Z.div_small.
Qed.

(** Beyond its capacity the tree is indexed out of bounds. *)
Lemma btree_get_oob s K :
  btree_wf s -> capacity (bt_height s) <= K -> btree_get K s = Fault OutOfBounds.
Proof.
  intros Hwf HK. destruct (root_node s Hwf) as (r & Hr & Hh & _ & _).
  pose proof (node_nz s _ r Hwf Hr) as Hnz. pose proof (wf_height s Hwf).
  unfold btree_get, gets. mstep eq_refl. change levels with 11%nat. cbn [get_loop].
  mstep (read_node_eq s _ r Hnz Hr). rewrite Hh. unfold capacity in HK.
  destruct (Z.gtb_spec (Z.of_nat (depth s)) 0); unfold depth in *; rewrite Z2Nat.id in * by lia.
  - mstep (max_keys_at_spec (bt_height s - 1) s ltac:(lia)).
    replace (bt_height s - 1 + 1) with (bt_height s) by lia.
    assert (0 < 256 ^ bt_height s) by (apply Z.pow_pos_nonneg; lia).
    destruct (Z.eqb_spec (256 ^ bt_height s) 0); [lia|]. rewrite M_bind_fault with (f := OutOfBounds); [done|].
    apply get_child_oob. rewrite Z.pow_add_r in HK by lia.
    assert (256 <= K / 256 ^ bt_height s) by (apply Z.div_le_lower_bound; lia). lia.
  - replace (bt_height s) with 0 in HK by lia. apply get_child_oob. simpl in HK. lia.
Qed.

(** ** Writing a cell *)

Definition put (leaf i v : Z) (n : btree_node) (s : btree) : btree :=
  set_nodes <[leaf := with_child i v n]> s.

Lemma ch_put leaf i v n s a j :
  nodes s !! leaf = Some n ->
  ch (put leaf i v n s) a j = if decide (a = leaf /\ j = i) then v else ch s a j.
Proof.
  intros Hn. unfold ch, put. simpl. destruct (decide (a = leaf)) as [->|].
  - rewrite lookup_insert_eq, Hn. simpl. destruct (decide (j = i)) as [->|].
    + by rewrite lookup_insert_eq, decide_True.
    + rewrite lookup_insert_ne, decide_False by (congruence || by intros [_ ?]). done.
  - rewrite lookup_insert_ne, decide_False by (congruence || by intros [? _]). done.
Qed.

Lemma desc_put leaf i v n s d q :
  btree_wf s -> nodes s !! leaf = Some n -> bn_height n = 0 -> (d <= depth s)%nat ->
  desc (put leaf i v n s) d q = desc s d q.
Proof.
  intros Hwf Hn Hh. revert q. induction d as [|d IH]; intros q Hd; [done|].
  cbn [desc]. rewrite ch_put by done. rewrite IH by lia. rewrite decide_False; [done|].
  intros [E _]. destruct (desc_node s d (q / 256) Hwf ltac:(lia)) as (n' & Hn' & Hh' & _).
  { intros Hz. rewrite Hz in E. subst leaf. by rewrite (wf_null s Hwf) in Hn. }
  rewrite E, Hn in Hn'. injection Hn' as <-. unfold depth in Hd. lia.
Qed.

Lemma contents_put K v n s k :
  btree_wf s -> nodes s !! desc s (depth s) (K / 256) = Some n -> 0 <= K -> 0 <= k ->
  contents (put (desc s (depth s) (K / 256)) (K mod 256) v n s) k =
  if decide (k = K) then v else contents s k.
Proof.
  intros Hwf Hn HK Hk. set (leaf := desc s (depth s) (K / 256)) in *.
  pose proof (node_nz s _ _ Hwf Hn) as Hnz.
  assert (bn_height n = 0) as Hh.
  { destruct (desc_node s (depth s) (K / 256) Hwf (le_n _) Hnz) as (n' & Hn' & Hh & _).
    fold leaf in Hn'. rewrite Hn in Hn'. injection Hn' as <-.
    pose proof (wf_height s Hwf). unfold depth in Hh. lia. }
  unfold contents. rewrite ch_put by done.
  change (depth (put leaf (K mod 256) v n s)) with (depth s). rewrite desc_put by done.
  destruct (decide (k = K)) as [->|Hne]; [by rewrite decide_True|].
  rewrite decide_False; [done|]. intros [E1 E2].
  apply (desc_inj s (depth s)) in E1; [|done|done|congruence].
  apply Hne. rewrite (Z.div_mod k 256), (Z.div_mod K 256) by lia. congruence.
Qed.

Lemma wf_put leaf i v n s :
  btree_wf s -> nodes s !! leaf = Some n -> bn_height n = 0 -> 0 <= i < 256 ->
  btree_wf (put leaf i v n s).
Proof.
  intros Hwf Hn Hh Hi.
  assert (forall a m, nodes s !! a = Some m -> exists m', nodes (put leaf i v n s) !! a = Some m' /\
    bn_parent m' = bn_parent m /\ bn_height m' = bn_height m /\ bn_branch_index m' = bn_branch_index m /\
    (0 < bn_height m -> m' = m)) as Hkeep.
  { intros a m Hm. simpl. destruct (decide (a = leaf)) as [->|].
    - rewrite lookup_insert_eq. rewrite Hn in Hm. injection Hm as <-. eexists. split; [done|].
      split_and!; try done. lia.
    - rewrite lookup_insert_ne by done. by exists m. }
  split; [apply (wf_height s Hwf)| | | | |].
  - destruct (wf_root s Hwf) as [r Hr]. destruct (Hkeep _ _ Hr) as (? & ? & _). by eexists.
  - simpl. rewrite lookup_insert_ne; [apply (wf_null s Hwf)|]. by apply (node_nz s _ n).
  - intros a m. simpl. destruct (decide (a = leaf)) as [->|].
    + rewrite lookup_insert_eq. intros [= <-] j c Hc. simpl in *. split; [|lia].
      destruct (decide (j = i)) as [->|]; [done|]. rewrite lookup_insert_ne in Hc by done.
      apply (wf_child s Hwf _ _ Hn _ _ Hc).
    + rewrite lookup_insert_ne by done. intros Hm j c Hc.
      destruct (wf_child s Hwf _ _ Hm _ _ Hc) as [? Hk]. split; [done|]. intros H0 Hcz.
      destruct (Hk H0 Hcz) as (cn & Hcn & ? & ? & ?). destruct (Hkeep _ _ Hcn) as (m' & ? & ? & ? & ? & _).
      exists m'. split_and!; congruence.
  - assert (forall a m m', nodes s !! a = Some m -> bn_parent m' = bn_parent m -> bn_height m' = bn_height m ->
      bn_branch_index m' = bn_branch_index m -> parent_ok (put leaf i v n s) a m') as Hpk.
    { intros a m m' Hm Hp Hh' Hbi. destruct (wf_parent s Hwf _ _ Hm) as [? Hpa].
      unfold parent_ok. rewrite Hp, Hh', Hbi. split; [done|]. simpl.
      destruct (decide (a = bt_root s)); [done|]. destruct Hpa as (? & pn & Hpn & Hph & ?). split; [done|].
      destruct (Hkeep _ _ Hpn) as (pn' & Hpn' & _ & _ & _ & He). rewrite He in Hpn' by lia. by exists pn. }
    intros a m. simpl. destruct (decide (a = leaf)) as [->|].
    + rewrite lookup_insert_eq. intros [= <-]. by apply (Hpk leaf n).
    + rewrite lookup_insert_ne by done. intros Hm. by apply (Hpk a m).
  - simpl. destruct (wf_pool s Hwf) as [? Hp]. split; [done|]. intros p Hin.
    destruct (Hp p Hin) as [? Hpn]. split; [done|]. rewrite lookup_insert_ne; congruence.
Qed.

(** ** [btree_expand] *)

Definition grow (x : Z) (r : btree_node) (l : list Z) (s : btree) : btree :=
  mk_btree x (bt_height s + 1)
    (<[x := mk_node 0 (bt_height s + 1) 0 0 {[0 := bt_root s]}]>
     (<[bt_root s := mk_node x (bn_height r) (bn_branch_index r) (bn_start r) (bn_children r)]> (nodes s))) l.

Lemma btree_node_create_root s x l :
  pool s = x :: l -> x <> 0 ->
  btree_node_create 0 0 s =
  Ok (x, mk_btree (bt_root s) (bt_height s) (<[x := mk_node 0 0 0 0 ∅]> (nodes s)) l).
Proof.
  intros Hpool Hx. unfold btree_node_create, btree_malloc, mbind, M_bind. rewrite Hpool.
  by rewrite (proj2 (Z.eqb_neq x 0) Hx).
Qed.

Lemma btree_expand_eq s x l r :
  btree_wf s -> nodes s !! bt_root s = Some r -> pool s = x :: l ->
  btree_expand s = Ok (tt, grow x r l s).
Proof.
  intros Hwf Hr Hpool. pose proof (wf_height s Hwf). pose proof (node_nz s _ _ Hwf Hr) as Hrz.
  destruct (proj2 (wf_pool s Hwf) x) as [Hxz Hx]; [rewrite Hpool; apply elem_of_cons; by left|].
  assert (x <> bt_root s) by congruence.
  unfold btree_expand. erewrite M_bind_step.
  2:{ by apply (btree_node_create_root s x l). }
  unfold gets, modify. mstep eq_refl.
  erewrite M_bind_step by (apply set_child_eq; [done|apply lookup_insert_eq|lia]).
  erewrite M_bind_step by (apply read_node_eq; [done|simpl; rewrite !lookup_insert_ne by congruence; exact Hr]).
  unfold write_node at 1. mstep eq_refl. mstep eq_refl. mstep eq_refl. simpl bt_height.
  erewrite M_bind_step by
    (apply read_node_eq; [done|simpl; rewrite lookup_insert_ne by congruence; apply lookup_insert_eq]).
  unfold write_node, set_nodes, grow, with_child. simpl. rewrite u64_small by lia. do 3 f_equal.
  rewrite insert_insert_eq, (insert_insert_ne _ (bt_root s) x) by congruence.
  by rewrite insert_insert_eq.
Qed.

Lemma ch_grow x r l s a i :
  nodes s !! bt_root s = Some r -> x <> bt_root s ->
  ch (grow x r l s) a i = if decide (a = x) then (if decide (i = 0) then bt_root s else 0) else ch s a i.
Proof.
  intros Hr Hx. unfold ch, grow. simpl. destruct (decide (a = x)) as [->|].
  - rewrite lookup_insert_eq. simpl. destruct (decide (i = 0)) as [->|].
    + by rewrite lookup_singleton_eq.
    + by rewrite lookup_singleton_ne.
  - rewrite lookup_insert_ne by done. destruct (decide (a = bt_root s)) as [->|].
    + by rewrite lookup_insert_eq, Hr.
    + by rewrite lookup_insert_ne.
Qed.

Lemma desc_grow x r l s d q :
  btree_wf s -> nodes s !! bt_root s = Some r -> nodes s !! x = None -> x <> 0 ->
  (d <= depth s)%nat -> 0 <= q -> desc (grow x r l s) (S d) q = desc s d q.
Proof.
  intros Hwf Hr Hx Hxz. assert (x <> bt_root s) by congruence.
  revert q. induction d as [|d IH]; intros q Hd Hq.
  - cbn [desc]. rewrite ch_grow by done. destruct (Z.eqb_spec (q / 256) 0); simpl.
    + rewrite decide_True by done. destruct (decide (q mod 256 = 0)), (Z.eqb_spec q 0); zdm || done.
    + rewrite decide_False, ch_zero by (done || congruence). destruct (Z.eqb_spec q 0); [zdm|done].
  - change (desc (grow x r l s) (S (S d)) q) with
      (ch (grow x r l s) (desc (grow x r l s) (S d) (q / 256)) (q mod 256)).
    rewrite IH by (lia || zdm). rewrite ch_grow by done. rewrite decide_False; [done|]. intros E.
    destruct (decide (desc s d (q / 256) = 0)) as [Hz|Hz]; [congruence|].
    destruct (desc_node s d (q / 256) Hwf ltac:(lia) Hz) as (n & Hn & _). congruence.
Qed.

Lemma lookup_grow x r l s a n :
  nodes s !! bt_root s = Some r -> nodes s !! x = None -> nodes s !! a = Some n ->
  exists n', nodes (grow x r l s) !! a = Some n' /\ bn_height n' = bn_height n /\
    bn_branch_index n' = bn_branch_index n /\ bn_children n' = bn_children n /\
    bn_parent n' = if decide (a = bt_root s) then x else bn_parent n.
Proof.
  intros Hr Hx Ha. simpl. rewrite lookup_insert_ne by congruence.
  destruct (decide (a = bt_root s)) as [->|].
  - rewrite lookup_insert_eq. rewrite Hr in Ha. injection Ha as <-. by eexists.
  - rewrite lookup_insert_ne by done. by exists n.
Qed.

Lemma lookup_grow_inv x r l s a n' :
  nodes s !! bt_root s = Some r -> nodes s !! x = None ->
  nodes (grow x r l s) !! a = Some n' -> a <> x -> exists n, nodes s !! a = Some n.
Proof.
  intros Hr Hx Ha Hne. simpl in Ha. rewrite lookup_insert_ne in Ha by done.
  destruct (decide (a = bt_root s)) as [->|]; [by exists r|].
  rewrite lookup_insert_ne in Ha by done. by exists n'.
Qed.

Lemma wf_grow x r l s :
  btree_wf s -> nodes s !! bt_root s = Some r -> pool s = x :: l -> bt_height s < 6 ->
  btree_wf (grow x r l s).
Proof.
  intros Hwf Hr Hpool Hh. pose proof (wf_height s Hwf). destruct (wf_pool s Hwf) as [Hnd Hfr].
  rewrite Hpool in Hnd, Hfr. apply NoDup_cons in Hnd as [Hni Hnd].
  destruct (Hfr x) as [Hxz Hx]; [apply elem_of_cons; by left|].
  pose proof (node_nz s _ _ Hwf Hr) as Hrz. assert (x <> bt_root s) as Hne by congruence.
  destruct (wf_parent s Hwf _ _ Hr) as [_ Hrp]. rewrite decide_True in Hrp by done.
  destruct Hrp as (Hrp & Hrb & Hrh).
  split; [simpl; lia| | | | |].
  - simpl. rewrite lookup_insert_eq. by eexists.
  - simpl. rewrite !lookup_insert_ne by done. apply (wf_null s Hwf).
  - intros a n. destruct (decide (a = x)) as [->|Hax].
    + simpl. rewrite lookup_insert_eq. intros [= <-] i c Hc. simpl in *.
      apply lookup_singleton_Some in Hc as [<- <-].
      split; [lia|]. intros _ _. rewrite lookup_insert_ne, lookup_insert_eq by done.
      eexists. split; [done|]. simpl. split_and!; [done|done|lia].
    + intros Hn'. destruct (lookup_grow_inv _ _ _ _ _ _ Hr Hx Hn' Hax) as [n0 Hn0].
      destruct (lookup_grow x r l s a n0 Hr Hx Hn0) as (n1 & Hn1 & Hhe & Hbi & Hch & Hpa).
      rewrite Hn' in Hn1. injection Hn1 as <-. intros i c Hc. rewrite Hch in Hc. rewrite Hhe.
      destruct (wf_child s Hwf _ _ Hn0 _ _ Hc) as [? Hk]. split; [done|]. intros Hpos Hcz.
      destruct (Hk Hpos Hcz) as (cn & Hcn & Hcp & ? & ?).
      destruct (lookup_grow x r l s c cn Hr Hx Hcn) as (c1 & ? & ? & ? & ? & Hcpa).
      exists c1. split_and!; [done| |congruence|congruence].
      rewrite decide_False in Hcpa; [congruence|]. intros ->. rewrite Hr in Hcn. injection Hcn as <-.
      rewrite Hrp in Hcp. by apply (node_nz s a n0 Hwf Hn0).
  - intros a n Hn'. destruct (decide (a = x)) as [->|Hax].
    + simpl in Hn'. rewrite lookup_insert_eq in Hn'. injection Hn' as <-.
      split; [simpl; lia|]. by rewrite decide_True.
    + destruct (lookup_grow_inv _ _ _ _ _ _ Hr Hx Hn' Hax) as [n0 Hn0].
      destruct (lookup_grow x r l s a n0 Hr Hx Hn0) as (n1 & Hn1 & Hhe & Hbi & Hch & Hpa).
      rewrite Hn' in Hn1. injection Hn1 as <-. destruct (wf_parent s Hwf _ _ Hn0) as [Hle Hpo].
      unfold parent_ok. rewrite Hhe, Hbi, Hpa. simpl. split; [lia|]. rewrite decide_False by done.
      destruct (decide (a = bt_root s)) as [->|].
      * rewrite Hr in Hn0. injection Hn0 as <-. rewrite Hrb. split; [lia|].
        rewrite lookup_insert_eq. eexists. split; [done|]. simpl.
        rewrite lookup_singleton_eq. split; [lia|done].
      * destruct Hpo as (? & pn & Hpn & Hph & Hpc). split; [done|].
        destruct (lookup_grow x r l s _ pn Hr Hx Hpn) as (p1 & Hp1 & ? & _ & Hpch & _).
        exists p1. split_and!; [exact Hp1|congruence|congruence].
  - simpl. split; [done|]. intros p Hp. destruct (Hfr p) as [? Hpf]; [apply elem_of_cons; by right|].
    split; [done|]. rewrite !lookup_insert_ne; [done| |]; congruence.
Qed.

Lemma contents_grow x r l s k :
  btree_wf s -> nodes s !! bt_root s = Some r -> nodes s !! x = None -> x <> 0 -> 0 <= k ->
  contents (grow x r l s) k = contents s k.
Proof.
  intros Hwf Hr Hx Hxz Hk. pose proof (wf_height s Hwf). unfold contents.
  replace (depth (grow x r l s)) with (S (depth s)) by (unfold depth; simpl; lia).
  rewrite desc_grow by (done || zdm). rewrite ch_grow by congruence.
  rewrite decide_False; [done|]. intros E.
  destruct (decide (desc s (depth s) (k / 256) = 0)) as [Hz|Hz]; [congruence|].
  destruct (desc_node s (depth s) (k / 256) Hwf (le_n _) Hz) as (n & Hn & _). congruence.
Qed.

Lemma btree_expand_spec s :
  btree_wf s -> bt_height s < 6 -> pool s <> [] ->
  exists s' x, btree_expand s = Ok (tt, s') /\ btree_wf s' /\ bt_height s' = bt_height s + 1 /\
    pool s = x :: pool s' /\ forall k, 0 <= k -> contents s' k = contents s k.
Proof.
  intros Hwf Hh Hp. destruct (pool s) as [|x l] eqn:Hpool; [done|].
  destruct (wf_root s Hwf) as [r Hr].
  destruct (proj2 (wf_pool s Hwf) x) as [Hxz Hx]; [rewrite Hpool; apply elem_of_cons; by left|].
  exists (grow x r l s), x. split_and!; [by apply btree_expand_eq|by apply wf_grow|done|done|].
  intros k Hk. by apply contents_grow.
Qed.

Lemma capacity_mono h h' : 0 <= h <= h' -> capacity h <= capacity h'.
Proof. intros. unfold capacity. apply Z.pow_le_mono_r; lia. Qed.

(** Growing until [key] fits takes at most six nodes. *)
Lemma expand_loop_spec fuel s key :
  btree_wf s -> 0 <= key < capacity 6 -> (Z.to_nat (6 - bt_height s) < fuel)%nat ->
  (Z.to_nat (6 - bt_height s) <= length (pool s))%nat ->
  exists s', expand_loop fuel key s = Ok (tt, s') /\ btree_wf s' /\
    bt_height s <= bt_height s' /\ key < capacity (bt_height s') /\
    (exists used, pool s = used ++ pool s' /\ (length used <= 6)%nat) /\
    forall k, 0 <= k -> contents s' k = contents s k.
Proof.
  intros Hwf Hk Hf Hl.
  enough (exists s', expand_loop fuel key s = Ok (tt, s') /\ btree_wf s' /\
    bt_height s <= bt_height s' /\ key < capacity (bt_height s') /\
    (exists used, pool s = used ++ pool s' /\ (Z.of_nat (length used) <= 6 - bt_height s)) /\
    forall k, 0 <= k -> contents s' k = contents s k) as (s' & ? & ? & ? & ? & (u & ? & ?) & ?).
  { pose proof (wf_height s Hwf). exists s'. split_and!; try done. exists u. split; [done|lia]. }
  revert s Hwf Hf Hl. induction fuel as [|fuel IH]; intros s Hwf Hf Hl; [lia|].
  pose proof (wf_height s Hwf) as Hh. cbn [expand_loop]. unfold gets. mstep eq_refl.
  mstep (max_keys_at_spec (bt_height s) s Hh). fold (capacity (bt_height s)).
  destruct (Z.geb_spec key (capacity (bt_height s))) as [Hge|Hlt].
  - assert (bt_height s <> 6) by (intros E; rewrite E in Hge; lia).
    destruct (btree_expand_spec s Hwf) as (s1 & x & He & Hwf1 & Hh1 & Hp1 & Hc1); [lia| |].
    { intros E. rewrite E in Hl. simpl in Hl. lia. }
    mstep He. rewrite Hp1 in Hl. simpl in Hl.
    destruct (IH s1 Hwf1) as (s' & Hs' & Hwf' & Hhs' & Hcap & (u & Hu & Hlu) & Hc'); [lia|lia|].
    exists s'. split_and!; [done|done|lia|done| |].
    + exists (x :: u). rewrite Hp1, Hu. simpl. split; [done|lia].
    + intros k Hk0. by rewrite Hc', Hc1.
  - exists s. split_and!; try done. exists []. simpl. split; [done|lia].
Qed.

Lemma leaf_node s K :
  btree_wf s -> desc s (depth s) (K / 256) <> 0 ->
  exists n, nodes s !! desc s (depth s) (K / 256) = Some n /\ bn_height n = 0.
Proof.
  intros Hwf Hnz. destruct (desc_node s (depth s) (K / 256) Hwf (le_n _) Hnz) as (n & Hn & Hh & _).
  exists n. split; [done|]. pose proof (wf_height s Hwf). unfold depth in Hh. lia.
Qed.

(** Writing through a position of block [K]. *)
Lemma set_child_pos s pos K v :
  btree_wf s -> 0 <= K -> bp_node pos = desc s (depth s) (K / 256) -> bp_node pos <> 0 ->
  bp_index pos = K mod 256 ->
  exists s', set_child (bp_node pos) (bp_index pos) v s = Ok (tt, s') /\ btree_wf s' /\
    bt_height s' = bt_height s /\ bt_root s' = bt_root s /\ pool s' = pool s /\
    (forall d q, (d <= depth s)%nat -> desc s' d q = desc s d q) /\
    forall k, 0 <= k -> contents s' k = if decide (k = K) then v else contents s k.
Proof.
  intros Hwf HK Hn Hnz Hi. rewrite Hn in Hnz. destruct (leaf_node s K Hwf Hnz) as (n & Hl & Hh).
  assert (0 <= K mod 256 < 256) by (apply Z.mod_pos_bound; lia).
  exists (put (desc s (depth s) (K / 256)) (K mod 256) v n s). rewrite Hn, Hi.
  split_and!; [by apply set_child_eq|by apply wf_put|done|done|done| |].
  - intros. by apply desc_put.
  - intros. by apply contents_put.
Qed.

(** ** [btree_next] *)

Lemma max_keys_at_state i s k s' : max_keys_at i s = Ok (k, s') -> s' = s.
Proof. unfold max_keys_at. destruct (_ =? _); [|destruct (zget _ _)]; intros [= _ <-]; done. Qed.

Lemma read_node_inv p s n s' : read_node p s = Ok (n, s') -> s' = s /\ p <> 0 /\ nodes s !! p = Some n.
Proof. unfold read_node. destruct (Z.eqb_spec p 0), (nodes s !! p); intros [= <- <-]; done. Qed.

Lemma get_child_state n i s c s' : get_child n i s = Ok (c, s') -> s' = s.
Proof. unfold get_child. destruct (_ && _); intros [= _ <-]; done. Qed.

(** Going down by first children is looking up the key 0. *)
Lemma descend_pos_zero fuel node iter s r p s' :
  pos_loop fuel node 0 iter true s = Ok ((r, p), s') ->
  exists p', descend_loop fuel node 0 iter true s = Ok ((r, p'), s') /\ (r = 0 -> p' = p).
Proof.
  revert node s. induction fuel as [|fuel IH]; intros node s; [done|].
  cbn [pos_loop descend_loop]. intros (n & s1 & Hn & H)%M_bind_Ok.
  mstep Hn. apply read_node_inv in Hn as (-> & _ & _).
  destruct (bn_height n >? 0); [|by exists p; injection H as <- <- <-].
  apply M_bind_Ok in H as (k & s1 & Hk & H). apply max_keys_at_state in Hk as ->.
  destruct (Z.eqb_spec k 0); [done|]. cbv zeta in H. rewrite Z.div_0_l, Z.mod_0_l in H by done.
  apply M_bind_Ok in H as (c & s1 & Hc & H). mstep Hc. apply get_child_state in Hc as ->.
  destruct (c =? 0); [|by apply IH]. cbn [negb] in *.
  apply M_bind_Ok in H as (x & s1 & Hx & H). mstep Hx. destruct (x =? 0); [|by apply IH].
  injection H as <- <- <-. eexists. split; [done|]. done.
Qed.

Lemma descend_pos fuel node n k b iter s r p s' :
  nodes s !! node = Some n -> bn_height n > 0 ->
  max_keys_at (bn_height n - 1) s = Ok (k, s) -> 0 < k ->
  pos_loop fuel node (b * k) iter true s = Ok ((r, p), s') ->
  exists p', descend_loop fuel node b iter true s = Ok ((r, p'), s') /\ (r = 0 -> p' = p).
Proof.
  destruct fuel as [|fuel]; [done|]. cbn [pos_loop descend_loop]. intros Hn Hh Hk Hkz H.
  apply M_bind_Ok in H as (n' & s1 & Hn' & H). mstep Hn'. apply read_node_inv in Hn' as (-> & _ & Hn').
  rewrite Hn in Hn'. injection Hn' as <-. destruct (Z.gtb_spec (bn_height n) 0); [|lia].
  rewrite (M_bind_step _ _ _ _ _ Hk) in H. destruct (Z.eqb_spec k 0); [lia|]. cbv zeta in H.
  rewrite Z.div_mul, Z.mod_mul in H by done.
  apply M_bind_Ok in H as (c & s1 & Hc & H). mstep Hc. apply get_child_state in Hc as ->.
  destruct (c =? 0); [|by apply descend_pos_zero]. cbn [negb] in *.
  apply M_bind_Ok in H as (x & s1 & Hx & H). mstep Hx. destruct (x =? 0); [|by apply descend_pos_zero].
  injection H as <- <- <-. eexists. split; [done|]. done.
Qed.

(** Climbing from the node of prefix [q] finds the deepest ancestor with a
    next branch. *)
Lemma climb_loop_spec d fuel s q pi :
  btree_wf s -> (S d <= depth s)%nat -> 0 <= q -> q + 1 < 256 ^ Z.of_nat (S d) ->
  desc s (S d) q <> 0 -> (S d < fuel)%nat ->
  exists d' q' p j, climb_loop fuel (desc s (S d) q) pi s = Ok ((desc s d' q', p), s) /\
    desc s d' q' <> 0 /\ 0 <= q' /\ 0 <= p < 255 /\ S d = (d' + 1 + j)%nat /\
    q + 1 = (q' * 256 + p + 1) * 256 ^ Z.of_nat j.
Proof.
  intros Hwf. revert fuel q pi. induction d as [|d IH]; intros fuel q pi Hd Hq Hr Hnz Hf;
    (destruct fuel as [|fuel]; [lia|]);
    destruct (desc_node s _ q Hwf Hd Hnz) as (n & Hn & _ & Hp & Hb);
    pose proof (desc_parent_nz s _ q Hwf Hnz) as Hpz;
    cbn [climb_loop]; mstep (read_node_eq s _ n Hnz Hn);
    pose proof (Z.mod_pos_bound q 256 ltac:(lia));
    rewrite Hp, Hb, (u64_small (q mod 256 + 1)) by lia; unfold BRANCH_NUM.
  - rewrite (proj2 (Z.eqb_neq _ _) Hpz). change (256 ^ Z.of_nat 1) with 256 in Hr.
    destruct (Z.ltb_spec (q mod 256 + 1) 256); [|zdm].
    exists 0%nat, (q / 256), (q mod 256), 0%nat. split_and!; try done; try zdm.
  - rewrite (proj2 (Z.eqb_neq _ _) Hpz). rewrite pow_S in Hr.
    destruct (Z.ltb_spec (q mod 256 + 1) 256).
    + exists (S d), (q / 256), (q mod 256), 0%nat. split_and!; try done; try zdm.
    + destruct (IH fuel (q / 256) (q mod 256)) as (d' & q' & p & j & Hc & ? & ? & ? & ? & Hj);
        [lia|zdm|zdm|done|lia|].
      exists d', q', p, (S j). split_and!; try done; try lia. rewrite pow_S.
      assert (q + 1 = (q / 256 + 1) * 256) by zdm. rewrite Hj in *. lia.
Qed.

Lemma btree_next_spec s pos K :
  btree_wf s -> 0 <= K -> K + 1 < capacity (bt_height s) ->
  bp_node pos = desc s (depth s) (K / 256) -> bp_node pos <> 0 -> bp_index pos = K mod 256 ->
  exists r pos' s', btree_next pos true s = Ok ((r, pos'), s') /\
    walked s s' (K + 1) (depth s) r pos'.
Proof.
  intros Hwf HK Hcap Hn Hnz Hi. rewrite capacity_depth, pow_S in Hcap by done.
  pose proof (wf_height s Hwf) as Hh6. pose proof (Z.mod_pos_bound K 256 ltac:(lia)).
  unfold btree_next. rewrite Hn, Hi, (u64_small (K mod 256 + 1)) by lia. unfold BRANCH_NUM.
  rewrite Hn in Hnz. destruct (leaf_node s K Hwf Hnz) as (n & Hl & Hh).
  destruct (Z.ltb_spec (K mod 256 + 1) 256).
  - eexists _, _, s. split; [done|]. split_and!; [done|done|exists []; simpl; split; [done|lia]|].
    left. simpl. replace ((K + 1) / 256) with (K / 256) by zdm. split_and!; [done|done|done|zdm].
  - mstep (read_node_eq s _ n Hnz Hl).
    destruct (depth s) as [|d] eqn:Hdep; [simpl in Hcap; zdm|].
    destruct (climb_loop_spec d levels s (K / 256) (bn_branch_index n) Hwf)
      as (d' & q' & p & j & Hc & Hdz & Hq' & Hp & Hj & He); try done; [lia|zdm|zdm| |].
    { unfold depth in Hdep. change levels with 11%nat. lia. }
    mstep Hc. destruct (desc_node s d' q' Hwf ltac:(lia) Hdz) as (m & Hm & Hmh & _).
    mstep (read_node_eq s _ m Hdz Hm). rewrite (u64_small (p + 1)) by lia.
    rewrite (proj2 (Z.eqb_neq (p + 1) 256)), andb_false_r by lia.
    assert (bn_height m = Z.of_nat (S j)) as Hmj by (unfold depth in Hdep; lia).
    assert (K + 1 = (q' * 256 + p + 1) * 256 ^ Z.of_nat (S j)) as HK1 by (rewrite pow_S; zdm).
    pose proof (digit_pos (S j)).
    assert ((K + 1) / 256 ^ Z.of_nat (S j) = q' * 256 + p + 1) as Hdiv by (rewrite HK1; by apply Z.div_mul; lia).
    assert ((K + 1) / 256 ^ Z.of_nat (S (S j)) = q') as Hq by (rewrite digit_div_S, Hdiv by lia; zdm).
    assert ((K + 1) mod 256 ^ Z.of_nat (S (S j)) = (p + 1) * 256 ^ Z.of_nat (S j)) as Hm'.
    { pose proof (Z.div_mod (K + 1) (256 ^ Z.of_nat (S (S j)))) as Hdm. rewrite Hq, (pow_S (S j)) in Hdm.
      rewrite (pow_S (S j)). lia. }
    destruct (pos_loop_spec (S j) levels s (desc s d' q') m (K + 1) pos) as (r & pos' & s' & Hps & Hw);
      try done; [lia|change levels with 11%nat; unfold depth in Hdep; lia| |].
    { rewrite Hq. f_equal. lia. }
    rewrite Hm' in Hps.
    destruct (descend_pos _ _ m (256 ^ Z.of_nat (S j)) _ _ _ _ _ _ Hm ltac:(lia)
      ltac:(rewrite Hmj, max_keys_at_spec by (unfold depth in Hdep; lia); do 3 f_equal; lia)
      ltac:(lia) Hps) as (p' & Hd & Hp').
    exists r, p', s'. split; [done|]. destruct Hw as (? & ? & (u & ? & ?) & Hr).
    split_and!; [done|done|exists u; split; [done|lia]|].
    destruct Hr as [(-> & ?)|?]; [left|by right]. by rewrite Hp'.
Qed.

(** ** Setting keys *)

Lemma walked_ok s s' K h r pos' :
  walked s s' K h r pos' -> (h < length (pool s))%nat ->
  r = 0 /\ btree_wf s' /\ ext s s' /\
  (exists used, pool s = used ++ pool s' /\ (length (pool s) <= length (pool s') + h)%nat) /\
  bp_node pos' = desc s' (depth s') (K / 256) /\ bp_node pos' <> 0 /\ bp_index pos' = K mod 256.
Proof.
  intros (Hwf & He & (u & Hu & Hl) & Hr) Hp.
  assert (length (pool s) = length u + length (pool s'))%nat as Hlen by (by rewrite Hu, length_app).
  destruct Hr as [(-> & ? & ? & ?)|[_ E]]; [|rewrite E in Hlen; simpl in Hlen; lia].
  split_and!; try done. exists u. split; [done|lia].
Qed.

Lemma btree_set_spec s key v :
  btree_wf s -> 0 <= key < capacity 6 -> (12 < length (pool s))%nat ->
  exists s', btree_set key v s = Ok (0, s') /\ btree_wf s' /\ key < capacity (bt_height s') /\
    bt_height s <= bt_height s' /\
    forall k, 0 <= k -> contents s' k = if decide (k = key) then v else contents s k.
Proof.
  intros Hwf Hk Hp. unfold btree_set. pose proof (wf_height s Hwf).
  destruct (expand_loop_spec levels s key Hwf Hk) as (s1 & He & Hwf1 & Hh1 & Hc1 & (u & Hu & Hl) & Hsame);
    [change levels with 11%nat; lia|lia|].
  mstep He. assert (length (pool s) = length u + length (pool s1))%nat by (by rewrite Hu, length_app).
  destruct (btree_pos_spec s1 key no_pos Hwf1) as (r & pos & s2 & Hpos & Hw); [lia|].
  mstep Hpos. pose proof (wf_height s1 Hwf1).
  apply walked_ok in Hw as (-> & Hwf2 & He2 & _ & Hn & Hnz & Hi); [|unfold depth; lia].
  simpl (negb _). cbv iota.
  destruct (set_child_pos s2 pos key v Hwf2) as (s3 & Hs & Hwf3 & Hh3 & _ & _ & _ & Hc3); try done; [lia|].
  mstep Hs. exists s3. rewrite Hh3, (ext_height s1 s2 He2). split_and!; try done.
  intros k Hk0. rewrite Hc3, (ext_contents s1 s2 He2), Hsame by done. done.
Qed.

(** The cells the loop of [btree_set_range_callback] writes: how many of them
    before the callback stops it, whether it stops, and the context. *)
Fixpoint range_ref {C} (n : nat) (start : Z) (old : Z -> Z) (cb : option (callback C)) (ctx : C)
    : outcome (nat * bool * C) :=
  match n with
  | O => Ok (O, false, ctx)
  | S n' =>
      '(stop, ctx) ← match cb with
                     | Some f => if old start =? 0 then Ok (0, ctx) else f (old start) (i32 start) ctx
                     | None => Ok (0, ctx)
                     end;
      if negb (stop =? 0) then Ok (O, true, ctx) else
      '(m, b, ctx) ← range_ref n' (start + 1) old cb ctx;
      Ok (S m, b, ctx)
  end.

Lemma range_ref_ext {C} n start (old old' : Z -> Z) (cb : option (callback C)) ctx :
  (forall k, start <= k -> old k = old' k) -> range_ref n start old cb ctx = range_ref n start old' cb ctx.
Proof.
  revert start ctx. induction n as [|n IH]; intros start ctx He; [done|]. cbn [range_ref].
  rewrite He by lia. destruct (match cb with Some _ => _ | None => _ end) as [[stop ctx']|]; [|done].
  simpl. destruct (negb _); [done|]. rewrite IH; [done|]. intros k Hk. apply He. lia.
Qed.

Lemma range_ref_le {C} n start (old : Z -> Z) (cb : option (callback C)) ctx m b ctx' :
  range_ref n start old cb ctx = Ok (m, b, ctx') -> (m <= n)%nat /\ (b = false -> m = n).
Proof.
  revert start ctx m. induction n as [|n IH]; intros start ctx m; cbn [range_ref].
  - intros [= <- <- <-]. done.
  - intros ([stop ctx1] & _ & H)%bind_Ok. destruct (negb _); [injection H as <- <- <-; split; [lia|done]|].
    apply bind_Ok in H as ([[m' b'] c'] & H & E). injection E as <- <- <-.
    apply IH in H as [? Hb]. split; [lia|]. intros ->. by rewrite Hb.
Qed.

Lemma set_range_loop_spec {C} n start pos ptr (cb : option (callback C)) ctx s :
  btree_wf s -> 0 <= start -> start + Z.of_nat n < capacity (bt_height s) ->
  bp_node pos = desc s (depth s) (start / 256) -> bp_node pos <> 0 -> bp_index pos = start mod 256 ->
  (n * 6 < length (pool s))%nat ->
  match range_ref n start (contents s) cb ctx with
  | Fault f => set_range_loop n start pos ptr cb ctx s = Fault f
  | Ok (m, b, ctx') => exists s', 
      set_range_loop n start pos ptr cb ctx s = Ok ((if b then -1 else 0, ctx'), s') /\
      btree_wf s' /\ bt_height s' = bt_height s /\ (exists used, pool s = used ++ pool s') /\
      forall k, 0 <= k ->
        contents s' k = if decide (start <= k < start + Z.of_nat m) then ptr else contents s k
  end.
Proof.
  revert start pos ctx s. induction n as [|n IH]; intros start pos ctx s Hwf Hs Hcap Hn Hnz Hi Hp.
  - simpl. exists s. split_and!; try done; [by exists []|]. intros k Hk. rewrite decide_False by lia. done.
  - cbn [range_ref set_range_loop]. pose proof (wf_height s Hwf).
    pose proof Hnz as Hnz'. rewrite Hn in Hnz'. destruct (leaf_node s start Hwf Hnz') as (nd & Hnd & _).
    rewrite <- Hn in Hnd. mstep (read_node_eq s _ nd Hnz Hnd).
    mstep (get_child_eq s _ nd (bp_index pos) Hnd ltac:(rewrite Hi; apply Z.mod_pos_bound; lia)).
    assert (ch s (bp_node pos) (bp_index pos) = contents s start) as -> by (by rewrite Hn, Hi).
    destruct (match cb with Some _ => _ | None => _ end) as [[stop ctx1]|f]; [|done].
    unfold lift. mstep eq_refl. simpl (Ok (stop, ctx1) ≫= _).
    destruct (negb (stop =? 0)).
    { exists s. split_and!; try done; [by exists []|]. intros k Hk. rewrite decide_False by lia. done. }
    destruct (set_child_pos s pos start ptr Hwf Hs Hn Hnz Hi)
      as (s1 & Hs1 & Hwf1 & Hh1 & Hr1 & Hp1 & Hd1 & Hc1). mstep Hs1.
    destruct (btree_next_spec s1 pos start Hwf1 Hs) as (r & pos' & s2 & Hx & Hw); try done.
    { rewrite Hh1. lia. }
    { unfold depth. rewrite Hh1. fold (depth s). by rewrite Hd1. }
    mstep Hx. apply walked_ok in Hw as (-> & Hwf2 & He2 & (u2 & Hu2 & Hl2) & Hn2 & Hnz2 & Hi2);
      [|unfold depth; rewrite Hp1; lia]. simpl (negb (0 =? 0)). cbv iota.
    pose proof (ext_height s1 s2 He2) as Hh2.
    assert (depth s1 <= 6)%nat by (unfold depth; lia). rewrite Hp1 in Hl2, Hu2.
    specialize (IH (start + 1) pos' ctx1 s2 Hwf2 ltac:(lia)
      ltac:(rewrite Hh2, Hh1; lia) Hn2 Hnz2 Hi2 ltac:(lia)).
    rewrite (range_ref_ext n (start + 1) (contents s2) (contents s)) in IH.
    2:{ intros k Hk. rewrite (ext_contents s1 s2 He2), Hc1 by lia. rewrite decide_False by lia. done. }
    destruct (range_ref n (start + 1) (contents s) cb ctx1) as [[[m b] ctx2]|f]; simpl; [|exact IH].
    destruct IH as (s' & Hs' & Hwf' & Hh' & (u' & Hu') & Hc'). exists s'. split_and!; [done|done|congruence| |].
    { exists (u2 ++ u'). by rewrite Hu2, Hu', app_assoc. }
    intros k Hk. rewrite Hc', (ext_contents s1 s2 He2), Hc1 by done.
    repeat destruct (decide _); (done || lia).
Qed.

Lemma btree_set_range_callback_spec {C} start end_ ptr (cb : option (callback C)) ctx s :
  btree_wf s -> 0 <= start < end_ -> end_ < capacity 6 ->
  (12 + Z.to_nat (end_ - start) * 6 < length (pool s))%nat ->
  match range_ref (Z.to_nat (end_ - start)) start (contents s) cb ctx with
  | Fault f => btree_set_range_callback start end_ ptr cb ctx s = Fault f
  | Ok (m, b, ctx') => exists s',
      btree_set_range_callback start end_ ptr cb ctx s = Ok ((if b then -1 else 0, ctx'), s') /\
      btree_wf s' /\ end_ < capacity (bt_height s') /\ bt_height s <= bt_height s' /\
      (exists used, pool s = used ++ pool s') /\
      forall k, 0 <= k ->
        contents s' k = if decide (start <= k < start + Z.of_nat m) then ptr else contents s k
  end.
Proof.
  intros Hwf Hr Hcap Hp. pose proof (wf_height s Hwf). unfold btree_set_range_callback.
  destruct (Z.geb_spec start end_); [lia|].
  destruct (expand_loop_spec levels s end_ Hwf) as (s1 & He & Hwf1 & Hh1 & Hc1 & (u & Hu & Hl) & Hsame);
    [lia|change levels with 11%nat; lia|lia|].
  mstep He. assert (length (pool s) = length u + length (pool s1))%nat by (by rewrite Hu, length_app).
  destruct (btree_pos_spec s1 start no_pos Hwf1) as (r & pos & s2 & Hpos & Hw); [lia|].
  mstep Hpos. pose proof (wf_height s1 Hwf1).
  assert (depth s1 <= 6)%nat by (unfold depth; lia).
  apply walked_ok in Hw as (-> & Hwf2 & He2 & (u2 & Hu2 & Hl2) & Hn & Hnz & Hi); [|lia].
  simpl (negb _). cbv iota. pose proof (ext_height s1 s2 He2) as Hh2.
  pose proof (set_range_loop_spec (Z.to_nat (end_ - start)) start pos ptr cb ctx s2 Hwf2 ltac:(lia)
    ltac:(rewrite Hh2; lia) Hn Hnz Hi ltac:(lia)) as Hloop.
  rewrite (range_ref_ext _ start (contents s2) (contents s)) in Hloop.
  2:{ intros k Hk. rewrite (ext_contents s1 s2 He2), Hsame by lia. done. }
  destruct (range_ref _ start (contents s) cb ctx) as [[[m b] ctx2]|f]; [|done].
  destruct Hloop as (s' & Hs' & Hwf' & Hh' & (u' & Hu') & Hc'). exists s'. rewrite Hh', Hh2.
  split_and!; try done; [exists (u ++ u2 ++ u'); by rewrite Hu, Hu2, Hu', !app_assoc|]. intros k Hk. rewrite Hc', (ext_contents s1 s2 He2), Hsame by done. done.
Qed.

(** A tree stays well formed when the pool loses nodes to another tree. *)
Lemma btree_wf_pool s used l :
  btree_wf s -> pool s = used ++ l -> btree_wf (mk_btree (bt_root s) (bt_height s) (nodes s) l).
Proof.
  intros [Hh Hr Hn Hc Hp [Hd Hm]] E. constructor; try done. simpl. rewrite E in Hd, Hm.
  apply NoDup_app in Hd as (_ & _ & Hd). split; [done|]. intros p Hl. apply Hm, elem_of_app. by right.
Qed.

(** ** Hints *)

(** A hint is valid when it is unset or points to the cell of its key. *)
Definition hint_ok (s : btree) (h : btree_ptr) : Prop :=
  bp_node h = 0 \/
  (0 <= bp_key h < capacity (bt_height s) /\ bp_node h = desc s (depth s) (bp_key h / 256) /\
   bp_index h = bp_key h mod 256).

Lemma btree_get_ptr_hint_spec s key h :
  btree_wf s -> hint_ok s h -> 0 <= key < capacity (bt_height s) -> (6 < length (pool s))%nat ->
  exists s', btree_get_ptr_hint key h s =
      Ok ((Some (desc s' (depth s') (key / 256), key mod 256),
           mk_ptr (desc s' (depth s') (key / 256)) (key mod 256) key), s') /\
    btree_wf s' /\ ext s s' /\ desc s' (depth s') (key / 256) <> 0.
Proof.
  intros Hwf Hh Hk Hp. pose proof (wf_height s Hwf). unfold btree_get_ptr_hint.
  assert (depth s <= 6)%nat by (unfold depth; lia).
  assert (capacity (bt_height s) < 2 ^ 64).
  { pose proof (capacity_mono (bt_height s) 6). assert (capacity 6 = 2 ^ 56) by done. lia. }
  destruct (Z.eqb_spec (bp_node h) 0) as [Hz|Hnz]; simpl.
  - destruct (btree_pos_spec s key no_pos Hwf Hk) as (r & pos & s' & Hpos & Hw). mstep Hpos.
    apply walked_ok in Hw as (-> & Hwf' & He & _ & Hn & Hnz & Hi); [|lia].
    simpl (negb _). cbv iota. destruct (Z.eqb_spec (bp_node pos) 0); [done|].
    exists s'. rewrite Hi, Hn. split_and!; try done. congruence.
  - destruct Hh as [?|(Hkr & Hn & Hi)]; [done|]. destruct (Z.eqb_spec (bp_key h) key) as [<-|Hne].
    { exists s. destruct h as [hn hi hk]. simpl in *. subst hn hi. split_and!; done. }
    rewrite u64_small by lia. destruct (Z.eqb_spec key (bp_key h + 1)) as [->|].
    + destruct (btree_next_spec s (mk_ptr (bp_node h) (bp_index h) 0) (bp_key h) Hwf)
        as (r & pos & s' & Hpos & Hw); try done; [lia|lia|]. mstep Hpos.
      apply walked_ok in Hw as (-> & Hwf' & He & _ & Hn' & Hnz' & Hi'); [|lia].
      simpl (negb _). cbv iota. destruct (Z.eqb_spec (bp_node pos) 0); [done|].
      exists s'. rewrite Hi', Hn'. split_and!; try done. congruence.
    + destruct (btree_pos_spec s key no_pos Hwf Hk) as (r & pos & s' & Hpos & Hw). mstep Hpos.
      apply walked_ok in Hw as (-> & Hwf' & He & _ & Hn' & Hnz' & Hi'); [|lia].
      simpl (negb _). cbv iota. destruct (Z.eqb_spec (bp_node pos) 0); [done|].
      exists s'. rewrite Hi', Hn'. split_and!; try done. congruence.
Qed.

Lemma btree_create_spec s :
  nodes s = ∅ -> NoDup (pool s) -> 0 ∉ pool s -> pool s <> [] ->
  exists s', btree_create s = Ok (1, s') /\ btree_wf s' /\ bt_height s' = 0 /\
    (exists x, pool s = x :: pool s') /\ forall k, contents s' k = 0.
Proof.
  intros Hn Hnd Hz Hp. destruct (pool s) as [|x l] eqn:Hpool; [done|].
  apply not_elem_of_cons in Hz as [Hxz Hl]. apply NoDup_cons in Hnd as [Hx Hnd].
  unfold btree_create, modify. mstep eq_refl.
  erewrite M_bind_step by (by apply (btree_node_create_root _ x l)). mstep eq_refl. simpl.
  rewrite (proj2 (Z.eqb_neq x 0)) by done. eexists. split; [done|].
  rewrite Hn, insert_empty. split_and!; [|done|by exists x|].
  - split; simpl; [lia|by rewrite lookup_singleton_eq; eexists|by rewrite lookup_singleton_ne| | |].
    + intros a n [<- <-]%lookup_singleton_Some i c. simpl. by rewrite lookup_empty.
    + intros a n [<- <-]%lookup_singleton_Some. split; [simpl; lia|]. by rewrite decide_True.
    + split; [done|]. intros p Hpl. split; [congruence|]. rewrite lookup_singleton_ne; congruence.
  - intros k. unfold contents, ch. simpl. destruct (_ =? 0).
    + by rewrite lookup_singleton_eq.
    + by rewrite lookup_singleton_ne.
Qed.

(** ** [btree_destroy] *)

(** The nodes below [a] (height [h]) in the order in which they are freed. *)
Fixpoint post (s : btree) (h : nat) (a : Z) : list Z :=
  match h with
  | O => [a]
  | S h' => (seqZ 0 256 ≫= fun i => if ch s a i =? 0 then [] else post s h' (ch s a i)) ++ [a]
  end.

Lemma post_self s h a : a ∈ post s h a.
Proof. destruct h; cbn [post]; [by apply list_elem_of_singleton|]. apply elem_of_app. right. by apply list_elem_of_singleton. Qed.

Lemma in_post s h a x :
  x ∈ post s (S h) a <->
  x = a \/ exists i, 0 <= i < 256 /\ ch s a i <> 0 /\ x ∈ post s h (ch s a i).
Proof.
  cbn [post]. rewrite elem_of_app, list_elem_of_singleton, list_elem_of_bind. split.
  - intros [(i & Hx & Hi)|?]; [|by left]. right. exists i. apply elem_of_seqZ in Hi.
    destruct (Z.eqb_spec (ch s a i) 0); [by apply elem_of_nil in Hx|]. split_and!; (done || lia).
  - intros [?|(i & Hi & Hz & Hx)]; [by right|left]. exists i.
    rewrite (proj2 (Z.eqb_neq _ _) Hz), elem_of_seqZ. split; [done|lia].
Qed.

Lemma desc_child s d q i : 0 <= i < 256 -> ch s (desc s d q) i = desc s (S d) (q * 256 + i).
Proof.
  intros Hi. cbn [desc]. replace ((q * 256 + i) / 256) with q by zdm.
  by replace ((q * 256 + i) mod 256) with i by zdm.
Qed.

Lemma post_desc s h d q x :
  btree_wf s -> 0 <= q -> desc s d q <> 0 -> x ∈ post s h (desc s d q) ->
  exists (j : nat) q', (j <= h)%nat /\ x = desc s (d + j) q' /\ q' / 256 ^ Z.of_nat j = q /\ 0 <= q' /\ x <> 0.
Proof.
  intros Hwf. revert d q. induction h as [|h IH]; intros d q Hq Hnz Hx.
  - cbn [post] in Hx. apply list_elem_of_singleton in Hx as ->. exists 0%nat, q.
    rewrite Nat.add_0_r, Z.div_1_r. split_and!; (done || lia).
  - apply in_post in Hx as [->|(i & Hi & Hc & Hx)].
    + exists 0%nat, q. rewrite Nat.add_0_r, Z.div_1_r. split_and!; (done || lia).
    + rewrite desc_child in Hx, Hc by done. destruct (IH (S d) (q * 256 + i) ltac:(lia) Hc Hx) as (j & q' & Hj & -> & Hq' & ? & ?).
      exists (S j), q'. rewrite digit_div_S, Hq' by done.
      split_and!; [lia|by rewrite Nat.add_succ_r|clear -Hi; zdm|done|done].
Qed.

Lemma desc_post s (j : nat) h d q :
  btree_wf s -> 0 <= q -> (j <= h)%nat -> desc s (d + j) q <> 0 ->
  desc s (d + j) q ∈ post s h (desc s d (q / 256 ^ Z.of_nat j)).
Proof.
  intros Hwf. revert h d q. induction j as [|j IH]; intros h d q Hq Hj Hnz.
  - rewrite Nat.add_0_r, Z.div_1_r. apply post_self.
  - destruct h as [|h]; [lia|]. apply in_post. right.
    set (Q := q / 256 ^ Z.of_nat j). rewrite digit_div_S by done. fold Q.
    assert (ch s (desc s d (Q / 256)) (Q mod 256) = desc s (S d) Q) as Hd by done.
    exists (Q mod 256). rewrite Hd. split_and!; [apply Z.mod_pos_bound; lia|apply Z.mod_pos_bound; lia| |].
    + intros E. apply Hnz. rewrite Nat.add_succ_r, <- Nat.add_succ_l.
      apply desc_absent; [done|done|exact E].
    + rewrite Nat.add_succ_r, <- Nat.add_succ_l in *. apply IH; [done|lia|done].
Qed.

(** Every node of the tree lies below the root. *)
Lemma node_post s x n :
  btree_wf s -> nodes s !! x = Some n -> x ∈ post s (depth s) (bt_root s).
Proof.
  intros Hwf Hn.
  assert (exists q, 0 <= q /\ x = desc s (depth s - Z.to_nat (bn_height n)) q) as (q & Hq & Hx).
  { remember (Z.to_nat (bt_height s - bn_height n)) as k eqn:Hk. revert x n Hn Hk.
    induction k as [|k IH]; intros x n Hn Hk; destruct (wf_parent s Hwf _ _ Hn) as [Hle Hp];
      pose proof (wf_height s Hwf).
    - destruct (decide (x = bt_root s)) as [->|].
      + exists 0. split; [lia|]. replace (depth s - _)%nat with 0%nat by (unfold depth; lia). done.
      + destruct Hp as (_ & pn & Hpn & Hph & _). destruct (wf_parent s Hwf _ _ Hpn) as [? _]. lia.
    - destruct (decide (x = bt_root s)) as [->|]; [lia|].
      destruct Hp as (Hb & pn & Hpn & Hph & Hpc).
      destruct (IH _ _ Hpn ltac:(lia)) as (q & Hq & E). exists (q * 256 + bn_branch_index n). split; [lia|].
      destruct (wf_parent s Hwf _ _ Hpn) as [? _].
      replace (depth s - Z.to_nat (bn_height n))%nat
        with (S (depth s - Z.to_nat (bn_height pn))) by (unfold depth; lia).
      rewrite <- desc_child by done. rewrite <- E. by rewrite (ch_node _ _ _ _ Hpn), Hpc. }
  pose proof (node_nz s x n Hwf Hn) as Hnz. rewrite Hx in Hnz |- *.
  set (d := (depth s - Z.to_nat (bn_height n))%nat) in *.
  pose proof (desc_post s d (depth s) 0 q Hwf Hq ltac:(lia) Hnz) as Hin.
  pose proof (desc_range s d q Hwf ltac:(lia) Hq Hnz).
  rewrite Z.div_small in Hin by done. exact Hin.
Qed.

(** The nodes below different children are different. *)
Lemma post_NoDup s h d q :
  btree_wf s -> 0 <= q -> (d + h = depth s)%nat -> desc s d q <> 0 -> NoDup (post s h (desc s d q)).
Proof.
  intros Hwf. revert d q. induction h as [|h IH]; intros d q Hq Hd Hnz; cbn [post].
  { apply NoDup_singleton. }
  assert (forall x i, 0 <= i < 256 -> ch s (desc s d q) i <> 0 -> x ∈ post s h (ch s (desc s d q) i) ->
    exists (j : nat) q', (S d + j <= depth s)%nat /\ x = desc s (S d + j) q' /\
      q' / 256 ^ Z.of_nat j = q * 256 + i /\ x <> 0) as Hin.
  { intros x i Hi Hz Hx. rewrite desc_child in Hx, Hz by done.
    destruct (post_desc s h (S d) (q * 256 + i) x Hwf ltac:(lia) Hz Hx) as (j & q' & ? & ? & ? & _ & ?).
    exists j, q'. split_and!; (done || lia). }
  assert (forall (j1 j2 : nat) q1 q2, (S d + j1 <= depth s)%nat -> (S d + j2 <= depth s)%nat ->
    desc s (S d + j1) q1 <> 0 -> desc s (S d + j1) q1 = desc s (S d + j2) q2 -> j1 = j2 /\ q1 = q2) as Huniq.
  { intros j1 j2 q1 q2 H1 H2 Hz E.
    destruct (desc_node s _ q1 Hwf H1 Hz) as (n1 & Hn1 & Hh1 & _).
    destruct (desc_node s _ q2 Hwf H2 ltac:(congruence)) as (n2 & Hn2 & Hh2 & _).
    rewrite E, Hn2 in Hn1. injection Hn1 as ->. assert (j1 = j2) as <- by lia.
    split; [done|]. by apply (desc_inj s _ q1 q2 Hwf H1 Hz). }
  apply NoDup_app. split_and!; [|intros x Hx%list_elem_of_bind Ha%list_elem_of_singleton|apply NoDup_singleton].
  - apply NoDup_bind; [| |apply NoDup_seqZ].
    + intros i1 i2 x Hi1%elem_of_seqZ Hi2%elem_of_seqZ Hx1 Hx2.
      destruct (Z.eqb_spec (ch s (desc s d q) i1) 0) as [|Hz1]; [by apply elem_of_nil in Hx1|].
      destruct (Z.eqb_spec (ch s (desc s d q) i2) 0) as [|Hz2]; [by apply elem_of_nil in Hx2|].
      destruct (Hin x i1 ltac:(lia) Hz1 Hx1) as (j1 & q1 & ? & E1 & Hq1 & ?).
      destruct (Hin x i2 ltac:(lia) Hz2 Hx2) as (j2 & q2 & ? & E2 & Hq2 & _).
      destruct (Huniq j1 j2 q1 q2) as [-> ->]; [done|done|congruence|congruence|]. lia.
    + intros i Hi%elem_of_seqZ. destruct (Z.eqb_spec (ch s (desc s d q) i) 0) as [|Hz]; [apply NoDup_nil_2|].
      rewrite desc_child in * by (done || lia). apply IH; [lia|lia|done].
  - destruct Hx as (i & Hx & Hi%elem_of_seqZ). subst x.
    destruct (Z.eqb_spec (ch s (desc s d q) i) 0) as [|Hz]; [by apply elem_of_nil in Hx|].
    destruct (Hin _ i ltac:(lia) Hz Hx) as (j & q' & Hle & E & _).
    destruct (desc_node s d q Hwf ltac:(lia) Hnz) as (n1 & Hn1 & Hh1 & _).
    destruct (desc_node s _ q' Hwf Hle ltac:(congruence)) as (n2 & Hn2 & Hh2 & _).
    rewrite E, Hn2 in Hn1. injection Hn1 as ->. lia.
Qed.

(** What freeing the nodes [l] in this order does. *)
Definition freed (l : list Z) (s s' : btree) : Prop :=
  bt_root s' = bt_root s /\ bt_height s' = bt_height s /\ pool s' = reverse l ++ pool s /\
  forall x, nodes s' !! x = if decide (x ∈ l) then None else nodes s !! x.

Lemma freed_app l1 l2 s s1 s2 : freed l1 s s1 -> freed l2 s1 s2 -> freed (l1 ++ l2) s s2.
Proof.
  intros (Hr1 & Hh1 & Hp1 & Hn1) (Hr2 & Hh2 & Hp2 & Hn2). split_and!; [congruence|congruence| |].
  - by rewrite Hp2, Hp1, reverse_app, app_assoc.
  - intros x. rewrite Hn2, Hn1. repeat destruct (decide _) as [?|?]; rewrite elem_of_app in *; tauto.
Qed.

Lemma btree_free_freed a n s : nodes s !! a = Some n ->
  exists s', btree_free a s = Ok (tt, s') /\ freed [a] s s'.
Proof.
  intros Hn. unfold btree_free. rewrite Hn. eexists. split; [done|]. split_and!; try done.
  intros x. simpl. destruct (decide (x ∈ [a])) as [->%list_elem_of_singleton|Hx].
  - apply lookup_delete_eq.
  - apply lookup_delete_ne. intros ->. apply Hx. by apply list_elem_of_singleton.
Qed.

(** [s0] is the tree before the destruction, [s] the state it has reached; the
    nodes still to be freed are as they were. *)
Lemma destroy_children_spec s0 a n0 h (f : Z -> M btree unit) k i s :
  a <> 0 -> nodes s0 !! a = Some n0 ->
  let l := seqZ i (Z.of_nat k) ≫= fun i => if ch s0 a i =? 0 then [] else post s0 h (ch s0 a i) in
  0 <= i -> i + Z.of_nat k <= 256 -> a ∉ l -> NoDup l -> nodes s !! a = Some n0 ->
  (forall x, x ∈ l -> nodes s !! x = nodes s0 !! x) ->
  (forall c s, c <> 0 -> (exists i, 0 <= i < 256 /\ c = ch s0 a i) -> NoDup (post s0 h c) ->
     (forall x, x ∈ post s0 h c -> nodes s !! x = nodes s0 !! x) ->
     exists s', f c s = Ok (tt, s') /\ freed (post s0 h c) s s') ->
  exists s', destroy_children f k a i s = Ok (tt, s') /\ freed l s s'.
Proof.
  intros Ha H0 l. subst l. revert i s. induction k as [|k IH]; intros i s Hi Hk Hal Hnd Hn Hsame Hf.
  { exists s. split; [done|]. simpl. split_and!; try done. }
  replace (Z.of_nat (S k)) with (1 + Z.of_nat k) in * by lia.
  rewrite seqZ_app, bind_app in * by lia. change (seqZ i 1) with [i] in *.
  cbn [mbind list_bind] in *. rewrite app_nil_r in *.
  apply NoDup_app in Hnd as (Hnd1 & Hdis & Hnd2). apply not_elem_of_app in Hal as [Hal1 Hal2].
  cbn [destroy_children]. mstep (read_node_eq s a n0 Ha Hn).
  mstep (get_child_eq s a n0 i Hn ltac:(lia)).
  assert (ch s a i = ch s0 a i) as -> by (unfold ch; by rewrite Hn, H0).
  assert (exists s1, (if ch s0 a i =? 0 then mret () else f (ch s0 a i)) s = Ok (tt, s1) /\
    freed (if ch s0 a i =? 0 then [] else post s0 h (ch s0 a i)) s s1) as (s1 & Hs1 & Hf1).
  { destruct (Z.eqb_spec (ch s0 a i) 0); [by exists s|]. apply Hf; try done.
    - exists i. split; [lia|done].
    - intros x Hx. apply Hsame, elem_of_app. by left. }
  mstep Hs1. pose proof Hf1 as (_ & _ & _ & Hn1).
  destruct (IH (i + 1) s1) as (s2 & Hs2 & Hf2); try done; try lia.
  - rewrite Hn1, decide_False; done.
  - intros x Hx. rewrite Hn1, decide_False; [|naive_solver]. apply Hsame, elem_of_app. by right.
  - exists s2. split; [done|]. by eapply freed_app.
Qed.

Lemma btree_destroy_node_spec s0 h fuel d q s :
  btree_wf s0 -> 0 <= q -> (d + h = depth s0)%nat -> desc s0 d q <> 0 -> (h < fuel)%nat ->
  (forall x, x ∈ post s0 h (desc s0 d q) -> nodes s !! x = nodes s0 !! x) ->
  exists s', btree_destroy_node fuel (desc s0 d q) s = Ok (tt, s') /\ freed (post s0 h (desc s0 d q)) s s'.
Proof.
  intros Hwf. revert fuel d q s. induction h as [|h IH]; intros fuel d q s Hq Hd Hnz Hf Hsame;
    (destruct fuel as [|fuel]; [lia|]);
    destruct (desc_node s0 d q Hwf ltac:(lia) Hnz) as (n & Hn & Hh & _);
    pose proof (wf_height s0 Hwf); unfold depth in Hd;
    pose proof (Hsame _ (post_self s0 _ _)) as Hns; rewrite Hn in Hns;
    cbn [btree_destroy_node]; mstep (read_node_eq s _ n Hnz Hns).
  - rewrite (proj2 (Z.eqb_eq (bn_height n) 0)) by lia. by apply (btree_free_freed _ n).
  - rewrite (proj2 (Z.eqb_neq (bn_height n) 0)) by lia.
    pose proof (post_NoDup s0 (S h) d q Hwf Hq Hd Hnz) as Hnd. cbn [post] in Hnd, Hsame |- *.
    apply NoDup_app in Hnd as (Hnd & Hdis & _).
    destruct (destroy_children_spec s0 (desc s0 d q) n h (btree_destroy_node fuel)
      (Z.to_nat BRANCH_NUM) 0 s) as (s1 & Hs1 & Hf1); try done.
    + intros Hin. apply (Hdis _ Hin). by apply list_elem_of_singleton.
    + intros x Hx. apply Hsame, elem_of_app. by left.
    + intros c s' Hc (i & Hi & ->) _ Hs'. rewrite desc_child in * by done.
      apply IH; (done || lia || (unfold depth; lia)).
    + mstep Hs1. destruct (btree_free_freed (desc s0 d q) n s1) as (s2 & Hs2 & Hf2).
      { destruct Hf1 as (_ & _ & _ & ->). rewrite decide_False; [done|].
        intros Hin. apply (Hdis _ Hin). by apply list_elem_of_singleton. }
      exists s2. split; [done|]. by eapply freed_app.
Qed.

End btree.

(** ** Properties *)

(** C25: With enough free nodes, [btree_set] stores the pointer: afterwards
    [btree_get] returns it for that block and the old contents for every other
    block of the tree, also when the tree had to grow. *)
Theorem btree_set_correct stray s key v :
  btree_wf s -> 0 <= key < capacity 6 -> (12 < length (pool s))%nat ->
  exists s', btree_set stray key v s = Ok (0, s') /\ btree_wf s' /\ key < capacity (bt_height s') /\
    forall k, 0 <= k < capacity (bt_height s') ->
      btree_get stray k s' = Ok (if decide (k = key) then v else contents s k, s').
Proof.
  intros Hwf Hk Hp. destruct (btree_set_spec stray s key v Hwf Hk Hp) as (s' & Hs & Hwf' & Hc & _ & Hsame).
  exists s'. split_and!; try done. intros k Hr. rewrite btree_get_spec by done. rewrite Hsame by lia. done.
Qed.

(** C24: [btree_set_range_callback] visits the blocks of the range in order and
    hands each old entry to the callback: the cells before the one the callback
    rejects get the new pointer, all others keep their contents, and the return
    value is -1 exactly when the callback rejected one. *)
Theorem btree_set_range_callback_correct stray C start end_ ptr (cb : option (callback C)) ctx s m b ctx' :
  btree_wf s -> 0 <= start < end_ -> end_ < capacity 6 ->
  (12 + Z.to_nat (end_ - start) * 6 < length (pool s))%nat ->
  range_ref (Z.to_nat (end_ - start)) start (contents s) cb ctx = Ok (m, b, ctx') ->
  exists s', btree_set_range_callback stray start end_ ptr cb ctx s = Ok ((if b then -1 else 0, ctx'), s') /\
    btree_wf s' /\ (b = false -> start + Z.of_nat m = end_) /\
    forall k, 0 <= k < capacity (bt_height s') ->
      btree_get stray k s' =
      Ok (if decide (start <= k < start + Z.of_nat m) then ptr else contents s k, s').
Proof.
  intros Hwf Hr Hc Hp Href.
  pose proof (btree_set_range_callback_spec stray start end_ ptr cb ctx s Hwf Hr Hc Hp) as H.
  rewrite Href in H. destruct H as (s' & Hs & Hwf' & _ & _ & _ & Hsame). exists s'. split_and!; try done.
  - intros ->. destruct (range_ref_le _ _ _ _ _ _ _ _ Href) as [_ Hm]. rewrite Hm by done. lia.
  - intros k Hk. rewrite btree_get_spec by done. rewrite Hsame by lia. done.
Qed.

(** C39: Looking a block up through a valid hint gives what [btree_get] gives
    and leaves a valid hint, whether the hint is unset, exact, one block behind
    (when the iterator [btree_next] is used) or unrelated. *)
Theorem btree_get_hint_correct stray s key h :
  btree_wf s -> hint_ok s h -> 0 <= key < capacity (bt_height s) -> (6 < length (pool s))%nat ->
  exists v h' s', btree_get_hint stray key h s = Ok ((v, h'), s') /\ btree_get stray key s = Ok (v, s) /\
    btree_wf s' /\ hint_ok s' h' /\ bp_key h' = key /\ forall k, contents s' k = contents s k.
Proof.
  intros Hwf Hh Hk Hp.
  destruct (btree_get_ptr_hint_spec stray s key h Hwf Hh Hk Hp) as (s' & Hs & Hwf' & He & Hnz).
  exists (contents s key), (mk_ptr (desc s' (depth s') (key / 256)) (key mod 256) key), s'.
  rewrite btree_get_spec by done.
  split_and!; [|done|done|by right; simpl; rewrite (ext_height s s' He)|done|apply (ext_contents s s' He)].
  unfold btree_get_hint. mstep Hs. destruct (leaf_node s' key Hwf' Hnz) as (n & Hn & _).
  mstep (read_node_eq s' _ n Hnz Hn).
  mstep (get_child_eq s' _ n (key mod 256) Hn ltac:(apply Z.mod_pos_bound; lia)).
  rewrite <- (ext_contents s s' He). done.
Qed.

(** [btree_destroy] gives every node of the tree back to the allocator
    exactly once and uses no node after freeing it. *)
Theorem btree_destroy_correct s :
  btree_wf s ->
  exists s' l, btree_destroy s = Ok (tt, s') /\ nodes s' = ∅ /\ pool s' = l ++ pool s /\
    NoDup l /\ forall x, x ∈ l <-> is_Some (nodes s !! x).
Proof.
  intros Hwf. pose proof (wf_height s Hwf). destruct (root_node s Hwf) as (r & Hr & _).
  pose proof (node_nz s _ r Hwf Hr) as Hrz.
  destruct (btree_destroy_node_spec s (depth s) levels 0 0 s Hwf) as (s' & Hs' & Hf); try done.
  { unfold depth. change levels with 11%nat. lia. }
  pose proof (post_NoDup s (depth s) 0 0 Hwf ltac:(lia) ltac:(lia) Hrz) as Hnd.
  destruct Hf as (_ & _ & Hp & Hn). change (desc s 0 0) with (bt_root s) in *.
  assert (forall x, x ∈ post s (depth s) (bt_root s) <-> is_Some (nodes s !! x)) as Hin.
  { intros x. split; [|intros [n ?]; by eapply node_post].
    intros Hx. destruct (post_desc s (depth s) 0 0 x Hwf ltac:(lia) Hrz Hx) as (j & q & Hj & -> & _ & _ & Hz).
    destruct (desc_node s j q Hwf Hj Hz) as (n & Hn' & _). by exists n. }
  exists s', (reverse (post s (depth s) (bt_root s))). split_and!; [done| |done| |].
  - apply map_empty. intros x. rewrite Hn. destruct (decide _) as [|Hx]; [done|].
    rewrite Hin in Hx. by apply eq_None_not_Some.
  - by rewrite reverse_Permutation.
  - intros x. rewrite elem_of_reverse. apply Hin.
Qed.

(** [btree_get] has no range check: for a block beyond the capacity of the
    tree it reads outside the array of children. *)
Theorem btree_get_out_of_range stray s key :
  btree_wf s -> capacity (bt_height s) <= key -> btree_get stray key s = Fault OutOfBounds.
Proof. apply btree_get_oob. Qed.

(** A tree of one leaf with 20 free nodes. *)
Definition example_tree : btree :=
  mk_btree 1 0 {[1 := mk_node 0 0 0 0 ∅]} (seqZ 2 20).

Lemma example_tree_wf : btree_wf example_tree.
Proof.
  split; simpl; [lia|by eexists|done| | |].
  - intros a n [<- <-]%lookup_singleton_Some i c. simpl. by rewrite lookup_empty.
  - intros a n [<- <-]%lookup_singleton_Some. split; [simpl; lia|]. by rewrite decide_True.
  - split; [apply (NoDup_seqZ 2 20)|]. intros p Hp. change (p ∈ seqZ 2 20) in Hp.
    apply elem_of_seqZ in Hp. split; [lia|]. rewrite lookup_singleton_ne; [done|lia].
Qed.

(** [btree_set_range_hint_callbak] keeps the key of the hint while it moves
    its cell, so the hint it leaves for block 0 points to the cell of block 1:
    the next hinted lookup of block 0 returns the entry of block 1. *)
Theorem btree_set_range_hint_wrong_key stray :
  exists hint s1 s2, btree_set_range_hint_callbak (C:=unit) stray 0 2 7 no_pos None tt example_tree
      = Ok ((0, hint, tt), s1) /\
    btree_set stray 1 9 s1 = Ok (0, s2) /\
    btree_get stray 0 s2 = Ok (7, s2) /\
    exists hint' s3, btree_get_hint stray 0 hint s2 = Ok ((9, hint'), s3).
Proof. do 3 eexists. do 3 (split; [by vm_compute|]). do 2 eexists. by vm_compute. Qed.

(** In a tree that was never grown, stepping from block 255 to block 256
    through a hint wraps around to the cell of block 0. *)
Theorem btree_hint_wraps_unexpanded stray :
  btree_get_ptr_hint stray 256 (mk_ptr 1 255 255) example_tree =
  Ok ((Some (1, 0), mk_ptr 1 0 256), example_tree).
Proof. by vm_compute. Qed.

Lemma btree_set_correct_witness :
  exists s', btree_set 0 70000 5 example_tree = Ok (0, s') /\ btree_wf s' /\
    70000 < capacity (bt_height s') /\
    forall k, 0 <= k < capacity (bt_height s') ->
      btree_get 0 k s' = Ok (if decide (k = 70000) then 5 else contents example_tree k, s').
Proof.
  apply (btree_set_correct 0 example_tree 70000 5 example_tree_wf); [by vm_compute|simpl; lia].
Defined.

Lemma btree_set_range_callback_correct_witness :
  exists s', btree_set_range_callback 0 3 4 5 (Some (fun old k n => Ok (0, n + 1))) 0 example_tree
      = Ok ((0, 0), s') /\ btree_wf s' /\
    forall k, 0 <= k < capacity (bt_height s') ->
      btree_get 0 k s' = Ok (if decide (3 <= k < 4) then 5 else contents example_tree k, s').
Proof.
  destruct (btree_set_range_callback_correct 0 Z 3 4 5 (Some (fun old k n => Ok (0, n + 1))) 0
    example_tree 1 false 0 example_tree_wf) as (s' & ? & ? & _ & ?); [lia|by vm_compute|simpl; lia|done|].
  exists s'. by split_and!.
Defined.

Lemma btree_get_hint_correct_witness :
  exists v h' s', btree_get_hint 0 200 (mk_ptr 1 199 199) example_tree = Ok ((v, h'), s') /\
    btree_get 0 200 example_tree = Ok (v, example_tree) /\
    btree_wf s' /\ hint_ok s' h' /\ bp_key h' = 200 /\ forall k, contents s' k = contents example_tree k.
Proof.
  apply (btree_get_hint_correct 0 example_tree 200 (mk_ptr 1 199 199) example_tree_wf).
  - right. by vm_compute.
  - by vm_compute.
  - simpl. lia.
Defined.

Lemma btree_destroy_correct_witness :
  exists s' l, btree_destroy example_tree = Ok (tt, s') /\ nodes s' = ∅ /\
    pool s' = l ++ pool example_tree /\ NoDup l /\
    forall x, x ∈ l <-> is_Some (nodes example_tree !! x).
Proof. apply (btree_destroy_correct example_tree example_tree_wf). Defined.

Lemma btree_get_out_of_range_witness : btree_get 0 256 example_tree = Fault OutOfBounds.
Proof. apply (btree_get_out_of_range 0 example_tree 256 example_tree_wf). by vm_compute. Defined.
