(* ===== verification/Rbtree.v ===== *)
(** * Red-black trees (src/slotfs/rbtree.c, rbtree.h, rbtree_augmented.h)

    The intrusive red-black tree that indexes the entries of a directory, on
    the level of its pointers: a node is the packed parent/colour word and the
    two child pointers, the store maps addresses to nodes, and an operation is
    a computation over the store and the root pointer of one tree.  The callers
    use the non-augmented entry points, whose callbacks do nothing.

    Correctness is stated through the tree that the pointers represent: the
    in-order sequence of the nodes, the colour rule and the black height. *)
From stdpp Require Import base numbers list gmap sorting.
From Stdlib Require Import Permutation.
From S2P Require Import Prelude.
Local Open Scope Z_scope.

Record rb_node : Type := mk_rb {
  __rb_parent_color : Z;
  rb_right : Z;
  rb_left : Z;
}.

(** A tree ([struct rb_root]) and the store its nodes live in. *)
Record rb_tree : Type := mk_tree {
  root_node : Z;
  rb_nodes : gmap Z rb_node;
}.

Definition RB_RED : Z := 0.
Definition RB_BLACK : Z := 1.

(** ** The packed word *)

Definition __rb_parent (pc : Z) : Z := Z.land pc (Z.lnot 3).
Definition __rb_color (pc : Z) : Z := Z.land pc 1.
Definition __rb_is_black (pc : Z) : bool := negb (__rb_color pc =? 0).
Definition __rb_is_red (pc : Z) : bool := negb (__rb_is_black pc).

(** ** Access to nodes *)

Definition rd (p : Z) : M rb_tree rb_node := fun s =>
  if p =? 0 then Fault NullDeref else
  match rb_nodes s !! p with Some n => Ok (n, s) | None => Fault BadPointer end.

Definition wr (p : Z) (f : rb_node -> rb_node) : M rb_tree unit := fun s =>
  if p =? 0 then Fault NullDeref else
  match rb_nodes s !! p with
  | Some n => Ok (tt, mk_tree (root_node s) (<[p := f n]> (rb_nodes s)))
  | None => Fault BadPointer
  end.

Definition set_pc (p pc : Z) : M rb_tree unit := wr p (fun n => mk_rb pc (rb_right n) (rb_left n)).
Definition set_right (p c : Z) : M rb_tree unit :=
  wr p (fun n => mk_rb (__rb_parent_color n) c (rb_left n)).
Definition set_left (p c : Z) : M rb_tree unit :=
  wr p (fun n => mk_rb (__rb_parent_color n) (rb_right n) c).
Definition set_root (p : Z) : M rb_tree unit := modify (fun s => mk_tree p (rb_nodes s)).

Definition rb_parent (p : Z) : M rb_tree Z := n ← rd p; mret (__rb_parent (__rb_parent_color n)).
Definition rb_is_red (p : Z) : M rb_tree bool := n ← rd p; mret (__rb_is_red (__rb_parent_color n)).
Definition rb_is_black (p : Z) : M rb_tree bool := n ← rd p; mret (__rb_is_black (__rb_parent_color n)).
Definition rb_red_parent (p : Z) : M rb_tree Z := n ← rd p; mret (__rb_parent_color n).

Definition rb_set_parent (rb p : Z) : M rb_tree unit :=
  n ← rd rb;
  set_pc rb (Z.lor (__rb_color (__rb_parent_color n)) p).
Definition rb_set_parent_color (rb p color : Z) : M rb_tree unit := set_pc rb (Z.lor p color).
Definition rb_set_black (rb : Z) : M rb_tree unit :=
  n ← rd rb;
  set_pc rb (Z.lor (__rb_parent_color n) RB_BLACK).

Definition __rb_change_child (old new parent : Z) : M rb_tree unit :=
  if negb (parent =? 0) then
    p ← rd parent;
    if rb_left p =? old then set_left parent new else set_right parent new
  else set_root new.

Definition __rb_rotate_set_parents (old new color : Z) : M rb_tree unit :=
  o ← rd old;
  let parent := __rb_parent (__rb_parent_color o) in
  _ ← set_pc new (__rb_parent_color o);
  _ ← rb_set_parent_color old new color;
  __rb_change_child old new parent.

(** [if (p) m;] *)
Definition when (p : Z) (m : M rb_tree unit) : M rb_tree unit :=
  if p =? 0 then mret tt else m.

(** [p && rb_is_red(p)] and [!p || rb_is_black(p)]. *)
Definition nonnull_red (p : Z) : M rb_tree bool := if p =? 0 then mret false else rb_is_red p.
Definition null_or_black (p : Z) : M rb_tree bool := if p =? 0 then mret true else rb_is_black p.

(** ** Insertion *)

(** A [struct rb_node **]: the root pointer or a child pointer of a node. *)
Inductive rb_link : Type := LRoot | LLeft (p : Z) | LRight (p : Z).

Definition read_link (l : rb_link) : M rb_tree Z :=
  match l with
  | LRoot => gets root_node
  | LLeft p => n ← rd p; mret (rb_left n)
  | LRight p => n ← rd p; mret (rb_right n)
  end.

Definition write_link (l : rb_link) (v : Z) : M rb_tree unit :=
  match l with
  | LRoot => set_root v
  | LLeft p => set_left p v
  | LRight p => set_right p v
  end.

(** The node's memory becomes part of the store when it is linked. *)
Definition rb_link_node (node parent : Z) (l : rb_link) : M rb_tree unit :=
  if node =? 0 then throw NullDeref else
  _ ← modify (fun s => mk_tree (root_node s) (<[node := mk_rb parent 0 0]> (rb_nodes s)));
  write_link l node.

Fixpoint insert_loop (fuel : nat) (node parent : Z) : M rb_tree unit :=
  match fuel with
  | O => throw OutOfFuel
  | S fuel' =>
      if parent =? 0 then rb_set_parent_color node 0 RB_BLACK else
      black ← rb_is_black parent;
      if (black : bool) then mret tt else
      gparent ← rb_red_parent parent;
      g ← rd gparent;
      let tmp := rb_right g in
      if negb (parent =? tmp) then
        red ← nonnull_red tmp;
        if (red : bool) then
          _ ← rb_set_parent_color tmp gparent RB_BLACK;
          _ ← rb_set_parent_color parent gparent RB_BLACK;
          let node := gparent in
          parent ← rb_parent node;
          _ ← rb_set_parent_color node parent RB_RED;
          insert_loop fuel' node parent
        else
          p ← rd parent;
          let tmp := rb_right p in
          '(parent, tmp) ← (if node =? tmp then
              n ← rd node;
              let tmp := rb_left n in
              _ ← set_right parent tmp;
              _ ← set_left node parent;
              _ ← when tmp (rb_set_parent_color tmp parent RB_BLACK);
              _ ← rb_set_parent_color parent node RB_RED;
              n ← rd node;
              mret (node, rb_right n)
            else mret (parent, tmp));
          _ ← set_left gparent tmp;
          _ ← set_right parent gparent;
          _ ← when tmp (rb_set_parent_color tmp gparent RB_BLACK);
          __rb_rotate_set_parents gparent parent RB_RED
      else
        let tmp := rb_left g in
        red ← nonnull_red tmp;
        if (red : bool) then
          _ ← rb_set_parent_color tmp gparent RB_BLACK;
          _ ← rb_set_parent_color parent gparent RB_BLACK;
          let node := gparent in
          parent ← rb_parent node;
          _ ← rb_set_parent_color node parent RB_RED;
          insert_loop fuel' node parent
        else
          p ← rd parent;
          let tmp := rb_left p in
          '(parent, tmp) ← (if node =? tmp then
              n ← rd node;
              let tmp := rb_right n in
              _ ← set_left parent tmp;
              _ ← set_right node parent;
              _ ← when tmp (rb_set_parent_color tmp parent RB_BLACK);
              _ ← rb_set_parent_color parent node RB_RED;
              n ← rd node;
              mret (node, rb_left n)
            else mret (parent, tmp));
          _ ← set_right gparent tmp;
          _ ← set_left parent gparent;
          _ ← when tmp (rb_set_parent_color tmp gparent RB_BLACK);
          __rb_rotate_set_parents gparent parent RB_RED
  end.

(** No path is longer than the number of nodes in the store. *)
Definition rb_fuel (s : rb_tree) : nat := S (S (size (rb_nodes s))).

Definition __rb_insert (node : Z) : M rb_tree unit :=
  parent ← rb_red_parent node;
  fuel ← gets rb_fuel;
  insert_loop fuel node parent.

Definition rb_insert_color (node : Z) : M rb_tree unit := __rb_insert node.

(** ** Removal *)

(** Case 4 of [____rb_erase_color], for a left and for a right [node]. *)
Definition case4_left (parent sibling tmp1 : Z) : M rb_tree unit :=
  sb ← rd sibling;
  let tmp2 := rb_left sb in
  _ ← set_right parent tmp2;
  _ ← set_left sibling parent;
  _ ← rb_set_parent_color tmp1 sibling RB_BLACK;
  _ ← when tmp2 (rb_set_parent tmp2 parent);
  __rb_rotate_set_parents parent sibling RB_BLACK.

Definition case4_right (parent sibling tmp1 : Z) : M rb_tree unit :=
  sb ← rd sibling;
  let tmp2 := rb_right sb in
  _ ← set_left parent tmp2;
  _ ← set_right sibling parent;
  _ ← rb_set_parent_color tmp1 sibling RB_BLACK;
  _ ← when tmp2 (rb_set_parent tmp2 parent);
  __rb_rotate_set_parents parent sibling RB_BLACK.

(** Cases 2 to 4 of [____rb_erase_color]: [sibling] is black, [cont] is the next
    iteration, with [node] and [parent] one level up. *)
Definition erase_left (cont : Z -> Z -> M rb_tree unit) (parent sibling : Z) : M rb_tree unit :=
  sb ← rd sibling;
  let tmp1 := rb_right sb in
  black1 ← null_or_black tmp1;
  if (black1 : bool) then
    sb ← rd sibling;
    let tmp2 := rb_left sb in
    black2 ← null_or_black tmp2;
    if (black2 : bool) then
      _ ← rb_set_parent_color sibling parent RB_RED;
      pred ← rb_is_red parent;
      if (pred : bool) then rb_set_black parent
      else
        let node := parent in
        parent ← rb_parent node;
        if negb (parent =? 0) then cont node parent else mret tt
    else
      t2 ← rd tmp2;
      let tmp1 := rb_right t2 in
      _ ← set_left sibling tmp1;
      _ ← set_right tmp2 sibling;
      _ ← set_right parent tmp2;
      _ ← when tmp1 (rb_set_parent_color tmp1 sibling RB_BLACK);
      case4_left parent tmp2 sibling
  else case4_left parent sibling tmp1.

Definition erase_right (cont : Z -> Z -> M rb_tree unit) (parent sibling : Z) : M rb_tree unit :=
  sb ← rd sibling;
  let tmp1 := rb_left sb in
  black1 ← null_or_black tmp1;
  if (black1 : bool) then
    sb ← rd sibling;
    let tmp2 := rb_right sb in
    black2 ← null_or_black tmp2;
    if (black2 : bool) then
      _ ← rb_set_parent_color sibling parent RB_RED;
      pred ← rb_is_red parent;
      if (pred : bool) then rb_set_black parent
      else
        let node := parent in
        parent ← rb_parent node;
        if negb (parent =? 0) then cont node parent else mret tt
    else
      t2 ← rd tmp2;
      let tmp1 := rb_left t2 in
      _ ← set_right sibling tmp1;
      _ ← set_left tmp2 sibling;
      _ ← set_left parent tmp2;
      _ ← when tmp1 (rb_set_parent_color tmp1 sibling RB_BLACK);
      case4_right parent tmp2 sibling
  else case4_right parent sibling tmp1.

(** Case 1: a red sibling is rotated above the parent; the new sibling. *)
Definition case1_left (parent sibling : Z) : M rb_tree Z :=
  red ← rb_is_red sibling;
  if (red : bool) then
    sb ← rd sibling;
    let tmp1 := rb_left sb in
    _ ← set_right parent tmp1;
    _ ← set_left sibling parent;
    _ ← rb_set_parent_color tmp1 parent RB_BLACK;
    _ ← __rb_rotate_set_parents parent sibling RB_RED;
    mret tmp1
  else mret sibling.

Definition case1_right (parent sibling : Z) : M rb_tree Z :=
  red ← rb_is_red sibling;
  if (red : bool) then
    sb ← rd sibling;
    let tmp1 := rb_right sb in
    _ ← set_left parent tmp1;
    _ ← set_right sibling parent;
    _ ← rb_set_parent_color tmp1 parent RB_BLACK;
    _ ← __rb_rotate_set_parents parent sibling RB_RED;
    mret tmp1
  else mret sibling.

(** The loop of [____rb_erase_color]. *)
Fixpoint erase_loop (fuel : nat) (node parent : Z) : M rb_tree unit :=
  match fuel with
  | O => throw OutOfFuel
  | S fuel' =>
      p ← rd parent;
      let sibling := rb_right p in
      if negb (node =? sibling) then
        sibling ← case1_left parent sibling;
        erase_left (erase_loop fuel') parent sibling
      else
        let sibling := rb_left p in
        sibling ← case1_right parent sibling;
        erase_right (erase_loop fuel') parent sibling
  end.

Definition ____rb_erase_color (parent : Z) : M rb_tree unit :=
  fuel ← gets rb_fuel;
  erase_loop fuel 0 parent.

(** [do { parent = successor; successor = tmp; tmp = tmp->rb_left; } while (tmp);] *)
Fixpoint leftmost_loop (fuel : nat) (successor tmp : Z) : M rb_tree (Z * Z) :=
  match fuel with
  | O => throw OutOfFuel
  | S fuel' =>
      let parent := successor in
      let successor := tmp in
      t ← rd tmp;
      let tmp := rb_left t in
      if negb (tmp =? 0) then leftmost_loop fuel' successor tmp else mret (parent, successor)
  end.

(** Returns the node to rebalance at, or 0. *)
Definition __rb_erase_augmented (node : Z) : M rb_tree Z :=
  n ← rd node;
  let child := rb_right n in
  let tmp := rb_left n in
  if tmp =? 0 then
    let pc := __rb_parent_color n in
    let parent := __rb_parent pc in
    _ ← __rb_change_child node child parent;
    if negb (child =? 0) then
      _ ← set_pc child pc;
      mret 0
    else mret (if __rb_is_black pc then parent else 0)
  else if child =? 0 then
    let pc := __rb_parent_color n in
    _ ← set_pc tmp pc;
    let parent := __rb_parent pc in
    _ ← __rb_change_child node tmp parent;
    mret 0
  else
    ch ← rd child;
    let tmp := rb_left ch in
    '(parent, successor, child2) ← (if tmp =? 0 then
        mret (child, child, rb_right ch)
      else
        fuel ← gets rb_fuel;
        '(parent, successor) ← leftmost_loop fuel child tmp;
        sc ← rd successor;
        let child2 := rb_right sc in
        _ ← set_left parent child2;
        _ ← set_right successor child;
        _ ← rb_set_parent child successor;
        mret (parent, successor, child2));
    n ← rd node;
    let tmp := rb_left n in
    _ ← set_left successor tmp;
    _ ← rb_set_parent tmp successor;
    n ← rd node;
    let pc := __rb_parent_color n in
    let tmp := __rb_parent pc in
    _ ← __rb_change_child node successor tmp;
    if negb (child2 =? 0) then
      _ ← set_pc successor pc;
      _ ← rb_set_parent_color child2 parent RB_BLACK;
      mret 0
    else
      sc ← rd successor;
      let pc2 := __rb_parent_color sc in
      _ ← set_pc successor pc;
      mret (if __rb_is_black pc2 then parent else 0).

Definition rb_erase (node : Z) : M rb_tree unit :=
  rebalance ← __rb_erase_augmented node;
  if negb (rebalance =? 0) then ____rb_erase_color rebalance else mret tt.

(** ** Traversal *)

(** [while (n->rb_left) n = n->rb_left;] and its mirror image. *)
Fixpoint left_loop (fuel : nat) (n : Z) : M rb_tree Z :=
  match fuel with
  | O => throw OutOfFuel
  | S fuel' => nd ← rd n; if negb (rb_left nd =? 0) then left_loop fuel' (rb_left nd) else mret n
  end.
Fixpoint right_loop (fuel : nat) (n : Z) : M rb_tree Z :=
  match fuel with
  | O => throw OutOfFuel
  | S fuel' => nd ← rd n; if negb (rb_right nd =? 0) then right_loop fuel' (rb_right nd) else mret n
  end.

Definition rb_first : M rb_tree Z :=
  n ← gets root_node;
  if n =? 0 then mret 0 else
  fuel ← gets rb_fuel;
  left_loop fuel n.

Definition rb_last : M rb_tree Z :=
  n ← gets root_node;
  if n =? 0 then mret 0 else
  fuel ← gets rb_fuel;
  right_loop fuel n.

(** [while ((parent = rb_parent(node)) && node == parent->rb_right) node = parent;] *)
Fixpoint up_right_loop (fuel : nat) (node : Z) : M rb_tree Z :=
  match fuel with
  | O => throw OutOfFuel
  | S fuel' =>
      parent ← rb_parent node;
      if parent =? 0 then mret parent else
      p ← rd parent;
      if node =? rb_right p then up_right_loop fuel' parent else mret parent
  end.
Fixpoint up_left_loop (fuel : nat) (node : Z) : M rb_tree Z :=
  match fuel with
  | O => throw OutOfFuel
  | S fuel' =>
      parent ← rb_parent node;
      if parent =? 0 then mret parent else
      p ← rd parent;
      if node =? rb_left p then up_left_loop fuel' parent else mret parent
  end.

Definition rb_next (node : Z) : M rb_tree Z :=
  n ← rd node;
  if __rb_parent_color n =? node then mret 0 else
  fuel ← gets rb_fuel;
  if negb (rb_right n =? 0) then left_loop fuel (rb_right n)
  else up_right_loop fuel node.

Definition rb_prev (node : Z) : M rb_tree Z :=
  n ← rd node;
  if __rb_parent_color n =? node then mret 0 else
  fuel ← gets rb_fuel;
  if negb (rb_left n =? 0) then right_loop fuel (rb_left n)
  else up_left_loop fuel node.

Definition rb_replace_node (victim new : Z) : M rb_tree unit :=
  v ← rd victim;
  let parent := __rb_parent (__rb_parent_color v) in
  _ ← __rb_change_child victim new parent;
  v ← rd victim;
  _ ← when (rb_left v) (rb_set_parent (rb_left v) new);
  v ← rd victim;
  _ ← when (rb_right v) (rb_set_parent (rb_right v) new);
  v ← rd victim;
  if new =? 0 then throw NullDeref else
  modify (fun s => mk_tree (root_node s) (<[new := v]> (rb_nodes s))).

Fixpoint rb_left_deepest_node (fuel : nat) (node : Z) : M rb_tree Z :=
  match fuel with
  | O => throw OutOfFuel
  | S fuel' =>
      n ← rd node;
      if negb (rb_left n =? 0) then rb_left_deepest_node fuel' (rb_left n)
      else if negb (rb_right n =? 0) then rb_left_deepest_node fuel' (rb_right n)
      else mret node
  end.

Definition rb_next_postorder (node : Z) : M rb_tree Z :=
  if node =? 0 then mret 0 else
  parent ← rb_parent node;
  if parent =? 0 then mret parent else
  p ← rd parent;
  if (node =? rb_left p) && negb (rb_right p =? 0) then
    fuel ← gets rb_fuel;
    rb_left_deepest_node fuel (rb_right p)
  else mret parent.

Definition rb_first_postorder : M rb_tree Z :=
  n ← gets root_node;
  if n =? 0 then mret 0 else
  fuel ← gets rb_fuel;
  rb_left_deepest_node fuel n.

(** ** The tree the pointers represent *)

Inductive color : Type := Red | Black.
Definition colz (c : color) : Z := match c with Red => RB_RED | Black => RB_BLACK end.

Inductive tree : Type :=
| Leaf
| Node (c : color) (l : tree) (a : Z) (r : tree).

#[export] Instance color_eq_dec : EqDecision color.
Proof. solve_decision. Defined.
#[export] Instance tree_eq_dec : EqDecision tree.
Proof. solve_decision. Defined.

(** A path to the root: the hole is the left (right) child of [a]. *)
Inductive frame : Type :=
| FL (c : color) (a : Z) (r : tree)
| FR (c : color) (l : tree) (a : Z).

Definition ptr (t : tree) : Z := match t with Leaf => 0 | Node _ _ a _ => a end.
Definition kptr (k : list frame) : Z :=
  match k with [] => 0 | FL _ a _ :: _ => a | FR _ _ a :: _ => a end.

Definition fill (f : frame) (t : tree) : tree :=
  match f with FL c a r => Node c t a r | FR c l a => Node c l a t end.
Fixpoint plug (k : list frame) (t : tree) : tree :=
  match k with [] => t | f :: k' => plug k' (fill f t) end.

Fixpoint addrs (t : tree) : list Z :=
  match t with Leaf => [] | Node _ l a r => a :: addrs l ++ addrs r end.
Fixpoint kaddrs (k : list frame) : list Z :=
  match k with
  | [] => []
  | FL _ a r :: k' => a :: addrs r ++ kaddrs k'
  | FR _ l a :: k' => a :: addrs l ++ kaddrs k'
  end.

Fixpoint inorder (t : tree) : list Z :=
  match t with Leaf => [] | Node _ l a r => inorder l ++ a :: inorder r end.

(** Addresses leave the two low bits for the colour. *)
Definition aligned (a : Z) : Prop := 0 < a /\ a mod 4 = 0.

Fixpoint rep (m : gmap Z rb_node) (par : Z) (t : tree) : Prop :=
  match t with
  | Leaf => True
  | Node c l a r =>
      aligned a /\ m !! a = Some (mk_rb (par + colz c) (ptr r) (ptr l)) /\ rep m a l /\ rep m a r
  end.

Fixpoint krep (m : gmap Z rb_node) (root : Z) (k : list frame) (p : Z) : Prop :=
  match k with
  | [] => root = p
  | FL c a r :: k' =>
      aligned a /\ m !! a = Some (mk_rb (kptr k' + colz c) (ptr r) p) /\ rep m a r /\ krep m root k' a
  | FR c l a :: k' =>
      aligned a /\ m !! a = Some (mk_rb (kptr k' + colz c) p (ptr l)) /\ rep m a l /\ krep m root k' a
  end.

(** The store represents [plug k t], seen from the position [k]. *)
Definition at_pos (s : rb_tree) (k : list frame) (t : tree) : Prop :=
  rep (rb_nodes s) (kptr k) t /\ krep (rb_nodes s) (root_node s) k (ptr t) /\
  NoDup (addrs t ++ kaddrs k).

(** The colour rule and the black height. *)
Definition black_root (t : tree) : Prop := match t with Node Red _ _ _ => False | _ => True end.

Fixpoint balanced (t : tree) (n : nat) : Prop :=
  match t with
  | Leaf => n = O
  | Node Red l _ r => balanced l n /\ balanced r n /\ black_root l /\ black_root r
  | Node Black l _ r => match n with O => False | S n' => balanced l n' /\ balanced r n' end
  end.

(** A path into which a tree of black height [n] fits; [red] says that its
    root may be red. *)
Fixpoint kbalanced (k : list frame) (n : nat) (red : bool) : Prop :=
  match k with
  | [] => red = false
  | (FL Red _ s | FR Red s _) :: k' =>
      red = false /\ balanced s n /\ black_root s /\ kbalanced k' n true
  | (FL Black _ s | FR Black s _) :: k' => balanced s n /\ kbalanced k' (S n) false
  end.

(** ** Lemmas on the packed word *)

Definition aligned0 (a : Z) : Prop := 0 <= a /\ a mod 4 = 0.

Lemma aligned_aligned0 a : aligned a -> aligned0 a.
Proof. intros [? ?]. split; [lia|done]. Qed.
Lemma aligned0_0 : aligned0 0.
Proof. done. Qed.
Lemma aligned_nz a : aligned a -> a <> 0.
Proof. intros [? _]. lia. Qed.

(** An aligned address is 0 or ends in two zero bits. *)
Lemma aligned0_inv p : aligned0 p -> p = 0 \/ exists q, p = Z.pos q~0~0.
Proof.
  intros [Hp Hm]. destruct p as [|[q|[q|q|]|]|]; [by left| | |by right; exists q| | |lia];
    exfalso; first [discriminate Hm | rewrite (Pos2Z.inj_xI q) in Hm; zdm
      | rewrite (Pos2Z.inj_xO (q~1)), (Pos2Z.inj_xI q) in Hm; zdm].
Qed.

Lemma lor_color p c : aligned0 p -> Z.lor p (colz c) = p + colz c.
Proof. intros [->|[q ->]]%aligned0_inv; by destruct c. Qed.
Lemma lor_red p : aligned0 p -> Z.lor p RB_RED = p + colz Red.
Proof. apply (lor_color p Red). Qed.
Lemma lor_black p : aligned0 p -> Z.lor p RB_BLACK = p + colz Black.
Proof. apply (lor_color p Black). Qed.
Lemma rb_parent_pc p c : aligned0 p -> __rb_parent (p + colz c) = p.
Proof. intros [->|[q ->]]%aligned0_inv; by destruct c. Qed.
Lemma rb_black_pc p c : aligned0 p ->
  __rb_is_black (p + colz c) = match c with Red => false | Black => true end.
Proof. intros [->|[q ->]]%aligned0_inv; by destruct c. Qed.
Lemma rb_red_pc p c : aligned0 p ->
  __rb_is_red (p + colz c) = match c with Red => true | Black => false end.
Proof. intros Hp. unfold __rb_is_red. rewrite rb_black_pc by done. by destruct c. Qed.
Lemma color_lor p c q : aligned0 p -> aligned0 q -> Z.lor (__rb_color (p + colz c)) q = q + colz c.
Proof. intros [->|[a ->]]%aligned0_inv [->|[b ->]]%aligned0_inv; by destruct c. Qed.
Lemma set_black_pc p c : aligned0 p -> Z.lor (p + colz c) RB_BLACK = p + colz Black.
Proof. intros [->|[q ->]]%aligned0_inv; by destruct c. Qed.

#[export] Hint Resolve aligned_aligned0 aligned0_0 aligned_nz : slotfs.

(** ** Paths *)

Fixpoint kl (k : list frame) : list Z :=
  match k with
  | [] => []
  | FL _ _ _ :: k' => kl k'
  | FR _ l a :: k' => kl k' ++ inorder l ++ [a]
  end.
Fixpoint kr (k : list frame) : list Z :=
  match k with
  | [] => []
  | FL _ a r :: k' => a :: inorder r ++ kr k'
  | FR _ _ _ :: k' => kr k'
  end.

Lemma inorder_plug k t : inorder (plug k t) = kl k ++ inorder t ++ kr k.
Proof.
  revert t. induction k as [|[c a r|c l a] k IH]; intros t; simpl; [by rewrite app_nil_r|..];
    rewrite IH; simpl; rewrite <- !app_assoc; simpl; by rewrite <- ?app_assoc.
Qed.

Lemma addrs_plug k t : addrs (plug k t) ≡ₚ addrs t ++ kaddrs k.
Proof.
  revert t. induction k as [|[c a r|c l a] k IH]; intros t; simpl; [by rewrite app_nil_r|..];
    rewrite IH; simpl; solve_Permutation.
Qed.

Lemma rep_ext m m' par t :
  (forall a, a ∈ addrs t -> m' !! a = m !! a) -> rep m par t -> rep m' par t.
Proof.
  revert par. induction t as [|c l IHl a r IHr]; intros par He; simpl in *; [done|].
  intros (Ha & Hm & Hl & Hr). split_and!; [done|rewrite He; [done|apply elem_of_cons; by left]|..].
  - apply IHl; [|done]. intros x Hx. apply He, elem_of_cons. right. apply elem_of_app. by left.
  - apply IHr; [|done]. intros x Hx. apply He, elem_of_cons. right. apply elem_of_app. by right.
Qed.

Lemma krep_ext m m' root k p :
  (forall a, a ∈ kaddrs k -> m' !! a = m !! a) -> krep m root k p -> krep m' root k p.
Proof.
  revert p. induction k as [|[c a t|c t a] k IH]; intros p He; simpl in *; [done|..];
    (intros (Ha & Hm & Ht & Hk); split_and!;
      [done|rewrite He; [done|apply elem_of_cons; by left]| |]).
  all: first [eapply rep_ext; [|exact Ht]|eapply IH; [|exact Hk]]; intros x Hx; apply He, elem_of_cons;
    right; apply elem_of_app; auto.
Qed.

Lemma rep_insert m par t a n : a ∉ addrs t -> rep m par t -> rep (<[a := n]> m) par t.
Proof. intros Ha. apply rep_ext. intros x Hx. apply lookup_insert_ne. by intros ->. Qed.
Lemma krep_insert m root k p a n : a ∉ kaddrs k -> krep m root k p -> krep (<[a := n]> m) root k p.
Proof. intros Ha. apply krep_ext. intros x Hx. apply lookup_insert_ne. by intros ->. Qed.

Lemma kptr_aligned m root k p : krep m root k p -> aligned0 (kptr k).
Proof. destruct k as [|[c a t|c t a] k]; simpl; [done|..]; intros [? _]; auto with slotfs. Qed.

Lemma kptr_in k : kptr k = 0 \/ kptr k ∈ kaddrs k.
Proof. destruct k as [|[c a t|c t a] k]; simpl; [by left|..]; right; apply elem_of_cons; by left. Qed.

Lemma ptr_in t : ptr t = 0 \/ ptr t ∈ addrs t.
Proof. destruct t; simpl; [by left|]. right. apply elem_of_cons. by left. Qed.

(** The position [k] with the tree [t] is the position [f :: k] one step up. *)
Lemma at_pos_up s f k t : at_pos s (f :: k) t <-> at_pos s k (fill f t).
Proof.
  unfold at_pos. destruct f as [c a r|c l a]; simpl.
  - assert (addrs t ++ a :: addrs r ++ kaddrs k ≡ₚ a :: (addrs t ++ addrs r) ++ kaddrs k) as ->
      by solve_Permutation. tauto.
  - assert (addrs t ++ a :: addrs l ++ kaddrs k ≡ₚ a :: (addrs l ++ addrs t) ++ kaddrs k) as ->
      by solve_Permutation. tauto.
Qed.

Lemma at_pos_plug s k t : at_pos s k t <-> at_pos s [] (plug k t).
Proof. revert t. induction k as [|f k IH]; intros t; simpl; [done|]. by rewrite at_pos_up, IH. Qed.

Lemma balanced_plug k t n red :
  kbalanced k n red -> balanced t n -> (red = false -> black_root t) ->
  exists N, balanced (plug k t) N /\ black_root (plug k t).
Proof.
  revert t n red. induction k as [|f k IH]; intros t n red Hk Ht Hr; simpl in *.
  - exists n. auto.
  - destruct f as [[] a s|[] s a]; simpl in *; destruct_and!.
    + eapply IH; [done| |done]. simpl. auto.
    + eapply IH; [done| |done]. simpl. auto.
    + eapply IH; [done| |done]. simpl. auto.
    + eapply IH; [done| |done]. simpl. auto.
Qed.

(** ** Running the primitives *)

Lemma rd_eq s p n : p <> 0 -> rb_nodes s !! p = Some n -> rd p s = Ok (n, s).
Proof. intros Hp Hn. unfold rd. rewrite Hn. zb; done. Qed.
Lemma wr_eq s p f n : p <> 0 -> rb_nodes s !! p = Some n ->
  wr p f s = Ok (tt, mk_tree (root_node s) (<[p := f n]> (rb_nodes s))).
Proof. intros Hp Hn. unfold wr. rewrite Hn. zb; done. Qed.

(** Changing the child pointer above a position. *)
Lemma change_child_spec s k old new :
  krep (rb_nodes s) (root_node s) k old -> NoDup (kaddrs k) -> old <> 0 -> old ∉ kaddrs k ->
  exists s', __rb_change_child old new (kptr k) s = Ok (tt, s') /\
    krep (rb_nodes s') (root_node s') k new /\
    forall a, a ∉ kaddrs k -> rb_nodes s' !! a = rb_nodes s !! a.
Proof.
  intros Hk Hnd Hold Hni. unfold __rb_change_child. destruct k as [|[c a t|c t a] k]; simpl in *.
  - eexists. split; [done|]. done.
  - destruct Hk as (Ha & Hm & Ht & Hk). apply NoDup_cons in Hnd as [Han Hnd].
    rewrite not_elem_of_app in Han. destruct Han as [Han1 Han2]. rewrite (proj2 (Z.eqb_neq a 0)) by auto with slotfs. simpl.
    mstep (rd_eq s a _ ltac:(auto with slotfs) Hm). simpl. rewrite Z.eqb_refl.
    unfold set_left. rewrite (wr_eq s a _ _ ltac:(auto with slotfs) Hm). simpl. eexists. split; [done|]. simpl. split_and!.
    + done.
    + apply lookup_insert_eq.
    + by apply rep_insert.
    + by apply krep_insert.
    + intros x [Hx _]%not_elem_of_cons. by rewrite lookup_insert_ne.
  - destruct Hk as (Ha & Hm & Ht & Hk). apply NoDup_cons in Hnd as [Han Hnd].
    rewrite not_elem_of_app in Han. destruct Han as [Han1 Han2]. rewrite (proj2 (Z.eqb_neq a 0)) by auto with slotfs. simpl.
    mstep (rd_eq s a _ ltac:(auto with slotfs) Hm). simpl.
    rewrite (proj2 (Z.eqb_neq (ptr t) old)).
    2:{ apply not_elem_of_cons in Hni as [_ Hni]. apply not_elem_of_app in Hni as [Hni _].
        destruct (ptr_in t) as [|]; congruence. }
    unfold set_right. rewrite (wr_eq s a _ _ ltac:(auto with slotfs) Hm). simpl. eexists. split; [done|]. simpl. split_and!.
    + done.
    + apply lookup_insert_eq.
    + by apply rep_insert.
    + by apply krep_insert.
    + intros x [Hx _]%not_elem_of_cons. by rewrite lookup_insert_ne.
Qed.

Lemma rotate_set_parents_spec s k old new no nn c c' :
  krep (rb_nodes s) (root_node s) k old -> NoDup (old :: new :: kaddrs k) ->
  aligned old -> aligned new ->
  rb_nodes s !! old = Some no -> rb_nodes s !! new = Some nn ->
  __rb_parent_color no = kptr k + colz c ->
  exists s', __rb_rotate_set_parents old new (colz c') s = Ok (tt, s') /\
    krep (rb_nodes s') (root_node s') k new /\
    rb_nodes s' !! old = Some (mk_rb (new + colz c') (rb_right no) (rb_left no)) /\
    rb_nodes s' !! new = Some (mk_rb (kptr k + colz c) (rb_right nn) (rb_left nn)) /\
    forall a, a <> old -> a <> new -> a ∉ kaddrs k -> rb_nodes s' !! a = rb_nodes s !! a.
Proof.
  intros Hk Hnd Hao Han Ho Hn Hpc. rewrite !NoDup_cons, not_elem_of_cons in Hnd.
  destruct Hnd as ([Hne Hok] & Hnk & Hnd).
  unfold __rb_rotate_set_parents. mstep (rd_eq s old no ltac:(auto with slotfs) Ho).
  rewrite Hpc, rb_parent_pc by (by eapply kptr_aligned). cbv zeta.
  unfold set_pc, rb_set_parent_color. erewrite M_bind_step by (apply wr_eq; [auto with slotfs|done]).
  unfold set_pc. erewrite M_bind_step by
    (apply wr_eq; [auto with slotfs|simpl; rewrite lookup_insert_ne by done; exact Ho]).
  rewrite lor_color by auto with slotfs. simpl.
  destruct (change_child_spec (mk_tree (root_node s)
    (<[old:=mk_rb (new + colz c') (rb_right no) (rb_left no)]>
      (<[new:=mk_rb (kptr k + colz c) (rb_right nn) (rb_left nn)]> (rb_nodes s)))) k old new)
    as (s' & Hs' & Hk' & Hsame); simpl; [|done|auto with slotfs|done|].
  { by repeat apply krep_insert. }
  exists s'. split_and!; [done|done| | |].
  - rewrite Hsame by done.
    apply lookup_insert_eq.
  - rewrite Hsame by done.
    simpl. rewrite lookup_insert_ne by done. apply lookup_insert_eq.
  - intros a H1 H2 H3. rewrite Hsame by done. simpl. by rewrite !lookup_insert_ne.
Qed.

(** [s'] differs from [s] only at the addresses [l]. *)
Definition same_outside (l : list Z) (s s' : rb_tree) : Prop :=
  forall a, a ∉ l -> rb_nodes s' !! a = rb_nodes s !! a.

(** The facts a duplicate-free list of addresses and subtrees gives. *)
Ltac nodup_facts H :=
  rewrite ?NoDup_cons, ?not_elem_of_cons, ?not_elem_of_app in H; destruct_and? H.

Ltac nz := first [assumption | apply aligned_nz; assumption].
Ltac rb_lk := simpl; repeat first [rewrite lookup_insert_eq
  | rewrite lookup_insert_ne by (first [assumption | apply not_eq_sym; assumption | congruence])];
  first [eassumption | reflexivity].
(** One access to a node whose contents are known. *)
Ltac rb_step :=
  cbv zeta; unfold set_left, set_right, rb_set_parent_color, set_pc;
  first [ erewrite M_bind_step by (apply rd_eq; [nz|rb_lk])
        | erewrite M_bind_step by (apply wr_eq; [nz|rb_lk]) ];
  cbn [__rb_parent_color rb_left rb_right rb_nodes root_node].
Ltac rb_frame := repeat first [apply rep_insert; [assumption|] | apply krep_insert; [assumption|]];
  assumption.

Lemma NoDup_tail2 {A} (a b : A) l : NoDup (a :: b :: l) -> NoDup l.
Proof. rewrite !NoDup_cons. tauto. Qed.

Lemma assemble_keep k s s' G P t q :
  same_outside (G :: P :: kaddrs k) s s' -> rep (rb_nodes s) q t ->
  G ∉ addrs t -> P ∉ addrs t -> (forall x, x ∈ addrs t -> x ∉ kaddrs k) -> rep (rb_nodes s') q t.
Proof.
  intros Hs Ht H1 H2 H3. eapply rep_ext; [|exact Ht]. intros x Hx. apply Hs.
  rewrite !not_elem_of_cons. split_and!; [by intros ->|by intros ->|by apply H3].
Qed.

(** A right rotation: [P], the left child of [G], takes its place. *)
Lemma assemble_right k s P G tx tm u c c' pcP :
  rb_nodes s !! G = Some (mk_rb (kptr k + colz c) (ptr u) (ptr tm)) ->
  rb_nodes s !! P = Some (mk_rb pcP G (ptr tx)) ->
  rep (rb_nodes s) P tx -> rep (rb_nodes s) G tm -> rep (rb_nodes s) G u ->
  krep (rb_nodes s) (root_node s) k G -> aligned G -> aligned P ->
  NoDup (G :: P :: addrs tx ++ addrs tm ++ addrs u ++ kaddrs k) ->
  exists s', __rb_rotate_set_parents G P (colz c') s = Ok (tt, s') /\
    at_pos s' k (Node c tx P (Node c' tm G u)) /\ same_outside (G :: P :: kaddrs k) s s'.
Proof.
  intros HG HP Htx Htm Hu Hk HaG HaP Hnd.
  pose proof (NoDup_tail2 _ _ _ Hnd) as Hnd0. pose proof Hnd as Hnd'. nodup_facts Hnd'.
  rewrite !NoDup_app in Hnd0.
  destruct Hnd0 as (? & Hd1 & ? & Hd2 & ? & Hd3 & ?).
  destruct (rotate_set_parents_spec s k G P _ _ c c' Hk ltac:(rewrite !NoDup_cons, not_elem_of_cons; tauto)
    HaG HaP HG HP eq_refl) as (s' & Hs & Hk' & HG' & HP' & Hsame).
  assert (same_outside (G :: P :: kaddrs k) s s') as Hout.
  { intros a Ha. rewrite !not_elem_of_cons in Ha. apply Hsame; tauto. }
  exists s'. split_and!; [done| |done]. split_and!; [|done|].
  - simpl. split_and!; try done; (eapply assemble_keep; try done; intros x Hx;
      (apply Hd1 in Hx || apply Hd2 in Hx || apply Hd3 in Hx); rewrite ?not_elem_of_app in Hx; tauto).
  - eapply NoDup_Permutation_proper; [|exact Hnd]. simpl. solve_Permutation.
Qed.

(** A left rotation: [S], the right child of [P], takes its place. *)
Lemma assemble_left k s P S N mid R c c' pcS :
  rb_nodes s !! P = Some (mk_rb (kptr k + colz c) (ptr mid) (ptr N)) ->
  rb_nodes s !! S = Some (mk_rb pcS (ptr R) P) ->
  rep (rb_nodes s) P N -> rep (rb_nodes s) P mid -> rep (rb_nodes s) S R ->
  krep (rb_nodes s) (root_node s) k P -> aligned P -> aligned S ->
  NoDup (P :: S :: addrs N ++ addrs mid ++ addrs R ++ kaddrs k) ->
  exists s', __rb_rotate_set_parents P S (colz c') s = Ok (tt, s') /\
    at_pos s' k (Node c (Node c' N P mid) S R) /\ same_outside (P :: S :: kaddrs k) s s'.
Proof.
  intros HG HP Htx Htm Hu Hk HaG HaP Hnd.
  pose proof (NoDup_tail2 _ _ _ Hnd) as Hnd0. pose proof Hnd as Hnd'. nodup_facts Hnd'.
  rewrite !NoDup_app in Hnd0.
  destruct Hnd0 as (? & Hd1 & ? & Hd2 & ? & Hd3 & ?).
  destruct (rotate_set_parents_spec s k P S _ _ c c' Hk ltac:(rewrite !NoDup_cons, not_elem_of_cons; tauto)
    HaG HaP HG HP eq_refl) as (s' & Hs & Hk' & HG' & HP' & Hsame).
  assert (same_outside (P :: S :: kaddrs k) s s') as Hout.
  { intros a Ha. rewrite !not_elem_of_cons in Ha. apply Hsame; tauto. }
  exists s'. split_and!; [done| |done]. split_and!; [|done|].
  - simpl. split_and!; try done; (eapply assemble_keep; try done; intros x Hx;
      (apply Hd1 in Hx || apply Hd2 in Hx || apply Hd3 in Hx); rewrite ?not_elem_of_app in Hx; tauto).
  - eapply NoDup_Permutation_proper; [|exact Hnd]. simpl. solve_Permutation.
Qed.

Lemma same_outside_mono l l' s s' : same_outside l s s' -> (forall a, a ∈ l -> a ∈ l') -> same_outside l' s s'.
Proof. intros Hs Hl a Ha. apply Hs. intros H. by apply Ha, Hl. Qed.

Lemma same_outside_trans l s s1 s2 :
  same_outside l s s1 -> same_outside l s1 s2 -> same_outside l s s2.
Proof. intros H1 H2 a Ha. by rewrite H2, H1. Qed.

Lemma same_outside_insert l s root a n :
  a ∈ l -> same_outside l s (mk_tree root (<[a := n]> (rb_nodes s))).
Proof. intros Ha x Hx. simpl. apply lookup_insert_ne. by intros ->. Qed.

(** Finishes a rotation: applies [assemble_right] or [assemble_left] to the
    state before it, finds its premises in that state, and computes which
    addresses were touched. *)
Ltac outside0 :=
  let x := fresh "x" in let Hx := fresh "Hx" in
  intros x Hx; cbn [addrs] in Hx; repeat (rewrite not_elem_of_cons in Hx || rewrite not_elem_of_app in Hx);
  destruct_and? Hx; simpl; rewrite ?lookup_insert_ne by congruence; reflexivity.
Ltac outside Hout :=
  let x := fresh "x" in let Hx := fresh "Hx" in
  intros x Hx; cbn [addrs] in Hx; repeat (rewrite not_elem_of_cons in Hx || rewrite not_elem_of_app in Hx);
  destruct_and? Hx;
  rewrite Hout by (cbn [addrs]; repeat (rewrite not_elem_of_cons || rewrite not_elem_of_app); tauto);
  simpl; rewrite ?lookup_insert_ne by congruence; reflexivity.
Tactic Notation "assemble" uconstr(lem) uconstr(a) uconstr(b) uconstr(t1) uconstr(t2) uconstr(t3)
    uconstr(c1) uconstr(c2) uconstr(pc) :=
  match goal with |- context [__rb_rotate_set_parents _ _ _ ?st] =>
    let Hs := fresh "Hs" in let Hat := fresh "Hat" in let Hout := fresh "Hout" in
    destruct (lem st a b t1 t2 t3 c1 c2 pc) as (s' & Hs & Hat & Hout);
    simpl rb_nodes; simpl root_node; cbn [rep];
    [rb_lk|rb_lk|..|exists s'; split_and!; [exact Hs|exact Hat|outside Hout]]; try done; split_and?;
    try done; try rb_lk; try rb_frame
  end.

(** Case 3 of the insertion, for a parent that is a left child. *)
Lemma insert_rot_right k s G P tx tm u pcP gl :
  rb_nodes s !! G = Some (mk_rb (kptr k + colz Black) (ptr u) gl) ->
  rb_nodes s !! P = Some (mk_rb pcP (ptr tm) (ptr tx)) ->
  rep (rb_nodes s) P tx -> rep (rb_nodes s) P tm -> rep (rb_nodes s) G u ->
  krep (rb_nodes s) (root_node s) k G -> aligned G -> aligned P -> black_root tm ->
  NoDup (G :: P :: addrs tx ++ addrs tm ++ addrs u ++ kaddrs k) ->
  exists s', (_ ← set_left G (ptr tm); _ ← set_right P G;
              _ ← when (ptr tm) (rb_set_parent_color (ptr tm) G RB_BLACK);
              __rb_rotate_set_parents G P RB_RED) s = Ok (tt, s') /\
    at_pos s' k (Node Black tx P (Node Red tm G u)) /\
    same_outside (G :: P :: addrs tm ++ kaddrs k) s s'.
Proof.
  intros HG HP Htx Htm Hu Hk HaG HaP Hb Hnd. destruct tm as [|[] tl b tr]; [|done|].
  - simpl in Hnd. pose proof Hnd as Hnd'. nodup_facts Hnd'. rb_step. rb_step.
    unfold when. simpl (_ =? 0). mstep eq_refl. assemble (assemble_right k) P G tx Leaf u Black Red pcP.
  - assert (NoDup (b :: G :: P :: addrs tl ++ addrs tr ++ addrs tx ++ addrs u ++ kaddrs k)) as Hnd'
      by (eapply NoDup_Permutation_proper; [|exact Hnd]; simpl; solve_Permutation).
    nodup_facts Hnd'. simpl in Htm. destruct Htm as (Hab & Hmb & Htl & Htr).
    cbn [ptr]. rb_step. rb_step. unfold when. rewrite (proj2 (Z.eqb_neq b 0)) by auto with slotfs.
    rb_step. rewrite (lor_black G) by auto with slotfs.
    assemble (assemble_right k) P G tx (Node Black tl b tr) u Black Red pcP.
Qed.

Lemma insert_rot_left k s G P tx tm u pcP gr :
  rb_nodes s !! G = Some (mk_rb (kptr k + colz Black) gr (ptr u)) ->
  rb_nodes s !! P = Some (mk_rb pcP (ptr tx) (ptr tm)) ->
  rep (rb_nodes s) P tx -> rep (rb_nodes s) P tm -> rep (rb_nodes s) G u ->
  krep (rb_nodes s) (root_node s) k G -> aligned G -> aligned P -> black_root tm ->
  NoDup (G :: P :: addrs u ++ addrs tm ++ addrs tx ++ kaddrs k) ->
  exists s', (_ ← set_right G (ptr tm); _ ← set_left P G;
              _ ← when (ptr tm) (rb_set_parent_color (ptr tm) G RB_BLACK);
              __rb_rotate_set_parents G P RB_RED) s = Ok (tt, s') /\
    at_pos s' k (Node Black (Node Red u G tm) P tx) /\
    same_outside (G :: P :: addrs tm ++ kaddrs k) s s'.
Proof.
  intros HG HP Htx Htm Hu Hk HaG HaP Hb Hnd. destruct tm as [|[] tl b tr]; [|done|].
  - simpl in Hnd. pose proof Hnd as Hnd'. nodup_facts Hnd'. rb_step. rb_step.
    unfold when. simpl (_ =? 0). mstep eq_refl. assemble (assemble_left k) G P u Leaf tx Black Red pcP.
  - assert (NoDup (b :: G :: P :: addrs tl ++ addrs tr ++ addrs tx ++ addrs u ++ kaddrs k)) as Hnd'
      by (eapply NoDup_Permutation_proper; [|exact Hnd]; simpl; solve_Permutation).
    nodup_facts Hnd'. simpl in Htm. destruct Htm as (Hab & Hmb & Htl & Htr).
    cbn [ptr]. rb_step. rb_step. unfold when. rewrite (proj2 (Z.eqb_neq b 0)) by auto with slotfs.
    rb_step. rewrite (lor_black G) by auto with slotfs.
    assemble (assemble_left k) G P u (Node Black tl b tr) tx Black Red pcP.
Qed.

(** Case 2 of the insertion: the inner grandchild [x] moves above [p]. *)
Lemma insert_inner_left s p x pl xl xr pcp pcx :
  rb_nodes s !! p = Some (mk_rb pcp x (ptr pl)) -> rb_nodes s !! x = Some (mk_rb pcx (ptr xr) (ptr xl)) ->
  rep (rb_nodes s) p pl -> rep (rb_nodes s) x xl -> rep (rb_nodes s) x xr ->
  aligned p -> aligned x -> black_root xl ->
  NoDup (p :: x :: addrs pl ++ addrs xl ++ addrs xr) ->
  exists s1, (n ← rd x; let tmp := rb_left n in
     _ ← set_right p tmp; _ ← set_left x p; _ ← when tmp (rb_set_parent_color tmp p RB_BLACK);
     _ ← rb_set_parent_color p x RB_RED; n ← rd x; mret (x, rb_right n)) s = Ok ((x, ptr xr), s1) /\
    root_node s1 = root_node s /\ rb_nodes s1 !! x = Some (mk_rb pcx (ptr xr) p) /\
    rep (rb_nodes s1) x (Node Red pl p xl) /\ rep (rb_nodes s1) x xr /\
    same_outside (p :: x :: addrs xl) s s1.
Proof.
  intros Hp Hx Hpl Hxl Hxr Hap Hax Hb Hnd. destruct xl as [|[] tl b tr]; [|done|].
  - simpl in Hnd. nodup_facts Hnd. do 3 rb_step. unfold when. simpl (_ =? 0). mstep eq_refl.
    do 2 rb_step. rewrite (lor_red x) by auto with slotfs.
    eexists. split; [done|]. simpl. split_and!; try done; try rb_lk; try rb_frame.
    outside0.
  - assert (NoDup (b :: p :: x :: addrs tl ++ addrs tr ++ addrs pl ++ addrs xr)) as Hnd'
      by (eapply NoDup_Permutation_proper; [|exact Hnd]; simpl; solve_Permutation).
    nodup_facts Hnd'. simpl in Hxl. destruct Hxl as (Hab & Hmb & Htl & Htr). cbn [ptr] in *.
    do 3 rb_step. unfold when. rewrite (proj2 (Z.eqb_neq b 0)) by auto with slotfs.
    do 3 rb_step. rewrite (lor_red x), (lor_black p) by auto with slotfs.
    eexists. split; [done|]. simpl. split_and!; try done; try rb_lk; try rb_frame.
    outside0.
Qed.

Lemma insert_inner_right s p x pl xl xr pcp pcx :
  rb_nodes s !! p = Some (mk_rb pcp (ptr pl) x) -> rb_nodes s !! x = Some (mk_rb pcx (ptr xl) (ptr xr)) ->
  rep (rb_nodes s) p pl -> rep (rb_nodes s) x xl -> rep (rb_nodes s) x xr ->
  aligned p -> aligned x -> black_root xl ->
  NoDup (p :: x :: addrs pl ++ addrs xl ++ addrs xr) ->
  exists s1, (n ← rd x; let tmp := rb_right n in
     _ ← set_left p tmp; _ ← set_right x p; _ ← when tmp (rb_set_parent_color tmp p RB_BLACK);
     _ ← rb_set_parent_color p x RB_RED; n ← rd x; mret (x, rb_left n)) s = Ok ((x, ptr xr), s1) /\
    root_node s1 = root_node s /\ rb_nodes s1 !! x = Some (mk_rb pcx p (ptr xr)) /\
    rep (rb_nodes s1) x (Node Red xl p pl) /\ rep (rb_nodes s1) x xr /\
    same_outside (p :: x :: addrs xl) s s1.
Proof.
  intros Hp Hx Hpl Hxl Hxr Hap Hax Hb Hnd. destruct xl as [|[] tl b tr]; [|done|].
  - simpl in Hnd. nodup_facts Hnd. do 3 rb_step. unfold when. simpl (_ =? 0). mstep eq_refl.
    do 2 rb_step. rewrite (lor_red x) by auto with slotfs.
    eexists. split; [done|]. simpl. split_and!; try done; try rb_lk; try rb_frame.
    outside0.
  - assert (NoDup (b :: p :: x :: addrs tl ++ addrs tr ++ addrs pl ++ addrs xr)) as Hnd'
      by (eapply NoDup_Permutation_proper; [|exact Hnd]; simpl; solve_Permutation).
    nodup_facts Hnd'. simpl in Hxl. destruct Hxl as (Hab & Hmb & Htl & Htr). cbn [ptr] in *.
    do 3 rb_step. unfold when. rewrite (proj2 (Z.eqb_neq b 0)) by auto with slotfs.
    do 3 rb_step. rewrite (lor_red x), (lor_black p) by auto with slotfs.
    eexists. split; [done|]. simpl. split_and!; try done; try rb_lk; try rb_frame.
    outside0.
Qed.

Lemma nonnull_red_spec s q t : rep (rb_nodes s) q t -> aligned0 q ->
  nonnull_red (ptr t) s = Ok (match t with Node Red _ _ _ => true | _ => false end, s).
Proof.
  destruct t as [|c l a r]; simpl; [done|]. intros (Ha & Hm & _) Hq. unfold nonnull_red.
  rewrite (proj2 (Z.eqb_neq a 0)) by auto with slotfs. unfold rb_is_red.
  mstep (rd_eq s a _ ltac:(auto with slotfs) Hm). simpl. rewrite rb_red_pc by done. done.
Qed.

Lemma nonnull_red_false s q t : rep (rb_nodes s) q t -> aligned0 q -> black_root t ->
  nonnull_red (ptr t) s = Ok (false, s).
Proof. intros Hr Hq Hb. rewrite (nonnull_red_spec s q t Hr Hq). by destruct t as [|[]]. Qed.

Lemma ne_ptr a t : aligned a -> a ∉ addrs t -> (a =? ptr t) = false.
Proof.
  intros Ha Hn. apply Z.eqb_neq. destruct (ptr_in t) as [E|E]; [rewrite E; auto with slotfs|congruence].
Qed.

Lemma null_or_black_spec s q t : rep (rb_nodes s) q t -> aligned0 q ->
  null_or_black (ptr t) s = Ok (match t with Node Red _ _ _ => false | _ => true end, s).
Proof.
  destruct t as [|c l a r]; simpl; [done|]. intros (Ha & Hm & _) Hq. unfold null_or_black.
  rewrite (proj2 (Z.eqb_neq a 0)) by auto with slotfs. unfold rb_is_black.
  mstep (rd_eq s a _ ltac:(auto with slotfs) Hm). simpl. rewrite rb_black_pc by done. by destruct c.
Qed.

Lemma rb_is_black_spec s p q c r l : aligned p -> aligned0 q ->
  rb_nodes s !! p = Some (mk_rb (q + colz c) r l) ->
  rb_is_black p s = Ok (match c with Red => false | Black => true end, s).
Proof.
  intros Hp Hq Hm. unfold rb_is_black. mstep (rd_eq s p _ ltac:(auto with slotfs) Hm).
  simpl. by rewrite rb_black_pc.
Qed.

Lemma rb_is_red_spec s p q c r l : aligned p -> aligned0 q ->
  rb_nodes s !! p = Some (mk_rb (q + colz c) r l) ->
  rb_is_red p s = Ok (match c with Red => true | Black => false end, s).
Proof.
  intros Hp Hq Hm. unfold rb_is_red. mstep (rd_eq s p _ ltac:(auto with slotfs) Hm).
  simpl. by rewrite rb_red_pc.
Qed.

Lemma rb_red_parent_spec s p q r l : aligned p ->
  rb_nodes s !! p = Some (mk_rb (q + colz Red) r l) -> rb_red_parent p s = Ok (q, s).
Proof.
  intros Hp Hm. unfold rb_red_parent. mstep (rd_eq s p _ ltac:(auto with slotfs) Hm).
  simpl. unfold RB_RED. by rewrite Z.add_0_r.
Qed.

(** Case 1 of the insertion: both children of [g] become black and [g] red. *)
Definition flip (tmp parent gparent : Z) (cont : Z -> Z -> M rb_tree unit) : M rb_tree unit :=
  _ ← rb_set_parent_color tmp gparent RB_BLACK;
  _ ← rb_set_parent_color parent gparent RB_BLACK;
  let node := gparent in
  parent ← rb_parent node;
  _ ← rb_set_parent_color node parent RB_RED;
  cont node parent.

Ltac flip_tac Hat :=
  destruct Hat as (Hrep & Hk & Hnd); pose proof (kptr_aligned _ _ _ _ Hk) as Hka; simpl in Hrep, Hk;
  destruct Hrep as (Hg & Hgm & (Ha & Ham & Hal & Har) & (Hb & Hbm & Hbl & Hbr)).

Lemma flip_spec cont k s g al a ar bl b br :
  at_pos s k (Node Black (Node Red al a ar) g (Node Red bl b br)) ->
  (exists s', flip b a g cont s = cont g (kptr k) s' /\
     at_pos s' k (Node Red (Node Black al a ar) g (Node Black bl b br)) /\ same_outside [g; a; b] s s') /\
  (exists s', flip a b g cont s = cont g (kptr k) s' /\
     at_pos s' k (Node Red (Node Black al a ar) g (Node Black bl b br)) /\ same_outside [g; a; b] s s').
Proof.
  intros Hat. flip_tac Hat.
  assert (NoDup (g :: a :: b :: addrs al ++ addrs ar ++ addrs bl ++ addrs br ++ kaddrs k)) as Hnd'
    by (eapply NoDup_Permutation_proper; [|exact Hnd]; simpl; solve_Permutation).
  nodup_facts Hnd'. simpl colz in Hgm.
  assert (forall m, m !! g = Some (mk_rb (kptr k + RB_BLACK) b a) ->
    rb_parent g (mk_tree (root_node s) m) = Ok (kptr k, mk_tree (root_node s) m)) as Hpar.
  { intros m Hm. unfold rb_parent. mstep (rd_eq (mk_tree (root_node s) m) g _ ltac:(auto with slotfs) Hm).
    unfold mret, M_ret. simpl. by rewrite (rb_parent_pc _ Black). }
  split; unfold flip, rb_set_parent_color.
  all: do 2 rb_step; erewrite M_bind_step by (apply Hpar; rb_lk); rb_step;
    rewrite (lor_black g), (lor_red (kptr k)) by auto with slotfs; eexists; (split; [done|]);
    (split; [|outside0]); (split; [|split; [simpl; rb_frame|exact Hnd]]);
    simpl; split_and!; try done; try rb_lk; rb_frame.
Qed.

(** The outcome of rebalancing the tree [plug k t]. *)
Definition rebalanced (s : rb_tree) (k : list frame) (t : tree) (s' : rb_tree) : Prop :=
  exists t', at_pos s' [] t' /\ inorder t' = inorder (plug k t) /\
    (exists N, balanced t' N /\ black_root t') /\ same_outside (addrs t ++ kaddrs k) s s'.

(** It is enough to rebalance below a part of the path. *)
Lemma rebalanced_at s k t k' t' s' n red :
  at_pos s' k' t' -> inorder (plug k' t') = inorder (plug k t) ->
  kbalanced k' n red -> balanced t' n -> (red = false -> black_root t') ->
  same_outside (addrs t ++ kaddrs k) s s' -> rebalanced s k t s'.
Proof.
  intros Hat Hin Hk Hb Hr Hs. exists (plug k' t'). split_and!; [by rewrite <- at_pos_plug|done| |done].
  by eapply balanced_plug.
Qed.

(** The start of an iteration with a red parent and no red uncle. *)
Ltac insert_start Hat x l r p sb g u k :=
  let Hf := fresh "Hf" in
  destruct Hat as (Hrep & Hk & Hnd);
  pose proof (kptr_aligned _ _ _ _ Hk) as Hka; cbn [rep ptr] in Hrep, Hk;
  assert (NoDup (g :: p :: x :: addrs l ++ addrs r ++ addrs sb ++ addrs u ++ kaddrs k)) as Hf
    by (eapply NoDup_Permutation_proper; [|exact Hnd]; simpl; solve_Permutation);
  nodup_facts Hf.

Ltac perm_nodup Hnd := eapply NoDup_Permutation_proper; [|exact Hnd]; simpl; solve_Permutation.

Ltac inorder_tac := rewrite ?inorder_plug; repeat (progress (simpl; rewrite <- ?app_assoc)); reflexivity.

Ltac mem_tac := let a := fresh "a" in
  intros a; simpl; repeat (rewrite elem_of_cons || rewrite elem_of_app || rewrite elem_of_nil); tauto.

Lemma insert_step_ll fuel k s l x r p sb g u n :
  at_pos s k (Node Black (Node Red (Node Red l x r) p sb) g u) ->
  balanced (Node Red l x r) n -> balanced sb n -> black_root sb -> balanced u n -> black_root u ->
  kbalanced k (S n) false ->
  exists s', insert_loop (S fuel) x p s = Ok (tt, s') /\
    rebalanced s k (Node Black (Node Red (Node Red l x r) p sb) g u) s'.
Proof.
  intros Hat Hbx Hbs Hrs Hbu Hru Hbk. insert_start Hat x l r p sb g u k.
  destruct Hrep as (Hg & Hgm & (Hp & Hpm & (Hx & Hxm & Hl & Hr) & Hsb) & Hu).
  cbn [insert_loop]. rewrite (proj2 (Z.eqb_neq p 0)) by auto with slotfs.
  mstep (rb_is_black_spec s p g Red _ _ Hp ltac:(auto with slotfs) Hpm).
  mstep (rb_red_parent_spec s p g _ _ Hp Hpm). rb_step.
  rewrite (ne_ptr p u) by auto with slotfs. cbn [negb].
  mstep (nonnull_red_false s g u Hu ltac:(auto with slotfs) Hru). rb_step.
  rewrite (ne_ptr x sb) by auto with slotfs. mstep eq_refl.
  destruct (insert_rot_right k s g p (Node Red l x r) sb u _ _ Hgm Hpm) as (s' & Hs & Hat' & Hout);
    try done; [perm_nodup Hnd|].
  exists s'. split; [exact Hs|]. eapply rebalanced_at; [exact Hat'| |exact Hbk|simpl in *; tauto|done|].
  - inorder_tac.
  - eapply same_outside_mono; [exact Hout|mem_tac].
Qed.

Lemma insert_step_rr fuel k s l x r p sb g u n :
  at_pos s k (Node Black u g (Node Red sb p (Node Red l x r))) ->
  balanced (Node Red l x r) n -> balanced sb n -> black_root sb -> balanced u n -> black_root u ->
  kbalanced k (S n) false ->
  exists s', insert_loop (S fuel) x p s = Ok (tt, s') /\
    rebalanced s k (Node Black u g (Node Red sb p (Node Red l x r))) s'.
Proof.
  intros Hat Hbx Hbs Hrs Hbu Hru Hbk. insert_start Hat x l r p sb g u k.
  destruct Hrep as (Hg & Hgm & Hu & (Hp & Hpm & Hsb & (Hx & Hxm & Hl & Hr))).
  cbn [insert_loop]. rewrite (proj2 (Z.eqb_neq p 0)) by auto with slotfs.
  mstep (rb_is_black_spec s p g Red _ _ Hp ltac:(auto with slotfs) Hpm).
  mstep (rb_red_parent_spec s p g _ _ Hp Hpm). rb_step. rewrite Z.eqb_refl. cbn [negb].
  mstep (nonnull_red_false s g u Hu ltac:(auto with slotfs) Hru). rb_step.
  rewrite (ne_ptr x sb) by auto with slotfs. mstep eq_refl.
  destruct (insert_rot_left k s g p (Node Red l x r) sb u _ _ Hgm Hpm) as (s' & Hs & Hat' & Hout);
    try done; [perm_nodup Hnd|].
  exists s'. split; [exact Hs|]. eapply rebalanced_at; [exact Hat'| |exact Hbk|simpl in *; tauto|done|].
  - inorder_tac.
  - eapply same_outside_mono; [exact Hout|mem_tac].
Qed.

Lemma rep_outside l s s' q t :
  same_outside l s s' -> (forall a, a ∈ addrs t -> a ∉ l) -> rep (rb_nodes s) q t -> rep (rb_nodes s') q t.
Proof. intros Hs Hl. apply rep_ext. intros a Ha. by apply Hs, Hl. Qed.
Lemma krep_outside l s s' k p :
  same_outside l s s' -> (forall a, a ∈ kaddrs k -> a ∉ l) -> root_node s' = root_node s ->
  krep (rb_nodes s) (root_node s) k p -> krep (rb_nodes s') (root_node s') k p.
Proof. intros Hs Hl ->. apply krep_ext. intros a Ha. by apply Hs, Hl. Qed.

(** Parts of a duplicate-free list. *)
Lemma NoDup_part (l m : list Z) : NoDup (l ++ m) -> NoDup l.
Proof. rewrite NoDup_app. tauto. Qed.
Lemma NoDup_disj (l k m : list Z) : NoDup (l ++ k ++ m) -> forall a, a ∈ l -> a ∉ k.
Proof. rewrite !NoDup_app. intros (_ & H & _) a Ha Hk. apply (H a Ha), elem_of_app. by left. Qed.

Lemma insert_step_lr fuel k s l x r p sb g u n :
  at_pos s k (Node Black (Node Red sb p (Node Red l x r)) g u) ->
  balanced (Node Red l x r) n -> balanced sb n -> black_root sb -> balanced u n -> black_root u ->
  kbalanced k (S n) false ->
  exists s', insert_loop (S fuel) x p s = Ok (tt, s') /\
    rebalanced s k (Node Black (Node Red sb p (Node Red l x r)) g u) s'.
Proof.
  intros Hat Hbx Hbs Hrs Hbu Hru Hbk. insert_start Hat x l r p sb g u k.
  destruct Hrep as (Hg & Hgm & (Hp & Hpm & Hsb & (Hx & Hxm & Hl & Hr)) & Hu).
  cbn [insert_loop]. rewrite (proj2 (Z.eqb_neq p 0)) by auto with slotfs.
  mstep (rb_is_black_spec s p g Red _ _ Hp ltac:(auto with slotfs) Hpm).
  mstep (rb_red_parent_spec s p g _ _ Hp Hpm). rb_step.
  rewrite (ne_ptr p u) by auto with slotfs. cbn [negb].
  mstep (nonnull_red_false s g u Hu ltac:(auto with slotfs) Hru). rb_step.
  rewrite Z.eqb_refl. cbn [balanced] in Hbx. destruct Hbx as (Hbl & Hbr & Hrl & Hrr).
  destruct (insert_inner_left s p x sb l r _ _ Hpm Hxm) as (s1 & Hs1 & Hroot & Hx1 & Hpx & Hr1 & Hout1);
    try done.
  { apply (NoDup_part _ (g :: addrs u ++ kaddrs k)). perm_nodup Hnd. }
  mstep Hs1. assert (rb_nodes s1 !! g = rb_nodes s !! g) as Hg1.
  { apply Hout1. by rewrite !not_elem_of_cons. }
  rewrite Hgm in Hg1.
  destruct (insert_rot_right k s1 g x (Node Red sb p l) r u _ _ Hg1 Hx1) as (s' & Hs & Hat' & Hout);
    try done.
  { eapply rep_outside; [exact Hout1| |exact Hu].
    apply (NoDup_disj _ _ (g :: addrs sb ++ addrs r ++ kaddrs k)). perm_nodup Hnd. }
  { eapply krep_outside; [exact Hout1| |done|exact Hk].
    apply (NoDup_disj _ _ (g :: addrs sb ++ addrs r ++ addrs u)). perm_nodup Hnd. }
  { perm_nodup Hnd. }
  exists s'. split; [exact Hs|].
  eapply rebalanced_at; [exact Hat'| |exact Hbk|simpl in *; tauto|done|].
  - inorder_tac.
  - eapply same_outside_trans; (eapply same_outside_mono; [eassumption|mem_tac]).
Qed.

Lemma insert_step_rl fuel k s l x r p sb g u n :
  at_pos s k (Node Black u g (Node Red (Node Red l x r) p sb)) ->
  balanced (Node Red l x r) n -> balanced sb n -> black_root sb -> balanced u n -> black_root u ->
  kbalanced k (S n) false ->
  exists s', insert_loop (S fuel) x p s = Ok (tt, s') /\
    rebalanced s k (Node Black u g (Node Red (Node Red l x r) p sb)) s'.
Proof.
  intros Hat Hbx Hbs Hrs Hbu Hru Hbk. insert_start Hat x l r p sb g u k.
  destruct Hrep as (Hg & Hgm & Hu & (Hp & Hpm & (Hx & Hxm & Hl & Hr) & Hsb)).
  cbn [insert_loop]. rewrite (proj2 (Z.eqb_neq p 0)) by auto with slotfs.
  mstep (rb_is_black_spec s p g Red _ _ Hp ltac:(auto with slotfs) Hpm).
  mstep (rb_red_parent_spec s p g _ _ Hp Hpm). rb_step. rewrite Z.eqb_refl. cbn [negb].
  mstep (nonnull_red_false s g u Hu ltac:(auto with slotfs) Hru). rb_step.
  rewrite Z.eqb_refl. cbn [balanced] in Hbx. destruct Hbx as (Hbl & Hbr & Hrl & Hrr).
  destruct (insert_inner_right s p x sb r l _ _ Hpm Hxm) as (s1 & Hs1 & Hroot & Hx1 & Hpx & Hr1 & Hout1);
    try done.
  { apply (NoDup_part _ (g :: addrs u ++ kaddrs k)). perm_nodup Hnd. }
  mstep Hs1. assert (rb_nodes s1 !! g = rb_nodes s !! g) as Hg1.
  { apply Hout1. by rewrite !not_elem_of_cons. }
  rewrite Hgm in Hg1.
  destruct (insert_rot_left k s1 g x (Node Red r p sb) l u _ _ Hg1 Hx1) as (s' & Hs & Hat' & Hout);
    try done.
  { eapply rep_outside; [exact Hout1| |exact Hu].
    apply (NoDup_disj _ _ (g :: addrs sb ++ addrs l ++ kaddrs k)). perm_nodup Hnd. }
  { eapply krep_outside; [exact Hout1| |done|exact Hk].
    apply (NoDup_disj _ _ (g :: addrs sb ++ addrs l ++ addrs u)). perm_nodup Hnd. }
  { perm_nodup Hnd. }
  exists s'. split; [exact Hs|].
  eapply rebalanced_at; [exact Hat'| |exact Hbk|simpl in *; tauto|done|].
  - inorder_tac.
  - eapply same_outside_trans; (eapply same_outside_mono; [eassumption|mem_tac]).
Qed.

Lemma rebalanced_up s f k t s' : rebalanced s k (fill f t) s' -> rebalanced s (f :: k) t s'.
Proof.
  intros (t' & Hat & Hin & Hb & Hs). exists t'. split_and!; [done|done|done|].
  eapply same_outside_mono; [exact Hs|]. destruct f; mem_tac.
Qed.

(** A red uncle moves the violation two levels up. *)
Lemma insert_step_flip fuel k s al a ar g bl b br x (left : bool) :
  at_pos s k (Node Black (Node Red al a ar) g (Node Red bl b br)) ->
  exists s', insert_loop (S fuel) x (if left then a else b) s = insert_loop fuel g (kptr k) s' /\
    at_pos s' k (Node Red (Node Black al a ar) g (Node Black bl b br)) /\ same_outside [g; a; b] s s'.
Proof.
  intros Hat. destruct (flip_spec (insert_loop fuel) k s g al a ar bl b br Hat)
    as [(s1 & Hs1 & Hat1 & Ho1) (s2 & Hs2 & Hat2 & Ho2)].
  flip_tac Hat. assert (NoDup (g :: a :: b :: addrs al ++ addrs ar ++ addrs bl ++ addrs br ++ kaddrs k)) as Hnd'
    by perm_nodup Hnd. nodup_facts Hnd'.
  cbn [insert_loop]. destruct left.
  - rewrite (proj2 (Z.eqb_neq a 0)) by auto with slotfs.
    mstep (rb_is_black_spec s a g Red _ _ Ha ltac:(auto with slotfs) Ham).
    mstep (rb_red_parent_spec s a g _ _ Ha Ham). rb_step.
    rewrite (proj2 (Z.eqb_neq a b)) by done. cbn [negb].
    mstep (nonnull_red_spec s g (Node Red bl b br) ltac:(by split_and!) ltac:(auto with slotfs)).
    exists s1. split_and!; [exact Hs1|done|done].
  - rewrite (proj2 (Z.eqb_neq b 0)) by auto with slotfs.
    mstep (rb_is_black_spec s b g Red _ _ Hb ltac:(auto with slotfs) Hbm).
    mstep (rb_red_parent_spec s b g _ _ Hb Hbm). rb_step. rewrite Z.eqb_refl. cbn [negb].
    mstep (nonnull_red_spec s g (Node Red al a ar) ltac:(by split_and!) ltac:(auto with slotfs)).
    exists s2. split_and!; [exact Hs2|done|done].
Qed.

(** One iteration below a red parent [p] (a left or right child of [g]),
    with the rest of the path left to the induction hypothesis [IH]. *)
Lemma insert_red_uncle fuel k s al a ar g bl b br x (left : bool) n :
  (forall k s l x r n, at_pos s k (Node Red l x r) -> balanced (Node Red l x r) n ->
    kbalanced k n false -> (length k < fuel)%nat ->
    exists s', insert_loop fuel x (kptr k) s = Ok (tt, s') /\ rebalanced s k (Node Red l x r) s') ->
  at_pos s k (Node Black (Node Red al a ar) g (Node Red bl b br)) ->
  balanced al n -> balanced ar n -> balanced bl n -> balanced br n ->
  kbalanced k (S n) false -> (length k < fuel)%nat ->
  exists s', insert_loop (S fuel) x (if left then a else b) s = Ok (tt, s') /\
    rebalanced s k (Node Black (Node Red al a ar) g (Node Red bl b br)) s'.
Proof.
  intros IH Hat H1 H2 H3 H4 Hk Hf.
  destruct (insert_step_flip fuel k s al a ar g bl b br x left Hat) as (s1 & -> & Hat1 & Ho1).
  destruct (IH k s1 _ _ _ (S n) Hat1) as (s' & Hs' & t' & Hat' & Hin & Hb & Ho'); try done.
  exists s'. split; [done|]. exists t'. split_and!; [done| |done|].
  - rewrite Hin. inorder_tac.
  - eapply same_outside_trans; (eapply same_outside_mono; [eassumption|mem_tac]).
Qed.

Lemma insert_loop_root fuel s l x r n :
  at_pos s [] (Node Red l x r) -> balanced (Node Red l x r) n ->
  exists s', insert_loop (S fuel) x 0 s = Ok (tt, s') /\ rebalanced s [] (Node Red l x r) s'.
Proof.
  intros ((Hx & Hxm & Hl & Hr) & Hroot & Hnd) Hb. simpl in Hxm, Hnd, Hroot. rewrite app_nil_r in Hnd.
  cbn [insert_loop]. simpl (0 =? 0). unfold rb_set_parent_color, set_pc.
  apply NoDup_cons in Hnd as [Hni Hnd]. rewrite not_elem_of_app in Hni. destruct Hni as [Hni1 Hni2].
  rewrite (wr_eq s x _ _ ltac:(auto with slotfs) Hxm). eexists. split; [done|].
  eapply (rebalanced_at _ _ _ [] (Node Black l x r) _ (S n) false); simpl in *; try tauto; [|outside0].
  split_and!; simpl; [split_and!|done|by rewrite app_nil_r; apply NoDup_cons; rewrite not_elem_of_app].
  - done.
  - by rewrite lookup_insert_eq.
  - by apply rep_insert.
  - by apply rep_insert.
Qed.

Lemma insert_loop_black fuel s f k l x r n :
  at_pos s (f :: k) (Node Red l x r) -> balanced (Node Red l x r) n -> kbalanced (f :: k) n true ->
  exists s', insert_loop (S fuel) x (kptr (f :: k)) s = Ok (tt, s') /\ rebalanced s (f :: k) (Node Red l x r) s'.
Proof.
  intros Hat Hb Hk. exists s. split; [|by eapply rebalanced_at].
  destruct Hat as (_ & Hkr & _). cbn [insert_loop].
  destruct f as [[] p q|[] q p]; simpl in Hk; try (by destruct Hk); simpl in Hkr |- *;
    destruct Hkr as (Hp & Hm & _ & Hkr); apply kptr_aligned in Hkr as Hka;
    rewrite (proj2 (Z.eqb_neq p 0)) by auto with slotfs;
    by mstep (rb_is_black_spec s p _ Black _ _ Hp Hka Hm).
Qed.

Lemma red_dec u : (exists l b r, u = Node Red l b r) \/ black_root u.
Proof. destruct u as [|[] l b r]; [by right|left; by exists l, b, r|by right]. Qed.

Lemma insert_loop_spec fuel k s l x r n :
  at_pos s k (Node Red l x r) -> balanced (Node Red l x r) n -> kbalanced k n false ->
  (length k < fuel)%nat ->
  exists s', insert_loop fuel x (kptr k) s = Ok (tt, s') /\ rebalanced s k (Node Red l x r) s'.
Proof.
  revert k s l x r n. induction fuel as [|fuel IH]; intros k s l x r n Hat Hb Hk Hf; [lia|].
  destruct k as [|f1 k1]; [by eapply insert_loop_root|].
  destruct f1 as [[] p sb|[] sb p]; try (by eapply insert_loop_black); cbn [kbalanced] in Hk;
    destruct Hk as (_ & Hbs & Hrs & Hk);
    (destruct k1 as [|[[] g u|[] u g] k2]; cbn [kbalanced] in Hk; try discriminate; try (by destruct Hk));
    destruct Hk as [Hbu Hk];
    rewrite !at_pos_up in Hat; cbn [fill] in Hat; cbn [kptr]; simpl in Hf.
  - destruct (red_dec u) as [(ul & b & ur & ->)|Hru].
    + destruct (insert_red_uncle fuel k2 s _ p sb g ul b ur x true n IH Hat) as (s' & ? & ?);
        try (simpl in *; tauto || lia). exists s'. split; [done|]. by do 2 apply rebalanced_up.
    + destruct (insert_step_ll fuel k2 s l x r p sb g u n Hat) as (s' & ? & ?); try done.
      exists s'. split; [done|]. by do 2 apply rebalanced_up.
  - destruct (red_dec u) as [(ul & b & ur & ->)|Hru].
    + destruct (insert_red_uncle fuel k2 s ul b ur g _ p sb x false n IH Hat) as (s' & ? & ?);
        try (simpl in *; tauto || lia). exists s'. split; [done|]. by do 2 apply rebalanced_up.
    + destruct (insert_step_rl fuel k2 s l x r p sb g u n Hat) as (s' & ? & ?); try done.
      exists s'. split; [done|]. by do 2 apply rebalanced_up.
  - destruct (red_dec u) as [(ul & b & ur & ->)|Hru].
    + destruct (insert_red_uncle fuel k2 s sb p _ g ul b ur x true n IH Hat) as (s' & ? & ?);
        try (simpl in *; tauto || lia). exists s'. split; [done|]. by do 2 apply rebalanced_up.
    + destruct (insert_step_lr fuel k2 s l x r p sb g u n Hat) as (s' & ? & ?); try done.
      exists s'. split; [done|]. by do 2 apply rebalanced_up.
  - destruct (red_dec u) as [(ul & b & ur & ->)|Hru].
    + destruct (insert_red_uncle fuel k2 s ul b ur g sb p _ x false n IH Hat) as (s' & ? & ?);
        try (simpl in *; tauto || lia). exists s'. split; [done|]. by do 2 apply rebalanced_up.
    + destruct (insert_step_rr fuel k2 s l x r p sb g u n Hat) as (s' & ? & ?); try done.
      exists s'. split; [done|]. by do 2 apply rebalanced_up.
Qed.

(** ** Inserting a node *)

Lemma rep_dom m q t : rep m q t -> forall a, a ∈ addrs t -> is_Some (m !! a).
Proof.
  revert q. induction t as [|c l IHl a r IHr]; intros q; simpl; [by intros _ a ?%elem_of_nil|].
  intros (_ & Hm & Hl & Hr) x. rewrite elem_of_cons, elem_of_app. intros [->|[?|?]]; [by eexists|by eapply IHl|by eapply IHr].
Qed.

Lemma krep_dom m root k p : krep m root k p -> forall a, a ∈ kaddrs k -> is_Some (m !! a).
Proof.
  revert p. induction k as [|[c a t|c t a] k IH]; intros p; simpl; [by intros _ a ?%elem_of_nil|..];
    intros (_ & Hm & Ht & Hk) x; rewrite elem_of_cons, elem_of_app;
    (intros [->|[?|?]]; [by eexists|by eapply rep_dom|by eapply IH]).
Qed.

Lemma kaddrs_length k : (length k <= length (kaddrs k))%nat.
Proof. induction k as [|[c a t|c t a] k IH]; simpl; rewrite ?length_app; lia. Qed.

(** A path is no longer than the number of nodes in the store. *)
Lemma path_length s k t : at_pos s k t -> (length k <= size (rb_nodes s))%nat.
Proof.
  intros (_ & Hk & Hnd). apply NoDup_app in Hnd as (_ & _ & Hnd).
  pose proof (kaddrs_length k). enough (length (kaddrs k) <= size (rb_nodes s))%nat by lia.
  rewrite <- (size_list_to_set (C:=gset Z) (kaddrs k)) by done.
  rewrite <- size_dom. apply subseteq_size. intros a Ha%elem_of_list_to_set.
  apply elem_of_dom. by eapply krep_dom.
Qed.

(** The tree and its invariants. *)
Definition rb_inv (s : rb_tree) (t : tree) : Prop :=
  at_pos s [] t /\ exists N, balanced t N /\ black_root t.

Definition is_red (t : tree) : bool := match t with Node Red _ _ _ => true | _ => false end.

Lemma balanced_plug_inv k t N :
  balanced (plug k t) N -> black_root (plug k t) -> exists n, balanced t n /\ kbalanced k n (is_red t).
Proof.
  revert t. induction k as [|f k IH]; intros t Hb Hr; simpl in *.
  - exists N. split; [done|]. by destruct t as [|[]].
  - destruct (IH _ Hb Hr) as (n & Hbn & Hk). destruct f as [[] a s|[] s a]; simpl in Hbn, Hk |- *.
    + destruct Hbn as (? & ? & ? & ?). exists n. split_and!; try done. by destruct t as [|[]].
    + destruct n as [|n]; [done|]. destruct Hbn. by exists n.
    + destruct Hbn as (? & ? & ? & ?). exists n. split_and!; try done. by destruct t as [|[]].
    + destruct n as [|n]; [done|]. destruct Hbn. by exists n.
Qed.

Lemma kbalanced_weaken k n red : kbalanced k n red -> kbalanced k n false.
Proof. destruct k as [|[[] a s|[] s a] k]; simpl; tauto. Qed.

(** The pointer that holds the hole of a path. *)
Definition klink (k : list frame) : rb_link :=
  match k with [] => LRoot | FL _ a _ :: _ => LLeft a | FR _ _ a :: _ => LRight a end.

Lemma rb_link_node_spec s k x :
  at_pos s k Leaf -> aligned x -> x ∉ kaddrs k ->
  exists s', rb_link_node x (kptr k) (klink k) s = Ok (tt, s') /\ at_pos s' k (Node Red Leaf x Leaf) /\
    same_outside (x :: kaddrs k) s s'.
Proof.
  intros (_ & Hk & Hnd) Hx Hni. simpl in Hnd. unfold rb_link_node, modify.
  rewrite (proj2 (Z.eqb_neq x 0)) by auto with slotfs. mstep eq_refl. simpl in Hk.
  assert (rep (<[x:=mk_rb (kptr k) 0 0]> (rb_nodes s)) (kptr k) (Node Red Leaf x Leaf)) as Hr.
  { simpl. unfold RB_RED. rewrite lookup_insert_eq, Z.add_0_r. done. }
  assert (NoDup (addrs (Node Red Leaf x Leaf) ++ kaddrs k)) as Hnd' by (simpl; by apply NoDup_cons).
  destruct k as [|[c a t|c t a] k]; simpl.
  - eexists. split; [done|]. split; [done|outside0].
  - simpl in Hk, Hnd, Hni. destruct Hk as (Ha & Hm & Ht & Hk). apply not_elem_of_cons in Hni as [Hxa Hni].
    apply not_elem_of_app in Hni as [Hxt Hxk]. nodup_facts Hnd.
    unfold set_left. erewrite wr_eq; [|by auto with slotfs|rb_lk]. eexists. split; [done|]. split; [|outside0].
    split_and!; [|simpl; split_and!; try done; try rb_lk; rb_frame|done].
    apply rep_insert; [|done]. simpl. rewrite elem_of_cons, elem_of_nil. intuition congruence.
  - simpl in Hk, Hnd, Hni. destruct Hk as (Ha & Hm & Ht & Hk). apply not_elem_of_cons in Hni as [Hxa Hni].
    apply not_elem_of_app in Hni as [Hxt Hxk]. nodup_facts Hnd.
    unfold set_right. erewrite wr_eq; [|by auto with slotfs|rb_lk]. eexists. split; [done|]. split; [|outside0].
    split_and!; [|simpl; split_and!; try done; try rb_lk; rb_frame|done].
    apply rep_insert; [|done]. simpl. rewrite elem_of_cons, elem_of_nil. intuition congruence.
Qed.

Lemma rb_insert_spec s k x :
  rb_inv s (plug k Leaf) -> aligned x -> x ∉ kaddrs k ->
  exists s' t', (_ ← rb_link_node x (kptr k) (klink k); rb_insert_color x) s = Ok (tt, s') /\
    rb_inv s' t' /\ inorder t' = kl k ++ x :: kr k /\ same_outside (x :: kaddrs k) s s'.
Proof.
  intros (Hat & N & Hb & Hr) Hx Hni. rewrite <- at_pos_plug in Hat.
  destruct (balanced_plug_inv k Leaf N Hb Hr) as (n & Hbn & Hk). simpl in Hbn. subst n.
  destruct (rb_link_node_spec s k x Hat Hx Hni) as (s1 & Hs1 & Hat1 & Ho1). mstep Hs1.
  pose proof Hat1 as (Hrep & Hk1 & _). cbn [rep ptr] in Hrep. destruct Hrep as (_ & Hxm & _).
  unfold rb_insert_color, __rb_insert, gets. mstep (rb_red_parent_spec s1 x (kptr k) _ _ Hx Hxm). mstep eq_refl.
  destruct (insert_loop_spec (rb_fuel s1) k s1 Leaf x Leaf 0) as (s' & Hs' & t' & Hat' & Hin & Hb' & Ho').
  - done.
  - done.
  - by eapply kbalanced_weaken.
  - pose proof (path_length s1 k _ Hat1). unfold rb_fuel. lia.
  - exists s', t'. split_and!; [done|done|by rewrite Hin, inorder_plug|].
    by eapply same_outside_trans.
Qed.
