(* ===== verification/RbErase.v ===== *)
(** * Red-black trees: correctness of the removal (src/slotfs/rbtree.c)

    The rotations of [____rb_erase_color], its loop, the unlinking of a node by
    [__rb_erase_augmented], and [rb_erase] as a whole. *)
From stdpp Require Import base numbers list gmap sorting.
From Stdlib Require Import Permutation.
From S2P Require Import Prelude Rbtree.
Local Open Scope Z_scope.

(** ** Removal: the rotations *)

Lemma rb_set_parent_eq s b p q c r l :
  aligned b -> rb_nodes s !! b = Some (mk_rb (q + colz c) r l) -> aligned0 q -> aligned0 p ->
  rb_set_parent b p s = Ok (tt, mk_tree (root_node s) (<[b := mk_rb (p + colz c) r l]> (rb_nodes s))).
Proof.
  intros Hb Hm Hq Hp. unfold rb_set_parent. mstep (rd_eq s b _ ltac:(auto with slotfs) Hm).
  unfold set_pc. rewrite (wr_eq s b _ _ ltac:(auto with slotfs) Hm). simpl. by rewrite color_lor.
Qed.

Lemma case4_left_spec k s p S tmp1 t sl rl rr c pr pcS pc1 :
  rb_nodes s !! p = Some (mk_rb (kptr k + colz c) pr (ptr t)) ->
  rb_nodes s !! S = Some (mk_rb pcS tmp1 (ptr sl)) ->
  rb_nodes s !! tmp1 = Some (mk_rb pc1 (ptr rr) (ptr rl)) ->
  rep (rb_nodes s) p t -> rep (rb_nodes s) S sl -> rep (rb_nodes s) tmp1 rl -> rep (rb_nodes s) tmp1 rr ->
  krep (rb_nodes s) (root_node s) k p -> aligned p -> aligned S -> aligned tmp1 ->
  NoDup (p :: S :: tmp1 :: addrs t ++ addrs sl ++ addrs rl ++ addrs rr ++ kaddrs k) ->
  exists s', case4_left p S tmp1 s = Ok (tt, s') /\
    at_pos s' k (Node c (Node Black t p sl) S (Node Black rl tmp1 rr)) /\
    same_outside (p :: S :: tmp1 :: addrs sl ++ kaddrs k) s s'.
Proof.
  intros Hp HS H1 Ht Hsl Hrl Hrr Hk Hap HaS Ha1 Hnd. unfold case4_left.
  destruct sl as [|cs tl b tr].
  - simpl in Hnd. pose proof Hnd as Hnd'. nodup_facts Hnd'. do 4 rb_step.
    unfold when. simpl (_ =? 0). mstep eq_refl. rewrite (lor_black S) by auto with slotfs.
    assemble (assemble_left k) p S t Leaf (Node Black rl tmp1 rr) c Black pcS. perm_nodup Hnd.
  - assert (NoDup (b :: p :: S :: tmp1 :: addrs tl ++ addrs tr ++ addrs t ++ addrs rl ++ addrs rr ++ kaddrs k))
      as Hnd' by perm_nodup Hnd.
    nodup_facts Hnd'. simpl in Hsl. destruct Hsl as (Hab & Hmb & Htl & Htr). cbn [ptr] in *.
    do 4 rb_step. unfold when. rewrite (proj2 (Z.eqb_neq b 0)) by auto with slotfs.
    erewrite M_bind_step by (eapply rb_set_parent_eq; [done|rb_lk|auto with slotfs..]).
    rewrite (lor_black S) by auto with slotfs.
    assemble (assemble_left k) p S t (Node cs tl b tr) (Node Black rl tmp1 rr) c Black pcS.
    perm_nodup Hnd.
Qed.

Lemma case4_right_spec k s p S tmp1 t sl rl rr c pr pcS pc1 :
  rb_nodes s !! p = Some (mk_rb (kptr k + colz c) (ptr t) pr) ->
  rb_nodes s !! S = Some (mk_rb pcS (ptr sl) tmp1) ->
  rb_nodes s !! tmp1 = Some (mk_rb pc1 (ptr rr) (ptr rl)) ->
  rep (rb_nodes s) p t -> rep (rb_nodes s) S sl -> rep (rb_nodes s) tmp1 rl -> rep (rb_nodes s) tmp1 rr ->
  krep (rb_nodes s) (root_node s) k p -> aligned p -> aligned S -> aligned tmp1 ->
  NoDup (p :: S :: tmp1 :: addrs t ++ addrs sl ++ addrs rl ++ addrs rr ++ kaddrs k) ->
  exists s', case4_right p S tmp1 s = Ok (tt, s') /\
    at_pos s' k (Node c (Node Black rl tmp1 rr) S (Node Black sl p t)) /\
    same_outside (p :: S :: tmp1 :: addrs sl ++ kaddrs k) s s'.
Proof.
  intros Hp HS H1 Ht Hsl Hrl Hrr Hk Hap HaS Ha1 Hnd. unfold case4_right.
  destruct sl as [|cs tl b tr].
  - simpl in Hnd. pose proof Hnd as Hnd'. nodup_facts Hnd'. do 4 rb_step.
    unfold when. simpl (_ =? 0). mstep eq_refl. rewrite (lor_black S) by auto with slotfs.
    assemble (assemble_right k) S p (Node Black rl tmp1 rr) Leaf t c Black pcS. perm_nodup Hnd.
  - assert (NoDup (b :: p :: S :: tmp1 :: addrs tl ++ addrs tr ++ addrs t ++ addrs rl ++ addrs rr ++ kaddrs k))
      as Hnd' by perm_nodup Hnd.
    nodup_facts Hnd'. simpl in Hsl. destruct Hsl as (Hab & Hmb & Htl & Htr). cbn [ptr] in *.
    do 4 rb_step. unfold when. rewrite (proj2 (Z.eqb_neq b 0)) by auto with slotfs.
    erewrite M_bind_step by (eapply rb_set_parent_eq; [done|rb_lk|auto with slotfs..]).
    rewrite (lor_black S) by auto with slotfs.
    assemble (assemble_right k) S p (Node Black rl tmp1 rr) (Node cs tl b tr) t c Black pcS.
    perm_nodup Hnd.
Qed.

Lemma case1_left_spec k s p t sl sa sr :
  at_pos s k (Node Black t p (Node Red sl sa sr)) -> black_root sl -> sl <> Leaf ->
  exists s', case1_left p sa s = Ok (ptr sl, s') /\
    at_pos s' k (Node Black (Node Red t p sl) sa sr) /\
    same_outside (p :: sa :: addrs sl ++ kaddrs k) s s'.
Proof.
  intros (Hrep & Hk & Hnd) Hb Hl. destruct sl as [|[] tl b tr]; [done|done|]. clear Hl Hb.
  cbn [rep ptr] in Hrep, Hk. destruct Hrep as (Hp & Hpm & Ht & (Hsa & Hsm & (Hb & Hbm & Htl & Htr) & Hsr)).
  assert (NoDup (b :: p :: sa :: addrs tl ++ addrs tr ++ addrs t ++ addrs sr ++ kaddrs k)) as Hnd'
    by perm_nodup Hnd. nodup_facts Hnd'.
  unfold case1_left. mstep (rb_is_red_spec s sa p Red _ _ Hsa ltac:(auto with slotfs) Hsm).
  do 4 rb_step. rewrite (lor_black p) by auto with slotfs.
  match goal with |- context [(__rb_rotate_set_parents _ _ _ ≫= _) ?st] =>
    destruct (assemble_left k st p sa t (Node Black tl b tr) sr Black Red (p + colz Red)) as (s' & Hs & Hat & Hout) end;
    simpl rb_nodes; simpl root_node; cbn [rep]; try done; split_and?; try done; try rb_lk; try rb_frame.
  { perm_nodup Hnd. }
  mstep Hs. exists s'. split_and!; [done|exact Hat|outside Hout].
Qed.

Lemma case1_right_spec k s p t sl sa sr :
  at_pos s k (Node Black (Node Red sl sa sr) p t) -> black_root sr -> sr <> Leaf ->
  exists s', case1_right p sa s = Ok (ptr sr, s') /\
    at_pos s' k (Node Black sl sa (Node Red sr p t)) /\
    same_outside (p :: sa :: addrs sr ++ kaddrs k) s s'.
Proof.
  intros (Hrep & Hk & Hnd) Hb Hl. destruct sr as [|[] tl b tr]; [done|done|]. clear Hl Hb.
  cbn [rep ptr] in Hrep, Hk. destruct Hrep as (Hp & Hpm & (Hsa & Hsm & Hsl & (Hb & Hbm & Htl & Htr)) & Ht).
  assert (NoDup (b :: p :: sa :: addrs tl ++ addrs tr ++ addrs t ++ addrs sl ++ kaddrs k)) as Hnd'
    by perm_nodup Hnd. nodup_facts Hnd'.
  unfold case1_right. mstep (rb_is_red_spec s sa p Red _ _ Hsa ltac:(auto with slotfs) Hsm).
  do 4 rb_step. rewrite (lor_black p) by auto with slotfs.
  match goal with |- context [(__rb_rotate_set_parents _ _ _ ≫= _) ?st] =>
    destruct (assemble_right k st sa p sl (Node Black tl b tr) t Black Red (p + colz Red)) as (s' & Hs & Hat & Hout) end;
    simpl rb_nodes; simpl root_node; cbn [rep]; try done; split_and?; try done; try rb_lk; try rb_frame.
  { perm_nodup Hnd. }
  mstep Hs. exists s'. split_and!; [done|exact Hat|outside Hout].
Qed.

(** What a path must allow above a node of colour [c] over black height [n]. *)
Definition kabove (k : list frame) (c : color) (n : nat) : Prop :=
  match c with Red => kbalanced k n true | Black => kbalanced k (S n) false end.

(** The next iteration, for paths shorter than [len]. *)
Definition erase_cont (cont : Z -> Z -> M rb_tree unit) (len : nat) : Prop :=
  forall k s t n, k <> [] -> (length k <= len)%nat -> at_pos s k t -> black_root t -> balanced t n ->
    kbalanced k (S n) false ->
    exists s', cont (ptr t) (kptr k) s = Ok (tt, s') /\ rebalanced s k t s'.

(** [t] and its sibling [s] below [p]. *)
Definition sib (left : bool) (c : color) (t : tree) (p : Z) (s : tree) : tree :=
  if left then Node c t p s else Node c s p t.

Lemma set_red_sibling k s left c t p sl sa sr :
  at_pos s k (sib left c t p (Node Black sl sa sr)) ->
  exists s', rb_set_parent_color sa p RB_RED s = Ok (tt, s') /\
    at_pos s' k (sib left c t p (Node Red sl sa sr)) /\ same_outside [sa] s s'.
Proof.
  intros (Hrep & Hkr & Hnd).
  assert (NoDup (sa :: p :: addrs t ++ addrs sl ++ addrs sr ++ kaddrs k)) as Hnd'
    by (destruct left; perm_nodup Hnd).
  nodup_facts Hnd'. unfold rb_set_parent_color, set_pc. destruct left; simpl in Hrep, Hkr.
  - destruct Hrep as (Hp & Hpm & Htr & (Hsa & Hsm & Hsl & Hsr)).
    rewrite (wr_eq s sa _ _ ltac:(auto with slotfs) Hsm), lor_red by auto with slotfs.
    eexists. split; [done|]. split; [|outside0].
    split_and!; [simpl; split_and!; try done; try rb_lk; rb_frame|simpl; rb_frame|exact Hnd].
  - destruct Hrep as (Hp & Hpm & (Hsa & Hsm & Hsl & Hsr) & Htr).
    rewrite (wr_eq s sa _ _ ltac:(auto with slotfs) Hsm), lor_red by auto with slotfs.
    eexists. split; [done|]. split; [|outside0].
    split_and!; [simpl; split_and!; try done; try rb_lk; rb_frame|simpl; rb_frame|exact Hnd].
Qed.

Lemma set_black_node k s l p r :
  at_pos s k (Node Red l p r) ->
  exists s', rb_set_black p s = Ok (tt, s') /\ at_pos s' k (Node Black l p r) /\ same_outside [p] s s'.
Proof.
  intros (Hrep & Hkr & Hnd). pose proof (kptr_aligned _ _ _ _ Hkr) as Hka.
  cbn [rep ptr] in Hrep, Hkr. destruct Hrep as (Hp & Hpm & Hl & Hr).
  simpl in Hnd. pose proof Hnd as Hnd'. nodup_facts Hnd'.
  unfold rb_set_black. mstep (rd_eq s p _ ltac:(auto with slotfs) Hpm). unfold set_pc.
  rewrite (wr_eq s p _ _ ltac:(auto with slotfs) Hpm). cbn [__rb_parent_color].
  rewrite (set_black_pc (kptr k) Red) by done. eexists. split; [done|]. split; [|outside0].
  split_and!; [simpl; split_and!; try done; try rb_lk; rb_frame|simpl; rb_frame|exact Hnd].
Qed.

Lemma at_pos_node k s c l p r :
  at_pos s k (Node c l p r) -> aligned p /\ aligned0 (kptr k) /\
  rb_nodes s !! p = Some (mk_rb (kptr k + colz c) (ptr r) (ptr l)).
Proof. intros (Hrep & Hkr & _). pose proof (kptr_aligned _ _ _ _ Hkr). simpl in Hrep. tauto. Qed.

(** Case 2: the sibling becomes red; a red parent absorbs the missing black
    node, a black one passes the problem up. *)
Lemma erase_recolor cont k s p sa c n sl sr t (left : bool) :
  (c = Black -> erase_cont cont (length k)) -> at_pos s k (sib left c t p (Node Black sl sa sr)) ->
  balanced t n -> balanced sl n -> balanced sr n -> black_root t -> black_root sl -> black_root sr ->
  kabove k c (S n) ->
  exists s', (_ ← rb_set_parent_color sa p RB_RED;
      pred ← rb_is_red p;
      if (pred : bool) then rb_set_black p
      else
        let node := p in
        parent ← rb_parent node;
        if negb (parent =? 0) then cont node parent else mret tt) s = Ok (tt, s') /\
    rebalanced s k (sib left c t p (Node Black sl sa sr)) s'.
Proof.
  intros Hcont Hat Hbt Hbl Hbr Hrt Hrl Hrr Hk.
  destruct (set_red_sibling k s left c t p sl sa sr Hat) as (s1 & Hs1 & Hat1 & Ho1). mstep Hs1.
  assert (exists l r, sib left c t p (Node Red sl sa sr) = Node c l p r /\
    sib left Black t p (Node Red sl sa sr) = Node Black l p r) as (l & r & El & Er)
    by (destruct left; do 2 eexists; done).
  assert (balanced (Node Black l p r) (S n)) as Hb'.
  { rewrite <- Er. destruct left; simpl; tauto. }
  assert (inorder (Node Black l p r) = inorder (sib left c t p (Node Black sl sa sr))) as Hin'.
  { rewrite <- Er. by destruct left. }
  assert (same_outside (addrs (sib left c t p (Node Black sl sa sr)) ++ kaddrs k) s s1) as Ho1'.
  { eapply same_outside_mono; [exact Ho1|]. destruct left; mem_tac. }
  assert (p ∈ addrs (sib left c t p (Node Black sl sa sr)) ++ kaddrs k) as Hpin
    by (destruct left; cbn [addrs sib]; rewrite elem_of_app, elem_of_cons; tauto).
  rewrite El in Hat1. destruct (at_pos_node _ _ _ _ _ _ Hat1) as (Hp & Hka & Hpm).
  mstep (rb_is_red_spec s1 p _ c _ _ Hp Hka Hpm). destruct c.
  - destruct (set_black_node _ _ _ _ _ Hat1) as (s2 & Hs2 & Hat2 & Ho2). exists s2. split; [done|].
    eapply rebalanced_at; [exact Hat2| |exact Hk|exact Hb'|done|].
    + by rewrite !inorder_plug, Hin'.
    + eapply same_outside_trans; [exact Ho1'|]. eapply same_outside_mono; [exact Ho2|].
      intros a ->%list_elem_of_singleton. done.
  - unfold rb_parent at 1. cbv zeta. erewrite M_bind_step.
    2:{ mstep (rd_eq s1 p _ ltac:(auto with slotfs) Hpm). reflexivity. }
    cbn [__rb_parent_color]. rewrite (rb_parent_pc (kptr k) Black) by done.
    destruct k as [|f k].
    + simpl (negb _). eexists. split; [done|].
      eapply rebalanced_at; [exact Hat1| |done|exact Hb'|done|done]. by rewrite !inorder_plug, Hin'.
    + rewrite (proj2 (Z.eqb_neq (kptr (f :: k)) 0)).
      2:{ destruct Hat1 as (_ & Hkr & _). destruct f; simpl in Hkr |- *; destruct Hkr as [? _]; auto with slotfs. }
      destruct (Hcont eq_refl (f :: k) s1 (Node Black l p r) (S n)) as (s2 & Hs2 & t' & Hat2 & Hin2 & Hb2 & Ho2); try done.
      exists s2. split; [done|]. exists t'. split_and!; [done| |done|].
      * rewrite Hin2, !inorder_plug, Hin'. done.
      * eapply same_outside_trans; [exact Ho1'|]. eapply same_outside_mono; [exact Ho2|].
        rewrite <- Er. destruct left; mem_tac.
Qed.

Lemma null_or_black_true s q t : rep (rb_nodes s) q t -> aligned0 q -> black_root t ->
  null_or_black (ptr t) s = Ok (true, s).
Proof. intros Hr Hq Hb. rewrite (null_or_black_spec s q t Hr Hq). by destruct t as [|[]]. Qed.

(** Case 3, for a left [node]: the red nephew [b] moves above the sibling. *)
Lemma case3_left_spec k s p sa c t bl b br sr :
  at_pos s k (Node c t p (Node Black (Node Red bl b br) sa sr)) -> black_root br ->
  exists s', (t2 ← rd b;
      let tmp1 := rb_right t2 in
      _ ← set_left sa tmp1;
      _ ← set_right b sa;
      _ ← set_right p b;
      _ ← when tmp1 (rb_set_parent_color tmp1 sa RB_BLACK);
      case4_left p b sa) s = Ok (tt, s') /\
    at_pos s' k (Node c (Node Black t p bl) b (Node Black br sa sr)) /\
    same_outside (p :: sa :: b :: addrs bl ++ addrs br ++ kaddrs k) s s'.
Proof.
  intros (Hrep & Hk & Hnd) Hb. cbn [rep ptr] in Hrep, Hk.
  destruct Hrep as (Hp & Hpm & Ht & (Hsa & Hsm & (Hab & Hbm & Hbl & Hbr) & Hsr)).
  destruct br as [|[] tl x tr]; [|done|].
  - assert (NoDup (p :: sa :: b :: addrs t ++ addrs bl ++ addrs sr ++ kaddrs k)) as Hnd' by perm_nodup Hnd.
    pose proof Hnd' as Hf. nodup_facts Hf. do 4 rb_step. unfold when. simpl (_ =? 0). mstep eq_refl.
    match goal with |- context [case4_left _ _ _ ?st] =>
      destruct (case4_left_spec k st p b sa t bl Leaf sr c b (sa + colz Red) (p + colz Black))
        as (s' & Hs & Hat & Hout) end; try done; try rb_lk; simpl rb_nodes; simpl root_node; try rb_frame.
    { perm_nodup Hnd. }
    exists s'. split_and!; [exact Hs|exact Hat|outside Hout].
  - assert (NoDup (x :: p :: sa :: b :: addrs tl ++ addrs tr ++ addrs t ++ addrs bl ++ addrs sr ++ kaddrs k)) as Hnd'
      by perm_nodup Hnd.
    pose proof Hnd' as Hf. nodup_facts Hf. destruct Hbr as (Hx & Hxm & Htl & Htr). cbn [ptr] in *.
    do 4 rb_step. unfold when. rewrite (proj2 (Z.eqb_neq x 0)) by auto with slotfs.
    rb_step. rewrite (lor_black sa) by auto with slotfs.
    match goal with |- context [case4_left _ _ _ ?st] =>
      destruct (case4_left_spec k st p b sa t bl (Node Black tl x tr) sr c b (sa + colz Red) (p + colz Black))
        as (s' & Hs & Hat & Hout) end; try done; try rb_lk; simpl rb_nodes; simpl root_node; cbn [rep];
      split_and?; try done; try rb_lk; try rb_frame.
    { perm_nodup Hnd. }
    exists s'. split_and!; [exact Hs|exact Hat|outside Hout].
Qed.

Lemma case3_right_spec k s p sa c t bl b br sr :
  at_pos s k (Node c (Node Black sr sa (Node Red br b bl)) p t) -> black_root br ->
  exists s', (t2 ← rd b;
      let tmp1 := rb_left t2 in
      _ ← set_right sa tmp1;
      _ ← set_left b sa;
      _ ← set_left p b;
      _ ← when tmp1 (rb_set_parent_color tmp1 sa RB_BLACK);
      case4_right p b sa) s = Ok (tt, s') /\
    at_pos s' k (Node c (Node Black sr sa br) b (Node Black bl p t)) /\
    same_outside (p :: sa :: b :: addrs bl ++ addrs br ++ kaddrs k) s s'.
Proof.
  intros (Hrep & Hk & Hnd) Hb. cbn [rep ptr] in Hrep, Hk.
  destruct Hrep as (Hp & Hpm & (Hsa & Hsm & Hsr & (Hab & Hbm & Hbr & Hbl)) & Ht).
  destruct br as [|[] tl x tr]; [|done|].
  - assert (NoDup (p :: sa :: b :: addrs t ++ addrs bl ++ addrs sr ++ kaddrs k)) as Hnd' by perm_nodup Hnd.
    pose proof Hnd' as Hf. nodup_facts Hf. do 4 rb_step. unfold when. simpl (_ =? 0). mstep eq_refl.
    match goal with |- context [case4_right _ _ _ ?st] =>
      destruct (case4_right_spec k st p b sa t bl sr Leaf c b (sa + colz Red) (p + colz Black))
        as (s' & Hs & Hat & Hout) end; try done; try rb_lk; simpl rb_nodes; simpl root_node; try rb_frame.
    { perm_nodup Hnd. }
    exists s'. split_and!; [exact Hs|exact Hat|outside Hout].
  - assert (NoDup (x :: p :: sa :: b :: addrs tl ++ addrs tr ++ addrs t ++ addrs bl ++ addrs sr ++ kaddrs k)) as Hnd'
      by perm_nodup Hnd.
    pose proof Hnd' as Hf. nodup_facts Hf. destruct Hbr as (Hx & Hxm & Htl & Htr). cbn [ptr] in *.
    do 4 rb_step. unfold when. rewrite (proj2 (Z.eqb_neq x 0)) by auto with slotfs.
    rb_step. rewrite (lor_black sa) by auto with slotfs.
    match goal with |- context [case4_right _ _ _ ?st] =>
      destruct (case4_right_spec k st p b sa t bl sr (Node Black tl x tr) c b (sa + colz Red) (p + colz Black))
        as (s' & Hs & Hat & Hout) end; try done; try rb_lk; simpl rb_nodes; simpl root_node; cbn [rep];
      split_and?; try done; try rb_lk; try rb_frame.
    { perm_nodup Hnd. }
    exists s'. split_and!; [exact Hs|exact Hat|outside Hout].
Qed.

Lemma erase_left_spec cont k s p sa c n sl sr t :
  (c = Black -> erase_cont cont (length k)) -> at_pos s k (Node c t p (Node Black sl sa sr)) ->
  balanced t n -> balanced sl n -> balanced sr n -> black_root t -> kabove k c (S n) ->
  exists s', erase_left cont p sa s = Ok (tt, s') /\ rebalanced s k (Node c t p (Node Black sl sa sr)) s'.
Proof.
  intros Hcont Hat Hbt Hbl Hbr Hrt Hk. pose proof Hat as (Hrep & Hkr & Hnd). cbn [rep ptr] in Hrep, Hkr.
  destruct Hrep as (Hp & Hpm & Ht & (Hsa & Hsm & Hsl & Hsr)).
  unfold erase_left. mstep (rd_eq s sa _ ltac:(auto with slotfs) Hsm). cbn [rb_right rb_left]. cbv zeta.
  destruct (red_dec sr) as [(rl & ra & rr & ->)|Hrr].
  - mstep (null_or_black_spec s sa (Node Red rl ra rr) Hsr ltac:(auto with slotfs)).
    cbn [rep ptr] in Hsr. destruct Hsr as (Hra & Hram & Hrl & Hrr).
    destruct (case4_left_spec k s p sa ra t sl rl rr c _ _ _ Hpm Hsm Hram) as (s' & Hs & Hat' & Hout); try done.
    { perm_nodup Hnd. }
    exists s'. split; [exact Hs|]. cbn [balanced] in Hbr.
    destruct c; (eapply rebalanced_at; [exact Hat'|inorder_tac|exact Hk|simpl; tauto|simpl; done|]);
      (eapply same_outside_mono; [exact Hout|mem_tac]).
  - mstep (null_or_black_true s sa sr Hsr ltac:(auto with slotfs) Hrr).
    mstep (rd_eq s sa _ ltac:(auto with slotfs) Hsm). cbn [rb_right rb_left]. cbv zeta.
    destruct (red_dec sl) as [(bl & b & br & ->)|Hrl].
    + mstep (null_or_black_spec s sa (Node Red bl b br) Hsl ltac:(auto with slotfs)).
      cbn [balanced] in Hbl. destruct Hbl as (Hbbl & Hbbr & Hrbl & Hrbr).
      destruct (case3_left_spec k s p sa c t bl b br sr Hat Hrbr) as (s' & Hs & Hat' & Hout).
      exists s'. split; [exact Hs|].
      destruct c; (eapply rebalanced_at; [exact Hat'|inorder_tac|exact Hk|simpl; tauto|simpl; done|]);
        (eapply same_outside_mono; [exact Hout|mem_tac]).
    + mstep (null_or_black_true s sa sl Hsl ltac:(auto with slotfs) Hrl).
      by apply (erase_recolor cont k s p sa c n sl sr t true).
Qed.

Lemma erase_right_spec cont k s p sa c n sl sr t :
  (c = Black -> erase_cont cont (length k)) -> at_pos s k (Node c (Node Black sl sa sr) p t) ->
  balanced t n -> balanced sl n -> balanced sr n -> black_root t -> kabove k c (S n) ->
  exists s', erase_right cont p sa s = Ok (tt, s') /\ rebalanced s k (Node c (Node Black sl sa sr) p t) s'.
Proof.
  intros Hcont Hat Hbt Hbl Hbr Hrt Hk. pose proof Hat as (Hrep & Hkr & Hnd). cbn [rep ptr] in Hrep, Hkr.
  destruct Hrep as (Hp & Hpm & (Hsa & Hsm & Hsl & Hsr) & Ht).
  unfold erase_right. mstep (rd_eq s sa _ ltac:(auto with slotfs) Hsm). cbn [rb_right rb_left]. cbv zeta.
  destruct (red_dec sl) as [(rl & ra & rr & ->)|Hrl].
  - mstep (null_or_black_spec s sa (Node Red rl ra rr) Hsl ltac:(auto with slotfs)).
    cbn [rep ptr] in Hsl. destruct Hsl as (Hra & Hram & Hrl & Hrr).
    destruct (case4_right_spec k s p sa ra t sr rl rr c _ _ _ Hpm Hsm Hram) as (s' & Hs & Hat' & Hout); try done.
    { perm_nodup Hnd. }
    exists s'. split; [exact Hs|]. cbn [balanced] in Hbl.
    destruct c; (eapply rebalanced_at; [exact Hat'|inorder_tac|exact Hk|simpl; tauto|simpl; done|]);
      (eapply same_outside_mono; [exact Hout|mem_tac]).
  - mstep (null_or_black_true s sa sl Hsl ltac:(auto with slotfs) Hrl).
    mstep (rd_eq s sa _ ltac:(auto with slotfs) Hsm). cbn [rb_right rb_left]. cbv zeta.
    destruct (red_dec sr) as [(br & b & bl & ->)|Hrr].
    + mstep (null_or_black_spec s sa (Node Red br b bl) Hsr ltac:(auto with slotfs)).
      cbn [balanced] in Hbr. destruct Hbr as (Hbbr & Hbbl & Hrbr & Hrbl).
      destruct (case3_right_spec k s p sa c t bl b br sl Hat Hrbr) as (s' & Hs & Hat' & Hout).
      exists s'. split; [exact Hs|].
      destruct c; (eapply rebalanced_at; [exact Hat'|inorder_tac|exact Hk|simpl; tauto|simpl; done|]);
        (eapply same_outside_mono; [exact Hout|mem_tac]).
    + mstep (null_or_black_true s sa sr Hsr ltac:(auto with slotfs) Hrr).
      by apply (erase_recolor cont k s p sa c n sl sr t false).
Qed.

(** A red sibling stays as it is when the rotation of case 1 does not apply. *)
Lemma case1_left_black s p q sl sa sr : rep (rb_nodes s) q (Node Black sl sa sr) -> aligned0 q ->
  case1_left p sa s = Ok (sa, s).
Proof.
  cbn [rep]. intros (Hsa & Hsm & _) Hq. unfold case1_left. by mstep (rb_is_red_spec s sa q Black _ _ Hsa Hq Hsm).
Qed.
Lemma case1_right_black s p q sl sa sr : rep (rb_nodes s) q (Node Black sl sa sr) -> aligned0 q ->
  case1_right p sa s = Ok (sa, s).
Proof.
  cbn [rep]. intros (Hsa & Hsm & _) Hq. unfold case1_right. by mstep (rb_is_red_spec s sa q Black _ _ Hsa Hq Hsm).
Qed.

Lemma balanced_S_black t n : balanced t (S n) -> black_root t ->
  exists l a r, t = Node Black l a r /\ balanced l n /\ balanced r n.
Proof. destruct t as [|[] l a r]; simpl; [done|done|]. intros [? ?] _. by exists l, a, r. Qed.

Lemma rebalanced_from s s1 k t k1 t1 s' :
  rebalanced s1 k1 t1 s' -> inorder (plug k1 t1) = inorder (plug k t) ->
  same_outside (addrs t ++ kaddrs k) s s1 ->
  (forall a, a ∈ addrs t1 ++ kaddrs k1 -> a ∈ addrs t ++ kaddrs k) ->
  rebalanced s k t s'.
Proof.
  intros (t' & Hat & Hin & Hb & Ho) He Ho1 Hsub. exists t'. split_and!; [done|by rewrite Hin|done|].
  eapply same_outside_trans; [exact Ho1|]. by eapply same_outside_mono.
Qed.

Lemma erase_cont_mono cont n m : (m <= n)%nat -> erase_cont cont n -> erase_cont cont m.
Proof. intros Hm Hc k s t h Hk Hl. apply Hc; [done|lia]. Qed.

(** An iteration at a left [node]. *)
Lemma erase_step_left cont c p sb k s t n :
  erase_cont cont (length k) -> at_pos s (FL c p sb :: k) t -> black_root t -> balanced t n ->
  kbalanced (FL c p sb :: k) (S n) false ->
  exists s', (sibling ← case1_left p (ptr sb); erase_left cont p sibling) s = Ok (tt, s') /\
    rebalanced s (FL c p sb :: k) t s'.
Proof.
  intros Hcont Hat Hrt Hbt Hk. rewrite at_pos_up in Hat. cbn [fill] in Hat.
  destruct (red_dec sb) as [(sl & sa & sr & ->)|Hrs].
  - destruct c; cbn [kbalanced] in Hk; [by destruct Hk as (_ & _ & [] & _)|]. destruct Hk as [Hbs Hk].
    destruct Hbs as (Hbl & Hbr & Hrl & Hrr). destruct (balanced_S_black sl n Hbl Hrl) as (ll & la & lr & -> & Hbll & Hblr).
    destruct (case1_left_spec k s p t (Node Black ll la lr) sa sr Hat) as (s1 & Hs1 & Hat1 & Ho1); [done|done|].
    cbn [ptr] in *. mstep Hs1.
    assert (at_pos s1 (FL Black sa sr :: k) (Node Red t p (Node Black ll la lr))) as Hat1'
      by (rewrite at_pos_up; exact Hat1).
    destruct (erase_left_spec cont (FL Black sa sr :: k) s1 p la Red n ll lr t) as (s' & Hs' & Hreb); try done.
    exists s'. split; [exact Hs'|]. eapply rebalanced_from; [exact Hreb|inorder_tac| |mem_tac].
    eapply same_outside_mono; [exact Ho1|mem_tac].
  - destruct (balanced_S_black sb n) as (sl & sa & sr & -> & Hbl & Hbr);
      [destruct c; simpl in Hk; tauto|done|].
    cbn [ptr]. pose proof Hat as (Hrep & _ & _). cbn [rep] in Hrep. destruct Hrep as (Hp & _ & _ & Hsb).
    mstep (case1_left_black s p p sl sa sr Hsb ltac:(auto with slotfs)).
    destruct (erase_left_spec cont k s p sa c n sl sr t) as (s' & Hs' & Hreb); try done.
    { destruct c; simpl in Hk |- *; tauto. }
    exists s'. split; [exact Hs'|]. by apply rebalanced_up.
Qed.

Lemma erase_step_right cont c p sb k s t n :
  erase_cont cont (length k) -> at_pos s (FR c sb p :: k) t -> black_root t -> balanced t n ->
  kbalanced (FR c sb p :: k) (S n) false ->
  exists s', (sibling ← case1_right p (ptr sb); erase_right cont p sibling) s = Ok (tt, s') /\
    rebalanced s (FR c sb p :: k) t s'.
Proof.
  intros Hcont Hat Hrt Hbt Hk. rewrite at_pos_up in Hat. cbn [fill] in Hat.
  destruct (red_dec sb) as [(sl & sa & sr & ->)|Hrs].
  - destruct c; cbn [kbalanced] in Hk; [by destruct Hk as (_ & _ & [] & _)|]. destruct Hk as [Hbs Hk].
    destruct Hbs as (Hbl & Hbr & Hrl & Hrr). destruct (balanced_S_black sr n Hbr Hrr) as (ll & la & lr & -> & Hbll & Hblr).
    destruct (case1_right_spec k s p t sl sa (Node Black ll la lr) Hat) as (s1 & Hs1 & Hat1 & Ho1); [done|done|].
    cbn [ptr] in *. mstep Hs1.
    assert (at_pos s1 (FR Black sl sa :: k) (Node Red (Node Black ll la lr) p t)) as Hat1'
      by (rewrite at_pos_up; exact Hat1).
    destruct (erase_right_spec cont (FR Black sl sa :: k) s1 p la Red n ll lr t) as (s' & Hs' & Hreb); try done.
    exists s'. split; [exact Hs'|]. eapply rebalanced_from; [exact Hreb|inorder_tac| |mem_tac].
    eapply same_outside_mono; [exact Ho1|mem_tac].
  - destruct (balanced_S_black sb n) as (sl & sa & sr & -> & Hbl & Hbr);
      [destruct c; simpl in Hk; tauto|done|].
    cbn [ptr]. pose proof Hat as (Hrep & _ & _). cbn [rep] in Hrep. destruct Hrep as (Hp & _ & Hsb & _).
    mstep (case1_right_black s p p sl sa sr Hsb ltac:(auto with slotfs)).
    destruct (erase_right_spec cont k s p sa c n sl sr t) as (s' & Hs' & Hreb); try done.
    { destruct c; simpl in Hk |- *; tauto. }
    exists s'. split; [exact Hs'|]. by apply rebalanced_up.
Qed.

Lemma erase_loop_spec fuel : erase_cont (erase_loop fuel) fuel.
Proof.
  induction fuel as [|fuel IH]; intros k s t n Hne Hlen Hat Hrt Hbt Hk.
  { destruct k; simpl in Hlen; [done|lia]. }
  destruct k as [|f k]; [done|]. simpl in Hlen.
  assert (erase_cont (erase_loop fuel) (length k)) as Hc by (eapply erase_cont_mono; [|exact IH]; lia).
  pose proof Hat as (Hrep & Hkr & Hnd). destruct f as [c p sb|c sb p]; cbn [kptr erase_loop krep] in *;
    destruct Hkr as (Hp & Hpm & Hsb & Hkr); mstep (rd_eq s p _ ltac:(auto with slotfs) Hpm); cbn [rb_right rb_left].
  - assert ((ptr t =? ptr sb) = false) as ->.
    { destruct sb as [|cs sl sa sr].
      { destruct c; simpl in Hk; [destruct Hk as (_ & ? & _)|destruct Hk as (? & _)]; lia. }
      cbn [rep] in Hsb. destruct Hsb as (Hsa & _). rewrite Z.eqb_sym. apply ne_ptr; [done|].
      intros Hin. apply NoDup_app in Hnd as (_ & Hd & _). apply (Hd sa Hin).
      cbn [kaddrs addrs]. rewrite !elem_of_cons. cbn [app]. rewrite elem_of_cons. tauto. }
    by eapply erase_step_left.
  - rewrite Z.eqb_refl. by eapply erase_step_right.
Qed.

(** ** Removal: unlinking the node *)

(** A segment of a path, below a node with address [top]. *)
Definition faddr (f : frame) : Z := match f with FL _ a _ => a | FR _ _ a => a end.
Definition knext (ks : list frame) (top : Z) : Z := match ks with [] => top | f :: _ => faddr f end.
Fixpoint kend (ks : list frame) (p : Z) : Z := match ks with [] => p | f :: ks' => kend ks' (faddr f) end.
Fixpoint kseg (m : gmap Z rb_node) (top : Z) (ks : list frame) (p : Z) : Prop :=
  match ks with
  | [] => True
  | FL c a r :: ks' =>
      aligned a /\ m !! a = Some (mk_rb (knext ks' top + colz c) (ptr r) p) /\ rep m a r /\ kseg m top ks' a
  | FR c l a :: ks' =>
      aligned a /\ m !! a = Some (mk_rb (knext ks' top + colz c) p (ptr l)) /\ rep m a l /\ kseg m top ks' a
  end.

Lemma kptr_app ks K : kptr (ks ++ K) = knext ks (kptr K).
Proof. by destruct ks as [|[] ks]. Qed.

Lemma krep_app m root ks K p :
  krep m root (ks ++ K) p <-> kseg m (kptr K) ks p /\ krep m root K (kend ks p).
Proof.
  revert p. induction ks as [|[c a r|c l a] ks IH]; intros p; simpl; [tauto|..]; rewrite kptr_app, IH; tauto.
Qed.

Lemma kaddrs_app ks K : kaddrs (ks ++ K) = kaddrs ks ++ kaddrs K.
Proof. induction ks as [|[c a r|c l a] ks IH]; simpl; [done|..]; by rewrite IH, <- app_assoc. Qed.

Lemma kend_in ks p : ks <> [] -> kend ks p ∈ kaddrs ks.
Proof.
  revert p. induction ks as [|f ks IH]; intros p Hne; [done|]. destruct ks as [|f' ks].
  - destruct f; simpl; apply elem_of_cons; by left.
  - cbn [kend]. destruct f; cbn [kaddrs]; rewrite elem_of_cons, elem_of_app; right; right;
      by apply (IH (faddr f')).
Qed.

Lemma kseg_ext m m' top ks p :
  (forall a, a ∈ kaddrs ks -> m' !! a = m !! a) -> kseg m top ks p -> kseg m' top ks p.
Proof.
  revert p. induction ks as [|[c a t|c t a] ks IH]; intros p He; simpl in *; [done|..];
    (intros (Ha & Hm & Ht & Hk); split_and!;
      [done|rewrite He; [done|apply elem_of_cons; by left]| |]).
  all: first [eapply rep_ext; [|exact Ht]|eapply IH; [|exact Hk]]; intros x Hx; apply He, elem_of_cons;
    right; apply elem_of_app; auto.
Qed.

(** Changing the parent of the topmost node of a segment. *)
Lemma kseg_set_top s ks top top' p :
  ks <> [] -> kseg (rb_nodes s) top ks p -> NoDup (kaddrs ks) -> aligned0 top -> aligned0 top' ->
  exists s', rb_set_parent (kend ks p) top' s = Ok (tt, s') /\ root_node s' = root_node s /\
    kseg (rb_nodes s') top' ks p /\ same_outside [kend ks p] s s'.
Proof.
  revert p. induction ks as [|f ks IH]; intros p Hne Hseg Hnd Ht Ht'; [done|].
  destruct ks as [|f2 ks].
  - clear IH. destruct f as [c a r|c l a]; simpl in *; destruct Hseg as (Ha & Hm & Hr & _);
      rewrite app_nil_r in Hnd; apply NoDup_cons in Hnd as [Hni Hnd];
      rewrite (rb_set_parent_eq s a top' top c _ _ Ha Hm Ht Ht'); eexists; (split; [done|]);
      (split; [done|]); (split; [|outside0]); simpl; split_and!; try done; try rb_lk; rb_frame.
  - cbn [kend]. destruct (IH (faddr f)) as (s' & Hs' & Hroot & Hseg' & Ho); try done.
    { destruct f; cbn [kseg] in Hseg; apply Hseg. }
    { destruct f; cbn [kaddrs] in Hnd; apply NoDup_cons in Hnd as [_ Hnd]; apply NoDup_app in Hnd; apply Hnd. }
    exists s'. split_and!; [done|done| |done]. cbn [kend] in *.
    pose proof (kend_in (f2 :: ks) (faddr f) ltac:(done)) as Hin. cbn [kend] in Hin.
    set (e := kend ks (faddr f2)) in *.
    destruct f as [c a r|c l a]; cbn [kaddrs] in Hnd; apply NoDup_cons in Hnd as [Hni Hnd];
      apply NoDup_app in Hnd as (_ & Hd & _); rewrite not_elem_of_app in Hni; destruct Hni as [Hn1 Hn2];
      cbn [kseg] in Hseg |- *; destruct Hseg as (Ha & Hm & Hr & _); split_and!; try done.
    + rewrite Ho; [done|]. intros E%list_elem_of_singleton. apply Hn2. by rewrite E.
    + eapply rep_outside; [exact Ho| |exact Hr]. intros x Hx ->%list_elem_of_singleton. by apply (Hd e).
    + rewrite Ho; [done|]. intros E%list_elem_of_singleton. apply Hn2. by rewrite E.
    + eapply rep_outside; [exact Ho| |exact Hr]. intros x Hx ->%list_elem_of_singleton. by apply (Hd e).
Qed.

(** The successor of a node: the end of the left spine of its right subtree. *)
Lemma leftmost_loop_spec s t q prev :
  t <> Leaf -> rep (rb_nodes s) q t ->
  exists ks cy y yr, t = plug ks (Node cy Leaf y yr) /\ Forall (fun f => exists c a r, f = FL c a r) ks /\
    forall fuel, (length ks < fuel)%nat -> leftmost_loop fuel prev (ptr t) s = Ok ((knext ks prev, y), s).
Proof.
  revert q prev. induction t as [|c l IHl a r IHr]; intros q prev Hne Hrep; [done|].
  cbn [rep] in Hrep. destruct Hrep as (Ha & Hm & Hl & _). destruct (decide (l = Leaf)) as [->|Hnl].
  - exists [], c, a, r. split_and!; [done|by constructor|]. intros [|fuel] Hf; [simpl in Hf; lia|].
    cbn [leftmost_loop ptr]. by mstep (rd_eq s a _ ltac:(auto with slotfs) Hm).
  - destruct (IHl a a Hnl Hl) as (ks & cy & y & yr & E & Hall & Hrun).
    exists (ks ++ [FL c a r]), cy, y, yr. split_and!.
    + clear Hrun. rewrite E. clear. set (t := Node cy Leaf y yr). generalize t. clear t. induction ks as [|f ks IH]; intros t; [done|].
      simpl. apply IH.
    + apply Forall_app. split; [done|]. constructor; [by do 3 eexists|constructor].
    + intros [|fuel] Hf; rewrite length_app in Hf; simpl in Hf; [lia|]. cbn [leftmost_loop ptr].
      mstep (rd_eq s a _ ltac:(auto with slotfs) Hm). cbn [rb_left]. cbv zeta.
      assert (ptr l <> 0) as Hlz.
      { destruct l; [done|]. cbn [rep] in Hl. simpl. destruct Hl as [? _]. auto with slotfs. }
      rewrite (proj2 (Z.eqb_neq _ _) Hlz). cbn [negb]. rewrite Hrun by lia. do 2 f_equal. f_equal.
      by destruct ks.
Qed.

Definition blacken (t : tree) : tree := match t with Leaf => Leaf | Node _ l a r => Node Black l a r end.

(** The second half of [__rb_erase_augmented]: the successor [y] takes the place
    of [x], first its left subtree and its parent ... *)
Lemma replace_links s k ks c l x y yr pcy pr :
  rb_nodes s !! x = Some (mk_rb (kptr k + colz c) pr (ptr l)) ->
  rb_nodes s !! y = Some (mk_rb pcy (kend ks (ptr yr)) 0) ->
  rep (rb_nodes s) x l -> rep (rb_nodes s) y yr -> kseg (rb_nodes s) y ks (ptr yr) ->
  krep (rb_nodes s) (root_node s) k x -> aligned x -> aligned y -> l <> Leaf ->
  NoDup (x :: y :: addrs l ++ addrs yr ++ kaddrs ks ++ kaddrs k) ->
  exists s', (forall B (f : Z -> M rb_tree B), (n ← rd x;
      let tmp := rb_left n in
      _ ← set_left y tmp;
      _ ← rb_set_parent tmp y;
      n ← rd x;
      let pc := __rb_parent_color n in
      let tmp := __rb_parent pc in
      _ ← __rb_change_child x y tmp; f pc) s = f (kptr k + colz c) s') /\
    rb_nodes s' !! y = Some (mk_rb pcy (kend ks (ptr yr)) (ptr l)) /\
    rep (rb_nodes s') y l /\ rep (rb_nodes s') y yr /\ kseg (rb_nodes s') y ks (ptr yr) /\
    krep (rb_nodes s') (root_node s') k y /\
    same_outside (x :: y :: addrs l ++ kaddrs k) s s'.
Proof.
  intros Hx Hy Hl Hyr Hks Hk Hax Hay Hnl Hnd. destruct l as [|cl ll la lr]; [done|]. clear Hnl.
  pose proof (kptr_aligned _ _ _ _ Hk) as Hka. cbn [rep ptr] in Hl, Hx |- *. destruct Hl as (Hla & Hlm & Hll & Hlr).
  assert (NoDup (kaddrs k)) as Hndk by (apply (NoDup_part _ (x :: y :: la :: addrs ll ++ addrs lr ++ addrs yr ++ kaddrs ks)); perm_nodup Hnd).
  assert (forall a, a ∈ addrs ll ++ addrs lr ++ addrs yr ++ kaddrs ks -> a ∉ kaddrs k) as Hdk
    by (apply (NoDup_disj _ _ (x :: y :: [la])); perm_nodup Hnd).
  assert (NoDup (la :: x :: y :: addrs ll ++ addrs lr ++ addrs yr ++ kaddrs ks ++ kaddrs k)) as Hnd'
    by perm_nodup Hnd. nodup_facts Hnd'.
  set (m1 := <[la:=mk_rb (y + colz cl) (ptr lr) (ptr ll)]>
    (<[y:=mk_rb pcy (kend ks (ptr yr)) la]> (rb_nodes s))).
  destruct (change_child_spec (mk_tree (root_node s) m1) k x y) as (s2 & Hs2 & Hk2 & Ho2);
    [unfold m1; simpl; rb_frame|done|auto with slotfs|done|].
  simpl in Ho2.
  assert (forall q t, rep (rb_nodes s) q t -> la ∉ addrs t -> y ∉ addrs t ->
    (forall a, a ∈ addrs t -> a ∉ kaddrs k) -> rep (rb_nodes s2) q t) as Hkeep.
  { intros q t Ht H1' H2' H3'. eapply rep_ext; [|exact Ht]. intros a Ha. rewrite Ho2 by auto. unfold m1.
    rewrite !lookup_insert_ne; [done| |]; intros ->; done. }
  exists s2. split_and!.
  - intros B f. do 2 rb_step. erewrite M_bind_step by (eapply rb_set_parent_eq; [done|rb_lk|auto with slotfs..]).
    rb_step. rewrite (rb_parent_pc (kptr k) c) by done. mstep Hs2. done.
  - rewrite Ho2 by done. unfold m1. rb_lk.
  - done.
  - rewrite Ho2 by done. unfold m1. rb_lk.
  - apply Hkeep; try done. intros a Ha. apply Hdk, elem_of_app. by left.
  - apply Hkeep; try done. intros a Ha. apply Hdk. rewrite !elem_of_app. auto.
  - apply Hkeep; try done. intros a Ha. apply Hdk. rewrite !elem_of_app. auto.
  - eapply kseg_ext; [|exact Hks]. intros a Ha. rewrite Ho2 by (apply Hdk; rewrite !elem_of_app; auto).
    unfold m1. rewrite !lookup_insert_ne; [done| |]; intros ->; done.
  - done.
  - intros a Ha. cbn [addrs] in Ha. repeat (rewrite not_elem_of_cons in Ha || rewrite not_elem_of_app in Ha).
    destruct_and? Ha. rewrite Ho2 by done. unfold m1. by rewrite !lookup_insert_ne by congruence.
Qed.

(** ... then its colour and the child it leaves behind. *)
Lemma replace_color s k ks c l y yr cy rt :
  rb_nodes s !! y = Some (mk_rb (knext ks rt + colz cy) (kend ks (ptr yr)) (ptr l)) ->
  rep (rb_nodes s) y l -> rep (rb_nodes s) y yr -> kseg (rb_nodes s) y ks (ptr yr) ->
  krep (rb_nodes s) (root_node s) k y -> aligned y -> aligned0 (knext ks rt) -> aligned0 (knext ks y) ->
  NoDup (y :: addrs l ++ addrs yr ++ kaddrs ks ++ kaddrs k) ->
  exists s', (if negb (ptr yr =? 0) then
        _ ← set_pc y (kptr k + colz c);
        _ ← rb_set_parent_color (ptr yr) (knext ks y) RB_BLACK;
        mret 0
      else
        sc ← rd y;
        let pc2 := __rb_parent_color sc in
        _ ← set_pc y (kptr k + colz c);
        mret (if __rb_is_black pc2 then knext ks y else 0)) s =
    Ok (match yr, cy with Leaf, Black => knext ks y | _, _ => 0 end, s') /\
    at_pos s' (ks ++ FR c l y :: k) (blacken yr) /\ same_outside (y :: addrs yr) s s'.
Proof.
  intros Hy Hl Hyr Hks Hk Hay Hrt Hkn Hnd. destruct yr as [|cyr a1 a a2].
  - simpl (negb _). cbv iota. simpl in Hnd. pose proof Hnd as Hnd'. nodup_facts Hnd'.
    do 2 rb_step. eexists. split.
    { rewrite rb_black_pc by done. by destruct cy. }
    split; [|outside0]. split_and!; [done| |].
    + rewrite krep_app. simpl. split; [eapply kseg_ext; [|exact Hks]; intros b Hb; apply lookup_insert_ne; congruence|].
      split_and!; [done|rb_lk|rb_frame|rb_frame].
    + rewrite kaddrs_app. perm_nodup Hnd.
  - assert (NoDup (a :: y :: addrs a1 ++ addrs a2 ++ addrs l ++ kaddrs ks ++ kaddrs k)) as Hnd' by perm_nodup Hnd.
    nodup_facts Hnd'. cbn [rep ptr] in *. destruct Hyr as (Haa & Ham & Ha1 & Ha2).
    rewrite (proj2 (Z.eqb_neq a 0)) by auto with slotfs. cbn [negb].
    do 2 rb_step. rewrite lor_black by done. eexists. split; [done|].
    split; [|outside0]. split_and!; simpl.
    + split_and!; [done|rewrite kptr_app; rb_lk|rb_frame|rb_frame].
    + rewrite krep_app. simpl. split.
      { eapply kseg_ext; [|exact Hks]. intros b Hb. rewrite !lookup_insert_ne; [done| |]; congruence. }
      split_and!; [done|rb_lk|rb_frame|rb_frame].
    + rewrite kaddrs_app. perm_nodup Hnd.
Qed.

Lemma kend_irrel ks p p' : ks <> [] -> kend ks p = kend ks p'.
Proof. by destruct ks. Qed.

Lemma knext_aligned m top ks p : kseg m top ks p -> aligned0 top -> aligned0 (knext ks top).
Proof. destruct ks as [|[c a t|c t a] ks]; simpl; [done|..]; intros [? _] _; auto with slotfs. Qed.

(** Case 3: the successor leaves the left spine [ks] of the right subtree. *)
Lemma unlink_successor s ks c l x k cy y yr :
  at_pos s (ks ++ FR c l x :: k) (Node cy Leaf y yr) -> ks <> [] ->
  Forall (fun f => exists c a r, f = FL c a r) ks ->
  exists s', (_ ← set_left (knext ks x) (ptr yr);
      _ ← set_right y (kend ks y);
      rb_set_parent (kend ks y) y) s = Ok (tt, s') /\
    rb_nodes s' !! x = Some (mk_rb (kptr k + colz c) (kend ks y) (ptr l)) /\
    rb_nodes s' !! y = Some (mk_rb (knext ks x + colz cy) (kend ks (ptr yr)) 0) /\
    rep (rb_nodes s') x l /\ rep (rb_nodes s') y yr /\ kseg (rb_nodes s') y ks (ptr yr) /\
    krep (rb_nodes s') (root_node s') k x /\ same_outside (y :: kaddrs ks) s s'.
Proof.
  intros (Hrep & Hkr & Hnd) Hne Hall. rewrite krep_app in Hkr. cbn [kptr krep] in Hkr. destruct Hkr as (Hseg & Hx & Hxm & Hl & Hk).
  cbn [rep ptr] in Hrep, Hseg, Hxm. rewrite kptr_app in Hrep. destruct Hrep as (Hy & Hym & _ & Hyr).
  rewrite kaddrs_app in Hnd.
  assert (NoDup (kaddrs ks)) as Hndk.
  { apply (NoDup_part _ (y :: x :: addrs yr ++ addrs l ++ kaddrs k)). perm_nodup Hnd. }
  assert (forall a, a ∈ x :: addrs yr ++ addrs l ++ kaddrs k -> a ∉ y :: kaddrs ks) as Hdis.
  { apply (NoDup_disj _ _ []). perm_nodup Hnd. }
  assert (y ∉ kaddrs ks) as Hyk.
  { assert (NoDup (y :: kaddrs ks)) as [? _]%NoDup_cons; [|done].
    apply (NoDup_part _ (x :: addrs yr ++ addrs l ++ kaddrs k)). perm_nodup Hnd. }
  destruct ks as [|f ks]; [done|]. apply Forall_cons_1 in Hall as [(c1 & a1 & r1 & ->) Hall].
  cbn [knext faddr kseg] in *. destruct Hseg as (Ha1 & Hm1 & Hr1 & Hseg).
  assert (a1 <> y) as Hay by (intros ->; apply Hyk; cbn [kaddrs]; apply elem_of_cons; by left).
  set (m2 := <[y:=mk_rb (a1 + colz cy) (kend (FL c1 a1 r1 :: ks) (ptr yr)) 0]>
    (<[a1:=mk_rb (knext ks x + colz c1) (ptr r1) (ptr yr)]> (rb_nodes s))).
  cbn [kaddrs] in Hyk. apply not_elem_of_cons in Hyk as [_ Hyk]. apply not_elem_of_app in Hyk as [Hyr1 Hyks].
  pose proof Hndk as Hndk'. cbn [kaddrs] in Hndk'. apply NoDup_cons in Hndk' as [Ha1n _].
  apply not_elem_of_app in Ha1n as [Ha1r Ha1ks].
  destruct (kseg_set_top (mk_tree (root_node s) m2) (FL c1 a1 r1 :: ks) x y (ptr yr)) as (s3 & Hs3 & Hroot & Hseg3 & Ho3);
    [done| |done|auto with slotfs|auto with slotfs|].
  { cbn [kseg]. unfold m2. simpl. split_and!; [done|rb_lk|rb_frame|].
    eapply kseg_ext; [|exact Hseg]. intros b Hb. rewrite !lookup_insert_ne; [done| |]; congruence. }
  assert (same_outside (y :: kaddrs (FL c1 a1 r1 :: ks)) s s3) as Ho.
  { intros b Hb. rewrite Ho3. 2:{ intros ->%list_elem_of_singleton. apply Hb. apply elem_of_cons. right. by apply kend_in. }
    cbn [kaddrs] in Hb. apply not_elem_of_cons in Hb as [Hb1 [Hb2 _]%not_elem_of_cons].
    unfold m2. simpl. by rewrite !lookup_insert_ne by congruence. }
  exists s3. rewrite (kend_irrel (FL c1 a1 r1 :: ks) y (ptr yr)) in * by done.
  split; [|split; [|split; [|split; [|split; [|split; [|split]]]]]].
  - do 2 rb_step. exact Hs3.
  - rewrite Ho; [done|]. apply Hdis, elem_of_cons. by left.
  - rewrite Ho3; [unfold m2; simpl; rb_lk|]. intros E%list_elem_of_singleton.
    pose proof (kend_in (FL c1 a1 r1 :: ks) (ptr yr) ltac:(done)) as Hin. rewrite <- E in Hin.
    cbn [kaddrs] in Hin. rewrite elem_of_cons, elem_of_app in Hin.
    by destruct Hin as [?|[?|?]].
  - eapply rep_outside; [exact Ho| |exact Hl]. intros b Hb. apply Hdis. rewrite elem_of_cons, !elem_of_app. auto.
  - eapply rep_outside; [exact Ho| |exact Hyr]. intros b Hb. apply Hdis. rewrite elem_of_cons, !elem_of_app. auto.
  - done.
  - eapply krep_outside; [exact Ho| |done|exact Hk]. intros b Hb. apply Hdis. rewrite elem_of_cons, !elem_of_app. auto.
  - done.
Qed.

(** ** The whole of [__rb_erase_augmented] *)

Lemma plug_app ks K t : plug (ks ++ K) t = plug K (plug ks t).
Proof. revert t. induction ks as [|f ks IH]; intros t; simpl; [done|apply IH]. Qed.
Lemma kl_app ks K : kl (ks ++ K) = kl K ++ kl ks.
Proof. induction ks as [|[c a r|c l a] ks IH]; simpl; [by rewrite app_nil_r|done|]. by rewrite IH, <- app_assoc. Qed.
Lemma kr_app ks K : kr (ks ++ K) = kr ks ++ kr K.
Proof. induction ks as [|[c a r|c l a] ks IH]; simpl; [done| |done]. by rewrite IH, app_assoc. Qed.
Lemma kl_left ks : Forall (fun f => exists c a r, f = FL c a r) ks -> kl ks = [].
Proof. induction 1 as [|f ks (c & a & r & ->) _ IH]; simpl; done. Qed.
Lemma kend_app ks f p : kend (ks ++ [f]) p = faddr f.
Proof. revert p. induction ks as [|g ks IH]; intros p; simpl; [done|apply IH]. Qed.
Lemma knext_app ks f top : knext (ks ++ [f]) top = knext ks (faddr f).
Proof. by destruct ks. Qed.

Lemma kbalanced_addr ks c l x y k n red :
  kbalanced (ks ++ FR c l x :: k) n red <-> kbalanced (ks ++ FR c l y :: k) n red.
Proof.
  revert n red. induction ks as [|[[] a r|[] r a] ks IH]; intros n red; simpl; [by destruct c|..];
    rewrite IH; done.
Qed.

Lemma inorder_blacken t : inorder (blacken t) = inorder t.
Proof. by destruct t. Qed.
Lemma addrs_blacken t : addrs (blacken t) = addrs t.
Proof. by destruct t. Qed.

(** What is left after unlinking: a balanced tree, or the place of a missing
    black node, where the rebalancing starts. *)
Definition unlinked (b : Z) (k : list frame) (t : tree) : Prop :=
  (b = 0 /\ exists n red, kbalanced k n red /\ balanced t n /\ (red = false -> black_root t)) \/
  (k <> [] /\ b = kptr k /\ t = Leaf /\ kbalanced k 1 false).

(** The hole left by a node with at most one child. *)
Lemma unlinked_hole c k t n :
  balanced (Node c Leaf 0 t) n \/ balanced (Node c t 0 Leaf) n ->
  kbalanced k n (match c with Red => true | Black => false end) ->
  unlinked (match t, c with Leaf, Black => kptr k | _, _ => 0 end) k (blacken t).
Proof.
  intros Hb Hk. destruct t as [|ct tl ta tr]; simpl.
  - destruct c; simpl in *.
    + left. split; [done|]. exists n, true. destruct Hb as [Hb|Hb]; tauto.
    + destruct n as [|n]; [tauto|]. assert (n = O) as -> by tauto.
      destruct k as [|f k]; [left|right; done]. split; [done|]. exists O, false. done.
  - left. split; [done|]. destruct c; simpl in Hb.
    + exists n, true. split; [done|]. destruct ct; simpl in *; [tauto|].
      destruct n; [tauto|]. simpl in Hb. by destruct Hb as [(Hz & _)|(_ & Hz & _)].
    + destruct n as [|n]; [tauto|]. exists (S n), false. split; [done|]. split; [|done].
      assert (n = O) as -> by tauto. destruct ct; simpl in *; tauto.
Qed.

(** The result of [__rb_erase_augmented] at the position [k] of the node [x]
    with the subtrees [l] and [r]. *)
Definition erased (s : rb_tree) (k : list frame) (l : tree) (x : Z) (r : tree) (b : Z) (s' : rb_tree) : Prop :=
  exists k' t', at_pos s' k' t' /\ unlinked b k' t' /\
    inorder (plug k' t') = kl k ++ (inorder l ++ inorder r) ++ kr k /\
    same_outside (x :: addrs l ++ addrs r ++ kaddrs k) s s' /\
    forall a, a ∈ addrs t' ++ kaddrs k' -> a ∈ x :: addrs l ++ addrs r ++ kaddrs k.

Lemma erase_no_left s k c x r n :
  at_pos s k (Node c Leaf x r) -> balanced (Node c Leaf x r) n ->
  kbalanced k n (match c with Red => true | Black => false end) ->
  exists b s', __rb_erase_augmented x s = Ok (b, s') /\ erased s k Leaf x r b s'.
Proof.
  intros (Hrep & Hk & Hnd) Hb Hkb. pose proof (kptr_aligned _ _ _ _ Hk) as Hka.
  cbn [rep ptr addrs] in Hrep, Hk, Hnd. destruct Hrep as (Hx & Hxm & _ & Hr). simpl in Hnd.
  assert (NoDup (kaddrs k)) as Hndk by (apply (NoDup_part _ (x :: addrs r)); perm_nodup Hnd).
  assert (forall a, a ∈ addrs r -> a ∉ kaddrs k) as Hdis by (apply (NoDup_disj _ _ [x]); perm_nodup Hnd).
  pose proof (unlinked_hole c k r n ltac:(left; destruct c; exact Hb) Hkb) as Hun.
  unfold __rb_erase_augmented. mstep (rd_eq s x _ ltac:(auto with slotfs) Hxm).
  cbn [rb_left rb_right __rb_parent_color ptr]. simpl (0 =? 0). cbv zeta iota.
  rewrite rb_parent_pc by done. pose proof Hnd as Hnd0. nodup_facts Hnd0.
  destruct (change_child_spec s k x (ptr r) Hk Hndk) as (s1 & Hs1 & Hk1 & Ho1); [auto with slotfs|done|].
  mstep Hs1.
  assert (rep (rb_nodes s1) x r) as Hr1 by (eapply rep_ext; [|exact Hr]; intros a Ha; by apply Ho1, Hdis).
  destruct r as [|cr rl ra rr].
  - simpl (negb _). cbv iota. rewrite rb_black_pc by done.
    eexists _, s1. split; [reflexivity|]. exists k, Leaf.
    split_and!; [done|by destruct c|by rewrite inorder_plug|intros a Ha; apply Ho1|mem_tac].
    rewrite not_elem_of_cons, not_elem_of_app in Ha. simpl in Ha. tauto.
  - cbn [rep ptr] in Hr1, Hk1 |- *. destruct Hr1 as (Hra & Hram & Hrl & Hrr).
    rewrite (proj2 (Z.eqb_neq ra 0)) by auto with slotfs. cbn [negb]. unfold set_pc.
    erewrite M_bind_step by (apply wr_eq; [auto with slotfs|exact Hram]). cbn [rb_left rb_right].
    assert (c = Black) as ->.
    { destruct c; [|done]. simpl in Hb. destruct Hb as (-> & Hb & _ & Hrb). destruct cr; [done|]. by destruct Hb. }
    assert (NoDup (ra :: x :: addrs rl ++ addrs rr ++ kaddrs k)) as Hnd' by perm_nodup Hnd.
    nodup_facts Hnd'. eexists 0, _. split; [reflexivity|]. exists k, (Node Black rl ra rr).
    split_and!; [|exact Hun|by rewrite inorder_plug| |mem_tac].
    + split_and!; [simpl; split_and!; try done; try rb_lk; rb_frame|simpl; rb_frame|].
      apply (NoDup_part _ [x]). perm_nodup Hnd.
    + intros a Ha. simpl in Ha. repeat (rewrite not_elem_of_cons in Ha || rewrite not_elem_of_app in Ha).
      destruct_and? Ha. simpl. rewrite lookup_insert_ne by congruence. by apply Ho1.
Qed.

Lemma erase_no_right s k c x l n :
  at_pos s k (Node c l x Leaf) -> l <> Leaf -> balanced (Node c l x Leaf) n ->
  kbalanced k n (match c with Red => true | Black => false end) ->
  exists b s', __rb_erase_augmented x s = Ok (b, s') /\ erased s k l x Leaf b s'.
Proof.
  intros (Hrep & Hk & Hnd) Hne Hb Hkb. pose proof (kptr_aligned _ _ _ _ Hk) as Hka.
  cbn [rep ptr] in Hrep, Hk. destruct Hrep as (Hx & Hxm & Hl & _). destruct l as [|cl ll la lr]; [done|].
  pose proof (unlinked_hole c k (Node cl ll la lr) n ltac:(right; destruct c; exact Hb) Hkb) as Hun.
  assert (NoDup (kaddrs k)) as Hndk by (apply (NoDup_part _ (x :: la :: addrs ll ++ addrs lr)); perm_nodup Hnd).
  assert (forall a, a ∈ addrs ll ++ addrs lr -> a ∉ kaddrs k) as Hdis
    by (apply (NoDup_disj _ _ (x :: [la])); perm_nodup Hnd).
  assert (NoDup (la :: x :: addrs ll ++ addrs lr ++ kaddrs k)) as Hnd' by perm_nodup Hnd.
  nodup_facts Hnd'. cbn [rep ptr] in Hl, Hxm. destruct Hl as (Hla & Hlm & Hll & Hlr).
  assert (c = Black) as ->.
  { destruct c; [|done]. simpl in Hb. destruct Hb as (Hb & -> & Hrb & _). destruct cl; [done|]. by destruct Hb. }
  unfold __rb_erase_augmented. mstep (rd_eq s x _ ltac:(auto with slotfs) Hxm).
  cbn [rb_left rb_right __rb_parent_color ptr]. cbv zeta.
  rewrite (proj2 (Z.eqb_neq la 0)) by auto with slotfs. simpl (0 =? 0). cbv iota.
  rb_step. rewrite (rb_parent_pc (kptr k) Black) by done.
  match goal with |- context [(__rb_change_child _ _ _ ≫= _) ?st] =>
    destruct (change_child_spec st k x la) as (s1 & Hs1 & Hk1 & Ho1) end;
    [simpl; rb_frame|done|auto with slotfs|done|].
  mstep Hs1. simpl in Ho1. exists 0, s1. split; [done|]. exists k, (Node Black ll la lr).
  assert (forall q t, rep (rb_nodes s) q t -> la ∉ addrs t -> (forall a, a ∈ addrs t -> a ∉ kaddrs k) ->
    rep (rb_nodes s1) q t) as Hkeep.
  { intros q t Ht Hn Hd. eapply rep_ext; [|exact Ht]. intros a Ha. rewrite Ho1 by auto.
    apply lookup_insert_ne. by intros ->. }
  split_and!; [|exact Hun|inorder_tac| |mem_tac].
  - split_and!; [simpl; split_and!; try done|done|].
    + rewrite Ho1 by done. apply lookup_insert_eq.
    + apply Hkeep; try done. intros a Ha. apply Hdis, elem_of_app. by left.
    + apply Hkeep; try done. intros a Ha. apply Hdis, elem_of_app. by right.
    + apply (NoDup_part _ [x]). perm_nodup Hnd.
  - intros a Ha. simpl in Ha. repeat (rewrite not_elem_of_cons in Ha || rewrite not_elem_of_app in Ha).
    rewrite Ho1 by tauto. apply lookup_insert_ne. destruct_and? Ha. congruence.
Qed.

(** What the replacement of [x] by its successor [y] establishes. *)
Lemma erased_successor s k ks c l x y cy yr s' N :
  balanced (plug (ks ++ FR c l x :: k) (Node cy Leaf y yr)) N ->
  black_root (plug (ks ++ FR c l x :: k) (Node cy Leaf y yr)) ->
  Forall (fun f => exists c a r, f = FL c a r) ks ->
  at_pos s' (ks ++ FR c l y :: k) (blacken yr) ->
  same_outside (x :: addrs l ++ (y :: addrs yr ++ kaddrs ks) ++ kaddrs k) s s' ->
  erased s k l x (plug ks (Node cy Leaf y yr))
    (match yr, cy with Leaf, Black => knext ks y | _, _ => 0 end) s'.
Proof.
  intros Hb Hr Hall Hat Ho. destruct (balanced_plug_inv _ _ _ Hb Hr) as (n & Hbn & Hkn).
  assert (forall a, a ∈ x :: addrs l ++ (y :: addrs yr ++ kaddrs ks) ++ kaddrs k ->
    a ∈ x :: addrs l ++ addrs (plug ks (Node cy Leaf y yr)) ++ kaddrs k) as Hsub.
  { intros a. rewrite addrs_plug. simpl. rewrite !elem_of_cons, !elem_of_app, !elem_of_cons, !elem_of_app. tauto. }
  exists (ks ++ FR c l y :: k), (blacken yr). split_and!; [done| | | |].
  - replace (knext ks y) with (kptr (ks ++ FR c l y :: k)) by apply kptr_app.
    apply (unlinked_hole cy _ yr n); [left; by destruct cy|].
    rewrite <- (kbalanced_addr ks c l x y). by destruct cy.
  - rewrite inorder_plug, inorder_blacken, kl_app, kr_app, (kl_left ks Hall), inorder_plug, (kl_left ks Hall).
    repeat (progress (simpl; rewrite <- ?app_assoc, ?app_nil_r)). done.
  - eapply same_outside_mono; [exact Ho|exact Hsub].
  - intros a Ha. apply Hsub. rewrite addrs_blacken, kaddrs_app in Ha. simpl in Ha.
    rewrite !elem_of_app, !elem_of_cons, !elem_of_app in *. rewrite !elem_of_cons, !elem_of_app. tauto.
Qed.

Lemma knext_irrel ks p p' : ks <> [] -> knext ks p = knext ks p'.
Proof. by destruct ks. Qed.

(** The end of [__rb_erase_augmented], from the test of [child2] on. *)
Definition erase_finish (successor child2 parent pc : Z) : M rb_tree Z :=
  if negb (child2 =? 0) then
    _ ← set_pc successor pc;
    _ ← rb_set_parent_color child2 parent RB_BLACK;
    mret 0
  else
    sc ← rd successor;
    let pc2 := __rb_parent_color sc in
    _ ← set_pc successor pc;
    mret (if __rb_is_black pc2 then parent else 0).

Lemma erase_two s k c l x r N :
  at_pos s k (Node c l x r) -> l <> Leaf -> r <> Leaf ->
  balanced (plug k (Node c l x r)) N -> black_root (plug k (Node c l x r)) ->
  exists b s', __rb_erase_augmented x s = Ok (b, s') /\ erased s k l x r b s'.
Proof.
  intros Hat Hnl Hnr Hb Hbr. pose proof Hat as (Hrep & Hk & Hnd). cbn [rep ptr] in Hrep, Hk.
  pose proof (kptr_aligned _ _ _ _ Hk) as Hka. destruct Hrep as (Hx & Hxm & Hl & Hr).
  unfold __rb_erase_augmented. mstep (rd_eq s x _ ltac:(auto with slotfs) Hxm).
  cbn [rb_left rb_right __rb_parent_color]. cbv zeta.
  assert (forall t q, t <> Leaf -> rep (rb_nodes s) q t -> (ptr t =? 0) = false) as Hpz.
  { intros [|ct tl a tr] q ? Ht; [done|]. cbn [rep] in Ht. destruct Ht as [? _]. apply Z.eqb_neq. simpl. auto with slotfs. }
  rewrite (Hpz l x Hnl Hl), (Hpz r x Hnr Hr).
  destruct r as [|cr rl ra rr]; [done|]. clear Hnr. cbn [rep ptr] in Hr, Hxm |- *.
  destruct Hr as (Hra & Hram & Hrl & Hrr).
  mstep (rd_eq s ra _ ltac:(auto with slotfs) Hram). cbn [rb_left rb_right].
  destruct (decide (rl = Leaf)) as [->|Hnrl].
  - simpl (0 =? 0). cbv iota. mstep eq_refl.
    destruct (replace_links s k [] c l x ra rr (x + colz cr) ra) as (s1 & Hs1 & Hy1 & Hl1 & Hr1 & _ & Hk1 & Ho1);
      try done; [simpl; perm_nodup Hnd|].
    destruct (replace_color s1 k [] c l ra rr cr x Hy1 Hl1 Hr1) as (s2 & Hs2 & Hat2 & Ho2); try done; auto with slotfs.
    { simpl. apply (NoDup_part _ [x]). perm_nodup Hnd. }
    eexists _, s2. split.
    { etrans; [apply (Hs1 Z (erase_finish ra (ptr rr) ra))|exact Hs2]. }
    apply (erased_successor s k [] c l x ra cr rr s2 N); try done.
    eapply same_outside_trans; (eapply same_outside_mono; [eassumption|mem_tac]).
  - rewrite (Hpz rl ra Hnrl Hrl).
    destruct (leftmost_loop_spec s rl ra ra Hnrl Hrl) as (ks0 & cy & y & yr & Erl & Hall0 & Hrun).
    set (ks := ks0 ++ [FL cr ra rr]).
    assert (Node cr rl ra rr = plug ks (Node cy Leaf y yr)) as Er by (unfold ks; by rewrite plug_app, Erl).
    assert (Forall (fun f => exists c a r, f = FL c a r) ks) as Hall.
    { apply Forall_app. split; [done|]. constructor; [by do 3 eexists|constructor]. }
    assert (at_pos s (ks ++ FR c l x :: k) (Node cy Leaf y yr)) as Hat'.
    { rewrite at_pos_plug, plug_app, <- Er. cbn [plug fill]. by rewrite <- at_pos_plug. }
    assert (ks <> []) as Hks by (unfold ks; by destruct ks0).
    assert (knext ks x = knext ks0 ra) as Hkx by apply knext_app.
    assert (kend ks y = ra) as Hke by apply kend_app.
    pose proof (path_length _ _ _ Hat') as Hlen. unfold ks in Hlen. rewrite !length_app in Hlen. simpl in Hlen.
    destruct (unlink_successor s ks c l x k cy y yr Hat' Hks Hall)
      as (s1 & Hs1 & Hx1 & Hy1 & Hl1 & Hyr1 & Hseg1 & Hk1 & Ho1).
    destruct Hat' as (Hrep' & Hk' & Hnd'). cbn [rep ptr] in Hrep'. destruct Hrep' as (Hy & Hym & _ & Hyr).
    rewrite krep_app in Hk'. destruct Hk' as [Hseg _]. cbn [kptr] in Hseg. rewrite kaddrs_app in Hnd'. cbn [kaddrs addrs] in Hnd'.
    assert (aligned0 (knext ks x)) as Hanx by (eapply knext_aligned; [exact Hseg|auto with slotfs]).
    assert (aligned0 (knext ks y)) as Hany by (eapply knext_aligned; [exact Hseg1|auto with slotfs]).
    destruct (replace_links s1 k ks c l x y yr _ _ Hx1 Hy1) as (s2 & Hs2 & Hy2 & Hl2 & Hr2 & Hseg2 & Hk2 & Ho2);
      try done; [perm_nodup Hnd'|].
    destruct (replace_color s2 k ks c l y yr cy x Hy2 Hl2 Hr2 Hseg2 Hk2) as (s3 & Hs3 & Hat3 & Ho3); try done.
    { apply (NoDup_part _ [x]). perm_nodup Hnd'. }
    eexists _, s3. rewrite Er. split; [|apply (erased_successor s k ks c l x y cy yr s3 N); try done].
    + unfold gets at 1. cbv zeta. erewrite M_bind_step.
      2:{ mstep eq_refl. mstep (Hrun (rb_fuel s) ltac:(unfold rb_fuel; lia)).
          mstep (rd_eq s y _ ltac:(auto with slotfs) Hym). cbn [rb_right]. rewrite <- Hkx. rewrite Hke in Hs1.
          apply M_bind_Ok in Hs1 as ([] & sa & Ha & Hs1). mstep Ha.
          apply M_bind_Ok in Hs1 as ([] & sb & Hsb & Hs1). mstep Hsb. mstep Hs1. reflexivity. }
      rewrite (knext_irrel ks x y) by done.
      etrans; [apply (Hs2 Z (erase_finish y (ptr yr) (knext ks y)))|exact Hs3].
    + rewrite plug_app, <- Er. exact Hb.
    + rewrite plug_app, <- Er. exact Hbr.
    + eapply same_outside_trans; [eapply same_outside_mono; [exact Ho1|mem_tac]|].
      eapply same_outside_trans; (eapply same_outside_mono; [eassumption|mem_tac]).
Qed.

Lemma rb_erase_augmented_spec s k c l x r N :
  at_pos s k (Node c l x r) -> balanced (plug k (Node c l x r)) N -> black_root (plug k (Node c l x r)) ->
  exists b s', __rb_erase_augmented x s = Ok (b, s') /\ erased s k l x r b s'.
Proof.
  intros Hat Hb Hr. destruct (balanced_plug_inv _ _ _ Hb Hr) as (n & Hbn & Hkn).
  destruct (decide (l = Leaf)) as [->|Hl]; [by eapply erase_no_left; [| |destruct c]|].
  destruct (decide (r = Leaf)) as [->|Hr']; [by eapply erase_no_right; [| | |destruct c]|].
  by eapply erase_two.
Qed.

(** [rb_erase] removes exactly the given node from the sequence. *)
Lemma rb_erase_spec s k c l x r :
  rb_inv s (plug k (Node c l x r)) ->
  exists s' t', rb_erase x s = Ok (tt, s') /\ rb_inv s' t' /\
    inorder t' = kl k ++ (inorder l ++ inorder r) ++ kr k /\
    same_outside (addrs (plug k (Node c l x r))) s s'.
Proof.
  intros (Hat & N & Hb & Hr). rewrite <- at_pos_plug in Hat.
  destruct (rb_erase_augmented_spec s k c l x r N Hat Hb Hr)
    as (b & s1 & Hs1 & k' & t' & Hat' & Hun & Hin & Ho & Hsub).
  assert (forall a, a ∈ x :: addrs l ++ addrs r ++ kaddrs k -> a ∈ addrs (plug k (Node c l x r))) as Hall.
  { intros a. rewrite addrs_plug. simpl. rewrite !elem_of_cons, !elem_of_app. tauto. }
  unfold rb_erase. mstep Hs1. destruct Hun as [(-> & n & red & Hk & Hbt & Hrt)|(Hne & -> & -> & Hk)].
  - simpl (negb _). exists s1, (plug k' t'). split_and!; [done| |done|by eapply same_outside_mono].
    split; [by rewrite <- at_pos_plug|]. by eapply balanced_plug.
  - rewrite (proj2 (Z.eqb_neq (kptr k') 0)).
    2:{ destruct Hat' as (_ & Hkr & _). destruct k' as [|[]]; [done|..]; simpl in *; destruct Hkr as [? _]; auto with slotfs. }
    cbn [negb]. unfold ____rb_erase_color, gets. mstep eq_refl.
    destruct (erase_loop_spec (rb_fuel s1) k' s1 Leaf 0%nat) as (s2 & Hs2 & t2 & Hat2 & Hin2 & Hb2 & Ho2); try done.
    { pose proof (path_length _ _ _ Hat'). unfold rb_fuel. lia. }
    exists s2, t2. split_and!; [exact Hs2|done|by rewrite Hin2|].
    eapply same_outside_trans; [by eapply same_outside_mono|]. eapply same_outside_mono; [exact Ho2|]. auto.
Qed.
