(* ===== verification/DirIndex.v ===== *)
(** * The index of a directory (src/slotfs/inode.c: dirent_lookup, dir_index_insert)

    A directory finds its entries by the hash of their names in a red-black
    tree of [dirent_t]s.  [hash_of] is the field [hash] of the entry at an
    address; an entry and its embedded [rb_node] have the same address here
    ([container_of]).  [index_rep s l] says that the tree is a
    red-black tree holding the entries [l] in the order of their hashes;
    [dir_index_refines_map] gives the index the contract of a finite map. *)
From stdpp Require Import base numbers list gmap sorting.
From Stdlib Require Import Permutation.
From S2P Require Import Prelude Rbtree RbErase.
Local Open Scope Z_scope.

Definition EEXIST : Z := 17.

Section index.
Context (hash_of : Z -> Z).

Fixpoint lookup_loop (fuel : nat) (temp hash : Z) : M rb_tree Z :=
  match fuel with
  | O => throw OutOfFuel
  | S fuel' =>
      if temp =? 0 then mret 0 else
      n ← rd temp;
      if hash <? hash_of temp then lookup_loop fuel' (rb_left n) hash
      else if hash >? hash_of temp then lookup_loop fuel' (rb_right n) hash
      else mret temp
  end.

(** [dirent_lookup]: the entry with this hash, or NULL. *)
Definition index_lookup (hash : Z) : M rb_tree Z :=
  temp ← gets root_node;
  fuel ← gets rb_fuel;
  lookup_loop fuel temp hash.

(** The descent of [dir_index_insert]: [inl] is the -EEXIST return, [inr] the
    parent and the pointer to link the new node at. *)
Fixpoint insert_pos_loop (fuel : nat) (hash : Z) (temp : rb_link) (parent : Z)
    : M rb_tree (Z + Z * rb_link) :=
  match fuel with
  | O => throw OutOfFuel
  | S fuel' =>
      curr ← read_link temp;
      if curr =? 0 then mret (inr (parent, temp)) else
      if hash <? hash_of curr then insert_pos_loop fuel' hash (LLeft curr) curr
      else if hash >? hash_of curr then insert_pos_loop fuel' hash (LRight curr) curr
      else mret (inl (- EEXIST))
  end.

Definition dir_index_insert (d : Z) : M rb_tree Z :=
  fuel ← gets rb_fuel;
  r ← insert_pos_loop fuel (hash_of d) LRoot 0;
  match r with
  | inl ret => mret ret
  | inr (parent, temp) =>
      _ ← rb_link_node d parent temp;
      _ ← rb_insert_color d;
      mret 0
  end.

(** ** The sorted sequence of entries *)

Definition hash_lt (a b : Z) : Prop := hash_of a < hash_of b.

Definition index_rep (s : rb_tree) (l : list Z) : Prop :=
  exists t, rb_inv s t /\ inorder t = l /\ StronglySorted hash_lt l.

Lemma addrs_inorder t : inorder t ≡ₚ addrs t.
Proof.
  induction t as [|c l IHl a r IHr]; simpl; [done|]. rewrite IHl, IHr. solve_Permutation.
Qed.

Lemma elem_of_inorder t a : a ∈ inorder t <-> a ∈ addrs t.
Proof. by rewrite addrs_inorder. Qed.

Lemma sorted_app_iff l1 l2 :
  StronglySorted hash_lt (l1 ++ l2) <->
  StronglySorted hash_lt l1 /\ StronglySorted hash_lt l2 /\ forall a b, a ∈ l1 -> b ∈ l2 -> hash_lt a b.
Proof.
  induction l1 as [|x l1 IH]; simpl.
  - split; [|tauto]. intros. split_and!; [constructor|done|by intros a b ?%elem_of_nil].
  - split.
    + intros Hs. inversion Hs as [|? ? Hs' Hf]; subst. apply IH in Hs' as (? & ? & Hd).
      rewrite Forall_forall in Hf. setoid_rewrite elem_of_app in Hf.
      split_and!; [constructor; [done|rewrite Forall_forall; auto]|done|].
      intros a b [->|?]%elem_of_cons ?; auto.
    + intros (Hs1 & Hs2 & Hd). inversion Hs1 as [|? ? Hs' Hf]; subst. constructor.
      * apply IH. split_and!; try done. intros a b ? ?. apply Hd; [apply elem_of_cons; by right|done].
      * rewrite Forall_forall in Hf |- *. intros a [?|?]%elem_of_app; [auto|].
        apply Hd; [apply elem_of_cons; by left|done].
Qed.

Lemma sorted_mid l1 x l2 :
  StronglySorted hash_lt (l1 ++ x :: l2) ->
  (forall a, a ∈ l1 -> hash_lt a x) /\ (forall a, a ∈ l2 -> hash_lt x a).
Proof.
  intros (_ & Hs & Hd)%sorted_app_iff. inversion Hs as [|? ? _ Hf]; subst.
  rewrite Forall_forall in Hf. split; [|done]. intros a Ha. apply Hd; [done|]. apply elem_of_cons. by left.
Qed.

Lemma kaddrs_kl_kr k a : a ∈ kl k ++ kr k <-> a ∈ kaddrs k.
Proof.
  pose proof (elem_of_inorder (plug k Leaf) a) as H. rewrite inorder_plug, addrs_plug in H. simpl in H.
  exact H.
Qed.

(** ** Lookup *)

Lemma lookup_loop_spec s k t hash fuel :
  at_pos s k t -> StronglySorted hash_lt (inorder t) -> (length (inorder t) < fuel)%nat ->
  exists a, lookup_loop fuel (ptr t) hash s = Ok (a, s) /\
    (a <> 0 -> a ∈ inorder t /\ hash_of a = hash) /\
    (a = 0 -> forall x, x ∈ inorder t -> hash_of x <> hash).
Proof.
  revert s k fuel. induction t as [|c l IHl a r IHr]; intros s k fuel Hat Hs Hf.
  - exists 0. destruct fuel; [simpl in Hf; lia|]. split; [done|]. split; [done|]. by intros _ x ?%elem_of_nil.
  - simpl inorder in Hs, Hf. rewrite length_app in Hf. simpl in Hf.
    destruct (sorted_mid _ _ _ Hs) as (Hlt & Hgt).
    apply sorted_app_iff in Hs as (Hsl & Hsr & _). inversion Hsr as [|? ? Hsr' _]; subst.
    destruct fuel as [|fuel]; [lia|]. destruct (at_pos_node _ _ _ _ _ _ Hat) as (Ha & _ & Hm).
    cbn [lookup_loop ptr]. rewrite (proj2 (Z.eqb_neq a 0)) by auto with slotfs.
    mstep (rd_eq s a _ ltac:(auto with slotfs) Hm). cbn [rb_left rb_right].
    unfold hash_lt in *. destruct (Z.ltb_spec hash (hash_of a)) as [H1|H1]; [|destruct (Z.gtb_spec hash (hash_of a))].
    + destruct (IHl s (FL c a r :: k) fuel) as (x & Hx & Hnz & Hz); [by rewrite at_pos_up|done|lia|].
      exists x. split; [done|]. simpl. setoid_rewrite elem_of_app. setoid_rewrite elem_of_cons.
      split; [intros Hnx; destruct (Hnz Hnx); auto|]. intros ->. intros y [?|[->|Hy]]; [by apply Hz|lia|]. apply Hgt in Hy. lia.
    + destruct (IHr s (FR c l a :: k) fuel) as (x & Hx & Hnz & Hz); [by rewrite at_pos_up|done|lia|].
      exists x. split; [done|]. simpl. setoid_rewrite elem_of_app. setoid_rewrite elem_of_cons.
      split; [intros Hnx; destruct (Hnz Hnx); auto|]. intros ->. intros y [Hy|[->|Hy]]; [|lia|by apply Hz]. apply Hlt in Hy. lia.
    + exists a. split; [done|]. split; [|intros ->; by apply aligned_nz in Ha].
      intros _. split; [|lia]. simpl. rewrite elem_of_app, elem_of_cons. auto.
Qed.

Lemma index_fuel s t : at_pos s [] t -> (length (inorder t) < rb_fuel s)%nat.
Proof.
  intros (Hr & _ & Hnd). simpl in Hnd. rewrite app_nil_r in Hnd. rewrite addrs_inorder. unfold rb_fuel.
  enough (length (addrs t) <= size (rb_nodes s))%nat by lia.
  rewrite <- (size_list_to_set (C:=gset Z) (addrs t)) by done.
  rewrite <- size_dom. apply subseteq_size. intros a Ha%elem_of_list_to_set.
  apply elem_of_dom. by eapply rep_dom.
Qed.

Lemma index_lookup_spec s l hash :
  index_rep s l ->
  exists a, index_lookup hash s = Ok (a, s) /\ (a <> 0 -> a ∈ l /\ hash_of a = hash) /\
    (a = 0 -> forall x, x ∈ l -> hash_of x <> hash).
Proof.
  intros (t & (Hat & _) & <- & Hs). unfold index_lookup, gets. do 2 mstep eq_refl.
  pose proof Hat as (_ & Hroot & _). simpl in Hroot. rewrite Hroot.
  eapply lookup_loop_spec; [done|done|by apply index_fuel].
Qed.

(** ** Insertion *)

Lemma read_link_spec s k t : at_pos s k t -> read_link (klink k) s = Ok (ptr t, s).
Proof.
  intros (_ & Hk & _). destruct k as [|[c a r|c l a] k]; simpl in *.
  - unfold gets. by rewrite Hk.
  - destruct Hk as (Ha & Hm & _). by mstep (rd_eq s a _ ltac:(auto with slotfs) Hm).
  - destruct Hk as (Ha & Hm & _). by mstep (rd_eq s a _ ltac:(auto with slotfs) Hm).
Qed.

Lemma insert_pos_loop_spec s k t hash fuel :
  at_pos s k t -> StronglySorted hash_lt (inorder t) -> (length (inorder t) < fuel)%nat ->
  (forall a, a ∈ kl k -> hash_of a < hash) -> (forall a, a ∈ kr k -> hash < hash_of a) ->
  (insert_pos_loop fuel hash (klink k) (kptr k) s = Ok (inl (- EEXIST), s) /\
   exists a, a ∈ inorder t /\ hash_of a = hash) \/
  exists k', insert_pos_loop fuel hash (klink k) (kptr k) s = Ok (inr (kptr k', klink k'), s) /\
    plug k' Leaf = plug k t /\
    (forall a, a ∈ kl k' -> hash_of a < hash) /\ (forall a, a ∈ kr k' -> hash < hash_of a).
Proof.
  revert s k fuel. induction t as [|c l IHl a r IHr]; intros s k fuel Hat Hs Hf Hkl Hkr.
  - destruct fuel; [simpl in Hf; lia|]. right. exists k. split; [|done].
    cbn [insert_pos_loop]. by mstep (read_link_spec s k Leaf Hat).
  - simpl inorder in Hs, Hf. rewrite length_app in Hf. simpl in Hf.
    destruct (sorted_mid _ _ _ Hs) as (Hlt & Hgt).
    apply sorted_app_iff in Hs as (Hsl & Hsr & _). inversion Hsr as [|? ? Hsr' _]; subst.
    destruct fuel as [|fuel]; [lia|]. destruct (at_pos_node _ _ _ _ _ _ Hat) as (Ha & _ & Hm).
    cbn [insert_pos_loop]. mstep (read_link_spec s k _ Hat). cbn [ptr].
    rewrite (proj2 (Z.eqb_neq a 0)) by auto with slotfs. unfold hash_lt in *.
    destruct (Z.ltb_spec hash (hash_of a)) as [H1|H1]; [|destruct (Z.gtb_spec hash (hash_of a))].
    + destruct (IHl s (FL c a r :: k) fuel) as [(Hx & y & Hy & Hh)|(k' & Hx & Hp & Hk')];
        [by rewrite at_pos_up|done|lia|done| | |].
      * cbn [kr]. intros y. rewrite elem_of_cons, elem_of_app.
        intros [->|[Hy|Hy]]; [done| |by apply Hkr]. apply Hgt in Hy. lia.
      * left. split; [done|]. exists y. simpl. rewrite elem_of_app. auto.
      * right. by exists k'.
    + destruct (IHr s (FR c l a :: k) fuel) as [(Hx & y & Hy & Hh)|(k' & Hx & Hp & Hk')];
        [by rewrite at_pos_up|done|lia| |done| |].
      * cbn [kl]. intros y. rewrite !elem_of_app, list_elem_of_singleton.
        intros [Hy|[Hy| ->]]; [by apply Hkl| |lia]. apply Hlt in Hy. lia.
      * left. split; [done|]. exists y. simpl. rewrite elem_of_app, elem_of_cons. auto.
      * right. by exists k'.
    + left. split; [done|]. exists a. simpl. rewrite elem_of_app, elem_of_cons. split; [auto|lia].
Qed.

Lemma dir_index_insert_spec s l d :
  index_rep s l -> aligned d -> d ∉ l ->
  (dir_index_insert d s = Ok (- EEXIST, s) /\ exists a, a ∈ l /\ hash_of a = hash_of d) \/
  exists s' l1 l2, dir_index_insert d s = Ok (0, s') /\ l = l1 ++ l2 /\ index_rep s' (l1 ++ d :: l2) /\
    same_outside (d :: l) s s'.
Proof.
  intros (t & Hinv & <- & Hs) Hd Hni. pose proof Hinv as (Hat & _).
  unfold dir_index_insert, gets. mstep eq_refl.
  destruct (insert_pos_loop_spec s [] t (hash_of d) (rb_fuel s) Hat Hs (index_fuel s t Hat))
    as [(Hx & Hex)|(k' & Hx & Hp & Hkl & Hkr)];
    [by intros a ?%elem_of_nil|by intros a ?%elem_of_nil| |]; cbn [klink kptr] in Hx; mstep Hx; [by left|right].
  cbn [plug] in Hp. subst t. rewrite elem_of_inorder, addrs_plug in Hni. simpl in Hni.
  destruct (rb_insert_spec s k' d Hinv Hd Hni) as (s' & t' & Hs' & Hinv' & Hin & Ho).
  exists s', (kl k'), (kr k'). rewrite inorder_plug in *. simpl in Hs |- *. split_and!.
  - apply M_bind_Ok in Hs' as ([] & s1 & H1 & Hs'). mstep H1. by mstep Hs'.
  - done.
  - exists t'. split_and!; [done|done|]. apply sorted_app_iff in Hs as (Hs1 & Hs2 & Hs3).
    apply sorted_app_iff. split_and!; [done| |].
    + constructor; [done|]. apply Forall_forall. intros a Ha. by apply Hkr.
    + intros a b Ha [->|Hb]%elem_of_cons; [by apply Hkl|by apply Hs3].
  - eapply same_outside_mono; [exact Ho|]. intros a. rewrite !elem_of_cons, kaddrs_kl_kr. done.
Qed.

(** ** Removal *)

Lemma in_plug t x : x ∈ addrs t -> exists k c l r, t = plug k (Node c l x r).
Proof.
  induction t as [|c l IHl a r IHr]; simpl; [by intros ?%elem_of_nil|].
  rewrite elem_of_cons, elem_of_app. intros [->|[Hx|Hx]].
  - by exists [], c, l, r.
  - destruct (IHl Hx) as (k & c' & l' & r' & ->). exists (k ++ [FL c a r]), c', l', r'. by rewrite plug_app.
  - destruct (IHr Hx) as (k & c' & l' & r' & ->). exists (k ++ [FR c l a]), c', l', r'. by rewrite plug_app.
Qed.

Lemma index_erase_spec s l d :
  index_rep s l -> d ∈ l ->
  exists s' l1 l2, rb_erase d s = Ok (tt, s') /\ l = l1 ++ d :: l2 /\ index_rep s' (l1 ++ l2) /\
    same_outside l s s'.
Proof.
  intros (t & Hinv & <- & Hs) Hd. rewrite elem_of_inorder in Hd.
  destruct (in_plug t d Hd) as (k & c & l' & r & ->).
  destruct (rb_erase_spec s k c l' d r Hinv) as (s' & t' & Hs' & Hinv' & Hin & Ho).
  exists s', (kl k ++ inorder l'), (inorder r ++ kr k). rewrite inorder_plug in Hs |- *. simpl in Hs |- *.
  assert (kl k ++ (inorder l' ++ d :: inorder r) ++ kr k = (kl k ++ inorder l') ++ d :: inorder r ++ kr k) as E
    by (rewrite <- !app_assoc; simpl; by rewrite <- ?app_assoc).
  split_and!; [done|done| |].
  - exists t'. split_and!; [done|by rewrite Hin, <- !app_assoc|]. rewrite E in Hs.
    apply sorted_app_iff in Hs as (Hs1 & Hs2 & Hs3). inversion Hs2 as [|? ? Hs2' _]; subst.
    apply sorted_app_iff. split_and!; try done. intros a b ? ?. apply Hs3; [done|]. apply elem_of_cons. by right.
  - eapply same_outside_mono; [exact Ho|]. intros a. rewrite <- elem_of_inorder, inorder_plug. simpl. done.
Qed.
(** ** Frame and congruence *)

Lemma index_rep_frame s s' l :
  index_rep s l -> root_node s' = root_node s ->
  (forall a, a ∈ l -> rb_nodes s' !! a = rb_nodes s !! a) -> index_rep s' l.
Proof.
  intros (t & ((Hr & Hk & Hnd) & Hb) & <- & Hs) Hroot Hn. exists t. split_and!; try done.
  split; [|done]. split_and!; [|simpl in *; congruence|done].
  eapply rep_ext; [|exact Hr]. intros a Ha. apply Hn. by apply elem_of_inorder.
Qed.

Lemma index_rep_nodup s l : index_rep s l -> NoDup l.
Proof.
  intros (t & ((_ & _ & Hnd) & _) & <- & _). simpl in Hnd. rewrite app_nil_r in Hnd. by rewrite addrs_inorder.
Qed.

Lemma index_rep_aligned s l a : index_rep s l -> a ∈ l -> aligned a.
Proof.
  intros (t & ((Hr & _) & _) & <- & _) Ha. rewrite elem_of_inorder in Ha.
  clear -Hr Ha. revert Hr Ha. generalize (kptr []). induction t as [|c tl IHl x tr IHr]; intros q Hr Ha; simpl in *.
  - by apply elem_of_nil in Ha.
  - destruct Hr as (Hx & _ & Hl & Hr). apply elem_of_cons in Ha as [->|[Ha|Ha]%elem_of_app]; eauto.
Qed.

Lemma index_rep_hash_inj s l a b :
  index_rep s l -> a ∈ l -> b ∈ l -> hash_of a = hash_of b -> a = b.
Proof.
  intros (t & _ & _ & Hs) Ha Hb He. induction Hs as [|x l Hs IH Hf]; [by apply elem_of_nil in Ha|].
  rewrite Forall_forall in Hf. unfold hash_lt in Hf.
  apply elem_of_cons in Ha as [->|Ha]; apply elem_of_cons in Hb as [->|Hb]; [done| | |by apply IH].
  - apply Hf in Hb. lia.
  - apply Hf in Ha. lia.
Qed.

Lemma index_rep_empty nodes : index_rep (mk_tree 0 nodes) [].
Proof.
  exists Leaf. split_and!; [|done|constructor]. split; [|by exists O].
  split_and!; [done|done|]. constructor.
Qed.

(** ** The length of a search *)

Fixpoint height (t : tree) : nat :=
  match t with Leaf => O | Node _ l _ r => S (height l `max` height r) end.

Lemma balanced_height t n :
  balanced t n -> (height t <= 2 * n + if is_red t then 1 else 0)%nat.
Proof.
  revert n. induction t as [|c l IHl a r IHr]; intros n Hb; simpl in *; [lia|]. destruct c; simpl.
  - destruct Hb as (Hl & Hr & Hbl & Hbr). apply IHl in Hl. apply IHr in Hr.
    destruct l as [|[] ? ? ?], r as [|[] ? ? ?]; simpl in *; try done; lia.
  - destruct n as [|n]; [done|]. destruct Hb as (Hl & Hr). apply IHl in Hl. apply IHr in Hr.
    destruct (is_red l), (is_red r); lia.
Qed.

Lemma balanced_size t n : balanced t n -> (2 ^ n <= length (inorder t) + 1)%nat.
Proof.
  revert n. induction t as [|c l IHl a r IHr]; intros n Hb; simpl in *; [subst; simpl; lia|].
  rewrite length_app. simpl. destruct c.
  - destruct Hb as (Hl & Hr & _). apply IHl in Hl. lia.
  - destruct n as [|n]; [done|]. destruct Hb as (Hl & Hr). apply IHl in Hl. apply IHr in Hr. simpl. lia.
Qed.

Lemma lookup_loop_mono n k temp hash s r :
  lookup_loop n temp hash s = Ok r -> lookup_loop (n + k) temp hash s = Ok r.
Proof.
  destruct r as [r s'']. revert s temp. induction n as [|n IH]; intros s temp; [done|]. cbn [lookup_loop Nat.add].
  destruct (temp =? 0); [done|]. intros (m & s' & Hm & Hr)%M_bind_Ok. mstep Hm.
  destruct (hash <? hash_of temp); [by apply IH|]. destruct (hash >? hash_of temp); [by apply IH|done].
Qed.

Lemma lookup_loop_height s k t hash fuel :
  at_pos s k t -> (height t < fuel)%nat ->
  exists a, lookup_loop fuel (ptr t) hash s = Ok (a, s).
Proof.
  revert k fuel. induction t as [|c l IHl a r IHr]; intros k fuel Hat Hf; destruct fuel as [|fuel]; try (simpl in Hf; lia).
  - by exists 0.
  - destruct (at_pos_node _ _ _ _ _ _ Hat) as (Ha & _ & Hm). simpl in Hf.
    cbn [lookup_loop ptr]. rewrite (proj2 (Z.eqb_neq a 0)) by auto with slotfs.
    mstep (rd_eq s a _ ltac:(auto with slotfs) Hm). cbn [rb_left rb_right].
    destruct (hash <? hash_of a); [|destruct (hash >? hash_of a)].
    + apply (IHl (FL c a r :: k)); [by rewrite at_pos_up|lia].
    + apply (IHr (FR c l a :: k)); [by rewrite at_pos_up|lia].
    + by exists a.
Qed.

(** ** The index as a finite map *)

(** A finite map from hashes to entries, the contract of the index. *)
Definition index_abs (s : rb_tree) (m : gmap Z Z) : Prop :=
  exists l, index_rep s l /\ forall h a, m !! h = Some a <-> a ∈ l /\ hash_of a = h.

Inductive index_op : Type := OpLookup (hash : Z) | OpInsert (d : Z) | OpErase (d : Z).

Definition run_op (op : index_op) : M rb_tree Z :=
  match op with
  | OpLookup hash => index_lookup hash
  | OpInsert d => dir_index_insert d
  | OpErase d => _ ← rb_erase d; mret 0
  end.

Definition map_op (op : index_op) (m : gmap Z Z) : Z * gmap Z Z :=
  match op with
  | OpLookup hash => (default 0 (m !! hash), m)
  | OpInsert d =>
      match m !! hash_of d with
      | Some _ => (- EEXIST, m)
      | None => (0, <[hash_of d := d]> m)
      end
  | OpErase d => (0, delete (hash_of d) m)
  end.

(** What the callers guarantee: a new entry is not linked yet, an erased one is. *)
Definition op_ok (op : index_op) (m : gmap Z Z) : Prop :=
  match op with
  | OpLookup _ => True
  | OpInsert d => aligned d /\ forall h, m !! h <> Some d
  | OpErase d => m !! hash_of d = Some d
  end.

Fixpoint run_ops (ops : list index_op) : M rb_tree (list Z) :=
  match ops with
  | [] => mret []
  | op :: ops' => r ← run_op op; rs ← run_ops ops'; mret (r :: rs)
  end.

Fixpoint map_ops (ops : list index_op) (m : gmap Z Z) : list Z * gmap Z Z :=
  match ops with
  | [] => ([], m)
  | op :: ops' =>
      let '(r, m1) := map_op op m in let '(rs, m2) := map_ops ops' m1 in (r :: rs, m2)
  end.

Fixpoint ops_ok (ops : list index_op) (m : gmap Z Z) : Prop :=
  match ops with
  | [] => True
  | op :: ops' => op_ok op m /\ ops_ok ops' (map_op op m).2
  end.

Lemma run_op_refines op s m :
  index_abs s m -> op_ok op m ->
  exists s', run_op op s = Ok ((map_op op m).1, s') /\ index_abs s' (map_op op m).2.
Proof.
  intros (l & Hl & Hm) Hok. destruct op as [hash|d|d]; simpl in *.
  - destruct (index_lookup_spec s l hash Hl) as (a & Ha & Hnz & Hz). exists s. split; [|by exists l].
    rewrite Ha. do 2 f_equal. destruct (m !! hash) as [b|] eqn:E; simpl.
    + apply Hm in E as [Hb He]. destruct (decide (a = 0)) as [H0|H0]; [by destruct (Hz H0 b Hb)|].
      destruct (Hnz H0). apply (index_rep_hash_inj s l); [done|done|done|congruence].
    + destruct (decide (a = 0)) as [|H0]; [done|]. apply Hnz in H0. apply Hm in H0. congruence.
  - destruct Hok as [Hal Hnew]. assert (d ∉ l) as Hni.
    { intros Hd. apply (Hnew (hash_of d)). by apply Hm. }
    destruct (dir_index_insert_spec s l d Hl Hal Hni) as [(Hr & a & Ha & He)|(s' & l1 & l2 & Hr & -> & Hl' & _)].
    + rewrite (proj2 (Hm (hash_of d) a)) by done. exists s. split; [done|]. by exists l.
    + assert (m !! hash_of d = None) as ->.
      { apply eq_None_not_Some. intros [a Ha]. apply Hm in Ha as [Ha He].
        assert (a ∈ l1 ++ d :: l2) by (rewrite elem_of_app, elem_of_cons; apply elem_of_app in Ha; tauto).
        apply Hni. rewrite (index_rep_hash_inj s' _ d a Hl'); [done|apply elem_of_app; right; by left|done|done]. }
      exists s'. split; [done|]. simpl. exists (l1 ++ d :: l2). split; [done|]. intros h a.
      rewrite lookup_insert_Some, Hm, !elem_of_app, elem_of_cons. split; [intros [[<- <-]|?]; tauto|].
      intros [[?|[->|?]] He]; [|by left|].
      * right. split; [|tauto]. intros Hh. apply Hni. apply elem_of_app. left.
        rewrite (index_rep_hash_inj s' _ d a Hl'); [done|apply elem_of_app; right; by left|apply elem_of_app; by left|congruence].
      * right. split; [|tauto]. intros Hh. apply Hni. apply elem_of_app. right.
        rewrite (index_rep_hash_inj s' _ d a Hl'); [done|apply elem_of_app; right; by left|apply elem_of_app; right; by right|congruence].
  - apply Hm in Hok as [Hd _]. destruct (index_erase_spec s l d Hl Hd) as (s' & l1 & l2 & Hr & -> & Hl' & _).
    exists s'. split; [by mstep Hr|]. exists (l1 ++ l2). split; [done|]. intros h a.
    pose proof (index_rep_nodup _ _ Hl) as Hnd. rewrite NoDup_app, NoDup_cons in Hnd. destruct Hnd as (_ & Hd1 & Hd2 & _).
    rewrite lookup_delete_Some, Hm, !elem_of_app, elem_of_cons. split.
    + intros (Hne & [?|[->|?]] & He); tauto || congruence.
    + intros [Ha He]. split; [|tauto]. intros Hh.
      assert (d = a) as <-; [|destruct Ha as [Ha|Ha]; [apply Hd1 in Ha; apply Ha; by left|done]].
      apply (index_rep_hash_inj s (l1 ++ d :: l2)); [done|done|rewrite elem_of_app, elem_of_cons; tauto|congruence].
Qed.

(** ** Properties *)

(** C23: On every sequence of lookups, insertions and removals whose callers
    keep the linking discipline, the red-black tree answers like a finite map
    from hashes to entries (-EEXIST included), without a fault, and still
    represents that map at the end. *)
Theorem dir_index_refines_map ops s m :
  index_abs s m -> ops_ok ops m ->
  exists s', run_ops ops s = Ok ((map_ops ops m).1, s') /\ index_abs s' (map_ops ops m).2.
Proof.
  revert s m. induction ops as [|op ops IH]; intros s m Hs Hok; [by exists s|].
  destruct Hok as [Hop Hok]. destruct (run_op_refines op s m Hs Hop) as (s1 & H1 & Hs1).
  simpl. destruct (map_op op m) as [r m1]. simpl in *.
  destruct (IH s1 m1 Hs1 Hok) as (s2 & H2 & Hs2). destruct (map_ops ops m1) as [rs m2].
  exists s2. split; [|done]. mstep H1. by mstep H2.
Qed.

(** C38: A lookup visits at most [2 * log2 (n + 1) + 1] nodes of a directory
    of [n] entries. *)
Theorem dirent_lookup_logarithmic s l hash :
  index_rep s l ->
  exists a, lookup_loop (2 * Nat.log2 (length l + 1) + 2) (root_node s) hash s = Ok (a, s) /\
    index_lookup hash s = Ok (a, s).
Proof.
  intros Hl. destruct (index_lookup_spec s l hash Hl) as (b & Hb & Hnz & Hz).
  destruct Hl as (t & (Hat & N & HN & Hr) & <- & Hs).
  pose proof (balanced_height t N HN) as Hh. pose proof (balanced_size t N HN) as Hsz.
  assert (is_red t = false) as E by (by destruct t as [|[]]). rewrite E in Hh.
  assert (N <= Nat.log2 (length (inorder t) + 1))%nat by (apply Nat.log2_le_pow2; lia).
  pose proof Hat as (_ & Hroot & _). simpl in Hroot. rewrite Hroot.
  destruct (lookup_loop_height s [] t hash (2 * Nat.log2 (length (inorder t) + 1) + 2) Hat ltac:(lia)) as (a & Ha).
  exists a. split; [done|]. rewrite Hb. do 2 f_equal.
  pose proof (lookup_loop_mono _ (S (length (inorder t))) (ptr t) hash s (a, s) Ha) as Hm.
  destruct (lookup_loop_spec s [] t hash (2 * Nat.log2 (length (inorder t) + 1) + 2 + S (length (inorder t))) Hat Hs ltac:(lia))
    as (c & Hc & Hc1 & Hc2). rewrite Hm in Hc. injection Hc as <-.
  destruct (decide (b = 0)) as [H0|H0], (decide (a = 0)) as [Ha0|Ha0]; [congruence| | |].
  - destruct (Hc1 Ha0) as [? He]. by destruct (Hz H0 a).
  - destruct (Hnz H0) as [? He]. by destruct (Hc2 Ha0 b).
  - destruct (Hnz H0), (Hc1 Ha0). apply (index_rep_hash_inj s (inorder t)); [|done|done|congruence].
    exists t. split_and!; [|done|done]. split; [done|]. by exists N.
Qed.
End index.

Lemma index_rep_hash hash hash' s l :
  index_rep hash s l -> (forall a, a ∈ l -> hash' a = hash a) -> index_rep hash' s l.
Proof.
  intros (t & Hi & Hin & Hs) He. exists t. split_and!; [done|done|].
  clear Hi Hin. induction Hs as [|x l Hs IH Hf]; constructor.
  - apply IH. intros a Ha. apply He, elem_of_cons. by right.
  - rewrite Forall_forall in Hf |- *. intros a Ha. unfold hash_lt.
    rewrite !He; [by apply Hf|apply elem_of_cons; by right|apply elem_of_cons; by left].
Qed.

(** ** Witnesses *)

Definition example_hash (a : Z) : Z := a mod 100.
Definition example_ops : list index_op :=
  [OpInsert 104; OpInsert 208; OpInsert 312; OpInsert 404; OpLookup 8; OpErase 208; OpLookup 8; OpLookup 4].

Lemma not_linked (m : gmap Z Z) d :
  bool_decide (map_Forall (fun _ a => a <> d) m) = true -> forall h, m !! h <> Some d.
Proof. intros Hb h Hh. apply bool_decide_eq_true in Hb. by apply (Hb h d). Qed.

Lemma dir_index_refines_map_witness :
  exists s', run_ops example_hash example_ops (mk_tree 0 ∅) = Ok ([0; 0; 0; - EEXIST; 208; 0; 0; 104], s').
Proof.
  destruct (dir_index_refines_map example_hash example_ops (mk_tree 0 ∅) ∅) as (s' & Hs & _).
  - exists []. split; [apply index_rep_empty|]. intros h a. rewrite lookup_empty, elem_of_nil. split; [done|tauto].
  - cbn [example_ops ops_ok]. repeat match goal with |- _ /\ ops_ok _ _ _ => split | |- op_ok _ _ _ /\ _ => split end;
      try done.
    all: split; [by split|apply not_linked; by vm_compute].
  - exists s'. rewrite Hs. reflexivity.
Defined.

Definition example_index : rb_tree :=
  match run_ops example_hash [OpInsert 104; OpInsert 208; OpInsert 312] (mk_tree 0 ∅) with
  | Ok (_, s) => s
  | Fault _ => mk_tree 0 ∅
  end.

Lemma dirent_lookup_logarithmic_witness :
  exists a, lookup_loop example_hash 6 (root_node example_index) 8 example_index = Ok (a, example_index) /\
    index_lookup example_hash 8 example_index = Ok (a, example_index).
Proof.
  apply (dirent_lookup_logarithmic example_hash example_index [104; 208; 312] 8).
  exists (Node Black (Node Red Leaf 104 Leaf) 208 (Node Red Leaf 312 Leaf)).
  split; [|split; [done|]].
  - split; [|exists 1%nat; done]. split; [|split]; [|done|].
    + simpl. repeat split; try done; by vm_compute.
    + simpl. repeat (apply NoDup_cons; split; [by rewrite ?elem_of_cons, ?elem_of_nil; lia|]). apply NoDup_nil_2.
  - repeat constructor.
Defined.
