(* ===== verification/DirIter.v ===== *)
(** * Walking a directory's tree in order (src/slotfs/include/rbtree.h, rbtree.c)

    [rb_first] and [rb_next] of Rbtree.v visit the nodes in the order of the
    tree: the first call returns the least entry, each later one the successor,
    and 0 after the last.  [slotfs_readdir] is built on the two. *)
From stdpp Require Import base numbers list gmap sorting.
From S2P Require Import Prelude Rbtree RbErase DirIndex.
Local Open Scope Z_scope.

Lemma left_loop_spec s q c l a r fuel :
  rep (rb_nodes s) q (Node c l a r) -> (length (inorder (Node c l a r)) <= fuel)%nat ->
  left_loop fuel a s = Ok (default 0 (head (inorder (Node c l a r))), s).
Proof.
  revert q c a r fuel. induction l as [|cl ll IHl al rl _]; intros q c a r fuel (Ha & Hm & Hl & Hr) Hf;
    (destruct fuel as [|fuel]; [simpl in Hf; rewrite ?length_app in Hf; simpl in Hf; lia|]); cbn [left_loop];
    mstep (rd_eq s a _ ltac:(auto with slotfs) Hm); simpl; [done|].
  pose proof Hl as (Hal & _). rewrite (proj2 (Z.eqb_neq al 0)) by auto with slotfs. simpl.
  rewrite (IHl a cl al rl fuel) by (done || (simpl in *; rewrite !length_app in *; simpl in *; lia)).
  do 2 f_equal. simpl. by destruct (inorder ll).
Qed.

Lemma rb_parent_at s k c l a r : at_pos s k (Node c l a r) -> rb_parent a s = Ok (kptr k, s).
Proof.
  intros ((Ha & Hm & _) & Hk & _). unfold rb_parent. mstep (rd_eq s a _ ltac:(auto with slotfs) Hm). simpl.
  by rewrite rb_parent_pc by (by eapply kptr_aligned).
Qed.

Lemma up_right_loop_spec s k c l a r fuel :
  at_pos s k (Node c l a r) -> (length k < fuel)%nat ->
  up_right_loop fuel a s = Ok (default 0 (head (kr k)), s).
Proof.
  revert c l a r fuel. induction k as [|f k IH]; intros c l a r fuel Hat Hf; (destruct fuel as [|fuel]; [simpl in Hf; lia|]);
    cbn [up_right_loop]; mstep (rb_parent_at _ _ _ _ _ _ Hat); pose proof Hat as ((Ha & _) & Hk & Hnd).
  - done.
  - destruct f as [cf p rf|cf lf p]; simpl in Hk, Hnd; destruct Hk as (Hp & Hmp & Hf' & Hk'); simpl.
    + rewrite (proj2 (Z.eqb_neq p 0)) by auto with slotfs. mstep (rd_eq s p _ ltac:(auto with slotfs) Hmp). simpl.
      rewrite (ne_ptr a rf); [done|done|]. apply NoDup_cons in Hnd as [Hni _]. set_solver.
    + rewrite (proj2 (Z.eqb_neq p 0)) by auto with slotfs. mstep (rd_eq s p _ ltac:(auto with slotfs) Hmp). simpl.
      rewrite Z.eqb_refl. apply (IH cf lf p (Node c l a r)); [by apply (at_pos_up s (FR cf lf p))|simpl in Hf; lia].
Qed.

Lemma rb_next_at s k c l a r :
  at_pos s k (Node c l a r) -> rb_next a s = Ok (default 0 (head (inorder r ++ kr k)), s).
Proof.
  intros Hat. pose proof Hat as ((Ha & Hm & Hl & Hr) & Hk & Hnd). unfold rb_next.
  mstep (rd_eq s a _ ltac:(auto with slotfs) Hm). simpl.
  assert ((kptr k + colz c =? a) = false) as ->.
  { apply Z.eqb_neq. intros E. pose proof (kptr_aligned _ _ _ _ Hk) as [_ Hka]. destruct Ha as [_ Ha].
    assert (kptr k = a) as Hka' by (destruct c; unfold colz, RB_RED, RB_BLACK in E; zdm).
    destruct (kptr_in k) as [H0|Hin]; [rewrite Hka' in H0; destruct Hat as (([? _] & _) & _); lia|].
    simpl in Hnd. apply NoDup_cons in Hnd as [Hni _]. apply Hni. rewrite <- Hka'. set_solver. }
  unfold gets. mstep eq_refl. pose proof Hat as Hat0. rewrite at_pos_plug in Hat0. pose proof (index_fuel _ _ Hat0) as Hfuel.
  rewrite inorder_plug, !length_app in Hfuel. simpl in Hfuel. rewrite length_app in Hfuel.
  destruct r as [|cr lr b rr]; cbn [ptr Z.eqb negb inorder app].
  - rewrite (up_right_loop_spec s k c l a Leaf); [done|done|]. pose proof (path_length _ _ _ Hat). unfold rb_fuel. lia.
  - destruct Hr as (Hb & Hmb & Hr). rewrite (proj2 (Z.eqb_neq b 0)) by auto with slotfs. cbn [negb].
    rewrite (left_loop_spec s a cr lr b rr) by (done || (simpl in *; lia)). simpl. by destruct (inorder lr).
Qed.

(** Every node of a tree is the root of a subtree at some position. *)
Lemma split_at t l1 a l2 : inorder t = l1 ++ a :: l2 -> NoDup (inorder t) ->
  exists k c l r, plug k (Node c l a r) = t /\ l1 = kl k ++ inorder l /\ l2 = inorder r ++ kr k.
Proof.
  intros Ht Hnd.
  assert (a ∈ inorder t) as Hin by (rewrite Ht; set_solver).
  assert (forall k, a ∈ inorder t -> exists k' c l r, plug k' (Node c l a r) = plug k t) as H.
  { clear. induction t as [|c l IHl b r IHr]; intros k; simpl; [set_solver|].
    rewrite elem_of_app, elem_of_cons. intros [H|[->|H]].
    - destruct (IHl (FL c b r :: k) H) as (k' & ? & ? & ? & E). by exists k', x, x0, x1.
    - by exists k, c, l, r.
    - destruct (IHr (FR c l b :: k) H) as (k' & ? & ? & ? & E). by exists k', x, x0, x1. }
  destruct (H [] Hin) as (k & c & l & r & Hp). simpl in Hp. exists k, c, l, r. split; [done|].
  rewrite <- Hp, inorder_plug in Ht, Hnd. simpl in Ht, Hnd.
  rewrite <- app_assoc in Ht. simpl in Ht. rewrite app_assoc in Ht. 
  rewrite <- app_assoc in Hnd. simpl in Hnd. rewrite app_assoc in Hnd.
  apply NoDup_app in Hnd as (_ & Hd & Hnd2). apply NoDup_cons in Hnd2 as [Hn2 _].
  apply app_inj_pivot in Ht. rewrite <- !list_elem_of_In in Ht.
  destruct Ht as [[[Hx _]|[Hx _]]|[? ?]]; [|done|done]. exfalso. eapply Hd; [exact Hx|by left].
Qed.

(** The entry after [a] in a list, 0 after the last one. *)
Definition next_in (l2 : list Z) : Z := default 0 (head l2).

Lemma rb_first_spec h s l : index_rep h s l -> rb_first s = Ok (next_in l, s).
Proof.
  intros (t & (Hat & _) & <- & _). pose proof Hat as (Hr & Hroot & _). simpl in Hroot.
  unfold rb_first, gets. mstep eq_refl. rewrite Hroot. destruct t as [|c l a r]; [done|].
  pose proof Hr as (Ha & _). cbn [ptr]. rewrite (proj2 (Z.eqb_neq a 0)) by auto with slotfs.
  mstep eq_refl. eapply left_loop_spec; [done|]. pose proof (index_fuel _ _ Hat). lia.
Qed.

Lemma rb_next_spec h s l1 a l2 : index_rep h s (l1 ++ a :: l2) -> rb_next a s = Ok (next_in l2, s).
Proof.
  intros Hi. pose proof (index_rep_nodup _ _ _ Hi) as Hnd. destruct Hi as (t & (Hat & _) & Ht & _).
  destruct (split_at t l1 a l2 Ht) as (k & c & l & r & Hp & -> & ->); [by rewrite Ht|].
  rewrite <- Hp, <- at_pos_plug in Hat. by apply (rb_next_at s k c l a r).
Qed.
