(* ===== verification/Pm.v ===== *)
(** * Persistent memory and the copy routines (src/slotfs/slotfs.h)

    Memory is a function from addresses to bytes.  Persistent memory is
    addressed by [relptr_t]s, the distance from [DAX_START].  A [pmem] keeps,
    besides the current bytes, the contents before every store: the states a
    crash can leave behind when stores reach the medium in program order.
    ([flush_cache] returns at once in this configuration, so the code orders
    nothing itself; with a persistent cache the program order is the order.)
    [avx_cpy] and [avx_cpyt] are proved to be [memcpy]. *)
From stdpp Require Import base numbers list.
From S2P Require Import Prelude.
Local Open Scope Z_scope.

Definition mem : Type := Z -> Z.

Definition PAGE_SIZE : Z := 4096.
Definition PAGE_SHIFT : Z := 12.
Definition PAGE_MASK : Z := 4095.
Definition DAX_START : Z := 0x780000000000.

(** ** Little-endian loads and stores *)

Fixpoint load (m : mem) (a : Z) (n : nat) : Z :=
  match n with O => 0 | S n' => m a + 256 * load m (a + 1) n' end.

Definition store (a : Z) (n : nat) (v : Z) (m : mem) : mem := fun x =>
  if (a <=? x) && (x <? a + Z.of_nat n) then v / 256 ^ (x - a) mod 256 else m x.

(** [memcpy(dst, src, n)], reading the source bytes from [from]. *)
Definition memcpy (dst : Z) (from : mem) (src n : Z) (m : mem) : mem := fun x =>
  if (dst <=? x) && (x <? dst + n) then from (src + (x - dst)) else m x.

Definition memset (dst v n : Z) (m : mem) : mem := fun x =>
  if (dst <=? x) && (x <? dst + n) then u8 v else m x.

Definition mem_ok (m : mem) : Prop := forall x, 0 <= m x < 256.

(** Two memories agree on [n] bytes from [a]. *)
Definition agree (a n : Z) (m m' : mem) : Prop := forall x, a <= x < a + n -> m' x = m x.

Lemma load_agree a n m m' : agree a (Z.of_nat n) m m' -> load m' a n = load m a n.
Proof.
  revert a. induction n as [|n IH]; intros a He; [done|]. simpl.
  rewrite He by lia. rewrite IH; [done|]. intros x Hx. apply He. lia.
Qed.

Lemma load_range m a n : mem_ok m -> 0 <= load m a n < 256 ^ Z.of_nat n.
Proof.
  intros Hm. revert a. induction n as [|n IH]; intros a; [done|]. cbn [load].
  specialize (IH (a + 1)). pose proof (Hm a).
  replace (256 ^ Z.of_nat (S n)) with (256 * 256 ^ Z.of_nat n); [lia|].
  rewrite <- Z.pow_succ_r by lia. f_equal. lia.
Qed.

Lemma load_store_eq m a n v : load (store a n v m) a n = v mod 256 ^ Z.of_nat n.
Proof.
  enough (forall k m', (k <= n)%nat ->
    (forall x, a + Z.of_nat (n - k) <= x < a + Z.of_nat n -> m' x = v / 256 ^ (x - a) mod 256) ->
    load m' (a + Z.of_nat (n - k)) k = v / 256 ^ Z.of_nat (n - k) mod 256 ^ Z.of_nat k) as H.
  { specialize (H n (store a n v m) ltac:(lia)). rewrite Nat.sub_diag in H. simpl in H.
    rewrite Z.add_0_r, Z.div_1_r in H. apply H. intros x Hx. unfold store.
    destruct (Z.leb_spec a x), (Z.ltb_spec x (a + Z.of_nat n)); simpl; lia || done. }
  induction k as [|k IH]; intros m' Hk He; [by rewrite Z.mod_1_r|]. cbn [load].
  rewrite He by lia. replace (a + Z.of_nat (n - S k) - a) with (Z.of_nat (n - S k)) by lia.
  replace (a + Z.of_nat (n - S k) + 1) with (a + Z.of_nat (n - k)) by lia.
  rewrite IH; [|lia|intros x Hx; apply He; lia].
  set (q := v / 256 ^ Z.of_nat (n - S k)).
  assert (v / 256 ^ Z.of_nat (n - k) = q / 256) as ->.
  { unfold q. rewrite Z.div_div by (try apply Z.pow_nonzero; lia). f_equal.
    rewrite Z.mul_comm, <- Z.pow_succ_r by lia. f_equal. lia. }
  replace (256 ^ Z.of_nat (S k)) with (256 * 256 ^ Z.of_nat k)
    by (rewrite <- Z.pow_succ_r by lia; f_equal; lia).
  assert (0 < 256 ^ Z.of_nat k) by (apply Z.pow_pos_nonneg; lia).
  rewrite Z.rem_mul_r by lia. done.
Qed.

Lemma store_agree a n v m b k :
  (b + k <= a \/ a + Z.of_nat n <= b) -> agree b k m (store a n v m).
Proof.
  intros Hd x Hx. unfold store.
  destruct (Z.leb_spec a x), (Z.ltb_spec x (a + Z.of_nat n)); simpl; done || lia.
Qed.
Lemma memcpy_agree dst from src n m b k :
  (b + k <= dst \/ dst + n <= b) -> agree b k m (memcpy dst from src n m).
Proof.
  intros Hd x Hx. unfold memcpy.
  destruct (Z.leb_spec dst x), (Z.ltb_spec x (dst + n)); simpl; done || lia.
Qed.

Lemma agree_refl a n m : agree a n m m.
Proof. done. Qed.
Lemma agree_trans a n m1 m2 m3 : agree a n m1 m2 -> agree a n m2 m3 -> agree a n m1 m3.
Proof. intros H1 H2 x Hx. by rewrite H2, H1. Qed.
Lemma agree_sub a n b k m m' : a <= b -> b + k <= a + n -> agree a n m m' -> agree b k m m'.
Proof. intros ? ? H x Hx. apply H. lia. Qed.

Lemma store_ok a n v m : mem_ok m -> mem_ok (store a n v m).
Proof.
  intros Hm x. unfold store. destruct (_ && _); [|apply Hm]. apply Z.mod_pos_bound. lia.
Qed.
Lemma memcpy_ok dst from src n m : mem_ok m -> mem_ok from -> mem_ok (memcpy dst from src n m).
Proof. intros Hm Hf x. unfold memcpy. destruct (_ && _); [apply Hf|apply Hm]. Qed.

Lemma load_store_u64 m a v : 0 <= v < 2 ^ 64 -> load (store a 8 v m) a 8 = v.
Proof. intros. rewrite load_store_eq. apply Z.mod_small. simpl. lia. Qed.
Lemma load_store_u32 m a v : 0 <= v < 2 ^ 32 -> load (store a 4 v m) a 4 = v.
Proof. intros. rewrite load_store_eq. apply Z.mod_small. simpl. lia. Qed.
Lemma load_store_i64 m a v : - 2 ^ 63 <= v < 2 ^ 63 -> i64 (load (store a 8 v m) a 8) = v.
Proof.
  intros. rewrite load_store_eq. unfold i64, signed. change (256 ^ Z.of_nat 8) with (2 ^ 64).
  rewrite Z.mod_mod by lia. by apply (i64_small v).
Qed.

#[export] Hint Resolve store_ok memcpy_ok : slotfs.

#[global] Arguments load : simpl never.
#[global] Arguments store : simpl never.
#[global] Arguments memcpy : simpl never.
#[global] Arguments memset : simpl never.

(** ** The copy routines *)

(** The source of a copy is persistent memory itself or a buffer in DRAM:
    [rd m a] is the byte at [a] of the source when the destination holds [m]. *)
Section copy.
Context (rd : mem -> Z -> Z).

Definition put (d b : Z) (m : mem) : mem := fun x => if x =? d then b else m x.

(** [while (n) *dest++ = *src++;] *)
Fixpoint byte_loop (n : nat) (dest src : Z) (m : mem) : mem :=
  match n with
  | O => m
  | S n' => byte_loop n' (dest + 1) (src + 1) (put dest (rd m src) m)
  end.

(** One 64-byte register: loaded whole, then stored. *)
Definition move64 (dest src : Z) (m : mem) : mem := fun x =>
  if (dest <=? x) && (x <? dest + 64) then rd m (src + (x - dest)) else m x.

(** [n] rounds of [while (size >= 64)]. *)
Fixpoint block_loop (n : nat) (dest src : Z) (m : mem) : mem :=
  match n with
  | O => m
  | S n' => block_loop n' (dest + 64) (src + 64) (move64 dest src m)
  end.

Definition FLUSH_ALIGN : Z := 64.
Definition ALIGN_MASK : Z := FLUSH_ALIGN - 1.

(** The blocks and the tail that [avx_cpy] and [avx_cpyt] end with. *)
Definition copy_rest (dest src size : Z) (m : mem) : mem :=
  let n := size / 64 in
  let m := block_loop (Z.to_nat n) dest src m in
  byte_loop (Z.to_nat (Z.land (size - 64 * n) ALIGN_MASK)) (dest + 64 * n) (src + 64 * n) m.

Definition avx_cpy (dest src size : Z) (m : mem) : outcome mem :=
  let cnt := Z.land (dest + DAX_START) ALIGN_MASK in
  let aligned dest src size m :=
    if (dest + DAX_START) mod 64 =? 0 then Ok (copy_rest dest src size m) else Fault AssertFail in
  if cnt >? 0 then
    let cnt := FLUSH_ALIGN - cnt in
    let '(cnt, size) := if cnt >? size then (size, 0) else (cnt, size - cnt) in
    let m := byte_loop (Z.to_nat cnt) dest src m in
    if size =? 0 then Ok m else aligned (dest + cnt) (src + cnt) size m
  else aligned dest src size m.

(** The eight moves of [while (size >= 512)]. *)
Fixpoint big_loop (n : nat) (dest src : Z) (m : mem) : mem :=
  match n with
  | O => m
  | S n' => big_loop n' (dest + 512) (src + 512) (block_loop 8 dest src m)
  end.

Definition avx_cpyt (dest src size : Z) (m : mem) : mem :=
  let n := size / 512 in
  copy_rest (dest + 512 * n) (src + 512 * n) (size - 512 * n) (big_loop (Z.to_nat n) dest src m).

(** ** They copy *)

(** Writing the destination does not change the source. *)
Definition src_stable (dest src n : Z) : Prop :=
  forall m m' a, src <= a < src + n ->
  (forall x, ~ (dest <= x < dest + n) -> m' x = m x) -> rd m' a = rd m a.

Definition copied (dest src n : Z) (m m' : mem) : Prop :=
  forall x, m' x = if (dest <=? x) && (x <? dest + n) then rd m (src + (x - dest)) else m x.

Lemma src_stable_sub dest src n k j :
  0 <= k -> 0 <= j -> k + j <= n -> src_stable dest src n -> src_stable (dest + k) (src + k) j.
Proof. intros ? ? ? Hs m m' a Ha He. apply Hs; [lia|]. intros x Hx. apply He. lia. Qed.

Lemma copied_0 dest src m : copied dest src 0 m m.
Proof. intros x. destruct (Z.leb_spec dest x), (Z.ltb_spec x (dest + 0)); simpl; done || lia. Qed.

Lemma copied_app dest src n1 n2 m m1 m2 :
  0 <= n1 -> 0 <= n2 -> src_stable dest src (n1 + n2) ->
  copied dest src n1 m m1 -> copied (dest + n1) (src + n1) n2 m1 m2 -> copied dest src (n1 + n2) m m2.
Proof.
  intros Hn1 Hn2 Hs H1 H2 x. rewrite H2.
  destruct (Z.leb_spec (dest + n1) x), (Z.ltb_spec x (dest + n1 + n2)),
    (Z.leb_spec dest x), (Z.ltb_spec x (dest + (n1 + n2))); simpl; try lia.
  - replace (src + n1 + (x - (dest + n1))) with (src + (x - dest)) by lia. apply Hs; [lia|].
    intros y Hy. rewrite H1. destruct (Z.leb_spec dest y), (Z.ltb_spec y (dest + n1)); simpl; done || lia.
  - rewrite H1. destruct (Z.leb_spec dest x), (Z.ltb_spec x (dest + n1)); simpl; done || lia.
  - rewrite H1. destruct (Z.leb_spec dest x), (Z.ltb_spec x (dest + n1)); simpl; done || lia.
  - rewrite H1. destruct (Z.leb_spec dest x), (Z.ltb_spec x (dest + n1)); simpl; done || lia.
Qed.

Lemma byte_loop_copied n dest src m :
  src_stable dest src (Z.of_nat n) -> copied dest src (Z.of_nat n) m (byte_loop n dest src m).
Proof.
  revert dest src m. induction n as [|n IH]; intros dest src m Hs; [apply copied_0|]. cbn [byte_loop].
  replace (Z.of_nat (S n)) with (1 + Z.of_nat n) in * by lia.
  eapply copied_app; [lia|lia|done| |apply IH; eapply src_stable_sub; [..|exact Hs]; lia].
  intros x. unfold put. destruct (Z.eqb_spec x dest) as [->|].
  - rewrite Z.leb_refl, Z.sub_diag, Z.add_0_r. destruct (Z.ltb_spec dest (dest + 1)); simpl; done || lia.
  - destruct (Z.leb_spec dest x), (Z.ltb_spec x (dest + 1)); simpl; done || lia.
Qed.

Lemma block_loop_copied n dest src m :
  src_stable dest src (64 * Z.of_nat n) -> copied dest src (64 * Z.of_nat n) m (block_loop n dest src m).
Proof.
  revert dest src m. induction n as [|n IH]; intros dest src m Hs; [apply copied_0|]. cbn [block_loop].
  replace (64 * Z.of_nat (S n)) with (64 + 64 * Z.of_nat n) in * by lia.
  eapply copied_app; [lia|lia|done|by intros x|apply IH; eapply src_stable_sub; [..|exact Hs]; lia].
Qed.

Lemma big_loop_copied n dest src m :
  src_stable dest src (512 * Z.of_nat n) -> copied dest src (512 * Z.of_nat n) m (big_loop n dest src m).
Proof.
  revert dest src m. induction n as [|n IH]; intros dest src m Hs; [apply copied_0|]. cbn [big_loop].
  replace (512 * Z.of_nat (S n)) with (512 + 512 * Z.of_nat n) in * by lia.
  eapply copied_app; [lia|lia|done| |apply IH; eapply src_stable_sub; [..|exact Hs]; lia].
  apply (block_loop_copied 8). rewrite <- (Z.add_0_r dest), <- (Z.add_0_r src).
  eapply src_stable_sub; [..|exact Hs]; lia.
Qed.

Lemma land_mask x : Z.land x ALIGN_MASK = x mod 64.
Proof. change ALIGN_MASK with (Z.ones 6). by rewrite Z.land_ones. Qed.

Lemma copy_rest_copied dest src size m :
  0 <= size -> src_stable dest src size -> copied dest src size m (copy_rest dest src size m).
Proof.
  intros Hsz Hs. unfold copy_rest. rewrite land_mask.
  rewrite (Z.mod_small (size - _)) by zdm.
  replace size with (64 * (size / 64) + (size - 64 * (size / 64))) at 1 by lia.
  assert (0 <= size / 64) by zdm. assert (0 <= size - 64 * (size / 64)) by zdm.
  eapply copied_app; [lia|lia|by replace (64 * (size / 64) + (size - 64 * (size / 64))) with size by lia| |].
  - rewrite <- (Z2Nat.id (size / 64)) at 1 by lia. apply block_loop_copied.
    rewrite Z2Nat.id, <- (Z.add_0_r dest), <- (Z.add_0_r src) by lia.
    eapply src_stable_sub; [..|exact Hs]; lia.
  - rewrite <- (Z2Nat.id (size - 64 * (size / 64))) at 1 by lia. apply byte_loop_copied.
    rewrite Z2Nat.id by lia. eapply src_stable_sub; [..|exact Hs]; lia.
Qed.

Lemma avx_cpy_spec dest src size m :
  0 <= size -> src_stable dest src size ->
  exists m', avx_cpy dest src size m = Ok m' /\ copied dest src size m m'.
Proof.
  intros Hsz Hs. unfold avx_cpy. rewrite land_mask.
  destruct (Z.gtb_spec ((dest + DAX_START) mod 64) 0) as [Hc|Hc]; simpl.
  - set (c := (dest + DAX_START) mod 64) in *. assert (c < 64) by (subst c; zdm).
    unfold FLUSH_ALIGN. destruct (Z.gtb_spec (64 - c) size) as [H1|H1]; simpl.
    + eexists. split; [done|]. rewrite <- (Z2Nat.id size) at 1 by done.
      apply byte_loop_copied. by rewrite Z2Nat.id.
    + assert (copied dest src (64 - c) m (byte_loop (Z.to_nat (64 - c)) dest src m)) as Hb.
      { rewrite <- (Z2Nat.id (64 - c)) at 1 by lia. apply byte_loop_copied. rewrite Z2Nat.id by lia.
        rewrite <- (Z.add_0_r dest), <- (Z.add_0_r src). eapply src_stable_sub; [..|exact Hs]; lia. }
      destruct (Z.eqb_spec (size - (64 - c)) 0) as [H0|H0].
      * eexists. split; [done|]. by replace size with (64 - c) by lia.
      * assert (((dest + (64 - c) + DAX_START) mod 64 =? 0) = true) as ->.
        { apply Z.eqb_eq. replace (dest + (64 - c) + DAX_START) with ((dest + DAX_START) - c + 1 * 64) by lia.
          rewrite Z_mod_plus_full. subst c. zdm. }
        eexists. split; [done|]. replace size with (64 - c + (size - (64 - c))) at 1 by lia.
        eapply copied_app; [lia|lia| |exact Hb|apply copy_rest_copied; [lia|]].
        -- by replace (64 - c + (size - (64 - c))) with size by lia.
        -- eapply src_stable_sub; [..|exact Hs]; lia.
  - assert ((dest + DAX_START) mod 64 = 0) as -> by zdm. simpl. eexists. split; [done|].
    by apply copy_rest_copied.
Qed.
End copy.

Lemma src_stable_buffer (buf : mem) dest src n : src_stable (fun _ => buf) dest src n.
Proof. done. Qed.
Lemma src_stable_pm dest src n :
  (src + n <= dest \/ dest + n <= src) -> src_stable (fun m => m) dest src n.
Proof. intros Hd m m' a Ha He. apply He. lia. Qed.

Lemma copied_memcpy rd dest src n m m' : copied rd dest src n m m' -> forall x, m' x = memcpy dest (rd m) src n m x.
Proof. done. Qed.

(** ** Persistent memory with its crash states *)

Record pmem : Type := mk_pmem {
  bytes : mem;
  crashes : list mem;   (* the contents before each store, the latest first *)
}.

Definition pm_update (f : mem -> mem) (p : pmem) : pmem :=
  mk_pmem (f (bytes p)) (bytes p :: crashes p).

Lemma bytes_update f p : bytes (pm_update f p) = f (bytes p).
Proof. done. Qed.

(** Every crash state between [p] and [p'], and the end of [p'], satisfies [P]. *)
Definition crash_safe (P : mem -> Prop) (p p' : pmem) : Prop :=
  (exists l, crashes p' = l ++ crashes p /\ Forall P l) /\ P (bytes p').

Lemma crash_safe_refl (P : mem -> Prop) p : P (bytes p) -> crash_safe P p p.
Proof. intros Hp. split; [|done]. by exists []. Qed.

Lemma crash_safe_update (P : mem -> Prop) p p' f :
  crash_safe P p p' -> P (f (bytes p')) -> crash_safe P p (pm_update f p').
Proof.
  intros [(l & Hl & Hf) Hp] Hn. split; [|done]. exists (bytes p' :: l). simpl. rewrite Hl. split; [done|].
  by constructor.
Qed.

Lemma crash_safe_trans (P : mem -> Prop) p1 p2 p3 :
  crash_safe P p1 p2 -> crash_safe P p2 p3 -> crash_safe P p1 p3.
Proof.
  intros [(l1 & H1 & Hf1) _] [(l2 & H2 & Hf2) Hp]. split; [|done].
  exists (l2 ++ l1). rewrite H2, H1, app_assoc. split; [done|]. by apply Forall_app.
Qed.

Lemma crash_safe_mono (P Q : mem -> Prop) p p' :
  (forall m, P m -> Q m) -> crash_safe P p p' -> crash_safe Q p p'.
Proof.
  intros Hi [(l & Hl & Hf) Hp]. split; [|by apply Hi]. exists l. split; [done|].
  eapply Forall_impl; [exact Hf|exact Hi].
Qed.

Lemma crash_safe_and (P Q : mem -> Prop) p p' :
  crash_safe P p p' -> crash_safe Q p p' -> crash_safe (fun m => P m /\ Q m) p p'.
Proof.
  intros [(l & Hl & Hf) Hp] [(l' & Hl' & Hf') Hq]. split; [|done]. exists l. split; [done|].
  rewrite Hl in Hl'. apply app_inv_tail in Hl' as <-. rewrite Forall_forall in *. auto.
Qed.

(** ** Properties *)

(** [avx_cpy], with its unaligned prefix, its 64-byte streaming stores
    and its tail, copies like [memcpy] whenever writing the destination does
    not change the source: always from a DRAM buffer, and inside persistent
    memory for disjoint ranges.  Its alignment assertion never fails. *)
Theorem avx_cpy_is_memcpy dest src size (m buf : mem) :
  0 <= size ->
  (exists m', avx_cpy (fun _ => buf) dest src size m = Ok m' /\
     forall x, m' x = memcpy dest buf src size m x) /\
  (src + size <= dest \/ dest + size <= src ->
   exists m', avx_cpy (fun m => m) dest src size m = Ok m' /\
     forall x, m' x = memcpy dest m src size m x).
Proof.
  intros Hs. split; [|intros Hd].
  - by apply (avx_cpy_spec (fun _ => buf) dest src size m Hs), src_stable_buffer.
  - by apply (avx_cpy_spec (fun m => m) dest src size m Hs), src_stable_pm.
Qed.

(** [avx_cpyt], unrolled to eight 64-byte moves a round, copies like
    [memcpy] under the same condition. *)
Theorem avx_cpyt_is_memcpy rd dest src size (m : mem) :
  0 <= size -> src_stable rd dest src size ->
  forall x, avx_cpyt rd dest src size m x = memcpy dest (rd m) src size m x.
Proof.
  intros Hs Hst. apply copied_memcpy. unfold avx_cpyt.
  replace size with (512 * (size / 512) + (size - 512 * (size / 512))) at 1 by lia.
  assert (0 <= size / 512) by zdm. assert (0 <= size - 512 * (size / 512)) by zdm.
  eapply copied_app; [lia|lia|by replace (512 * (size / 512) + (size - 512 * (size / 512))) with size by lia| |].
  - rewrite <- (Z2Nat.id (size / 512)) at 1 by lia. apply big_loop_copied.
    rewrite Z2Nat.id, <- (Z.add_0_r dest), <- (Z.add_0_r src) by lia.
    eapply src_stable_sub; [..|exact Hst]; lia.
  - apply copy_rest_copied; [lia|]. eapply src_stable_sub; [..|exact Hst]; lia.
Qed.

(** ** Witnesses *)

Lemma avx_cpy_is_memcpy_witness :
  exists m', avx_cpy (fun m => m) 100 4096 200 (fun a => a mod 256) = Ok m' /\ m' 163 = 4159 mod 256.
Proof.
  destruct (avx_cpy_is_memcpy 100 4096 200 (fun a => a mod 256) (fun _ => 0)) as [_ H]; [lia|].
  destruct H as (m' & Hm & Hx); [lia|]. exists m'. split; [done|]. by rewrite Hx.
Defined.

Lemma avx_cpyt_is_memcpy_witness :
  avx_cpyt (fun _ a => a mod 256) 0 7 1000 (fun _ => 0) 999 = 1006 mod 256.
Proof. rewrite (avx_cpyt_is_memcpy (fun _ a => a mod 256) 0 7 1000); [done|lia|done]. Defined.
