(* ===== verification/Heap.v ===== *)
(** * The heap (src/slotfs/heap/heap.c, heap.h, llist.c)

    A region of memory is tiled by chunks: a header ([node_t]), the room of the
    chunk and a footer with the address of the header.  The free chunks are in
    bins by the logarithm of their size, each a doubly linked list sorted by
    size, threaded through the headers.  The memory is modelled byte by byte;
    an access outside the region faults.  The lock of the heap is held for the
    whole of each operation. *)
From stdpp Require Import base numbers list gmap.
From S2P Require Import Prelude Pm.
Local Open Scope Z_scope.

Definition MIN_ALLOC_SZ : Z := 4.
Definition MIN_WILDERNESS : Z := 0x2000.
Definition MAX_WILDERNESS : Z := 0x1000000.
Definition BIN_COUNT : Z := 32.
Definition BIN_MAX_IDX : Z := BIN_COUNT - 1.

(** [node_t]: [hole], [size] (32 bits), [next], [prev]; [footer_t]: [header]. *)
Definition N_hole : Z := 0.
Definition N_size : Z := 4.
Definition N_next : Z := 8.
Definition N_prev : Z := 16.
Definition SIZEOF_NODE : Z := 24.
Definition SIZEOF_FOOTER : Z := 8.
Definition overhead : Z := SIZEOF_FOOTER + SIZEOF_NODE.
Definition offset : Z := 8.

Record heap_t : Type := mk_heap {
  h_start : Z;
  h_end : Z;
  bins : list Z;   (* bins[i]->head *)
  h_mem : mem;
}.

Definition upd_mem (f : mem -> mem) (h : heap_t) : heap_t := mk_heap (h_start h) (h_end h) (bins h) (f (h_mem h)).
Definition upd_bins (f : list Z -> list Z) (h : heap_t) : heap_t := mk_heap (h_start h) (h_end h) (f (bins h)) (h_mem h).

Definition in_region (h : heap_t) (a : Z) (n : nat) : bool := (h_start h <=? a) && (a + Z.of_nat n <=? h_end h).
Definition hload (a : Z) (n : nat) : M heap_t Z := fun h =>
  if in_region h a n then Ok (load (h_mem h) a n, h) else Fault OutOfBounds.
Definition hstore (a : Z) (n : nat) (v : Z) : M heap_t unit := fun h =>
  if in_region h a n then Ok (tt, upd_mem (store a n v) h) else Fault OutOfBounds.

Definition get_hole (a : Z) : M heap_t Z := hload (a + N_hole) 4.
Definition get_size (a : Z) : M heap_t Z := hload (a + N_size) 4.
Definition get_next (a : Z) : M heap_t Z := hload (a + N_next) 8.
Definition get_prev (a : Z) : M heap_t Z := hload (a + N_prev) 8.
Definition set_hole (a v : Z) : M heap_t unit := hstore (a + N_hole) 4 v.
Definition set_size (a v : Z) : M heap_t unit := hstore (a + N_size) 4 v.
Definition set_next (a v : Z) : M heap_t unit := hstore (a + N_next) 8 v.
Definition set_prev (a v : Z) : M heap_t unit := hstore (a + N_prev) 8 v.

Definition get_head (i : Z) : M heap_t Z := h ← get; lift (zget (bins h) i).
Definition set_head (i p : Z) : M heap_t unit := h ← get; l ← lift (zset (bins h) i p); modify (upd_bins (fun _ => l)).

(** ** llist.c *)

(** More steps than a list in the region can take. *)
Definition list_fuel (h : heap_t) : nat := S (Z.to_nat (h_end h - h_start h)).

(** The loop of [add_node]: the first node that is larger, and the one before it. *)
Fixpoint add_walk (fuel : nat) (size current previous : Z) : M heap_t (Z * Z) :=
  match fuel with
  | O => throw OutOfFuel
  | S fuel' =>
      if current =? 0 then mret (current, previous) else
      sz ← get_size current;
      if sz <=? size then
        nx ← get_next current;
        add_walk fuel' size nx current
      else mret (current, previous)
  end.

Definition add_node (bin node : Z) : M heap_t unit :=
  _ ← set_next node 0;
  _ ← set_prev node 0;
  head ← get_head bin;
  if head =? 0 then set_head bin node else
  size ← get_size node;
  h ← get;
  '(current, previous) ← add_walk (list_fuel h) size head 0;
  if current =? 0 then
    _ ← set_next previous node;
    set_prev node previous
  else if negb (previous =? 0) then
    _ ← set_next node current;
    _ ← set_next previous node;
    _ ← set_prev node previous;
    set_prev current node
  else
    _ ← set_next node head;
    _ ← set_prev head node;
    set_head bin node.

(** The loop of [remove_node] from the second node on. *)
Fixpoint remove_walk (fuel : nat) (node temp : Z) : M heap_t unit :=
  match fuel with
  | O => throw OutOfFuel
  | S fuel' =>
      if temp =? 0 then mret tt else
      if temp =? node then
        nx ← get_next temp;
        pv ← get_prev temp;
        if nx =? 0 then set_next pv 0
        else
          _ ← set_next pv nx;
          set_prev nx pv
      else
        nx ← get_next temp;
        remove_walk fuel' node nx
  end.

Definition remove_node (bin node : Z) : M heap_t unit :=
  head ← get_head bin;
  if head =? 0 then mret tt else
  nx ← get_next head;
  if head =? node then set_head bin nx else
  h ← get;
  remove_walk (list_fuel h) node nx.

Fixpoint best_walk (fuel : nat) (size temp : Z) : M heap_t Z :=
  match fuel with
  | O => throw OutOfFuel
  | S fuel' =>
      if temp =? 0 then mret 0 else
      sz ← get_size temp;
      if sz >=? size then mret temp else
      nx ← get_next temp;
      best_walk fuel' size nx
  end.

Definition get_best_fit (bin size : Z) : M heap_t Z :=
  head ← get_head bin;
  h ← get;
  best_walk (list_fuel h) size head.

(** ** heap.c *)

(** [while (sz >>= 1) index++]. *)
Fixpoint bin_loop (fuel : nat) (sz index : Z) : Z :=
  match fuel with
  | O => index
  | S fuel' => let sz := Z.shiftr sz 1 in if sz =? 0 then index else bin_loop fuel' sz (index + 1)
  end.

Definition get_bin_index (sz : Z) : Z :=
  let sz := if sz <? 4 then 4 else sz in
  let index := u32 (bin_loop 64 sz 0 - 2) in
  if index >? BIN_MAX_IDX then BIN_MAX_IDX else index.

Definition get_foot (node : Z) : M heap_t Z := size ← get_size node; mret (node + SIZEOF_NODE + size).
Definition create_foot (head : Z) : M heap_t unit := foot ← get_foot head; hstore foot 8 head.

Definition get_wilderness : M heap_t Z := h ← get; hload (h_end h - SIZEOF_FOOTER) 8.

Definition expand (sz : Z) : M heap_t Z := mret 0.
Definition contract (sz : Z) : M heap_t unit := mret tt.

Definition heap_init_body (region size : Z) : M heap_t unit :=
  _ ← set_hole region 1;
  _ ← set_size region (u32 (size - SIZEOF_NODE - SIZEOF_FOOTER));
  _ ← create_foot region;
  sz ← get_size region;
  add_node (get_bin_index sz) region.

Definition heap_init (region size : Z) (m : mem) : outcome heap_t :=
  match heap_init_body region size (mk_heap region (region + size) (replicate (Z.to_nat BIN_COUNT) 0) m) with
  | Ok (_, h) => Ok h
  | Fault f => Fault f
  end.

(** The search through the bins from [index] on; [n] bins are left behind it. *)
Fixpoint find_chunk (n : nat) (size index : Z) : M heap_t (Z * Z) :=
  found ← get_best_fit index size;
  if negb (found =? 0) then mret (found, index) else
  match n with
  | O => mret (0, index)
  | S n' => find_chunk n' size (index + 1)
  end.

(** The part of the chunk that is not needed becomes a chunk of its own. *)
Definition split_chunk (found size : Z) : M heap_t unit :=
  fsize ← get_size found;
  if u64 (fsize - size) >? overhead + MIN_ALLOC_SZ then
    let split := found + SIZEOF_NODE + SIZEOF_FOOTER + size in
    _ ← set_size split (u32 (fsize - size - SIZEOF_NODE - SIZEOF_FOOTER));
    _ ← set_hole split 1;
    _ ← create_foot split;
    ssize ← get_size split;
    _ ← add_node (get_bin_index ssize) split;
    _ ← set_size found (u32 size);
    create_foot found
  else mret tt.

Definition do_heap_alloc (size : Z) : M heap_t Z :=
  let index := get_bin_index size in
  '(found, index) ← find_chunk (Z.to_nat (BIN_MAX_IDX - index)) size index;
  if found =? 0 then mret 0 else
  _ ← split_chunk found size;
  _ ← set_hole found 0;
  _ ← remove_node index found;
  wild ← get_wilderness;
  wsize ← get_size wild;
  success ← (if wsize <? MIN_WILDERNESS then expand 0x1000
             else _ ← (if wsize >? MAX_WILDERNESS then contract 0x1000 else mret tt); mret 1);
  if success =? 0 then mret 0 else
  _ ← set_prev found 0;
  _ ← set_next found 0;
  mret (found + N_next).

(** The chunk before [head] is free: the address of the joint chunk. *)
Definition join_prev (head : Z) : M heap_t Z :=
  prev ← hload (head - SIZEOF_FOOTER) 8;
  hole ← get_hole prev;
  if negb (hole =? 0) then
    psize ← get_size prev;
    _ ← remove_node (get_bin_index psize) prev;
    psize ← get_size prev;
    hsize ← get_size head;
    _ ← set_size prev (u32 (psize + (overhead + hsize)));
    new_foot ← get_foot head;
    _ ← hstore new_foot 8 prev;
    mret prev
  else mret head.

(** The chunk [next] behind is free. *)
Definition join_next (head next : Z) : M heap_t unit :=
  hole ← get_hole next;
  if negb (hole =? 0) then
    nsize ← get_size next;
    _ ← remove_node (get_bin_index nsize) next;
    hsize ← get_size head;
    nsize ← get_size next;
    _ ← set_size head (u32 (hsize + (overhead + nsize)));
    old_foot ← get_foot next;
    _ ← hstore old_foot 8 0;
    _ ← set_size next 0;
    _ ← set_hole next 0;
    new_foot ← get_foot head;
    hstore new_foot 8 head
  else mret tt.

Definition do_heap_free (p : Z) : M heap_t unit :=
  let head := p - offset in
  h ← get;
  if head =? h_start h then
    _ ← set_hole head 1;
    size ← get_size head;
    add_node (get_bin_index size) head
  else
    foot ← get_foot head;
    let next := foot + SIZEOF_FOOTER in
    head ← join_prev head;
    _ ← join_next head next;
    _ ← set_hole head 1;
    size ← get_size head;
    add_node (get_bin_index size) head.

Definition heap_alloc (size : Z) : M heap_t Z := do_heap_alloc size.
Definition heap_free (p : Z) : M heap_t unit := do_heap_free p.
