(* ===== verification/Mkfs.v ===== *)
(** * The layout of the device and mkfs (src/slotfs/mkfs.c, slotfs.h, config.h)

    [mkfs_slot] divides the device into four bitmaps and four slot tables.
    [layout_ok] says that the regions follow each other without overlap, inside
    the device and after the journal; every theorem about persistent data
    relies on it, and [mkfs_layout] proves that mkfs establishes it. *)
From stdpp Require Import base numbers list.
From S2P Require Import Prelude Pm.
Local Open Scope Z_scope.

(** ** config.h *)

Definition DAX_SIZE : Z := 48 * 1024 * 1024 * 1024.
Definition SUPER_BLOCK_MAGIC : Z := 0xdead404dbaddead.
Definition SUPER_BLOCK_SIZE : Z := 4096.
Definition SLOT_META_SIZE : Z := 4096.
Definition JOURNAL_NUM : Z := 256.
Definition JOURNAL_SIZE : Z := 4096 * JOURNAL_NUM.
Definition BITMAP_META_SIZE : Z := 4096.
Definition SLOT_META_START : Z := SUPER_BLOCK_SIZE.
Definition JOURNAL_START : Z := SLOT_META_START + SLOT_META_SIZE.
Definition BITMAP_META_START : Z := JOURNAL_START + JOURNAL_SIZE.
Definition BITMAP_START : Z := BITMAP_META_START + BITMAP_META_SIZE.
Definition INODE_SLOT_SIZE : Z := 128.
Definition DIR_SLOT_SIZE : Z := 256.
Definition FILE_SLOT_SIZE : Z := 64.
Definition INODE_BITMAP_PAGES : Z := 10.
Definition DIR_BITMAP_PAGES : Z := 10.

(** ** The super block *)

Record pm_slot : Type := mk_slot {
  slot_table : Z;
  slot_num : Z;
  slot_size : Z;
  slot_pages : Z;
  bitmap : Z;
  bitmap_pages : Z;
}.

Record pm_super_block : Type := mk_sb {
  sb_magic : Z;
  sb_mtime : Z;
  sb_ctime : Z;
  sb_size : Z;
  sb_ts : Z;
  sb_inode : pm_slot;     (* slots[SLOT_INODE] *)
  sb_dir : pm_slot;
  sb_file : pm_slot;
  sb_data : pm_slot;
  sb_umount : Z;
  sb_csm : Z;
}.

(** The addresses of the slots; [idx] is an [index_t], the sum is unsigned. *)
Definition IDX2INODE (sb : pm_super_block) (idx : Z) : Z :=
  u64 (slot_table (sb_inode sb) + idx * slot_size (sb_inode sb)).
Definition IDX2DENT (sb : pm_super_block) (idx : Z) : Z :=
  u64 (slot_table (sb_dir sb) + idx * slot_size (sb_dir sb)).
Definition IDX2FENT (sb : pm_super_block) (idx : Z) : Z :=
  u64 (slot_table (sb_file sb) + idx * slot_size (sb_file sb)).
Definition IDX2DATA (sb : pm_super_block) (idx : Z) : Z :=
  u64 (slot_table (sb_data sb) + Z.shiftl idx PAGE_SHIFT).

(** ** Field offsets of the persistent structures *)

(** [struct pm_inode], 88 bytes *)
Definition PI_i_size : Z := 0.
Definition PI_i_uid : Z := 8.
Definition PI_i_gid : Z := 12.
Definition PI_i_link : Z := 16.
Definition PI_i_mode : Z := 24.
Definition PI_i_atim : Z := 32.
Definition PI_i_mtim : Z := 40.
Definition PI_i_ctim : Z := 48.
Definition PI_log_head : Z := 56.
Definition PI_entry_num : Z := 64.
Definition PI_ts : Z := 72.
Definition PI_csum : Z := 80.

(** [struct pm_dirent], 104 bytes *)
Definition MAX_NAME_LEN : Z := 64.
Definition PD_name_len : Z := 0.
Definition PD_name : Z := 1.
Definition PD_ino : Z := 72.
Definition PD_ts : Z := 80.
Definition PD_next : Z := 88.
Definition PD_csum : Z := 96.

(** [struct pm_filent], 40 bytes *)
Definition PF_l_idx : Z := 0.
Definition PF_p_idx : Z := 4.
Definition PF_blocks : Z := 8.
Definition PF_ts : Z := 16.
Definition PF_next : Z := 24.
Definition PF_csum : Z := 32.
Definition SIZEOF_PM_FILENT : Z := 40.

(** ** The layout *)

(** [pages_junk] is the field [slot_pages] of the data slots, which mkfs
    never sets. *)
Definition mkfs_layout_of (pages_junk size : Z) : pm_slot * pm_slot * pm_slot * pm_slot :=
  let remain_pages := Z.shiftr (u64 (size - BITMAP_START)) PAGE_SHIFT in
  let i_bp := INODE_BITMAP_PAGES in
  let d_bp := DIR_BITMAP_PAGES in
  let i_num := Z.shiftl i_bp (PAGE_SHIFT + 3) in
  let d_num := Z.shiftl d_bp (PAGE_SHIFT + 3) in
  let i_pages := Z.shiftr (INODE_SLOT_SIZE * i_num + PAGE_SIZE - 1) PAGE_SHIFT in
  let d_pages := Z.shiftr (DIR_SLOT_SIZE * d_num + PAGE_SIZE - 1) PAGE_SHIFT in
  let remain_pages := u64 (remain_pages - (i_bp + d_bp + i_pages + d_pages)) in
  let f_num := u64 (u64 (remain_pages * PAGE_SIZE) / (PAGE_SIZE + FILE_SLOT_SIZE) * 6) / 5 in
  let f_pages := Z.shiftr (u64 (FILE_SLOT_SIZE * f_num + PAGE_SIZE - 1)) PAGE_SHIFT in
  let f_bp := Z.shiftr f_num (PAGE_SHIFT + 3) + 1 in
  let remain_pages := u64 (remain_pages - (f_bp + f_pages)) in
  let data_bp := Z.shiftr remain_pages (PAGE_SHIFT + 3) + 1 in
  let remain_pages := u64 (remain_pages - data_bp) in
  let data_num := remain_pages in
  let i_bitmap := BITMAP_START in
  let d_bitmap := i_bitmap + Z.shiftl i_bp PAGE_SHIFT in
  let f_bitmap := d_bitmap + Z.shiftl d_bp PAGE_SHIFT in
  let data_bitmap := f_bitmap + Z.shiftl f_bp PAGE_SHIFT in
  let i_table := data_bitmap + Z.shiftl data_bp PAGE_SHIFT in
  let d_table := i_table + Z.shiftl i_pages PAGE_SHIFT in
  let f_table := d_table + Z.shiftl d_pages PAGE_SHIFT in
  let data_table := f_table + Z.shiftl f_pages PAGE_SHIFT in
  (mk_slot i_table i_num INODE_SLOT_SIZE i_pages i_bitmap i_bp,
   mk_slot d_table d_num DIR_SLOT_SIZE d_pages d_bitmap d_bp,
   mk_slot f_table f_num FILE_SLOT_SIZE f_pages f_bitmap f_bp,
   mk_slot data_table data_num 4096 pages_junk data_bitmap data_bp).

(** ** Formatting *)

(** [set_bit(nr, base)] on persistent memory. *)
Definition pm_set_bit (nr base : Z) (m : mem) : mem :=
  store (base + nr / 8) 1 (Z.lor (m (base + nr / 8)) (Z.shiftl 1 (nr mod 8))) m.

Definition mkfs_journal (p : pmem) : pmem := pm_update (memset JOURNAL_START 0 JOURNAL_SIZE) p.

Definition clear_bitmap (sl : pm_slot) (p : pmem) : pmem :=
  pm_update (memset (bitmap sl) 0 (Z.shiftl (bitmap_pages sl) PAGE_SHIFT)) p.
Definition clear_table (sl : pm_slot) (p : pmem) : pmem :=
  pm_update (memset (slot_table sl) 0 (Z.shiftl (slot_pages sl) PAGE_SHIFT)) p.

Definition mkfs_slot (slots : pm_slot * pm_slot * pm_slot * pm_slot) (p : pmem) : pmem :=
  let '(i, d, f, t) := slots in
  let p := clear_table i (clear_bitmap i p) in
  let p := clear_table d (clear_bitmap d p) in
  let p := clear_table f (clear_bitmap f p) in
  let p := clear_bitmap t p in
  let p := pm_update (pm_set_bit 0 (bitmap i)) p in
  let p := pm_update (pm_set_bit 0 (bitmap d)) p in
  let p := pm_update (pm_set_bit 0 (bitmap f)) p in
  let p := pm_update (pm_set_bit 0 (bitmap t)) p in
  pm_update (pm_set_bit 1 (bitmap d)) p.

Definition S_IFMT : Z := 61440.
Definition S_IFDIR : Z := 16384.
Definition S_IFREG : Z := 32768.
Definition S_IFLNK : Z := 40960.

Definition mkfs_rootinode (now : Z) (i : pm_slot) (p : pmem) : pmem :=
  let root := slot_table i in
  let p := pm_update (store (root + PI_i_mode) 4 (Z.lor S_IFDIR 493)) p in
  let p := pm_update (store (root + PI_i_uid) 4 0) p in
  let p := pm_update (store (root + PI_i_gid) 4 0) p in
  let p := pm_update (store (root + PI_i_size) 8 0) p in
  let p := pm_update (store (root + PI_i_link) 8 1) p in
  let p := pm_update (store (root + PI_i_ctim) 8 now) p in
  let p := pm_update (store (root + PI_i_mtim) 8 now) p in
  let p := pm_update (store (root + PI_i_atim) 8 now) p in
  let p := pm_update (store (root + PI_log_head) 8 1) p in
  let p := pm_update (store (root + PI_entry_num) 8 0) p in
  let p := pm_update (store (root + PI_ts) 8 0) p in
  let p := pm_update (store (root + PI_csum) 4 0) p in
  pm_update (pm_set_bit 0 (bitmap i)) p.

(** The bytes of a [pm_slot_t] and of a [pm_sb_t] (240 bytes). *)
Definition store_slot (a : Z) (sl : pm_slot) (m : mem) : mem :=
  store (a + 40) 8 (bitmap_pages sl) (store (a + 32) 8 (bitmap sl) (store (a + 24) 8 (slot_pages sl)
    (store (a + 16) 8 (slot_size sl) (store (a + 8) 8 (slot_num sl) (store a 8 (slot_table sl) m))))).

Definition store_sb (sb : pm_super_block) (m : mem) : mem :=
  let m := store 0 8 (sb_magic sb) m in
  let m := store 8 8 (sb_mtime sb) m in
  let m := store 16 8 (sb_ctime sb) m in
  let m := store 24 8 (sb_size sb) m in
  let m := store 32 8 (sb_ts sb) m in
  let m := store_slot 40 (sb_inode sb) m in
  let m := store_slot 88 (sb_dir sb) m in
  let m := store_slot 136 (sb_file sb) m in
  let m := store_slot 184 (sb_data sb) m in
  let m := store 232 1 (sb_umount sb) m in
  store 236 4 (sb_csm sb) m.

Definition mkfs_sb (pages_junk now size : Z) : pm_super_block :=
  let '(i, d, f, t) := mkfs_layout_of pages_junk size in
  mk_sb SUPER_BLOCK_MAGIC now now size 0 i d f t 1 0.

(** [dax_size_safe] is [DAX_SIZE]. *)
Definition mkfs (pages_junk now : Z) (p : pmem) : pmem :=
  let sb := mkfs_sb pages_junk now DAX_SIZE in
  let p := mkfs_journal p in
  let p := mkfs_slot (sb_inode sb, sb_dir sb, sb_file sb, sb_data sb) p in
  let p := mkfs_rootinode now (sb_inode sb) p in
  pm_update (store_sb sb) p.

(** ** The regions do not overlap *)

Definition region_ok (sl : pm_slot) : Prop :=
  0 < slot_num sl < 2 ^ 31 /\ slot_num sl <= 8 * (4096 * bitmap_pages sl).

Record layout_ok (sb : pm_super_block) : Prop := {
  lo_sizes : slot_size (sb_inode sb) = 128 /\ slot_size (sb_dir sb) = 256 /\
             slot_size (sb_file sb) = 64 /\ slot_size (sb_data sb) = 4096;
  lo_bitmaps : BITMAP_START <= bitmap (sb_inode sb) /\
    bitmap (sb_inode sb) + 4096 * bitmap_pages (sb_inode sb) <= bitmap (sb_dir sb) /\
    bitmap (sb_dir sb) + 4096 * bitmap_pages (sb_dir sb) <= bitmap (sb_file sb) /\
    bitmap (sb_file sb) + 4096 * bitmap_pages (sb_file sb) <= bitmap (sb_data sb) /\
    bitmap (sb_data sb) + 4096 * bitmap_pages (sb_data sb) <= slot_table (sb_inode sb);
  lo_tables : slot_table (sb_inode sb) + 128 * slot_num (sb_inode sb) <= slot_table (sb_dir sb) /\
    slot_table (sb_dir sb) + 256 * slot_num (sb_dir sb) <= slot_table (sb_file sb) /\
    slot_table (sb_file sb) + 64 * slot_num (sb_file sb) <= slot_table (sb_data sb) /\
    slot_table (sb_data sb) + 4096 * slot_num (sb_data sb) <= sb_size sb;
  lo_nums : region_ok (sb_inode sb) /\ region_ok (sb_dir sb) /\ region_ok (sb_file sb) /\ region_ok (sb_data sb);
  lo_aligned : slot_table (sb_file sb) mod 4096 = 0 /\ slot_table (sb_data sb) mod 4096 = 0;
  lo_size : sb_size sb < 2 ^ 62;
}.

Lemma mkfs_layout_ok pages_junk now size :
  2 ^ 28 <= size <= 2 ^ 42 -> layout_ok (mkfs_sb pages_junk now size).
Proof.
  intros Hs. unfold mkfs_sb, mkfs_layout_of.
  unfold INODE_BITMAP_PAGES, DIR_BITMAP_PAGES, INODE_SLOT_SIZE, DIR_SLOT_SIZE, FILE_SLOT_SIZE, PAGE_SIZE.
  unfold PAGE_SHIFT. rewrite !Z.shiftr_div_pow2, !Z.shiftl_mul_pow2 by lia.
  assert (BITMAP_START = 1060864) as EB by done.
  change (2 ^ (12 + 3)) with 32768. change (2 ^ 12) with 4096.
  rewrite (u64_small (size - BITMAP_START)) by lia.
  set (P := (size - BITMAP_START) / 4096). assert (65000 < P <= 2 ^ 30) by (subst P; zdm).
  change (10 * 32768) with 327680. change ((128 * 327680 + 4096 - 1) / 4096) with 10240.
  change ((256 * 327680 + 4096 - 1) / 4096) with 20480.
  rewrite (u64_small (P - _)) by lia. set (R := P - (10 + 10 + 10240 + 20480)).
  assert (30000 < R <= 2 ^ 30) by (subst R; lia).
  rewrite (u64_small (R * 4096)) by lia. change (4096 + 64) with 4160.
  set (Q := R * 4096 / 4160). assert (4160 * Q <= 4096 * R < 4160 * (Q + 1)) by (subst Q; zdm).
  rewrite (u64_small (Q * 6)) by lia. set (F := Q * 6 / 5). assert (5 * F <= 6 * Q < 5 * (F + 1)) by (subst F; zdm).
  rewrite (u64_small (64 * F + 4096 - 1)) by lia.
  set (FP := (64 * F + 4096 - 1) / 4096). assert (64 * F <= 4096 * FP < 64 * F + 4096) by (subst FP; zdm).
  set (FB := F / 32768). assert (32768 * FB <= F < 32768 * (FB + 1)) by (subst FB; zdm).
  rewrite (u64_small (R - _)) by lia. set (R2 := R - (FB + 1 + FP)). assert (20000 < R2 <= 2 ^ 30) by (subst R2; lia).
  set (DB := R2 / 32768). assert (32768 * DB <= R2 < 32768 * (DB + 1)) by (subst DB; zdm).
  rewrite (u64_small (R2 - (DB + 1))) by lia.
  assert (size - BITMAP_START >= 4096 * P) by (subst P; zdm). assert (R = P - (10 + 10 + 10240 + 20480)) as ER by done.
  assert (R2 = R - (FB + 1 + FP)) as ER2 by done. clearbody P R Q F FP FB R2 DB.
  constructor; cbn [sb_inode sb_dir sb_file sb_data sb_size slot_size slot_num bitmap slot_table bitmap_pages];
    unfold region_ok; cbn [slot_num bitmap_pages]; try lia.
  split; zdm.
Qed.

(** A small device, for examples: 64 slots of each kind. *)
Definition example_sb : pm_super_block :=
  mk_sb SUPER_BLOCK_MAGIC 0 0 1368064 0
    (mk_slot 1077248 64 128 2 1060864 1) (mk_slot 1085440 64 256 4 1064960 1)
    (mk_slot 1101824 64 64 1 1069056 1) (mk_slot 1105920 64 4096 0 1073152 1) 1 0.

Lemma example_layout : layout_ok example_sb.
Proof. constructor; repeat split; done. Qed.

(** ** Properties *)

(** C40: On every device of 256 MiB to 4 TiB, mkfs places the four bitmaps
    and the four slot tables one after the other, after the journal and inside
    the device, each bitmap with a bit for every slot of its table. *)
Theorem mkfs_layout pages_junk now size :
  2 ^ 28 <= size <= 2 ^ 42 -> layout_ok (mkfs_sb pages_junk now size).
Proof. apply mkfs_layout_ok. Qed.

Lemma mkfs_layout_witness : layout_ok (mkfs_sb 0 0 (48 * 2 ^ 30)).
Proof. apply (mkfs_layout 0 0 (48 * 2 ^ 30)). lia. Defined.
