(* ===== verification/Shm.v ===== *)
(** * The DRAM bitmaps at mount time (src/slotfs/shm.c: shm_init_bitmap; slotfs.h: count_bits)

    [shm_init_bitmap] copies the bitmap of every kind of slot from the device
    and sets up its counters.  The theorems connect mkfs, the mount and the
    slot allocator: what mount builds satisfies the invariant [maps_wf] of
    Slot.v, and after mkfs exactly the reserved slots are taken. *)
From stdpp Require Import base numbers list.
From S2P Require Import Prelude Bitops Slot Pm Mkfs.
Local Open Scope Z_scope.

(** ** Counting bits *)

(** [__builtin_popcount] of a [w]-bit word. *)
Fixpoint popcount (w : nat) (v : Z) : Z :=
  match w with O => 0 | S w' => popcount w' v + (if Z.testbit v (Z.of_nat w') then 1 else 0) end.

(** [while (guard len) { bit_count += popcount(w bytes at ptr); ptr += w; len -= w; }] *)
Fixpoint count_loop (guard : Z -> bool) (w : nat) (fuel : nat) (bmp : list Z) (ptr len bit_count : Z)
    : outcome (Z * Z * Z) :=
  if guard len then
    match fuel with
    | O => Fault OutOfFuel
    | S fuel' =>
        v ← load_le bmp ptr w;
        count_loop guard w fuel' bmp (ptr + Z.of_nat w) (len - Z.of_nat w)
          (bit_count + popcount (8 * w) v)
    end
  else Ok (ptr, len, bit_count).

Definition count_bits (bmp : list Z) (len : Z) : outcome Z :=
  let fuel := Z.to_nat len in
  '(ptr, len, bit_count) ← count_loop (fun len => 8 <? len) 8 fuel bmp 0 len 0;
  '(ptr, len, bit_count) ← count_loop (fun len => 4 <=? len) 4 fuel bmp ptr len bit_count;
  '(ptr, len, bit_count) ← count_loop (fun len => 0 <? len) 1 fuel bmp ptr len bit_count;
  Ok bit_count.

(** The set bits below [n]. *)
Definition ones_upto (d : list Z) (n : nat) : Z := Z.of_nat n - free_upto d n.

Lemma load_le_bits d k n :
  bytes_wf d -> 0 <= k -> k + Z.of_nat n <= zlength d ->
  exists v, load_le d k n = Ok v /\ forall i, 0 <= i < 8 * Z.of_nat n -> Z.testbit v i = bit_at d (8 * k + i).
Proof.
  intros Hwf. revert k. induction n as [|n IH]; intros k Hk Hl; simpl.
  - exists 0. split; [done|lia].
  - rewrite zget_byte by lia. simpl. destruct (IH (k + 1)) as (v & -> & Hv); [lia|lia|]. simpl.
    pose proof (byte_at_range d k Hwf) as Hb. eexists. split; [done|]. intros i Hi.
    unfold bit_at. destruct (decide (i < 8)).
    + rewrite <- (Z.mod_pow2_bits_low (byte_at d k + 256 * v) 8) by lia.
      replace ((byte_at d k + 256 * v) mod 2 ^ 8) with (byte_at d k) by (change (2 ^ 8) with 256; zdm).
      f_equal; [f_equal; zdm|zdm].
    + replace i with (i - 8 + 8) at 1 by lia. rewrite <- Z.div_pow2_bits by lia.
      replace ((byte_at d k + 256 * v) / 2 ^ 8) with v by (change (2 ^ 8) with 256; zdm).
      rewrite Hv by lia. unfold bit_at. f_equal; [f_equal; zdm|zdm].
Qed.

Lemma popcount_ones d v k w :
  0 <= k -> (forall i, 0 <= i < Z.of_nat w -> Z.testbit v i = bit_at d (k + i)) ->
  popcount w v = ones_upto d (Z.to_nat k + w) - ones_upto d (Z.to_nat k).
Proof.
  intros Hk. induction w as [|w IH]; intros He; [rewrite Nat.add_0_r; simpl; lia|].
  cbn [popcount]. rewrite IH by (intros; apply He; lia). rewrite He by lia.
  replace (Z.to_nat k + S w)%nat with (S (Z.to_nat k + w)) by lia. unfold ones_upto. cbn [free_upto].
  replace (Z.of_nat (Z.to_nat k + w)) with (k + Z.of_nat w) by lia. destruct (bit_at d _); lia.
Qed.

Lemma count_loop_spec guard w fuel d ptr len c :
  bytes_wf d -> 0 <= ptr -> 0 <= len -> ptr + len <= zlength d -> (0 < w)%nat ->
  (forall l, guard l = true -> Z.of_nat w <= l) -> (Z.to_nat len <= fuel)%nat ->
  c = ones_upto d (Z.to_nat (8 * ptr)) ->
  exists ptr' len', count_loop guard w fuel d ptr len c = Ok (ptr', len', ones_upto d (Z.to_nat (8 * ptr'))) /\
    0 <= ptr' /\ 0 <= len' <= len /\ ptr' + len' = ptr + len /\ guard len' = false.
Proof.
  intros Hwf Hp Hl Hb Hw Hg Hf ->. revert fuel ptr Hp Hb Hf. pattern len. apply Zlt_0_ind; [|done]. clear len Hl.
  intros len IH Hl fuel ptr Hp Hb Hf. destruct fuel as [|fuel].
  - exists ptr, len. cbn [count_loop]. destruct (guard len) eqn:E; [apply Hg in E; lia|]. split_and!; try done; lia.
  - cbn [count_loop]. destruct (guard len) eqn:E; [|exists ptr, len; split_and!; try done; lia].
    apply Hg in E. destruct (load_le_bits d ptr w Hwf Hp ltac:(lia)) as (v & -> & Hv).
    unfold mbind, outcome_bind. cbv beta iota.
    rewrite (popcount_ones d v (8 * ptr)) by (lia || (intros; apply Hv; lia)).
    replace (ones_upto d (Z.to_nat (8 * ptr)) + _) with (ones_upto d (Z.to_nat (8 * (ptr + Z.of_nat w))))
      by (replace (Z.to_nat (8 * (ptr + Z.of_nat w))) with (Z.to_nat (8 * ptr) + 8 * w)%nat by lia; lia).
    destruct (IH (len - Z.of_nat w) ltac:(lia) fuel (ptr + Z.of_nat w)) as (p' & l' & -> & ? & ? & ? & ?); [lia..|].
    exists p', l'. split_and!; try done; lia.
Qed.

Lemma count_bits_spec d len :
  bytes_wf d -> 0 <= len <= zlength d -> count_bits d len = Ok (ones_upto d (Z.to_nat (8 * len))).
Proof.
  intros Hwf Hl. unfold count_bits.
  destruct (count_loop_spec (fun l => 8 <? l) 8 (Z.to_nat len) d 0 len 0) as (p1 & l1 & -> & ? & ? & ? & _);
    try done; try lia. simpl.
  destruct (count_loop_spec (fun l => 4 <=? l) 4 (Z.to_nat len) d p1 l1 (ones_upto d (Z.to_nat (8 * p1))))
    as (p2 & l2 & -> & ? & ? & ? & _); try done; try lia. simpl.
  destruct (count_loop_spec (fun l => 0 <? l) 1 (Z.to_nat len) d p2 l2 (ones_upto d (Z.to_nat (8 * p2))))
    as (p3 & l3 & -> & ? & ? & ? & Hg); try done; try lia. simpl.
  apply Z.ltb_ge in Hg. by replace p3 with len by lia.
Qed.

(** ** The bitmaps *)

(** [memcpy(dram_start, REL2ABS(pm_start), bytes)]. *)
Definition read_bytes (m : mem) (a n : Z) : list Z := (fun k => m (a + Z.of_nat k)) <$> seq 0 (Z.to_nat n).

(** The loop over the [num] maps of one kind of slot; [left] maps remain. *)
Fixpoint init_maps (m : mem) (num : Z) (left : nat) (bits_per_map total_bits bit_offset pm_start : Z)
    : outcome (list dram_bitmap) :=
  match left with
  | O => Ok []
  | S left' =>
      let bits := if Nat.eqb left 1 then total_bits else bits_per_map in
      let bytes := u64 (bits + 7) / 8 in
      let dram_start := read_bytes m pm_start bytes in
      bit_count ← count_bits dram_start bytes;
      zero ← next_zero_bit dram_start bits 0;
      let b := mk_bitmap dram_start pm_start bit_offset bits (u64 (bits - i32 bit_count)) (u64 zero) in
      rest ← init_maps m num left' bits_per_map (u64 (total_bits - bits)) (bit_offset + bits) (pm_start + bytes);
      Ok (b :: rest)
  end.

Definition init_kind (m : mem) (num : Z) (sl : pm_slot) : outcome (list dram_bitmap) :=
  init_maps m num (Z.to_nat num) (ROUND_UP (slot_num sl / num) 64) (slot_num sl) 0 (bitmap sl).

(** The maps of the four kinds, in the order of the slot types. *)
Definition shm_init_bitmap (m : mem) (sb : pm_super_block)
    : outcome (list dram_bitmap * list dram_bitmap * list dram_bitmap * list dram_bitmap) :=
  i ← init_kind m MAP_NUM (sb_inode sb);
  d ← init_kind m MAP_NUM (sb_dir sb);
  f ← init_kind m MAP_NUM (sb_file sb);
  t ← init_kind m MAP_NUM (sb_data sb);
  Ok (i, d, f, t).

(** ** What mount builds *)

Definition pm_bit (m : mem) (base i : Z) : bool := Z.testbit (m (base + i / 8)) (i mod 8).

Lemma read_bytes_length m a n : 0 <= n -> zlength (read_bytes m a n) = n.
Proof. intros. unfold zlength, read_bytes. rewrite length_fmap, length_seq. lia. Qed.

Lemma read_bytes_wf m a n : mem_ok m -> bytes_wf (read_bytes m a n).
Proof. intros Hm. apply Forall_fmap, Forall_forall. intros k _. apply Hm. Qed.

Lemma read_bytes_bit m a n i : 0 <= i < 8 * n -> bit_at (read_bytes m a n) i = pm_bit m a i.
Proof.
  intros Hi. unfold bit_at, byte_at, pm_bit, read_bytes.
  rewrite list_lookup_fmap, lookup_seq_lt by zdm. simpl. do 3 f_equal. zdm.
Qed.

Lemma free_upto_tail d n k :
  (forall i, Z.of_nat n <= i < Z.of_nat (n + k) -> bit_at d i = false) ->
  free_upto d (n + k) = free_upto d n + Z.of_nat k.
Proof.
  induction k as [|k IH]; intros Hz; [rewrite Nat.add_0_r; lia|].
  replace (n + S k)%nat with (S (n + k)) by lia. cbn [free_upto].
  rewrite IH, Hz; [lia|lia|intros; apply Hz; lia].
Qed.

(** The bits after the last slot, in the last byte of the bitmap, are clear. *)
Definition tail_clear (m : mem) (sl : pm_slot) : Prop :=
  forall i, slot_num sl <= i < 8 * ((slot_num sl + 7) / 8) -> pm_bit m (bitmap sl) i = false.

Lemma init_kind_spec m sl :
  mem_ok m -> 0 < slot_num sl < 2 ^ 31 -> tail_clear m sl ->
  exists maps, init_kind m MAP_NUM sl = Ok maps /\ maps_wf MAP_NUM maps /\
    forall i, 0 <= i < slot_num sl -> slot_valid maps i /\ slot_bit maps i = pm_bit m (bitmap sl) i.
Proof.
  intros Hm Hn Ht. unfold init_kind, MAP_NUM. change (Z.to_nat 1) with 1%nat. cbn [init_maps Nat.eqb].
  rewrite (u64_small (slot_num sl + 7)) by lia. set (n := slot_num sl) in *. set (len := (n + 7) / 8).
  assert (0 <= len /\ n <= 8 * len < n + 8) as [Hl0 Hl] by (subst len; zdm).
  set (d := read_bytes m (bitmap sl) len).
  assert (bytes_wf d) as Hwf by (by apply read_bytes_wf).
  assert (zlength d = len) as Hlen by (by apply read_bytes_length).
  rewrite count_bits_spec by (done || lia). unfold mbind, outcome_bind; cbv beta iota.
  destruct (next_zero_bit_spec d n 0) as (z & -> & Hz); [lia|lia|lia|].
  assert (forall i, 0 <= i < n -> bit_at d i = pm_bit m (bitmap sl) i) as Hbit.
  { intros i Hi. apply read_bytes_bit. lia. }
  assert (ones_upto d (Z.to_nat (8 * len)) = n - free_upto d (Z.to_nat n)) as ->.
  { unfold ones_upto. replace (Z.to_nat (8 * len)) with (Z.to_nat n + (Z.to_nat (8 * len) - Z.to_nat n))%nat by lia.
    rewrite free_upto_tail; [lia|]. intros i Hi. unfold d. rewrite read_bytes_bit by lia. apply Ht. fold n len. lia. }
  pose proof (free_upto_range d (Z.to_nat n)).
  rewrite (i32_small (n - _)), (u64_small (n - _)), (u64_small z) by lia.
  eexists. split; [done|]. split; [|intros i Hi].
  - apply maps_wf_single; [|done]. constructor; simpl; [done|done|lia|lia|lia].
  - unfold slot_valid, slot_bit. simpl. rewrite Z.div_small, Z.mod_small by lia. simpl. split.
    + split; [lia|]. eexists. split; [done|]. simpl. lia.
    + by apply Hbit.
Qed.

(** A kind has one map, with a bit for every slot. *)
Lemma init_kind_shape m sl maps :
  0 < slot_num sl < 2 ^ 31 -> init_kind m MAP_NUM sl = Ok maps ->
  exists b, maps = [b] /\ bit_num b = slot_num sl /\ zlength (dram b) = (slot_num sl + 7) / 8.
Proof.
  intros Hn. unfold init_kind, MAP_NUM. change (Z.to_nat 1) with 1%nat. cbn [init_maps Nat.eqb].
  rewrite (u64_small (slot_num sl + 7)) by lia. intros (c & _ & H)%bind_Ok. apply bind_Ok in H as (z & _ & H).
  injection H as <-. eexists. split; [done|]. cbn [bit_num dram]. split; [done|]. apply read_bytes_length. zdm.
Qed.
Lemma single_valid b k : 0 < bit_num b -> slot_valid [b] k <-> 0 <= k < bit_num b.
Proof.
  intros Hb. unfold slot_valid. cbn [map_size]. split.
  - intros (H0 & c & Hc & Hlt). apply lookup_lt_Some in Hc. change (length [b]) with 1%nat in Hc.
    assert (0 <= k / bit_num b) by (apply Z.div_pos; lia). assert (k / bit_num b = 0) as E0 by lia.
    rewrite (Z.div_mod k (bit_num b)), E0 by lia. pose proof (Z.mod_pos_bound k (bit_num b)). lia.
  - intros Hk. split; [lia|]. rewrite Z.div_small by lia. exists b. split; [done|]. rewrite Z.mod_small; lia.
Qed.
Lemma shm_init_bitmap_Ok m sb i d f t : shm_init_bitmap m sb = Ok (i, d, f, t) ->
  init_kind m MAP_NUM (sb_inode sb) = Ok i /\ init_kind m MAP_NUM (sb_dir sb) = Ok d /\
  init_kind m MAP_NUM (sb_file sb) = Ok f /\ init_kind m MAP_NUM (sb_data sb) = Ok t.
Proof.
  intros (x1 & H1 & H)%bind_Ok. apply bind_Ok in H as (x2 & H2 & H). apply bind_Ok in H as (x3 & H3 & H).
  apply bind_Ok in H as (x4 & H4 & H). by injection H as <- <- <- <-.
Qed.

(** ** After mkfs *)

Lemma store_out a n v m x : (x < a \/ a + Z.of_nat n <= x) -> store a n v m x = m x.
Proof. intros Hx. apply (store_agree a n v m x 1); lia. Qed.
Lemma memset_in dst v n m x : dst <= x < dst + n -> Pm.memset dst v n m x = u8 v.
Proof. intros Hx. unfold Pm.memset. zb; simpl; lia || done. Qed.
Lemma memset_out dst v n m x : (x < dst \/ dst + n <= x) -> Pm.memset dst v n m x = m x.
Proof. intros Hx. unfold Pm.memset. zb; simpl; lia || done. Qed.
Lemma pm_set_bit_out nr base m x : x <> base + nr / 8 -> pm_set_bit nr base m x = m x.
Proof. intros Hx. apply store_out. simpl. lia. Qed.
Lemma pm_set_bit_in nr base m :
  pm_set_bit nr base m (base + nr / 8) = Z.lor (m (base + nr / 8)) (Z.shiftl 1 (nr mod 8)) mod 256.
Proof.
  unfold pm_set_bit, store. rewrite Z.leb_refl, Z.sub_diag, Z.div_1_r.
  destruct (Z.ltb_spec (base + nr / 8) (base + nr / 8 + Z.of_nat 1)); simpl; done || lia.
Qed.

Lemma mkfs_sb_eq pages_junk now :
  mkfs_sb pages_junk now DAX_SIZE =
  mk_sb SUPER_BLOCK_MAGIC now now DAX_SIZE 0
    (mk_slot 4538368 327680 128 10240 1060864 10) (mk_slot 46481408 327680 256 20480 1101824 10)
    (mk_slot 130367488 14830567 64 231728 1142784 453) (mk_slot 1079525376 12319356 4096 pages_junk 2998272 376)
    1 0.
Proof. vm_compute. reflexivity. Qed.

(** The first byte of each bitmap. *)
Definition reserved (x : Z) : Z :=
  if x =? 1060864 then 1 else if x =? 1101824 then 3 else if x =? 1142784 then 1 else
  if x =? 2998272 then 1 else 0.

Lemma mkfs_bitmap_bytes pages_junk now p x :
  1060864 <= x < 4538368 -> bytes (mkfs pages_junk now p) x = reserved x.
Proof.
  intros Hx. unfold mkfs. rewrite mkfs_sb_eq. cbn [sb_inode sb_dir sb_file sb_data].
  unfold mkfs_rootinode, mkfs_slot, clear_table, clear_bitmap.
  rewrite !bytes_update. cbn [slot_table slot_pages bitmap bitmap_pages].
  unfold store_sb, store_slot.
  cbn [sb_magic sb_mtime sb_ctime sb_size sb_ts sb_inode sb_dir sb_file sb_data sb_umount sb_csm
       slot_table slot_num slot_size slot_pages bitmap bitmap_pages].
  repeat (rewrite store_out by (simpl; lia)).
  match goal with |- context [pm_set_bit 0 1060864 (Pm.memset ?a ?b ?c ?m)] =>
    set (m0 := Pm.memset a b c m) end.
  assert (forall y, 1060864 <= y < 4538368 -> m0 y = 0) as Hm0.
  { intros y Hy. subst m0. rewrite !Z.shiftl_mul_pow2 by done. change (2 ^ PAGE_SHIFT) with 4096.
    destruct (decide (y < 1101824)), (decide (y < 1142784)), (decide (y < 2998272)); try lia;
      repeat first [rewrite memset_in by lia; done|rewrite memset_out by lia]. }
  clearbody m0. unfold reserved. unfold PI_csum, PI_ts, PI_entry_num, PI_log_head, PI_i_atim, PI_i_mtim,
    PI_i_ctim, PI_i_link, PI_i_size, PI_i_gid, PI_i_uid, PI_i_mode.
  assert (forall nr base m y, pm_set_bit nr base m y =
    if y =? base + nr / 8 then Z.lor (m y) (Z.shiftl 1 (nr mod 8)) mod 256 else m y) as Hset.
  { intros nr base m y. destruct (Z.eqb_spec y (base + nr / 8)) as [->|]; [apply pm_set_bit_in|by apply pm_set_bit_out]. }
  repeat first [rewrite store_out by (simpl; lia)|rewrite Hset].
  rewrite Hm0 by lia. change (0 / 8) with 0. change (1 / 8) with 0. rewrite !Z.add_0_r.
  repeat match goal with |- context [x =? ?k] => destruct (Z.eqb_spec x k) end; try lia; reflexivity.
Qed.

Lemma memset_ok dst v n m : mem_ok m -> mem_ok (Pm.memset dst v n m).
Proof. intros Hm x. unfold Pm.memset. destruct (_ && _); [apply u8_range|apply Hm]. Qed.
Lemma pm_set_bit_ok nr base m : mem_ok m -> mem_ok (pm_set_bit nr base m).
Proof. apply store_ok. Qed.
#[export] Hint Resolve memset_ok pm_set_bit_ok : slotfs.

Lemma mkfs_mem_ok pages_junk now p : mem_ok (bytes p) -> mem_ok (bytes (mkfs pages_junk now p)).
Proof.
  intros Hp. unfold mkfs. rewrite mkfs_sb_eq. cbn [sb_inode sb_dir sb_file sb_data].
  unfold mkfs_rootinode, mkfs_slot, clear_table, clear_bitmap, mkfs_journal.
  rewrite !bytes_update. unfold store_sb, store_slot.
  repeat first [assumption|apply store_ok|apply pm_set_bit_ok|apply memset_ok].
Qed.

(** The bits of a bitmap of which only the first byte is not zero. *)
Lemma first_byte_bit m base v lim i :
  (forall x, base <= x < lim -> m x = if x =? base then v else 0) ->
  0 <= i -> base + i / 8 < lim -> pm_bit m base i = (if i <? 8 then Z.testbit v i else false).
Proof.
  intros Hm Hi Hl. unfold pm_bit. rewrite Hm by zdm.
  destruct (Z.ltb_spec i 8).
  - rewrite Z.div_small, Z.mod_small, Z.add_0_r, Z.eqb_refl by lia. done.
  - destruct (Z.eqb_spec (base + i / 8) base); [zdm|]. apply Z.bits_0.
Qed.

Lemma init_after_mkfs pages_junk now p sl v lim :
  mem_ok (bytes p) -> 0 < slot_num sl < 2 ^ 31 -> bitmap sl + (slot_num sl + 7) / 8 <= lim -> v < 8 -> 8 <= slot_num sl ->
  1060864 <= bitmap sl -> lim <= 4538368 ->
  (forall x, bitmap sl <= x < lim -> reserved x = if x =? bitmap sl then v else 0) ->
  exists maps, init_kind (bytes (mkfs pages_junk now p)) MAP_NUM sl = Ok maps /\ maps_wf MAP_NUM maps /\
    forall i, 0 <= i < slot_num sl -> slot_valid maps i /\ slot_bit maps i = (if i <? 8 then Z.testbit v i else false).
Proof.
  intros Hp Hn Hl Hv H8 Hb1 Hb2 Hr. set (m := bytes (mkfs pages_junk now p)).
  assert (forall x, bitmap sl <= x < lim -> m x = if x =? bitmap sl then v else 0) as Hm.
  { intros x Hx. subst m. rewrite mkfs_bitmap_bytes by lia. by apply Hr. }
  destruct (init_kind_spec m sl) as (maps & Hmaps & Hwf & Hbits); [by apply mkfs_mem_ok|done| |].
  - intros i Hi. rewrite (first_byte_bit m _ v lim) by (done || zdm). destruct (Z.ltb_spec i 8); [lia|done].
  - exists maps. split_and!; [done|done|]. intros i Hi. destruct (Hbits i Hi) as [? ->]. split; [done|].
    apply (first_byte_bit m _ v lim); [done|lia|zdm].
Qed.

(** ** The super block and the root inode *)

Definition load_slot (a : Z) (m : mem) : pm_slot :=
  mk_slot (load m a 8) (load m (a + 8) 8) (load m (a + 16) 8) (load m (a + 24) 8) (load m (a + 32) 8) (load m (a + 40) 8).

(** [memcpy(sbi->super, DAX_START, sizeof(pm_sb_t))] of [shm_init]. *)
Definition load_sb (m : mem) : pm_super_block :=
  mk_sb (load m 0 8) (load m 8 8) (load m 16 8) (load m 24 8) (load m 32 8)
    (load_slot 40 m) (load_slot 88 m) (load_slot 136 m) (load_slot 184 m) (load m 232 1) (load m 236 4).

Definition slot_u64 (sl : pm_slot) : Prop :=
  0 <= slot_table sl < 2 ^ 64 /\ 0 <= slot_num sl < 2 ^ 64 /\ 0 <= slot_size sl < 2 ^ 64 /\
  0 <= slot_pages sl < 2 ^ 64 /\ 0 <= bitmap sl < 2 ^ 64 /\ 0 <= bitmap_pages sl < 2 ^ 64.

Lemma load_store_ne m a n v b k :
  (b + Z.of_nat k <= a \/ a + Z.of_nat n <= b) -> load (store a n v m) b k = load m b k.
Proof. intros Hd. apply load_agree, store_agree. lia. Qed.

(** Reads a field back through the stores of other fields. *)
Ltac load_field :=
  repeat (rewrite load_store_ne by (simpl; lia)); rewrite load_store_eq; apply Z.mod_small; simpl; lia.

Lemma load_store_slot a sl m : slot_u64 sl -> load_slot a (store_slot a sl m) = sl.
Proof. intros Hs. destruct sl. unfold slot_u64, load_slot, store_slot in *. simpl in *. f_equal; load_field. Qed.

Lemma load_slot_agree a m m' : agree a 48 m m' -> load_slot a m' = load_slot a m.
Proof.
  intros Ha. unfold load_slot. f_equal; apply load_agree; eapply agree_sub; [| |exact Ha| | |exact Ha| | |exact Ha
    | | |exact Ha| | |exact Ha| | |exact Ha]; lia.
Qed.

Lemma store_slot_agree a sl m b n : (b + n <= a \/ a + 48 <= b) -> agree b n m (store_slot a sl m).
Proof.
  intros Hd. unfold store_slot.
  repeat (eapply agree_trans; [|apply store_agree; simpl; lia]). apply agree_refl.
Qed.

Lemma load_store_sb sb m :
  0 <= sb_magic sb < 2 ^ 64 -> 0 <= sb_mtime sb < 2 ^ 64 -> 0 <= sb_ctime sb < 2 ^ 64 ->
  0 <= sb_size sb < 2 ^ 64 -> 0 <= sb_ts sb < 2 ^ 64 ->
  slot_u64 (sb_inode sb) -> slot_u64 (sb_dir sb) -> slot_u64 (sb_file sb) -> slot_u64 (sb_data sb) ->
  0 <= sb_umount sb < 256 -> 0 <= sb_csm sb < 2 ^ 32 -> load_sb (store_sb sb m) = sb.
Proof.
  intros. destruct sb as [? ? ? ? ? i d f t ? ?]. simpl in *. unfold load_sb, store_sb. simpl.
  assert (forall a n v m b k, (b + Z.of_nat k <= a \/ a + Z.of_nat n <= b) ->
    load (store a n v m) b k = load m b k) as Hne by (intros; by apply load_store_ne).
  assert (forall a sl m b k, (b + Z.of_nat k <= a \/ a + 48 <= b) ->
    load (store_slot a sl m) b k = load m b k) as Hns
    by (intros; apply load_agree, store_slot_agree; lia).
  assert (forall a sl m b, (b + 48 <= a \/ a + 48 <= b) ->
    load_slot b (store_slot a sl m) = load_slot b m) as Hss
    by (intros; apply load_slot_agree, store_slot_agree; lia).
  assert (forall a n v m b, (b + 48 <= a \/ a + Z.of_nat n <= b) ->
    load_slot b (store a n v m) = load_slot b m) as Hsn
    by (intros; apply load_slot_agree, store_agree; lia).
  f_equal.
  all: repeat first [rewrite Hns by (simpl; lia)|rewrite Hne by (simpl; lia)
                    |rewrite Hss by (simpl; lia)|rewrite Hsn by (simpl; lia)].
  all: first [by apply load_store_slot|rewrite load_store_eq; apply Z.mod_small; simpl; lia].
Qed.

Lemma mkfs_super_eq pages_junk now p :
  0 <= pages_junk < 2 ^ 64 -> 0 <= now < 2 ^ 64 ->
  load_sb (bytes (mkfs pages_junk now p)) = mkfs_sb pages_junk now DAX_SIZE.
Proof.
  intros Hj Hn. unfold mkfs. cbv zeta. rewrite bytes_update. rewrite mkfs_sb_eq.
  apply load_store_sb; unfold slot_u64; simpl; try lia; done.
Qed.

Lemma mount_eq pages_junk now p :
  mem_ok (bytes p) ->
  exists i d f t,
    shm_init_bitmap (bytes (mkfs pages_junk now p)) (mkfs_sb pages_junk now DAX_SIZE) = Ok (i, d, f, t) /\
    maps_wf MAP_NUM i /\ maps_wf MAP_NUM d /\ maps_wf MAP_NUM f /\ maps_wf MAP_NUM t /\
    (forall k, 0 <= k < 327680 -> slot_bit i k = (k =? 0) /\ slot_bit d k = (k <=? 1)) /\
    (forall k, 0 <= k < 14830567 -> slot_bit f k = (k =? 0)) /\
    (forall k, 0 <= k < 12319356 -> slot_bit t k = (k =? 0)).
Proof.
  intros Hp. unfold shm_init_bitmap. rewrite mkfs_sb_eq. cbn [sb_inode sb_dir sb_file sb_data].
  edestruct (init_after_mkfs pages_junk now p (mk_slot 4538368 327680 128 10240 1060864 10) 1 1101824)
    as (mi & -> & Hwi & Hi); [done|simpl; lia|simpl; zdm|lia|simpl; lia|simpl; lia|lia| |].
  { simpl. intros x Hx. unfold reserved. repeat match goal with |- context [x =? ?k] => destruct (Z.eqb_spec x k) end; lia. }
  edestruct (init_after_mkfs pages_junk now p (mk_slot 46481408 327680 256 20480 1101824 10) 3 1142784)
    as (md & -> & Hwd & Hd); [done|simpl; lia|simpl; zdm|lia|simpl; lia|simpl; lia|lia| |].
  { simpl. intros x Hx. unfold reserved. repeat match goal with |- context [x =? ?k] => destruct (Z.eqb_spec x k) end; lia. }
  edestruct (init_after_mkfs pages_junk now p (mk_slot 130367488 14830567 64 231728 1142784 453) 1 2998272)
    as (mf & -> & Hwf & Hf); [done|simpl; lia|simpl; zdm|lia|simpl; lia|simpl; lia|lia| |].
  { simpl. intros x Hx. unfold reserved. repeat match goal with |- context [x =? ?k] => destruct (Z.eqb_spec x k) end; lia. }
  edestruct (init_after_mkfs pages_junk now p (mk_slot 1079525376 12319356 4096 pages_junk 2998272 376) 1 4538368)
    as (mt & -> & Hwt & Ht); [done|simpl; lia|simpl; zdm|lia|simpl; lia|simpl; lia|lia| |].
  { simpl. intros x Hx. unfold reserved. repeat match goal with |- context [x =? ?k] => destruct (Z.eqb_spec x k) end; lia. }
  exists mi, md, mf, mt. simpl in *.
  assert (forall k, 0 <= k -> (if k <? 8 then Z.testbit 1 k else false) = (k =? 0)) as H1.
  { intros k Hk. destruct (Z.ltb_spec k 8); [|by destruct (Z.eqb_spec k 0); [lia|]].
    change 1 with (2 ^ 0). rewrite Z.pow2_bits_eqb by lia. apply Z.eqb_sym. }
  assert (forall k, 0 <= k -> (if k <? 8 then Z.testbit 3 k else false) = (k <=? 1)) as H3.
  { intros k Hk. destruct (Z.ltb_spec k 8); [|by destruct (Z.leb_spec k 1); [lia|]].
    change 3 with (Z.ones 2). rewrite Z.testbit_ones_nonneg by lia. destruct (Z.ltb_spec k 2), (Z.leb_spec k 1); lia || done. }
  split; [done|]. split_and!; try done; intros k Hk.
  - destruct (Hi k Hk) as [_ ->], (Hd k Hk) as [_ ->]. by rewrite H1, H3 by lia.
  - destruct (Hf k Hk) as [_ ->]. apply H1. lia.
  - destruct (Ht k Hk) as [_ ->]. apply H1. lia.
Qed.

(** The entry slots are empty, and the root inode is an empty directory whose
    log starts with the ghost slot 1. *)
Ltac open_mkfs :=
  unfold mkfs; rewrite mkfs_sb_eq; cbn [sb_inode sb_dir sb_file sb_data];
  unfold mkfs_rootinode, mkfs_slot, clear_table, clear_bitmap;
  rewrite !bytes_update; cbn [slot_table slot_pages bitmap bitmap_pages];
  unfold store_sb, store_slot;
  cbn [sb_magic sb_mtime sb_ctime sb_size sb_ts sb_inode sb_dir sb_file sb_data sb_umount sb_csm
       slot_table slot_num slot_size slot_pages bitmap bitmap_pages];
  unfold PI_csum, PI_ts, PI_entry_num, PI_log_head, PI_i_atim, PI_i_mtim, PI_i_ctim, PI_i_link, PI_i_size, PI_i_gid, PI_i_uid, PI_i_mode.

Lemma mkfs_dir_table pages_junk now p x :
  46481408 <= x < 130367488 -> bytes (mkfs pages_junk now p) x = 0.
Proof.
  intros Hx. open_mkfs. rewrite !Z.shiftl_mul_pow2 by done. change (2 ^ PAGE_SHIFT) with 4096.
  repeat first [rewrite store_out by (simpl; lia)|rewrite pm_set_bit_out by (change (0 / 8) with 0; change (1 / 8) with 0; lia)
               |rewrite memset_in by lia; reflexivity|rewrite memset_out by lia].
Qed.

Lemma load_set_bit_ne nr base m b k :
  0 <= nr -> b + Z.of_nat k <= base + nr / 8 \/ base + nr / 8 < b -> load (pm_set_bit nr base m) b k = load m b k.
Proof. intros Hn Hd. unfold pm_set_bit. apply load_store_ne. simpl. lia. Qed.

Lemma mkfs_root pages_junk now p :
  let m := bytes (mkfs pages_junk now p) in
  load m (4538368 + 24) 4 = 16877 /\ load m (4538368 + 56) 8 = 1 /\ load m (4538368 + 64) 8 = 0 /\ load m 232 1 = 1 /\
  load m (4538368 + 16) 8 = 1.
Proof.
  cbv zeta. change 16877 with (Z.lor S_IFDIR 493). split_and!; open_mkfs;
    (repeat first [rewrite load_store_ne by (simpl; lia)|rewrite load_set_bit_ne by (change (0 / 8) with 0; lia)]);
    rewrite load_store_eq; reflexivity.
Qed.

(** ** Properties *)

(** The super block that mount reads back after mkfs is the one mkfs
    wrote, whatever the device held before. *)
Theorem mkfs_super_roundtrip pages_junk now p :
  0 <= pages_junk < 2 ^ 64 -> 0 <= now < 2 ^ 64 ->
  load_sb (bytes (mkfs pages_junk now p)) = mkfs_sb pages_junk now DAX_SIZE.
Proof. apply mkfs_super_eq. Qed.

(** Mounting a freshly formatted device gives allocators that satisfy the
    invariant of the slot allocator and in which exactly the reserved slots
    are taken: slot 0 of every kind, and slot 1 of the directory entries, the
    ghost slot of the root directory. *)
Theorem mount_after_mkfs pages_junk now p :
  mem_ok (bytes p) ->
  exists i d f t,
    shm_init_bitmap (bytes (mkfs pages_junk now p)) (mkfs_sb pages_junk now DAX_SIZE) = Ok (i, d, f, t) /\
    maps_wf MAP_NUM i /\ maps_wf MAP_NUM d /\ maps_wf MAP_NUM f /\ maps_wf MAP_NUM t /\
    (forall k, 0 <= k < 327680 -> slot_bit i k = (k =? 0) /\ slot_bit d k = (k <=? 1)) /\
    (forall k, 0 <= k < 14830567 -> slot_bit f k = (k =? 0)) /\
    (forall k, 0 <= k < 12319356 -> slot_bit t k = (k =? 0)).
Proof. apply mount_eq. Qed.

(** ** Witnesses *)

Lemma mkfs_super_roundtrip_witness :
  load_sb (bytes (mkfs 7 1700000000 (mk_pmem (fun _ => 255) []))) = mkfs_sb 7 1700000000 DAX_SIZE.
Proof. apply (mkfs_super_roundtrip 7 1700000000 (mk_pmem (fun _ => 255) [])); lia. Defined.

Lemma mount_after_mkfs_witness :
  exists i d f t, shm_init_bitmap (bytes (mkfs 0 0 (mk_pmem (fun _ => 255) []))) (mkfs_sb 0 0 DAX_SIZE) = Ok (i, d, f, t) /\
    slot_bit d 1 = true.
Proof.
  destruct (mount_after_mkfs 0 0 (mk_pmem (fun _ => 255) [])) as (i & d & f & t & He & _ & _ & _ & _ & Hd & _).
  - intros x. simpl. lia.
  - exists i, d, f, t. split; [done|]. by destruct (Hd 1 ltac:(lia)) as [_ ->].
Defined.
