(* ===== verification/Fs.v ===== *)
(** * The state of the file system (src/slotfs/slotfs.h, inode.h, entry.h, slot.c)

    [fs] is the mounted file system: the device, the slot bitmaps and the
    objects in shared memory.  Objects live in heaps from addresses to records;
    an arena is the stack of its free objects (Arena.v proves [arena_alloc] and
    [arena_free] to be pop and push), and freeing an object leaves its fields
    in place.  A [list_head] is the sequence of the objects on it.
    The nodes of a directory's red-black tree and of a file's radix tree are
    kept with the inode that owns them: two trees never share a node.

    The super block [sb] is read-only after mount.  [cpu] is the result of
    [sched_getcpu], [now] that of [time].  A lock is held or free; taking a held
    lock again is [Deadlock].

    Fields that no modelled function uses are left out: [f_slot_cache],
    [f_slot_cache_off], [r_lock], [s_lock], and [ref] of [dirent_t]. *)
From stdpp Require Import base numbers list gmap.
From S2P Require Import Prelude Bitops Slot Btree Rbtree Pm Mkfs.
Local Open Scope Z_scope.

(** ** Error pointers and numbers *)

Definition ENOENT : Z := 2.
Definition EIO : Z := 5.
Definition ENOTDIR : Z := 20.
Definition EINVAL : Z := 22.
Definition ENOSPC : Z := 28.
Definition MAX_ERRNO : Z := 4095.

(** [ERR_PTR(e)] is the pointer value [e]; a pointer is an unsigned 64-bit number. *)
Definition IS_ERR (p : Z) : bool := u64 (- MAX_ERRNO) <=? u64 p.

(** ** Objects in shared memory *)

Record dirent : Type := mk_dirent {
  d_idx : Z;      (* slot of the entry on the device *)
  d_ts : Z;
  d_ino : Z;
  d_hash : Z;
}.

Record filent : Type := mk_filent {
  f_idx : Z;
  f_ts : Z;
  f_l_idx : Z;    (* first block of the file *)
  f_p_idx : Z;    (* first data slot *)
  f_blocks : Z;
  f_ref : Z;      (* the blocks that still refer to it *)
}.

Record entry_unit : Type := mk_unit {
  eu_blocks : Z;
  eu_l_idx : Z;
  eu_p_idx : Z;
}.

Definition EBUF_NUM : Z := 128.
Definition EBUF_SIZE : Z := 512.

Record ebuf : Type := mk_ebuf {
  eb_arr : list entry_unit;
  eb_num : Z;
  eb_size : Z;
  eb_idx : Z;
  eb_locked : bool;
}.

Record jnl_manager : Type := mk_jnl_mgr {
  use : list bool;
  count : Z;
}.

(** [struct dram_inode]. *)
Record dram_inode : Type := mk_inode {
  i_ino : Z;
  i_size : Z;
  i_ctim : Z;
  i_uid : Z;
  i_gid : Z;
  i_link : Z;   (* nlink_t *)
  i_mode : Z;
  i_atim : Z;
  i_mtim : Z;
  i_ts : Z;
  i_ref : Z;
  rb_root : rb_tree;   (* the union: used by directories *)
  b_root : Z;   (* b_root.root: used by the other inodes *)
  b_height : Z;   (* b_root.height *)
  b_nodes : gmap Z btree_node;   (* the nodes of this tree *)
  b_hint : btree_ptr;
  entry_num : Z;
  invalid_num : Z;
  log_head : Z;
  ghost_slot : Z;
  i_list : list Z;   (* the entries, from list.next *)
  i_invalid : list Z;   (* the entries no block refers to *)
}.

Definition upd_i_ino (f : Z -> Z) (i : dram_inode) : dram_inode :=
  mk_inode (f (i_ino i)) (i_size i) (i_ctim i) (i_uid i) (i_gid i) (i_link i) (i_mode i) (i_atim i) (i_mtim i) (i_ts i) (i_ref i) (rb_root i) (b_root i) (b_height i) (b_nodes i) (b_hint i) (entry_num i) (invalid_num i) (log_head i) (ghost_slot i) (i_list i) (i_invalid i).
Definition upd_i_size (f : Z -> Z) (i : dram_inode) : dram_inode :=
  mk_inode (i_ino i) (f (i_size i)) (i_ctim i) (i_uid i) (i_gid i) (i_link i) (i_mode i) (i_atim i) (i_mtim i) (i_ts i) (i_ref i) (rb_root i) (b_root i) (b_height i) (b_nodes i) (b_hint i) (entry_num i) (invalid_num i) (log_head i) (ghost_slot i) (i_list i) (i_invalid i).
Definition upd_i_ctim (f : Z -> Z) (i : dram_inode) : dram_inode :=
  mk_inode (i_ino i) (i_size i) (f (i_ctim i)) (i_uid i) (i_gid i) (i_link i) (i_mode i) (i_atim i) (i_mtim i) (i_ts i) (i_ref i) (rb_root i) (b_root i) (b_height i) (b_nodes i) (b_hint i) (entry_num i) (invalid_num i) (log_head i) (ghost_slot i) (i_list i) (i_invalid i).
Definition upd_i_uid (f : Z -> Z) (i : dram_inode) : dram_inode :=
  mk_inode (i_ino i) (i_size i) (i_ctim i) (f (i_uid i)) (i_gid i) (i_link i) (i_mode i) (i_atim i) (i_mtim i) (i_ts i) (i_ref i) (rb_root i) (b_root i) (b_height i) (b_nodes i) (b_hint i) (entry_num i) (invalid_num i) (log_head i) (ghost_slot i) (i_list i) (i_invalid i).
Definition upd_i_gid (f : Z -> Z) (i : dram_inode) : dram_inode :=
  mk_inode (i_ino i) (i_size i) (i_ctim i) (i_uid i) (f (i_gid i)) (i_link i) (i_mode i) (i_atim i) (i_mtim i) (i_ts i) (i_ref i) (rb_root i) (b_root i) (b_height i) (b_nodes i) (b_hint i) (entry_num i) (invalid_num i) (log_head i) (ghost_slot i) (i_list i) (i_invalid i).
Definition upd_i_link (f : Z -> Z) (i : dram_inode) : dram_inode :=
  mk_inode (i_ino i) (i_size i) (i_ctim i) (i_uid i) (i_gid i) (f (i_link i)) (i_mode i) (i_atim i) (i_mtim i) (i_ts i) (i_ref i) (rb_root i) (b_root i) (b_height i) (b_nodes i) (b_hint i) (entry_num i) (invalid_num i) (log_head i) (ghost_slot i) (i_list i) (i_invalid i).
Definition upd_i_mode (f : Z -> Z) (i : dram_inode) : dram_inode :=
  mk_inode (i_ino i) (i_size i) (i_ctim i) (i_uid i) (i_gid i) (i_link i) (f (i_mode i)) (i_atim i) (i_mtim i) (i_ts i) (i_ref i) (rb_root i) (b_root i) (b_height i) (b_nodes i) (b_hint i) (entry_num i) (invalid_num i) (log_head i) (ghost_slot i) (i_list i) (i_invalid i).
Definition upd_i_atim (f : Z -> Z) (i : dram_inode) : dram_inode :=
  mk_inode (i_ino i) (i_size i) (i_ctim i) (i_uid i) (i_gid i) (i_link i) (i_mode i) (f (i_atim i)) (i_mtim i) (i_ts i) (i_ref i) (rb_root i) (b_root i) (b_height i) (b_nodes i) (b_hint i) (entry_num i) (invalid_num i) (log_head i) (ghost_slot i) (i_list i) (i_invalid i).
Definition upd_i_mtim (f : Z -> Z) (i : dram_inode) : dram_inode :=
  mk_inode (i_ino i) (i_size i) (i_ctim i) (i_uid i) (i_gid i) (i_link i) (i_mode i) (i_atim i) (f (i_mtim i)) (i_ts i) (i_ref i) (rb_root i) (b_root i) (b_height i) (b_nodes i) (b_hint i) (entry_num i) (invalid_num i) (log_head i) (ghost_slot i) (i_list i) (i_invalid i).
Definition upd_i_ts (f : Z -> Z) (i : dram_inode) : dram_inode :=
  mk_inode (i_ino i) (i_size i) (i_ctim i) (i_uid i) (i_gid i) (i_link i) (i_mode i) (i_atim i) (i_mtim i) (f (i_ts i)) (i_ref i) (rb_root i) (b_root i) (b_height i) (b_nodes i) (b_hint i) (entry_num i) (invalid_num i) (log_head i) (ghost_slot i) (i_list i) (i_invalid i).
Definition upd_i_ref (f : Z -> Z) (i : dram_inode) : dram_inode :=
  mk_inode (i_ino i) (i_size i) (i_ctim i) (i_uid i) (i_gid i) (i_link i) (i_mode i) (i_atim i) (i_mtim i) (i_ts i) (f (i_ref i)) (rb_root i) (b_root i) (b_height i) (b_nodes i) (b_hint i) (entry_num i) (invalid_num i) (log_head i) (ghost_slot i) (i_list i) (i_invalid i).
Definition upd_rb_root (f : rb_tree -> rb_tree) (i : dram_inode) : dram_inode :=
  mk_inode (i_ino i) (i_size i) (i_ctim i) (i_uid i) (i_gid i) (i_link i) (i_mode i) (i_atim i) (i_mtim i) (i_ts i) (i_ref i) (f (rb_root i)) (b_root i) (b_height i) (b_nodes i) (b_hint i) (entry_num i) (invalid_num i) (log_head i) (ghost_slot i) (i_list i) (i_invalid i).
Definition upd_b_root (f : Z -> Z) (i : dram_inode) : dram_inode :=
  mk_inode (i_ino i) (i_size i) (i_ctim i) (i_uid i) (i_gid i) (i_link i) (i_mode i) (i_atim i) (i_mtim i) (i_ts i) (i_ref i) (rb_root i) (f (b_root i)) (b_height i) (b_nodes i) (b_hint i) (entry_num i) (invalid_num i) (log_head i) (ghost_slot i) (i_list i) (i_invalid i).
Definition upd_b_height (f : Z -> Z) (i : dram_inode) : dram_inode :=
  mk_inode (i_ino i) (i_size i) (i_ctim i) (i_uid i) (i_gid i) (i_link i) (i_mode i) (i_atim i) (i_mtim i) (i_ts i) (i_ref i) (rb_root i) (b_root i) (f (b_height i)) (b_nodes i) (b_hint i) (entry_num i) (invalid_num i) (log_head i) (ghost_slot i) (i_list i) (i_invalid i).
Definition upd_b_nodes (f : gmap Z btree_node -> gmap Z btree_node) (i : dram_inode) : dram_inode :=
  mk_inode (i_ino i) (i_size i) (i_ctim i) (i_uid i) (i_gid i) (i_link i) (i_mode i) (i_atim i) (i_mtim i) (i_ts i) (i_ref i) (rb_root i) (b_root i) (b_height i) (f (b_nodes i)) (b_hint i) (entry_num i) (invalid_num i) (log_head i) (ghost_slot i) (i_list i) (i_invalid i).
Definition upd_b_hint (f : btree_ptr -> btree_ptr) (i : dram_inode) : dram_inode :=
  mk_inode (i_ino i) (i_size i) (i_ctim i) (i_uid i) (i_gid i) (i_link i) (i_mode i) (i_atim i) (i_mtim i) (i_ts i) (i_ref i) (rb_root i) (b_root i) (b_height i) (b_nodes i) (f (b_hint i)) (entry_num i) (invalid_num i) (log_head i) (ghost_slot i) (i_list i) (i_invalid i).
Definition upd_entry_num (f : Z -> Z) (i : dram_inode) : dram_inode :=
  mk_inode (i_ino i) (i_size i) (i_ctim i) (i_uid i) (i_gid i) (i_link i) (i_mode i) (i_atim i) (i_mtim i) (i_ts i) (i_ref i) (rb_root i) (b_root i) (b_height i) (b_nodes i) (b_hint i) (f (entry_num i)) (invalid_num i) (log_head i) (ghost_slot i) (i_list i) (i_invalid i).
Definition upd_invalid_num (f : Z -> Z) (i : dram_inode) : dram_inode :=
  mk_inode (i_ino i) (i_size i) (i_ctim i) (i_uid i) (i_gid i) (i_link i) (i_mode i) (i_atim i) (i_mtim i) (i_ts i) (i_ref i) (rb_root i) (b_root i) (b_height i) (b_nodes i) (b_hint i) (entry_num i) (f (invalid_num i)) (log_head i) (ghost_slot i) (i_list i) (i_invalid i).
Definition upd_log_head (f : Z -> Z) (i : dram_inode) : dram_inode :=
  mk_inode (i_ino i) (i_size i) (i_ctim i) (i_uid i) (i_gid i) (i_link i) (i_mode i) (i_atim i) (i_mtim i) (i_ts i) (i_ref i) (rb_root i) (b_root i) (b_height i) (b_nodes i) (b_hint i) (entry_num i) (invalid_num i) (f (log_head i)) (ghost_slot i) (i_list i) (i_invalid i).
Definition upd_ghost_slot (f : Z -> Z) (i : dram_inode) : dram_inode :=
  mk_inode (i_ino i) (i_size i) (i_ctim i) (i_uid i) (i_gid i) (i_link i) (i_mode i) (i_atim i) (i_mtim i) (i_ts i) (i_ref i) (rb_root i) (b_root i) (b_height i) (b_nodes i) (b_hint i) (entry_num i) (invalid_num i) (log_head i) (f (ghost_slot i)) (i_list i) (i_invalid i).
Definition upd_i_list (f : list Z -> list Z) (i : dram_inode) : dram_inode :=
  mk_inode (i_ino i) (i_size i) (i_ctim i) (i_uid i) (i_gid i) (i_link i) (i_mode i) (i_atim i) (i_mtim i) (i_ts i) (i_ref i) (rb_root i) (b_root i) (b_height i) (b_nodes i) (b_hint i) (entry_num i) (invalid_num i) (log_head i) (ghost_slot i) (f (i_list i)) (i_invalid i).
Definition upd_i_invalid (f : list Z -> list Z) (i : dram_inode) : dram_inode :=
  mk_inode (i_ino i) (i_size i) (i_ctim i) (i_uid i) (i_gid i) (i_link i) (i_mode i) (i_atim i) (i_mtim i) (i_ts i) (i_ref i) (rb_root i) (b_root i) (b_height i) (b_nodes i) (b_hint i) (entry_num i) (invalid_num i) (log_head i) (ghost_slot i) (i_list i) (f (i_invalid i)).

(** [struct dram_super_block], as far as it changes after mount. *)
Record fs : Type := mk_fs {
  dev : pmem;   (* the device *)
  map_inode : list dram_bitmap;   (* sbi->maps[SLOT_INODE] *)
  map_dir : list dram_bitmap;   (* sbi->maps[SLOT_DIR] *)
  map_file : list dram_bitmap;   (* sbi->maps[SLOT_FILE] *)
  map_data : list dram_bitmap;   (* sbi->maps[SLOT_DATA] *)
  inodes : gmap Z dram_inode;   (* the inode_t objects *)
  dirents : gmap Z dirent;
  filents : gmap Z filent;
  inode_arena : list Z;   (* the free objects, as Arena.v proves *)
  entry_arena : list Z;
  btree_arena : list Z;
  inode_table : gmap Z Z;   (* ino -> cached inode_t, absent: NULL *)
  ilocks : gset Z;   (* the inode_table locks that are held *)
  ebuf_mgr : list ebuf;
  jnl_mgr : jnl_manager;
  release_list : list Z;
  ts : Z;
  root : Z;
}.

Definition upd_dev (f : pmem -> pmem) (s : fs) : fs :=
  mk_fs (f (dev s)) (map_inode s) (map_dir s) (map_file s) (map_data s) (inodes s) (dirents s) (filents s) (inode_arena s) (entry_arena s) (btree_arena s) (inode_table s) (ilocks s) (ebuf_mgr s) (jnl_mgr s) (release_list s) (ts s) (root s).
Definition upd_map_inode (f : list dram_bitmap -> list dram_bitmap) (s : fs) : fs :=
  mk_fs (dev s) (f (map_inode s)) (map_dir s) (map_file s) (map_data s) (inodes s) (dirents s) (filents s) (inode_arena s) (entry_arena s) (btree_arena s) (inode_table s) (ilocks s) (ebuf_mgr s) (jnl_mgr s) (release_list s) (ts s) (root s).
Definition upd_map_dir (f : list dram_bitmap -> list dram_bitmap) (s : fs) : fs :=
  mk_fs (dev s) (map_inode s) (f (map_dir s)) (map_file s) (map_data s) (inodes s) (dirents s) (filents s) (inode_arena s) (entry_arena s) (btree_arena s) (inode_table s) (ilocks s) (ebuf_mgr s) (jnl_mgr s) (release_list s) (ts s) (root s).
Definition upd_map_file (f : list dram_bitmap -> list dram_bitmap) (s : fs) : fs :=
  mk_fs (dev s) (map_inode s) (map_dir s) (f (map_file s)) (map_data s) (inodes s) (dirents s) (filents s) (inode_arena s) (entry_arena s) (btree_arena s) (inode_table s) (ilocks s) (ebuf_mgr s) (jnl_mgr s) (release_list s) (ts s) (root s).
Definition upd_map_data (f : list dram_bitmap -> list dram_bitmap) (s : fs) : fs :=
  mk_fs (dev s) (map_inode s) (map_dir s) (map_file s) (f (map_data s)) (inodes s) (dirents s) (filents s) (inode_arena s) (entry_arena s) (btree_arena s) (inode_table s) (ilocks s) (ebuf_mgr s) (jnl_mgr s) (release_list s) (ts s) (root s).
Definition upd_inodes (f : gmap Z dram_inode -> gmap Z dram_inode) (s : fs) : fs :=
  mk_fs (dev s) (map_inode s) (map_dir s) (map_file s) (map_data s) (f (inodes s)) (dirents s) (filents s) (inode_arena s) (entry_arena s) (btree_arena s) (inode_table s) (ilocks s) (ebuf_mgr s) (jnl_mgr s) (release_list s) (ts s) (root s).
Definition upd_dirents (f : gmap Z dirent -> gmap Z dirent) (s : fs) : fs :=
  mk_fs (dev s) (map_inode s) (map_dir s) (map_file s) (map_data s) (inodes s) (f (dirents s)) (filents s) (inode_arena s) (entry_arena s) (btree_arena s) (inode_table s) (ilocks s) (ebuf_mgr s) (jnl_mgr s) (release_list s) (ts s) (root s).
Definition upd_filents (f : gmap Z filent -> gmap Z filent) (s : fs) : fs :=
  mk_fs (dev s) (map_inode s) (map_dir s) (map_file s) (map_data s) (inodes s) (dirents s) (f (filents s)) (inode_arena s) (entry_arena s) (btree_arena s) (inode_table s) (ilocks s) (ebuf_mgr s) (jnl_mgr s) (release_list s) (ts s) (root s).
Definition upd_inode_arena (f : list Z -> list Z) (s : fs) : fs :=
  mk_fs (dev s) (map_inode s) (map_dir s) (map_file s) (map_data s) (inodes s) (dirents s) (filents s) (f (inode_arena s)) (entry_arena s) (btree_arena s) (inode_table s) (ilocks s) (ebuf_mgr s) (jnl_mgr s) (release_list s) (ts s) (root s).
Definition upd_entry_arena (f : list Z -> list Z) (s : fs) : fs :=
  mk_fs (dev s) (map_inode s) (map_dir s) (map_file s) (map_data s) (inodes s) (dirents s) (filents s) (inode_arena s) (f (entry_arena s)) (btree_arena s) (inode_table s) (ilocks s) (ebuf_mgr s) (jnl_mgr s) (release_list s) (ts s) (root s).
Definition upd_btree_arena (f : list Z -> list Z) (s : fs) : fs :=
  mk_fs (dev s) (map_inode s) (map_dir s) (map_file s) (map_data s) (inodes s) (dirents s) (filents s) (inode_arena s) (entry_arena s) (f (btree_arena s)) (inode_table s) (ilocks s) (ebuf_mgr s) (jnl_mgr s) (release_list s) (ts s) (root s).
Definition upd_inode_table (f : gmap Z Z -> gmap Z Z) (s : fs) : fs :=
  mk_fs (dev s) (map_inode s) (map_dir s) (map_file s) (map_data s) (inodes s) (dirents s) (filents s) (inode_arena s) (entry_arena s) (btree_arena s) (f (inode_table s)) (ilocks s) (ebuf_mgr s) (jnl_mgr s) (release_list s) (ts s) (root s).
Definition upd_ilocks (f : gset Z -> gset Z) (s : fs) : fs :=
  mk_fs (dev s) (map_inode s) (map_dir s) (map_file s) (map_data s) (inodes s) (dirents s) (filents s) (inode_arena s) (entry_arena s) (btree_arena s) (inode_table s) (f (ilocks s)) (ebuf_mgr s) (jnl_mgr s) (release_list s) (ts s) (root s).
Definition upd_ebuf_mgr (f : list ebuf -> list ebuf) (s : fs) : fs :=
  mk_fs (dev s) (map_inode s) (map_dir s) (map_file s) (map_data s) (inodes s) (dirents s) (filents s) (inode_arena s) (entry_arena s) (btree_arena s) (inode_table s) (ilocks s) (f (ebuf_mgr s)) (jnl_mgr s) (release_list s) (ts s) (root s).
Definition upd_jnl_mgr (f : jnl_manager -> jnl_manager) (s : fs) : fs :=
  mk_fs (dev s) (map_inode s) (map_dir s) (map_file s) (map_data s) (inodes s) (dirents s) (filents s) (inode_arena s) (entry_arena s) (btree_arena s) (inode_table s) (ilocks s) (ebuf_mgr s) (f (jnl_mgr s)) (release_list s) (ts s) (root s).
Definition upd_release_list (f : list Z -> list Z) (s : fs) : fs :=
  mk_fs (dev s) (map_inode s) (map_dir s) (map_file s) (map_data s) (inodes s) (dirents s) (filents s) (inode_arena s) (entry_arena s) (btree_arena s) (inode_table s) (ilocks s) (ebuf_mgr s) (jnl_mgr s) (f (release_list s)) (ts s) (root s).
Definition upd_ts (f : Z -> Z) (s : fs) : fs :=
  mk_fs (dev s) (map_inode s) (map_dir s) (map_file s) (map_data s) (inodes s) (dirents s) (filents s) (inode_arena s) (entry_arena s) (btree_arena s) (inode_table s) (ilocks s) (ebuf_mgr s) (jnl_mgr s) (release_list s) (f (ts s)) (root s).
Definition upd_root (f : Z -> Z) (s : fs) : fs :=
  mk_fs (dev s) (map_inode s) (map_dir s) (map_file s) (map_data s) (inodes s) (dirents s) (filents s) (inode_arena s) (entry_arena s) (btree_arena s) (inode_table s) (ilocks s) (ebuf_mgr s) (jnl_mgr s) (release_list s) (ts s) (f (root s)).


(** A zeroed object ([memset(inode, 0, sizeof)]). *)
Definition zero_inode : dram_inode :=
  mk_inode 0 0 0 0 0 0 0 0 0 0 0 (mk_tree 0 ∅) 0 0 ∅ (mk_ptr 0 0 0) 0 0 0 0 [] [].

Definition is_dir (i : dram_inode) : bool := Z.land (i_mode i) S_IFMT =? S_IFDIR.
Definition is_reg (i : dram_inode) : bool := Z.land (i_mode i) S_IFMT =? S_IFREG.
Definition is_symlink (i : dram_inode) : bool := Z.land (i_mode i) S_IFMT =? S_IFLNK.

(** ** Access *)

Definition deref {A} (h : gmap Z A) (p : Z) : outcome A :=
  match h !! p with
  | Some x => Ok x
  | None => Fault (if p =? 0 then NullDeref else BadPointer)
  end.

Definition rd_inode (p : Z) : M fs dram_inode := fun s => lift (deref (inodes s) p) s.
Definition rd_dirent (p : Z) : M fs dirent := fun s => lift (deref (dirents s) p) s.
Definition rd_filent (p : Z) : M fs filent := fun s => lift (deref (filents s) p) s.

(** [f] changes fields of the object at [p]. *)
Definition upd_inode (p : Z) (f : dram_inode -> dram_inode) : M fs unit :=
  i ← rd_inode p; modify (upd_inodes <[p := f i]>).
Definition wr_dirent (p : Z) (d : dirent) : M fs unit := modify (upd_dirents <[p := d]>).
Definition wr_filent (p : Z) (f : filent) : M fs unit := modify (upd_filents <[p := f]>).

(** *** Arenas *)

Definition inode_alloc : M fs Z := fun s =>
  match inode_arena s with
  | [] => Ok (0, s)
  | p :: l => Ok (p, upd_inode_arena (fun _ => l)
                       (upd_inodes <[p := default zero_inode (inodes s !! p)]> s))
  end.
Definition inode_free (p : Z) : M fs unit := modify (upd_inode_arena (cons p)).

(** [dirent_alloc] and [filent_alloc] share the arena of entries. *)
Definition entry_alloc : M fs Z := fun s =>
  match entry_arena s with
  | [] => Ok (0, s)
  | p :: l => Ok (p, upd_entry_arena (fun _ => l) s)
  end.
Definition dirent_alloc : M fs Z := entry_alloc.
Definition dirent_free (p : Z) : M fs unit := modify (upd_entry_arena (cons p)).
Definition filent_alloc : M fs Z := entry_alloc.
Definition filent_free (p : Z) : M fs unit := modify (upd_entry_arena (cons p)).

(** *** The device *)

Definition pm_load (a : Z) (n : nat) : M fs Z := gets (fun s => load (bytes (dev s)) a n).
Definition pm_write (f : mem -> mem) : M fs unit := modify (upd_dev (pm_update f)).
Definition pm_store (a : Z) (n : nat) (v : Z) : M fs unit := pm_write (store a n v).

(** *** Locks and time *)

Definition inode_lock (ino : Z) : M fs unit := fun s =>
  if decide (ino ∈ ilocks s) then Fault Deadlock else Ok (tt, upd_ilocks (fun l => {[ino]} ∪ l) s).
Definition inode_unlock (ino : Z) : M fs unit := modify (upd_ilocks (fun l => l ∖ {[ino]})).

Definition slotfs_timestamp : M fs Z :=
  _ ← modify (upd_ts (fun t => u64 (t + 1)));
  gets ts.

(** *** The trees of an inode *)

Definition tree_of (i : dram_inode) (free : list Z) : btree := mk_btree (b_root i) (b_height i) (b_nodes i) free.
Definition with_tree (t : btree) (i : dram_inode) : dram_inode :=
  upd_b_root (fun _ => bt_root t) (upd_b_height (fun _ => bt_height t) (upd_b_nodes (fun _ => nodes t) i)).

(** Runs an operation of the radix tree on the inode at [p]. *)
Definition on_btree {A} (p : Z) (m : M btree A) : M fs A :=
  i ← rd_inode p;
  zoom (fun s => tree_of i (btree_arena s))
    (fun t s => upd_btree_arena (fun _ => pool t) (upd_inodes <[p := with_tree t i]> s)) m.

(** Runs an operation of the red-black tree on the inode at [p]. *)
Definition on_rbtree {A} (p : Z) (m : M rb_tree A) : M fs A :=
  i ← rd_inode p;
  zoom (fun _ => rb_root i) (fun t s => upd_inodes <[p := upd_rb_root (fun _ => t) i]> s) m.

(** ** Slots (the wrappers of slot.c) *)

Section slots.
Context (cpu : Z).

Definition slot_inode_alloc : M fs Z :=
  s ← get; '(r, b) ← lift (do_slot_alloc MAP_NUM cpu (map_inode s)); _ ← modify (upd_map_inode (fun _ => b)); mret r.
Definition slot_inode_free (index : Z) : M fs unit :=
  s ← get; b ← lift (do_slot_free MAP_NUM (map_inode s) index); modify (upd_map_inode (fun _ => b)).
Definition slot_dirent_alloc : M fs Z :=
  s ← get; '(r, b) ← lift (do_slot_alloc MAP_NUM cpu (map_dir s)); _ ← modify (upd_map_dir (fun _ => b)); mret r.
Definition slot_dirent_free (index : Z) : M fs unit :=
  s ← get; b ← lift (do_slot_free MAP_NUM (map_dir s) index); modify (upd_map_dir (fun _ => b)).
Definition slot_firent_alloc : M fs Z :=
  s ← get; '(r, b) ← lift (do_slot_alloc MAP_NUM cpu (map_file s)); _ ← modify (upd_map_file (fun _ => b)); mret r.
Definition slot_firent_free (index : Z) : M fs unit :=
  s ← get; b ← lift (do_slot_free MAP_NUM (map_file s) index); modify (upd_map_file (fun _ => b)).
(** The index and the new value of [*count]. *)
Definition slot_data_alloc (n : Z) : M fs (Z * Z) :=
  s ← get; '(r, found, b) ← lift (do_slot_alloc_range MAP_NUM cpu (map_data s) n);
  _ ← modify (upd_map_data (fun _ => b)); mret (r, found).
Definition slot_data_free (index n : Z) : M fs unit :=
  s ← get; b ← lift (do_slot_free_range (map_data s) index n); modify (upd_map_data (fun _ => b)).
End slots.

(** ** Running the primitives *)

Lemma rd_inode_eq s p i : inodes s !! p = Some i -> rd_inode p s = Ok (i, s).
Proof. intros H. unfold rd_inode, deref. by rewrite H. Qed.
Lemma rd_dirent_eq s p d : dirents s !! p = Some d -> rd_dirent p s = Ok (d, s).
Proof. intros H. unfold rd_dirent, deref. by rewrite H. Qed.
Lemma rd_filent_eq s p f : filents s !! p = Some f -> rd_filent p s = Ok (f, s).
Proof. intros H. unfold rd_filent, deref. by rewrite H. Qed.
Lemma upd_inode_eq s p i f : inodes s !! p = Some i -> upd_inode p f s = Ok (tt, upd_inodes <[p := f i]> s).
Proof. intros H. unfold upd_inode. by mstep (rd_inode_eq _ _ _ H). Qed.

Lemma upd_inode_alter s p f : is_Some (inodes s !! p) -> upd_inode p f s = Ok (tt, upd_inodes (alter f p) s).
Proof.
  intros [i Hi]. rewrite (upd_inode_eq _ _ _ _ Hi). unfold upd_inodes. do 3 f_equal.
  apply map_eq. intros k. destruct (decide (k = p)) as [->|].
  - by rewrite lookup_insert_eq, lookup_alter_eq, Hi.
  - by rewrite lookup_insert_ne, lookup_alter_ne.
Qed.

Lemma on_rbtree_eq {A} s p i (m : M rb_tree A) a t :
  inodes s !! p = Some i -> m (rb_root i) = Ok (a, t) ->
  on_rbtree p m s = Ok (a, upd_inodes <[p := upd_rb_root (fun _ => t) i]> s).
Proof.
  intros H Hm. unfold on_rbtree. mstep (rd_inode_eq _ _ _ H).
  unfold zoom. by rewrite Hm.
Qed.

Lemma on_btree_eq {A} s p i (m : M btree A) a t :
  inodes s !! p = Some i -> m (tree_of i (btree_arena s)) = Ok (a, t) ->
  on_btree p m s = Ok (a, upd_btree_arena (fun _ => pool t) (upd_inodes <[p := with_tree t i]> s)).
Proof.
  intros H Hm. unfold on_btree. mstep (rd_inode_eq _ _ _ H).
  unfold zoom. by rewrite Hm.
Qed.

(** An operation that only reads a tree leaves the state as it is. *)
Lemma upd_inodes_id s p i : inodes s !! p = Some i -> upd_inodes <[p := i]> s = s.
Proof. intros H. destruct s. unfold upd_inodes. simpl in *. f_equal. by apply insert_id. Qed.
Lemma on_rbtree_read {A} s p i (m : M rb_tree A) a :
  inodes s !! p = Some i -> m (rb_root i) = Ok (a, rb_root i) -> on_rbtree p m s = Ok (a, s).
Proof.
  intros H Hm. erewrite on_rbtree_eq by done.
  replace (upd_rb_root _ i) with i by (by destruct i). by rewrite upd_inodes_id.
Qed.
Lemma on_btree_read {A} s p i (m : M btree A) a :
  inodes s !! p = Some i -> m (tree_of i (btree_arena s)) = Ok (a, tree_of i (btree_arena s)) ->
  on_btree p m s = Ok (a, s).
Proof.
  intros H Hm. erewrite on_btree_eq by done.
  replace (with_tree _ i) with i by (by destruct i). rewrite upd_inodes_id by done. by destruct s.
Qed.

(** A state is the tuple of its fields. *)
Lemma fs_ext (s s' : fs) :
  dev s = dev s' ->  map_inode s = map_inode s' ->  map_dir s = map_dir s' ->
  map_file s = map_file s' ->  map_data s = map_data s' ->  inodes s = inodes s' ->
  dirents s = dirents s' ->  filents s = filents s' ->  inode_arena s = inode_arena s' ->
  entry_arena s = entry_arena s' ->  btree_arena s = btree_arena s' ->  inode_table s = inode_table s' ->
  ilocks s = ilocks s' ->  ebuf_mgr s = ebuf_mgr s' ->  jnl_mgr s = jnl_mgr s' ->
  release_list s = release_list s' ->  ts s = ts s' ->  root s = root s' ->
  s = s'.
Proof. destruct s, s'. simpl. intros; by subst. Qed.

(** Reduces the fields of updated states and inodes. *)
Ltac fsimpl := cbn [
  dev map_inode map_dir map_file map_data inodes dirents filents inode_arena entry_arena btree_arena
  inode_table ilocks ebuf_mgr jnl_mgr release_list ts root upd_dev upd_map_inode upd_map_dir
  upd_map_file upd_map_data upd_inodes upd_dirents upd_filents upd_inode_arena upd_entry_arena
  upd_btree_arena upd_inode_table upd_ilocks upd_ebuf_mgr upd_jnl_mgr upd_release_list upd_ts
  upd_root i_ino i_size i_ctim i_uid i_gid i_link i_mode i_atim i_mtim i_ts i_ref rb_root b_root
  b_height b_nodes b_hint entry_num invalid_num log_head ghost_slot i_list i_invalid upd_i_ino
  upd_i_size upd_i_ctim upd_i_uid upd_i_gid upd_i_link upd_i_mode upd_i_atim upd_i_mtim upd_i_ts
  upd_i_ref upd_rb_root upd_b_root upd_b_height upd_b_nodes upd_b_hint upd_entry_num upd_invalid_num
  upd_log_head upd_ghost_slot upd_i_list upd_i_invalid].

(** Solves a lookup in an updated heap. *)
Ltac fs_lk :=
  fsimpl; repeat first [rewrite lookup_insert_eq | rewrite lookup_insert_ne by done]; first [reflexivity | eassumption].

(** Runs the next primitive of a computation. *)
Ltac fs_step :=
  first
    [ erewrite M_bind_step by (apply rd_inode_eq; fs_lk)
    | erewrite M_bind_step by (apply rd_dirent_eq; fs_lk)
    | erewrite M_bind_step by (apply rd_filent_eq; fs_lk)
    | erewrite M_bind_step by (apply upd_inode_eq; fs_lk)
    | erewrite M_bind_step by (unfold wr_dirent, wr_filent, modify, pm_store, pm_write, pm_load, gets, get,
        dirent_free, filent_free, inode_free, inode_unlock; reflexivity) ];
  cbv beta.

(** The state with the inode [i] at [p]. *)
Definition at_inode (s : fs) (p : Z) (i : dram_inode) : fs := upd_inodes <[p := i]> s.
Lemma at_upd s p i f : upd_inode p f (at_inode s p i) = Ok (tt, at_inode s p (f i)).
Proof.
  unfold at_inode. rewrite (upd_inode_eq _ p i) by (fsimpl; apply lookup_insert_eq).
  do 2 f_equal. unfold upd_inodes. cbn. by rewrite insert_insert_eq.
Qed.
Lemma at_rd s p i : rd_inode p (at_inode s p i) = Ok (i, at_inode s p i).
Proof. apply rd_inode_eq. unfold at_inode. fsimpl. apply lookup_insert_eq. Qed.
Lemma at_btree {A} s p i (m : M btree A) a t : m (tree_of i (btree_arena s)) = Ok (a, t) ->
  on_btree p m (at_inode s p i) = Ok (a, at_inode (upd_btree_arena (fun _ => pool t) s) p (with_tree t i)).
Proof.
  intros Hm. unfold at_inode. rewrite (on_btree_eq _ p i m a t); [|fsimpl; apply lookup_insert_eq|exact Hm].
  do 2 f_equal. unfold upd_inodes, upd_btree_arena. cbn. by rewrite insert_insert_eq.
Qed.

(** ** Slot allocation through the interface *)

Lemma slot_dirent_alloc_spec cpu s :
  sa_inv (map_dir s) -> 0 <= cpu ->
  exists r b, slot_dirent_alloc cpu s = Ok (r, upd_map_dir (fun _ => b) s) /\ sa_inv b /\
    (forall i, sa_valid b i <-> sa_valid (map_dir s) i) /\
    ((r = -1 /\ b = map_dir s /\ forall i, sa_valid (map_dir s) i -> sa_used (map_dir s) i = true) \/
     (sa_valid (map_dir s) r /\ sa_used (map_dir s) r = false /\
      forall i, sa_valid (map_dir s) i -> sa_used b i = sa_used (map_dir s) i || (i =? r))).
Proof.
  intros Hs Hc. destruct (sa_alloc_ok cpu (map_dir s) Hs Hc) as (r & b & Hr & H).
  exists r, b. split; [|done]. unfold slot_dirent_alloc. mstep eq_refl.
  erewrite M_bind_step by (unfold lift; simpl in Hr; rewrite Hr; reflexivity). done.
Qed.

Lemma slot_dirent_free_spec s k :
  sa_inv (map_dir s) -> sa_valid (map_dir s) k -> sa_used (map_dir s) k = true ->
  exists b, slot_dirent_free k s = Ok (tt, upd_map_dir (fun _ => b) s) /\ sa_inv b /\
    (forall j, sa_valid b j <-> sa_valid (map_dir s) j) /\
    (forall j, sa_valid (map_dir s) j -> sa_used b j = sa_used (map_dir s) j && negb (j =? k)).
Proof.
  intros Hs Hv Hu. destruct (sa_free_ok (map_dir s) k Hs Hv Hu) as (b & Hr & H).
  exists b. split; [|done]. unfold slot_dirent_free. mstep eq_refl.
  erewrite M_bind_step by (unfold lift; simpl in Hr; rewrite Hr; reflexivity). done.
Qed.

Lemma slot_firent_alloc_spec cpu s :
  sa_inv (map_file s) -> 0 <= cpu ->
  exists r b, slot_firent_alloc cpu s = Ok (r, upd_map_file (fun _ => b) s) /\ sa_inv b /\
    (forall i, sa_valid b i <-> sa_valid (map_file s) i) /\
    ((r = -1 /\ b = map_file s /\ forall i, sa_valid (map_file s) i -> sa_used (map_file s) i = true) \/
     (sa_valid (map_file s) r /\ sa_used (map_file s) r = false /\
      forall i, sa_valid (map_file s) i -> sa_used b i = sa_used (map_file s) i || (i =? r))).
Proof.
  intros Hs Hc. destruct (sa_alloc_ok cpu (map_file s) Hs Hc) as (r & b & Hr & H).
  exists r, b. split; [|done]. unfold slot_firent_alloc. mstep eq_refl.
  erewrite M_bind_step by (unfold lift; simpl in Hr; rewrite Hr; reflexivity). done.
Qed.

Lemma slot_inode_alloc_spec cpu s :
  sa_inv (map_inode s) -> 0 <= cpu ->
  exists r b, slot_inode_alloc cpu s = Ok (r, upd_map_inode (fun _ => b) s) /\ sa_inv b /\
    (forall i, sa_valid b i <-> sa_valid (map_inode s) i) /\
    ((r = -1 /\ b = map_inode s /\ forall i, sa_valid (map_inode s) i -> sa_used (map_inode s) i = true) \/
     (sa_valid (map_inode s) r /\ sa_used (map_inode s) r = false /\
      forall i, sa_valid (map_inode s) i -> sa_used b i = sa_used (map_inode s) i || (i =? r))).
Proof.
  intros Hs Hc. destruct (sa_alloc_ok cpu (map_inode s) Hs Hc) as (r & b & Hr & H).
  exists r, b. split; [|done]. unfold slot_inode_alloc. mstep eq_refl.
  erewrite M_bind_step by (unfold lift; simpl in Hr; rewrite Hr; reflexivity). done.
Qed.

(** Freeing one data slot. *)
Lemma slot_data_free_one s k :
  sa_inv (map_data s) -> sa_valid (map_data s) k -> sa_used (map_data s) k = true ->
  exists b, slot_data_free k 1 s = Ok (tt, upd_map_data (fun _ => b) s) /\ sa_inv b /\
    (forall j, sa_valid b j <-> sa_valid (map_data s) j) /\
    (forall j, sa_valid (map_data s) j -> sa_used b j = sa_used (map_data s) j && negb (j =? k)).
Proof.
  intros Hs Hv Hu. destruct (do_slot_free_range_one MAP_NUM (map_data s) k Hs Hv Hu) as (b & Hr & H).
  exists b. split; [|done]. unfold slot_data_free. mstep eq_refl.
  erewrite M_bind_step by (unfold lift; rewrite Hr; reflexivity). done.
Qed.
