(* ===== verification/Journal.v ===== *)
(** * The journal (src/slotfs/journal.c, journal.h)

    [JOURNAL_NUM] pages of the device hold one journal each; [jnl_mgr] says
    which are in use.  A write journal is an undo record: the old bytes and
    where they belong.  This file has the records, their allocation and their
    commit, and the replay of a write journal. *)
From stdpp Require Import base numbers list gmap.
From S2P Require Import Prelude Bitops Slot Btree Rbtree Pm Mkfs Fs.
Local Open Scope Z_scope.

Definition JNL_WRITE : Z := 1.
Definition JNL_RENAME : Z := 2.
Definition JNL_TRUNCATE : Z := 3.

(** Field offsets of [write_jnl_t], [rename_jnl_t] and [truncate_jnl_t].
    The type of a truncate journal is a [bool]. *)
Definition J_valid : Z := 0.
Definition J_type : Z := 4.
Definition WJ_ino : Z := 8.
Definition WJ_begin : Z := 16.
Definition WJ_len : Z := 24.
Definition SIZEOF_WJNL : Z := 40.
Definition RJ_old_parent : Z := 8.
Definition RJ_new_parent : Z := 16.
Definition RJ_old_name : Z := 24.
Definition RJ_old_len : Z := 88.
Definition RJ_new_name : Z := 92.
Definition RJ_new_len : Z := 156.
Definition TJ_type : Z := 1.
Definition TJ_ino : Z := 8.
Definition TJ_size : Z := 16.

(** [wjnl + sizeof(write_jnl_t)] for a [write_jnl_t *]: pointer arithmetic
    counts in elements. *)
Definition payload (jnl : Z) : Z := jnl + SIZEOF_WJNL * SIZEOF_WJNL.

(** ** The records *)

Definition journal_write (jnl ino begin len : Z) : M fs unit :=
  m ← gets (fun s => bytes (dev s));
  _ ← pm_write (memcpy (payload jnl) m begin len);
  _ ← pm_store (jnl + J_valid) 1 1;
  _ ← pm_store (jnl + J_type) 4 JNL_WRITE;
  _ ← pm_store (jnl + WJ_ino) 8 ino;
  _ ← pm_store (jnl + WJ_begin) 8 begin;
  pm_store (jnl + WJ_len) 8 len.

(** [old] and [new] are the memory the names are in, with their addresses. *)
Definition journal_rename (jnl old_parent new_parent : Z) (old : mem) (old_name old_len : Z)
    (new : mem) (new_name new_len : Z) : M fs unit :=
  _ ← pm_store (jnl + J_valid) 1 1;
  _ ← pm_store (jnl + J_type) 4 JNL_RENAME;
  _ ← pm_store (jnl + RJ_old_parent) 8 old_parent;
  _ ← pm_store (jnl + RJ_new_parent) 8 new_parent;
  _ ← pm_write (memcpy (jnl + RJ_old_name) old old_name old_len);
  _ ← pm_store (jnl + RJ_old_len) 4 old_len;
  _ ← pm_write (memcpy (jnl + RJ_new_name) new new_name new_len);
  pm_store (jnl + RJ_new_len) 4 new_len.

(** The conversion to [bool] makes [JNL_TRUNCATE] a 1. *)
Definition journal_truncate (jnl ino size : Z) : M fs unit :=
  _ ← pm_store (jnl + J_valid) 1 1;
  _ ← pm_store (jnl + TJ_type) 1 (if JNL_TRUNCATE =? 0 then 0 else 1);
  _ ← pm_store (jnl + TJ_ino) 8 ino;
  pm_store (jnl + TJ_size) 8 size.

(** ** Allocation *)

(** The loop of [journal_alloc] over the slots from [i]. *)
Fixpoint find_unused (l : list bool) (i : Z) : option Z :=
  match l with
  | [] => None
  | b :: l' => if b then find_unused l' (i + 1) else Some i
  end.

Definition journal_alloc : M fs Z :=
  s ← get;
  let mgr := jnl_mgr s in
  if count mgr =? 0 then
    u ← lift (zset (use mgr) 0 true);
    _ ← modify (upd_jnl_mgr (fun _ => mk_jnl_mgr u (count mgr)));
    mret JOURNAL_START
  else
    match find_unused (use mgr) 0 with
    | Some i =>
        u ← lift (zset (use mgr) i true);
        _ ← modify (upd_jnl_mgr (fun _ => mk_jnl_mgr u (i32 (count mgr + 1))));
        mret (JOURNAL_START + i * PAGE_SIZE)
    | None => mret 0
    end.

Definition journal_free (jnl : Z) : M fs unit :=
  s ← get;
  let mgr := jnl_mgr s in
  let idx := u64 (jnl - JOURNAL_START) / PAGE_SIZE in
  u ← lift (zset (use mgr) idx false);
  modify (upd_jnl_mgr (fun _ => mk_jnl_mgr u (i32 (count mgr - 1)))).

Definition journal_commit (jnl : Z) : M fs unit :=
  _ ← pm_store (jnl + J_valid) 1 0;
  journal_free jnl.

Definition journal_mgr_init : jnl_manager := mk_jnl_mgr (replicate (Z.to_nat JOURNAL_NUM) false) 0.

(** ** Replaying a write *)

(** The device address of a pointer, which faults outside the mapping of [size] bytes. *)
Definition abs2rel (size p : Z) : outcome Z :=
  if (DAX_START <=? p) && (p <? DAX_START + size) then Ok (p - DAX_START) else Fault BadPointer.
Definition REL2ABS (r : Z) : Z := u64 (r + DAX_START).

(** [jnl] is a pointer. *)
Definition journal_replay_write (size jnl : Z) : M fs Z :=
  j ← lift (abs2rel size jnl);
  begin ← pm_load (j + WJ_begin) 8;
  len ← pm_load (j + WJ_len) 8;
  m ← gets (fun s => bytes (dev s));
  _ ← pm_write (memcpy begin m (payload j) len);
  mret 0.

(** ** The undo record *)

(** The device after [journal_write]. *)
Definition written (jnl ino begin len : Z) (m : mem) : mem :=
  store (jnl + WJ_len) 8 len (store (jnl + WJ_begin) 8 begin (store (jnl + WJ_ino) 8 ino
    (store (jnl + J_type) 4 JNL_WRITE (store (jnl + J_valid) 1 1 (memcpy (payload jnl) m begin len m))))).

Lemma journal_write_eq jnl ino begin len s :
  exists p, journal_write jnl ino begin len s = Ok (tt, upd_dev (fun _ => p) s) /\
    bytes p = written jnl ino begin len (bytes (dev s)).
Proof. eexists. split; [reflexivity|]. done. Qed.

(** The record and the room behind it: [payload] leaves 2496 bytes of the page. *)
Definition jnl_room : Z := PAGE_SIZE - SIZEOF_WJNL * SIZEOF_WJNL.

Lemma written_fields jnl ino begin len m :
  0 <= len <= jnl_room -> 0 <= begin < 2 ^ 64 ->
  load (written jnl ino begin len m) (jnl + WJ_begin) 8 = begin /\
  load (written jnl ino begin len m) (jnl + WJ_len) 8 = len /\
  written jnl ino begin len m (jnl + J_valid) = 1 /\
  load (written jnl ino begin len m) (jnl + J_type) 4 = JNL_WRITE /\
  (forall k, 0 <= k < len -> written jnl ino begin len m (payload jnl + k) = m (begin + k)).
Proof.
  intros Hl Hb. unfold jnl_room, PAGE_SIZE, SIZEOF_WJNL in Hl.
  unfold written, payload, WJ_len, WJ_begin, WJ_ino, J_type, J_valid, SIZEOF_WJNL, JNL_WRITE.
  split_and!.
  - rewrite (load_agree (jnl + 16) 8 (store (jnl + 16) 8 begin _)) by (apply store_agree; simpl; lia).
    by apply load_store_u64.
  - apply load_store_u64. lia.
  - rewrite !(store_agree _ _ _ _ (jnl + 0) 1) by (simpl; lia). unfold store at 1.
    destruct (Z.leb_spec (jnl + 0) (jnl + 0)), (Z.ltb_spec (jnl + 0) (jnl + 0 + Z.of_nat 1)); simpl; try lia.
    by rewrite Z.sub_diag.
  - rewrite (load_agree (jnl + 4) 4 (store (jnl + 4) 4 1 (store (jnl + 0) 1 1 (memcpy (jnl + 40 * 40) m begin len m)))).
    + by apply load_store_u32.
    + repeat (eapply agree_trans; [|apply store_agree; simpl; lia]). apply agree_refl.
  - intros k Hk. rewrite !(store_agree _ _ _ _ (jnl + 40 * 40 + k) 1) by (simpl; lia).
    unfold memcpy. destruct (Z.leb_spec (jnl + 40 * 40) (jnl + 40 * 40 + k)),
      (Z.ltb_spec (jnl + 40 * 40 + k) (jnl + 40 * 40 + len)); simpl; try lia. f_equal. lia.
Qed.

Lemma written_outside jnl ino begin len m x :
  0 <= len <= jnl_room -> ~ (jnl <= x < jnl + PAGE_SIZE) -> written jnl ino begin len m x = m x.
Proof.
  unfold jnl_room, PAGE_SIZE, SIZEOF_WJNL. intros Hl Hx.
  unfold written, payload, WJ_len, WJ_begin, WJ_ino, J_type, J_valid, SIZEOF_WJNL.
  rewrite !(store_agree _ _ _ _ x 1) by (simpl; lia). apply (memcpy_agree _ _ _ _ _ x 1); lia.
Qed.

Lemma abs2rel_REL2ABS size r :
  0 <= r < size -> DAX_START + size < 2 ^ 64 -> abs2rel size (REL2ABS r) = Ok r.
Proof.
  intros Hr Hs. unfold abs2rel, REL2ABS. assert (0 < DAX_START) by done. rewrite u64_small by lia.
  destruct (Z.leb_spec DAX_START (r + DAX_START)), (Z.ltb_spec (r + DAX_START) (DAX_START + size)); simpl; try lia.
  f_equal. lia.
Qed.

Lemma journal_replay_write_eq size r s :
  0 <= r < size -> DAX_START + size < 2 ^ 64 ->
  exists p, journal_replay_write size (REL2ABS r) s = Ok (0, upd_dev (fun _ => p) s) /\
    bytes p = memcpy (load (bytes (dev s)) (r + WJ_begin) 8) (bytes (dev s)) (payload r)
                (load (bytes (dev s)) (r + WJ_len) 8) (bytes (dev s)).
Proof.
  intros Hr Hs. unfold journal_replay_write.
  erewrite M_bind_step by (unfold lift; by rewrite abs2rel_REL2ABS).
  eexists. split; reflexivity.
Qed.

(** ** The manager *)

(** The state of the manager between the operations of a single thread. *)
Definition serial (mgr : jnl_manager) : Prop :=
  use mgr = replicate (Z.to_nat JOURNAL_NUM) false /\ (count mgr = 0 \/ count mgr = -1).

Lemma serial_alloc s :
  serial (jnl_mgr s) ->
  exists c, journal_alloc s = Ok (JOURNAL_START, upd_jnl_mgr (fun _ => mk_jnl_mgr
      (true :: replicate (pred (Z.to_nat JOURNAL_NUM)) false) c) s) /\ c = 0.
Proof.
  intros [Hu Hc]. unfold journal_alloc. mstep eq_refl. rewrite Hu. exists 0.
  destruct Hc as [-> | ->]; (split; [|done]); reflexivity.
Qed.

Lemma serial_commit s :
  jnl_mgr s = mk_jnl_mgr (true :: replicate (pred (Z.to_nat JOURNAL_NUM)) false) 0 ->
  exists s', journal_commit JOURNAL_START s = Ok (tt, s') /\ serial (jnl_mgr s') /\
    s' = upd_jnl_mgr (fun _ => jnl_mgr s') (upd_dev (pm_update (store JOURNAL_START 1 0)) s).
Proof.
  intros Hm. unfold journal_commit, journal_free. eexists. split; [|split].
  - mstep eq_refl. mstep eq_refl. cbn [jnl_mgr upd_dev]. rewrite Hm. reflexivity.
  - split; [done|by right].
  - destruct s. cbn in *. by rewrite Z.add_0_r.
Qed.

(** ** Properties *)

(** C28: A write journal undoes the write it protects.  Once [journal_write]
    has returned, the in-place write may have changed any of the [len] bytes
    from [begin]; replaying the journal restores the device outside the
    journal page to what it was before [journal_write]. *)
Theorem journal_write_undo size jnl ino begin len s s1 s2 :
  0 <= jnl < size -> DAX_START + size < 2 ^ 64 -> 0 <= len <= jnl_room -> 0 <= begin < 2 ^ 64 ->
  (begin + len <= jnl \/ jnl + PAGE_SIZE <= begin) ->
  journal_write jnl ino begin len s = Ok (tt, s1) ->
  (forall x, ~ (begin <= x < begin + len) -> bytes (dev s2) x = bytes (dev s1) x) ->
  exists s3, journal_replay_write size (REL2ABS jnl) s2 = Ok (0, s3) /\
    forall x, ~ (jnl <= x < jnl + PAGE_SIZE) -> bytes (dev s3) x = bytes (dev s) x.
Proof.
  intros Hj Hsz Hl Hb Hd Hw Ho. destruct (journal_write_eq jnl ino begin len s) as (p1 & Hw' & Hp1).
  rewrite Hw in Hw'. simplify_eq. cbn [dev upd_dev] in Ho. rewrite Hp1 in Ho.
  destruct (journal_replay_write_eq size jnl s2 Hj Hsz) as (p & Hr & Hp). eexists. split; [done|].
  intros x Hx. cbn [dev upd_dev]. rewrite Hp.
  destruct (written_fields jnl ino begin len (bytes (dev s)) Hl Hb) as (Eb & El & _ & _ & Ep).
  unfold jnl_room, PAGE_SIZE, SIZEOF_WJNL in *.
  assert (agree (jnl + WJ_begin) 8 (written jnl ino begin len (bytes (dev s))) (bytes (dev s2))) as A1
    by (intros y Hy; apply Ho; unfold WJ_begin in *; lia).
  assert (agree (jnl + WJ_len) 8 (written jnl ino begin len (bytes (dev s))) (bytes (dev s2))) as A2
    by (intros y Hy; apply Ho; unfold WJ_len in *; lia).
  rewrite (load_agree _ 8 _ _ A1), (load_agree _ 8 _ _ A2), Eb, El. unfold memcpy.
  destruct (Z.leb_spec begin x), (Z.ltb_spec x (begin + len)); simpl.
  2-4: by rewrite Ho, written_outside by (unfold jnl_room, PAGE_SIZE, SIZEOF_WJNL; lia).
  rewrite Ho by (unfold payload, SIZEOF_WJNL; lia). rewrite Ep by lia. f_equal. lia.
Qed.

(** C29: One operation at a time always gets the first journal: [journal_alloc]
    returns [JOURNAL_START], and whatever the operation does to the rest of the
    state, [journal_commit] clears the valid byte and nothing else of the
    device, and leaves the manager ready for the next operation. *)
Theorem journal_serial s s1 s2 jnl :
  serial (jnl_mgr s) -> journal_alloc s = Ok (jnl, s1) -> jnl_mgr s2 = jnl_mgr s1 ->
  exists s3, jnl = JOURNAL_START /\ dev s1 = dev s /\
    journal_commit jnl s2 = Ok (tt, s3) /\ serial (jnl_mgr s3) /\ bytes (dev s3) JOURNAL_START = 0 /\
    (forall x, x <> JOURNAL_START -> bytes (dev s3) x = bytes (dev s2) x).
Proof.
  intros Hs Ha Hm. destruct (serial_alloc s Hs) as (c & Ha' & ->). rewrite Ha in Ha'. simplify_eq.
  destruct (serial_commit s2 Hm) as (s3 & Hc & Hs3 & E). exists s3. split_and!; try done.
  - by rewrite E.
  - intros x Hx. rewrite E. cbn. apply (store_agree _ _ _ _ x 1); simpl; lia.
Qed.

(** ** Where the protocol does not hold *)

Definition example_jfs (m : mem) : fs :=
  mk_fs (mk_pmem m []) [] [] [] [] ∅ ∅ ∅ [] [] [] ∅ ∅ [] journal_mgr_init [] 0 0.

(** Two operations that are under way at the same time get the same
    journal: the first branch of [journal_alloc] does not count it. *)
Theorem journal_double_alloc :
  eval (j1 ← journal_alloc; j2 ← journal_alloc; mret (j1, j2)) (example_jfs (fun _ => 0))
  = Ok (JOURNAL_START, JOURNAL_START).
Proof. vm_compute. reflexivity. Qed.

(** [journal_write] sets the valid byte before the location of the bytes
    it has saved.  A crash in between leaves a valid journal that names the
    location of an earlier write: replaying it overwrites the committed bytes
    there (9) with the bytes saved for another place (7). *)
Theorem journal_write_torn :
  eval (j ← journal_alloc;
        _ ← journal_write j 5 2000000 1;
        _ ← pm_store 2000000 1 9;
        _ ← journal_commit j;
        _ ← pm_store 3000000 1 7;
        j ← journal_alloc;
        before ← pm_load 2000000 1;
        _ ← journal_write j 6 3000000 1;
        cs ← gets (fun s => crashes (dev s));
        crash ← lift (zget cs 3);
        _ ← modify (upd_dev (fun _ => mk_pmem crash []));
        v ← pm_load (j + J_valid) 1;
        t ← pm_load (j + J_type) 4;
        _ ← journal_replay_write DAX_SIZE (REL2ABS j);
        after ← pm_load 2000000 1;
        mret (before, v, t, after)) (example_jfs (fun _ => 0))
  = Ok (9, 1, JNL_WRITE, 7).
Proof. vm_compute. reflexivity. Qed.

(** ** Witnesses *)

Lemma journal_write_undo_witness :
  exists s3, journal_replay_write DAX_SIZE (REL2ABS JOURNAL_START)
      (match journal_write JOURNAL_START 5 2000000 100 (example_jfs (fun x => x mod 251)) with
       | Ok (_, s1) => upd_dev (pm_update (memset 2000000 0 50)) s1 | Fault _ => example_jfs (fun _ => 0) end)
      = Ok (0, s3) /\ bytes (dev s3) 2000003 = 2000003 mod 251.
Proof.
  edestruct (journal_write_undo DAX_SIZE JOURNAL_START 5 2000000 100 (example_jfs (fun x => x mod 251)))
    as (s3 & Hr & Hx); [vm_compute; split; congruence|done|vm_compute; split; congruence|lia|right; vm_compute; congruence
    |reflexivity| |].
  2: { exists s3. split; [exact Hr|]. rewrite Hx; [done|]. vm_compute. by intros [_ H]. }
  intros x Hx. cbn [dev upd_dev pm_update bytes]. unfold memset.
  destruct (Z.leb_spec 2000000 x), (Z.ltb_spec x (2000000 + 50)); simpl; try done. lia.
Defined.

Lemma journal_serial_witness :
  exists s1 s3, journal_alloc (example_jfs (fun _ => 1)) = Ok (JOURNAL_START, s1) /\
    journal_commit JOURNAL_START s1 = Ok (tt, s3) /\ bytes (dev s3) JOURNAL_START = 0.
Proof.
  assert (serial (jnl_mgr (example_jfs (fun _ => 1)))) as Hs by (split; [reflexivity|by left]).
  destruct (serial_alloc _ Hs) as (c & Ha & _).
  destruct (journal_serial _ _ _ _ Hs Ha eq_refl) as (s3 & _ & _ & Hc & _ & Hb & _). eexists _, s3. by split.
Defined.
