(* ===== verification/Dir.v ===== *)
(** * Directories (src/slotfs/inode.c)

    A directory has its entries twice: in DRAM, as [dirent_t]s on a list in
    the order of the log and in a red-black tree ordered by the hash of the
    name; and on the device, as a chain of directory slots that starts at
    [log_head] and ends at the ghost slot, an allocated slot that the next
    entry will be written to.  [dir_append_entry] fills the ghost slot and
    allocates the next one, [dir_remove_entry] unlinks a slot.  The invariant
    [dir_inv] ties the two views together; the operations preserve it, and
    every store on the way leaves the old or the new chain on the device. *)
From stdpp Require Import base numbers list gmap sorting.
From S2P Require Import Prelude Bitops Slot Btree Rbtree RbErase DirIndex Pm Mkfs Fs.
Local Open Scope Z_scope.

(** ** Names *)

(** A name is its list of bytes; [char] is signed. *)
Definition BKDR_seed : Z := 131.
Fixpoint BKDR_loop (str : list Z) (hash : Z) : Z :=
  match str with
  | [] => hash
  | c :: str' => BKDR_loop str' (u64 (hash * BKDR_seed + i8 c))
  end.
Definition BKDRHash (str : list Z) : Z := BKDR_loop str 0.

(** The bytes of a list as a source of [memcpy]. *)
Definition list_mem (l : list Z) : mem := fun x => default 0 (l !! Z.to_nat x).
(** [n] bytes of memory as a list. *)
Definition mem_list (m : mem) (a n : Z) : list Z := (fun k => m (a + Z.of_nat k)) <$> seq 0 (Z.to_nat n).

Definition hash_of (s : fs) (a : Z) : Z := match dirents s !! a with Some d => d_hash d | None => 0 end.

(** The neighbours of [d] on a list; [None] inside is the list head. *)
Fixpoint list_around (prev : option Z) (l : list Z) (d : Z) : option (option Z * option Z) :=
  match l with
  | [] => None
  | x :: l' => if x =? d then Some (prev, head l') else list_around (Some x) l' d
  end.

(** [d->list.prev] and [d->list.next]; the links of an entry that is not on
    the list are poison, or clobbered by the arena. *)
Definition list_links (l : list Z) (d : Z) : M fs (option Z * option Z) :=
  match list_around None l d with Some r => mret r | None => throw UseAfterFree end.

Definition list_del (l : list Z) (d : Z) : list Z := filter (fun x => x <> d) l.

Section dir.
Context (sb : pm_super_block) (cpu now : Z).

Definition dirent_lookup (dir hash : Z) : M fs Z :=
  s ← get;
  on_rbtree dir (index_lookup (hash_of s) hash).

Definition inode_lookup (dir : Z) (name : list Z) : M fs Z :=
  i ← rd_inode dir;
  if negb (is_dir i) then mret ENOTDIR else
  dirent_lookup dir (BKDRHash name).

Definition dir_index_insert (dir d : Z) : M fs Z :=
  s ← get;
  on_rbtree dir (DirIndex.dir_index_insert (hash_of s) d).

(** [dir_append_entry] for an inode with number [ino] and time stamp [its];
    [bump] is [inode->entry_num++]. *)
Definition do_append_entry (dir ino its : Z) (bump : M fs unit) (name : list Z) : M fs Z :=
  d ← dirent_alloc;
  if d =? 0 then mret (- ENOMEM) else
  i ← rd_inode dir;
  let dno := ghost_slot i in
  g ← slot_dirent_alloc cpu;
  _ ← upd_inode dir (upd_ghost_slot (fun _ => g));
  if g <? -1 then
    _ ← upd_inode dir (upd_ghost_slot (fun _ => dno));
    _ ← dirent_free d;
    mret (- ENOSPC)
  else
  _ ← wr_dirent d (mk_dirent dno its ino (BKDRHash name));
  _ ← dir_index_insert dir d;
  let pd := IDX2DENT sb dno in
  _ ← pm_store (pd + PD_ino) 8 ino;
  _ ← pm_store (pd + PD_ts) 8 its;
  _ ← pm_store (pd + PD_next) 8 g;
  _ ← pm_store (pd + PD_name_len) 1 (zlength name);
  _ ← pm_write (memcpy (pd + PD_name) (list_mem name) 0 (zlength name));
  _ ← bump;
  _ ← upd_inode dir (upd_i_list (fun l => l ++ [d]));
  mret d.

Definition dir_append_entry (dir inode : Z) (name : list Z) : M fs Z :=
  i ← rd_inode inode;
  do_append_entry dir (i_ino i) (i_ts i) (upd_inode inode (upd_entry_num (fun n => u64 (n + 1)))) name.

Definition dir_remove_entry (dir d : Z) : M fs unit :=
  i ← rd_inode dir;
  de ← rd_dirent d;
  '(prev, next) ← list_links (i_list i) d;
  _ ← on_rbtree dir (rb_erase d);
  next_ptr ← (match next with None => mret (ghost_slot i) | Some nd => n ← rd_dirent nd; mret (d_idx n) end);
  prev_ptr ← (if log_head i =? d_idx de then
                _ ← upd_inode dir (upd_log_head (fun _ => next_ptr));
                mret (IDX2INODE sb (i_ino i) + PI_log_head)
              else match prev with
                   | Some pr => p ← rd_dirent pr; mret (IDX2DENT sb (d_idx p) + PD_next)
                   | None => throw BadPointer
                   end);
  _ ← pm_store prev_ptr 8 next_ptr;
  _ ← pm_store (IDX2DENT sb (d_idx de) + PD_next) 8 0;
  _ ← slot_dirent_free (d_idx de);
  _ ← upd_inode dir (upd_i_list (fun l => list_del l d));
  _ ← dirent_free d;
  upd_inode dir (upd_entry_num (fun n => u64 (n - 1))).

(** ** Rebuilding a directory from the device *)

(** [pd] is the [pm_dirent_t] on the stack of [dir_rebuild]. *)
Definition dir_rebuild_insert (dir : Z) (pd : mem) (idx : Z) : M fs Z :=
  d ← dirent_alloc;
  if d =? 0 then mret (- ENOMEM) else
  let name := mem_list pd PD_name (pd PD_name_len) in
  _ ← wr_dirent d (mk_dirent idx (i64 (load pd PD_ts 8)) (load pd PD_ino 8) (BKDRHash name));
  ret ← dir_index_insert dir d;
  if negb (ret =? 0) then _ ← dirent_free d; mret ret else
  _ ← upd_inode dir (upd_i_list (fun l => l ++ [d]));
  mret 0.

Definition SIZEOF_DIRENT : Z := 80.

Fixpoint dir_rebuild_loop (n : nat) (dir : Z) (pd : mem) (curr : Z) : M fs Z :=
  match n with
  | O => mret 0
  | S n' =>
      m ← gets (fun s => bytes (dev s));
      let pd := memcpy 0 m (IDX2DENT sb curr) SIZEOF_DIRENT pd in
      ret ← dir_rebuild_insert dir pd curr;
      if negb (ret =? 0) then mret ret else
      let curr := i64 (load pd PD_next 8) in
      _ ← upd_inode dir (upd_ghost_slot (fun _ => curr));
      dir_rebuild_loop n' dir pd curr
  end.

(** [junk] is the contents of the stack where [pd] is allocated. *)
Definition dir_rebuild (dir : Z) (junk : mem) : M fs Z :=
  i ← rd_inode dir;
  _ ← upd_inode dir (upd_ghost_slot (fun _ => log_head i));
  dir_rebuild_loop (Z.to_nat (entry_num i)) dir junk (log_head i).
End dir.

(** ** The directory on the device *)

Section image.
Context (sb : pm_super_block).

Definition dent_next (m : mem) (k : Z) : Z := i64 (load m (IDX2DENT sb k + PD_next) 8).
Definition pm_head (m : mem) (ino : Z) : Z := i64 (load m (IDX2INODE sb ino + PI_log_head) 8).

(** Following [next] from slot [a] visits the slots [l] and then ends. *)
Fixpoint chain (m : mem) (a : Z) (l : list Z) : Prop :=
  match l with
  | [] => a = 0
  | x :: l' => a = x /\ chain m (dent_next m x) l'
  end.

(** The slot of [e] holds its inode number and a name with its hash. *)
Definition entry_on (m : mem) (e : dirent) : Prop :=
  let pd := IDX2DENT sb (d_idx e) in
  load m (pd + PD_ino) 8 = d_ino e /\ m (pd + PD_name_len) <= MAX_NAME_LEN /\
  BKDRHash (mem_list m (pd + PD_name) (m (pd + PD_name_len))) = d_hash e.

(** ** The invariant *)

Definition idx_of (s : fs) (d : Z) : Z := match dirents s !! d with Some e => d_idx e | None => 0 end.
(** The slots of a directory: one per entry, in the order of the log, and the ghost slot. *)
Definition slots (s : fs) (i : dram_inode) : list Z := (idx_of s <$> i_list i) ++ [ghost_slot i].

(** What all directories share. *)
Record shared_ok (s : fs) : Prop := {
  so_maps : sa_inv (map_dir s);
  so_valid k : sa_valid (map_dir s) k <-> 0 <= k < slot_num (sb_dir sb);
  so_zero : sa_used (map_dir s) 0 = true;
  so_free k : 0 <= k < slot_num (sb_dir sb) -> sa_used (map_dir s) k = false ->
    dent_next (bytes (dev s)) k = 0;
  so_arena : NoDup (entry_arena s);
  so_aligned d : d ∈ entry_arena s -> aligned d;
  so_mem : mem_ok (bytes (dev s));
}.

Record dir_ok (s : fs) (i : dram_inode) : Prop := {
  do_ino : 0 <= i_ino i < slot_num (sb_inode sb);
  do_index : exists l, index_rep (hash_of s) (rb_root i) l /\ (l ≡ₚ i_list i);
  do_objs d : d ∈ i_list i ->
    (d ∉ entry_arena s) /\ (exists e, dirents s !! d = Some e /\ entry_on (bytes (dev s)) e);
  do_nodup : NoDup (slots s i);
  do_slots k : k ∈ slots s i -> 0 < k < slot_num (sb_dir sb) /\ sa_used (map_dir s) k = true;
  do_head : head (slots s i) = Some (log_head i);
  do_chain : chain (bytes (dev s)) (pm_head (bytes (dev s)) (i_ino i)) (slots s i);
}.

(** The directories at the addresses [D]: each is well formed, they have
    different numbers and share no slot and no entry. *)
Record dirs_inv (s : fs) (D : list Z) : Prop := {
  dv_shared : shared_ok s;
  dv_each p : p ∈ D -> exists i, inodes s !! p = Some i /\ dir_ok s i;
  dv_apart p q i j : p ∈ D -> q ∈ D -> p <> q -> inodes s !! p = Some i -> inodes s !! q = Some j ->
    i_ino i <> i_ino j /\ (forall k, k ∈ slots s i -> k ∉ slots s j) /\ (forall d, d ∈ i_list i -> d ∉ i_list j);
}.

(** ** Addresses *)

Hypothesis Hlo : layout_ok sb.

Lemma IDX2DENT_eq k : 0 <= k < slot_num (sb_dir sb) -> IDX2DENT sb k = slot_table (sb_dir sb) + 256 * k.
Proof.
  intros Hk. destruct Hlo as [(_ & Hs & _) Hb Ht (? & ? & ? & ?) _ Hz]. unfold IDX2DENT. rewrite Hs.
  assert (BITMAP_START = 1060864) by done. unfold region_ok in *. rewrite u64_small; lia.
Qed.
Lemma IDX2INODE_eq k : 0 <= k < slot_num (sb_inode sb) -> IDX2INODE sb k = slot_table (sb_inode sb) + 128 * k.
Proof.
  intros Hk. destruct Hlo as [(Hs & _) Hb Ht (? & ? & ? & ?) _ Hz]. unfold IDX2INODE. rewrite Hs.
  assert (BITMAP_START = 1060864) by done. unfold region_ok in *. rewrite u64_small; lia.
Qed.
Lemma inode_below_dent i k :
  0 <= i < slot_num (sb_inode sb) -> 0 <= k < slot_num (sb_dir sb) -> IDX2INODE sb i + 128 <= IDX2DENT sb k.
Proof. intros. rewrite IDX2DENT_eq, IDX2INODE_eq by done. destruct Hlo as [_ _ Ht _ _ _]. lia. Qed.
Lemma dent_apart j k :
  0 <= j < slot_num (sb_dir sb) -> 0 <= k < slot_num (sb_dir sb) -> j <> k ->
  IDX2DENT sb j + 256 <= IDX2DENT sb k \/ IDX2DENT sb k + 256 <= IDX2DENT sb j.
Proof. intros. rewrite !IDX2DENT_eq by done. lia. Qed.

(** ** Chains *)

Lemma dent_chain_ext m m' a l :
  (forall k, k ∈ l -> dent_next m' k = dent_next m k) -> chain m a l -> chain m' a l.
Proof.
  revert a. induction l as [|x l IH]; intros a He; [done|]. simpl. intros [-> Hc]. split; [done|].
  rewrite He by (by left). apply IH; [|done]. intros k Hk. apply He. by right.
Qed.

Lemma chain_snoc m m' a l x y :
  chain m a (l ++ [x]) -> (forall k, k ∈ l -> dent_next m' k = dent_next m k) ->
  dent_next m' x = y -> dent_next m' y = 0 -> chain m' a (l ++ [x; y]).
Proof.
  revert a. induction l as [|z l IH]; intros a Hc He Hx Hy; simpl in *.
  - destruct Hc as [-> _]. split_and!; done.
  - destruct Hc as [-> Hc]. split; [done|]. rewrite He by (by left).
    apply IH; try done. intros k Hk. apply He. by right.
Qed.

Lemma chain_app_inv m a l1 x l2 : chain m a (l1 ++ x :: l2) -> chain m (dent_next m x) l2.
Proof. revert a. induction l1 as [|y l1 IH]; intros a [-> Hc]; [done|]. by eapply IH. Qed.

(** Unlinking: the slot before [x] gets the successor of [x]. *)
Lemma chain_remove m m' a l1 p x y l2 :
  chain m a (l1 ++ p :: x :: y :: l2) -> NoDup (l1 ++ p :: x :: y :: l2) ->
  (forall k, k <> p -> k ∈ l1 ++ p :: y :: l2 -> dent_next m' k = dent_next m k) -> dent_next m' p = y ->
  chain m' a (l1 ++ p :: y :: l2).
Proof.
  revert a. induction l1 as [|z l1 IH]; intros a Hc Hnd He Hp; simpl in *.
  - destruct Hc as (-> & Hx & Hy & Hc). split; [done|]. rewrite Hp. split; [done|].
    apply NoDup_cons in Hnd as [Hni _]. rewrite !not_elem_of_cons in Hni. destruct Hni as (_ & Hne & Hni).
    rewrite He by (done || (right; by left)). eapply dent_chain_ext; [|exact Hc].
    intros k Hk. apply He; [by intros ->|]. right. by right.
  - destruct Hc as [-> Hc]. split; [done|]. apply NoDup_cons in Hnd as [Hni Hnd].
    rewrite not_elem_of_app, not_elem_of_cons in Hni. rewrite He; [|tauto|by left].
    apply IH; try done. intros k Hk Hin. apply He; [done|by right].
Qed.

(** ** Stores into one slot *)

(** Only the slot [j] changes. *)
Definition only_dent (j : Z) (m m' : mem) : Prop :=
  forall x, ~ (IDX2DENT sb j <= x < IDX2DENT sb j + 256) -> m' x = m x.

Lemma only_dent_trans j m1 m2 m3 : only_dent j m1 m2 -> only_dent j m2 m3 -> only_dent j m1 m3.
Proof. intros H1 H2 x Hx. by rewrite H2, H1. Qed.
Lemma only_dent_store j off n v m :
  0 <= off -> off + Z.of_nat n <= 256 -> only_dent j m (store (IDX2DENT sb j + off) n v m).
Proof. intros ? ? x Hx. apply (store_agree _ _ _ _ x 1); lia. Qed.
Lemma only_dent_memcpy j off from src n m :
  0 <= off -> off + n <= 256 -> only_dent j m (memcpy (IDX2DENT sb j + off) from src n m).
Proof. intros ? ? x Hx. apply (memcpy_agree _ _ _ _ _ x 1); lia. Qed.

Lemma only_dent_other j k m m' :
  only_dent j m m' -> 0 <= j < slot_num (sb_dir sb) -> 0 <= k < slot_num (sb_dir sb) -> j <> k ->
  agree (IDX2DENT sb k) 256 m m'.
Proof. intros Ho Hj Hk Hne x Hx. apply Ho. destruct (dent_apart j k); lia. Qed.
Lemma only_dent_head j m m' ino :
  only_dent j m m' -> 0 <= j < slot_num (sb_dir sb) -> 0 <= ino < slot_num (sb_inode sb) ->
  pm_head m' ino = pm_head m ino.
Proof.
  intros Ho Hj Hi. unfold pm_head. f_equal. apply load_agree. intros x Hx. apply Ho.
  pose proof (inode_below_dent ino j Hi Hj). unfold PI_log_head in *. lia.
Qed.
Lemma agree_next k m m' : agree (IDX2DENT sb k) 256 m m' -> dent_next m' k = dent_next m k.
Proof. intros Ha. unfold dent_next. f_equal. apply load_agree. eapply agree_sub; [| |exact Ha]; unfold PD_next; lia. Qed.

Lemma mem_list_agree m m' a n : agree a n m m' -> mem_list m' a n = mem_list m a n.
Proof.
  intros Ha. unfold mem_list. apply list_fmap_ext. intros k x Hk. apply lookup_seq in Hk as [-> Hk].
  apply Ha. lia.
Qed.
Lemma agree_entry m m' e :
  mem_ok m -> agree (IDX2DENT sb (d_idx e)) 88 m m' -> entry_on m e -> entry_on m' e.
Proof.
  intros Hm Ha (Hino & Hlen & Hh). unfold entry_on in *. cbv zeta in *. unfold MAX_NAME_LEN in *.
  set (pd := IDX2DENT sb (d_idx e)) in *. unfold PD_name_len, PD_ino, PD_name in *.
  assert (m' (pd + 0) = m (pd + 0)) as E by (apply Ha; lia). pose proof (Hm (pd + 0)).
  split_and!.
  - rewrite <- Hino. apply load_agree. eapply agree_sub; [| |exact Ha]; simpl; lia.
  - by rewrite E.
  - rewrite E, <- Hh. f_equal. apply mem_list_agree. eapply agree_sub; [| |exact Ha]; lia.
Qed.

(** The device after each store of an append. *)
Definition append_mem (n : nat) (dno ino its g : Z) (name : list Z) (m : mem) : mem :=
  let pd := IDX2DENT sb dno in
  let step k f m := if (k <=? n)%nat then f m else m in
  step 5%nat (memcpy (pd + PD_name) (list_mem name) 0 (zlength name))
    (step 4%nat (store (pd + PD_name_len) 1 (zlength name))
      (step 3%nat (store (pd + PD_next) 8 g)
        (step 2%nat (store (pd + PD_ts) 8 its) (step 1%nat (store (pd + PD_ino) 8 ino) m)))).

Definition name_ok (name : list Z) : Prop := zlength name <= MAX_NAME_LEN /\ Forall (fun c => 0 <= c < 256) name.

Lemma mem_list_memcpy name a m : mem_list (memcpy a (list_mem name) 0 (zlength name) m) a (zlength name) = name.
Proof.
  apply list_eq. intros k. unfold mem_list. rewrite list_lookup_fmap. unfold zlength. rewrite Nat2Z.id.
  destruct (decide (k < length name)%nat).
  - rewrite lookup_seq_lt by done. simpl. unfold memcpy, list_mem.
    destruct (Z.leb_spec a (a + Z.of_nat k)), (Z.ltb_spec (a + Z.of_nat k) (a + Z.of_nat (length name))); simpl; try lia.
    replace (Z.to_nat (0 + (a + Z.of_nat k - a))) with k by lia.
    destruct (lookup_lt_is_Some_2 name k) as [c Hc]; [lia|]. by rewrite Hc.
  - rewrite lookup_seq_ge by lia. simpl. symmetry. apply lookup_ge_None. lia.
Qed.

Lemma list_mem_ok name : Forall (fun c => 0 <= c < 256) name -> mem_ok (list_mem name).
Proof.
  intros Hf x. unfold list_mem. destruct (name !! Z.to_nat x) as [c|] eqn:E; simpl; [|lia].
  rewrite Forall_lookup in Hf. by eapply Hf.
Qed.

Lemma append_mem_only n dno ino its g name m :
  name_ok name -> only_dent dno m (append_mem n dno ino its g name m).
Proof.
  intros [Hn _]. unfold append_mem, MAX_NAME_LEN in *. pose proof (zlength_nonneg name).
  unfold PD_name, PD_name_len, PD_next, PD_ts, PD_ino.
  assert (forall b f m1, (forall m2, only_dent dno m2 (f m2)) -> only_dent dno m m1 ->
    only_dent dno m (if b : bool then f m1 else m1)) as Hs.
  { intros [] f m1 Hf Hm; [|done]. eapply only_dent_trans; [exact Hm|apply Hf]. }
  repeat (apply Hs; [intros m2; first [apply only_dent_store; simpl; lia|apply only_dent_memcpy; lia]|]). done.
Qed.

Lemma append_mem_next n dno ino its g name m :
  name_ok name -> - 2 ^ 63 <= g < 2 ^ 63 ->
  dent_next (append_mem n dno ino its g name m) dno = if (3 <=? n)%nat then g else dent_next m dno.
Proof.
  intros [Hn _] Hg. unfold append_mem, MAX_NAME_LEN, dent_next in *. pose proof (zlength_nonneg name).
  unfold PD_name, PD_name_len, PD_next, PD_ts, PD_ino.
  assert (forall (b : bool) f m1, (forall m2, agree (IDX2DENT sb dno + 88) 8 m2 (f m2)) ->
    load (if b then f m1 else m1) (IDX2DENT sb dno + 88) 8 = load m1 (IDX2DENT sb dno + 88) 8) as Hs.
  { intros [] f m1 Hf; [|done]. apply load_agree, Hf. }
  rewrite Hs by (intros; apply memcpy_agree; lia). rewrite Hs by (intros; apply store_agree; simpl; lia).
  destruct (3 <=? n)%nat; [by apply load_store_i64|].
  do 2 rewrite Hs by (intros; apply store_agree; simpl; lia). done.
Qed.

Lemma append_mem_ok n dno ino its g name m : name_ok name -> mem_ok m -> mem_ok (append_mem n dno ino its g name m).
Proof.
  intros [_ Hf] Hm. unfold append_mem.
  repeat case_match; repeat first [done|apply store_ok|apply memcpy_ok|by apply list_mem_ok].
Qed.

Lemma append_mem_entry dno ino its g name m :
  name_ok name -> 0 <= ino < 2 ^ 64 -> entry_on (append_mem 5 dno ino its g name m) (mk_dirent dno its ino (BKDRHash name)).
Proof.
  intros [Hn Hf] Hino. unfold entry_on, append_mem, MAX_NAME_LEN in *. cbn [d_idx d_ino d_hash Nat.leb].
  set (pd := IDX2DENT sb dno). pose proof (zlength_nonneg name).
  unfold PD_name, PD_name_len, PD_next, PD_ts, PD_ino.
  assert (forall m1, memcpy (pd + 1) (list_mem name) 0 (zlength name) m1 (pd + 0) = m1 (pd + 0)) as E0.
  { intros m1. apply (memcpy_agree _ _ _ _ m1 (pd + 0) 1); lia. }
  assert (forall m1, store (pd + 0) 1 (zlength name) m1 (pd + 0) = zlength name) as E1.
  { intros m1. unfold store. rewrite Z.leb_refl, Z.sub_diag, Z.div_1_r.
    destruct (Z.ltb_spec (pd + 0) (pd + 0 + Z.of_nat 1)); simpl; [|lia]. apply Z.mod_small. lia. }
  rewrite E0, E1. split_and!; [|done|f_equal; apply mem_list_memcpy].
  assert (forall m1 m2, agree (pd + 72) 8 m1 m2 -> load m2 (pd + 72) 8 = load m1 (pd + 72) 8) as Hl
    by (intros; by apply load_agree).
  erewrite Hl by (apply memcpy_agree; lia). do 3 erewrite Hl by (apply store_agree; simpl; lia).
  by apply load_store_u64.
Qed.

(** The inode number is stored before the link to the next slot. *)
Lemma append_mem_ino n dno ino its g name m :
  name_ok name -> 0 <= ino < 2 ^ 64 -> (1 <= n)%nat -> load (append_mem n dno ino its g name m) (IDX2DENT sb dno + PD_ino) 8 = ino.
Proof.
  intros [Hn _] Hino H1. unfold append_mem, MAX_NAME_LEN in *. pose proof (zlength_nonneg name).
  unfold PD_name, PD_name_len, PD_next, PD_ts, PD_ino.
  assert (forall (b : bool) f m1, (forall m2, agree (IDX2DENT sb dno + 72) 8 m2 (f m2)) ->
    load (if b then f m1 else m1) (IDX2DENT sb dno + 72) 8 = load m1 (IDX2DENT sb dno + 72) 8) as Hs.
  { intros [] f m1 Hf; [|done]. apply load_agree, Hf. }
  rewrite Hs by (intros; apply memcpy_agree; lia). do 3 rewrite Hs by (intros; apply store_agree; simpl; lia).
  rewrite (proj2 (Nat.leb_le 1 n)) by done. by apply load_store_u64.
Qed.
End image.

(** ** Appending an entry *)

Section append.
Context (sb : pm_super_block) (cpu : Z).
Hypothesis Hlo : layout_ok sb.
Hypothesis Hcpu : 0 <= cpu.

(** [inode->entry_num++] for the inode at [q]; for an inode that is not in
    the heap, like the one on the stack of [slotfs_rename], nothing changes. *)
Definition bumps (s : fs) (bump : M fs unit) (q : Z) : Prop :=
  forall s', dom (inodes s') = dom (inodes s) ->
  bump s' = Ok (tt, upd_inodes (alter (upd_entry_num (fun n => u64 (n + 1))) q) s').

(** The device after the five stores, with the states between them. *)
Definition append_dev (dno ino its g : Z) (name : list Z) (p : pmem) : pmem :=
  let at_ n := append_mem sb n dno ino its g name (bytes p) in
  mk_pmem (at_ 5%nat) (at_ 4%nat :: at_ 3%nat :: at_ 2%nat :: at_ 1%nat :: at_ 0%nat :: crashes p).

Definition append_state (s : fs) (p q d : Z) (l : list Z) (b : list dram_bitmap) (g : Z) (e : dirent)
    (t : rb_tree) (i : dram_inode) (name : list Z) : fs :=
  upd_inodes (fun h => alter (upd_i_list (fun l => l ++ [d])) p
      (alter (upd_entry_num (fun n => u64 (n + 1))) q
        (<[p := upd_rb_root (fun _ => t) (upd_ghost_slot (fun _ => g) i)]> h)))
    (upd_dev (append_dev (d_idx e) (d_ino e) (d_ts e) g name)
      (upd_dirents <[d := e]> (upd_map_dir (fun _ => b) (upd_entry_arena (fun _ => l) s)))).

Lemma do_append_exec s p i ino its bump q name d l g b r t :
  inodes s !! p = Some i -> entry_arena s = d :: l -> d <> 0 -> bumps s bump q ->
  slot_dirent_alloc cpu (upd_entry_arena (fun _ => l) s) =
    Ok (g, upd_map_dir (fun _ => b) (upd_entry_arena (fun _ => l) s)) -> -1 <= g ->
  let e := mk_dirent (ghost_slot i) its ino (BKDRHash name) in
  DirIndex.dir_index_insert (hash_of (upd_dirents <[d := e]> s)) d (rb_root i) = Ok (r, t) ->
  do_append_entry sb cpu p ino its bump name s = Ok (d, append_state s p q d l b g e t i name).
Proof.
  intros Hi Ha Hd Hb Hg Hg1 e Ht. unfold do_append_entry.
  erewrite M_bind_step by (unfold dirent_alloc, entry_alloc; rewrite Ha; reflexivity).
  rewrite (proj2 (Z.eqb_neq d 0)) by done. cbv beta zeta. fs_step. mstep Hg. fs_step.
  destruct (Z.ltb_spec g (-1)); [lia|]. fs_step.
  erewrite M_bind_step.
  2: { unfold dir_index_insert. mstep eq_refl. apply on_rbtree_eq; [fs_lk|]. simpl. exact Ht. }
  do 5 fs_step. erewrite M_bind_step.
  2: { apply Hb. fsimpl. rewrite !dom_insert_lookup_L; [done|..]; rewrite ?lookup_insert_eq; eauto. }
  erewrite M_bind_step.
  2: { apply upd_inode_alter. fsimpl. rewrite lookup_alter_is_Some, lookup_insert_eq. eauto. }
  unfold mret, M_ret. do 2 f_equal. unfold append_state. apply fs_ext; fsimpl; try done.
  by rewrite insert_insert_eq.
Qed.

(** A directory of which nothing changed. *)
Definition same_dir (i i' : dram_inode) : Prop :=
  i_ino i' = i_ino i /\ rb_root i' = rb_root i /\ i_list i' = i_list i /\
  log_head i' = log_head i /\ ghost_slot i' = ghost_slot i.

(** The device outside the slot of the inode of a directory and outside the directory slots. *)
Definition beside_dir (i : dram_inode) (m m' : mem) : Prop :=
  forall x, ~ (IDX2INODE sb (i_ino i) <= x < IDX2INODE sb (i_ino i) + 128) ->
    (forall k, 0 <= k < slot_num (sb_dir sb) -> ~ (IDX2DENT sb k <= x < IDX2DENT sb k + 256)) -> m' x = m x.

(** What an operation on the directory at [p] leaves alone. *)
Record dir_frame (s s' : fs) (p : Z) : Prop := {
  fr_other x j : x <> p -> inodes s !! x = Some j -> exists j', inodes s' !! x = Some j' /\ same_dir j j' /\ i_mode j' = i_mode j;
  fr_self i i' : inodes s !! p = Some i -> inodes s' !! p = Some i' -> i_mode i' = i_mode i /\ i_link i' = i_link i;
  fr_jnl : jnl_mgr s' = jnl_mgr s;
  fr_locks : ilocks s' = ilocks s;
  fr_table : inode_table s' = inode_table s;
  fr_root : root s' = root s;
  fr_arena : inode_arena s' = inode_arena s;
  fr_count x j : x <> p -> inodes s !! x = Some j -> exists n, inodes s' !! x = Some (upd_entry_num (fun _ => n) j);
  fr_files : filents s' = filents s /\ map_inode s' = map_inode s /\ map_file s' = map_file s /\ map_data s' = map_data s;
  fr_rest : btree_arena s' = btree_arena s /\ ebuf_mgr s' = ebuf_mgr s /\ release_list s' = release_list s;
  fr_dev i : inodes s !! p = Some i -> crash_safe (beside_dir i (bytes (dev s))) (dev s) (dev s');
}.

Lemma slots_ext s s' i i' :
  i_list i' = i_list i -> ghost_slot i' = ghost_slot i ->
  (forall d, d ∈ i_list i -> dirents s' !! d = dirents s !! d) -> slots s' i' = slots s i.
Proof.
  intros El Eg Hd. unfold slots. rewrite El, Eg. f_equal. apply list_fmap_ext. intros k d Hk.
  unfold idx_of. rewrite Hd; [done|]. by eapply list_elem_of_lookup_2.
Qed.

Lemma dir_ok_frame s s' i i' :
  same_dir i i' -> dir_ok sb s i -> mem_ok (bytes (dev s)) ->
  (forall d, d ∈ i_list i -> dirents s' !! d = dirents s !! d) ->
  (forall d, d ∈ i_list i -> d ∉ entry_arena s') ->
  (forall k, k ∈ slots s i -> sa_used (map_dir s') k = true) ->
  (forall k, k ∈ slots s i -> agree (IDX2DENT sb k) 256 (bytes (dev s)) (bytes (dev s'))) ->
  pm_head sb (bytes (dev s')) (i_ino i) = pm_head sb (bytes (dev s)) (i_ino i) ->
  dir_ok sb s' i'.
Proof.
  intros (Ei & Er & El & Eh & Eg) [Hino (l & Hl & Hp) Hobj Hnd Hsl Hhd Hch] Hm Hd Ha Hu Hag Hph.
  pose proof (slots_ext s s' i i' El Eg Hd) as Es.
  assert (forall d, d ∈ i_list i -> idx_of s d ∈ slots s i) as Hin.
  { intros d Hd0. apply elem_of_app. left. apply list_elem_of_fmap. by exists d. }
  constructor; rewrite ?Es, ?Ei, ?Er, ?El, ?Eh; try done.
  - exists l. split; [|done]. eapply index_rep_hash; [exact Hl|]. intros a Hal. unfold hash_of.
    rewrite Hd; [done|]. by rewrite <- Hp.
  - intros d Hd0. split; [by apply Ha|]. destruct (Hobj d Hd0) as (_ & e & He & Hon).
    exists e. rewrite Hd by done. split; [done|]. eapply agree_entry; [exact Hm| |exact Hon].
    eapply agree_sub; [| |apply (Hag (d_idx e))]; [lia|lia|]. specialize (Hin d Hd0). unfold idx_of in Hin. by rewrite He in Hin.
  - intros k Hk. destruct (Hsl k Hk). split; [done|]. by apply Hu.
  - rewrite Hph. eapply dent_chain_ext; [|exact Hch]. intros k Hk. apply agree_next. by apply Hag.
Qed.

Lemma append_mem_0 dno ino its g name m : append_mem sb 0 dno ino its g name m = m.
Proof. done. Qed.

Lemma head_snoc {A} (l : list A) x y : head (l ++ [x]) = head ((l ++ [x]) ++ [y]).
Proof. by destruct l. Qed.

(** The chain of the directory through the stores of an append. *)
Lemma append_chain n m ino0 l dno ino its g name :
  name_ok name -> - 2 ^ 63 <= g < 2 ^ 63 -> 0 <= ino0 < slot_num (sb_inode sb) ->
  (forall k, k ∈ l ++ [dno; g] -> 0 <= k < slot_num (sb_dir sb)) -> NoDup (l ++ [dno; g]) ->
  dent_next sb m g = 0 -> chain sb m (pm_head sb m ino0) (l ++ [dno]) ->
  let m' := append_mem sb n dno ino its g name m in
  chain sb m' (pm_head sb m' ino0) (l ++ if (3 <=? n)%nat then [dno; g] else [dno]).
Proof.
  intros Hn Hg Hi Hv Hnd Hz Hc m'. pose proof (append_mem_only sb n dno ino its g name m Hn) as Ho. fold m' in Ho.
  assert (0 <= dno < slot_num (sb_dir sb)) as Hd by (apply Hv; apply elem_of_app; right; by left).
  pose proof (append_mem_next sb n dno ino its g name m Hn Hg) as Hnx. fold m' in Hnx.
  apply NoDup_app in Hnd as (_ & Hd1 & Hd2). rewrite NoDup_cons, list_elem_of_singleton in Hd2.
  assert (forall k, k ∈ l ++ [g] -> dent_next sb m' k = dent_next sb m k) as Hk.
  { intros k Hk. apply agree_next. eapply only_dent_other; [done|exact Ho|done| |].
    - apply Hv. rewrite elem_of_app, !elem_of_cons. rewrite elem_of_app, list_elem_of_singleton in Hk. tauto.
    - intros ->. apply elem_of_app in Hk as [Hk|Hk%list_elem_of_singleton]; [|tauto]. apply Hd1 in Hk. apply Hk. by left. }
  rewrite (only_dent_head sb Hlo dno m m') by done. destruct (3 <=? n)%nat.
  - eapply chain_snoc; [exact Hc|intros; apply Hk; apply elem_of_app; by left|done|].
    rewrite Hk; [done|]. apply elem_of_app. right. by left.
  - eapply dent_chain_ext; [|exact Hc]. intros k [Hin|Hin%list_elem_of_singleton]%elem_of_app; [|by subst].
    apply Hk. apply elem_of_app. by left.
Qed.

(** The state after an append, given what its steps found. *)
Section appended.
Context (s : fs) (D : list Z) (p q : Z) (i : dram_inode) (ino its : Z) (name : list Z)
        (d : Z) (l : list Z) (g : Z) (b : list dram_bitmap) (t : rb_tree) (l1 l2 : list Z).
Let e : dirent := mk_dirent (ghost_slot i) its ino (BKDRHash name).
Let s' : fs := append_state s p q d l b g e t i name.
Hypothesis Hinv : dirs_inv sb s D.
Hypothesis HpD : p ∈ D.
Hypothesis Hi : inodes s !! p = Some i.
Hypothesis Harena : entry_arena s = d :: l.
Hypothesis Hname : name_ok name.
Hypothesis Hino : 0 <= ino < 2 ^ 64.
Hypothesis Hgv : sa_valid (map_dir s) g.
Hypothesis Hgu : sa_used (map_dir s) g = false.
Hypothesis Hbi : sa_inv b.
Hypothesis Hbv : forall k, sa_valid b k <-> sa_valid (map_dir s) k.
Hypothesis Hbu : forall k, sa_valid (map_dir s) k -> sa_used b k = sa_used (map_dir s) k || (k =? g).
Hypothesis Ht : index_rep (hash_of (upd_dirents <[d := e]> s)) t (l1 ++ d :: l2).
Hypothesis Hl12 : (l1 ++ l2 ≡ₚ i_list i).

Lemma app_dir : dir_ok sb s i.
Proof. destruct (dv_each _ _ _ Hinv p HpD) as (i0 & Hi0 & Hok). by simplify_eq. Qed.

Lemma app_lists x j : j ∈ D -> (exists ij, inodes s !! j = Some ij /\ x ∈ i_list ij) -> x <> d /\ x ∉ l.
Proof.
  intros Hj (ij & Hij & Hx). destruct (dv_each _ _ _ Hinv j Hj) as (i0 & Hi0 & Hok). simplify_eq.
  destruct (do_objs _ _ _ Hok x Hx) as [Hni _]. rewrite Harena, not_elem_of_cons in Hni. tauto.
Qed.

Lemma app_list_d x : x ∈ i_list i -> x <> d /\ x ∉ l.
Proof. intros Hx. apply (app_lists x p HpD). eauto. Qed.

Lemma app_d : (d ∉ i_list i) /\ (d ∉ l) /\ aligned d.
Proof.
  destruct (dv_shared _ _ _ Hinv) as [_ _ _ _ Hnd Hal _]. rewrite Harena in *. apply NoDup_cons in Hnd as [? _].
  split_and!; [intros Hx; by destruct (app_list_d d Hx)|done|apply Hal; by left].
Qed.

Lemma app_g : 0 < g < slot_num (sb_dir sb) /\ g ∉ slots s i.
Proof.
  destruct (dv_shared _ _ _ Hinv) as [_ Hv Hz _ _ _ _]. apply Hv in Hgv as Hg. split.
  - destruct (decide (g = 0)) as [->|]; [congruence|lia].
  - intros Hin. destruct (do_slots _ _ _ app_dir g Hin). congruence.
Qed.

Lemma app_dno : 0 < ghost_slot i < slot_num (sb_dir sb) /\ sa_used (map_dir s) (ghost_slot i) = true.
Proof. apply (do_slots _ _ _ app_dir). apply elem_of_app. right. by left. Qed.

Definition app_inode (j : dram_inode) : dram_inode :=
  upd_i_list (fun l => l ++ [d])
    (if decide (p = q) then upd_entry_num (fun n => u64 (n + 1)) (upd_rb_root (fun _ => t) (upd_ghost_slot (fun _ => g) j))
     else upd_rb_root (fun _ => t) (upd_ghost_slot (fun _ => g) j)).

Lemma app_inodes_p : inodes s' !! p = Some (app_inode i).
Proof.
  unfold s', append_state. fsimpl. rewrite lookup_alter_eq. unfold app_inode. destruct (decide (p = q)) as [<-|].
  - by rewrite lookup_alter_eq, lookup_insert_eq.
  - by rewrite lookup_alter_ne, lookup_insert_eq.
Qed.

Lemma app_inodes_other x j : x <> p -> inodes s !! x = Some j -> exists j', inodes s' !! x = Some j' /\ same_dir j j'.
Proof.
  intros Hne Hj. unfold s', append_state. fsimpl. rewrite lookup_alter_ne by done. destruct (decide (x = q)) as [->|].
  - rewrite lookup_alter_eq, lookup_insert_ne, Hj by done. simpl. eexists. split; [done|]. by destruct j.
  - rewrite lookup_alter_ne, lookup_insert_ne by done. exists j. split; [done|]. by destruct j.
Qed.

Lemma app_slots : slots s' (app_inode i) = (idx_of s <$> i_list i) ++ [ghost_slot i; g].
Proof.
  unfold slots, app_inode. assert (idx_of s' d = ghost_slot i) as Ed.
  { unfold idx_of, s', append_state. fsimpl. by rewrite lookup_insert_eq. }
  assert (idx_of s' <$> i_list i = idx_of s <$> i_list i) as El.
  { apply list_fmap_ext. intros k x Hk. unfold idx_of, s', append_state. fsimpl.
    rewrite lookup_insert_ne; [done|]. apply list_elem_of_lookup_2, app_list_d in Hk as [? _]. done. }
  destruct (decide (p = q)); fsimpl; rewrite fmap_app, El; simpl; rewrite Ed; by rewrite <- app_assoc.
Qed.

Lemma app_nodup : NoDup ((idx_of s <$> i_list i) ++ [ghost_slot i; g]).
Proof.
  change [ghost_slot i; g] with ([ghost_slot i] ++ [g]). rewrite app_assoc. apply NoDup_app. split; [apply (do_nodup _ _ _ app_dir)|].
  split; [|apply NoDup_singleton]. intros x Hx ->%list_elem_of_singleton. by apply app_g.
Qed.

Lemma app_bytes : bytes (dev s') = append_mem sb 5 (ghost_slot i) ino its g name (bytes (dev s)).
Proof. done. Qed.

(** What holds after every number of stores holds in every crash state. *)
Lemma app_dev (Q : mem -> Prop) :
  (forall n, Q (append_mem sb n (ghost_slot i) ino its g name (bytes (dev s)))) -> crash_safe Q (dev s) (dev s').
Proof.
  intros Hall. split; [|apply (Hall 5%nat)]. unfold s', append_state. fsimpl. unfold append_dev. cbn [crashes].
  eexists [_; _; _; _; _]. split; [done|].
  rewrite !Forall_cons. split_and!; [apply (Hall 4%nat)|apply (Hall 3%nat)|apply (Hall 2%nat)|apply (Hall 1%nat)
    |apply (Hall 0%nat)|done].
Qed.

Lemma app_frame : dir_frame s s' p.
Proof.
  constructor; try done.
  - intros x j Hne Hj. unfold s', append_state. fsimpl. rewrite lookup_alter_ne by done. destruct (decide (x = q)) as [->|].
    + rewrite lookup_alter_eq, lookup_insert_ne, Hj by done. simpl. eexists. split; [done|]. by destruct j.
    + rewrite lookup_alter_ne, lookup_insert_ne by done. exists j. split; [done|]. by destruct j.
  - intros j j' Hj Hj'. rewrite app_inodes_p in Hj'. injection Hj' as <-. rewrite Hi in Hj. injection Hj as <-.
    unfold app_inode. by destruct (decide (p = q)).
  - intros x j Hne Hj. unfold s', append_state. fsimpl. rewrite lookup_alter_ne by done. destruct (decide (x = q)) as [->|].
    + rewrite lookup_alter_eq, lookup_insert_ne, Hj by done. by eexists.
    + rewrite lookup_alter_ne, lookup_insert_ne by done. exists (entry_num j). rewrite Hj. by destruct j.
  - intros j _. apply app_dev. intros n x _ Hx. apply (append_mem_only sb n (ghost_slot i) ino its g name _ Hname).
    apply Hx. pose proof app_dno. lia.
Qed.

Lemma app_dirents : dirents s' = <[d := e]> (dirents s).
Proof. done. Qed.
Lemma app_arena : entry_arena s' = l.
Proof. done. Qed.

Lemma app_g_range : - 2 ^ 63 <= g < 2 ^ 63.
Proof. destruct app_g as [Hg _]. destruct Hlo as [_ _ _ (_ & [? _] & _) _ _]. lia. Qed.

(** Slots other than the old ghost slot keep their contents. *)
Lemma app_other k : 0 <= k < slot_num (sb_dir sb) -> k <> ghost_slot i ->
  agree (IDX2DENT sb k) 256 (bytes (dev s)) (bytes (dev s')).
Proof.
  intros Hk Hne. rewrite app_bytes. eapply only_dent_other; [done|by apply append_mem_only| |done|done].
  pose proof app_dno. lia.
Qed.

Lemma app_used k : sa_valid (map_dir s) k -> sa_used (map_dir s) k = true -> sa_used (map_dir s') k = true.
Proof. intros Hv Hu. unfold s', append_state. fsimpl. rewrite Hbu by done. by rewrite Hu. Qed.

Lemma app_entry_idx x : x ∈ i_list i -> idx_of s x <> ghost_slot i /\ 0 <= idx_of s x < slot_num (sb_dir sb).
Proof.
  intros Hx. assert (idx_of s x ∈ idx_of s <$> i_list i) as Hin by (apply list_elem_of_fmap; by exists x).
  pose proof (do_nodup _ _ _ app_dir) as Hnd. apply NoDup_app in Hnd as (_ & Hd & _). split.
  - intros E. apply (Hd _ Hin). rewrite E. by left.
  - destruct (do_slots _ _ _ app_dir (idx_of s x)) as [? _]; [apply elem_of_app; by left|lia].
Qed.

Lemma app_self_ok : dir_ok sb s' (app_inode i).
Proof.
  pose proof (so_mem _ _ (dv_shared _ _ _ Hinv)) as Hm. pose proof app_dir as [Hn (l0 & _ & _) Hobj Hnd Hsl Hhd Hch].
  assert (i_ino (app_inode i) = i_ino i /\ rb_root (app_inode i) = t /\ i_list (app_inode i) = i_list i ++ [d] /\
    log_head (app_inode i) = log_head i /\ ghost_slot (app_inode i) = g) as (Ei & Er & El & Eh & _)
    by (unfold app_inode; destruct (decide (p = q)); done).
  constructor; rewrite ?app_slots, ?Ei, ?Er, ?El, ?Eh.
  - done.
  - exists (l1 ++ d :: l2). split; [exact Ht|]. rewrite <- Hl12. solve_Permutation.
  - intros x [Hx|Hx%list_elem_of_singleton]%elem_of_app.
    + rewrite app_arena, app_dirents. destruct (app_list_d x Hx) as [Hne Hnl]. split; [done|].
      destruct (Hobj x Hx) as (_ & e0 & He0 & Hon). exists e0. rewrite lookup_insert_ne by done. split; [done|].
      eapply agree_entry; [exact Hm| |exact Hon]. apply (agree_sub (IDX2DENT sb (d_idx e0)) 256); [lia|lia|].
      destruct (app_entry_idx x Hx) as [H1 H2]. unfold idx_of in *. rewrite He0 in *. by apply app_other.
    + subst x. destruct app_d as (_ & Hnl & _). rewrite app_arena, app_dirents. split; [done|].
      exists e. rewrite lookup_insert_eq. split; [done|]. by apply append_mem_entry.
  - apply app_nodup.
  - intros k Hk. change [ghost_slot i; g] with ([ghost_slot i] ++ [g]) in Hk. rewrite app_assoc in Hk.
    apply elem_of_app in Hk as [Hk|Hk%list_elem_of_singleton].
    + destruct (Hsl k Hk) as [? ?]. split; [done|]. apply app_used; [|done].
      apply (so_valid _ _ (dv_shared _ _ _ Hinv)). lia.
    + subst k. split; [apply app_g|]. unfold s', append_state. fsimpl. by rewrite Hbu, Z.eqb_refl, orb_true_r.
  - rewrite <- Hhd. unfold slots. by destruct (idx_of s <$> i_list i).
  - rewrite app_bytes. apply (append_chain 5); try done.
    + apply app_g_range.
    + intros k Hk. change [ghost_slot i; g] with ([ghost_slot i] ++ [g]) in Hk. rewrite app_assoc in Hk.
      apply elem_of_app in Hk as [Hk|Hk%list_elem_of_singleton]; [destruct (Hsl k Hk); lia|].
      subst. pose proof app_g. lia.
    + apply app_nodup.
    + apply (so_free _ _ (dv_shared _ _ _ Hinv)); [|done]. by apply (so_valid _ _ (dv_shared _ _ _ Hinv)).
Qed.

Lemma app_other_ok x j j' :
  x ∈ D -> x <> p -> inodes s !! x = Some j -> same_dir j j' -> dir_ok sb s' j'.
Proof.
  intros HxD Hne Hj Hsame. destruct (dv_each _ _ _ Hinv x HxD) as (j0 & Hj0 & Hok). simplify_eq.
  destruct (dv_apart _ _ _ Hinv p x i j HpD HxD ltac:(done) Hi Hj) as (_ & Hapart & _).
  pose proof (dv_shared _ _ _ Hinv) as Hsh.
  eapply dir_ok_frame; [exact Hsame|exact Hok|apply (so_mem _ _ Hsh)|..].
  - intros y Hy. unfold s', append_state. fsimpl. apply lookup_insert_ne.
    destruct (app_lists y x HxD) as [? _]; [eauto|done].
  - intros y Hy. unfold s', append_state. fsimpl. apply (app_lists y x HxD). eauto.
  - intros k Hk. destruct (do_slots _ _ _ Hok k Hk). apply app_used; [|done]. apply (so_valid _ _ Hsh). lia.
  - intros k Hk. destruct (do_slots _ _ _ Hok k Hk). apply app_other; [lia|]. intros ->.
    apply (Hapart (ghost_slot i)); [|done]. apply elem_of_app. right. by left.
  - rewrite app_bytes. eapply only_dent_head; [done|by apply append_mem_only| |apply (do_ino _ _ _ Hok)].
    pose proof app_dno. lia.
Qed.

Lemma app_shared : shared_ok sb s'.
Proof.
  destruct (dv_shared _ _ _ Hinv) as [Hmap Hv Hz Hf Hnd Hal Hm].
  constructor; unfold s', append_state; fsimpl.
  - done.
  - intros k. by rewrite Hbv.
  - rewrite Hbu by (apply Hv; destruct app_g; lia). by rewrite Hz.
  - intros k Hk Hu. rewrite Hbu in Hu by (by apply Hv). apply orb_false_iff in Hu as [Hu Hne%Z.eqb_neq].
    assert (k <> ghost_slot i) by (intros ->; destruct app_dno; congruence).
    erewrite agree_next by (by apply app_other). by apply Hf.
  - rewrite Harena in Hnd. by apply NoDup_cons in Hnd as [_ ?].
  - intros x Hx. apply Hal. rewrite Harena. by right.
  - by apply append_mem_ok.
Qed.

Lemma app_inode_fields :
  i_ino (app_inode i) = i_ino i /\ i_list (app_inode i) = i_list i ++ [d] /\ ghost_slot (app_inode i) = g.
Proof. unfold app_inode. by destruct (decide (p = q)). Qed.

Lemma app_slots_in k : k ∈ slots s' (app_inode i) -> k ∈ slots s i \/ k = g.
Proof.
  rewrite app_slots. unfold slots. rewrite !elem_of_app, !elem_of_cons, elem_of_nil. tauto.
Qed.

Lemma app_apart_self x j j' :
  x ∈ D -> x <> p -> inodes s !! x = Some j -> same_dir j j' ->
  i_ino (app_inode i) <> i_ino j' /\ (forall k, k ∈ slots s' (app_inode i) -> k ∉ slots s' j') /\
  (forall y, y ∈ i_list (app_inode i) -> y ∉ i_list j').
Proof.
  intros HxD Hne Hj (Ei & _ & El & _ & Eg).
  destruct (dv_apart _ _ _ Hinv p x i j HpD HxD ltac:(done) Hi Hj) as (H1 & H2 & H3).
  destruct (dv_each _ _ _ Hinv x HxD) as (j0 & Hj0 & Hok). simplify_eq.
  destruct app_inode_fields as (E1 & E2 & _). rewrite E1, Ei, E2, El.
  assert (slots s' j' = slots s j) as Es.
  { apply slots_ext; [done|done|]. intros y Hy. rewrite app_dirents. apply lookup_insert_ne.
    destruct (app_lists y x HxD) as [? _]; [eauto|done]. }
  rewrite Es. split_and!; [done| |].
  - intros k Hk. destruct (app_slots_in k Hk) as [Hk'| ->]; [by apply H2|].
    intros Hg. destruct (do_slots _ _ _ Hok g Hg). congruence.
  - intros y [Hy|Hy%list_elem_of_singleton]%elem_of_app; [by apply H3|]. subst y. intros Hd0.
    destruct (app_lists d x HxD) as [? _]; [eauto|done].
Qed.

Lemma app_inv : dirs_inv sb s' D.
Proof.
  constructor.
  - apply app_shared.
  - intros x HxD. destruct (decide (x = p)) as [->|Hne].
    + exists (app_inode i). split; [apply app_inodes_p|apply app_self_ok].
    + destruct (dv_each _ _ _ Hinv x HxD) as (j & Hj & _). destruct (app_inodes_other x j Hne Hj) as (j' & Hj' & Hs).
      exists j'. split; [done|]. by eapply app_other_ok.
  - intros x y ix iy HxD HyD Hne Hx Hy.
    assert (forall z iz, z ∈ D -> z <> p -> inodes s' !! z = Some iz ->
      exists j, inodes s !! z = Some j /\ same_dir j iz) as Hback.
    { intros z iz HzD Hz Hiz. destruct (dv_each _ _ _ Hinv z HzD) as (j & Hj & _).
      destruct (app_inodes_other z j Hz Hj) as (j' & Hj' & Hs). exists j. split; [done|]. by simplify_eq. }
    destruct (decide (x = p)) as [->|Hxp]; [|destruct (decide (y = p)) as [->|Hyp]].
    + rewrite app_inodes_p in Hx. injection Hx as <-. destruct (Hback y iy HyD ltac:(done) Hy) as (j & Hj & Hs).
      by eapply app_apart_self.
    + rewrite app_inodes_p in Hy. injection Hy as <-. destruct (Hback x ix HxD Hxp Hx) as (j & Hj & Hs).
      destruct (app_apart_self x j ix HxD Hxp Hj Hs) as (? & H2 & H3). split_and!; [done| |];
      intros k Hk Hk'; [by apply (H2 k)|by apply (H3 k)].
    + destruct (Hback x ix HxD Hxp Hx) as (j & Hj & (E1 & _ & E3 & _ & E5)).
      destruct (Hback y iy HyD Hyp Hy) as (k & Hk & (F1 & _ & F3 & _ & F5)).
      destruct (dv_apart _ _ _ Hinv x y j k HxD HyD Hne Hj Hk) as (H1 & H2 & H3).
      assert (forall z iz jz, z ∈ D -> inodes s !! z = Some jz -> i_list iz = i_list jz -> ghost_slot iz = ghost_slot jz ->
        slots s' iz = slots s jz) as Hsl.
      { intros z iz jz HzD Hjz El Eg. apply slots_ext; [done|done|]. intros w Hw. rewrite app_dirents.
        apply lookup_insert_ne. destruct (app_lists w z HzD) as [? _]; [eauto|done]. }
      rewrite (Hsl x ix j), (Hsl y iy k), E1, F1, E3, F3 by done. done.
Qed.

Lemma app_crash :
  crash_safe (fun m => chain sb m (pm_head sb m (i_ino i)) (slots s i) \/
                       chain sb m (pm_head sb m (i_ino i)) (slots s i ++ [g]) /\
                       load m (IDX2DENT sb (ghost_slot i) + PD_ino) 8 = ino) (dev s) (dev s').
Proof.
  pose proof app_dir as [Hn _ _ _ Hsl _ Hch]. apply app_dev. intros n. set (m := append_mem _ _ _ _ _ _ _ _).
  pose proof (append_chain n (bytes (dev s)) (i_ino i) (idx_of s <$> i_list i) (ghost_slot i) ino its g name
    Hname app_g_range Hn) as Hc. fold m in Hc.
  assert (if (3 <=? n)%nat then chain sb m (pm_head sb m (i_ino i)) (slots s i ++ [g]) else chain sb m (pm_head sb m (i_ino i)) (slots s i)) as Hc'.
  { destruct (3 <=? n)%nat; unfold slots; rewrite <- ?app_assoc; apply Hc; try done; try apply app_nodup.
    1, 3: intros k Hk; change [ghost_slot i; g] with ([ghost_slot i] ++ [g]) in Hk; rewrite app_assoc in Hk;
      apply elem_of_app in Hk as [Hk|Hk%list_elem_of_singleton]; [destruct (Hsl k Hk); lia|subst; pose proof app_g; lia].
    all: apply (so_free _ _ (dv_shared _ _ _ Hinv)); [|done]; by apply (so_valid _ _ (dv_shared _ _ _ Hinv)). }
  destruct (Nat.leb_spec 3 n); [right|by left]. split; [done|]. apply append_mem_ino; [done|done|lia].
Qed.
End appended.

(** What an append does to the directory [i] at [p]: the new entry [d] is last
    on the list and in the log, and describes inode [ino] under [name]. *)
Definition appended (s s' : fs) (p : Z) (i : dram_inode) (d ino its : Z) (name : list Z) : Prop :=
  exists i' g, inodes s' !! p = Some i' /\ i_ino i' = i_ino i /\ i_list i' = i_list i ++ [d] /\ ghost_slot i' = g /\
    slots s' i' = slots s i ++ [g] /\
    dirents s' = <[d := mk_dirent (ghost_slot i) its ino (BKDRHash name)]> (dirents s) /\
    entry_arena s' = tail (entry_arena s) /\
    crash_safe (fun m => chain sb m (pm_head sb m (i_ino i)) (slots s i) \/
                         chain sb m (pm_head sb m (i_ino i)) (slots s i ++ [g]) /\
                         load m (IDX2DENT sb (ghost_slot i) + PD_ino) 8 = ino) (dev s) (dev s') /\
    dir_frame s s' p.

Lemma do_append_spec s D p i ino its bump q name d l :
  dirs_inv sb s D -> p ∈ D -> inodes s !! p = Some i -> entry_arena s = d :: l -> bumps s bump q ->
  name_ok name -> 0 <= ino < 2 ^ 64 -> (forall x, x ∈ i_list i -> hash_of s x <> BKDRHash name) ->
  (exists k, sa_valid (map_dir s) k /\ sa_used (map_dir s) k = false) ->
  exists s', do_append_entry sb cpu p ino its bump name s = Ok (d, s') /\ dirs_inv sb s' D /\
    appended s s' p i d ino its name.
Proof.
  intros Hinv HpD Hi Ha Hb Hn Hino Hfresh (k & Hkv & Hku).
  set (e := mk_dirent (ghost_slot i) its ino (BKDRHash name)).
  destruct (app_d s D p i ino d l Hinv HpD Hi Ha Hino) as (Hdi & Hdl & Hal).
  destruct (dv_each _ _ _ Hinv p HpD) as (i0 & Hi0 & Hok). simplify_eq.
  destruct (do_index _ _ _ Hok) as (lx & Hlx & Hperm).
  assert (index_rep (hash_of (upd_dirents <[d := e]> s)) (rb_root i) lx) as Hlx'.
  { eapply index_rep_hash; [exact Hlx|]. intros a Hal'. unfold hash_of. fsimpl. rewrite lookup_insert_ne; [done|].
    intros <-. apply Hdi. by rewrite <- Hperm. }
  destruct (slot_dirent_alloc_spec cpu (upd_entry_arena (fun _ => l) s)) as (g & b & Hg & Hbi & Hbv & Hgr);
    [apply (so_maps _ _ (dv_shared _ _ _ Hinv))|done|].
  change (map_dir (upd_entry_arena (fun _ => l) s)) with (map_dir s) in *.
  destruct Hgr as [(_ & _ & Hfull)|(Hgv & Hgu & Hbu)]; [by rewrite Hfull in Hku|].
  pose proof (sa_valid_nonneg _ _ Hgv) as Hg0.
  destruct (dir_index_insert_spec (hash_of (upd_dirents <[d := e]> s)) (rb_root i) lx d) as
    [(_ & a & Ha1 & Ha2)|(t & l1 & l2 & Ht & -> & Ht' & _)]; [done|done|by rewrite Hperm| |].
  { exfalso. rewrite Hperm in Ha1. apply (Hfresh a Ha1). unfold hash_of in Ha2 |- *. revert Ha2. fsimpl.
    rewrite lookup_insert_eq, lookup_insert_ne; [done|]. by intros <-. }
  exists (append_state s p q d l b g e t i name). split_and!.
  - eapply do_append_exec; try done. by apply aligned_nz. lia.
  - by eapply app_inv.
  - exists (app_inode p q d g t i), g.
    destruct (app_inode_fields p q i d g t) as (E1 & E2 & E3).
    split_and!; try done.
    + by apply app_inodes_p.
    + etrans; [by eapply app_slots|]. unfold slots. by rewrite <- app_assoc.
    + by rewrite Ha.
    + by eapply app_crash.
    + by eapply app_frame.
Qed.
End append.

(** ** Removing an entry *)

Lemma list_around_app prev l1 d l2 :
  d ∉ l1 -> list_around prev (l1 ++ d :: l2) d =
    Some (match last l1 with Some x => Some x | None => prev end, head l2).
Proof.
  revert prev. induction l1 as [|x l1 IH]; intros prev Hni; simpl.
  - by rewrite Z.eqb_refl.
  - apply not_elem_of_cons in Hni as [Hne Hni]. destruct (Z.eqb_spec x d); [done|]. rewrite IH, last_cons by done.
    by destruct (last l1).
Qed.

Lemma list_del_id l d : d ∉ l -> list_del l d = l.
Proof.
  unfold list_del. induction l as [|x l IH]; intros Hni; [done|]. apply not_elem_of_cons in Hni as [Hne Hni].
  rewrite filter_cons_True by congruence. by rewrite IH.
Qed.
Lemma list_del_app l1 d l2 : d ∉ l1 -> d ∉ l2 -> list_del (l1 ++ d :: l2) d = l1 ++ l2.
Proof.
  intros H1 H2. rewrite <- (list_del_id l1 d H1) at 2. rewrite <- (list_del_id l2 d H2) at 2.
  unfold list_del. rewrite filter_app, filter_cons_False by auto. done.
Qed.

Section remove.
Context (sb : pm_super_block).
Hypothesis Hlo : layout_ok sb.

(** The inode after [dir_remove_entry]; [y] follows the removed slot. *)
Definition rem_inode (i : dram_inode) (d y : Z) (t : rb_tree) (first : bool) : dram_inode :=
  upd_entry_num (fun n => u64 (n - 1)) (upd_i_list (fun l => list_del l d)
    (if first then upd_log_head (fun _ => y) (upd_rb_root (fun _ => t) i) else upd_rb_root (fun _ => t) i)).

Definition remove_state (s : fs) (p : Z) (i : dram_inode) (d x y pp : Z) (t : rb_tree) (first : bool)
    (b : list dram_bitmap) : fs :=
  upd_inodes <[p := rem_inode i d y t first]>
    (upd_entry_arena (cons d) (upd_map_dir (fun _ => b)
      (upd_dev (fun v => pm_update (store (IDX2DENT sb x + PD_next) 8 0) (pm_update (store pp 8 y) v)) s))).

Lemma dir_remove_exec s p i d e l1 l2 t b :
  inodes s !! p = Some i -> dirents s !! d = Some e -> i_list i = l1 ++ d :: l2 -> d ∉ l1 ->
  (forall x, x ∈ i_list i -> is_Some (dirents s !! x)) ->
  rb_erase d (rb_root i) = Ok (tt, t) ->
  log_head i = default (d_idx e) (idx_of s <$> head l1) -> (l1 <> [] -> log_head i <> d_idx e) ->
  do_slot_free MAP_NUM (map_dir s) (d_idx e) = Ok b ->
  let y := default (ghost_slot i) (idx_of s <$> head l2) in
  let pp := match last l1 with
            | None => IDX2INODE sb (i_ino i) + PI_log_head
            | Some pr => IDX2DENT sb (idx_of s pr) + PD_next
            end in
  dir_remove_entry sb p d s =
    Ok (tt, remove_state s p i d (d_idx e) y pp t (match last l1 with None => true | _ => false end) b).
Proof.
  intros Hi He Hl Hni Hobj Ht Hh Hne Hb y pp. unfold dir_remove_entry. fs_step. fs_step.
  rewrite Hl. erewrite M_bind_step by (unfold list_links; rewrite list_around_app by done; reflexivity). cbv beta iota.
  erewrite M_bind_step by (apply on_rbtree_eq; [fs_lk|exact Ht]).
  assert (forall x, x ∈ i_list i -> forall s1, dirents s1 = dirents s -> exists n, dirents s1 !! x = Some n /\ d_idx n = idx_of s x) as Hd.
  { intros x Hx s1 E. destruct (Hobj x Hx) as [n Hn]. exists n. rewrite E. unfold idx_of. by rewrite Hn. }
  erewrite (M_bind_step _ _ _ y).
  2: { subst y. destruct l2 as [|nd l2]; [reflexivity|]. simpl.
    destruct (Hd nd) with (s1 := upd_inodes <[p := upd_rb_root (fun _ => t) i]> s) as (n & Hn & En);
      [rewrite Hl; apply elem_of_app; right; right; by left|done|]. mstep (rd_dirent_eq _ _ _ Hn). by rewrite En. }
  cbv beta. destruct (last l1) as [pr|] eqn:El.
  - assert (l1 <> []) by (by intros ->). rewrite (proj2 (Z.eqb_neq _ _)) by auto.
    destruct (Hd pr) with (s1 := upd_inodes <[p := upd_rb_root (fun _ => t) i]> s) as (n & Hn & En);
      [rewrite Hl; apply elem_of_app; left; by apply last_Some_elem_of|done|].
    erewrite M_bind_step by (mstep (rd_dirent_eq _ _ _ Hn); rewrite En; reflexivity).
    cbv beta. do 2 fs_step.
    erewrite M_bind_step by (unfold slot_dirent_free; mstep eq_refl; unfold lift; fsimpl; rewrite Hb; reflexivity).
    cbv beta. fs_step. fs_step. erewrite upd_inode_eq by fs_lk. do 2 f_equal.
    unfold remove_state, rem_inode. apply fs_ext; fsimpl; try done. by rewrite !insert_insert_eq.
  - apply last_None in El as ->. simpl in Hh. rewrite Hh, Z.eqb_refl.
    erewrite M_bind_step by (fs_step; reflexivity). cbv beta. do 2 fs_step.
    erewrite M_bind_step by (unfold slot_dirent_free; mstep eq_refl; unfold lift; fsimpl; rewrite Hb; reflexivity).
    cbv beta. fs_step. fs_step. erewrite upd_inode_eq by fs_lk. do 2 f_equal.
    unfold remove_state, rem_inode. apply fs_ext; fsimpl; try done. by rewrite !insert_insert_eq.
Qed.

(** The state after a removal, given what its steps found. *)
Section removed.
Context (s : fs) (D : list Z) (p : Z) (i : dram_inode) (d : Z) (e : dirent) (l1 l2 : list Z)
        (t : rb_tree) (lx : list Z) (b : list dram_bitmap).
Local Definition r_x : Z := d_idx e.
Local Definition r_y : Z := default (ghost_slot i) (idx_of s <$> head l2).
Local Definition r_pp : Z := match last l1 with
              | None => IDX2INODE sb (i_ino i) + PI_log_head
              | Some pr => IDX2DENT sb (idx_of s pr) + PD_next
              end.
Local Definition r_first : bool := match last l1 with None => true | _ => false end.
Local Definition r_s' : fs := remove_state s p i d r_x r_y r_pp t r_first b.
Local Definition r_i' : dram_inode := rem_inode i d r_y t r_first.
Hypothesis Hinv : dirs_inv sb s D.
Hypothesis HpD : p ∈ D.
Hypothesis Hi : inodes s !! p = Some i.
Hypothesis Hd : dirents s !! d = Some e.
Hypothesis Hl : i_list i = l1 ++ d :: l2.
Hypothesis Ht : index_rep (hash_of s) t lx.
Hypothesis Hlx : (lx ≡ₚ l1 ++ l2).
Hypothesis Hbi : sa_inv b.
Hypothesis Hbv : forall k, sa_valid b k <-> sa_valid (map_dir s) k.
Hypothesis Hbu : forall k, sa_valid (map_dir s) k -> sa_used b k = sa_used (map_dir s) k && negb (k =? r_x).

Lemma rem_dir : dir_ok sb s i.
Proof. destruct (dv_each _ _ _ Hinv p HpD) as (i0 & Hi0 & Hok). by simplify_eq. Qed.

Lemma rem_list_nodup : NoDup (l1 ++ d :: l2).
Proof.
  destruct (do_index _ _ _ rem_dir) as (l0 & H0 & Hp). rewrite <- Hl, <- Hp. by eapply index_rep_nodup.
Qed.
Lemma rem_notin : (d ∉ l1) /\ (d ∉ l2).
Proof.
  pose proof rem_list_nodup as Hnd. apply NoDup_app in Hnd as (_ & H1 & H2). apply NoDup_cons in H2 as [? _].
  split; [|done]. intros Hin. apply (H1 d Hin). by left.
Qed.

(** The slots after the removed one. *)
Definition r_rest : list Z := (idx_of s <$> l2) ++ [ghost_slot i].
Lemma rest_cons : r_rest = r_y :: tail r_rest.
Proof. unfold r_rest, r_y. by destruct l2. Qed.
Lemma rem_idx : idx_of s d = r_x.
Proof. unfold idx_of. by rewrite Hd. Qed.
Lemma rem_slots_old : slots s i = (idx_of s <$> l1) ++ r_x :: r_rest.
Proof. unfold slots, r_rest. rewrite Hl, fmap_app. simpl. rewrite rem_idx. by rewrite <- app_assoc. Qed.

Lemma rem_fields : i_ino r_i' = i_ino i /\ rb_root r_i' = t /\ i_list r_i' = l1 ++ l2 /\ ghost_slot r_i' = ghost_slot i /\
  log_head r_i' = if r_first then r_y else log_head i.
Proof.
  destruct rem_notin. assert (list_del (i_list i) d = l1 ++ l2) as E by (rewrite Hl; by apply list_del_app).
  unfold r_i', rem_inode. by destruct r_first; fsimpl.
Qed.

Lemma rem_slots : slots r_s' r_i' = (idx_of s <$> l1) ++ r_rest.
Proof.
  destruct rem_fields as (_ & _ & El & Eg & _). unfold slots, r_rest. rewrite El, Eg, app_assoc, <- fmap_app. done.
Qed.

Lemma rem_nodup : NoDup ((idx_of s <$> l1) ++ r_x :: r_rest).
Proof. rewrite <- rem_slots_old. apply (do_nodup _ _ _ rem_dir). Qed.

Lemma rem_valid k : k ∈ (idx_of s <$> l1) ++ r_x :: r_rest -> 0 < k < slot_num (sb_dir sb) /\ sa_used (map_dir s) k = true.
Proof. rewrite <- rem_slots_old. apply (do_slots _ _ _ rem_dir). Qed.

Lemma rem_sub k : k ∈ (idx_of s <$> l1) ++ r_rest -> k ∈ (idx_of s <$> l1) ++ r_x :: r_rest /\ k <> r_x.
Proof.
  intros Hk. split; [rewrite elem_of_app, elem_of_cons; apply elem_of_app in Hk; tauto|]. intros ->.
  pose proof rem_nodup as Hnd. apply NoDup_app in Hnd as (_ & H1 & H2). apply NoDup_cons in H2 as [? _].
  apply elem_of_app in Hk as [Hk|Hk]; [|done]. apply (H1 r_x Hk). by left.
Qed.

Lemma rem_x : 0 < r_x < slot_num (sb_dir sb) /\ sa_used (map_dir s) r_x = true.
Proof. apply rem_valid. rewrite elem_of_app, elem_of_cons. auto. Qed.
Lemma rem_y : 0 < r_y < slot_num (sb_dir sb).
Proof. apply rem_valid. rewrite rest_cons, elem_of_app, !elem_of_cons. auto. Qed.
Lemma rem_prev pr : last l1 = Some pr -> 0 < idx_of s pr < slot_num (sb_dir sb) /\ sa_used (map_dir s) (idx_of s pr) = true /\ idx_of s pr <> r_x.
Proof.
  intros Hp. assert (idx_of s pr ∈ (idx_of s <$> l1) ++ r_rest) as Hin.
  { apply elem_of_app. left. apply list_elem_of_fmap. exists pr. split; [done|]. by apply last_Some_elem_of. }
  apply rem_sub in Hin as [Hin Hne]. destruct (rem_valid _ Hin). done.
Qed.

(** The two stores. *)
Local Definition r_m0 : mem := bytes (dev s).
Local Definition r_m1 : mem := store r_pp 8 r_y r_m0.
Local Definition r_m2 : mem := store (IDX2DENT sb r_x + PD_next) 8 0 r_m1.

Lemma rem_i64 k : 0 < k < slot_num (sb_dir sb) -> - 2 ^ 63 <= k < 2 ^ 63.
Proof. destruct Hlo as [_ _ _ (_ & [? _] & _) _ _]. lia. Qed.

Lemma rem_pp_dent k : 0 <= k < slot_num (sb_dir sb) -> (forall pr, last l1 = Some pr -> idx_of s pr <> k) ->
  agree (IDX2DENT sb k) 256 r_m0 r_m1.
Proof.
  intros Hk Hne. apply store_agree. unfold r_pp. destruct (last l1) as [pr|] eqn:E.
  - destruct (rem_prev pr E) as (Hr & _). destruct (dent_apart sb Hlo (idx_of s pr) k); [lia|done|by apply Hne|..];
      unfold PD_next; simpl; lia.
  - pose proof (inode_below_dent sb Hlo (i_ino i) k (do_ino _ _ _ rem_dir) Hk). unfold PI_log_head. simpl. lia.
Qed.

Lemma rem_entry1 k : 0 <= k < slot_num (sb_dir sb) -> agree (IDX2DENT sb k) 88 r_m0 r_m1.
Proof.
  intros Hk. destruct (last l1) as [pr|] eqn:E.
  - destruct (decide (idx_of s pr = k)) as [<-|Hne].
    + apply store_agree. unfold r_pp. rewrite ?E. unfold PD_next. lia.
    + eapply agree_sub; [| |apply (rem_pp_dent k); [done|intros ? E0; rewrite E in E0; by injection E0 as <-]]; lia.
  - eapply agree_sub; [| |apply (rem_pp_dent k); [done|intros ? E0; by rewrite E in E0]]; lia.
Qed.
Lemma rem_entry2 k : 0 <= k < slot_num (sb_dir sb) -> agree (IDX2DENT sb k) 88 r_m0 r_m2.
Proof.
  intros Hk. eapply agree_trans; [by apply rem_entry1|]. apply store_agree. unfold PD_next.
  destruct (decide (r_x = k)) as [->|Hne]; [lia|]. destruct (dent_apart sb Hlo r_x k); simpl; try lia; try done.
  pose proof rem_x. lia.
Qed.

Lemma rem_next1 k : 0 <= k < slot_num (sb_dir sb) ->
  dent_next sb r_m1 k = match last l1 with
                      | Some pr => if decide (k = idx_of s pr) then r_y else dent_next sb r_m0 k
                      | None => dent_next sb r_m0 k
                      end.
Proof.
  intros Hk. destruct (last l1) as [pr|] eqn:E; [destruct (decide (k = idx_of s pr)) as [->|Hne]|].
  - unfold dent_next, r_m1, r_pp. rewrite ?E. apply load_store_i64. apply rem_i64, rem_y.
  - apply agree_next, rem_pp_dent; [done|]. intros ? E0. rewrite E in E0. injection E0 as <-. congruence.
  - apply agree_next, rem_pp_dent; [done|]. intros ? E0. by rewrite E in E0.
Qed.
Lemma rem_next2 k : 0 <= k < slot_num (sb_dir sb) -> dent_next sb r_m2 k = if decide (k = r_x) then 0 else dent_next sb r_m1 k.
Proof.
  intros Hk. destruct (decide (k = r_x)) as [->|Hne].
  - unfold dent_next, r_m2. apply load_store_i64. lia.
  - apply agree_next, store_agree. unfold PD_next. pose proof rem_x.
    destruct (dent_apart sb Hlo r_x k); simpl; try lia; done.
Qed.

Lemma rem_head1 ino : 0 <= ino < slot_num (sb_inode sb) ->
  pm_head sb r_m1 ino = match last l1 with
                      | Some _ => pm_head sb r_m0 ino
                      | None => if decide (ino = i_ino i) then r_y else pm_head sb r_m0 ino
                      end.
Proof.
  intros Hk. pose proof (do_ino _ _ _ rem_dir) as Hino. destruct (last l1) as [pr|] eqn:E; [|destruct (decide (ino = i_ino i)) as [->|Hne]].
  - unfold pm_head. f_equal. apply load_agree, store_agree. unfold r_pp. rewrite ?E. unfold PD_next, PI_log_head.
    destruct (rem_prev pr E) as (Hr & _). pose proof (inode_below_dent sb Hlo ino (idx_of s pr) Hk). simpl. lia.
  - unfold pm_head, r_m1, r_pp. rewrite ?E. apply load_store_i64. apply rem_i64, rem_y.
  - unfold pm_head. f_equal. apply load_agree, store_agree. unfold r_pp. rewrite ?E. unfold PI_log_head.
    rewrite !IDX2INODE_eq by done. simpl. lia.
Qed.
Lemma rem_head2 ino : 0 <= ino < slot_num (sb_inode sb) -> pm_head sb r_m2 ino = pm_head sb r_m1 ino.
Proof.
  intros Hk. unfold pm_head. f_equal. apply load_agree, store_agree. unfold PD_next, PI_log_head.
  pose proof rem_x. pose proof (inode_below_dent sb Hlo ino r_x Hk). simpl. lia.
Qed.

Lemma rem_chain1 : chain sb r_m1 (pm_head sb r_m1 (i_ino i)) ((idx_of s <$> l1) ++ r_rest).
Proof.
  pose proof (do_chain _ _ _ rem_dir) as Hc. rewrite rem_slots_old in Hc. fold r_m0 in Hc.
  rewrite rem_head1 by apply (do_ino _ _ _ rem_dir).
  assert (forall k, k ∈ (idx_of s <$> l1) ++ r_x :: r_rest -> 0 <= k < slot_num (sb_dir sb)) as Hv.
  { intros k Hk. destruct (rem_valid k Hk). lia. }
  pose proof rem_nodup as Hnd. destruct (last l1) as [pr|] eqn:E.
  - assert (exists A, idx_of s <$> l1 = A ++ [idx_of s pr]) as (A & EA).
    { apply last_Some in E as [l3 ->]. exists (idx_of s <$> l3). by rewrite fmap_app. }
    rewrite EA, rest_cons, <- !app_assoc in Hc, Hnd, Hv |- *. simpl in Hc, Hnd, Hv |- *.
    eapply chain_remove; [exact Hc|exact Hnd| |].
    + intros k Hne Hk. rewrite rem_next1, E by (apply Hv; rewrite elem_of_app, !elem_of_cons in Hk; rewrite elem_of_app, !elem_of_cons; tauto).
      by rewrite decide_False.
    + rewrite rem_next1, E by (apply Hv; rewrite elem_of_app, !elem_of_cons; auto). by rewrite decide_True.
  - apply last_None in E as E1. rewrite decide_True by done.
    assert (idx_of s <$> l1 = []) as EA by (by rewrite E1). rewrite EA in Hc, Hv |- *. simpl in Hc, Hv |- *. destruct Hc as [_ Hc].
    assert (dent_next sb r_m0 r_x = r_y) as Ey by (rewrite rest_cons in Hc; apply Hc). rewrite Ey in Hc.
    eapply dent_chain_ext; [|exact Hc]. intros k Hk. rewrite rem_next1, E by (apply Hv; by right). done.
Qed.

Lemma rem_chain2 : chain sb r_m2 (pm_head sb r_m2 (i_ino i)) ((idx_of s <$> l1) ++ r_rest).
Proof.
  rewrite rem_head2 by apply (do_ino _ _ _ rem_dir). eapply dent_chain_ext; [|exact rem_chain1].
  intros k Hk. apply rem_sub in Hk as [Hk Hne]. destruct (rem_valid k Hk). rewrite rem_next2 by lia. by rewrite decide_False.
Qed.

Lemma rem_bytes : bytes (dev r_s') = r_m2.
Proof. done. Qed.
Lemma rem_dirents : dirents r_s' = dirents s.
Proof. done. Qed.
Lemma rem_arena : entry_arena r_s' = d :: entry_arena s.
Proof. done. Qed.
Lemma rem_map : map_dir r_s' = b.
Proof. done. Qed.
Lemma rem_inodes z : inodes r_s' !! z = if decide (z = p) then Some r_i' else inodes s !! z.
Proof.
  unfold r_s', remove_state. fsimpl. destruct (decide (z = p)) as [->|]; [apply lookup_insert_eq|by apply lookup_insert_ne].
Qed.

Lemma rem_frame : dir_frame sb s r_s' p.
Proof.
  constructor; try done.
  - intros x j Hne Hj. exists j. rewrite rem_inodes, decide_False by done. split; [done|]. by split.
  - intros j j' Hj Hj'. rewrite rem_inodes, decide_True in Hj' by done. injection Hj' as <-. rewrite Hi in Hj. injection Hj as <-.
    unfold r_i', rem_inode. by destruct r_first.
  - intros x j Hne Hj. exists (entry_num j). rewrite rem_inodes, decide_False by done. rewrite Hj. by destruct j.
  - intros j Hj. rewrite Hi in Hj. injection Hj as <-. pose proof rem_x as Hrx.
    assert (beside_dir sb i r_m0 r_m1) as H1.
    { intros x Hx Hk. apply (store_agree _ _ _ _ x 1); [|lia].
      unfold r_pp. destruct (last l1) as [pr|] eqn:E; unfold PD_next, PI_log_head; simpl; [|lia].
      destruct (rem_prev pr E) as (Hr & _). specialize (Hk (idx_of s pr) ltac:(lia)). lia. }
    split; [exists [r_m1; r_m0]; split; [done|]; rewrite !Forall_cons; by split_and!|].
    rewrite rem_bytes. intros x Hx Hk. transitivity (r_m1 x); [|by apply H1]. apply (store_agree _ _ _ _ x 1); [|lia].
    specialize (Hk r_x ltac:(lia)). unfold PD_next. simpl. lia.
Qed.

Lemma rem_mem_ok : mem_ok r_m2.
Proof. apply store_ok, store_ok. apply (so_mem _ _ (dv_shared _ _ _ Hinv)). Qed.

Lemma rem_used k : 0 <= k < slot_num (sb_dir sb) -> sa_used b k = sa_used (map_dir s) k && negb (k =? r_x).
Proof. intros Hk. apply Hbu. by apply (so_valid _ _ (dv_shared _ _ _ Hinv)). Qed.

Lemma rem_self_ok : dir_ok sb r_s' r_i'.
Proof.
  destruct rem_fields as (Ei & Er & El & Eg & Eh). pose proof rem_dir as [Hn _ Hobj _ _ Hhd _].
  destruct rem_notin as [Hn1 Hn2].
  constructor; rewrite ?rem_slots, ?Ei, ?Er, ?El, ?Eh, ?rem_bytes, ?rem_map, ?rem_arena, ?rem_dirents.
  - done.
  - exists lx. split; [exact Ht|done].
  - intros z Hz. assert (z ∈ i_list i /\ z <> d) as [Hzi Hzd].
    { rewrite Hl, elem_of_app, elem_of_cons. apply elem_of_app in Hz as [Hz|Hz]; (split; [tauto|by intros ->]). }
    destruct (Hobj z Hzi) as (Hza & ez & Hez & Hon). split; [by rewrite not_elem_of_cons|].
    exists ez. split; [done|]. eapply agree_entry; [apply (so_mem _ _ (dv_shared _ _ _ Hinv))| |exact Hon].
    apply rem_entry2. destruct (do_slots _ _ _ rem_dir (idx_of s z)) as [Hv _].
    { apply elem_of_app. left. apply list_elem_of_fmap. by exists z. }
    unfold idx_of in Hv. rewrite Hez in Hv. lia.
  - pose proof rem_nodup as Hnd. rewrite NoDup_app in Hnd |- *. rewrite NoDup_cons in Hnd. destruct Hnd as (? & H1 & ? & ?).
    split_and!; [done| |done]. intros k Hk Hk'. apply (H1 k Hk). by right.
  - intros k Hk. apply rem_sub in Hk as [Hk Hne]. destruct (rem_valid k Hk). split; [done|].
    rewrite rem_used by lia. apply andb_true_iff. split; [done|]. by rewrite (proj2 (Z.eqb_neq k r_x)).
  - rewrite rem_slots_old in Hhd. unfold r_first. destruct (last l1) as [pr|] eqn:E.
    + destruct l1; [done|]. done.
    + apply last_None in E. rewrite E. simpl. by rewrite rest_cons.
  - apply rem_chain2.
Qed.

Lemma rem_shared : shared_ok sb r_s'.
Proof.
  destruct (dv_shared _ _ _ Hinv) as [Hmap Hv Hz Hf Hnd Hal Hm].
  destruct (do_objs _ _ _ rem_dir d) as [Hda _]; [rewrite Hl, elem_of_app, elem_of_cons; auto|].
  constructor; rewrite ?rem_bytes, ?rem_map, ?rem_arena.
  - done.
  - intros k. by rewrite Hbv.
  - rewrite rem_used by (pose proof rem_x; lia). rewrite Hz. destruct (Z.eqb_spec 0 r_x); [pose proof rem_x; lia|done].
  - intros k Hk Hu. rewrite rem_used in Hu by done. rewrite rem_next2 by done.
    destruct (decide (k = r_x)); [done|]. rewrite (proj2 (Z.eqb_neq k r_x)), andb_true_r in Hu by done.
    rewrite rem_next1 by done. destruct (last l1) as [pr|] eqn:E; [|by apply Hf].
    destruct (rem_prev pr E) as (_ & Hpu & _). rewrite decide_False; [by apply Hf|]. intros ->. congruence.
  - by apply NoDup_cons.
  - intros z [->|Hz0]%elem_of_cons; [|by apply Hal]. destruct (do_index _ _ _ rem_dir) as (l0 & H0 & Hp).
    eapply index_rep_aligned; [exact H0|]. rewrite Hp, Hl, elem_of_app, elem_of_cons. auto.
  - apply rem_mem_ok.
Qed.

Lemma rem_other_ok z j : z ∈ D -> z <> p -> inodes s !! z = Some j -> dir_ok sb r_s' j.
Proof.
  intros HzD Hne Hj. destruct (dv_each _ _ _ Hinv z HzD) as (j0 & Hj0 & Hok). simplify_eq.
  destruct (dv_apart _ _ _ Hinv p z i j HpD HzD ltac:(done) Hi Hj) as (Hino & Hsl & Hls).
  rewrite rem_slots_old in Hsl. rewrite Hl in Hls.
  eapply dir_ok_frame; [by destruct j|exact Hok|apply (so_mem _ _ (dv_shared _ _ _ Hinv))|..].
  - done.
  - intros w Hw. rewrite rem_arena, not_elem_of_cons. destruct (do_objs _ _ _ Hok w Hw) as [? _]. split; [|done].
    intros ->. apply (Hls d); [|done]. rewrite elem_of_app, elem_of_cons. auto.
  - intros k Hk. destruct (do_slots _ _ _ Hok k Hk) as [Hk1 Hk2]. rewrite rem_map, rem_used, Hk2 by lia.
    destruct (Z.eqb_spec k r_x) as [->|]; [|done]. exfalso. apply (Hsl r_x); [|done]. rewrite elem_of_app, elem_of_cons. auto.
  - intros k Hk. destruct (do_slots _ _ _ Hok k Hk) as [Hk1 Hk2]. rewrite rem_bytes.
    assert (k <> r_x) as Hkx.
    { intros ->. apply (Hsl r_x); [|done]. rewrite elem_of_app, elem_of_cons. auto. }
    eapply agree_trans; [apply rem_pp_dent; [lia|]|].
    + intros pr Hpr <-. apply (Hsl (idx_of s pr)); [|done]. apply elem_of_app. left. apply list_elem_of_fmap.
      exists pr. split; [done|]. by apply last_Some_elem_of.
    + apply store_agree. unfold PD_next. pose proof rem_x. destruct (dent_apart sb Hlo r_x k); simpl; try lia; done.
  - pose proof (do_ino _ _ _ Hok). rewrite rem_bytes, rem_head2, rem_head1 by done.
    destruct (last l1); [done|]. rewrite decide_False; [done|]. congruence.
Qed.

Lemma rem_slots_in k : k ∈ slots r_s' r_i' -> k ∈ slots s i.
Proof. rewrite rem_slots, rem_slots_old. intros Hk. by apply rem_sub in Hk as [? _]. Qed.

Lemma rem_inv : dirs_inv sb r_s' D.
Proof.
  constructor; [apply rem_shared| |].
  - intros z HzD. rewrite rem_inodes. destruct (decide (z = p)) as [->|Hne]; [exists r_i'; split; [done|apply rem_self_ok]|].
    destruct (dv_each _ _ _ Hinv z HzD) as (j & Hj & _). exists j. split; [done|]. by eapply rem_other_ok.
  - destruct rem_fields as (Ei & _ & El & _ & _).
    assert (forall w, w ∈ i_list r_i' -> w ∈ i_list i) as Hlin.
    { intros w. rewrite El, Hl, !elem_of_app, elem_of_cons. tauto. }
    intros z w iz iw HzD HwD Hne. rewrite !rem_inodes.
    assert (forall j, slots r_s' j = slots s j) as Hsl by done. rewrite ?Hsl.
    destruct (decide (z = p)) as [->|Hz], (decide (w = p)) as [->|Hw]; intros Hiz Hiw; try done.
    + injection Hiz as <-. destruct (dv_apart _ _ _ Hinv p w i iw HpD HwD Hne Hi Hiw) as (? & H2 & H3). rewrite Ei.
      split_and!; [done|intros k Hk; by apply H2, rem_slots_in|intros k Hk; by apply H3, Hlin].
    + injection Hiw as <-. destruct (dv_apart _ _ _ Hinv z p iz i HzD HpD Hne Hiz Hi) as (? & H2 & H3). rewrite Ei.
      split_and!; [done|intros k Hk Hk'; by apply (H2 k Hk), rem_slots_in|intros k Hk Hk'; by apply (H3 k Hk), Hlin].
    + by apply (dv_apart _ _ _ Hinv z w).
Qed.

Lemma rem_crash :
  crash_safe (fun m => chain sb m (pm_head sb m (i_ino i)) (slots s i) \/
                       chain sb m (pm_head sb m (i_ino i)) (list_del (slots s i) r_x)) (dev s) (dev r_s').
Proof.
  assert (list_del (slots s i) r_x = (idx_of s <$> l1) ++ r_rest) as E.
  { rewrite rem_slots_old. pose proof rem_nodup as Hnd. apply NoDup_app in Hnd as (_ & H1 & H2).
    apply NoDup_cons in H2 as [? _]. apply list_del_app; [|done]. intros Hin. apply (H1 _ Hin). by left. }
  rewrite E. split; [|right; apply rem_chain2].
  exists [r_m1; r_m0]. split; [done|]. rewrite !Forall_cons. split_and!; [right; apply rem_chain1|left|done].
  apply (do_chain _ _ _ rem_dir).
Qed.
End removed.
End remove.

(** ** The operations *)

Section ops.
Context (sb : pm_super_block) (cpu : Z).
Hypothesis Hlo : layout_ok sb.
Hypothesis Hcpu : 0 <= cpu.

Lemma dirent_lookup_spec s p i hash :
  inodes s !! p = Some i -> dir_ok sb s i ->
  exists a, dirent_lookup p hash s = Ok (a, s) /\
    (a <> 0 -> a ∈ i_list i /\ hash_of s a = hash) /\
    (a = 0 -> forall x, x ∈ i_list i -> hash_of s x <> hash).
Proof.
  intros Hi Hok. destruct (do_index _ _ _ Hok) as (l & Hl & Hp).
  destruct (index_lookup_spec (hash_of s) (rb_root i) l hash Hl) as (a & Ha & Hnz & Hz).
  exists a. split; [|split].
  - unfold dirent_lookup. mstep eq_refl. by apply (on_rbtree_read s p i).
  - intros Hne. destruct (Hnz Hne) as [Hin ?]. split; [by rewrite <- Hp|done].
  - intros H0 x Hx. apply (Hz H0). by rewrite Hp.
Qed.

(** An entry is found by its own hash. *)
Lemma dirent_lookup_hit s p i d :
  inodes s !! p = Some i -> dir_ok sb s i -> d ∈ i_list i -> dirent_lookup p (hash_of s d) s = Ok (d, s).
Proof.
  intros Hi Hok Hd. destruct (dirent_lookup_spec s p i (hash_of s d) Hi Hok) as (a & Ha & Hnz & Hz).
  rewrite Ha. do 2 f_equal. destruct (decide (a = 0)) as [H0|H0]; [by destruct (Hz H0 d Hd)|].
  destruct (Hnz H0) as [Hin He]. destruct (do_index _ _ _ Hok) as (l & Hl & Hp).
  apply (index_rep_hash_inj (hash_of s) (rb_root i) l); rewrite ?Hp; done.
Qed.

(** What a removal does: the entry leaves the list and the log, its slot and
    its object are free again. *)
Definition removed (s s' : fs) (p : Z) (i : dram_inode) (d : Z) (e : dirent) : Prop :=
  exists i', inodes s' !! p = Some i' /\ i_ino i' = i_ino i /\ i_list i' = list_del (i_list i) d /\
    slots s' i' = list_del (slots s i) (d_idx e) /\
    dirents s' = dirents s /\ entry_arena s' = d :: entry_arena s /\
    sa_used (map_dir s') (d_idx e) = false /\
    crash_safe (fun m => chain sb m (pm_head sb m (i_ino i)) (slots s i) \/
                         chain sb m (pm_head sb m (i_ino i)) (list_del (slots s i) (d_idx e))) (dev s) (dev s') /\
    dir_frame sb s s' p.

Lemma dir_remove_spec s D p i d e :
  dirs_inv sb s D -> p ∈ D -> inodes s !! p = Some i -> d ∈ i_list i -> dirents s !! d = Some e ->
  exists s', dir_remove_entry sb p d s = Ok (tt, s') /\ dirs_inv sb s' D /\ removed s s' p i d e.
Proof.
  intros Hinv HpD Hi Hd He. apply list_elem_of_split in Hd as (l1 & l2 & Hl).
  pose proof (rem_dir sb s D p i Hinv HpD Hi) as Hok.
  destruct (rem_notin sb s D p i d l1 l2 Hinv HpD Hi Hl) as [Hn1 Hn2].
  destruct (do_index _ _ _ Hok) as (l0 & H0 & Hp).
  destruct (index_erase_spec (hash_of s) (rb_root i) l0 d H0) as (t & la & lb & Ht & Hl0 & Ht' & _).
  { rewrite Hp, Hl, elem_of_app, elem_of_cons. auto. }
  assert (la ++ lb ≡ₚ l1 ++ l2) as Hperm.
  { apply (Permutation_cons_inv (a := d)). rewrite (Permutation_middle la lb d), <- Hl0, Hp, Hl. symmetry. apply Permutation_middle. }
  destruct (rem_x sb s D p i d e l1 l2 Hinv HpD Hi He Hl) as [Hxr Hxu]. unfold r_x in *.
  pose proof (dv_shared _ _ _ Hinv) as Hsh.
  destruct (sa_free_ok (map_dir s) (d_idx e) (so_maps _ _ Hsh)) as (b & Hb & Hbi & Hbv & Hbu);
    [apply (so_valid _ _ Hsh); lia|done|].
  pose proof (do_head _ _ _ Hok) as Hhd. rewrite (rem_slots_old s i d e l1 l2 He Hl) in Hhd.
  unfold r_x in Hhd.
  exists (r_s' sb s p i d e l1 l2 t b). split; [apply (dir_remove_exec sb s p i d e l1 l2 t b); try done|].
  - intros z Hz. destruct (do_objs _ _ _ Hok z Hz) as (_ & ez & Hez & _). by rewrite Hez.
  - destruct l1; simpl in Hhd |- *; congruence.
  - intros Hne. destruct l1 as [|z l1]; [done|]. simpl in Hhd. injection Hhd as <-.
    pose proof (rem_nodup sb s D p i d e _ l2 Hinv HpD Hi He Hl) as Hnd. simpl in Hnd.
    apply NoDup_cons in Hnd as [Hni _]. intros E. apply Hni. rewrite elem_of_app, elem_of_cons. auto.
  - split; [by eapply rem_inv|]. exists (r_i' s i d l1 l2 t).
    destruct (rem_fields sb s D p i d l1 l2 t Hinv HpD Hi Hl) as (E1 & _ & E2 & _).
    split_and!; try done.
    + rewrite rem_inodes. by rewrite decide_True.
    + rewrite E2, Hl. symmetry. by apply list_del_app.
    + erewrite rem_slots by done. pose proof (rem_nodup sb s D p i d e l1 l2 Hinv HpD Hi He Hl) as Hnd.
      rewrite (rem_slots_old s i d e l1 l2 He Hl). symmetry. apply NoDup_app in Hnd as (_ & H1 & H2).
      apply NoDup_cons in H2 as [? _]. apply list_del_app; [|done]. intros Hin. apply (H1 _ Hin). by left.
    + rewrite rem_map, Hbu by (apply (so_valid _ _ Hsh); lia). by rewrite Z.eqb_refl, andb_false_r.
    + by eapply rem_crash.
    + by eapply rem_frame.
Qed.

Lemma bumps_heap s q iq :
  inodes s !! q = Some iq -> bumps s (upd_inode q (upd_entry_num (fun n => u64 (n + 1)))) q.
Proof.
  intros Hq s' Hdom. apply upd_inode_alter. apply elem_of_dom. rewrite Hdom. apply elem_of_dom. by rewrite Hq.
Qed.

Lemma dir_append_spec s D p q i iq name d l :
  dirs_inv sb s D -> p ∈ D -> inodes s !! p = Some i -> inodes s !! q = Some iq ->
  entry_arena s = d :: l -> name_ok name -> 0 <= i_ino iq < 2 ^ 64 ->
  (forall x, x ∈ i_list i -> hash_of s x <> BKDRHash name) ->
  (exists k, sa_valid (map_dir s) k /\ sa_used (map_dir s) k = false) ->
  exists s', dir_append_entry sb cpu p q name s = Ok (d, s') /\ dirs_inv sb s' D /\
    appended sb s s' p i d (i_ino iq) (i_ts iq) name.
Proof.
  intros Hinv HpD Hi Hq Ha Hn Hino Hf Hk. unfold dir_append_entry. fs_step.
  eapply do_append_spec; try done. by eapply bumps_heap.
Qed.

Lemma appended_lookup s s' D p i d ino its name :
  dirs_inv sb s' D -> p ∈ D -> appended sb s s' p i d ino its name -> dirent_lookup p (BKDRHash name) s' = Ok (d, s').
Proof.
  intros Hinv HpD (i' & g & Hi' & _ & El & _ & _ & Ed & _).
  destruct (dv_each _ _ _ Hinv p HpD) as (i0 & Hi0 & Hok). simplify_eq.
  rewrite <- (dirent_lookup_hit s' p i' d); [|done|done|rewrite El; apply elem_of_app; right; by left].
  unfold hash_of. by rewrite Ed, lookup_insert_eq.
Qed.

(** ** Properties *)

(** C37: In a well-formed directory, [inode_lookup] returns the entry whose
    name has the hash of the name it is given, or NULL when there is none;
    for anything but a directory it returns [ENOTDIR].  It changes nothing. *)
Theorem inode_lookup_correct s p i name :
  inodes s !! p = Some i -> (is_dir i = true -> dir_ok sb s i) ->
  exists a, inode_lookup p name s = Ok (a, s) /\
    (is_dir i = false -> a = ENOTDIR) /\
    (is_dir i = true ->
      (a <> 0 -> a ∈ i_list i /\ hash_of s a = BKDRHash name) /\
      (a = 0 -> forall x, x ∈ i_list i -> hash_of s x <> BKDRHash name)).
Proof.
  intros Hi Hok. unfold inode_lookup. fs_step. destruct (is_dir i); simpl.
  - destruct (dirent_lookup_spec s p i (BKDRHash name) Hi (Hok eq_refl)) as (a & Ha & H1 & H2).
    exists a. split; [done|]. split; [done|]. auto.
  - exists ENOTDIR. by split.
Qed.


(** C9: [dir_remove_entry] of an entry of a well-formed directory succeeds:
    the entry leaves the list, the index and the log, its slot and its object
    are free, all directories stay well formed, no lookup finds its hash any
    more, and at every store the chain on the device is the old one or the old
    one without the slot. *)
Theorem dir_remove_entry_correct s D p i d e :
  dirs_inv sb s D -> p ∈ D -> inodes s !! p = Some i -> d ∈ i_list i -> dirents s !! d = Some e ->
  exists s', dir_remove_entry sb p d s = Ok (tt, s') /\ dirs_inv sb s' D /\
    removed s s' p i d e /\ dirent_lookup p (d_hash e) s' = Ok (0, s').
Proof.
  intros Hinv HpD Hi Hd He. destruct (dir_remove_spec s D p i d e) as (s' & Hs' & Hinv' & Hrem); try done.
  exists s'. split_and!; try done. destruct Hrem as (i' & Hi' & _ & El & _ & Ed & _).
  destruct (dv_each _ _ _ Hinv' p HpD) as (i0 & Hi0 & Hok'). simplify_eq.
  destruct (dirent_lookup_spec s' p i' (d_hash e) Hi' Hok') as (a & Ha & Hnz & _). rewrite Ha.
  destruct (decide (a = 0)) as [->|H0]; [done|]. destruct (Hnz H0) as [Hin Hh]. exfalso.
  rewrite El in Hin. apply list_elem_of_filter in Hin as [Hne Hin].
  destruct (dv_each _ _ _ Hinv p HpD) as (i0 & Hi0' & Hok). simplify_eq.
  destruct (do_index _ _ _ Hok) as (l0 & H1 & Hp). apply Hne.
  apply (index_rep_hash_inj (hash_of s) (rb_root i) l0); rewrite ?Hp; try done.
  unfold hash_of in Hh |- *. rewrite Ed in Hh. by rewrite Hh, He.
Qed.

(** Appending an entry and removing it again leaves the entries of the
    directory as they were, whatever the state between. *)
Theorem dir_append_remove s D p q i iq name d l :
  dirs_inv sb s D -> p ∈ D -> inodes s !! p = Some i -> inodes s !! q = Some iq ->
  entry_arena s = d :: l -> name_ok name -> 0 <= i_ino iq < 2 ^ 64 ->
  (forall x, x ∈ i_list i -> hash_of s x <> BKDRHash name) ->
  (exists k, sa_valid (map_dir s) k /\ sa_used (map_dir s) k = false) ->
  exists s1 s2 i2, dir_append_entry sb cpu p q name s = Ok (d, s1) /\
    dir_remove_entry sb p d s1 = Ok (tt, s2) /\ dirs_inv sb s2 D /\
    inodes s2 !! p = Some i2 /\ i_list i2 = i_list i /\ entry_arena s2 = entry_arena s /\
    (forall x, x ∈ i_list i -> dirents s2 !! x = dirents s !! x).
Proof.
  intros Hinv HpD Hi Hq Ha Hn Hino Hf Hk.
  destruct (app_d sb s D p i 0 d l Hinv HpD Hi Ha ltac:(lia)) as (Hdi & Hdl & _).
  destruct (dir_append_spec s D p q i iq name d l) as (s1 & Hs1 & Hinv1 & Happ); try done.
  destruct Happ as (i1 & g & Hi1 & _ & El1 & _ & _ & Ed1 & Ea1 & _).
  edestruct (dir_remove_spec s1 D p i1 d) as (s2 & Hs2 & Hinv2 & i2 & Hi2 & _ & El2 & _ & Ed2 & Ea2 & _);
    [done|done|done|rewrite El1; apply elem_of_app; right; by left|rewrite Ed1; apply lookup_insert_eq|].
  exists s1, s2, i2. split_and!; try done.
  - rewrite El2, El1. rewrite list_del_app; [by rewrite app_nil_r|done|apply not_elem_of_nil].
  - by rewrite Ea2, Ea1, Ha.
  - intros x Hx. rewrite Ed2, Ed1. apply lookup_insert_ne. by intros ->.
Qed.
End ops.

(** ** Examples *)

(** The root directory of an empty file system and a file outside of it. *)
Definition example_root : dram_inode :=
  mk_inode 0 0 0 0 0 1 16877 0 0 0 0 (mk_tree 0 ∅) 0 0 ∅ (mk_ptr 0 0 0) 0 0 1 1 [] [].
Definition example_file : dram_inode :=
  mk_inode 5 0 0 0 0 1 33188 0 0 0 0 (mk_tree 0 ∅) 0 0 ∅ (mk_ptr 0 0 0) 0 0 2 2 [] [].
Definition example_mem : mem := store (1077248 + PI_log_head) 8 1 (fun _ => 0).
Definition example_fs (dir_bits : list Z) : fs :=
  mk_fs (mk_pmem example_mem [])
    [example_map [1; 0; 0; 0; 0; 0; 0; 0] 64 1] [example_map dir_bits 64 2]
    [example_map [1; 0; 0; 0; 0; 0; 0; 0] 64 1] [example_map [1; 0; 0; 0; 0; 0; 0; 0] 64 1]
    {[4096 := example_root; 8192 := example_file]} ∅ ∅ [] [65536; 65664; 65792] [] ∅ ∅ []
    (mk_jnl_mgr [] 0) [] 0 4096.
Definition empty_dir_bits : list Z := [3; 0; 0; 0; 0; 0; 0; 0].

Lemma load_zero a n : load (fun _ => 0) a n = 0.
Proof. revert a. induction n as [|n IH]; intros a; [done|]. unfold load; fold load. by rewrite IH. Qed.

Lemma example_next k : 0 <= k < 64 -> dent_next example_sb example_mem k = 0.
Proof.
  intros Hk. unfold dent_next. rewrite (IDX2DENT_eq example_sb example_layout) by done. simpl slot_table.
  unfold example_mem. erewrite load_agree by (apply store_agree; unfold PI_log_head, PD_next; simpl; lia).
  by rewrite load_zero.
Qed.

Lemma single_map_valid b k : bit_num b = 64 -> slot_valid [b] k <-> 0 <= k < 64.
Proof.
  intros Hb. unfold slot_valid. simpl map_size. rewrite Hb. split.
  - intros (H0 & c & Hc & Hlt). apply lookup_lt_Some in Hc. simpl in Hc.
    assert (k / 64 < 1) by (assert (0 <= k / 64) by zdm; lia). zdm.
  - intros Hk. split; [lia|]. rewrite Z.div_small by lia. exists b. split; [done|].
    rewrite Hb, Z.mod_small; lia.
Qed.

Lemma example_inv : dirs_inv example_sb (example_fs empty_dir_bits) [4096].
Proof.
  constructor.
  - constructor.
    + change (maps_wf 1 [example_map empty_dir_bits 64 2]). example_wf.
    + intros k. apply single_map_valid. done.
    + done.
    + intros k Hk _. by apply example_next.
    + repeat (apply NoDup_cons; split; [rewrite ?elem_of_cons, elem_of_nil; lia|]). apply NoDup_nil_2.
    + intros d. cbn. rewrite !elem_of_cons, elem_of_nil. intros [->|[->|[->|[]]]]; done.
    + apply store_ok. intros x. lia.
  - intros p Hp%list_elem_of_singleton. subst p. exists example_root. split; [done|]. constructor.
    + simpl. lia.
    + exists []. split; [apply index_rep_empty|done].
    + by intros d ?%elem_of_nil.
    + apply NoDup_singleton.
    + intros k Hk%list_elem_of_singleton. subst k. split; [simpl; lia|done].
    + done.
    + split; [|by apply (example_next 1)]. unfold pm_head, bytes, dev. simpl.
      apply load_store_i64. lia.
  - intros p q i j Hp%list_elem_of_singleton Hq%list_elem_of_singleton. congruence.
Qed.

(** ** Where the code does not do what it means to *)

(** Two names of a directory can have the same hash, and the hash is all
    that is compared.  The second [dir_append_entry] succeeds, ignoring the
    -EEXIST of the index: its entry is on the list and on the device, but a
    lookup of the second name finds the entry of the first. *)
Theorem dir_hash_collision :
  [97; 127] <> [98; 252] /\ BKDRHash [97; 127] = BKDRHash [98; 252] /\
  eval (d1 ← dir_append_entry example_sb 0 4096 8192 [97; 127];
        d2 ← dir_append_entry example_sb 0 4096 8192 [98; 252];
        found ← inode_lookup 4096 [98; 252];
        i ← rd_inode 4096;
        mret (d1, d2, found, i_list i)) (example_fs empty_dir_bits)
  = Ok (65536, 65664, 65536, [65536; 65664]).
Proof. split; [done|]. split; [done|]. vm_compute. reflexivity. Qed.

(** When the directory slots run out, [slot_dirent_alloc] returns -1,
    which the test [ghost_slot < -1] of [dir_append_entry] lets pass.  The
    append reports success with -1 as the next ghost slot, and the append
    after it writes its entry in front of the directory table, into the
    inode table. *)
Theorem dir_append_no_slot :
  eval (d1 ← dir_append_entry example_sb 0 4096 8192 [97];
        i ← rd_inode 4096;
        d2 ← dir_append_entry example_sb 0 4096 8192 [98];
        ino ← pm_load (IDX2INODE example_sb 62 + PD_ino) 8;
        mret (d1, ghost_slot i, d2, ino)) (example_fs [255; 255; 255; 255; 255; 255; 255; 255])
  = Ok (65536, -1, 65664, 5).
Proof. vm_compute. reflexivity. Qed.

(** [dir_append_entry] counts the new entry in the inode it names and not in
    the directory: a directory with one entry counts none, so that it is empty
    when it is rebuilt, and after the entry is removed the count has wrapped. *)
Theorem dir_append_counts_child :
  eval (d ← dir_append_entry example_sb 0 4096 8192 [97; 98];
        dir ← rd_inode 4096;
        child ← rd_inode 8192;
        _ ← dir_remove_entry example_sb 4096 d;
        dir' ← rd_inode 4096;
        mret (entry_num dir, entry_num child, entry_num dir')) (example_fs empty_dir_bits)
  = Ok (0, 1, 2 ^ 64 - 1).
Proof. vm_compute. reflexivity. Qed.

(** [dir_rebuild] copies [sizeof(dirent_t)] bytes of a [pm_dirent_t],
    which end before the field [next].  After rebuilding a directory of one
    entry, its ghost slot is whatever the stack held, not the slot that the
    device records. *)
Theorem dir_rebuild_ghost_junk sb s p i d l junk :
  inodes s !! p = Some i -> entry_num i = 1 -> rb_root i = mk_tree 0 ∅ ->
  entry_arena s = d :: l -> aligned d ->
  exists s' i', dir_rebuild sb p junk s = Ok (0, s') /\ inodes s' !! p = Some i' /\
    ghost_slot i' = i64 (load junk PD_next 8).
Proof.
  intros Hi Hn Hr Ha Hal. unfold dir_rebuild. fs_step. fs_step. rewrite Hn. change (Z.to_nat 1) with 1%nat.
  cbn [dir_rebuild_loop]. fs_step. cbv zeta.
  set (pd := memcpy 0 _ _ SIZEOF_DIRENT junk).
  assert (load pd PD_next 8 = load junk PD_next 8) as Enext.
  { apply load_agree, memcpy_agree. unfold PD_next, SIZEOF_DIRENT. lia. }
  unfold dir_rebuild_insert.
  set (e := mk_dirent (log_head i) _ _ _).
  set (s1 := upd_inodes _ s).
  destruct (dir_index_insert_spec (hash_of (upd_dirents <[d := e]> s1)) (rb_root i) [] d) as
    [(_ & a & Ha1%elem_of_nil & _)|(t & l1 & l2 & Ht & _)];
    [rewrite Hr; apply index_rep_empty|done|apply not_elem_of_nil|done|].
  subst s1. erewrite M_bind_step.
  2: { erewrite M_bind_step by (unfold dirent_alloc, entry_alloc; fsimpl; rewrite Ha; reflexivity).
    rewrite (proj2 (Z.eqb_neq d 0)) by (by apply aligned_nz). cbv beta zeta. fs_step.
    erewrite M_bind_step.
    2: { unfold dir_index_insert. mstep eq_refl. apply on_rbtree_eq; [fs_lk|]. exact Ht. }
    simpl (negb _). cbv beta iota. fs_step. reflexivity. }
  simpl (negb _). cbv iota. fs_step. eexists _, _. split; [reflexivity|]. split; [fs_lk|]. fsimpl. by rewrite Enext.
Qed.

(** ** Witnesses *)

Lemma inode_lookup_correct_witness :
  exists a, inode_lookup 4096 [97] (example_fs empty_dir_bits) = Ok (a, example_fs empty_dir_bits) /\ (a <> 0 -> a ∈ i_list example_root).
Proof.
  destruct (inode_lookup_correct example_sb (example_fs empty_dir_bits) 4096 example_root [97]) as (a & Ha & _ & Hd).
  - done.
  - intros _. destruct (dv_each _ _ _ example_inv 4096) as (i & Hi & Hok); [by left|].
    vm_compute in Hi. by injection Hi as <-.
  - exists a. split; [done|]. intros Hne. by apply Hd.
Defined.

(** The name [97; 98] is new in the empty directory and there are free slots. *)
Lemma example_fresh x : x ∈ i_list example_root -> hash_of (example_fs empty_dir_bits) x <> BKDRHash [97; 98].
Proof. by intros ?%elem_of_nil. Qed.
Lemma example_free : exists k, sa_valid (map_dir (example_fs empty_dir_bits)) k /\ sa_used (map_dir (example_fs empty_dir_bits)) k = false.
Proof. exists 2. split; [by apply (single_map_valid (example_map empty_dir_bits 64 2))|done]. Qed.
Lemma example_name : name_ok [97; 98].
Proof. split; [done|]. repeat (constructor; [lia|]). constructor. Qed.


(** The example directory with one entry. *)
Lemma example_one :
  exists s i, dirs_inv example_sb s [4096] /\ inodes s !! 4096 = Some i /\ 65536 ∈ i_list i /\
    dirents s !! 65536 = Some (mk_dirent 1 0 5 (BKDRHash [97; 98])).
Proof.
  destruct (dir_append_spec example_sb 0 example_layout ltac:(lia) (example_fs empty_dir_bits) [4096] 4096 8192
    example_root example_file [97; 98] 65536 [65664; 65792]) as (s' & H1 & H2 & i & g & Hi & _ & El & _ & _ & Ed & _).
  - apply example_inv.
  - by left.
  - done.
  - done.
  - done.
  - apply example_name.
  - simpl. lia.
  - apply example_fresh.
  - apply example_free.
  - exists s', i. split_and!; [done|done|rewrite El; apply elem_of_app; right; by left|].
    rewrite Ed. apply lookup_insert_eq.
Qed.

Lemma dir_remove_entry_correct_witness :
  exists s s', dir_remove_entry example_sb 4096 65536 s = Ok (tt, s') /\ dirs_inv example_sb s' [4096] /\
    dirent_lookup 4096 (BKDRHash [97; 98]) s' = Ok (0, s').
Proof.
  destruct example_one as (s & i & H1 & H2 & H3 & H4). exists s.
  destruct (dir_remove_entry_correct example_sb example_layout s [4096] 4096 i 65536 _ H1 ltac:(by left) H2 H3 H4)
    as (s' & Hs & Hi & _ & Hl). by exists s'.
Defined.

Lemma dir_append_remove_witness :
  exists s1 s2, dir_append_entry example_sb 0 4096 8192 [97; 98] (example_fs empty_dir_bits) = Ok (65536, s1) /\
    dir_remove_entry example_sb 4096 65536 s1 = Ok (tt, s2) /\ entry_arena s2 = [65536; 65664; 65792].
Proof.
  destruct (dir_append_remove example_sb 0 example_layout ltac:(lia) (example_fs empty_dir_bits) [4096] 4096 8192
    example_root example_file [97; 98] 65536 [65664; 65792]) as (s1 & s2 & i2 & H1 & H2 & _ & _ & _ & H3 & _).
  - apply example_inv.
  - by left.
  - done.
  - done.
  - done.
  - apply example_name.
  - simpl. lia.
  - apply example_fresh.
  - apply example_free.
  - by exists s1, s2.
Defined.

Lemma dir_rebuild_ghost_junk_witness :
  exists s' i', dir_rebuild example_sb 4096 (fun _ => 1)
      (upd_inodes <[4096 := upd_entry_num (fun _ => 1) example_root]> (example_fs empty_dir_bits)) = Ok (0, s') /\
    inodes s' !! 4096 = Some i' /\ ghost_slot i' = 0x0101010101010101.
Proof.
  apply (dir_rebuild_ghost_junk example_sb
    (upd_inodes <[4096 := upd_entry_num (fun _ => 1) example_root]> (example_fs empty_dir_bits)) 4096
    (upd_entry_num (fun _ => 1) example_root) 65536 [65664; 65792] (fun _ => 1)); done.
Defined.
