(* ===== verification/DirView.v ===== *)
(** * Directories as maps

    A well-formed directory is a map from the hashes of names to inode numbers:
    [entry_ino] is what a lookup finds.  Appending and removing an entry are
    the updates of the map of one directory, and stores below the slot tables
    (the journal) leave all directories as they are. *)
From stdpp Require Import base numbers list gmap.
From S2P Require Import Prelude Slot Btree Rbtree RbErase DirIndex Pm Mkfs Fs Journal Dir.
Local Open Scope Z_scope.

(** The inode that the directory at [p] has under the hash [h]. *)
Definition entry_ino (s : fs) (p h : Z) : option Z :=
  match dirent_lookup p h s with
  | Ok (a, _) => if a =? 0 then None else d_ino <$> dirents s !! a
  | Fault _ => None
  end.

Section view.
Context (sb : pm_super_block).
Hypothesis Hlo : layout_ok sb.

Lemma dir_at s D p : dirs_inv sb s D -> p ∈ D -> exists i, inodes s !! p = Some i /\ dir_ok sb s i.
Proof. intros Hinv. apply (dv_each _ _ _ Hinv). Qed.

Lemma entry_of s i d : dir_ok sb s i -> d ∈ i_list i -> mem_ok (bytes (dev s)) ->
  exists e, dirents s !! d = Some e /\ 0 <= d_ino e < 2 ^ 64.
Proof.
  intros Hok Hd Hm. destruct (do_objs _ _ _ Hok d Hd) as (_ & e & He & Hino & _). exists e. split; [done|].
  rewrite <- Hino. apply (load_range _ _ 8 Hm).
Qed.

Lemma entry_ino_hit s p i d e :
  inodes s !! p = Some i -> dir_ok sb s i -> d ∈ i_list i -> dirents s !! d = Some e ->
  entry_ino s p (d_hash e) = Some (d_ino e).
Proof.
  intros Hi Hok Hd He. unfold entry_ino. assert (hash_of s d = d_hash e) as <- by (unfold hash_of; by rewrite He).
  rewrite (dirent_lookup_hit sb s p i d Hi Hok Hd). destruct (do_index _ _ _ Hok) as (l & Hl & Hp).
  assert (d <> 0) as Hnz by (apply aligned_nz; eapply index_rep_aligned; [exact Hl|by rewrite Hp]).
  rewrite (proj2 (Z.eqb_neq d 0)) by done. by rewrite He.
Qed.
Lemma entry_ino_miss s p i h :
  inodes s !! p = Some i -> dir_ok sb s i -> (forall d, d ∈ i_list i -> hash_of s d <> h) -> entry_ino s p h = None.
Proof.
  intros Hi Hok Hno. unfold entry_ino. destruct (dirent_lookup_spec sb s p i h Hi Hok) as (a & Ha & H1 & _). rewrite Ha.
  destruct (Z.eqb_spec a 0); [done|]. destruct (H1 n) as [Hin Hh]. by destruct (Hno a Hin).
Qed.
(** A hash is in the directory or not. *)
Lemma hash_dec s (l : list Z) h : (exists d, d ∈ l /\ hash_of s d = h) \/ (forall d, d ∈ l -> hash_of s d <> h).
Proof.
  induction l as [|x l [(d & Hd & E)|IH]]; [right; by intros d ?%elem_of_nil|left; exists d; split; [by right|done]|].
  destruct (decide (hash_of s x = h)) as [E|E]; [left; exists x; split; [by left|done]|].
  right. intros d [->|Hd]%elem_of_cons; [done|by apply IH].
Qed.

(** Two states in which the directory has the same entries. *)
Lemma entry_ino_same s s' p i i' h :
  inodes s !! p = Some i -> dir_ok sb s i -> inodes s' !! p = Some i' -> dir_ok sb s' i' ->
  (forall d, hash_of s d = h -> d ∈ i_list i -> d ∈ i_list i') ->
  (forall d, hash_of s' d = h -> d ∈ i_list i' -> d ∈ i_list i) ->
  (forall d, d ∈ i_list i -> dirents s' !! d = dirents s !! d) -> entry_ino s' p h = entry_ino s p h.
Proof.
  intros Hi Hok Hi' Hok' H1 H2 Hd. destruct (hash_dec s (i_list i) h) as [(d & Hin & Hh)|Hno].
  - destruct (do_objs _ _ _ Hok d Hin) as (_ & e & He & _). assert (d_hash e = h) as E by (unfold hash_of in Hh; by rewrite He in Hh).
    rewrite <- E. rewrite (entry_ino_hit s p i d e) by done. apply (entry_ino_hit s' p i' d e); [done|done|by apply H1|by rewrite Hd].
  - rewrite (entry_ino_miss s p i) by done. apply (entry_ino_miss s' p i'); [done|done|]. intros d Hin Hh.
    specialize (H2 d Hh Hin). apply (Hno d H2). rewrite <- Hh. unfold hash_of. by rewrite Hd.
Qed.

Lemma not_listed s D p i d l : dirs_inv sb s D -> p ∈ D -> inodes s !! p = Some i -> entry_arena s = d :: l -> d ∉ i_list i.
Proof.
  intros Hinv Hp Hi Ha Hd. destruct (dir_at s D p Hinv Hp) as (i0 & Hi0 & Hok). rewrite Hi in Hi0. injection Hi0 as <-.
  destruct (do_objs _ _ _ Hok d Hd) as [Hni _]. rewrite Ha in Hni. apply Hni. by left.
Qed.

(** An append adds one entry to the map of its directory. *)
Lemma appended_view s s' D p i d l ino its name q h :
  dirs_inv sb s D -> dirs_inv sb s' D -> p ∈ D -> q ∈ D -> inodes s !! p = Some i -> entry_arena s = d :: l ->
  appended sb s s' p i d ino its name ->
  entry_ino s' q h = if decide (q = p /\ h = BKDRHash name) then Some ino else entry_ino s q h.
Proof.
  intros Hinv Hinv' Hp Hq Hi Ha (i' & g & Hi' & _ & El & _ & _ & Ed & _ & _ & Hfr).
  destruct (dir_at _ _ _ Hinv' Hp) as (x & Hx & Hok'). rewrite Hi' in Hx. injection Hx as <-.
  destruct (dir_at _ _ _ Hinv Hp) as (x & Hx & Hok). rewrite Hi in Hx. injection Hx as <-.
  assert (forall j dj, j ∈ D -> (exists ij, inodes s !! j = Some ij /\ dj ∈ i_list ij) -> dirents s' !! dj = dirents s !! dj) as Hdj.
  { intros j dj Hj (ij & Hij & Hin). rewrite Ed. apply lookup_insert_ne. intros <-. by apply (not_listed s D j ij d l). }
  destruct (decide (q = p /\ h = BKDRHash name)) as [[-> ->]|Hne].
  - apply (entry_ino_hit s' p i' d (mk_dirent (ghost_slot i) its ino (BKDRHash name)));
      [done|done|rewrite El; set_solver|by rewrite Ed, lookup_insert_eq].
  - destruct (decide (q = p)) as [->|Hqp].
    + apply (entry_ino_same s s' p i i'); try done.
      * intros x _ Hx. rewrite El. set_solver.
      * intros x Hh Hx. rewrite El in Hx. apply elem_of_app in Hx as [Hx| ->%list_elem_of_singleton]; [done|].
        exfalso. apply Hne. split; [done|]. unfold hash_of in Hh. rewrite Ed, lookup_insert_eq in Hh. by simpl in Hh.
      * intros x Hx. apply (Hdj p x Hp). by exists i.
    + destruct (dir_at _ _ _ Hinv Hq) as (j & Hj & Hokj). destruct (dir_at _ _ _ Hinv' Hq) as (j' & Hj' & Hokj').
      destruct (fr_other _ _ _ _ Hfr q j Hqp Hj) as (j'' & Hj'' & (_ & _ & Elj & _) & _). rewrite Hj' in Hj''. injection Hj'' as <-.
      apply (entry_ino_same s s' q j j'); try done; [by rewrite Elj|by rewrite Elj|].
      intros x Hx. apply (Hdj q x Hq). by exists j.
Qed.

(** A removal deletes one entry from the map of its directory. *)
Lemma removed_view s s' D p i d e q h :
  dirs_inv sb s D -> dirs_inv sb s' D -> p ∈ D -> q ∈ D -> inodes s !! p = Some i -> d ∈ i_list i -> dirents s !! d = Some e ->
  removed sb s s' p i d e ->
  entry_ino s' q h = if decide (q = p /\ h = d_hash e) then None else entry_ino s q h.
Proof.
  intros Hinv Hinv' Hp Hq Hi Hd He (i' & Hi' & _ & El & _ & Ed & _ & _ & _ & Hfr).
  destruct (dir_at _ _ _ Hinv' Hp) as (x & Hx & Hok'). rewrite Hi' in Hx. injection Hx as <-.
  destruct (dir_at _ _ _ Hinv Hp) as (x & Hx & Hok). rewrite Hi in Hx. injection Hx as <-.
  assert (hash_of s d = d_hash e) as Eh by (unfold hash_of; by rewrite He).
  assert (forall x, x ∈ i_list i' <-> x ∈ i_list i /\ x <> d) as Hin.
  { intros x. rewrite El. unfold list_del. rewrite list_elem_of_filter. tauto. }
  destruct (do_index _ _ _ Hok) as (lx & Hlx & Hperm).
  destruct (decide (q = p)) as [->|Hqp].
  - destruct (decide (h = d_hash e)) as [->|Hh].
    + rewrite decide_True by done. apply (entry_ino_miss s' p i'); [done|done|]. intros x Hx Hhx. apply Hin in Hx as [Hx Hne].
      apply Hne. apply (index_rep_hash_inj (hash_of s) (rb_root i) lx); [done|by rewrite Hperm|by rewrite Hperm|].
      unfold hash_of in *. rewrite Ed in Hhx. congruence.
    + rewrite decide_False by tauto. apply (entry_ino_same s s' p i i'); try done.
      * intros x Hhx Hx. apply Hin. split; [done|]. intros ->. congruence.
      * intros x _ Hx. by apply Hin in Hx as [? _].
      * intros x _. by rewrite Ed.
  - rewrite decide_False by tauto.
    destruct (dir_at _ _ _ Hinv Hq) as (j & Hj & Hokj). destruct (dir_at _ _ _ Hinv' Hq) as (j' & Hj' & Hokj').
    destruct (fr_other _ _ _ _ Hfr q j Hqp Hj) as (j'' & Hj'' & (_ & _ & Elj & _) & _). rewrite Hj' in Hj''. injection Hj'' as <-.
    apply (entry_ino_same s s' q j j'); try done; [by rewrite Elj|by rewrite Elj|]. intros x _. by rewrite Ed.
Qed.

(** ** What directories do not depend on *)

Lemma dirs_inv_mono s s' D :
  dirs_inv sb s D ->
  (forall p i, p ∈ D -> inodes s !! p = Some i -> exists i', inodes s' !! p = Some i' /\ same_dir i i') ->
  dirents s' = dirents s -> NoDup (entry_arena s') -> (forall d, d ∈ entry_arena s' -> d ∈ entry_arena s) ->
  sa_inv (map_dir s') -> (forall k, sa_valid (map_dir s') k <-> sa_valid (map_dir s) k) ->
  (forall k, sa_valid (map_dir s) k -> sa_used (map_dir s) k = true -> sa_used (map_dir s') k = true) ->
  mem_ok (bytes (dev s')) ->
  (forall k, 0 <= k < slot_num (sb_dir sb) -> agree (IDX2DENT sb k) 256 (bytes (dev s)) (bytes (dev s'))) ->
  (forall p i, p ∈ D -> inodes s !! p = Some i -> pm_head sb (bytes (dev s')) (i_ino i) = pm_head sb (bytes (dev s)) (i_ino i)) ->
  dirs_inv sb s' D.
Proof.
  intros Hinv Hin Ed Hnd Ha Hmi Hmv Hmu Hm Hag Hph. pose proof Hinv as [[S1 S2 S3 S4 S5 S6 S7] He Hap].
  assert (forall i i', same_dir i i' -> slots s' i' = slots s i) as Esl.
  { intros i i' (_ & _ & El & _ & Eg). apply slots_ext; [done|done|]. intros d _. by rewrite Ed. }
  assert (forall p i', p ∈ D -> inodes s' !! p = Some i' -> exists i, inodes s !! p = Some i /\ same_dir i i') as Hback.
  { intros p i' Hp Hi'. destruct (He p Hp) as (i & Hi & _). exists i. split; [done|]. destruct (Hin p i Hp Hi) as (x & Hx & Hs). congruence. }
  constructor.
  - constructor; try done.
    + intros k. by rewrite Hmv.
    + apply Hmu; [|done]. apply S2. destruct Hlo as [_ _ _ (_ & [? _] & _) _ _]. unfold region_ok in *. lia.
    + intros k Hk Hu. erewrite agree_next by (by apply Hag). apply S4; [done|]. destruct (sa_used (map_dir s) k) eqn:E; [|done].
      rewrite Hmu in Hu; [done|by apply S2|done].
    + intros d Hd. by apply S6, Ha.
  - intros p Hp. destruct (He p Hp) as (i & Hi & Hok). destruct (Hin p i Hp Hi) as (i' & Hi' & Hs). exists i'. split; [done|].
    apply (dir_ok_frame sb s s' i i'); try done.
    + intros d _. by rewrite Ed.
    + intros d Hd Hd'. destruct (do_objs _ _ _ Hok d Hd) as [Hni _]. by apply Hni, Ha.
    + intros k Hk. destruct (do_slots _ _ _ Hok k Hk). apply Hmu; [|done]. apply S2. lia.
    + intros k Hk. apply Hag. destruct (do_slots _ _ _ Hok k Hk). lia.
    + by apply (Hph p).
  - intros p q i' j' Hp Hq Hne Hi' Hj'. destruct (Hback p i' Hp Hi') as (i & Hi & Hs). destruct (Hback q j' Hq Hj') as (j & Hj & Ht).
    rewrite (Esl i i' Hs), (Esl j j' Ht). destruct Hs as (-> & _ & -> & _), Ht as (-> & _ & -> & _). by apply (Hap p q).
Qed.

(** Stores below the slot tables. *)
Lemma dirs_inv_low s s' D :
  dirs_inv sb s D -> inodes s' = inodes s -> dirents s' = dirents s -> entry_arena s' = entry_arena s -> map_dir s' = map_dir s ->
  mem_ok (bytes (dev s')) -> (forall x, slot_table (sb_inode sb) <= x -> bytes (dev s') x = bytes (dev s) x) ->
  dirs_inv sb s' D.
Proof.
  intros Hinv Ei Ed Ea Em Hm Hag. pose proof Hinv as [[S1 S2 S3 S4 S5 S6 S7] He Hap].
  apply (dirs_inv_mono s s'); rewrite ?Ea, ?Em; try done.
  - intros p i _ Hi. exists i. rewrite Ei. split; [done|]. by destruct i.
  - intros k Hk x Hx. apply Hag. rewrite (IDX2DENT_eq sb Hlo) in Hx by done. destruct Hlo as [_ _ (? & _) ([? ?] & _) _ _]. lia.
  - intros p i Hp Hi. destruct (He p Hp) as (x & Hx & Hok). rewrite Hi in Hx. injection Hx as <-.
    unfold pm_head. f_equal. apply load_agree. intros x Hx. apply Hag. pose proof (do_ino _ _ _ Hok) as Hn.
    rewrite (IDX2INODE_eq sb Hlo) in Hx by done. unfold PI_log_head in Hx. lia.
Qed.

(** One more directory. *)
Lemma dirs_inv_cons s D p i :
  dirs_inv sb s D -> inodes s !! p = Some i -> dir_ok sb s i ->
  (forall q j, q ∈ D -> inodes s !! q = Some j ->
    i_ino i <> i_ino j /\ (forall k, k ∈ slots s i -> k ∉ slots s j) /\ (forall d, d ∈ i_list i -> d ∉ i_list j)) ->
  dirs_inv sb s (p :: D).
Proof.
  intros [Hsh He Hap] Hi Hok Hnew. constructor; [done| |].
  - intros q [->|Hq]%elem_of_cons; [by exists i|by apply He].
  - intros q r j k [->|Hq]%elem_of_cons [->|Hr]%elem_of_cons Hne Hj Hk; [done| | |by apply (Hap q r)].
    + rewrite Hi in Hj. injection Hj as <-. by apply (Hnew r).
    + rewrite Hi in Hk. injection Hk as <-. destruct (Hnew q j Hq Hj) as (A1 & A2 & A3).
      split_and!; [done|intros x Hx Hx'; by apply (A2 x)|intros x Hx Hx'; by apply (A3 x)].
Qed.

Lemma entry_ino_frame s s' D p h :
  dirs_inv sb s D -> dirs_inv sb s' D -> p ∈ D -> inodes s' = inodes s -> dirents s' = dirents s ->
  entry_ino s' p h = entry_ino s p h.
Proof.
  intros Hinv Hinv' Hp Ei Ed. destruct (dir_at _ _ _ Hinv Hp) as (i & Hi & Hok). destruct (dir_at _ _ _ Hinv' Hp) as (i' & Hi' & Hok').
  rewrite Ei, Hi in Hi'. injection Hi' as <-. apply (entry_ino_same s s' p i i); try done; [by rewrite Ei|]. intros d _. by rewrite Ed.
Qed.
End view.
