(* ===== verification/File.v ===== *)
(** * Inodes and files (src/slotfs/inode.c)

    Creating, flushing and releasing inodes, and the data of files.  A file
    maps blocks to [filent_t]s through its radix tree; a [filent_t] is an
    extent of data slots and has a slot in the file table on the device, chained
    from [log_head] like the slots of a directory.  A write puts its data into
    fresh slots, then appends an entry for each extent, which takes the blocks
    over from the entries before it; an entry no block refers to any more goes
    on the list [invalid] and may be used again.

    User memory is a [mem] of its own with the addresses of the caller.
    [junk] is the contents of stack memory that has not been written yet. *)
From stdpp Require Import base numbers list gmap.
From Stdlib Require Import Floats.SpecFloat.
From S2P Require Import Prelude Bitops Slot Btree Rbtree RbErase DirIndex Pm Mkfs Fs Journal Dir.
Local Open Scope Z_scope.

(** ** Single-precision arithmetic *)

Definition f32 (z : Z) : spec_float := binary_normalize 24 128 z 0 false.
Definition f32_sub : spec_float -> spec_float -> spec_float := SFsub 24 128.
Definition f32_mul : spec_float -> spec_float -> spec_float := SFmul 24 128.
Definition f32_div : spec_float -> spec_float -> spec_float := SFdiv 24 128.

Definition PM_CACHELINE_SIZE : Z := 256.
Definition APPEND_THRESHOLD : spec_float := f32 1.

(** The comparison of [filent_dispatch]. *)
Definition below_threshold (invalid_num entry_num size : Z) : bool :=
  let space_ratio := f32_sub (f32 1) (f32_div (f32 invalid_num) (f32 entry_num)) in
  let ratio := f32_div (f32 size) (f32_mul (f32_mul (f32 PM_CACHELINE_SIZE) space_ratio) (f32 100)) in
  SFltb ratio APPEND_THRESHOLD.

(** ** Entry buffers *)

(** [pm_filent_t] on the stack of a writer; [next] and [csum] are set later. *)
Record pm_filent : Type := mk_pf {
  pf_l_idx : Z;
  pf_p_idx : Z;
  pf_blocks : Z;
  pf_ts : Z;
}.

Section file.
Context (sb : pm_super_block) (cpu now stray : Z) (junk : mem).

(** The result is the index of the buffer in [ebuf_mgr]. *)
Definition ebuf_alloc : M fs Z :=
  let k := Z.rem cpu EBUF_NUM in
  s ← get;
  e ← lift (zget (ebuf_mgr s) k);
  if eb_locked e then throw Deadlock else
  l ← lift (zset (ebuf_mgr s) k (mk_ebuf (eb_arr e) 0 (eb_size e) (eb_idx e) true));
  _ ← modify (upd_ebuf_mgr (fun _ => l));
  mret k.

Definition ebuf_put (k : Z) : M fs unit :=
  s ← get;
  e ← lift (zget (ebuf_mgr s) k);
  l ← lift (zset (ebuf_mgr s) k (mk_ebuf (eb_arr e) (eb_num e) (eb_size e) (eb_idx e) false));
  modify (upd_ebuf_mgr (fun _ => l)).

Definition ebuf_add (k l_idx p_idx blocks : Z) : M fs unit :=
  s ← get;
  e ← lift (zget (ebuf_mgr s) k);
  arr ← lift (zset (eb_arr e) (eb_num e) (mk_unit blocks l_idx p_idx));
  l ← lift (zset (ebuf_mgr s) k (mk_ebuf arr (i32 (eb_num e + 1)) (eb_size e) (eb_idx e) (eb_locked e)));
  modify (upd_ebuf_mgr (fun _ => l)).

Definition ebuf_get (k idx : Z) : M fs entry_unit :=
  s ← get;
  e ← lift (zget (ebuf_mgr s) k);
  lift (zget (eb_arr e) idx).

(** ** Inodes *)

Definition S_ISDIR_bit (mode : Z) : bool := negb (Z.land mode S_IFDIR =? 0).

Definition inode_init_header (inode mode : Z) : M fs unit :=
  _ ← upd_inode inode (fun _ => zero_inode);
  _ ← (if S_ISDIR_bit mode then upd_inode inode (upd_rb_root (fun _ => mk_tree 0 ∅))
       else _ ← on_btree inode (btree_create stray); mret tt);
  _ ← upd_inode inode (upd_b_hint (fun _ => mk_ptr 0 0 0));
  _ ← upd_inode inode (upd_i_list (fun _ => []));
  _ ← upd_inode inode (upd_i_invalid (fun _ => []));
  _ ← upd_inode inode (upd_i_mode (fun _ => mode));
  upd_inode inode (upd_i_ref (fun _ => 0)).

Definition init_ghost_slot (inode : Z) : M fs Z :=
  i ← rd_inode inode;
  g ← (if is_dir i then slot_dirent_alloc cpu else slot_firent_alloc cpu);
  _ ← upd_inode inode (upd_ghost_slot (fun _ => g));
  if g <? 0 then mret (- ENOSPC) else
  _ ← upd_inode inode (upd_log_head (fun _ => g));
  mret 0.

Definition inode_remove (dir d dest_inode : Z) : M fs Z :=
  _ ← dir_remove_entry sb dir d;
  _ ← upd_inode dest_inode (upd_i_link (fun n => u64 (n - 1)));
  mret 0.

Definition crc32c : Z := 0.

Definition inode_flush (inode : Z) : M fs unit :=
  i ← rd_inode inode;
  let pi := IDX2INODE sb (i_ino i) in
  _ ← pm_store (pi + PI_i_size) 8 (i_size i);
  _ ← pm_store (pi + PI_i_uid) 4 (i_uid i);
  _ ← pm_store (pi + PI_i_gid) 4 (i_gid i);
  _ ← pm_store (pi + PI_i_mode) 4 (i_mode i);
  _ ← pm_store (pi + PI_i_atim) 8 (i_atim i);
  _ ← pm_store (pi + PI_i_mtim) 8 (i_mtim i);
  _ ← pm_store (pi + PI_i_ctim) 8 (i_ctim i);
  _ ← pm_store (pi + PI_log_head) 8 (log_head i);
  _ ← pm_store (pi + PI_entry_num) 8 (entry_num i);
  pm_store (pi + PI_csum) 4 crc32c.

(** The part of [inode_create] before the label [err_free_inode]: 0, or the
    error to return. *)
Definition inode_create_body (parent inode ino : Z) (name : list Z) (mode : Z) : M fs Z :=
  _ ← inode_init_header inode mode;
  _ ← upd_inode inode (upd_i_ino (fun _ => ino));
  _ ← upd_inode inode (upd_i_link (fun _ => 1));
  _ ← upd_inode inode (upd_i_mode (fun _ => mode));
  _ ← upd_inode inode (fun i => upd_i_atim (fun _ => now) (upd_i_ctim (fun _ => now) (upd_i_mtim (fun _ => now) i)));
  ret ← init_ghost_slot inode;
  if negb (ret =? 0) then mret ret else
  _ ← inode_flush inode;
  d ← dir_append_entry sb cpu parent inode name;
  if IS_ERR d then mret d else mret 0.

(** [ino_t] is unsigned: the test [ino < 0] is never true. *)
Definition inode_create (parent : Z) (name : list Z) (mode : Z) : M fs Z :=
  r ← slot_inode_alloc cpu;
  let ino := u64 r in
  if ino <? 0 then mret (- ENOSPC) else
  inode ← inode_alloc;
  if inode =? 0 then _ ← slot_inode_free ino; mret (- ENOMEM) else
  ret ← inode_create_body parent inode ino name mode;
  if ret =? 0 then mret inode else
  _ ← inode_free inode;
  _ ← slot_inode_free ino;
  mret ret.

Definition file_rebuild (inode : Z) : M fs Z := mret 0.

Definition inode_rebuild (inode : Z) : M fs Z :=
  i ← rd_inode inode;
  let ino := i64 (i_ino i) in
  m ← gets (fun s => bytes (dev s));
  let pi := IDX2INODE sb ino in
  let mode := load m (pi + PI_i_mode) 4 in
  _ ← inode_init_header inode mode;
  _ ← upd_inode inode (upd_i_size (fun _ => load m (pi + PI_i_size) 8));
  _ ← upd_inode inode (upd_i_uid (fun _ => load m (pi + PI_i_uid) 4));
  _ ← upd_inode inode (upd_i_gid (fun _ => load m (pi + PI_i_gid) 4));
  _ ← upd_inode inode (upd_i_mode (fun _ => mode));
  _ ← upd_inode inode (upd_i_atim (fun _ => now));
  _ ← upd_inode inode (upd_i_mtim (fun _ => i64 (load m (pi + PI_i_mtim) 8)));
  _ ← upd_inode inode (upd_i_ctim (fun _ => i64 (load m (pi + PI_i_ctim) 8)));
  _ ← upd_inode inode (upd_log_head (fun _ => i64 (load m (pi + PI_log_head) 8)));
  _ ← upd_inode inode (upd_i_link (fun _ => load m (pi + PI_i_link) 8));
  _ ← upd_inode inode (upd_i_ino (fun _ => u64 ino));
  _ ← upd_inode inode (upd_entry_num (fun _ => load m (pi + PI_entry_num) 8));
  i ← rd_inode inode;
  if is_dir i then dir_rebuild sb inode junk else file_rebuild inode.

(** ** The index of a file *)

(** Block [idx] is taken from the entry [ptr]. *)
Definition filent_insert_callback (inode : Z) : callback fs := fun ptr idx =>
  (fe ← rd_filent ptr;
   let ref := i32 (f_ref fe - 1) in
   _ ← wr_filent ptr (mk_filent (f_idx fe) (f_ts fe) (f_l_idx fe) (f_p_idx fe) (f_blocks fe) ref);
   _ ← slot_data_free (f_p_idx fe + (idx - f_l_idx fe)) 1;
   _ ← (if ref =? 0 then
          _ ← upd_inode inode (upd_i_invalid (fun l => l ++ [ptr]));
          upd_inode inode (upd_invalid_num (fun n => u64 (n + 1)))
        else mret tt);
   mret 0).

Definition filent_lookup (file idx : Z) : M fs Z := on_btree file (btree_get stray idx).

(** The callback changes the state besides the tree, the tree does not. *)
Definition file_index_insert (file fe : Z) : M fs Z :=
  s ← get;
  i ← rd_inode file;
  e ← rd_filent fe;
  match btree_set_range_callback stray (u64 (f_l_idx e)) (u64 (f_l_idx e + f_blocks e)) fe
          (Some (filent_insert_callback file)) s (tree_of i (btree_arena s)) with
  | Fault f => throw f
  | Ok ((ret, s'), t) =>
      _ ← modify (fun _ => upd_btree_arena (fun _ => pool t) s');
      _ ← upd_inode file (with_tree t);
      mret ret
  end.

Definition filent_try_reuse (inode : Z) : M fs Z :=
  i ← rd_inode inode;
  match i_invalid i with
  | [] => mret 0
  | fe :: _ =>
      _ ← upd_inode inode (upd_i_invalid (fun l => list_del l fe));
      _ ← upd_inode inode (upd_invalid_num (fun n => u64 (n - 1)));
      mret fe
  end.

Definition filent_dispatch (inode size : Z) : M fs Z :=
  i ← rd_inode inode;
  if below_threshold (invalid_num i) (entry_num i) size then mret 0 else
  _ ← upd_inode inode (upd_invalid_num (fun n => u64 (n - 1)));
  filent_try_reuse inode.

(** The bytes of a [pm_filent_t]. *)
Definition pf_mem (e : pm_filent) (next csum : Z) : mem :=
  store PF_csum 4 csum (store PF_next 8 next (store PF_ts 8 (pf_ts e) (store PF_blocks 4 (pf_blocks e)
    (store PF_p_idx 4 (pf_p_idx e) (store PF_l_idx 4 (pf_l_idx e) junk))))).

(** [avx_cpy] from DRAM, and inside the device; see Pm.v. *)
Definition pm_avx_from (buf : mem) (dest src size : Z) : M fs unit :=
  m ← gets (fun s => bytes (dev s));
  m' ← lift (avx_cpy (fun _ => buf) dest src size m);
  pm_write (fun _ => m').
Definition pm_avx_move (dest src size : Z) : M fs unit :=
  m ← gets (fun s => bytes (dev s));
  m' ← lift (avx_cpy (fun m => m) dest src size m);
  pm_write (fun _ => m').

(** The entry object and the slot for a new extent, and the slot after it when
    an invalid entry is used again; a negative number is an error. *)
Definition filent_choose (inode : Z) (entry : pm_filent) : M fs (Z * Z * option Z) :=
  fe ← filent_dispatch inode (u32 (Z.shiftl (pf_blocks entry) PAGE_SHIFT));
  i ← rd_inode inode;
  if negb (fe =? 0) then
    '(_, next) ← list_links (i_list i) fe;
    reuse_next ← (match next with
                  | None => mret (ghost_slot i)
                  | Some nx => n ← rd_filent nx; mret (f_idx n)
                  end);
    e ← rd_filent fe;
    mret (fe, f_idx e, Some reuse_next)
  else
    fe ← filent_alloc;
    if fe =? 0 then mret (- ENOMEM, 0, None) else
    let fno := ghost_slot i in
    g ← (if is_symlink i then mret 0 else slot_firent_alloc cpu);
    _ ← upd_inode inode (upd_ghost_slot (fun _ => g));
    if g <? -1 then
      _ ← upd_inode inode (upd_ghost_slot (fun _ => fno));
      _ ← filent_free fe;
      mret (- ENOSPC, 0, None)
    else mret (fe, fno, None).

Definition file_append_entry (inode : Z) (entry : pm_filent) : M fs Z :=
  '(fe, fno, reuse_next) ← filent_choose inode entry;
  if fe <? 0 then mret fe else
  _ ← wr_filent fe (mk_filent fno (pf_ts entry) (pf_l_idx entry) (pf_p_idx entry) (pf_blocks entry)
                     (i32 (pf_blocks entry)));
  _ ← (match reuse_next with
       | None => upd_inode inode (upd_i_list (fun l => l ++ [fe]))
       | Some _ => mret tt
       end);
  _ ← file_index_insert inode fe;
  i ← rd_inode inode;
  let next := match reuse_next with Some n => n | None => ghost_slot i end in
  _ ← pm_avx_from (pf_mem entry next crc32c) (IDX2FENT sb fno) 0 SIZEOF_PM_FILENT;
  _ ← (match reuse_next with
       | None => upd_inode inode (upd_entry_num (fun n => u64 (n + 1)))
       | Some _ => mret tt
       end);
  mret fe.

(** ** Reading *)

(** Data slot of block [idx] under the entry [e]. *)
Definition data_addr (e : filent) (idx : Z) : Z := IDX2DATA sb (u64 (f_p_idx e + (idx - f_l_idx e))).

Definition inode_readlink (inode : Z) (ub : mem) (link : Z) : M fs (Z * mem) :=
  i ← rd_inode inode;
  let len := i_size i in
  fe ← filent_lookup inode 0;
  e ← rd_filent fe;
  m ← gets (fun s => bytes (dev s));
  mret (len, memcpy link m (IDX2DATA sb (f_p_idx e)) len ub).

(** The [do ... while (left > 0)] loop. *)
Fixpoint read_loop (fuel : nat) (inode : Z) (ub : mem) (buf left offset : Z) : M fs mem :=
  match fuel with
  | O => throw OutOfFuel
  | S fuel' =>
      let page_offset := Z.land offset PAGE_MASK in
      let idx := u64 (Z.shiftr offset PAGE_SHIFT) in
      fe ← filent_lookup inode idx;
      '(nr, ub) ←
        (if fe =? 0 then
           let nr := if left >? PAGE_SIZE - page_offset then PAGE_SIZE - page_offset else left in
           mret (nr, memset buf 0 nr ub)
         else
           e ← rd_filent fe;
           let room := u64 (u64 (Z.shiftl (f_blocks e) PAGE_SHIFT) - page_offset) in
           let nr := if left >? room then room else left in
           m ← gets (fun s => bytes (dev s));
           mret (nr, memcpy buf m (data_addr e idx + page_offset) nr ub));
      let left := u64 (left - nr) in
      if left >? 0 then read_loop fuel' inode ub (buf + nr) left (offset + nr) else mret ub
  end.

(** Every round but the last ends at a page boundary. *)
Definition read_fuel (len : Z) : nat := Z.to_nat (len / PAGE_SIZE + 2).

Definition inode_read (inode : Z) (ub : mem) (buf len offset : Z) : M fs (Z * mem) :=
  i ← rd_inode inode;
  let avail := u64 (i_size i - offset) in
  let len := if len >? avail then avail else len in
  if len <=? 0 then mret (0, ub) else
  _ ← inode_lock (i_ino i);
  ub ← read_loop (read_fuel len) inode ub buf len offset;
  _ ← inode_unlock (i_ino i);
  mret (len, ub).

(** ** Writing *)

Definition inode_write_journal (inode : Z) (ub : mem) (buf len offset : Z) : M fs Z :=
  let blk_idx := Z.shiftr offset PAGE_SHIFT in
  fe ← filent_lookup inode (u64 blk_idx);
  if fe =? 0 then mret (-1) else
  jnl_rel ← journal_alloc;
  e ← rd_filent fe;
  let begin_rel := u64 (data_addr e blk_idx + Z.land offset PAGE_MASK) in
  i ← rd_inode inode;
  _ ← journal_write jnl_rel (i_ino i) begin_rel len;
  _ ← pm_write (memcpy begin_rel ub buf len);
  _ ← journal_commit jnl_rel;
  mret (i32 len).

(** The variables of the loop of [inode_write_atomic] that change. *)
Record wstate : Type := mk_w {
  w_c : Z;
  w_buf : Z;
  w_count : Z;
  w_num_blk : Z;
  w_entry_num : Z;
}.

(** A small write at the end of the file, into its last block: the bytes written. *)
Definition write_tail (inode : Z) (ub : mem) (len offset : Z) (w : wstate) : M fs Z :=
  let page_offset := Z.land (w_c w) PAGE_MASK in
  let start_blk := Z.shiftr (w_c w) PAGE_SHIFT in
  fe ← filent_lookup inode start_blk;
  let bytes := if PAGE_SIZE - page_offset >? w_count w then w_count w else PAGE_SIZE - page_offset in
  e ← rd_filent fe;
  _ ← pm_avx_from ub (data_addr e start_blk + page_offset) (w_buf w) bytes;
  _ ← upd_inode inode (upd_i_size (fun n => Z.max n (u64 (offset + len))));
  i ← rd_inode inode;
  _ ← pm_store (IDX2INODE sb (i_ino i) + PI_i_size) 8 (i_size i);
  mret bytes.

(** The old data before the range in the first block. *)
Definition copy_head (inode pmem page_offset start_blk : Z) : M fs unit :=
  if negb (page_offset =? 0) then
    old ← filent_lookup inode start_blk;
    if negb (old =? 0) then
      e ← rd_filent old;
      pm_avx_move pmem (data_addr e start_blk) page_offset
    else mret tt
  else mret tt.

(** The old data after the range in the last block. *)
Definition copy_tail (inode nr allocated page_offset start_blk bytes len offset : Z) : M fs unit :=
  if negb (Z.land (u64 (page_offset + bytes)) PAGE_MASK =? 0) then
    let last := u64 (start_blk + allocated - 1) in
    old ← filent_lookup inode last;
    let end_offset := Z.land (u64 (offset + len)) PAGE_MASK in
    if negb (old =? 0) then
      e ← rd_filent old;
      pm_avx_move (IDX2DATA sb (u64 (nr + allocated - 1)) + end_offset)
        (data_addr e last + end_offset) (PAGE_SIZE - end_offset)
    else mret tt
  else mret tt.

(** A write into fresh slots: the bytes written and the slots taken. *)
Definition write_fresh (inode : Z) (ub : mem) (len offset eb : Z) (w : wstate) : M fs (Z * Z) :=
  let page_offset := Z.land (w_c w) PAGE_MASK in
  let start_blk := Z.shiftr (w_c w) PAGE_SHIFT in
  '(r, allocated) ← slot_data_alloc cpu (w_num_blk w);
  let nr := u64 r in
  let pmem := IDX2DATA sb nr in
  let room := u64 (PAGE_SIZE * allocated - page_offset) in
  let bytes := if room >? w_count w then w_count w else room in
  _ ← copy_head inode pmem page_offset start_blk;
  _ ← copy_tail inode nr allocated page_offset start_blk bytes len offset;
  _ ← pm_avx_from ub (pmem + page_offset) (w_buf w) bytes;
  _ ← ebuf_add eb start_blk nr allocated;
  mret (bytes, allocated).

(** [while (num_blk > 0)]. *)
Fixpoint write_loop (fuel : nat) (inode : Z) (ub : mem) (len offset eb : Z) (w : wstate) : M fs wstate :=
  match fuel with
  | O => throw OutOfFuel
  | S fuel' =>
      if w_num_blk w =? 0 then mret w else
      i ← rd_inode inode;
      '(bytes, blocks, entries) ←
        (if (w_c w =? i_size i) && negb (Z.land (w_c w) PAGE_MASK =? 0) && (w_num_blk w =? 1) then
           bytes ← write_tail inode ub len offset w;
           mret (bytes, 1, 0)
         else
           '(bytes, allocated) ← write_fresh inode ub len offset eb w;
           mret (bytes, allocated, 1));
      write_loop fuel' inode ub len offset eb
        (mk_w (u64 (w_c w + bytes)) (w_buf w + bytes) (u64 (w_count w - bytes))
           (u64 (w_num_blk w - blocks)) (u64 (w_entry_num w + entries)))
  end.

(** Every round but the last adds an entry to a buffer of [EBUF_SIZE]. *)
Definition write_fuel : nat := Z.to_nat (EBUF_SIZE + 2).

(** The loop over the entries: [None], or the error of [file_append_entry]. *)
Fixpoint append_loop (n : nat) (inode eb idx ts : Z) : M fs (option Z) :=
  match n with
  | O => mret None
  | S n' =>
      unit ← ebuf_get eb idx;
      fe ← file_append_entry inode (mk_pf (u32 (eu_l_idx unit)) (u32 (eu_p_idx unit)) (u32 (eu_blocks unit)) ts);
      if IS_ERR fe then mret (Some fe) else
      append_loop n' inode eb (idx + 1) ts
  end.

(** The part of [inode_write_atomic] after the attempt with the journal. *)
Definition write_blocks (inode ino : Z) (ub : mem) (buf len offset num_blk : Z) : M fs Z :=
  eb ← ebuf_alloc;
  _ ← inode_lock ino;
  w ← write_loop write_fuel inode ub len offset eb (mk_w (u64 offset) buf len num_blk 0);
  ts ← slotfs_timestamp;
  err ← append_loop (Z.to_nat (w_entry_num w)) inode eb 0 (i64 ts);
  match err with
  | Some ret =>
      _ ← inode_unlock ino;
      _ ← inode_unlock ino;
      _ ← ebuf_put eb;
      mret (i32 ret)
  | None =>
      _ ← inode_unlock ino;
      _ ← ebuf_put eb;
      _ ← upd_inode inode (upd_i_size (fun n => Z.max n (u64 (offset + len))));
      _ ← upd_inode inode (fun i => upd_i_ctim (fun _ => now) (upd_i_mtim (fun _ => now) i));
      mret len
  end.

Definition inode_write_atomic (inode : Z) (ub : mem) (buf len offset : Z) : M fs Z :=
  let page_offset := Z.land offset PAGE_MASK in
  let num_blk := Z.shiftr (u64 (len + page_offset + PAGE_SIZE - 1)) PAGE_SHIFT in
  i ← rd_inode inode;
  ret ← (if (num_blk =? 1) && (len <? 1024) && negb (u64 offset =? i_size i) then
           inode_write_journal inode ub buf len offset
         else mret 0);
  if ret >? 0 then mret ret else
  write_blocks inode (i_ino i) ub buf len offset num_blk.

Definition inode_write (inode : Z) (ub : mem) (buf len offset : Z) : M fs Z :=
  inode_write_atomic inode ub buf len offset.

(** ** Changing the size *)

Definition file_remove_entry (file fe : Z) : M fs unit :=
  i ← rd_inode file;
  e ← rd_filent fe;
  '(prev, next) ← list_links (i_list i) fe;
  prev_ptr ← (if log_head i =? f_idx e then mret (IDX2INODE sb (i_ino i) + PI_log_head)
              else match prev with
                   | Some pr => p ← rd_filent pr; mret (IDX2FENT sb (f_idx p) + PF_next)
                   | None => throw BadPointer
                   end);
  next_ptr ← (match next with None => mret (ghost_slot i) | Some nx => n ← rd_filent nx; mret (f_idx n) end);
  _ ← pm_store prev_ptr 8 next_ptr;
  _ ← pm_store (IDX2FENT sb (f_idx e) + PF_next) 8 0;
  _ ← on_btree file (btree_set_range stray (u64 (f_l_idx e)) (u64 (f_l_idx e + f_blocks e)) 0);
  _ ← slot_firent_free (f_idx e);
  _ ← filent_free fe;
  (* list_del(&fe->list): the arena has overwritten fe->list.next *)
  _ ← throw (A := unit) UseAfterFree;
  upd_inode file (upd_entry_num (fun n => u64 (n - 1))).

(** The loop of [inode_shrink]. *)
Fixpoint shrink_loop (fuel : nat) (inode start_blk end_blk : Z) : M fs unit :=
  match fuel with
  | O => throw OutOfFuel
  | S fuel' =>
      if negb (start_blk <? end_blk) then mret tt else
      fe ← filent_lookup inode start_blk;
      if fe =? 0 then shrink_loop fuel' inode start_blk end_blk else
      e ← rd_filent fe;
      let num_blk := f_blocks e in
      if u64 (start_blk + num_blk) >? end_blk then mret tt else
      _ ← file_remove_entry inode fe;
      shrink_loop fuel' inode (u64 (start_blk + num_blk)) end_blk
  end.

Definition inode_shrink (inode new_size : Z) : M fs Z :=
  i ← rd_inode inode;
  let start_blk := Z.shiftr (u64 (new_size + PAGE_SIZE - 1)) PAGE_SHIFT in
  let end_blk := Z.shiftr (u64 (i_size i + PAGE_SIZE - 1)) PAGE_SHIFT in
  jnl ← journal_alloc;
  _ ← journal_truncate jnl (i_ino i) new_size;
  _ ← shrink_loop (S (Z.to_nat (end_blk - start_blk))) inode start_blk end_blk;
  _ ← journal_commit jnl;
  mret 0.

(** The allocation loop of [inode_extend]; [start_blk] does not change. *)
Fixpoint extend_loop (fuel : nat) (eb start_blk num_blk : Z) : M fs unit :=
  match fuel with
  | O => throw OutOfFuel
  | S fuel' =>
      if num_blk =? 0 then mret tt else
      '(r, allocated) ← slot_data_alloc cpu num_blk;
      _ ← ebuf_add eb start_blk (u64 r) allocated;
      extend_loop fuel' eb start_blk (u64 (num_blk - allocated))
  end.

Definition inode_extend (inode new_size : Z) : M fs Z :=
  i ← rd_inode inode;
  let page_offset := Z.land (i_size i) PAGE_MASK in
  let start_blk := Z.shiftr (u64 (i_size i + PAGE_SIZE - 1)) PAGE_SHIFT in
  let num_blk := u64 (u64 (new_size - i_size i) + PAGE_SIZE - 1) / PAGE_SIZE in
  _ ← inode_lock (i_ino i);
  eb ← ebuf_alloc;
  '(start_blk, num_blk) ←
    (if negb (page_offset =? 0) then
       fe ← filent_lookup inode start_blk;
       _ ← rd_filent fe;
       mret (u64 (start_blk + 1), u64 (num_blk - 1))
     else mret (start_blk, num_blk));
  _ ← extend_loop write_fuel eb start_blk num_blk;
  s ← get;
  e ← lift (zget (ebuf_mgr s) eb);
  err ← append_loop (Z.to_nat (eb_num e)) inode eb 0 (i_ts i);
  _ ← ebuf_put eb;
  _ ← inode_unlock (i_ino i);
  match err with
  | Some ret => mret (i32 ret)
  | None => mret 0
  end.

Definition inode_resize (inode new_size : Z) : M fs Z :=
  i ← rd_inode inode;
  if new_size =? i_size i then mret 0 else
  if new_size <? i_size i then inode_shrink inode new_size else inode_extend inode new_size.

(** ** Releasing *)

(** The loop over the entries of a directory. *)
Fixpoint release_dir (fuel : nat) (inode : Z) : M fs unit :=
  match fuel with
  | O => throw OutOfFuel
  | S fuel' =>
      i ← rd_inode inode;
      match i_list i with
      | [] => mret tt
      | d :: _ =>
          _ ← upd_inode inode (upd_i_list (fun l => list_del l d));
          _ ← dirent_free d;
          _ ← dir_remove_entry sb inode d;
          release_dir fuel' inode
      end
  end.

(** The loop over the entries of a file. *)
Fixpoint release_file (fuel : nat) (inode : Z) : M fs unit :=
  match fuel with
  | O => throw OutOfFuel
  | S fuel' =>
      i ← rd_inode inode;
      match i_list i with
      | [] => mret tt
      | f :: _ =>
          e ← rd_filent f;
          _ ← slot_data_free (f_p_idx e) (f_blocks e);
          _ ← upd_inode inode (upd_i_list (fun l => list_del l f));
          _ ← filent_free f;
          e ← rd_filent f;
          _ ← slot_firent_free (f_idx e);
          release_file fuel' inode
      end
  end.

Definition do_inode_release (inode : Z) : M fs unit :=
  i ← rd_inode inode;
  let fuel := S (length (i_list i)) in
  _ ← (if is_dir i then release_dir fuel inode
       else _ ← release_file fuel inode; on_btree inode btree_destroy);
  _ ← slot_inode_free (i_ino i);
  inode_free inode.

Definition inode_release (inode : Z) : M fs unit := modify (upd_release_list (cons inode)).
End file.
