(* ===== verification/FileIndex.v ===== *)
(** * The index of a file: blocks, extents and data slots

    [core] relates the map from blocks to entries with the entries themselves:
    an entry counts the blocks that refer to it, is on the list [invalid]
    exactly when there are none, and the data slots of the blocks are in use
    and different from each other.  The callback of [file_index_insert] takes
    a block away from its entry and keeps [core] ([callback_spec]); an entry
    whose data slots are fresh can be added ([core_add]). *)
From stdpp Require Import base numbers list gmap.
From S2P Require Import Prelude Bitops Slot Btree Rbtree RbErase DirIndex Pm Mkfs Fs Journal Dir File.
Local Open Scope Z_scope.

(** ** Blocks *)

(** The entry that the tree of an inode has for block [k], 0 for a hole. *)
Definition block_of (i : dram_inode) (k : Z) : Z := contents (tree_of i []) k.

Lemma contents_tree_of i l k : contents (tree_of i l) k = block_of i k.
Proof.
  unfold block_of, contents. change (depth (tree_of i l)) with (depth (tree_of i [])).
  assert (forall d q, desc (tree_of i l) d q = desc (tree_of i []) d q) as E; [|by rewrite E].
  induction d as [|d IH]; intros q; [done|]. cbn [desc]. by rewrite IH.
Qed.

Definition ent_blocks (e : filent) : list Z := seqZ (f_l_idx e) (f_blocks e).
(** The number of blocks that refer to the entry [fe]. *)
Definition refs (B : Z -> Z) (fe : Z) (e : filent) : Z := zlength (filter (fun k => B k = fe) (ent_blocks e)).
Definition covers (e : filent) (k : Z) : Prop := f_l_idx e <= k < f_l_idx e + f_blocks e.
(** The data slot of block [k]. *)
Definition slot_of (e : filent) (k : Z) : Z := f_p_idx e + (k - f_l_idx e).
Definition phys (F : gmap Z filent) (B : Z -> Z) (k : Z) : option Z :=
  if B k =? 0 then None else e ← F !! B k; Some (slot_of e k).

Definition set_ref (r : Z) (e : filent) : filent :=
  mk_filent (f_idx e) (f_ts e) (f_l_idx e) (f_p_idx e) (f_blocks e) r.

(** The map without the blocks from [start], and with them given to [fe]. *)
Definition clear (start n : Z) (B : Z -> Z) (k : Z) : Z := if decide (start <= k < start + n) then 0 else B k.
Definition assign (start n fe : Z) (B : Z -> Z) (k : Z) : Z := if decide (start <= k < start + n) then fe else B k.

Lemma clear_in start n B k : start <= k < start + n -> clear start n B k = 0.
Proof. intros. unfold clear. by rewrite decide_True. Qed.
Lemma clear_out start n B k : ~ (start <= k < start + n) -> clear start n B k = B k.
Proof. intros. unfold clear. by rewrite decide_False. Qed.
Lemma assign_in start n fe B k : start <= k < start + n -> assign start n fe B k = fe.
Proof. intros. unfold assign. by rewrite decide_True. Qed.
Lemma assign_out start n fe B k : ~ (start <= k < start + n) -> assign start n fe B k = B k.
Proof. intros. unfold assign. by rewrite decide_False. Qed.

Lemma elem_of_blocks e k : k ∈ ent_blocks e <-> covers e k.
Proof. unfold ent_blocks, covers. by rewrite elem_of_seqZ. Qed.

Lemma refs_ext B B' fe e : (forall k, covers e k -> (B k = fe <-> B' k = fe)) -> refs B fe e = refs B' fe e.
Proof.
  intros H. unfold refs, zlength. do 2 f_equal. 
  assert (Forall (fun k => B k = fe <-> B' k = fe) (ent_blocks e)) as Hf.
  { apply Forall_forall. intros k Hk%elem_of_blocks. by apply H. }
  induction Hf as [|k l Hk Hl IH]; [done|]. rewrite !filter_cons. rewrite IH.
  destruct (decide (B k = fe)), (decide (B' k = fe)); tauto || done.
Qed.

Lemma refs_bound B fe e : 0 <= f_blocks e -> 0 <= refs B fe e <= f_blocks e.
Proof.
  intros Hb. unfold refs, zlength. pose proof (length_filter (fun k => B k = fe) (ent_blocks e)) as H.
  unfold ent_blocks in *. rewrite length_seqZ in H. lia.
Qed.

Lemma refs_pos B fe e k : covers e k -> B k = fe -> 0 < refs B fe e.
Proof.
  intros Hc Hk. unfold refs, zlength.
  assert (k ∈ filter (fun k => B k = fe) (ent_blocks e)) as Hin by (apply list_elem_of_filter; split; [done|by apply elem_of_blocks]).
  destruct (filter _ _) as [|x l]; [by apply elem_of_nil in Hin|]. simpl. lia.
Qed.

Lemma refs_zero B fe e k : refs B fe e = 0 -> covers e k -> B k <> fe.
Proof. intros Hz Hc Hk. pose proof (refs_pos B fe e k Hc Hk). lia. Qed.

Lemma refs_none B fe e : (forall k, covers e k -> B k <> fe) -> refs B fe e = 0.
Proof.
  intros H. unfold refs.
  assert (filter (fun k => B k = fe) (ent_blocks e) = []) as ->; [|done].
  assert (Forall (fun k => B k <> fe) (ent_blocks e)) as Hf.
  { apply Forall_forall. intros k Hk%elem_of_blocks. by apply H. }
  induction Hf as [|k l Hk Hl IH]; [done|]. rewrite filter_cons_False; done.
Qed.

Lemma refs_all B fe e : 0 <= f_blocks e -> (forall k, covers e k -> B k = fe) -> refs B fe e = f_blocks e.
Proof.
  intros Hb H. unfold refs.
  assert (filter (fun k => B k = fe) (ent_blocks e) = ent_blocks e) as ->.
  { assert (Forall (fun k => B k = fe) (ent_blocks e)) as Hf.
    { apply Forall_forall. intros k Hk%elem_of_blocks. by apply H. }
    induction Hf as [|k l Hk Hl IH]; [done|]. by rewrite filter_cons_True, IH. }
  unfold zlength, ent_blocks. rewrite length_seqZ. lia.
Qed.

(** Taking block [k] away from its entry leaves one reference less. *)
Lemma refs_clear_one B fe e k :
  fe <> 0 -> covers e k -> B k = fe -> refs (clear k 1 B) fe e = refs B fe e - 1.
Proof.
  intros Hfe Hc Hk. unfold refs. pose proof (proj2 (elem_of_blocks e k) Hc) as Hin.
  assert (NoDup (ent_blocks e)) as Hnd by apply NoDup_seqZ.
  induction (ent_blocks e) as [|x l IH]; [by apply elem_of_nil in Hin|].
  apply NoDup_cons in Hnd as [Hx Hnd]. apply elem_of_cons in Hin as [<-|Hin].
  - rewrite (filter_cons_True (fun k => B k = fe)) by done.
    rewrite filter_cons_False by (rewrite clear_in by lia; done).
    assert (filter (fun j => clear k 1 B j = fe) l = filter (fun j => B j = fe) l) as ->.
    { clear IH Hnd. induction l as [|y l IHl]; [done|]. apply not_elem_of_cons in Hx as [Hy Hx].
      rewrite !filter_cons, IHl, clear_out by (done || lia). done. }
    unfold zlength. simpl. lia.
  - specialize (IH Hin Hnd). rewrite !filter_cons.
    assert (x <> k) by (intros ->; done). rewrite clear_out by lia.
    destruct (decide (B x = fe)); [|done]. unfold zlength in *. simpl. lia.
Qed.

Lemma phys_eq F B k e : B k <> 0 -> F !! B k = Some e -> phys F B k = Some (slot_of e k).
Proof. intros Hnz He. unfold phys. destruct (Z.eqb_spec (B k) 0); [done|]. by rewrite He. Qed.
Lemma phys_inv F B k q : phys F B k = Some q -> B k <> 0 /\ exists e, F !! B k = Some e /\ q = slot_of e k.
Proof.
  unfold phys. destruct (Z.eqb_spec (B k) 0); [done|]. destruct (F !! B k) as [e|]; [|done].
  intros [= <-]. eauto.
Qed.

(** ** The invariant *)

Section core.
Context (sb : pm_super_block).

Definition ent_ok (e : filent) : Prop :=
  0 <= f_l_idx e /\ 0 < f_blocks e /\ f_l_idx e + f_blocks e < 2 ^ 31 /\
  0 <= f_p_idx e /\ f_p_idx e + f_blocks e <= slot_num (sb_data sb).

(** [L] are the entries of the file, [inv] those on the list [invalid],
    [B] maps blocks to entries, [used] says which data slots are in use. *)
Record core (F : gmap Z filent) (used : Z -> bool) (L inv : list Z) (B : Z -> Z) : Prop := {
  co_obj fe : fe ∈ L -> 0 < fe /\ exists e, F !! fe = Some e /\ ent_ok e /\ f_ref e = refs B fe e /\
    (fe ∈ inv <-> f_ref e = 0);
  co_inv : NoDup inv /\ forall fe, fe ∈ inv -> fe ∈ L;
  co_map k : 0 <= k -> B k <> 0 -> (B k ∈ L) /\ forall e, F !! B k = Some e -> covers e k;
  co_data k q : 0 <= k -> phys F B k = Some q -> used q = true;
  co_inj k1 k2 q : 0 <= k1 -> 0 <= k2 -> phys F B k1 = Some q -> phys F B k2 = Some q -> k1 = k2;
}.

Lemma core_entry F used L inv B k :
  core F used L inv B -> 0 <= k -> B k <> 0 ->
  exists e, F !! B k = Some e /\ ent_ok e /\ covers e k /\ 0 < B k /\ (B k ∈ L) /\ f_ref e = refs B (B k) e /\
    0 < f_ref e /\ phys F B k = Some (slot_of e k) /\ 0 <= slot_of e k < slot_num (sb_data sb).
Proof.
  intros Hc Hk Hnz. destruct (co_map _ _ _ _ _ Hc k Hk Hnz) as [Hin Hcov].
  destruct (co_obj _ _ _ _ _ Hc _ Hin) as (Hp & e & He & Hok & Hr & _).
  specialize (Hcov e He). exists e. split_and!; try done.
  - rewrite Hr. by apply (refs_pos B (B k) e k).
  - by apply phys_eq.
  - unfold slot_of, covers, ent_ok in *. lia.
  - unfold slot_of, covers, ent_ok in *. lia.
Qed.

Lemma core_ext F used L inv B B' :
  (forall k, 0 <= k -> B k = B' k) -> core F used L inv B -> core F used L inv B'.
Proof.
  intros HB Hc. assert (HP : forall k, 0 <= k -> phys F B' k = phys F B k).
  { intros k Hk. unfold phys. by rewrite HB. }
  constructor.
  - intros fe Hfe. destruct (co_obj _ _ _ _ _ Hc fe Hfe) as (Hp & e & He & Hok & Hr & Hi). split; [done|].
    exists e. split_and!; try done. rewrite Hr. apply refs_ext. intros k Hk. unfold covers, ent_ok in *.
    rewrite HB by lia. done.
  - apply Hc.
  - intros k Hk. rewrite <- HB by done. by apply Hc.
  - intros k q Hk. rewrite HP by done. by apply Hc.
  - intros k1 k2 q H1 H2. rewrite !HP by done. by apply Hc.
Qed.

Lemma core_perm F used L L' inv B : (forall x, x ∈ L <-> x ∈ L') -> core F used L inv B -> core F used L' inv B.
Proof.
  intros HL Hc. destruct Hc as [H1 [H2 H2'] H3 H4 H5]. constructor; try done.
  - intros fe Hfe. apply H1. by apply HL.
  - split; [done|]. intros fe Hfe. apply HL. by apply H2'.
  - intros k Hk Hnz. destruct (H3 k Hk Hnz). split; [by apply HL|done].
Qed.

Lemma core_used F used used' L inv B :
  (forall k q, 0 <= k -> phys F B k = Some q -> used' q = used q) -> core F used L inv B -> core F used' L inv B.
Proof.
  intros Hu [H1 H2 H3 H4 H5]. constructor; try done. intros k q Hk Hq. rewrite (Hu k) by done. by eapply H4.
Qed.

(** Entries that are not of this file do not matter. *)
Lemma core_frame F F' used L inv B :
  (forall fe, fe ∈ L -> F' !! fe = F !! fe) -> core F used L inv B -> core F' used L inv B.
Proof.
  intros HF Hc. assert (HP : forall k, 0 <= k -> phys F' B k = phys F B k).
  { intros k Hk. unfold phys. destruct (Z.eqb_spec (B k) 0) as [|Hnz]; [done|].
    rewrite HF; [done|]. by apply (co_map _ _ _ _ _ Hc k Hk Hnz). }
  destruct Hc as [H1 H2 H3 H4 H5]. constructor; try done.
  - intros fe Hfe. rewrite HF by done. by apply H1.
  - intros k Hk Hnz. destruct (H3 k Hk Hnz) as [Hin Hcov]. split; [done|]. by rewrite HF.
  - intros k q Hk. rewrite HP by done. by apply H4.
  - intros k1 k2 q ? ?. rewrite !HP by done. by apply H5.
Qed.

(** An entry that no block refers to can leave. *)
Lemma core_remove F used L inv B fe :
  core F used L inv B -> fe ∈ inv -> core F used (list_del L fe) (list_del inv fe) B.
Proof.
  intros Hc Hfe. assert (HB : forall k, 0 <= k -> B k <> fe).
  { intros k Hk E. destruct (co_obj _ _ _ _ _ Hc fe) as (Hp & e & He & Hok & Hr & Hi); [by apply Hc|].
    assert (B k <> 0) as Hnz by lia. destruct (co_map _ _ _ _ _ Hc k Hk Hnz) as [_ Hcov].
    rewrite E in Hcov. pose proof (refs_pos B fe e k (Hcov e He) E). rewrite <- Hr in *.
    assert (f_ref e = 0) by (by apply Hi). lia. }
  destruct Hc as [H1 [H2 H2'] H3 H4 H5]. unfold list_del. constructor; try done.
  - intros x [Hne Hx]%list_elem_of_filter. destruct (H1 x Hx) as (Hp & e & He & Hok & Hr & Hi). split; [done|].
    exists e. split_and!; try done. rewrite list_elem_of_filter, <- Hi. tauto.
  - split; [by apply NoDup_filter|]. intros x [Hne Hx]%list_elem_of_filter. apply list_elem_of_filter. auto.
  - intros k Hk Hnz. destruct (H3 k Hk Hnz). split; [|done]. apply list_elem_of_filter. auto.
Qed.

(** A new entry for the blocks from [f_l_idx e], which must be holes, with
    data slots that are in use but belong to no block. *)
Lemma core_add F used L inv B fe e :
  core F used L inv B -> 0 < fe -> fe ∉ L -> F !! fe = Some e -> ent_ok e -> f_ref e = f_blocks e ->
  (forall k, covers e k -> B k = 0) ->
  (forall k q, 0 <= k -> phys F B k = Some q -> ~ (f_p_idx e <= q < f_p_idx e + f_blocks e)) ->
  (forall q, f_p_idx e <= q < f_p_idx e + f_blocks e -> used q = true) ->
  core F used (L ++ [fe]) inv (assign (f_l_idx e) (f_blocks e) fe B).
Proof.
  intros Hc Hp Hn He Hok Hr Hhole Hfresh Hused. set (B' := assign _ _ _ _).
  assert (HB' : forall k, covers e k -> B' k = fe) by (intros k Hk; by apply assign_in).
  assert (HB : forall k, ~ covers e k -> B' k = B k) by (intros k Hk; by apply assign_out).
  assert (HP' : forall k, covers e k -> phys F B' k = Some (slot_of e k)).
  { intros k Hk. pose proof (HB' k Hk) as E. rewrite (phys_eq F B' k e); [done|lia|by rewrite E]. }
  assert (HP : forall k, ~ covers e k -> phys F B' k = phys F B k) by (intros k Hk; unfold phys; by rewrite HB).
  assert (Dec : forall k, covers e k \/ ~ covers e k) by (intros k; unfold covers; lia).
  assert (Hslot : forall k, covers e k -> f_p_idx e <= slot_of e k < f_p_idx e + f_blocks e)
    by (unfold covers, slot_of; intros; lia).
  pose proof Hc as [H1 [H2 H2'] H3 H4 H5]. constructor.
  - intros x [Hx|Hx]%elem_of_app.
    + destruct (H1 x Hx) as (Hpx & e' & He' & Hok' & Hr' & Hi). split; [done|]. exists e'. split_and!; try done.
      rewrite Hr'. assert (x <> fe) by (by intros ->). apply refs_ext. intros k Hk.
      destruct (Dec k) as [Hck|Hck]; [rewrite HB', Hhole by done; lia|by rewrite HB].
    + apply list_elem_of_singleton in Hx as ->. split; [done|]. exists e. split_and!; try done.
      * rewrite Hr. symmetry. apply refs_all; [destruct Hok; lia|done].
      * split; [|destruct Hok; lia]. intros Hin. by apply H2' in Hin.
  - split; [done|]. intros x Hx. apply elem_of_app. left. auto.
  - intros k Hk Hnz. destruct (Dec k) as [Hck|Hck].
    + rewrite HB' by done. split; [apply elem_of_app; right; by apply list_elem_of_singleton|]. congruence.
    + rewrite HB in * by done. destruct (H3 k Hk Hnz). split; [|done]. apply elem_of_app. by left.
  - intros k q Hk Hq. destruct (Dec k) as [Hck|Hck].
    + rewrite HP' in Hq by done. injection Hq as <-. apply Hused. auto.
    + rewrite HP in Hq by done. by eapply H4.
  - intros k1 k2 q Hk1 Hk2 Hq1 Hq2. destruct (Dec k1) as [C1|C1], (Dec k2) as [C2|C2];
      rewrite ?HP', ?HP in Hq1 by done; rewrite ?HP', ?HP in Hq2 by done.
    + unfold slot_of in *. simplify_eq. lia.
    + injection Hq1 as <-. by destruct (Hfresh k2 _ Hk2 Hq2); auto.
    + injection Hq2 as <-. by destruct (Hfresh k1 _ Hk1 Hq1); auto.
    + by eapply H5.
Qed.

(** ** Taking blocks away *)

(** The number of blocks of the entry that the index has for block [k]. *)
Definition extent (F : gmap Z filent) (B : Z -> Z) (k : Z) : option Z := if B k =? 0 then None else f_blocks <$> F !! B k.

(** Only reference counts of the entries [L] change. *)
Definition ents_le (L : list Z) (F F' : gmap Z filent) : Prop :=
  forall x, F' !! x = F !! x \/ (x ∈ L /\ exists e r, F !! x = Some e /\ F' !! x = Some (set_ref r e)).

Lemma ents_le_refl L F : ents_le L F F.
Proof. by left. Qed.
Lemma ents_le_trans L F1 F2 F3 : ents_le L F1 F2 -> ents_le L F2 F3 -> ents_le L F1 F3.
Proof.
  intros H1 H2 x. destruct (H2 x) as [E2|(Hx & e & r & E2 & E3)]; rewrite ?E2, ?E3.
  - destruct (H1 x) as [E1|H]; [by left|by right].
  - right. split; [done|]. destruct (H1 x) as [E1|(_ & e1 & r1 & E1 & E1')].
    + exists e, r. by rewrite <- E1.
    + rewrite E1' in E2. injection E2 as <-. by exists e1, r.
Qed.
Lemma ents_le_phys L F F' B k : ents_le L F F' -> phys F' B k = phys F B k.
Proof.
  intros H. unfold phys. destruct (B k =? 0); [done|].
  destruct (H (B k)) as [->|(_ & e & r & -> & ->)]; done.
Qed.

(** The state after blocks were taken from entries of the inode [i] at [p]. *)
Definition took (p : Z) (i : dram_inode) (v : list Z) (n : Z) (F : gmap Z filent) (b : list dram_bitmap) (s : fs) : fs :=
  upd_inodes <[p := upd_i_invalid (fun _ => v) (upd_invalid_num (fun _ => n) i)]>
    (upd_filents (fun _ => F) (upd_map_data (fun _ => b) s)).

Lemma took_took p i v n F b v' n' F' b' s :
  took p (upd_i_invalid (fun _ => v) (upd_invalid_num (fun _ => n) i)) v' n' F' b' (took p i v n F b s)
  = took p i v' n' F' b' s.
Proof. apply fs_ext; unfold took; fsimpl; try done. by rewrite insert_insert_eq. Qed.
Lemma took_id p i s : inodes s !! p = Some i -> took p i (i_invalid i) (invalid_num i) (filents s) (map_data s) s = s.
Proof. intros Hi. apply fs_ext; unfold took; fsimpl; try done. rewrite insert_id; [done|]. by destruct i. Qed.

Definition data_ok (b : list dram_bitmap) : Prop :=
  sa_inv b /\ forall k, sa_valid b k <-> 0 <= k < slot_num (sb_data sb).

Lemma core_take F used used' L inv B k e :
  core F used L inv B -> 0 <= k -> B k <> 0 -> F !! B k = Some e ->
  (forall q, 0 <= q < slot_num (sb_data sb) -> used' q = used q && negb (q =? slot_of e k)) ->
  core (<[B k := set_ref (f_ref e - 1) e]> F) used' L (if f_ref e - 1 =? 0 then inv ++ [B k] else inv) (clear k 1 B).
Proof.
  intros Hc Hk Hnz He Hu.
  destruct (core_entry _ _ _ _ _ _ Hc Hk Hnz) as (e' & He' & Hok & Hcov & Hp & Hin & Hr & Hpos & Hphys & Hslot).
  rewrite He in He'. injection He' as <-. set (F' := <[_ := _]> F). set (B' := clear k 1 B).
  assert (HB : forall j, j <> k -> B' j = B j) by (intros j Hj; apply clear_out; lia).
  assert (HBk : B' k = 0) by (apply clear_in; lia).
  assert (Hle : ents_le L F F').
  { intros x. unfold F'. destruct (decide (x = B k)) as [->|Hne]; [right|left; by rewrite lookup_insert_ne].
    split; [done|]. exists e, (f_ref e - 1). by rewrite lookup_insert_eq. }
  assert (HP : forall j q, phys F' B' j = Some q -> j <> k /\ phys F B j = Some q).
  { intros j q. rewrite (ents_le_phys L F) by done. intros Hj. destruct (phys_inv _ _ _ _ Hj) as [Hj' _].
    assert (j <> k) as Hne by (by intros ->). split; [done|]. unfold phys in *. by rewrite HB in Hj. }
  destruct Hc as [H1 [H2 H2'] H3 H4 H5].
  assert (B k ∉ inv) as Hni.
  { intros Hx. destruct (H1 _ Hin) as (_ & e1 & E1 & _ & _ & Hi). rewrite He in E1. injection E1 as <-.
    apply Hi in Hx. lia. }
  constructor.
  - intros x Hx. destruct (H1 x Hx) as (Hpx & ex & Hex & Hokx & Hrx & Hix). split; [done|].
    destruct (decide (x = B k)) as [->|Hne].
    + rewrite Hex in He. injection He as ->. exists (set_ref (f_ref e - 1) e). unfold F'. rewrite lookup_insert_eq.
      split_and!; [done|done| |].
      * simpl. rewrite Hr. symmetry. by apply (refs_clear_one B (B k) e k).
      * simpl. destruct (Z.eqb_spec (f_ref e - 1) 0); [|tauto]. split; [done|]. intros _. apply elem_of_app.
        right. by apply list_elem_of_singleton.
    + exists ex. unfold F'. rewrite lookup_insert_ne by done. split_and!; [done|done| |].
      * rewrite Hrx. apply refs_ext. intros j _. destruct (decide (j = k)) as [->|]; [rewrite HBk; split; intros; congruence || lia|by rewrite HB].
      * rewrite <- Hix. destruct (f_ref e - 1 =? 0); [|done]. rewrite elem_of_app, list_elem_of_singleton. tauto.
  - destruct (f_ref e - 1 =? 0); [|done]. split.
    + apply NoDup_app. split_and!; [done| |apply NoDup_singleton]. intros x Hx Hx'. by apply list_elem_of_singleton in Hx' as ->.
    + intros x [Hx|Hx]%elem_of_app; [auto|]. by apply list_elem_of_singleton in Hx as ->.
  - intros j Hj Hnzj. destruct (decide (j = k)) as [->|Hne]; [done|]. rewrite HB in * by done.
    destruct (H3 j Hj Hnzj) as [Hinj Hcj]. split; [done|]. intros ex. unfold F'.
    destruct (decide (B j = B k)) as [E|E]; [rewrite E, lookup_insert_eq|by rewrite lookup_insert_ne; auto].
    intros [= <-]. apply (Hcj e). congruence.
  - intros j q Hj Hq. destruct (HP _ _ Hq) as [Hne Hq'].
    destruct (phys_inv _ _ _ _ Hq') as (Hnzj & ej & Hej & ->).
    destruct (H3 j Hj Hnzj) as [Hinj Hcj]. destruct (H1 _ Hinj) as (_ & ? & E & Hokj & _). rewrite Hej in E. injection E as <-.
    specialize (Hcj _ Hej). rewrite Hu by (unfold slot_of, covers, ent_ok in *; lia).
    rewrite (H4 j _ Hj Hq'). simpl. apply negb_true_iff, Z.eqb_neq. intros E. rewrite E in Hq'.
    apply Hne. by apply (H5 j k (slot_of e k)).
  - intros j1 j2 q Hj1 Hj2 Hq1 Hq2. destruct (HP _ _ Hq1), (HP _ _ Hq2). by apply (H5 j1 j2 q).
Qed.

(** The callback of [file_index_insert] on block [k]. *)
Lemma callback_spec p s i L B k :
  inodes s !! p = Some i -> core (filents s) (sa_used (map_data s)) L (i_invalid i) B -> data_ok (map_data s) ->
  0 <= k < 2 ^ 31 -> B k <> 0 ->
  exists v n F b, filent_insert_callback p (B k) (i32 k) s = Ok (0, took p i v n F b s) /\
    core F (sa_used b) L v (clear k 1 B) /\ data_ok b /\ ents_le L (filents s) F /\
    forall q, 0 <= q < slot_num (sb_data sb) ->
      sa_used b q = sa_used (map_data s) q && negb (bool_decide (phys (filents s) B k = Some q)).
Proof.
  intros Hi Hc [Hinv Hval] Hk Hnz.
  destruct (core_entry _ _ _ _ _ _ Hc (proj1 Hk) Hnz) as (e & He & Hok & Hcov & Hp & Hin & Hr & Hpos & Hphys & Hslot).
  assert (f_ref e <= f_blocks e) by (rewrite Hr; apply refs_bound; destruct Hok; lia).
  assert (i32 (f_ref e - 1) = f_ref e - 1) as Er by (apply i32_small; destruct Hok; lia).
  pose proof (co_data _ _ _ _ _ Hc k _ (proj1 Hk) Hphys) as Hu.
  set (F := <[B k := set_ref (f_ref e - 1) e]> (filents s)).
  destruct (slot_data_free_one (upd_filents (fun _ => F) s) (slot_of e k) Hinv (proj2 (Hval _) Hslot) Hu)
    as (b & Hfree & Hb & Hbv & Hbu).
  set (v := if f_ref e - 1 =? 0 then i_invalid i ++ [B k] else i_invalid i).
  set (n := if f_ref e - 1 =? 0 then u64 (invalid_num i + 1) else invalid_num i).
  exists v, n, F, b. split_and!.
  - unfold filent_insert_callback. mstep (rd_filent_eq _ _ _ He). cbv zeta. rewrite Er.
    mstep eq_refl. rewrite (i32_small k) by lia. change (modify _ s) with (Ok (tt, upd_filents (fun _ => F) s)).
    cbv beta iota. change (f_p_idx e + (k - f_l_idx e)) with (slot_of e k). mstep Hfree.
    unfold v, n, took. destruct (f_ref e - 1 =? 0).
    + erewrite M_bind_step by (fs_step; apply upd_inode_eq; fs_lk). unfold mret, M_ret. do 2 f_equal.
      apply fs_ext; fsimpl; try done. by rewrite insert_insert_eq.
    + mstep eq_refl. unfold mret, M_ret. do 2 f_equal. apply fs_ext; fsimpl; try done. rewrite insert_id; [done|]. by destruct i.
  - apply (core_take (filents s) (sa_used (map_data s)) (sa_used b) L (i_invalid i) B k e); try done; [lia|].
    intros q Hq. apply Hbu. by apply Hval.
  - split; [done|]. intros j. rewrite Hbv. apply Hval.
  - intros x. unfold F. destruct (decide (x = B k)) as [->|Hne]; [right|left; by rewrite lookup_insert_ne].
    split; [done|]. exists e, (f_ref e - 1). by rewrite lookup_insert_eq.
  - intros q Hq. rewrite Hbu by (by apply Hval). fsimpl. do 2 f_equal. rewrite Hphys.
    destruct (Z.eqb_spec q (slot_of e k)); symmetry; [apply bool_decide_eq_true|apply bool_decide_eq_false]; congruence.
Qed.

Lemma clear_clear start n B k :
  0 <= n -> clear (start + 1) n (clear start 1 B) k = clear start (n + 1) B k.
Proof. intros Hn. unfold clear. repeat destruct (decide _); (done || lia). Qed.

(** Taking the [n] blocks from [start]. *)
Lemma take_range p s i L B start n :
  inodes s !! p = Some i -> core (filents s) (sa_used (map_data s)) L (i_invalid i) B -> data_ok (map_data s) ->
  0 <= start -> start + Z.of_nat n < 2 ^ 31 ->
  exists v k F b, range_ref n start B (Some (filent_insert_callback p)) s = Ok (n, false, took p i v k F b s) /\
    core F (sa_used b) L v (clear start (Z.of_nat n) B) /\ data_ok b /\ ents_le L (filents s) F /\
    (forall q, 0 <= q < slot_num (sb_data sb) -> sa_used b q = true -> sa_used (map_data s) q = true) /\
    (forall q, 0 <= q < slot_num (sb_data sb) -> sa_used (map_data s) q = true ->
       (forall k, start <= k < start + Z.of_nat n -> phys (filents s) B k <> Some q) -> sa_used b q = true).
Proof.
  revert s i B start. induction n as [|n IH]; intros s i B start Hi Hc Hd Hs Hn.
  { eexists _, _, _, _. cbn [range_ref]. split; [by rewrite (took_id p i s Hi)|]. split_and!; try done.
    - eapply core_ext; [|done]. intros k Hk. symmetry. apply clear_out. lia.
    - apply ents_le_refl. }
  assert (exists v k F b, range_ref 1 start B (Some (filent_insert_callback p)) s = Ok (1%nat, false, took p i v k F b s) /\
    core F (sa_used b) L v (clear start 1 B) /\ data_ok b /\ ents_le L (filents s) F /\
    (forall q, 0 <= q < slot_num (sb_data sb) ->
      sa_used b q = sa_used (map_data s) q && negb (bool_decide (phys (filents s) B start = Some q))))
    as (v & k & F & b & Hr & Hc1 & Hd1 & Hle1 & Hu1).
  { cbn [range_ref]. destruct (Z.eqb_spec (B start) 0) as [Hz|Hnz].
    - exists (i_invalid i), (invalid_num i), (filents s), (map_data s).
      split; [by rewrite (took_id p i s Hi)|]. split_and!; try done; [eapply core_ext; [|done]| |].
      + intros k Hk. destruct (decide (k = start)) as [->|]; [by rewrite clear_in by lia|by rewrite clear_out by lia].
      + apply ents_le_refl.
      + intros q Hq. unfold phys. rewrite Hz. simpl. by rewrite andb_true_r.
    - destruct (callback_spec p s i L B start Hi Hc Hd ltac:(lia) Hnz) as (v & k & F & b & E & ?).
      exists v, k, F, b. rewrite E. done. }
  set (s1 := took p i v k F b s) in *.
  set (i1 := upd_i_invalid (fun _ => v) (upd_invalid_num (fun _ => k) i)).
  destruct (IH s1 i1 (clear start 1 B) (start + 1)) as (v2 & k2 & F2 & b2 & Hr2 & Hc2 & Hd2 & Hle2 & Ha & Hb);
    [unfold s1, took; fs_lk|done|done|lia|lia|].
  exists v2, k2, F2, b2. unfold s1 in Hr2. unfold i1 in Hr2. rewrite took_took in Hr2. fold s1 in Hr2. split_and!; [|..].
  - cbn [range_ref]. cbn [range_ref] in Hr. apply bind_Ok in Hr as ([stop c] & Hcb & Hr). rewrite Hcb. simpl.
    simpl in Hr. destruct (negb (stop =? 0)); [done|]. simpl in Hr. injection Hr as ->.
    rewrite (range_ref_ext _ _ B (clear start 1 B)) by (intros j Hj; by rewrite clear_out by lia).
    by rewrite Hr2.
  - eapply core_ext; [|done]. intros j Hj. replace (Z.of_nat (S n)) with (Z.of_nat n + 1) by lia. apply clear_clear. lia.
  - done.
  - by eapply ents_le_trans.
  - intros q Hq Hu. apply Ha in Hu; [|done]. change (map_data s1) with b in Hu. rewrite Hu1 in Hu by done.
    by apply andb_true_iff in Hu as [? _].
  - intros q Hq Hu Hne. apply Hb; [done| |].
    + change (map_data s1) with b. rewrite Hu1, Hu by done. simpl. apply negb_true_iff, bool_decide_eq_false. apply Hne. lia.
    + intros j Hj. change (filents s1) with F. rewrite (ents_le_phys L (filents s)) by done.
      unfold phys. rewrite clear_out by lia. apply Hne. lia.
Qed.

(** ** [file_index_insert] *)

(** The state after the tree of the inode [i] at [p] became [t]. *)
Definition indexed (p : Z) (i : dram_inode) (t : btree) v n F b (s : fs) : fs :=
  upd_inodes <[p := with_tree t (upd_i_invalid (fun _ => v) (upd_invalid_num (fun _ => n) i))]>
    (upd_btree_arena (fun _ => pool t) (upd_filents (fun _ => F) (upd_map_data (fun _ => b) s))).

Lemma file_index_insert_spec stray p fe e s i L :
  inodes s !! p = Some i -> filents s !! fe = Some e -> ent_ok e ->
  core (filents s) (sa_used (map_data s)) L (i_invalid i) (block_of i) -> data_ok (map_data s) ->
  btree_wf (tree_of i (btree_arena s)) -> (12 + Z.to_nat (f_blocks e) * 6 < length (btree_arena s))%nat ->
  exists t v n F b, file_index_insert stray p fe s = Ok (0, indexed p i t v n F b s) /\
    btree_wf t /\ (exists u, btree_arena s = u ++ pool t) /\ b_height i <= bt_height t /\
    (forall k, 0 <= k -> contents t k = assign (f_l_idx e) (f_blocks e) fe (block_of i) k) /\
    core F (sa_used b) L v (clear (f_l_idx e) (f_blocks e) (block_of i)) /\ data_ok b /\ ents_le L (filents s) F /\
    (forall q, 0 <= q < slot_num (sb_data sb) -> sa_used b q = true -> sa_used (map_data s) q = true) /\
    (forall q, 0 <= q < slot_num (sb_data sb) -> sa_used (map_data s) q = true ->
       (forall k, covers e k -> phys (filents s) (block_of i) k <> Some q) -> sa_used b q = true).
Proof.
  intros Hi He Hok Hc Hd Hwf Hpool. pose proof Hok as (Hl & Hn & Hmax & _).
  destruct (take_range p s i L (block_of i) (f_l_idx e) (Z.to_nat (f_blocks e)) Hi Hc Hd)
    as (v & n & F & b & Hr & Hc' & Hd' & Hle & Ha & Hb); [lia|lia|].
  rewrite Z2Nat.id in * by lia.
  assert (capacity 6 = 2 ^ 56) as Hcap by done.
  pose proof (btree_set_range_callback_spec stray (f_l_idx e) (f_l_idx e + f_blocks e) fe
    (Some (filent_insert_callback p)) s (tree_of i (btree_arena s)) Hwf ltac:(lia) ltac:(lia)) as Hset.
  replace (f_l_idx e + f_blocks e - f_l_idx e) with (f_blocks e) in Hset by lia. specialize (Hset Hpool).
  rewrite (range_ref_ext _ _ _ (block_of i)) in Hset by (intros; apply contents_tree_of).
  rewrite Hr in Hset. destruct Hset as (t & Hs & Hwt & _ & Hh & Hu & Hct).
  exists t, v, n, F, b. split_and!; try done.
  - unfold file_index_insert. mstep eq_refl. mstep (rd_inode_eq _ _ _ Hi). mstep (rd_filent_eq _ _ _ He).
    rewrite !u64_small by lia. rewrite Hs. erewrite M_bind_step by reflexivity.
    erewrite M_bind_step by (apply upd_inode_eq; unfold took; fs_lk).
    unfold mret, M_ret, indexed, took. do 2 f_equal. apply fs_ext; fsimpl; try done. by rewrite insert_insert_eq.
  - intros k Hk. rewrite Hct by done. unfold assign. rewrite Z2Nat.id by lia.
    destruct (decide _); [done|apply contents_tree_of].
Qed.
End core.
