(* ===== verification/FileLog.v ===== *)
(** * The log of a file: [file_append_entry]

    [file_ok] is the invariant of a file: its index ([core] of FileIndex.v), its
    list of entries, and on the device a chain of file slots from [log_head]
    through the entries to the ghost slot, each slot with the extent of its
    entry.  [files_inv] says this for several files that share no slot and no
    entry.  [file_append_entry] keeps it, whether it takes a new entry object
    or uses an invalid entry again. *)
From stdpp Require Import base numbers list gmap.
From S2P Require Import Prelude Bitops Slot Btree Rbtree RbErase DirIndex Pm Mkfs Fs Journal Dir File FileIndex.
Local Open Scope Z_scope.

Section log.
Context (sb : pm_super_block).

(** ** The invariant *)

Definition fent_next (m : mem) (k : Z) : Z := i64 (load m (IDX2FENT sb k + PF_next) 8).
Definition fidx_of (F : gmap Z filent) (fe : Z) : Z := match F !! fe with Some e => f_idx e | None => 0 end.
(** The slots of a file, in the order of the log. *)
Definition fslots (F : gmap Z filent) (i : dram_inode) : list Z := (fidx_of F <$> i_list i) ++ [ghost_slot i].
Definition linked (m : mem) (l : list Z) : Prop :=
  forall j x y, l !! j = Some x -> l !! S j = Some y -> fent_next m x = y.
(** The slot of [e] holds its extent. *)
Definition fent_on (m : mem) (e : filent) : Prop :=
  let pf := IDX2FENT sb (f_idx e) in
  load m (pf + PF_l_idx) 4 = f_l_idx e /\ load m (pf + PF_p_idx) 4 = f_p_idx e /\
  load m (pf + PF_blocks) 4 = f_blocks e /\ i64 (load m (pf + PF_ts) 8) = f_ts e.

Record file_ok (s : fs) (i : dram_inode) : Prop := {
  fo_ino : 0 <= i_ino i < slot_num (sb_inode sb);
  fo_tree : btree_wf (tree_of i (btree_arena s));
  fo_core : core sb (filents s) (sa_used (map_data s)) (i_list i) (i_invalid i) (block_of i);
  fo_nodup : NoDup (i_list i);
  fo_busy fe : fe ∈ i_list i -> (fe ∉ entry_arena s) /\ fe < 2 ^ 62;
  fo_slots_nodup : NoDup (fslots (filents s) i);
  fo_slots k : k ∈ fslots (filents s) i -> 0 < k < slot_num (sb_file sb) /\ sa_used (map_file s) k = true;
  fo_head : head (fslots (filents s) i) = Some (log_head i);
  fo_pm_head : pm_head sb (bytes (dev s)) (i_ino i) = log_head i;
  fo_linked : linked (bytes (dev s)) (fslots (filents s) i);
  fo_on fe e : fe ∈ i_list i -> filents s !! fe = Some e -> fent_on (bytes (dev s)) e;
  fo_size : 0 <= i_size i < 2 ^ 43 /\ (i_size i mod PAGE_SIZE <> 0 -> block_of i (i_size i / PAGE_SIZE) <> 0);
}.

Record fshared (s : fs) : Prop := {
  fs_data : data_ok sb (map_data s);
  fs_file : sa_inv (map_file s);
  fs_valid k : sa_valid (map_file s) k <-> 0 <= k < slot_num (sb_file sb);
  fs_zero : sa_used (map_file s) 0 = true;
  fs_arena : NoDup (entry_arena s);
  fs_addr d : d ∈ entry_arena s -> 0 < d < 2 ^ 62;
}.

(** What two files do not share. *)
Definition file_apart (F : gmap Z filent) (i j : dram_inode) : Prop :=
  i_ino i <> i_ino j /\ (forall fe, fe ∈ i_list i -> fe ∉ i_list j) /\
  (forall k, k ∈ fslots F i -> k ∉ fslots F j) /\
  (forall k1 k2 q, 0 <= k1 -> 0 <= k2 -> phys F (block_of i) k1 = Some q -> phys F (block_of j) k2 <> Some q).

Record files_inv (s : fs) (P : list Z) : Prop := {
  fv_shared : fshared s;
  fv_each p : p ∈ P -> exists i, inodes s !! p = Some i /\ file_ok s i;
  fv_apart p q i j : p ∈ P -> q ∈ P -> p <> q -> inodes s !! p = Some i -> inodes s !! q = Some j ->
    file_apart (filents s) i j;
}.

(** ** Addresses *)

Hypothesis Hlo : layout_ok sb.

Lemma IDX2FENT_eq k : 0 <= k < slot_num (sb_file sb) -> IDX2FENT sb k = slot_table (sb_file sb) + 64 * k.
Proof.
  intros Hk. destruct Hlo as [(_ & _ & Hs & _) Hb Ht (? & ? & ? & ?) _ Hz]. unfold IDX2FENT. rewrite Hs.
  assert (BITMAP_START = 1060864) by done. unfold region_ok in *. rewrite u64_small; lia.
Qed.
Lemma IDX2DATA_eq k : 0 <= k < slot_num (sb_data sb) -> IDX2DATA sb k = slot_table (sb_data sb) + 4096 * k.
Proof.
  intros Hk. destruct Hlo as [(_ & _ & _ & Hs) Hb Ht (? & ? & ? & ?) _ Hz]. unfold IDX2DATA, PAGE_SHIFT.
  rewrite Z.shiftl_mul_pow2 by lia. change (2 ^ 12) with 4096.
  assert (BITMAP_START = 1060864) by done. unfold region_ok in *. rewrite u64_small; lia.
Qed.
Lemma fent_apart j k :
  0 <= j < slot_num (sb_file sb) -> 0 <= k < slot_num (sb_file sb) -> j <> k ->
  IDX2FENT sb j + 64 <= IDX2FENT sb k \/ IDX2FENT sb k + 64 <= IDX2FENT sb j.
Proof. intros. rewrite !IDX2FENT_eq by done. lia. Qed.
Lemma inode_below_fent i k :
  0 <= i < slot_num (sb_inode sb) -> 0 <= k < slot_num (sb_file sb) -> IDX2INODE sb i + 128 <= IDX2FENT sb k.
Proof.
  intros. rewrite (IDX2INODE_eq sb Hlo), IDX2FENT_eq by done. destruct Hlo as [_ _ Ht (_ & [? _] & _) _ _]. lia.
Qed.
Lemma fent_below_data i k :
  0 <= i < slot_num (sb_file sb) -> 0 <= k < slot_num (sb_data sb) -> IDX2FENT sb i + 64 <= IDX2DATA sb k.
Proof. intros. rewrite IDX2DATA_eq, IDX2FENT_eq by done. destruct Hlo as [_ _ Ht _ _ _]. lia. Qed.
Lemma inode_below_data i k :
  0 <= i < slot_num (sb_inode sb) -> 0 <= k < slot_num (sb_data sb) -> IDX2INODE sb i + 128 <= IDX2DATA sb k.
Proof.
  intros. rewrite (IDX2INODE_eq sb Hlo), IDX2DATA_eq by done.
  destruct Hlo as [_ _ Ht (_ & [? _] & [? _] & _) _ _]. lia.
Qed.

(** ** One slot changes *)

(** [m'] has the extent [ep] and the successor [next] in slot [fno], and is [m] elsewhere. *)
Definition logged (junk : mem) (fno : Z) (ep : pm_filent) (next : Z) (m m' : mem) : Prop :=
  forall x, m' x = if (IDX2FENT sb fno <=? x) && (x <? IDX2FENT sb fno + SIZEOF_PM_FILENT)
                   then pf_mem junk ep next crc32c (x - IDX2FENT sb fno) else m x.

Lemma load_shift f a off n : load (fun x => f (x - a)) (a + off) n = load f off n.
Proof.
  revert off. induction n as [|n IH]; intros off; [done|]. unfold load; fold load.
  rewrite <- Z.add_assoc, IH. f_equal. f_equal. lia.
Qed.
Lemma logged_load junk fno ep next m m' off n :
  logged junk fno ep next m m' -> 0 <= off -> off + Z.of_nat n <= SIZEOF_PM_FILENT ->
  load m' (IDX2FENT sb fno + off) n = load (pf_mem junk ep next crc32c) off n.
Proof.
  intros Hl Ho Hn.
  transitivity (load (fun x => pf_mem junk ep next crc32c (x - IDX2FENT sb fno)) (IDX2FENT sb fno + off) n);
    [|apply load_shift]. apply load_agree. intros x Hx. rewrite Hl.
  destruct (Z.leb_spec (IDX2FENT sb fno) x), (Z.ltb_spec x (IDX2FENT sb fno + SIZEOF_PM_FILENT)); simpl; done || lia.
Qed.
(** Bytes stay bytes. *)
Definition mem_kept (src : mem) (s s' : fs) : Prop := mem_ok src -> mem_ok (bytes (dev s)) -> mem_ok (bytes (dev s')).
Lemma logged_ok junk fno ep next m m' : logged junk fno ep next m m' -> mem_ok junk -> mem_ok m -> mem_ok m'.
Proof.
  intros Hl Hj Hm x. rewrite Hl. destruct (_ && _); [|apply Hm]. unfold pf_mem. by repeat apply store_ok.
Qed.
Lemma logged_outside junk fno ep next m m' a n :
  logged junk fno ep next m m' -> (a + n <= IDX2FENT sb fno \/ IDX2FENT sb fno + 64 <= a) -> agree a n m m'.
Proof.
  intros Hl Ha x Hx. rewrite Hl. unfold SIZEOF_PM_FILENT.
  destruct (Z.leb_spec (IDX2FENT sb fno) x), (Z.ltb_spec x (IDX2FENT sb fno + 40)); simpl; done || lia.
Qed.

Lemma logged_next junk fno ep next m m' :
  logged junk fno ep next m m' -> - 2 ^ 63 <= next < 2 ^ 63 -> fent_next m' fno = next.
Proof.
  intros Hl Hn. unfold fent_next. erewrite logged_load by (done || unfold PF_next, SIZEOF_PM_FILENT; simpl; lia).
  unfold pf_mem, PF_csum, PF_next. rewrite (load_agree 24 8 (store 24 8 next _)) by (apply store_agree; simpl; lia).
  by apply load_store_i64.
Qed.
Lemma logged_on junk fno ep next m m' e :
  logged junk fno ep next m m' -> f_idx e = fno ->
  pf_l_idx ep = f_l_idx e -> pf_p_idx ep = f_p_idx e -> pf_blocks ep = f_blocks e -> pf_ts ep = f_ts e ->
  0 <= f_l_idx e < 2 ^ 32 -> 0 <= f_p_idx e < 2 ^ 32 -> 0 <= f_blocks e < 2 ^ 32 -> - 2 ^ 63 <= f_ts e < 2 ^ 63 ->
  fent_on m' e.
Proof.
  intros Hl <- El Ep Eb Et ? ? ? ?. unfold fent_on. cbv zeta.
  unfold PF_l_idx, PF_p_idx, PF_blocks, PF_ts.
  erewrite !logged_load by (done || unfold SIZEOF_PM_FILENT; simpl; lia).
  unfold pf_mem, PF_csum, PF_next, PF_ts, PF_blocks, PF_p_idx, PF_l_idx. rewrite El, Ep, Eb, Et.
  split_and!.
  - rewrite (load_agree 0 4 (store 0 4 (f_l_idx e) junk)); [by apply load_store_u32|].
    repeat (eapply agree_trans; [|apply store_agree; simpl; lia]). apply agree_refl.
  - rewrite (load_agree 4 4 (store 4 4 (f_p_idx e) (store 0 4 (f_l_idx e) junk))); [by apply load_store_u32|].
    repeat (eapply agree_trans; [|apply store_agree; simpl; lia]). apply agree_refl.
  - rewrite (load_agree 8 4 (store 8 4 (f_blocks e) (store 4 4 (f_p_idx e) (store 0 4 (f_l_idx e) junk)))); [by apply load_store_u32|].
    repeat (eapply agree_trans; [|apply store_agree; simpl; lia]). apply agree_refl.
  - rewrite (load_agree 16 8 (store 16 8 (f_ts e) (store 8 4 (f_blocks e) (store 4 4 (f_p_idx e) (store 0 4 (f_l_idx e) junk))))); [by apply load_store_i64|].
    repeat (eapply agree_trans; [|apply store_agree; simpl; lia]). apply agree_refl.
Qed.

Lemma agree_fent_next k m m' : agree (IDX2FENT sb k) 40 m m' -> fent_next m' k = fent_next m k.
Proof.
  intros Ha. unfold fent_next. f_equal. apply load_agree. eapply agree_sub; [| |exact Ha]; unfold PF_next; simpl; lia.
Qed.
Lemma agree_fent_on m m' e : agree (IDX2FENT sb (f_idx e)) 40 m m' -> fent_on m e -> fent_on m' e.
Proof.
  intros Ha. unfold fent_on. cbv zeta. unfold PF_l_idx, PF_p_idx, PF_blocks, PF_ts.
  rewrite !(load_agree _ _ m m'); try done; (eapply agree_sub; [| |exact Ha]; simpl; lia).
Qed.
Lemma pm_head_agree ino m m' :
  agree (IDX2INODE sb ino) 128 m m' -> pm_head sb m' ino = pm_head sb m ino.
Proof.
  intros Ha. unfold pm_head. f_equal. apply load_agree. eapply agree_sub; [| |exact Ha]; unfold PI_log_head; simpl; lia.
Qed.

(** ** What a file does not depend on *)

Lemma fidx_of_eq F fe e : F !! fe = Some e -> fidx_of F fe = f_idx e.
Proof. intros H. unfold fidx_of. by rewrite H. Qed.

Lemma fslots_frame F F' i :
  (forall fe, fe ∈ i_list i -> fidx_of F' fe = fidx_of F fe) -> fslots F' i = fslots F i.
Proof.
  intros H. unfold fslots. f_equal. apply list_fmap_ext. intros k x Hx. apply H. by eapply list_elem_of_lookup_2.
Qed.
Lemma linked_agree m m' l : (forall k, k ∈ l -> fent_next m' k = fent_next m k) -> linked m l -> linked m' l.
Proof. intros He Hl j x y Hx Hy. rewrite He by (by eapply list_elem_of_lookup_2). by eapply Hl. Qed.
Lemma fidx_in_slots F i fe : fe ∈ i_list i -> fidx_of F fe ∈ fslots F i.
Proof. intros H. apply elem_of_app. left. by apply list_elem_of_fmap_2. Qed.

Lemma file_ok_frame s s' i :
  file_ok s i ->
  (forall fe, fe ∈ i_list i -> filents s' !! fe = filents s !! fe) ->
  (forall fe, fe ∈ i_list i -> fe ∉ entry_arena s') ->
  (exists u, btree_arena s = u ++ btree_arena s') ->
  (forall k q, 0 <= k -> phys (filents s) (block_of i) k = Some q -> sa_used (map_data s') q = sa_used (map_data s) q) ->
  (forall k, k ∈ fslots (filents s) i -> sa_used (map_file s') k = true) ->
  (forall k, k ∈ fslots (filents s) i -> agree (IDX2FENT sb k) 40 (bytes (dev s)) (bytes (dev s'))) ->
  pm_head sb (bytes (dev s')) (i_ino i) = pm_head sb (bytes (dev s)) (i_ino i) ->
  file_ok s' i.
Proof.
  intros Hok HF Ha (u & Hu) Hd Hf Hm Hi. destruct Hok as [O1 O2 O3 O4 O5 O6 O7 O8 O9 O10 O11 O12].
  assert (fslots (filents s') i = fslots (filents s) i) as Es.
  { apply fslots_frame. intros fe Hfe. unfold fidx_of. by rewrite HF. }
  constructor; rewrite ?Es; try done.
  - by apply (btree_wf_pool (tree_of i (btree_arena s)) u (btree_arena s')).
  - eapply core_frame; [exact HF|]. eapply core_used; [|exact O3]. done.
  - intros fe Hfe. destruct (O5 fe Hfe). split; [|done]. by apply Ha.
  - intros k Hk. split; [by apply O7|by apply Hf].
  - by rewrite Hi.
  - eapply linked_agree; [|exact O10]. intros k Hk. apply agree_fent_next. by apply Hm.
  - intros fe e Hfe He. rewrite HF in He by done. eapply agree_fent_on; [|by eapply O11].
    apply Hm. rewrite <- (fidx_of_eq _ _ _ He). by apply fidx_in_slots.
Qed.

(** ** Choosing the entry *)

Lemma pm_avx_from_eq buf dest src size s :
  0 <= size -> exists m', pm_avx_from buf dest src size s = Ok (tt, upd_dev (pm_update (fun _ => m')) s) /\
    forall x, m' x = if (dest <=? x) && (x <? dest + size) then buf (src + (x - dest)) else bytes (dev s) x.
Proof.
  intros Hs. destruct (avx_cpy_spec (fun _ => buf) dest src size (bytes (dev s)) Hs (src_stable_buffer _ _ _ _))
    as (m' & E & Hc). exists m'. split; [|exact Hc]. unfold pm_avx_from. mstep eq_refl.
  erewrite M_bind_step by (unfold lift; by rewrite E). done.
Qed.
Lemma pm_avx_move_eq dest src size s :
  0 <= size -> (src + size <= dest \/ dest + size <= src) ->
  exists m', pm_avx_move dest src size s = Ok (tt, upd_dev (pm_update (fun _ => m')) s) /\
    forall x, m' x = if (dest <=? x) && (x <? dest + size) then bytes (dev s) (src + (x - dest)) else bytes (dev s) x.
Proof.
  intros Hs Hd. destruct (avx_cpy_spec (fun m => m) dest src size (bytes (dev s)) Hs (src_stable_pm _ _ _ Hd))
    as (m' & E & Hc). exists m'. split; [|exact Hc]. unfold pm_avx_move. mstep eq_refl.
  erewrite M_bind_step by (unfold lift; by rewrite E). done.
Qed.

Lemma filent_dispatch_spec p size s i :
  inodes s !! p = Some i ->
  exists fe n, 
    (fe = 0 /\ filent_dispatch p size s = Ok (fe, upd_inodes <[p := upd_invalid_num (fun _ => n) i]> s)) \/
    (exists l, i_invalid i = fe :: l /\
       filent_dispatch p size s = Ok (fe, upd_inodes <[p := upd_i_invalid (fun _ => list_del (i_invalid i) fe)
                                          (upd_invalid_num (fun _ => n) i)]> s)).
Proof.
  intros Hi. unfold filent_dispatch. mstep (rd_inode_eq _ _ _ Hi).
  destruct (below_threshold _ _ _).
  { exists 0, (invalid_num i). left. split; [done|]. unfold mret, M_ret. do 2 f_equal.
    rewrite upd_inodes_id; [done|]. by destruct i. }
  fs_step. unfold filent_try_reuse. fs_step. fsimpl. destruct (i_invalid i) as [|fe l] eqn:El.
  - exists 0. eexists. left. split; [done|]. done.
  - exists fe, (u64 (u64 (invalid_num i - 1) - 1)). right. exists l. split; [done|]. fs_step. fs_step.
    unfold mret, M_ret. do 2 f_equal. apply fs_ext; fsimpl; try done. rewrite !insert_insert_eq. f_equal.
    destruct i. cbn in *. by subst.
Qed.

Lemma entry_alloc_eq s d l : entry_arena s = d :: l -> filent_alloc s = Ok (d, upd_entry_arena (fun _ => l) s).
Proof. intros H. unfold filent_alloc, entry_alloc. by rewrite H. Qed.

(** A new entry object, and the next ghost slot. *)
Definition chosen_new (p : Z) (i : dram_inode) (n g : Z) (b : list dram_bitmap) (l : list Z) (s : fs) : fs :=
  upd_inodes <[p := upd_ghost_slot (fun _ => g) (upd_invalid_num (fun _ => n) i)]>
    (upd_map_file (fun _ => b) (upd_entry_arena (fun _ => l) s)).
(** An invalid entry. *)
Definition chosen_reuse (p : Z) (i : dram_inode) (n fe : Z) (s : fs) : fs :=
  upd_inodes <[p := upd_i_invalid (fun _ => list_del (i_invalid i) fe) (upd_invalid_num (fun _ => n) i)]> s.

Lemma filent_choose_spec cpu p ep s i :
  fshared s -> inodes s !! p = Some i -> file_ok s i -> is_symlink i = false -> 0 <= cpu ->
  entry_arena s <> [] -> (exists k, 0 <= k < slot_num (sb_file sb) /\ sa_used (map_file s) k = false) ->
  (exists fe l n g b, filent_choose cpu p ep s = Ok ((fe, ghost_slot i, None), chosen_new p i n g b l s) /\
     entry_arena s = fe :: l /\ sa_inv b /\ (forall k, sa_valid b k <-> sa_valid (map_file s) k) /\
     0 < g < slot_num (sb_file sb) /\ sa_used (map_file s) g = false /\
     (forall k, 0 <= k < slot_num (sb_file sb) -> sa_used b k = sa_used (map_file s) k || (k =? g))) \/
  (exists fe e n next l1 l2, filent_choose cpu p ep s = Ok ((fe, f_idx e, Some next), chosen_reuse p i n fe s) /\
     fe ∈ i_invalid i /\ filents s !! fe = Some e /\ i_list i = l1 ++ fe :: l2 /\
     fslots (filents s) i !! S (length l1) = Some next).
Proof.
  intros Hsh Hi Hok Hsym Hcpu Har (k0 & Hk0 & Hfree). unfold filent_choose.
  destruct (filent_dispatch_spec p (u32 (Z.shiftl (pf_blocks ep) PAGE_SHIFT)) s i Hi) as (fe & n & [[-> E]|(l & El & E)]);
    mstep E; fs_step.
  - left. simpl (negb _). cbv iota. destruct (entry_arena s) as [|fe l] eqn:Ea; [done|].
    assert (0 < fe < 2 ^ 62) as Hfe by (apply (fs_addr s Hsh); rewrite Ea; by left).
    mstep (entry_alloc_eq (upd_inodes _ s) fe l Ea). destruct (Z.eqb_spec fe 0); [lia|].
    assert (is_symlink (upd_invalid_num (fun _ => n) i) = false) as -> by done.
    destruct (slot_firent_alloc_spec cpu (upd_entry_arena (fun _ => l) (upd_inodes <[p := upd_invalid_num (fun _ => n) i]> s))
      (fs_file s Hsh) Hcpu) as (g & b & Hg & Hb & Hbv & Hr).
    mstep Hg. destruct Hr as [(_ & _ & Hall)|(Hgv & Hgu & Hbu)].
    { specialize (Hall k0 (proj2 (fs_valid s Hsh k0) Hk0)). change (sa_used (map_file s) k0 = true) in Hall. congruence. }
    change (sa_valid (map_file s) g) in Hgv. change (sa_used (map_file s) g = false) in Hgu.
    apply (fs_valid s Hsh) in Hgv.
    assert (g <> 0) by (intros ->; rewrite (fs_zero s Hsh) in Hgu; done).
    fs_step. destruct (Z.ltb_spec g (-1)); [lia|]. exists fe, l, n, g, b. split_and!; try done; try lia.
    + unfold mret, M_ret, chosen_new. do 2 f_equal. apply fs_ext; fsimpl; try done. by rewrite insert_insert_eq.
    + intros k Hk. apply Hbu. by apply (fs_valid s Hsh).
  - right. pose proof (fo_core _ _ Hok) as Hc. assert (fe ∈ i_invalid i) as Hin by (rewrite El; by left).
    pose proof (proj2 (co_inv _ _ _ _ _ _ Hc) fe Hin) as HinL.
    destruct (co_obj _ _ _ _ _ _ Hc fe HinL) as (Hpos & e & He & _).
    destruct (Z.eqb_spec fe 0); [lia|]. simpl (negb _). cbv iota. fsimpl.
    apply list_elem_of_split in HinL as (l1 & l2 & HL). pose proof (fo_nodup _ _ Hok) as Hnd. rewrite HL in Hnd.
    apply NoDup_app in Hnd as (_ & Hnd & _). assert (fe ∉ l1) as Hni by (intros Hx; apply (Hnd _ Hx); by left).
    erewrite M_bind_step by (unfold list_links; rewrite HL, list_around_app by done; reflexivity). cbv beta iota.
    assert (fslots (filents s) i !! S (length l1) = Some (match head l2 with Some x => fidx_of (filents s) x | None => ghost_slot i end)) as Hnext.
    { unfold fslots. rewrite HL, fmap_app, <- app_assoc. rewrite lookup_app_r by (rewrite length_fmap; lia).
      rewrite length_fmap. replace (S (length l1) - length l1)%nat with 1%nat by lia. by destruct l2. }
    destruct (head l2) as [nx|] eqn:Eh.
    + destruct (co_obj _ _ _ _ _ _ Hc nx) as (_ & ex & Hex & _).
      { rewrite HL. apply elem_of_app. right. right. destruct l2; [done|]. injection Eh as ->. by left. }
      erewrite M_bind_step by (fs_step; reflexivity). fs_step. rewrite (fidx_of_eq _ _ _ Hex) in Hnext.
      by exists fe, e, n, (f_idx ex), l1, l2.
    + mstep eq_refl. fs_step. by exists fe, e, n, (ghost_slot i), l1, l2.
Qed.

(** ** The rest of [file_append_entry] *)

Definition on_list (rn : option Z) (fe : Z) : dram_inode -> dram_inode :=
  match rn with None => upd_i_list (fun l => l ++ [fe]) | Some _ => id end.
Definition on_num (rn : option Z) : dram_inode -> dram_inode :=
  match rn with None => upd_entry_num (fun n => u64 (n + 1)) | Some _ => id end.
Definition new_entry (fno : Z) (ep : pm_filent) : filent :=
  mk_filent fno (pf_ts ep) (pf_l_idx ep) (pf_p_idx ep) (pf_blocks ep) (i32 (pf_blocks ep)).
(** The inode and the state at the end. *)
Definition fin_inode (rn : option Z) (fe : Z) (t : btree) (v : list Z) (n : Z) (i : dram_inode) : dram_inode :=
  on_num rn (with_tree t (upd_i_invalid (fun _ => v) (upd_invalid_num (fun _ => n) (on_list rn fe i)))).
Definition fin_state (p : Z) (i' : dram_inode) (t : btree) F b (m' : mem) (s : fs) : fs :=
  upd_dev (pm_update (fun _ => m')) (upd_inodes <[p := i']>
    (upd_btree_arena (fun _ => pool t) (upd_filents (fun _ => F) (upd_map_data (fun _ => b) s)))).

Definition ep_ok (ep : pm_filent) : Prop :=
  0 <= pf_l_idx ep /\ 0 < pf_blocks ep /\ pf_l_idx ep + pf_blocks ep < 2 ^ 31 /\
  0 <= pf_p_idx ep /\ pf_p_idx ep + pf_blocks ep <= slot_num (sb_data sb) /\ - 2 ^ 63 <= pf_ts ep < 2 ^ 63.

Lemma append_tail cpu stray junk p ep s s1 fe fno rn i1 L :
  filent_choose cpu p ep s = Ok ((fe, fno, rn), s1) -> 0 < fe -> inodes s1 !! p = Some i1 -> ep_ok ep ->
  (fe ∉ L) -> core sb (filents s1) (sa_used (map_data s1)) L (i_invalid i1) (block_of i1) -> data_ok sb (map_data s1) ->
  btree_wf (tree_of i1 (btree_arena s1)) -> (12 + Z.to_nat (pf_blocks ep) * 6 < length (btree_arena s1))%nat ->
  let e := new_entry fno ep in
  exists t v n F b m', file_append_entry sb cpu stray junk p ep s =
      Ok (fe, fin_state p (fin_inode rn fe t v n i1) t F b m' s1) /\
    logged junk fno ep (default (ghost_slot i1) rn) (bytes (dev s1)) m' /\
    btree_wf t /\ (exists u, btree_arena s1 = u ++ pool t) /\ b_height i1 <= bt_height t /\
    (forall k, 0 <= k -> contents t k = assign (f_l_idx e) (f_blocks e) fe (block_of i1) k) /\
    core sb F (sa_used b) L v (clear (f_l_idx e) (f_blocks e) (block_of i1)) /\ data_ok sb b /\
    ents_le L (<[fe := e]> (filents s1)) F /\
    (forall q, 0 <= q < slot_num (sb_data sb) -> sa_used b q = true -> sa_used (map_data s1) q = true) /\
    (forall q, 0 <= q < slot_num (sb_data sb) -> sa_used (map_data s1) q = true ->
       (forall k, covers e k -> phys (filents s1) (block_of i1) k <> Some q) -> sa_used b q = true).
Proof.
  intros Hch Hpos Hi (El & En & Em & Ep & Eq & Et) Hni Hc Hd Hwf Hpool e.
  set (s2 := upd_inodes <[p := on_list rn fe i1]> (upd_filents <[fe := e]> s1)).
  assert (tree_of (on_list rn fe i1) (btree_arena s2) = tree_of i1 (btree_arena s1)) as Et1 by (by destruct rn).
  assert (block_of (on_list rn fe i1) = block_of i1) as Eb1 by (by destruct rn).
  assert (i_invalid (on_list rn fe i1) = i_invalid i1) as Ei1 by (by destruct rn).
  destruct (file_index_insert_spec sb stray p fe e s2 (on_list rn fe i1) L)
    as (t & v & n & F & b & Hins & Hwt & Hu & Hh & Hct & Hc' & Hd' & Hle & Ha & Hb).
  - unfold s2. fs_lk.
  - unfold s2. fs_lk.
  - unfold ent_ok, e. simpl. lia.
  - rewrite Eb1, Ei1. eapply core_frame; [|exact Hc]. intros x Hx. unfold s2. fsimpl.
    rewrite lookup_insert_ne; [done|]. by intros ->.
  - done.
  - by rewrite Et1.
  - done.
  - destruct (pm_avx_from_eq (pf_mem junk ep (default (ghost_slot i1) rn) crc32c) (IDX2FENT sb fno) 0 SIZEOF_PM_FILENT
      (indexed p (on_list rn fe i1) t v n F b s2)) as (m' & Hm & Hmx); [done|].
    exists t, v, n, F, b, m'. split.
    + unfold file_append_entry. mstep Hch. cbv beta iota. destruct (Z.ltb_spec fe 0); [lia|].
      mstep eq_refl. erewrite M_bind_step.
      2: { instantiate (1 := s2). instantiate (1 := tt). unfold s2. destruct rn; cbn [on_list].
           - unfold mret, M_ret. do 2 f_equal. by rewrite (upd_inodes_id _ p) by fs_lk.
           - apply upd_inode_eq. fs_lk. }
      mstep Hins. erewrite M_bind_step by (apply rd_inode_eq; unfold indexed; fs_lk).
      assert (match rn with Some n0 => n0 | None => ghost_slot (with_tree t (upd_i_invalid (fun _ => v)
        (upd_invalid_num (fun _ => n) (on_list rn fe i1)))) end = default (ghost_slot i1) rn) as -> by (by destruct rn).
      cbv zeta. mstep Hm. unfold fin_state, fin_inode.
      destruct rn; cbn [on_list on_num]; [mstep eq_refl|erewrite M_bind_step by (apply upd_inode_eq; unfold indexed; fs_lk)];
        unfold mret, M_ret; do 2 f_equal; unfold indexed, s2; apply fs_ext; fsimpl; try done; by rewrite !insert_insert_eq.
    + split; [intros x; rewrite Hmx; by rewrite Z.add_0_l|]. rewrite Eb1 in *. split_and!; try done.
      * by destruct rn.
      * intros q Hq Hqu Hk. apply Hb; [done|done|]. intros k Hck. specialize (Hk k Hck). intros E. apply Hk.
        rewrite <- E. unfold phys. destruct (Z.eqb_spec (block_of i1 k) 0) as [|Hnz]; [done|].
        unfold s2. fsimpl. rewrite lookup_insert_ne; [done|]. intros ->. 
        assert (0 <= k) by (unfold covers, e in Hck; simpl in Hck; lia).
        by destruct (co_map _ _ _ _ _ _ Hc k ltac:(done) Hnz).
Qed.

(** ** The index afterwards *)

Section fin.
Context (s1 : fs) (i1 : dram_inode) (fe fno : Z) (ep : pm_filent) (rn : option Z) (L : list Z).
Context (t : btree) (v : list Z) (n : Z) (F : gmap Z filent) (b : list dram_bitmap).
Local Definition f_e : filent := new_entry fno ep.
Local Definition f_i : dram_inode := fin_inode rn fe t v n i1.
Hypothesis Hpos : 0 < fe.
Hypothesis Hep : ep_ok ep.
Hypothesis Hni : fe ∉ L.
Hypothesis Hc1 : core sb (filents s1) (sa_used (map_data s1)) L (i_invalid i1) (block_of i1).
Hypothesis Hct : forall k, 0 <= k -> contents t k = assign (f_l_idx f_e) (f_blocks f_e) fe (block_of i1) k.
Hypothesis Hc : core sb F (sa_used b) L v (clear (f_l_idx f_e) (f_blocks f_e) (block_of i1)).
Hypothesis Hle : ents_le L (<[fe := f_e]> (filents s1)) F.
Hypothesis Hkeep : forall q, 0 <= q < slot_num (sb_data sb) -> sa_used (map_data s1) q = true ->
  (forall k, covers f_e k -> phys (filents s1) (block_of i1) k <> Some q) -> sa_used b q = true.
Hypothesis Hfresh : forall q, pf_p_idx ep <= q < pf_p_idx ep + pf_blocks ep ->
  sa_used (map_data s1) q = true /\ forall k, 0 <= k -> phys (filents s1) (block_of i1) k <> Some q.

Lemma fin_block k : 0 <= k -> block_of f_i k = assign (pf_l_idx ep) (pf_blocks ep) fe (block_of i1) k.
Proof.
  intros Hk. etransitivity; [|exact (Hct k Hk)]. transitivity (contents (tree_of f_i (pool t)) k); [symmetry; apply contents_tree_of|].
  f_equal. unfold f_i, fin_inode. destruct rn, t; done.
Qed.

Lemma fin_e_ok : ent_ok sb f_e.
Proof. unfold ent_ok, f_e, new_entry. simpl. unfold ep_ok in Hep. lia. Qed.

Lemma fin_F x : x ∉ L -> F !! x = (<[fe := f_e]> (filents s1)) !! x.
Proof. intros Hx. by destruct (Hle x) as [|[? _]]. Qed.
Lemma fin_lookup x ex :
  F !! x = Some ex -> exists e0, (<[fe := f_e]> (filents s1)) !! x = Some e0 /\ ex = set_ref (f_ref ex) e0.
Proof.
  intros Hx. destruct (Hle x) as [E|(_ & e0 & r & E & E')].
  - rewrite Hx in E. exists ex. split; [done|]. by destruct ex.
  - rewrite Hx in E'. exists e0. split; [done|]. by injection E' as ->.
Qed.
Lemma fin_fidx x : fidx_of F x = fidx_of (<[fe := f_e]> (filents s1)) x.
Proof.
  unfold fidx_of. destruct (Hle x) as [->|(_ & e0 & r & -> & ->)]; done.
Qed.
Lemma fin_fidx_ne x : x <> fe -> fidx_of F x = fidx_of (filents s1) x.
Proof. intros Hne. rewrite fin_fidx. unfold fidx_of. by rewrite lookup_insert_ne. Qed.
Lemma fin_fidx_fe : fidx_of F fe = fno.
Proof. rewrite fin_fidx. unfold fidx_of. by rewrite lookup_insert_eq. Qed.

(** No block referred to [fe] before. *)
Lemma fin_phys_old k : 0 <= k -> phys F (block_of i1) k = phys (filents s1) (block_of i1) k.
Proof.
  intros Hk. rewrite (ents_le_phys L (<[fe := f_e]> (filents s1))) by done. unfold phys.
  destruct (Z.eqb_spec (block_of i1 k) 0) as [|Hnz]; [done|]. rewrite lookup_insert_ne; [done|].
  intros E. by destruct (co_map _ _ _ _ _ _ Hc1 k Hk Hnz) as [? _]; rewrite <- E in *.
Qed.
Lemma fin_phys k : 0 <= k ->
  phys F (block_of f_i) k = if decide (covers f_e k) then Some (slot_of f_e k) else phys (filents s1) (block_of i1) k.
Proof.
  intros Hk. pose proof (fin_block k Hk) as E. destruct (decide (covers f_e k)) as [Hcv|Hcv].
  - rewrite assign_in in E by exact Hcv. apply phys_eq; [lia|]. rewrite E, fin_F by done. by rewrite lookup_insert_eq.
  - rewrite assign_out in E by exact Hcv. rewrite <- fin_phys_old by done. unfold phys. by rewrite E.
Qed.

Lemma fin_extent k : 0 <= k ->
  extent F (block_of f_i) k = if decide (covers f_e k) then Some (pf_blocks ep) else extent (filents s1) (block_of i1) k.
Proof.
  intros Hk. pose proof (fin_block k Hk) as E. unfold extent. destruct (decide (covers f_e k)) as [Hcv|Hcv].
  - rewrite assign_in in E by exact Hcv. rewrite E, (proj2 (Z.eqb_neq fe 0)) by lia. by rewrite fin_F, lookup_insert_eq by done.
  - rewrite assign_out in E by exact Hcv. rewrite E. destruct (Z.eqb_spec (block_of i1 k) 0) as [|Hnz]; [done|].
    assert (block_of i1 k <> fe) as Hne by (intros E'; by destruct (co_map _ _ _ _ _ _ Hc1 k Hk Hnz) as [? _]; rewrite E' in *).
    destruct (Hle (block_of i1 k)) as [->|(_ & e0 & r & E0 & ->)]; [by rewrite lookup_insert_ne|].
    rewrite lookup_insert_ne in E0 by done. by rewrite E0.
Qed.

Lemma fin_core : core sb F (sa_used b) (L ++ [fe]) v (block_of f_i).
Proof.
  pose proof fin_e_ok as Hok. assert (0 <= pf_blocks ep < 2 ^ 31) by (unfold ep_ok in Hep; lia).
  eapply core_ext; [|apply (core_add sb F (sa_used b) L v (clear (f_l_idx f_e) (f_blocks f_e) (block_of i1)) fe f_e)]; try done.
  - intros k Hk. rewrite fin_block by done. unfold assign, clear, f_e. simpl. repeat destruct (decide _); done.
  - rewrite fin_F by done. by rewrite lookup_insert_eq.
  - unfold f_e. simpl. apply i32_small. lia.
  - intros k Hk. by apply clear_in.
  - intros k q Hk Hq Hr. apply phys_inv in Hq as (Hnz & e0 & He0 & ->).
    assert (~ covers f_e k) as Hcv by (intros Hcv; rewrite clear_in in Hnz; done).
    rewrite clear_out in Hnz, He0 by exact Hcv.
    apply (proj2 (Hfresh _ Hr) k Hk). rewrite <- fin_phys_old by done. by apply phys_eq.
  - intros q Hq. destruct (Hfresh q Hq) as [Hu Hn]. apply Hkeep; [unfold ep_ok, f_e in *; simpl in *; lia|done|].
    intros k Hk. apply Hn. unfold covers, ent_ok in *. lia.
Qed.

(** The data slots of other files stay in use. *)
Lemma fin_used q :
  0 <= q < slot_num (sb_data sb) -> sa_used (map_data s1) q = true ->
  (forall k, 0 <= k -> phys (filents s1) (block_of i1) k <> Some q) -> sa_used b q = true.
Proof. intros Hq Hu Hn. apply Hkeep; [done|done|]. intros k Hk. apply Hn. pose proof fin_e_ok. unfold covers, ent_ok in *. lia. Qed.

Lemma fin_on m x ex e0 :
  F !! x = Some ex -> x <> fe -> filents s1 !! x = Some e0 -> fent_on m e0 -> fent_on m ex.
Proof.
  intros Hx Hne H0 Hon. apply fin_lookup in Hx as (e1 & E & ->). rewrite lookup_insert_ne in E by done. by simplify_eq.
Qed.
End fin.

(** ** The log afterwards *)

(** What [append_tail] says about the results. *)
Record tail_ok (s1 : fs) (i1 : dram_inode) (fe fno : Z) (ep : pm_filent) (rn : option Z) (L : list Z)
    (t : btree) (v : list Z) (F : gmap Z filent) (b : list dram_bitmap) (junk m' : mem) : Prop := {
  ta_log : logged junk fno ep (default (ghost_slot i1) rn) (bytes (dev s1)) m';
  ta_wf : btree_wf t;
  ta_pool : exists u, btree_arena s1 = u ++ pool t;
  ta_height : b_height i1 <= bt_height t;
  ta_contents k : 0 <= k -> contents t k = assign (pf_l_idx ep) (pf_blocks ep) fe (block_of i1) k;
  ta_core : core sb F (sa_used b) L v (clear (pf_l_idx ep) (pf_blocks ep) (block_of i1));
  ta_data : data_ok sb b;
  ta_le : ents_le L (<[fe := new_entry fno ep]> (filents s1)) F;
  ta_less q : 0 <= q < slot_num (sb_data sb) -> sa_used b q = true -> sa_used (map_data s1) q = true;
  ta_keep q : 0 <= q < slot_num (sb_data sb) -> sa_used (map_data s1) q = true ->
    (forall k, covers (new_entry fno ep) k -> phys (filents s1) (block_of i1) k <> Some q) -> sa_used b q = true;
}.

(** The data slots of the new extent are taken, but of no block of this file. *)
Definition fresh_for (F : gmap Z filent) (used : Z -> bool) (i : dram_inode) (ep : pm_filent) : Prop :=
  forall q, pf_p_idx ep <= q < pf_p_idx ep + pf_blocks ep ->
    used q = true /\ forall k, 0 <= k -> phys F (block_of i) k <> Some q.

Lemma linked_snoc m m' l x y :
  linked m (l ++ [x]) -> NoDup (l ++ [x]) -> (forall k, k ∈ l -> fent_next m' k = fent_next m k) ->
  fent_next m' x = y -> linked m' (l ++ [x; y]).
Proof.
  intros Hl Hnd He Hx j a c Ha Hc. destruct (decide (j < length l)%nat) as [Hj|Hj].
  - rewrite lookup_app_l in Ha by done. rewrite He by (by eapply list_elem_of_lookup_2).
    apply (Hl j); [by rewrite lookup_app_l|]. destruct (decide (S j < length l)%nat).
    + rewrite lookup_app_l in Hc by done. by rewrite lookup_app_l.
    + rewrite lookup_app_r in Hc by lia. rewrite lookup_app_r by lia.
      replace (S j - length l)%nat with 0%nat in * by lia. done.
  - rewrite lookup_app_r in Ha by lia. rewrite lookup_app_r in Hc by lia.
    destruct (j - length l)%nat as [|[|?]] eqn:E; [|replace (S j - length l)%nat with 2%nat in Hc by lia; done|done].
    replace (S j - length l)%nat with 1%nat in Hc by lia. simpl in *. congruence.
Qed.

Lemma new_file_ok junk p s i fe l n0 g bf ep t v n F b m' :
  let i1 := upd_ghost_slot (fun _ => g) (upd_invalid_num (fun _ => n0) i) in
  let s1 := chosen_new p i n0 g bf l s in
  let i' := fin_inode None fe t v n i1 in
  fshared s -> file_ok s i -> entry_arena s = fe :: l -> 0 < g < slot_num (sb_file sb) ->
  sa_used (map_file s) g = false ->
  (forall k, 0 <= k < slot_num (sb_file sb) -> sa_used bf k = sa_used (map_file s) k || (k =? g)) ->
  ep_ok ep -> tail_ok s1 i1 fe (ghost_slot i) ep None (i_list i) t v F b junk m' ->
  fresh_for (filents s) (sa_used (map_data s)) i ep ->
  file_ok (fin_state p i' t F b m' s1) i' /\ fslots F i' = fslots (filents s) i ++ [g].
Proof.
  intros i1 s1 i' Hsh Hok Ear Hg Hgu Hbf Hep [Tl Tw [u Tu] Th Tc Tco Td Tle Tless Tk] Hfr.
  assert (0 < fe < 2 ^ 62) as Hfe by (apply (fs_addr s Hsh); rewrite Ear; by left).
  assert (fe ∉ i_list i) as Hni by (intros Hx; destruct (fo_busy _ _ Hok fe Hx) as [Hy _]; apply Hy; rewrite Ear; by left).
  pose proof (fo_core _ _ Hok) as Hco.
  assert (core sb F (sa_used b) (i_list i ++ [fe]) v (block_of i')) as Hcore
    by (apply (fin_core s1 i1 fe (ghost_slot i) ep None (i_list i) t v n F b); [lia|exact Hep|exact Hni|exact Hco|exact Tc|exact Tco|exact Tle|exact Tk|exact Hfr]).
  assert (Hfx : forall x, x <> fe -> fidx_of F x = fidx_of (filents s) x)
    by (intros x; by apply (fin_fidx_ne s1 fe (ghost_slot i) ep (i_list i) F)).
  assert (fidx_of F fe = ghost_slot i) as Hfxe by (by apply (fin_fidx_fe s1 fe (ghost_slot i) ep (i_list i) F)).
  assert (fslots F i' = fslots (filents s) i ++ [g]) as Es.
  { unfold fslots at 1. change (i_list i') with (i_list i ++ [fe]). change (ghost_slot i') with g.
    unfold fslots. rewrite fmap_app. simpl. rewrite Hfxe. f_equal. f_equal. apply list_fmap_ext.
    intros k x Hx. apply Hfx. intros ->. apply Hni. by eapply list_elem_of_lookup_2. }
  split; [|exact Es].
  assert (ghost_slot i ∈ fslots (filents s) i) as Hgs by (apply elem_of_app; right; by apply list_elem_of_singleton).
  destruct (fo_slots _ _ Hok _ Hgs) as [Hgr Hgu'].
  assert (Hag : forall k, k ∈ fslots (filents s) i -> k <> ghost_slot i -> agree (IDX2FENT sb k) 40 (bytes (dev s)) m').
  { intros k Hk Hne. apply (logged_outside junk (ghost_slot i) ep g); [done|].
    destruct (fo_slots _ _ Hok _ Hk) as [Hkr _]. destruct (fent_apart k (ghost_slot i)); lia. }
  constructor.
  - exact (fo_ino _ _ Hok).
  - change (btree_wf (tree_of i' (pool t))). by destruct t.
  - exact Hcore.
  - change (i_list i') with (i_list i ++ [fe]). apply NoDup_app. split_and!; [apply Hok| |apply NoDup_singleton].
    intros x Hx Hx'. by apply list_elem_of_singleton in Hx' as ->.
  - intros x Hx. change (x ∈ i_list i ++ [fe]) in Hx. change ((x ∉ l) /\ x < 2 ^ 62).
    pose proof (fs_arena s Hsh) as Hnd. rewrite Ear in Hnd. apply NoDup_cons in Hnd as [Hnl Hnd].
    apply elem_of_app in Hx as [Hx|Hx].
    + destruct (fo_busy _ _ Hok x Hx) as [Hy ?]. split; [|done]. intros Hz. apply Hy. rewrite Ear. by right.
    + apply list_elem_of_singleton in Hx as ->. split; [done|lia].
  - change (NoDup (fslots F i')). rewrite Es. apply NoDup_app. split_and!; [apply Hok| |apply NoDup_singleton].
    intros x Hx Hx'. apply list_elem_of_singleton in Hx' as ->. destruct (fo_slots _ _ Hok _ Hx). congruence.
  - intros k Hk. change (k ∈ fslots F i') in Hk. rewrite Es in Hk. change (0 < k < slot_num (sb_file sb) /\ sa_used bf k = true).
    apply elem_of_app in Hk as [Hk|Hk].
    + destruct (fo_slots _ _ Hok _ Hk) as [? Hu]. split; [done|]. rewrite Hbf, Hu by lia. done.
    + apply list_elem_of_singleton in Hk as ->. split; [done|]. rewrite Hbf by lia. by rewrite Z.eqb_refl, orb_true_r.
  - change (head (fslots F i') = Some (log_head i)). rewrite Es, <- (fo_head _ _ Hok). unfold fslots. by destruct (i_list i).
  - change (pm_head sb m' (i_ino i) = log_head i). rewrite <- (fo_pm_head _ _ Hok). apply pm_head_agree.
    apply (logged_outside junk (ghost_slot i) ep g); [done|]. left.
    apply inode_below_fent; [apply Hok|lia].
  - change (linked m' (fslots F i')). rewrite Es. unfold fslots. rewrite <- app_assoc. simpl.
    apply (linked_snoc (bytes (dev s))); [apply Hok|apply Hok| |].
    + intros k Hk. apply agree_fent_next, Hag; [apply elem_of_app; by left|].
      pose proof (fo_slots_nodup _ _ Hok) as Hnd. apply NoDup_app in Hnd as (_ & Hnd & _).
      intros ->. apply (Hnd _ Hk). by apply list_elem_of_singleton.
    + apply (logged_next junk _ ep _ (bytes (dev s))); [done|]. destruct Hlo as [_ _ _ (_ & _ & [? _] & _) _ _]. lia.
  - intros x ex Hx Hex. change (x ∈ i_list i ++ [fe]) in Hx. change (F !! x = Some ex) in Hex. change (fent_on m' ex).
    destruct (decide (x = fe)) as [->|Hne].
    + rewrite (fin_F s1 fe (ghost_slot i) ep (i_list i) F Tle fe Hni), lookup_insert_eq in Hex. injection Hex as <-.
      unfold ep_ok in Hep. destruct Hlo as [_ _ _ (_ & _ & _ & [? _]) _ _].
      eapply logged_on; [exact Tl|done..| | | |]; simpl; lia.
    + apply elem_of_app in Hx as [Hx|Hx]; [|by apply list_elem_of_singleton in Hx].
      destruct (co_obj _ _ _ _ _ _ Hco x Hx) as (_ & e0 & He0 & _).
      eapply (fin_on s1 fe (ghost_slot i) ep (i_list i) F Tle); [exact Hex|done|exact He0|].
      eapply agree_fent_on; [|by eapply Hok]. rewrite <- (fidx_of_eq _ _ _ He0). apply Hag; [by apply fidx_in_slots|].
      pose proof (fo_slots_nodup _ _ Hok) as Hnd. apply NoDup_app in Hnd as (_ & Hnd & _). intros E.
      apply (Hnd (fidx_of (filents s) x)); [by apply list_elem_of_fmap_2|]. rewrite E. by apply list_elem_of_singleton.
  - change (i_size i') with (i_size i). destruct (fo_size _ _ Hok) as [Hs1 Hs2]. split; [done|]. intros Hz.
    rewrite (fin_block i1 fe (ghost_slot i) ep None t v n Tc) by (unfold PAGE_SIZE; zdm).
    unfold assign. destruct (decide _); [lia|]. by apply Hs2.
Qed.

Lemma reuse_file_ok junk p s i fe e0 n0 next l1 l2 ep t v n F b m' :
  let i1 := upd_i_invalid (fun _ => list_del (i_invalid i) fe) (upd_invalid_num (fun _ => n0) i) in
  let s1 := chosen_reuse p i n0 fe s in
  let i' := fin_inode (Some next) fe t v n i1 in
  file_ok s i -> fe ∈ i_invalid i -> filents s !! fe = Some e0 -> i_list i = l1 ++ fe :: l2 ->
  fslots (filents s) i !! S (length l1) = Some next ->
  ep_ok ep -> tail_ok s1 i1 fe (f_idx e0) ep (Some next) (list_del (i_list i) fe) t v F b junk m' ->
  fresh_for (filents s) (sa_used (map_data s)) i ep ->
  file_ok (fin_state p i' t F b m' s1) i' /\ fslots F i' = fslots (filents s) i.
Proof.
  intros i1 s1 i' Hok Hin He0 HL Hnext Hep [Tl Tw [u Tu] Th Tc Tco Td Tle Tless Tk] Hfr.
  pose proof (fo_core _ _ Hok) as Hco. pose proof (core_remove _ _ _ _ _ _ _ Hco Hin) as Hco1.
  assert (fe ∈ i_list i) as HinL by (by apply (co_inv _ _ _ _ _ _ Hco)).
  destruct (co_obj _ _ _ _ _ _ Hco fe HinL) as (Hpos & _).
  assert (fe ∉ list_del (i_list i) fe) as Hni by (by intros [? _]%list_elem_of_filter).
  assert (core sb F (sa_used b) (i_list i) v (block_of i')) as Hcore.
  { apply (core_perm sb F (sa_used b) (list_del (i_list i) fe ++ [fe])).
    - intros x. unfold list_del. rewrite elem_of_app, list_elem_of_filter, list_elem_of_singleton.
      destruct (decide (x = fe)) as [->|]; tauto.
    - apply (fin_core s1 i1 fe (f_idx e0) ep (Some next) (list_del (i_list i) fe) t v n F b);
        [lia|exact Hep|exact Hni|exact Hco1|exact Tc|exact Tco|exact Tle|exact Tk|exact Hfr]. }
  assert (Hfx : forall x, fidx_of F x = fidx_of (filents s) x).
  { intros x. destruct (decide (x = fe)) as [->|Hne].
    - rewrite (fidx_of_eq _ _ _ He0). by apply (fin_fidx_fe s1 fe (f_idx e0) ep (list_del (i_list i) fe) F).
    - by apply (fin_fidx_ne s1 fe (f_idx e0) ep (list_del (i_list i) fe) F). }
  assert (fslots F i' = fslots (filents s) i) as Es.
  { unfold fslots. change (i_list i') with (i_list i). change (ghost_slot i') with (ghost_slot i). f_equal.
    apply list_fmap_ext. intros k x _. apply Hfx. }
  split; [|exact Es].
  assert (fslots (filents s) i !! length l1 = Some (f_idx e0)) as Hpos1.
  { unfold fslots. rewrite HL, fmap_app, <- app_assoc. rewrite lookup_app_r by (rewrite length_fmap; lia).
    rewrite length_fmap, Nat.sub_diag. simpl. by rewrite (fidx_of_eq _ _ _ He0). }
  assert (f_idx e0 ∈ fslots (filents s) i) as Hfs by (by eapply list_elem_of_lookup_2).
  destruct (fo_slots _ _ Hok _ Hfs) as [Hgr Hgu'].
  destruct (fo_slots _ _ Hok next) as [Hnr _]; [by eapply list_elem_of_lookup_2|].
  assert (Hag : forall k, k ∈ fslots (filents s) i -> k <> f_idx e0 -> agree (IDX2FENT sb k) 40 (bytes (dev s)) m').
  { intros k Hk Hne. apply (logged_outside junk (f_idx e0) ep next); [done|].
    destruct (fo_slots _ _ Hok _ Hk) as [Hkr _]. destruct (fent_apart k (f_idx e0)); lia. }
  destruct Hlo as [_ _ _ (_ & _ & [Hfn _] & [Hdn _]) _ _].
  constructor.
  - exact (fo_ino _ _ Hok).
  - change (btree_wf (tree_of i' (pool t))). by destruct t.
  - exact Hcore.
  - exact (fo_nodup _ _ Hok).
  - exact (fo_busy _ _ Hok).
  - change (NoDup (fslots F i')). rewrite Es. apply Hok.
  - intros k Hk. change (k ∈ fslots F i') in Hk. rewrite Es in Hk. by apply (fo_slots _ _ Hok).
  - change (head (fslots F i') = Some (log_head i)). rewrite Es. apply Hok.
  - change (pm_head sb m' (i_ino i) = log_head i). rewrite <- (fo_pm_head _ _ Hok). apply pm_head_agree.
    apply (logged_outside junk (f_idx e0) ep next); [done|]. left. apply inode_below_fent; [apply Hok|lia].
  - change (linked m' (fslots F i')). rewrite Es. intros j x y Hx Hy.
    destruct (decide (j = length l1)) as [->|Hne].
    + assert (x = f_idx e0) as -> by congruence. assert (y = next) as -> by congruence.
      apply (logged_next junk _ ep _ (bytes (dev s))); [done|]. lia.
    + rewrite (agree_fent_next x (bytes (dev s))); [by apply (fo_linked _ _ Hok j)|]. apply Hag; [by eapply list_elem_of_lookup_2|].
      intros ->. apply Hne. by eapply NoDup_lookup; [apply (fo_slots_nodup _ _ Hok)|..].
  - intros x ex Hx Hex. change (x ∈ i_list i) in Hx. change (F !! x = Some ex) in Hex. change (fent_on m' ex).
    destruct (decide (x = fe)) as [->|Hne].
    + rewrite (fin_F s1 fe (f_idx e0) ep (list_del (i_list i) fe) F Tle fe Hni), lookup_insert_eq in Hex. injection Hex as <-.
      unfold ep_ok in Hep. eapply logged_on; [exact Tl|done..| | | |]; simpl; lia.
    + destruct (co_obj _ _ _ _ _ _ Hco x Hx) as (_ & ex0 & Hex0 & _).
      eapply (fin_on s1 fe (f_idx e0) ep (list_del (i_list i) fe) F Tle); [exact Hex|done|exact Hex0|].
      eapply agree_fent_on; [|by eapply Hok]. rewrite <- (fidx_of_eq _ _ _ Hex0).
      apply list_elem_of_lookup in Hx as [j Hj]. apply Hag; [apply fidx_in_slots; by eapply list_elem_of_lookup_2|].
      intros E. apply Hne.
      assert (fslots (filents s) i !! j = Some (f_idx e0)) as Hj'.
      { unfold fslots. rewrite lookup_app_l by (rewrite length_fmap; by eapply lookup_lt_Some).
        by rewrite list_lookup_fmap, Hj, <- E. }
      assert (j = length l1) as -> by (by eapply NoDup_lookup; [apply (fo_slots_nodup _ _ Hok)|..]).
      rewrite HL, list_lookup_middle in Hj by done. congruence.
  - change (i_size i') with (i_size i). destruct (fo_size _ _ Hok) as [Hs1 Hs2]. split; [done|]. intros Hz.
    rewrite (fin_block i1 fe (f_idx e0) ep (Some next) t v n Tc) by (unfold PAGE_SIZE; zdm).
    unfold assign. destruct (decide _); [lia|]. by apply Hs2.
Qed.

(** ** One file *)

Record file_appended (s s' : fs) (p : Z) (i i' : dram_inode) (fe : Z) (ep : pm_filent) : Prop := {
  fa_inodes : inodes s' = <[p := i']> (inodes s);
  fa_same : map_inode s' = map_inode s /\ map_dir s' = map_dir s /\ dirents s' = dirents s /\
    inode_arena s' = inode_arena s /\ inode_table s' = inode_table s /\ ilocks s' = ilocks s /\
    ebuf_mgr s' = ebuf_mgr s /\ jnl_mgr s' = jnl_mgr s /\ release_list s' = release_list s /\
    ts s' = ts s /\ root s' = root s;
  fa_attrs : i_ino i' = i_ino i /\ i_size i' = i_size i /\ i_mode i' = i_mode i /\ i_ts i' = i_ts i /\ i_link i' = i_link i;
  fa_height : b_height i <= b_height i';
  fa_block k : 0 <= k -> block_of i' k = assign (pf_l_idx ep) (pf_blocks ep) fe (block_of i) k;
  fa_entry : exists e, filents s' !! fe = Some e /\ f_l_idx e = pf_l_idx ep /\ f_p_idx e = pf_p_idx ep /\
    f_blocks e = pf_blocks ep;
  fa_phys k : 0 <= k -> phys (filents s') (block_of i') k =
    if decide (pf_l_idx ep <= k < pf_l_idx ep + pf_blocks ep) then Some (pf_p_idx ep + (k - pf_l_idx ep))
    else phys (filents s) (block_of i) k;
  fa_extent k : 0 <= k -> extent (filents s') (block_of i') k =
    if decide (pf_l_idx ep <= k < pf_l_idx ep + pf_blocks ep) then Some (pf_blocks ep) else extent (filents s) (block_of i) k;
  fa_other x : x ∉ i_list i -> x ∉ entry_arena s -> filents s' !! x = filents s !! x;
  fa_list x : x ∈ i_list i' -> x ∈ i_list i \/ x ∈ entry_arena s;
  fa_slots k : k ∈ fslots (filents s') i' -> k ∈ fslots (filents s) i \/
    (0 <= k < slot_num (sb_file sb) /\ sa_used (map_file s) k = false);
  fa_arena x : x ∈ entry_arena s' -> x ∈ entry_arena s;
  fa_pool : exists u, btree_arena s = u ++ btree_arena s';
  fa_file k : 0 <= k < slot_num (sb_file sb) -> sa_used (map_file s) k = true -> sa_used (map_file s') k = true;
  fa_used q : 0 <= q < slot_num (sb_data sb) -> sa_used (map_data s) q = true ->
    (forall k, 0 <= k -> phys (filents s) (block_of i) k <> Some q) -> sa_used (map_data s') q = true;
  fa_dev : exists fno, fno ∈ fslots (filents s) i /\
    forall a k, (a + k <= IDX2FENT sb fno \/ IDX2FENT sb fno + 64 <= a) -> agree a k (bytes (dev s)) (bytes (dev s'));
}.

Lemma fin_height rn fe t v n i : b_height (fin_inode rn fe t v n i) = bt_height t.
Proof. unfold fin_inode. by destruct rn. Qed.

Lemma append_new cpu stray junk p ep s i fe l n0 g bf :
  fshared s -> inodes s !! p = Some i -> file_ok s i -> ep_ok ep ->
  (12 + Z.to_nat (pf_blocks ep) * 6 < length (btree_arena s))%nat ->
  fresh_for (filents s) (sa_used (map_data s)) i ep ->
  filent_choose cpu p ep s = Ok ((fe, ghost_slot i, None), chosen_new p i n0 g bf l s) ->
  entry_arena s = fe :: l -> sa_inv bf -> (forall k, sa_valid bf k <-> sa_valid (map_file s) k) ->
  0 < g < slot_num (sb_file sb) -> sa_used (map_file s) g = false ->
  (forall k, 0 <= k < slot_num (sb_file sb) -> sa_used bf k = sa_used (map_file s) k || (k =? g)) ->
  exists s' i', file_append_entry sb cpu stray junk p ep s = Ok (fe, s') /\
    fshared s' /\ file_ok s' i' /\ file_appended s s' p i i' fe ep /\ mem_kept junk s s'.
Proof.
  intros Hsh Hi Hok Hep Hpool Hfr Hch Ear Hbi Hbv Hg Hgu Hbf.
  assert (0 < fe < 2 ^ 62) as Hfe by (apply (fs_addr s Hsh); rewrite Ear; by left).
  assert (fe ∉ i_list i) as Hni by (intros Hx; destruct (fo_busy _ _ Hok fe Hx) as [Hy _]; apply Hy; rewrite Ear; by left).
  set (i1 := upd_ghost_slot (fun _ => g) (upd_invalid_num (fun _ => n0) i)). set (s1 := chosen_new p i n0 g bf l s).
  destruct (append_tail cpu stray junk p ep s s1 fe (ghost_slot i) None i1 (i_list i) Hch)
    as (t & v & n & F & b & m' & Hrun & Tl & Tw & [u Tu] & Th & Tc & Tco & Td & Tle & Tless & Tk);
    [lia|unfold s1, chosen_new; fs_lk|done|done|exact (fo_core _ _ Hok)|exact (fs_data _ Hsh)|exact (fo_tree _ _ Hok)|done|].
  assert (tail_ok s1 i1 fe (ghost_slot i) ep None (i_list i) t v F b junk m') as HT by (constructor; try done; by exists u).
  set (i' := fin_inode None fe t v n i1). exists (fin_state p i' t F b m' s1), i'.
  destruct (new_file_ok junk p s i fe l n0 g bf ep t v n F b m' Hsh Hok Ear Hg Hgu Hbf Hep HT Hfr) as [Hok' Es].
  change (fslots F i' = fslots (filents s) i ++ [g]) in Es.
  pose proof (fs_arena s Hsh) as Hnd. rewrite Ear in Hnd. apply NoDup_cons in Hnd as [Hnl Hnd].
  split_and!; [exact Hrun| |exact Hok'| |intros Hj Hm; exact (logged_ok _ _ _ _ _ _ Tl Hj Hm)].
  - constructor; try done.
    + intros k. change (sa_valid bf k <-> 0 <= k < slot_num (sb_file sb)). rewrite Hbv. apply Hsh.
    + change (sa_used bf 0 = true). rewrite Hbf by lia. by rewrite (fs_zero s Hsh).
    + intros x Hx. apply (fs_addr s Hsh). rewrite Ear. by right.
  - constructor; try done.
    + unfold fin_state, s1, chosen_new. fsimpl. by rewrite insert_insert_eq.
    + intros k Hk. by apply (fin_block i1 fe (ghost_slot i) ep None t v n Tc).
    + exists (new_entry (ghost_slot i) ep). split_and!; try done. change (F !! fe = Some (new_entry (ghost_slot i) ep)).
      rewrite (fin_F s1 fe (ghost_slot i) ep (i_list i) F Tle fe Hni). apply lookup_insert_eq.
    + intros k Hk. change (filents (fin_state p i' t F b m' s1)) with F.
      apply (fin_phys s1 i1 fe (ghost_slot i) ep None (i_list i) t v n F (proj1 Hfe) Hni (fo_core _ _ Hok) Tc Tle k Hk).
    + intros k Hk. change (filents (fin_state p i' t F b m' s1)) with F.
      apply (fin_extent s1 i1 fe (ghost_slot i) ep None (i_list i) t v n F (proj1 Hfe) Hni (fo_core _ _ Hok) Tc Tle k Hk).
    + intros x Hx Hx'. change (F !! x = filents s !! x). rewrite (fin_F s1 fe (ghost_slot i) ep (i_list i) F Tle x Hx).
      apply lookup_insert_ne. intros ->. apply Hx'. rewrite Ear. by left.
    + intros x [Hx|Hx]%elem_of_app; [by left|]. right. apply list_elem_of_singleton in Hx as ->. rewrite Ear. by left.
    + intros k Hk. change (k ∈ fslots F i') in Hk. rewrite Es in Hk. apply elem_of_app in Hk as [Hk|Hk]; [by left|right].
      apply list_elem_of_singleton in Hk as ->. split; [lia|done].
    + intros x Hx. rewrite Ear. by right.
    + by exists u.
    + intros k Hk Hu. change (sa_used bf k = true). rewrite Hbf, Hu by done. done.
    + intros q Hq Hu Hn. change (sa_used b q = true).
      apply (fin_used s1 i1 (ghost_slot i) ep b Hep Tk q Hq Hu Hn).
    + exists (ghost_slot i). split; [apply elem_of_app; right; by apply list_elem_of_singleton|].
      intros a k Ha. by apply (logged_outside junk (ghost_slot i) ep g).
Qed.

Lemma append_reuse cpu stray junk p ep s i fe e0 n0 next l1 l2 :
  fshared s -> inodes s !! p = Some i -> file_ok s i -> ep_ok ep ->
  (12 + Z.to_nat (pf_blocks ep) * 6 < length (btree_arena s))%nat ->
  fresh_for (filents s) (sa_used (map_data s)) i ep ->
  filent_choose cpu p ep s = Ok ((fe, f_idx e0, Some next), chosen_reuse p i n0 fe s) ->
  fe ∈ i_invalid i -> filents s !! fe = Some e0 -> i_list i = l1 ++ fe :: l2 ->
  fslots (filents s) i !! S (length l1) = Some next ->
  exists s' i', file_append_entry sb cpu stray junk p ep s = Ok (fe, s') /\
    fshared s' /\ file_ok s' i' /\ file_appended s s' p i i' fe ep /\ mem_kept junk s s'.
Proof.
  intros Hsh Hi Hok Hep Hpool Hfr Hch Hin He0 HL Hnext.
  pose proof (fo_core _ _ Hok) as Hco. pose proof (core_remove _ _ _ _ _ _ _ Hco Hin) as Hco1.
  assert (fe ∈ i_list i) as HinL by (by apply (co_inv _ _ _ _ _ _ Hco)).
  destruct (co_obj _ _ _ _ _ _ Hco fe HinL) as (Hpos & _).
  assert (fe ∉ list_del (i_list i) fe) as Hni by (by intros [? _]%list_elem_of_filter).
  set (i1 := upd_i_invalid (fun _ => list_del (i_invalid i) fe) (upd_invalid_num (fun _ => n0) i)).
  set (s1 := chosen_reuse p i n0 fe s).
  destruct (append_tail cpu stray junk p ep s s1 fe (f_idx e0) (Some next) i1 (list_del (i_list i) fe) Hch)
    as (t & v & n & F & b & m' & Hrun & Tl & Tw & [u Tu] & Th & Tc & Tco & Td & Tle & Tless & Tk);
    [lia|unfold s1, chosen_reuse; fs_lk|done|done|exact Hco1|exact (fs_data _ Hsh)|exact (fo_tree _ _ Hok)|done|].
  assert (tail_ok s1 i1 fe (f_idx e0) ep (Some next) (list_del (i_list i) fe) t v F b junk m') as HT
    by (constructor; try done; by exists u).
  set (i' := fin_inode (Some next) fe t v n i1). exists (fin_state p i' t F b m' s1), i'.
  destruct (reuse_file_ok junk p s i fe e0 n0 next l1 l2 ep t v n F b m' Hok Hin He0 HL Hnext Hep HT Hfr) as [Hok' Es].
  change (fslots F i' = fslots (filents s) i) in Es.
  split_and!; [exact Hrun|by destruct Hsh|exact Hok'| |intros Hj Hm; exact (logged_ok _ _ _ _ _ _ Tl Hj Hm)].
  constructor; try done.
  - unfold fin_state, s1, chosen_reuse. fsimpl. by rewrite insert_insert_eq.
  - intros k Hk. by apply (fin_block i1 fe (f_idx e0) ep (Some next) t v n Tc).
  - exists (new_entry (f_idx e0) ep). split_and!; try done. change (F !! fe = Some (new_entry (f_idx e0) ep)).
    rewrite (fin_F s1 fe (f_idx e0) ep _ F Tle fe Hni). apply lookup_insert_eq.
  - intros k Hk. change (filents (fin_state p i' t F b m' s1)) with F.
    apply (fin_phys s1 i1 fe (f_idx e0) ep (Some next) (list_del (i_list i) fe) t v n F Hpos Hni Hco1 Tc Tle k Hk).
  - intros k Hk. change (filents (fin_state p i' t F b m' s1)) with F.
    apply (fin_extent s1 i1 fe (f_idx e0) ep (Some next) (list_del (i_list i) fe) t v n F Hpos Hni Hco1 Tc Tle k Hk).
  - intros x Hx Hx'. change (F !! x = filents s !! x).
    rewrite (fin_F s1 fe (f_idx e0) ep (list_del (i_list i) fe) F Tle x); [apply lookup_insert_ne; by intros ->|].
    by intros [_ ?]%list_elem_of_filter.
  - intros x Hx. by left.
  - intros k Hk. change (k ∈ fslots F i') in Hk. rewrite Es in Hk. by left.
  - by exists u.
  - intros q Hq Hu Hn. change (sa_used b q = true). apply (fin_used s1 i1 (f_idx e0) ep b Hep Tk q Hq Hu Hn).
  - exists (f_idx e0). split; [rewrite <- (fidx_of_eq _ _ _ He0); by apply fidx_in_slots|].
    intros a k Ha. by apply (logged_outside junk (f_idx e0) ep next).
Qed.

(** ** Several files *)

Lemma file_apart_sym F i j : file_apart F i j -> file_apart F j i.
Proof.
  intros (H1 & H2 & H3 & H4). split_and!; [done| | |].
  - intros fe Hj Hi. by apply (H2 fe).
  - intros k Hj Hi. by apply (H3 k).
  - intros k1 k2 q Hk1 Hk2 Hq1 Hq2. by apply (H4 k2 k1 q).
Qed.

(** A file sees only its own entries. *)
Lemma phys_frame F F' used inv j k :
  core sb F used (i_list j) inv (block_of j) -> (forall fe, fe ∈ i_list j -> F' !! fe = F !! fe) -> 0 <= k ->
  phys F' (block_of j) k = phys F (block_of j) k.
Proof.
  intros Hc HF Hk. unfold phys. destruct (Z.eqb_spec (block_of j k) 0) as [|Hnz]; [done|].
  rewrite HF; [done|]. by apply (co_map _ _ _ _ _ _ Hc k Hk Hnz).
Qed.
Lemma extent_frame F F' used inv j k :
  core sb F used (i_list j) inv (block_of j) -> (forall fe, fe ∈ i_list j -> F' !! fe = F !! fe) -> 0 <= k ->
  extent F' (block_of j) k = extent F (block_of j) k.
Proof.
  intros Hc HF Hk. unfold extent. destruct (Z.eqb_spec (block_of j k) 0) as [|Hnz]; [done|].
  rewrite HF; [done|]. by apply (co_map _ _ _ _ _ _ Hc k Hk Hnz).
Qed.
Lemma fslots_same F F' j : (forall fe, fe ∈ i_list j -> F' !! fe = F !! fe) -> fslots F' j = fslots F j.
Proof. intros HF. apply fslots_frame. intros fe Hfe. unfold fidx_of. by rewrite HF. Qed.

Section several.
Context (s s' : fs) (P : list Z) (p : Z) (i i' : dram_inode) (fe : Z) (ep : pm_filent).
Hypothesis Hinv : files_inv s P.
Hypothesis Hp : p ∈ P.
Hypothesis Hi : inodes s !! p = Some i.
Hypothesis Happ : file_appended s s' p i i' fe ep.
Hypothesis Hok' : file_ok s' i'.
Hypothesis Hfresh : forall r j, r ∈ P -> inodes s !! r = Some j -> fresh_for (filents s) (sa_used (map_data s)) j ep.

Lemma several_other r j x : r ∈ P -> r <> p -> inodes s !! r = Some j -> x ∈ i_list j -> filents s' !! x = filents s !! x.
Proof.
  intros Hr Hne Hj Hx. destruct (fv_each _ _ Hinv r Hr) as (j' & Hj' & Hok). rewrite Hj in Hj'. injection Hj' as <-.
  destruct (fv_apart _ _ Hinv r p j i Hr Hp Hne Hj Hi) as (_ & Hl & _).
  apply (fa_other _ _ _ _ _ _ _ Happ); [by apply Hl|by apply Hok].
Qed.

Lemma several_ok r j : r ∈ P -> r <> p -> inodes s !! r = Some j -> file_ok s' j.
Proof.
  intros Hr Hne Hj. destruct (fv_each _ _ Hinv r Hr) as (j' & Hj' & Hok). rewrite Hj in Hj'. injection Hj' as <-.
  destruct (fv_each _ _ Hinv p Hp) as (i0 & Hi0 & Hoki). rewrite Hi in Hi0. injection Hi0 as <-.
  destruct (fv_apart _ _ Hinv r p j i Hr Hp Hne Hj Hi) as (_ & _ & Hs & Hph).
  destruct (fa_dev _ _ _ _ _ _ _ Happ) as (fno & Hfno & Hdev). destruct (fo_slots _ _ Hoki _ Hfno) as [Hfr _].
  apply (file_ok_frame s); [done| | | | | | |].
  - intros x Hx. by eapply several_other.
  - intros x Hx Hx'. destruct (fo_busy _ _ Hok x Hx) as [Hb _]. by apply Hb, Happ.
  - apply Happ.
  - intros k q Hk Hq. pose proof (co_data _ _ _ _ _ _ (fo_core _ _ Hok) k q Hk Hq) as Hu. rewrite Hu.
    apply phys_inv in Hq as Hq'. destruct Hq' as (Hnz & e & He & Eq).
    destruct (core_entry _ _ _ _ _ _ _ (fo_core _ _ Hok) Hk Hnz) as (e' & He' & _ & _ & _ & _ & _ & _ & Hq' & Hrange).
    assert (q = slot_of e' k) as -> by congruence.
    apply (fa_used _ _ _ _ _ _ _ Happ); [done|done|]. intros k2 Hk2 Hq2. by apply (Hph k k2 _ Hk Hk2 Hq).
  - intros k Hk. destruct (fo_slots _ _ Hok _ Hk). apply (fa_file _ _ _ _ _ _ _ Happ); [lia|done].
  - intros k Hk. apply Hdev. destruct (fo_slots _ _ Hok _ Hk) as [Hkr _].
    assert (k <> fno) as Hnk by (intros ->; by apply (Hs fno)). destruct (fent_apart k fno); lia.
  - apply pm_head_agree, Hdev. left. apply inode_below_fent; [apply Hok|lia].
Qed.

Lemma several_apart r j : r ∈ P -> r <> p -> inodes s !! r = Some j -> file_apart (filents s') i' j.
Proof.
  intros Hr Hne Hj. destruct (fv_each _ _ Hinv r Hr) as (j' & Hj' & Hok). rewrite Hj in Hj'. injection Hj' as <-.
  destruct (fv_apart _ _ Hinv p r i j Hp Hr ltac:(done) Hi Hj) as (H1 & H2 & H3 & H4).
  assert (HF : forall x, x ∈ i_list j -> filents s' !! x = filents s !! x) by (intros x; by eapply several_other).
  destruct (fa_attrs _ _ _ _ _ _ _ Happ) as (Ei & _). split_and!.
  - congruence.
  - intros x Hx Hxj. destruct (fa_list _ _ _ _ _ _ _ Happ x Hx) as [Hxi|Hxa]; [by apply (H2 x)|].
    by destruct (fo_busy _ _ Hok x Hxj).
  - intros k Hk Hkj. rewrite (fslots_same (filents s)) in Hkj by done.
    destruct (fa_slots _ _ _ _ _ _ _ Happ k Hk) as [Hki|[_ Hu]]; [by apply (H3 k)|].
    destruct (fo_slots _ _ Hok _ Hkj). congruence.
  - intros k1 k2 q Hk1 Hk2 Hq1 Hq2. rewrite (phys_frame (filents s) _ _ _ j k2 (fo_core _ _ Hok) HF Hk2) in Hq2.
    rewrite (fa_phys _ _ _ _ _ _ _ Happ k1 Hk1) in Hq1. destruct (decide _) as [Hd|Hd].
    + injection Hq1 as <-. destruct (Hfresh r j Hr Hj (pf_p_idx ep + (k1 - pf_l_idx ep))) as [_ Hn]; [lia|].
      by apply (Hn k2 Hk2).
    + by apply (H4 k1 k2 q Hk1 Hk2 Hq1).
Qed.

Lemma several_inv : fshared s' -> files_inv s' P.
Proof.
  intros Hsh'. assert (Hin : forall r, r <> p -> inodes s' !! r = inodes s !! r).
  { intros r Hne. rewrite (fa_inodes _ _ _ _ _ _ _ Happ). by apply lookup_insert_ne. }
  assert (inodes s' !! p = Some i') as Hip by (rewrite (fa_inodes _ _ _ _ _ _ _ Happ); by apply lookup_insert_eq).
  constructor; [done| |].
  - intros r Hr. destruct (decide (r = p)) as [->|Hne]; [by exists i'|].
    destruct (fv_each _ _ Hinv r Hr) as (j & Hj & _). exists j. rewrite Hin by done. split; [done|].
    by apply (several_ok r).
  - intros r1 r2 j1 j2 Hr1 Hr2 Hne Hj1 Hj2.
    destruct (decide (r1 = p)) as [->|N1]; [|destruct (decide (r2 = p)) as [->|N2]].
    + assert (j1 = i') as -> by congruence. rewrite Hin in Hj2 by done. by apply (several_apart r2).
    + assert (j2 = i') as -> by congruence. rewrite Hin in Hj1 by done. apply file_apart_sym. by apply (several_apart r1).
    + rewrite Hin in Hj1, Hj2 by done. destruct (fv_apart _ _ Hinv r1 r2 j1 j2 Hr1 Hr2 Hne Hj1 Hj2) as (H1 & H2 & H3 & H4).
      destruct (fv_each _ _ Hinv r1 Hr1) as (? & E1 & O1). rewrite Hj1 in E1. injection E1 as <-.
      destruct (fv_each _ _ Hinv r2 Hr2) as (? & E2 & O2). rewrite Hj2 in E2. injection E2 as <-.
      assert (HF1 : forall x, x ∈ i_list j1 -> filents s' !! x = filents s !! x) by (intros x; by apply (several_other r1)).
      assert (HF2 : forall x, x ∈ i_list j2 -> filents s' !! x = filents s !! x) by (intros x; by apply (several_other r2)).
      split_and!; [done|done| |].
      * rewrite (fslots_same (filents s) _ j1), (fslots_same (filents s) _ j2) by done. done.
      * intros k1 k2 q Hk1 Hk2. rewrite (phys_frame (filents s) _ _ _ j1 k1 (fo_core _ _ O1) HF1 Hk1).
        rewrite (phys_frame (filents s) _ _ _ j2 k2 (fo_core _ _ O2) HF2 Hk2). by apply H4.
Qed.
End several.

(** [file_append_entry] on one of several files. *)
Lemma file_append_spec cpu stray junk P p ep s i :
  files_inv s P -> p ∈ P -> inodes s !! p = Some i -> is_symlink i = false -> ep_ok ep -> 0 <= cpu ->
  entry_arena s <> [] -> (exists k, 0 <= k < slot_num (sb_file sb) /\ sa_used (map_file s) k = false) ->
  (12 + Z.to_nat (pf_blocks ep) * 6 < length (btree_arena s))%nat ->
  (forall r j, r ∈ P -> inodes s !! r = Some j -> fresh_for (filents s) (sa_used (map_data s)) j ep) ->
  exists fe s' i', file_append_entry sb cpu stray junk p ep s = Ok (fe, s') /\ 0 < fe < 2 ^ 62 /\
    files_inv s' P /\ file_appended s s' p i i' fe ep /\ mem_kept junk s s'.
Proof.
  intros Hinv Hp Hi Hsym Hep Hcpu Har Hfree Hpool Hfr.
  destruct (fv_each _ _ Hinv p Hp) as (i0 & Hi0 & Hok). rewrite Hi in Hi0. injection Hi0 as <-.
  pose proof (fv_shared _ _ Hinv) as Hsh. pose proof (Hfr p i Hp Hi) as Hfri.
  destruct (filent_choose_spec cpu p ep s i Hsh Hi Hok Hsym Hcpu Har Hfree)
    as [(fe & l & n & g & b & Hch & Ear & Hb & Hbv & Hg & Hgu & Hbf)|(fe & e & n & next & l1 & l2 & Hch & Hin & He & HL & Hnext)].
  - destruct (append_new cpu stray junk p ep s i fe l n g b Hsh Hi Hok Hep Hpool Hfri Hch Ear Hb Hbv Hg Hgu Hbf)
      as (s' & i' & Hrun & Hsh' & Hok' & Happ & Hmk). exists fe, s', i'. split_and!; try done.
    + apply (fs_addr s Hsh). rewrite Ear. by left.
    + apply (fs_addr s Hsh). rewrite Ear. by left.
    + by apply (several_inv s s' P p i i' fe ep).
  - destruct (append_reuse cpu stray junk p ep s i fe e n next l1 l2 Hsh Hi Hok Hep Hpool Hfri Hch Hin He HL Hnext)
      as (s' & i' & Hrun & Hsh' & Hok' & Happ & Hmk). exists fe, s', i'.
    assert (fe ∈ i_list i) as HinL by (by apply (co_inv _ _ _ _ _ _ (fo_core _ _ Hok))).
    destruct (co_obj _ _ _ _ _ _ (fo_core _ _ Hok) fe HinL) as (Hpos & _).
    destruct (fo_busy _ _ Hok fe HinL). split_and!; try done. by apply (several_inv s s' P p i i' fe ep).
Qed.
End log.
