(* ===== verification/Recover.v ===== *)
(** * Recovery after a crash (src/slotfs/recover.c, recover.h)

    After a crash the bitmaps on the device are stale.  [recover] walks the
    tree of directories from the root, marks the inodes and the slots it meets
    in fresh bitmaps, counts the entries of each inode, and writes both to the
    device.  [THREAD_NUM] threads take inodes from a queue and put the inodes
    that a directory names for the first time on it.

    A thread is a little machine with the program counter [pc]; a step takes a
    lock, changes an atomic counter or handles one inode.  (The code does not
    synchronise the accesses of two threads to the same [rc_inode_t]; that a
    handler is one step leaves these races out.)  [recover] runs a schedule.

    [malloc] takes the next address of [rc_heap], NULL when there is none.
    The memory it returns is not cleared: [fresh] is what a new [rc_inode_t]
    has in it and [fresh_ref] the [ref] of a new [rc_filent_t]. *)
From stdpp Require Import base numbers list gmap relations.
From S2P Require Import Prelude Bitops Slot Btree Rbtree DirIndex Pm Mkfs Shm Fs Journal Dir File FileIndex FileLog.
Local Open Scope Z_scope.

Definition THREAD_NUM : Z := 8.

(** ** The state *)

Inductive slot_type : Type := SLOT_INODE | SLOT_DIR | SLOT_FILE | SLOT_DATA.
#[export] Instance slot_type_eq_dec : EqDecision slot_type.
Proof. solve_decision. Defined.

(** [sb->slots[t]]. *)
Definition kind (sb : pm_super_block) (t : slot_type) : pm_slot :=
  match t with SLOT_INODE => sb_inode sb | SLOT_DIR => sb_dir sb | SLOT_FILE => sb_file sb | SLOT_DATA => sb_data sb end.

Record queue : Type := mk_queue {
  front : Z;
  rear : Z;
  data : list Z;
  capacity : Z;
}.

Record rc_inode : Type := mk_rci {
  ri_addr : Z;      (* where the object is *)
  ri_log_head : Z;
  ri_entry_num : Z;
  ri_valid : bool;
  ri_ts : Z;
  ri_link : Z;
  ri_mode : Z;
  ri_root : Z;      (* btree *)
  ri_height : Z;
  ri_nodes : gmap Z btree_node;
  ri_hint : btree_ptr;
  ri_list : list Z;
}.

Record rc_filent : Type := mk_rcf {
  rf_ts : Z;
  rf_ref : Z;
  rf_p_idx : Z;
  rf_l_idx : Z;
  rf_blocks : Z;
}.

Record rc_mgr : Type := mk_rc {
  rc_dev : pmem;
  rc_map : slot_type -> list Z;
  rc_table : gmap Z rc_inode;      (* inode_table: the object of an inode, absent for NULL *)
  rc_queue : queue;
  rc_filents : gmap Z rc_filent;
  rc_heap : list Z;
  rc_blocks : list Z;      (* the manager, its maps, table, queue and threads *)
  active_thread : Z;
}.

Definition upd_rc_dev (f : pmem -> pmem) (s : rc_mgr) : rc_mgr :=
  mk_rc (f (rc_dev s)) (rc_map s) (rc_table s) (rc_queue s) (rc_filents s) (rc_heap s) (rc_blocks s) (active_thread s).
Definition upd_rc_map (t : slot_type) (l : list Z) (s : rc_mgr) : rc_mgr :=
  mk_rc (rc_dev s) (fun u => if decide (u = t) then l else rc_map s u) (rc_table s) (rc_queue s) (rc_filents s)
    (rc_heap s) (rc_blocks s) (active_thread s).
Definition upd_rc_table (f : gmap Z rc_inode -> gmap Z rc_inode) (s : rc_mgr) : rc_mgr :=
  mk_rc (rc_dev s) (rc_map s) (f (rc_table s)) (rc_queue s) (rc_filents s) (rc_heap s) (rc_blocks s) (active_thread s).
Definition upd_rc_queue (q : queue) (s : rc_mgr) : rc_mgr :=
  mk_rc (rc_dev s) (rc_map s) (rc_table s) q (rc_filents s) (rc_heap s) (rc_blocks s) (active_thread s).
Definition upd_rc_filents (f : gmap Z rc_filent -> gmap Z rc_filent) (s : rc_mgr) : rc_mgr :=
  mk_rc (rc_dev s) (rc_map s) (rc_table s) (rc_queue s) (f (rc_filents s)) (rc_heap s) (rc_blocks s) (active_thread s).
Definition upd_rc_heap (f : list Z -> list Z) (s : rc_mgr) : rc_mgr :=
  mk_rc (rc_dev s) (rc_map s) (rc_table s) (rc_queue s) (rc_filents s) (f (rc_heap s)) (rc_blocks s) (active_thread s).
Definition upd_rc_blocks (f : list Z -> list Z) (s : rc_mgr) : rc_mgr :=
  mk_rc (rc_dev s) (rc_map s) (rc_table s) (rc_queue s) (rc_filents s) (rc_heap s) (f (rc_blocks s)) (active_thread s).
Definition upd_active (f : Z -> Z) (s : rc_mgr) : rc_mgr :=
  mk_rc (rc_dev s) (rc_map s) (rc_table s) (rc_queue s) (rc_filents s) (rc_heap s) (rc_blocks s) (f (active_thread s)).

Definition upd_ri_addr (v : Z) (i : rc_inode) : rc_inode :=
  mk_rci v (ri_log_head i) (ri_entry_num i) (ri_valid i) (ri_ts i) (ri_link i) (ri_mode i) (ri_root i) (ri_height i)
    (ri_nodes i) (ri_hint i) (ri_list i).
Definition upd_ri_log_head (v : Z) (i : rc_inode) : rc_inode :=
  mk_rci (ri_addr i) v (ri_entry_num i) (ri_valid i) (ri_ts i) (ri_link i) (ri_mode i) (ri_root i) (ri_height i) (ri_nodes i)
    (ri_hint i) (ri_list i).
Definition upd_ri_entry_num (f : Z -> Z) (i : rc_inode) : rc_inode :=
  mk_rci (ri_addr i) (ri_log_head i) (f (ri_entry_num i)) (ri_valid i) (ri_ts i) (ri_link i) (ri_mode i) (ri_root i) (ri_height i)
    (ri_nodes i) (ri_hint i) (ri_list i).
Definition upd_ri_link (f : Z -> Z) (i : rc_inode) : rc_inode :=
  mk_rci (ri_addr i) (ri_log_head i) (ri_entry_num i) (ri_valid i) (ri_ts i) (f (ri_link i)) (ri_mode i) (ri_root i) (ri_height i)
    (ri_nodes i) (ri_hint i) (ri_list i).
Definition upd_ri_mode (v : Z) (i : rc_inode) : rc_inode :=
  mk_rci (ri_addr i) (ri_log_head i) (ri_entry_num i) (ri_valid i) (ri_ts i) (ri_link i) v (ri_root i) (ri_height i) (ri_nodes i)
    (ri_hint i) (ri_list i).
Definition upd_ri_tree (t : btree) (i : rc_inode) : rc_inode :=
  mk_rci (ri_addr i) (ri_log_head i) (ri_entry_num i) (ri_valid i) (ri_ts i) (ri_link i) (ri_mode i) (bt_root t) (bt_height t)
    (nodes t) (ri_hint i) (ri_list i).
Definition upd_ri_hint (h : btree_ptr) (i : rc_inode) : rc_inode :=
  mk_rci (ri_addr i) (ri_log_head i) (ri_entry_num i) (ri_valid i) (ri_ts i) (ri_link i) (ri_mode i) (ri_root i) (ri_height i)
    (ri_nodes i) h (ri_list i).
Definition upd_ri_list (f : list Z -> list Z) (i : rc_inode) : rc_inode :=
  mk_rci (ri_addr i) (ri_log_head i) (ri_entry_num i) (ri_valid i) (ri_ts i) (ri_link i) (ri_mode i) (ri_root i) (ri_height i)
    (ri_nodes i) (ri_hint i) (f (ri_list i)).

(** ** The queue *)

(** [malloc(size * sizeof(int))]: the contents are not read before they are written. *)
Definition queue_init (size : Z) : queue := mk_queue 0 0 (replicate (Z.to_nat size) 0) size.

Definition queue_push (val : Z) : M rc_mgr Z :=
  q ← gets rc_queue;
  if rear q - front q >=? capacity q then throw AssertFail else
  d ← lift (zset (data q) (rear q) val);
  _ ← modify (upd_rc_queue (mk_queue (front q) (rear q + 1) d (capacity q)));
  mret 0.

(** The value, [None] for -1. *)
Definition queue_pop : M rc_mgr (option Z) :=
  q ← gets rc_queue;
  if front q >=? rear q then mret None else
  v ← lift (zget (data q) (front q));
  _ ← modify (upd_rc_queue (mk_queue (front q + 1) (rear q) (data q) (capacity q)));
  mret (Some v).

(** ** Objects *)

Definition malloc : M rc_mgr Z := fun s =>
  match rc_heap s with
  | [] => Ok (0, s)
  | p :: l => Ok (p, upd_rc_heap (fun _ => l) s)
  end.

Definition rd_ri (ino : Z) : M rc_mgr rc_inode := fun s => lift (deref (rc_table s) ino) s.
Definition upd_ri (ino : Z) (f : rc_inode -> rc_inode) : M rc_mgr unit :=
  i ← rd_ri ino; modify (upd_rc_table <[ino := f i]>).

(** A freed [rc_filent_t] is gone; its address can be handed out again. *)
Definition rd_rf (p : Z) : M rc_mgr rc_filent := fun s =>
  match rc_filents s !! p with
  | Some e => Ok (e, s)
  | None => Fault (if p =? 0 then NullDeref else UseAfterFree)
  end.
Definition upd_rf (p : Z) (f : rc_filent -> rc_filent) : M rc_mgr unit :=
  e ← rd_rf p; modify (upd_rc_filents <[p := f e]>).
Definition free_rf (p : Z) : M rc_mgr unit :=
  _ ← rd_rf p;
  _ ← modify (upd_rc_filents (delete p));
  modify (upd_rc_heap (cons p)).

Definition upd_rf_ref (f : Z -> Z) (e : rc_filent) : rc_filent :=
  mk_rcf (rf_ts e) (f (rf_ref e)) (rf_p_idx e) (rf_l_idx e) (rf_blocks e).

Definition set_map_bit (t : slot_type) (nr : Z) : M rc_mgr unit :=
  s ← get; l ← lift (set_bit (u64 nr) (rc_map s t)); modify (upd_rc_map t l).
Definition clear_map_bit (t : slot_type) (nr : Z) : M rc_mgr unit :=
  s ← get; l ← lift (clear_bit (u64 nr) (rc_map s t)); modify (upd_rc_map t l).

(** An operation of the radix tree of an inode. *)
Definition on_rc_tree {A} (ino : Z) (m : M btree A) : M rc_mgr A :=
  i ← rd_ri ino;
  zoom (fun s => mk_btree (ri_root i) (ri_height i) (ri_nodes i) (rc_heap s))
    (fun t s => upd_rc_heap (fun _ => pool t) (upd_rc_table <[ino := upd_ri_tree t i]> s)) m.

(** Where a thread is in [rc_replay]: about to pop, with an inode to handle,
    about to leave the active threads, waiting, about to join them again, or
    back from the function. *)
Inductive pc : Type := Pop | Handle (idx : Z) | Leave | Wait | Join | Done.
#[export] Instance pc_eq_dec : EqDecision pc.
Proof. solve_decision. Defined.

Section recover.
Context (sb : pm_super_block) (stray : Z) (fresh : rc_inode) (fresh_ref : Z).

Definition inode_num : Z := slot_num (sb_inode sb).

(** The pointer itself is not used, but for the test for NULL. *)
Definition rc_iget (ino : Z) : M rc_mgr Z :=
  s ← get;
  if negb ((0 <=? ino) && (ino <? inode_num)) then throw OutOfBounds else
  match rc_table s !! ino with
  | Some _ => mret 1
  | None =>
      inode ← malloc;
      if inode =? 0 then mret 0 else
      _ ← modify (upd_rc_table <[ino := upd_ri_addr inode (upd_ri_list (fun _ => []) fresh)]>);
      mret inode
  end.

Definition dev_load (a : Z) (n : nat) : M rc_mgr Z := gets (fun s => load (bytes (rc_dev s)) a n).

(** ** Handling an inode *)

(** The result and [*next]. *)
Definition rc_handle_dirent (inode idx next : Z) : M rc_mgr (Z * Z) :=
  let de := IDX2DENT sb idx in
  ino ← dev_load (de + PD_ino) 8;
  child ← rc_iget (i64 ino);
  if child =? 0 then mret (- ENOMEM, next) else
  _ ← set_map_bit SLOT_DIR idx;
  _ ← upd_ri (i64 ino) (upd_ri_link (fun l => i32 (l + 1)));
  c ← rd_ri (i64 ino);
  _ ← (if ri_link c =? 1 then _ ← queue_push (i32 ino); mret tt else mret tt);
  _ ← upd_ri inode (upd_ri_entry_num (fun n => u64 (n + 1)));
  n ← dev_load (de + PD_next) 8;
  mret (0, i64 n).

(** The loop over the blocks of [filent], from the [i]th; [left] of them remain. *)
Fixpoint block_loop (left : nat) (inode filent i : Z) : M rc_mgr unit :=
  match left with
  | O => mret tt
  | S left' =>
      fe ← rd_rf filent;
      let idx := rf_l_idx fe + i in
      o ← rd_ri inode;
      '(ptr, hint) ← on_rc_tree inode (btree_get_ptr_hint stray idx (ri_hint o));
      _ ← upd_ri inode (upd_ri_hint hint);
      match ptr with
      | None => throw NullDeref
      | Some (node, index) =>
          old_filent ← on_rc_tree inode (n ← read_node node; get_child n index);
          _ ← (if negb (old_filent =? 0) then
                 old ← rd_rf old_filent;
                 if rf_ts old <? rf_ts fe then
                   _ ← on_rc_tree inode (set_child node index filent);
                   _ ← upd_rf old_filent (upd_rf_ref (fun r => i32 (r - 1)));
                   _ ← clear_map_bit SLOT_DATA (rf_p_idx old + (rf_l_idx old - idx));
                   old ← rd_rf old_filent;
                   if rf_ref old =? 0 then
                     o ← rd_ri inode;
                     if decide (old_filent ∈ ri_list o) then
                       _ ← upd_ri inode (upd_ri_list (fun l => list_del l old_filent));
                       free_rf old_filent
                     else throw UseAfterFree
                   else mret tt
                 else
                   clear_map_bit SLOT_DATA (rf_p_idx fe + (rf_l_idx fe - idx))
               else
                 _ ← on_rc_tree inode (set_child node index filent);
                 upd_rf filent (upd_rf_ref (fun r => i32 (r + 1))));
          block_loop left' inode filent (i + 1)
      end
  end.

Definition rc_handle_filent (inode idx next : Z) : M rc_mgr (Z * Z) :=
  let fe := IDX2FENT sb idx in
  _ ← set_map_bit SLOT_FILE idx;
  filent ← malloc;
  if filent =? 0 then mret (- ENOMEM, next) else
  ts ← dev_load (fe + PF_ts) 8;
  p_idx ← dev_load (fe + PF_p_idx) 4;
  blocks ← dev_load (fe + PF_blocks) 4;
  l_idx ← dev_load (fe + PF_l_idx) 4;
  _ ← modify (upd_rc_filents <[filent := mk_rcf (i64 ts) fresh_ref p_idx l_idx (i32 blocks)]>);
  n ← dev_load (fe + PF_next) 8;
  let next := i64 n in
  if next =? 0 then mret (0, next) else
  _ ← block_loop (Z.to_nat (i32 blocks)) inode filent 0;
  e ← rd_rf filent;
  _ ← (if rf_ref e =? 0 then free_rf filent
       else upd_ri inode (upd_ri_list (fun l => l ++ [filent])));
  _ ← upd_ri inode (upd_ri_entry_num (fun n => u64 (n + 1)));
  mret (0, next).

(** [while (idx)]: a log has no more slots than the tables. *)
Fixpoint log_loop (fuel : nat) (inode idx next : Z) : M rc_mgr Z :=
  match fuel with
  | O => throw OutOfFuel
  | S fuel' =>
      if idx =? 0 then mret 0 else
      i ← rd_ri inode;
      '(ret, next) ← (if negb (Z.land (ri_mode i) S_IFDIR =? 0) then rc_handle_dirent inode idx next
                      else rc_handle_filent inode idx next);
      if negb (ret =? 0) then mret ret else
      log_loop fuel' inode next next
  end.
Definition log_fuel : nat := Z.to_nat (slot_num (sb_dir sb) + slot_num (sb_file sb) + 1).

Definition rc_handle_inode (ino : Z) : M rc_mgr Z :=
  inode ← rc_iget ino;
  if inode =? 0 then mret (- ENOMEM) else
  let pi := IDX2INODE sb ino in
  mode ← dev_load (pi + PI_i_mode) 4;
  _ ← upd_ri ino (upd_ri_mode (i32 mode));
  head ← dev_load (pi + PI_log_head) 8;
  _ ← upd_ri ino (upd_ri_log_head (i64 head));
  _ ← set_map_bit SLOT_INODE ino;
  _ ← (if Z.land (i32 mode) S_IFDIR =? 0 then
         _ ← on_rc_tree ino (btree_create stray);
         upd_ri ino (fun i => upd_ri_hint (mk_ptr 0 0 (bp_key (ri_hint i))) i)
       else mret tt);
  log_loop log_fuel ino (i64 head) 0.

(** ** The threads *)

Definition rc_replay (p : pc) : M rc_mgr pc :=
  match p with
  | Pop => r ← queue_pop; mret (match r with Some idx => Handle idx | None => Leave end)
  | Handle idx => ret ← rc_handle_inode idx; mret (if negb (ret =? 0) then Done else Pop)
  | Leave => _ ← modify (upd_active (fun a => u64 (a - 1))); mret Wait
  | Wait =>
      a ← gets active_thread;
      q ← gets rc_queue;
      mret (if a =? 0 then Done else if 0 <? rear q - front q then Join else Wait)
  | Join => _ ← modify (upd_active (fun a => u64 (a + 1))); mret Pop
  | Done => mret Done
  end.

(** The threads of a schedule, which names the thread of each step. *)
Fixpoint run (sched : list nat) (ts : list pc) : M rc_mgr (list pc) :=
  match sched with
  | [] => mret ts
  | t :: sched' =>
      match ts !! t with
      | Some p => p' ← rc_replay p; run sched' (<[t := p']> ts)
      | None => run sched' ts
      end
  end.

(** ** The recovery *)

(** [malloc] of a block of the manager. *)
Definition malloc_block : M rc_mgr Z :=
  p ← malloc; _ ← (if p =? 0 then mret tt else modify (upd_rc_blocks (cons p))); mret p.

(** The maps of [SLOT_TYPE_NUM] kinds. *)
Fixpoint init_bitmaps (ts : list slot_type) : M rc_mgr Z :=
  match ts with
  | [] => mret 0
  | t :: ts' =>
      p ← malloc_block;
      if p =? 0 then mret (- ENOMEM) else
      _ ← modify (upd_rc_map t (replicate (Z.to_nat ((slot_num (kind sb t) + 7) / 8)) 0));
      init_bitmaps ts'
  end.
Definition slot_types : list slot_type := [SLOT_INODE; SLOT_DIR; SLOT_FILE; SLOT_DATA].

Definition rc_init : M rc_mgr Z :=
  rc ← malloc_block;
  if rc =? 0 then mret (- ENOMEM) else
  ret ← init_bitmaps slot_types;
  if negb (ret =? 0) then mret ret else
  table ← malloc_block;
  if table =? 0 then mret (- ENOMEM) else
  _ ← modify (upd_rc_table (fun _ => ∅));
  queue ← malloc_block;
  if queue =? 0 then mret (- ENOMEM) else
  qdata ← malloc_block;
  if qdata =? 0 then mret (- ENOMEM) else
  _ ← modify (upd_rc_queue (queue_init (i32 inode_num)));
  _ ← malloc_block;
  _ ← rc_iget 0;
  _ ← upd_ri 0 (fun i => mk_rci (ri_addr i) (ri_log_head i) (ri_entry_num i) true 0 1 (ri_mode i) (ri_root i)
                  (ri_height i) (ri_nodes i) (ri_hint i) (ri_list i));
  mret 0.

(** The inodes from [i] on; [n] of them remain. *)
Fixpoint flush_inodes (n : nat) (i : Z) : M rc_mgr unit :=
  match n with
  | O => mret tt
  | S n' =>
      s ← get;
      _ ← (match rc_table s !! i with
           | None => mret tt
           | Some inode => modify (upd_rc_dev (pm_update (store (IDX2INODE sb i + PI_entry_num) 8 (ri_entry_num inode))))
           end);
      flush_inodes n' (i + 1)
  end.

Definition flush_map (t : slot_type) : M rc_mgr unit :=
  s ← get;
  modify (upd_rc_dev (pm_update (memcpy (bitmap (kind sb t)) (list_mem (rc_map s t)) 0 ((slot_num (kind sb t) + 7) / 8)))).

Definition rc_flush : M rc_mgr unit :=
  _ ← flush_inodes (Z.to_nat (i32 inode_num)) 0;
  _ ← flush_map SLOT_INODE;
  _ ← flush_map SLOT_DIR;
  _ ← flush_map SLOT_FILE;
  flush_map SLOT_DATA.

(** The entries on the list of an inode. *)
Fixpoint free_list (l : list Z) : M rc_mgr unit :=
  match l with
  | [] => mret tt
  | p :: l' => _ ← free_rf p; free_list l'
  end.

Fixpoint free_inodes (n : nat) (i : Z) : M rc_mgr unit :=
  match n with
  | O => mret tt
  | S n' =>
      s ← get;
      _ ← (match rc_table s !! i with
           | None => mret tt
           | Some inode =>
               _ ← free_list (ri_list inode);
               _ ← modify (upd_rc_table (delete i));
               modify (upd_rc_heap (cons (ri_addr inode)))
           end);
      free_inodes n' (i + 1)
  end.

(** The manager is gone afterwards; the device stays. *)
Definition rc_free : M rc_mgr unit :=
  _ ← free_inodes (Z.to_nat (i32 inode_num)) 0;
  modify (fun s => upd_rc_blocks (fun _ => []) (upd_rc_heap (app (rc_blocks s)) s)).

(** [pthread_join] returns when every thread is done. *)
Definition recover (sched : list nat) : M rc_mgr Z :=
  ret ← rc_init;
  if negb (ret =? 0) then mret (- ENOMEM) else
  _ ← queue_push 0;
  _ ← modify (upd_active (fun _ => THREAD_NUM));
  ts ← run sched (replicate (Z.to_nat THREAD_NUM) Pop);
  if decide (Forall (eq Done) ts) then _ ← rc_flush; _ ← rc_free; mret 0 else throw OutOfFuel.
End recover.

(** ** What there is to recover *)

Section image.
Context (sb : pm_super_block) (m : mem).

(** The slots from [a] on, along [next]. *)
Fixpoint follow (next : Z -> Z) (fuel : nat) (a : Z) : list Z :=
  match fuel with
  | O => []
  | S fuel' => if a =? 0 then [] else a :: follow next fuel' (next a)
  end.

Definition i_dir (i : Z) : bool := negb (Z.land (i32 (load m (IDX2INODE sb i + PI_i_mode) 4)) S_IFDIR =? 0).
Definition log_next (i : Z) : Z -> Z := if i_dir i then dent_next sb m else fent_next sb m.
(** The slots of an inode, with the ghost slot. *)
Definition log_slots (i : Z) : list Z := follow (log_next i) (log_fuel sb) (pm_head sb m i).

(** The entries of an inode.  The last slot of a log is the ghost slot, where
    the next entry will go. *)
Definition entries (i : Z) : list Z := removelast (log_slots i).
Definition entry_count (i : Z) : Z := zlength (entries i).

(** The inodes that the entries of a directory name. *)
Definition named (k : Z) : Z := i64 (load m (IDX2DENT sb k + PD_ino) 8).
Definition kids (i : Z) : list Z := if i_dir i then named <$> entries i else [].

Inductive reach : Z -> Prop :=
| reach_root : reach 0
| reach_kid i c : reach i -> c ∈ kids i -> reach c.

(** The blocks that a slot of a file covers. *)
Definition covers (k : Z) : list Z :=
  seqZ (load m (IDX2FENT sb k + PF_l_idx) 4) (i32 (load m (IDX2FENT sb k + PF_blocks) 4)).

Fixpoint log_chain (next : Z -> Z) (a : Z) (l : list Z) : Prop :=
  match l with
  | [] => a = 0
  | x :: l' => a = x /\ log_chain next (next x) l'
  end.

(** What the recovery relies on: numbers in range, logs that end and share no
    slot, and files of at most 256 blocks no block of which was written twice.
    The recovery takes the ghost slot of a directory for an entry, so what the
    last user of that slot left there has to name an inode that is in use. *)
Record image_ok : Prop := {
  io_mem : mem_ok m;
  io_range i : reach i -> 0 <= i < inode_num sb;
  io_chain i : reach i -> log_chain (log_next i) (pm_head sb m i) (log_slots i);
  io_slots i k : reach i -> k ∈ log_slots i -> 0 < k < slot_num (kind sb (if i_dir i then SLOT_DIR else SLOT_FILE));
  io_disj i j k : reach i -> reach j -> i_dir i = i_dir j -> k ∈ log_slots i -> k ∈ log_slots j -> i = j;
  io_ghost i k : reach i -> i_dir i = true -> last (log_slots i) = Some k -> reach (named k);
  io_blocks i : reach i -> i_dir i = false ->
    NoDup (entries i ≫= covers) /\ Forall (fun b => b < BRANCH_NUM) (entries i ≫= covers);
}.

Lemma log_chain_unique next a l l' : 0 ∉ l -> 0 ∉ l' -> log_chain next a l -> log_chain next a l' -> l = l'.
Proof.
  revert a l'. induction l as [|x l IH]; intros a [|y l'] Hl Hl' Hc Hc'; simpl in *;
    [done|destruct Hc' as [-> _]; subst; set_solver|destruct Hc as [-> _]; subst; set_solver|].
  destruct Hc as [-> Hc], Hc' as [-> Hc']. f_equal. eapply IH; [set_solver..|done|done].
Qed.
Lemma log_chain_app next a l1 x l2 :
  log_chain next a (l1 ++ x :: l2) -> log_chain next (next x) l2.
Proof. revert a. induction l1 as [|y l1 IH]; intros a; simpl; intros [-> H]; [done|eauto]. Qed.

(** Every slot of a directory names an inode that is in use. *)
Lemma slot_reach i k : image_ok -> reach i -> i_dir i = true -> k ∈ log_slots i -> reach (named k).
Proof.
  intros Hok Hi Hd Hk. pose proof (io_ghost Hok i) as Hg. pose proof (reach_kid i (named k) Hi) as Hr.
  unfold kids, entries in Hr. rewrite Hd in Hr.
  destruct (log_slots i) as [|x l _] using rev_ind; [by apply not_elem_of_nil in Hk|].
  rewrite removelast_last in Hr. apply elem_of_app in Hk as [Hk|Hk]; [by apply Hr, list_elem_of_fmap_2|].
  apply list_elem_of_singleton in Hk as ->. apply Hg; [done|done|]. apply last_snoc.
Qed.

(** A log that ends has no slot twice. *)
Lemma log_chain_nodup next a l : 0 ∉ l -> log_chain next a l -> NoDup l.
Proof.
  revert a. induction l as [|x l IH]; intros a H0 Hc; [constructor|]. simpl in Hc. destruct Hc as [-> Hc].
  constructor; [|eapply IH; [set_solver|done]]. intros Hx. apply list_elem_of_split in Hx as (l1 & l2 & ->).
  pose proof (log_chain_app _ _ _ _ _ Hc) as Hc2.
  assert (l1 ++ x :: l2 = l2) as E by (eapply log_chain_unique; [| |exact Hc|exact Hc2]; set_solver).
  apply (f_equal length) in E. rewrite length_app in E. simpl in E. lia.
Qed.
End image.
