(* ===== verification/RecoverWalk.v ===== *)
(** * The walk of the recovery: handling one inode

    [wf] relates the state of the recovery with what has been marked so far.
    Handling an inode marks its slots, counts its entries and puts the inodes
    it names for the first time on the queue; it does not fault and does not
    run out of memory. *)
From stdpp Require Import base numbers list gmap.
From S2P Require Import Prelude Bitops Slot Btree Rbtree DirIndex Pm Mkfs Shm Fs Journal Dir File FileIndex FileLog Recover.
Local Open Scope Z_scope.

(** ** The state of a recovery *)

Section proofs.
Context (sb : pm_super_block) (stray : Z) (fresh : rc_inode) (fresh_ref : Z) (p0 : pmem).
Local Abbreviation m := (bytes p0).
Local Abbreviation dnum := (slot_num (sb_dir sb)).
Local Abbreviation fnum := (slot_num (sb_file sb)).
Local Abbreviation reachable := (reach sb m).
Hypothesis Hlo : layout_ok sb.
Hypothesis Himg : image_ok sb m.
(** The memory that [malloc] returns happens to be cleared. *)
Hypothesis Hfresh : ri_link fresh = 0 /\ ri_entry_num fresh = 0 /\ fresh_ref = 0.

(** The bitmap [l] of [n] slots has the slots [S]. *)
Definition bits (l : list Z) (n : Z) (S : list Z) : Prop :=
  bytes_wf l /\ zlength l = (n + 7) / 8 /\ forall k, 0 <= k -> bit_at l k = bool_decide (k ∈ S).

Lemma bits_set l n S k : bits l n S -> 0 <= k < n -> exists l', set_bit k l = Ok l' /\ bits l' n (k :: S).
Proof.
  intros (Hw & Hl & Hb) Hk. destruct (set_bit_spec k l Hw) as (l' & -> & Hl' & Hw' & Hb'); [zdm|].
  exists l'. split; [done|]. split; [done|]. split; [lia|]. intros j Hj. rewrite Hb', Hb by done.
  destruct (Z.eqb_spec j k) as [->|]; [rewrite orb_true_r|rewrite orb_false_r]; symmetry.
  - apply bool_decide_eq_true, elem_of_cons. by left.
  - apply bool_decide_ext. rewrite elem_of_cons. tauto.
Qed.

Lemma bits_zero n : 0 <= n -> bits (replicate (Z.to_nat ((n + 7) / 8)) 0) n [].
Proof.
  intros Hn. split; [|split].
  - apply Forall_replicate. lia.
  - unfold zlength. rewrite length_replicate. zdm.
  - intros k Hk. unfold bit_at, byte_at. replace (default 0 _) with 0; [apply Z.bits_0|].
    destruct (_ !! Z.to_nat (k / 8)) eqn:E; [|done]. by apply lookup_replicate in E as [-> _].
Qed.

(** The inodes that have been put on the queue. *)
Definition pushed (s : rc_mgr) : list Z := take (Z.to_nat (rear (rc_queue s))) (data (rc_queue s)).

(** [I], [U] and [F] are the inodes, directory slots and file slots that are
    marked, [E] the number of entries that has been counted; [r] is how much
    memory there is beyond what the inodes and slots still to come will take. *)
Record wf (s : rc_mgr) (r : Z) (I U F : list Z) (E : Z -> Z) : Prop := {
  w_dev : rc_dev s = p0;
  w_imap : bits (rc_map s SLOT_INODE) (inode_num sb) I;
  w_dmap : bits (rc_map s SLOT_DIR) dnum U;
  w_fmap : bits (rc_map s SLOT_FILE) fnum F;
  w_zmap : bits (rc_map s SLOT_DATA) (slot_num (sb_data sb)) [];
  w_sets : NoDup I /\ NoDup U /\ NoDup F;
  w_ranges : (forall k, k ∈ I -> reachable k) /\ (forall k, k ∈ U -> 0 < k < dnum) /\ (forall k, k ∈ F -> 0 < k < fnum);
  w_queue : 0 <= front (rc_queue s) <= rear (rc_queue s) /\ rear (rc_queue s) <= capacity (rc_queue s) /\
    capacity (rc_queue s) = inode_num sb /\ zlength (data (rc_queue s)) = inode_num sb;
  w_nodup : NoDup (pushed s);
  w_pushed i : i ∈ pushed s -> reachable i;
  w_table i : is_Some (rc_table s !! i) <-> i ∈ pushed s;
  w_link i o : rc_table s !! i = Some o -> 1 <= ri_link o <= 1 + zlength U;
  w_num i o : rc_table s !! i = Some o -> ri_entry_num o = E i;
  w_unseen i : i ∉ pushed s -> E i = 0;
  w_heap : NoDup (rc_heap s) /\ (forall p, p ∈ rc_heap s -> p <> 0 /\ rc_filents s !! p = None);
  w_lists i o : rc_table s !! i = Some o ->
    NoDup (ri_list o) /\ (forall p, p ∈ ri_list o -> is_Some (rc_filents s !! p));
  w_disj i j o o' p : i <> j -> rc_table s !! i = Some o -> rc_table s !! j = Some o' -> p ∈ ri_list o -> p ∉ ri_list o';
  w_room : 2 * inode_num sb + fnum + r <= zlength (rc_heap s) + zlength (pushed s) + zlength I + zlength F;
}.

(** What every step keeps. *)
Record later (s s' : rc_mgr) : Prop := {
  l_pushed : pushed s `prefix_of` pushed s';
  l_front : front (rc_queue s') = front (rc_queue s);
  l_active : active_thread s' = active_thread s;
  l_modes i o : rc_table s !! i = Some o -> exists o', rc_table s' !! i = Some o' /\ ri_mode o' = ri_mode o;
}.

#[local] Instance later_refl : Reflexive later.
Proof. intros s. split; eauto. Qed.
#[local] Instance later_trans : Transitive later.
Proof.
  intros s1 s2 s3 [H1 H2 H3 H4] [K1 K2 K3 K4]. split; [by etrans|congruence..|].
  intros i o Hi. destruct (H4 i o Hi) as (o' & Ho & E). destruct (K4 _ _ Ho) as (o2 & Ho2 & E2). eauto with congruence.
Qed.

(** *** Running the primitives *)

Lemma rd_ri_eq s i o : rc_table s !! i = Some o -> rd_ri i s = Ok (o, s).
Proof. intros H. unfold rd_ri, deref. by rewrite H. Qed.
Lemma upd_ri_eq s i f : is_Some (rc_table s !! i) -> upd_ri i f s = Ok (tt, upd_rc_table (alter f i) s).
Proof.
  intros [o Ho]. unfold upd_ri. mstep (rd_ri_eq _ _ _ Ho). unfold modify, upd_rc_table. do 3 f_equal.
  apply map_eq. intros j. destruct (decide (j = i)) as [->|].
  - by rewrite lookup_insert_eq, lookup_alter_eq, Ho.
  - by rewrite lookup_insert_ne, lookup_alter_ne.
Qed.
Lemma set_map_bit_eq s t n S k :
  bits (rc_map s t) n S -> 0 <= k < n -> n < 2 ^ 31 ->
  exists l, set_map_bit t k s = Ok (tt, upd_rc_map t l s) /\ bits l n (k :: S).
Proof.
  intros Hb Hk Hn. destruct (bits_set _ _ _ _ Hb Hk) as (l & Hl & Hb'). exists l. split; [|done].
  unfold set_map_bit. mstep eq_refl. rewrite (u64_small k) by lia.
  erewrite M_bind_step by (unfold lift; rewrite Hl; reflexivity). done.
Qed.

Lemma alter_is_Some {A} (f : A -> A) i (T : gmap Z A) j : is_Some (alter f i T !! j) <-> is_Some (T !! j).
Proof.
  destruct (decide (j = i)) as [->|]; [rewrite lookup_alter_eq|by rewrite lookup_alter_ne]. apply fmap_is_Some.
Qed.

Lemma NoDup_bound (l : list Z) n : 0 <= n -> NoDup l -> (forall k, k ∈ l -> 0 <= k < n) -> zlength l <= n.
Proof.
  intros Hn Hd Hr. assert (l ⊆+ seqZ 0 n) as Hs.
  { apply NoDup_submseteq; [done|]. intros k Hk. apply elem_of_seqZ. specialize (Hr k Hk). lia. }
  apply submseteq_length in Hs. rewrite length_seqZ in Hs. unfold zlength. lia.
Qed.
Lemma zlength_cons {A} (x : A) l : zlength (x :: l) = 1 + zlength l.
Proof. unfold zlength. simpl. lia. Qed.
Lemma zlength_app {A} (l l' : list A) : zlength (l ++ l') = zlength l + zlength l'.
Proof. unfold zlength. rewrite length_app. lia. Qed.

Lemma nums : 0 < inode_num sb < 2 ^ 31 /\ 0 < dnum < 2 ^ 31 /\ 0 < fnum < 2 ^ 31.
Proof. destruct Hlo as [? ? ? (Hi & Hd & Hf & _) ? ?]. split; [apply Hi|]. split; [apply Hd|apply Hf]. Qed.

(** *** Steps of the invariant *)

Lemma wf_mark_dir s r I U F E k l :
  wf s r I U F E -> 0 < k < dnum -> k ∉ U -> bits l dnum (k :: U) -> wf (upd_rc_map SLOT_DIR l s) r I (k :: U) F E.
Proof.
  intros [] Hk Hn Hb. destruct w_sets0 as (? & ? & ?), w_ranges0 as (? & HU & ?). split; try done.
  - split_and!; try done. by constructor.
  - split_and!; try done. intros j [->|]%elem_of_cons; auto.
  - intros i o Hi. specialize (w_link0 i o Hi). rewrite zlength_cons. lia.
Qed.
Lemma wf_mark_file s r I U F E k l :
  wf s r I U F E -> 0 < k < fnum -> k ∉ F -> bits l fnum (k :: F) -> wf (upd_rc_map SLOT_FILE l s) (r + 1) I U (k :: F) E.
Proof.
  intros [] Hk Hn Hb. destruct w_sets0 as (? & ? & ?), w_ranges0 as (? & ? & HF). split; try done.
  - split_and!; try done. by constructor.
  - split_and!; try done. intros j [->|]%elem_of_cons; auto.
  - simpl. unfold pushed in *. simpl. rewrite zlength_cons. lia.
Qed.
Lemma wf_mark_inode s r I U F E k l :
  wf s r I U F E -> reachable k -> k ∉ I -> bits l (inode_num sb) (k :: I) -> wf (upd_rc_map SLOT_INODE l s) (r + 1) (k :: I) U F E.
Proof.
  intros [] Hk Hn Hb. destruct w_sets0 as (? & ? & ?), w_ranges0 as (HI & ? & ?). split; try done.
  - split_and!; try done. by constructor.
  - split_and!; try done. intros j [->|]%elem_of_cons; auto.
  - simpl. unfold pushed in *. simpl. rewrite zlength_cons. lia.
Qed.

(** A change of one object that leaves its list alone. *)
Lemma wf_alter s r I U F E E' i f :
  wf s r I U F E -> is_Some (rc_table s !! i) -> (forall j, j <> i -> E' j = E j) ->
  (forall o, rc_table s !! i = Some o ->
    ri_list (f o) = ri_list o /\ 1 <= ri_link (f o) <= 1 + zlength U /\ ri_entry_num (f o) = E' i) ->
  wf (upd_rc_table (alter f i) s) r I U F E'.
Proof.
  intros [] Hi HE Hf.
  assert (forall j o, alter f i (rc_table s) !! j = Some o ->
    exists o0, rc_table s !! j = Some o0 /\ ri_list o = ri_list o0 /\ (j <> i -> o = o0) /\ (j = i -> o = f o0)) as Hal.
  { intros j o. destruct (decide (j = i)) as [->|Hj]; [rewrite lookup_alter_eq|rewrite lookup_alter_ne by done; intros Ho; by exists o].
    intros (o0 & Ho & ->)%fmap_Some_1. exists o0. destruct (Hf o0 Ho) as (? & _). done. }
  split; try done; simpl.
  - intros j. by rewrite alter_is_Some.
  - intros j o Hj. destruct (Hal j o Hj) as (o0 & Ho & _ & H1 & H2). destruct (decide (j = i)) as [->|Hji].
    + rewrite H2 by done. by apply Hf.
    + rewrite H1 by done. eauto.
  - intros j o Hj. destruct (Hal j o Hj) as (o0 & Ho & _ & H1 & H2). destruct (decide (j = i)) as [->|Hji].
    + rewrite H2 by done. by apply Hf.
    + rewrite H1, HE by done. eauto.
  - intros j Hj. rewrite HE; [auto|]. intros ->. by apply Hj, w_table0.
  - intros j o Hj. destruct (Hal j o Hj) as (o0 & Ho & -> & _). eauto.
  - intros j j' o o' p Hne Hj Hj'. destruct (Hal j o Hj) as (o0 & Ho & -> & _).
    destruct (Hal j' o' Hj') as (o0' & Ho' & -> & _). eauto.
Qed.
Lemma later_alter s i f :
  (forall o, rc_table s !! i = Some o -> ri_mode (f o) = ri_mode o) -> later s (upd_rc_table (alter f i) s).
Proof.
  intros Hf. split; [done..|]. intros j o Hj. simpl. destruct (decide (j = i)) as [->|].
  - rewrite lookup_alter_eq, Hj. simpl. eauto.
  - rewrite lookup_alter_ne by done. eauto.
Qed.

(** A new object for an inode that goes on the queue. *)
Lemma wf_new s r I U F E c p h o :
  wf s r I U F E -> reachable c -> rc_table s !! c = None -> rc_heap s = p :: h ->
  ri_link o = 1 -> ri_entry_num o = 0 -> ri_list o = [] ->
  let q := rc_queue s in
  wf (upd_rc_queue (mk_queue (front q) (rear q + 1) (<[Z.to_nat (rear q) := c]> (data q)) (capacity q))
        (upd_rc_table <[c := o]> (upd_rc_heap (fun _ => h) s))) r I U F E /\
  rear q < capacity q /\
  pushed (upd_rc_queue (mk_queue (front q) (rear q + 1) (<[Z.to_nat (rear q) := c]> (data q)) (capacity q)) s) = pushed s ++ [c].
Proof.
  intros [] Hc Hn Hh Hl He Hli q. destruct w_queue0 as (Hq1 & Hq2 & Hq3 & Hq4). fold q in Hq1, Hq2, Hq3, Hq4.
  assert (c ∉ pushed s) as Hcn.
  { intros Hin. apply w_table0 in Hin as [? Hin]. congruence. }
  assert (zlength (pushed s) = rear q) as Hlen.
  { unfold pushed, zlength. fold q. rewrite length_take. unfold zlength in Hq4. lia. }
  assert (NoDup (pushed s ++ [c])) as Hnd .
  { apply NoDup_app. split; [done|]. split; [|apply NoDup_singleton]. intros k Hk ->%list_elem_of_singleton. done. }
  assert (rear q < capacity q) as Hlt.
  { pose proof nums. pose proof (NoDup_bound (pushed s ++ [c]) (inode_num sb) ltac:(lia) Hnd) as Hb.
    rewrite zlength_app, zlength_cons in Hb. change (zlength (@nil Z)) with 0 in Hb. rewrite Hq3. apply Z.lt_le_trans with (1 + rear q); [lia|].
    rewrite <- Hlen. etrans; [|apply Hb]; [lia|]. intros k [Hk|Hk]%elem_of_app; [apply (io_range _ _ Himg); auto|].
    apply list_elem_of_singleton in Hk as ->. by apply (io_range _ _ Himg). }
  assert (take (Z.to_nat (rear q + 1)) (<[Z.to_nat (rear q) := c]> (data q)) = pushed s ++ [c]) as Hp.
  { replace (Z.to_nat (rear q + 1)) with (S (Z.to_nat (rear q))) by lia.
    unfold zlength in Hq4. rewrite (take_S_r _ _ c) by (apply list_lookup_insert_eq; lia).
    by rewrite take_insert_ge by lia. }
  split; [|split; [done|exact Hp]].
  destruct w_heap0 as (Hh1 & Hh2). rewrite Hh in Hh1, Hh2. apply NoDup_cons in Hh1 as [Hh0 Hh1].
  split; unfold pushed in *; simpl; rewrite ?Hp; try done.
  - split; [lia|]. split; [lia|]. split; [done|]. by rewrite zlength_insert.
  - intros i [Hi|Hi]%elem_of_app; [auto|]. by apply list_elem_of_singleton in Hi as ->.
  - intros i. rewrite lookup_insert_is_Some', elem_of_app, list_elem_of_singleton, w_table0. split; intros [?|?]; auto.
  - intros i o' [[<- <-]|[Hne Hi]]%lookup_insert_Some; [|eauto]. rewrite Hl. pose proof (zlength_nonneg U). lia.
  - intros i o' [[<- <-]|[Hne Hi]]%lookup_insert_Some; [|eauto]. rewrite He. symmetry. auto.
  - intros i Hi. apply w_unseen0. rewrite elem_of_app in Hi. tauto.
  - split; [done|]. intros x Hx. apply Hh2. by right.
  - intros i o' [[<- <-]|[Hne Hi]]%lookup_insert_Some; [|eauto]. rewrite Hli. split; [constructor|]. intros x Hx. by apply not_elem_of_nil in Hx.
  - intros i j o1 o2 x Hij [[<- <-]|[Hne Hi]]%lookup_insert_Some [[<- <-]|[Hne' Hj]]%lookup_insert_Some;
      rewrite ?Hli; try done; [by intros ?%not_elem_of_nil|intros _; apply not_elem_of_nil|eauto].
  - rewrite zlength_app, zlength_cons. change (zlength (@nil Z)) with 0. rewrite Hh, zlength_cons in w_room0. lia.
Qed.

Lemma wf_weaken s r r' I U F E : r' <= r -> wf s r I U F E -> wf s r' I U F E.
Proof. intros Hr []. split; try done. lia. Qed.

(** There is memory for a new inode. *)
Lemma room_new s r I U F E c :
  wf s r I U F E -> 0 <= r -> reachable c -> rc_table s !! c = None -> exists p h, rc_heap s = p :: h /\ p <> 0.
Proof.
  intros [] Hr Hc Hn. assert (c ∉ pushed s) as Hcn.
  { intros Hin. apply w_table0 in Hin as [? Hin]. congruence. }
  destruct w_sets0 as (HI & _ & HF), w_ranges0 as (RI & _ & RF). pose proof nums.
  assert (zlength I <= inode_num sb) by (apply NoDup_bound; [lia|done|]; intros; by apply (io_range _ _ Himg), RI).
  assert (zlength F <= fnum) by (apply NoDup_bound; [lia|done|]; intros k Hk; specialize (RF k Hk); lia).
  assert (zlength (c :: pushed s) <= inode_num sb) as Hp.
  { apply NoDup_bound; [lia|by constructor|]. intros k [->|Hk]%elem_of_cons; apply (io_range _ _ Himg); auto. }
  rewrite zlength_cons in Hp. destruct (rc_heap s) as [|p h]; [change (zlength (@nil Z)) with 0 in w_room0; lia|].
  exists p, h. split; [done|]. apply w_heap0. by left.
Qed.

(** ** A slot of a directory *)

(** [n] more entries of [i]. *)
Definition bump (n : Z) (E : Z -> Z) (i : Z) : Z -> Z := fun j => if j =? i then E i + n else E j.

(** The end of [rc_handle_dirent], from the change of the link count. *)
Lemma count_entry s r I U F E i :
  wf s r I U F E -> is_Some (rc_table s !! i) -> 0 <= E i < 2 ^ 32 ->
  exists s', upd_ri i (upd_ri_entry_num (fun n => u64 (n + 1))) s = Ok (tt, s') /\
    wf s' r I U F (bump 1 E i) /\ later s s'.
Proof.
  intros Hw Hi HE. eexists. split; [by apply upd_ri_eq|]. split.
  - eapply wf_alter; [done|done| |].
    + intros j Hj. unfold bump. destruct (Z.eqb_spec j i); [done|done].
    + intros o Ho. simpl. split; [done|]. split; [by apply (w_link _ _ _ _ _ _ Hw i)|].
      rewrite (w_num _ _ _ _ _ _ Hw i o Ho). unfold bump. rewrite Z.eqb_refl. apply u64_small. lia.
  - by apply later_alter.
Qed.

Lemma link_present s r I U F E c o :
  wf s r I U F E -> rc_table s !! c = Some o -> ri_link o <= zlength U -> zlength U < 2 ^ 31 - 1 ->
  exists s', upd_ri c (upd_ri_link (fun l => i32 (l + 1))) s = Ok (tt, s') /\
    wf s' r I U F E /\ later s s' /\ exists o', rc_table s' !! c = Some o' /\ ri_link o' <> 1.
Proof.
  intros Hw Ho Hl Hb. pose proof (w_link _ _ _ _ _ _ Hw c o Ho) as Hk.
  assert (i32 (ri_link o + 1) = ri_link o + 1) as Hi by (apply i32_small; lia).
  eexists. split; [apply upd_ri_eq; by eexists|]. split; [|split].
  - eapply wf_alter; [done|by eexists|done|]. intros o' Ho'. rewrite Ho in Ho'. injection Ho' as <-. simpl.
    split; [done|]. split; [lia|]. by apply (w_num _ _ _ _ _ _ Hw c).
  - by apply later_alter.
  - simpl. rewrite lookup_alter_eq, Ho. eexists. split; [done|]. simpl. lia.
Qed.

Lemma queue_push_eq s v :
  rear (rc_queue s) < capacity (rc_queue s) -> 0 <= front (rc_queue s) <= rear (rc_queue s) ->
  zlength (data (rc_queue s)) = capacity (rc_queue s) ->
  let q := rc_queue s in
  queue_push v s = Ok (0, upd_rc_queue (mk_queue (front q) (rear q + 1) (<[Z.to_nat (rear q) := v]> (data q)) (capacity q)) s).
Proof.
  intros Hr Hf Hz q. unfold queue_push. mstep eq_refl. fold q. rewrite Z.geb_leb.
  destruct (Z.leb_spec (capacity q) (rear q - front q)); [subst q; lia|].
  erewrite M_bind_step by (unfold lift; rewrite zset_in by (subst q; lia); reflexivity). done.
Qed.

Lemma rc_iget_present s i : is_Some (rc_table s !! i) -> 0 <= i < inode_num sb -> rc_iget sb fresh i s = Ok (1, s).
Proof.
  intros [o Ho] Hi. unfold rc_iget. mstep eq_refl. destruct (Z.leb_spec 0 i), (Z.ltb_spec i (inode_num sb)); try lia.
  simpl. by rewrite Ho.
Qed.

(** What [rc_handle_dirent] does for a slot that names an inode it has seen. *)
Lemma dirent_present s r I U F E k l c :
  wf s r I U F E -> 0 < k < dnum -> k ∉ U -> bits l dnum (k :: U) -> c = named sb m k ->
  is_Some (rc_table s !! c) ->
  exists s', (_ ← upd_ri c (upd_ri_link (fun l => i32 (l + 1)));
              o ← rd_ri c;
              (if ri_link o =? 1 then _ ← queue_push (i32 (load m (IDX2DENT sb k + PD_ino) 8)); mret tt else mret tt))
             (upd_rc_map SLOT_DIR l s) = Ok (tt, s') /\
    wf s' r I (k :: U) F E /\ later s s' /\ c ∈ pushed s'.
Proof.
  intros Hw Hk Hn Hb -> [o Ho]. pose proof (wf_mark_dir _ _ _ _ _ _ _ _ Hw Hk Hn Hb) as Hw1.
  pose proof (w_link _ _ _ _ _ _ Hw _ _ Ho) as Hl. pose proof nums.
  assert (zlength (k :: U) <= dnum - 1).
  { destruct (w_sets _ _ _ _ _ _ Hw1) as (_ & HU & _), (w_ranges _ _ _ _ _ _ Hw1) as (_ & RU & _).
    pose proof (NoDup_bound (0 :: k :: U) dnum) as Hd. rewrite zlength_cons in Hd.
    enough (1 + zlength (k :: U) <= dnum) by lia. apply Hd; [lia| |].
    - constructor; [|done]. intros H0. specialize (RU _ H0). lia.
    - intros j [->|Hj]%elem_of_cons; [lia|]. specialize (RU _ Hj). lia. }
  destruct (link_present (upd_rc_map SLOT_DIR l s) r I (k :: U) F E (named sb m k) o Hw1 Ho)
    as (s' & Hs' & Hw' & Hl' & o' & Ho' & Hne); [rewrite zlength_cons; lia|lia|].
  exists s'. split; [|split; [done|split]].
  - mstep Hs'. mstep (rd_ri_eq _ _ _ Ho'). destruct (Z.eqb_spec (ri_link o') 1); [done|]. done.
  - etrans; [|exact Hl']. by split; eauto.
  - apply (w_table _ _ _ _ _ _ Hw'). by eexists.
Qed.

Lemma dirent_absent s r I U F E k l c p h :
  wf s r I U F E -> 0 < k < dnum -> k ∉ U -> bits l dnum (k :: U) -> c = named sb m k -> reachable c ->
  rc_table s !! c = None -> rc_heap s = p :: h ->
  exists s', (_ ← upd_ri c (upd_ri_link (fun l => i32 (l + 1)));
              o ← rd_ri c;
              (if ri_link o =? 1 then _ ← queue_push (i32 (load m (IDX2DENT sb k + PD_ino) 8)); mret tt else mret tt))
             (upd_rc_map SLOT_DIR l (upd_rc_table <[c := upd_ri_addr p (upd_ri_list (fun _ => []) fresh)]>
               (upd_rc_heap (fun _ => h) s))) = Ok (tt, s') /\
    wf s' r I (k :: U) F E /\ later s s' /\ c ∈ pushed s'.
Proof.
  intros Hw Hk Hn Hb Ec Hc Hno Hh. pose proof (wf_mark_dir _ _ _ _ _ _ _ _ Hw Hk Hn Hb) as Hw1. pose proof nums.
  destruct Hfresh as (Hf1 & Hf2 & _). pose proof (io_range _ _ Himg _ Hc) as Hcr.
  set (o := upd_ri_link (fun l => i32 (l + 1)) (upd_ri_addr p (upd_ri_list (fun _ => []) fresh))).
  assert (ri_link o = 1) as Ho by (unfold o; simpl; by rewrite Hf1).
  assert (i32 (load m (IDX2DENT sb k + PD_ino) 8) = c) as Hi32.
  { pose proof (load_range m (IDX2DENT sb k + PD_ino) 8 (io_mem _ _ Himg)) as Hlr. change (256 ^ Z.of_nat 8) with (2 ^ 64) in Hlr.
    unfold named, i64, signed in Ec. rewrite Z.mod_small in Ec by lia.
    destruct (Z.ltb_spec (load m (IDX2DENT sb k + PD_ino) 8) (2 ^ (64 - 1))); [|lia].
    rewrite <- Ec. apply i32_small. lia. }
  destruct (wf_new (upd_rc_map SLOT_DIR l s) r I (k :: U) F E c p h o Hw1 Hc Hno Hh Ho Hf2 eq_refl) as (Hw2 & Hq & Hp).
  eexists. split; [|split; [exact Hw2|split]].
  - erewrite M_bind_step by (apply upd_ri_eq; simpl; rewrite lookup_insert_eq; by eexists).
    erewrite M_bind_step by (apply rd_ri_eq; simpl; rewrite lookup_alter_eq, lookup_insert_eq; reflexivity).
    fold o. rewrite Ho. simpl (1 =? 1). cbv iota. rewrite Hi32.
    destruct (w_queue _ _ _ _ _ _ Hw) as (? & ? & ? & ?).
    erewrite M_bind_step by (apply queue_push_eq; simpl in *; congruence || lia).
    unfold mret, M_ret, upd_rc_queue, upd_rc_table, upd_rc_heap, upd_rc_map. simpl. do 3 f_equal.
    apply map_eq. intros j. destruct (decide (j = c)) as [->|].
    + by rewrite lookup_alter_eq, !lookup_insert_eq.
    + by rewrite lookup_alter_ne, !lookup_insert_ne.
  - split; [unfold pushed in *; simpl in *; rewrite Hp; by apply prefix_app_r|done|done|].
    intros j oj Hj. simpl. exists oj. split; [|done]. rewrite lookup_insert_ne; [done|]. congruence.
  - unfold pushed in *. simpl in *. rewrite Hp. apply elem_of_app. right. by apply list_elem_of_singleton.
Qed.

Lemma rc_handle_dirent_spec s r I U F E i k nx :
  wf s r I U F E -> 0 <= r -> is_Some (rc_table s !! i) -> 0 <= E i < 2 ^ 32 ->
  0 < k < dnum -> k ∉ U -> reachable (named sb m k) ->
  exists s', rc_handle_dirent sb fresh i k nx s = Ok ((0, dent_next sb m k), s') /\
    wf s' r I (k :: U) F (bump 1 E i) /\ later s s' /\ named sb m k ∈ pushed s'.
Proof.
  intros Hw Hr Hi HE Hk Hn Hc. pose proof nums. set (c := named sb m k) in *.
  pose proof (io_range _ _ Himg _ Hc) as Hcr.
  destruct (set_map_bit_eq s SLOT_DIR dnum U k (w_dmap _ _ _ _ _ _ Hw)) as (l & Hl & Hb); [lia|lia|].
  assert (exists s0 s1 v, v <> 0 /\ rc_iget sb fresh c s = Ok (v, s0) /\ set_map_bit SLOT_DIR k s0 = Ok (tt, upd_rc_map SLOT_DIR l s0) /\
    (_ ← upd_ri c (upd_ri_link (fun l => i32 (l + 1)));
     o ← rd_ri c;
     (if ri_link o =? 1 then _ ← queue_push (i32 (load m (IDX2DENT sb k + PD_ino) 8)); mret tt else mret tt))
      (upd_rc_map SLOT_DIR l s0) = Ok (tt, s1) /\
    wf s1 r I (k :: U) F E /\ later s s1 /\ c ∈ pushed s1) as (s0 & s1 & v & Hv & H0 & Hm & H1 & Hw1 & Hl1 & Hp1).
  { destruct (rc_table s !! c) as [o|] eqn:Ho.
    - destruct (dirent_present s r I U F E k l c Hw Hk Hn Hb eq_refl) as (s1 & H1 & ?); [by eexists|].
      exists s, s1, 1. split; [done|]. split; [apply rc_iget_present; [by eexists|done]|]. done.
    - destruct (room_new _ _ _ _ _ _ _ Hw Hr Hc Ho) as (p & h & Hh & Hp).
      destruct (dirent_absent s r I U F E k l c p h Hw Hk Hn Hb eq_refl Hc Ho Hh) as (s1 & H1 & ?).
      eexists _, s1, p. split; [done|]. split; [|split; [|split; [exact H1|done]]].
      + unfold rc_iget. mstep eq_refl. destruct (Z.leb_spec 0 c), (Z.ltb_spec c (inode_num sb)); try lia. simpl. rewrite Ho.
        erewrite M_bind_step by (unfold malloc; rewrite Hh; reflexivity). destruct (Z.eqb_spec p 0); [done|]. reflexivity.
      + unfold set_map_bit in *. mstep eq_refl. revert Hl. mstep eq_refl. unfold lift. simpl.
        unfold mbind, M_bind. destruct (set_bit (u64 k) (rc_map s SLOT_DIR)) as [l0|]; [|done].
        simpl. intros E0. injection E0 as E0. apply (f_equal (fun f => f SLOT_DIR)) in E0. simpl in E0. by subst l0. }
  destruct (count_entry s1 r I (k :: U) F E i Hw1) as (s2 & H2 & Hw2 & Hl2); [|done|].
  { destruct Hi as [o Ho]. destruct (l_modes _ _ Hl1 _ _ Ho) as (o' & Ho' & _). by eexists. }
  exists s2. split; [|split; [done|split; [by etrans|]]].
  - unfold rc_handle_dirent. mstep eq_refl. cbv beta zeta. rewrite (w_dev _ _ _ _ _ _ Hw). fold c in Hm |- *.
    change (i64 (load m (IDX2DENT sb k + PD_ino) 8)) with c. mstep H0. destruct (Z.eqb_spec v 0); [done|]. mstep Hm.
    apply M_bind_Ok in H1 as (a & sa & Ha & H1). apply M_bind_Ok in H1 as (o & so & Ho & H1).
    mstep Ha. mstep Ho. mstep H1. mstep H2. mstep eq_refl. by rewrite (w_dev _ _ _ _ _ _ Hw2).
  - eapply elem_of_prefix; [exact Hp1|apply Hl2].
Qed.

Lemma wf_ext s r I U F E E' : (forall j, E j = E' j) -> wf s r I U F E -> wf s r I U F E'.
Proof.
  intros HE []. split; try done.
  - intros i o Hi. rewrite <- HE. eauto.
  - intros i Hi. rewrite <- HE. eauto.
Qed.
Lemma bump_bump a b E i j : bump b (bump a E i) i j = bump (a + b) E i j.
Proof. unfold bump. rewrite Z.eqb_refl. destruct (j =? i); lia. Qed.
Lemma bump_0 E i j : bump 0 E i j = E j.
Proof. unfold bump. destruct (Z.eqb_spec j i); subst; lia. Qed.

(** The walk along a log: [P rest] holds when the slots [rest] remain. *)
Lemma log_loop_run i (next : Z -> Z) (P : list Z -> rc_mgr -> Prop) :
  (forall k rest nx s, P (k :: rest) s -> exists o s', rc_table s !! i = Some o /\ P rest s' /\
    (if negb (Z.land (ri_mode o) S_IFDIR =? 0) then rc_handle_dirent sb fresh i k nx
     else rc_handle_filent sb stray fresh_ref i k nx) s = Ok ((0, next k), s')) ->
  forall rest a nx fuel s, log_chain next a rest -> (0 ∉ rest) -> (length rest < fuel)%nat -> P rest s ->
  exists s', log_loop sb stray fresh fresh_ref fuel i a nx s = Ok (0, s') /\ P [] s'.
Proof.
  intros Hs rest. induction rest as [|k rest IH]; intros a nx fuel s Hc H0 Hf HP;
    (destruct fuel as [|fuel]; [simpl in Hf; lia|]); cbn [log_loop].
  - simpl in Hc. subst a. eauto.
  - destruct Hc as [-> Hc]. destruct (Z.eqb_spec k 0) as [->|]; [exfalso; apply H0; by left|].
    destruct (Hs k rest nx s HP) as (o & s1 & Ho & HP1 & H1). mstep (rd_ri_eq _ _ _ Ho). mstep H1. cbv beta iota.
    simpl (negb (0 =? 0)). cbv iota. apply IH; [done| |simpl in Hf; lia|done].
    intros Hin. apply H0. by right.
Qed.

Definition has_mode (i : Z) (s : rc_mgr) : Prop :=
  exists o, rc_table s !! i = Some o /\ ri_mode o = i32 (load m (IDX2INODE sb i + PI_i_mode) 4).
Lemma has_mode_later i s s' : later s s' -> has_mode i s -> has_mode i s'.
Proof. intros Hl (o & Ho & Em). destruct (l_modes _ _ Hl _ _ Ho) as (o' & Ho' & E). exists o'. split; [done|congruence]. Qed.

Lemma log_slots_ok i : reachable i ->
  (0 ∉ log_slots sb m i) /\ NoDup (log_slots sb m i) /\ (length (log_slots sb m i) < log_fuel sb)%nat.
Proof.
  intros Hi. assert (0 ∉ log_slots sb m i) as H0.
  { intros H0. pose proof (io_slots _ _ Himg _ _ Hi H0). lia. }
  split; [done|]. assert (NoDup (log_slots sb m i)) as Hn by (by eapply log_chain_nodup; [|apply (io_chain _ _ Himg)]).
  split; [done|]. pose proof nums as (_ & ? & ?). unfold log_fuel.
  pose proof (NoDup_bound (log_slots sb m i) (dnum + fnum) ltac:(lia) Hn) as Hb.
  unfold zlength in Hb. enough (Z.of_nat (length (log_slots sb m i)) <= dnum + fnum) by lia. apply Hb.
  intros k Hk. pose proof (io_slots _ _ Himg _ _ Hi Hk) as Hr. destruct (i_dir sb m i); simpl in Hr; lia.
Qed.

(** The slots before [k] are fewer than the slots of the table. *)
Lemma prefix_bound l pre k rest n :
  l = pre ++ k :: rest -> NoDup l -> (forall x, x ∈ l -> 0 < x < n) -> zlength pre < n /\ k ∉ pre.
Proof.
  intros -> Hnd Hr. assert (zlength (0 :: pre ++ k :: rest) <= n) as Hb.
  { apply NoDup_bound.
    - pose proof (Hr k). rewrite elem_of_app, elem_of_cons in *. lia.
    - constructor; [|done]. intros H0. specialize (Hr 0 H0). lia.
    - intros x [->|Hx]%elem_of_cons; [pose proof (Hr k); rewrite elem_of_app, elem_of_cons in *; lia|].
      specialize (Hr x Hx). lia. }
  rewrite zlength_cons, zlength_app, zlength_cons in Hb. pose proof (zlength_nonneg rest). split; [lia|].
  apply NoDup_app in Hnd as (_ & Hn & _). intros Hk. apply (Hn k Hk). by left.
Qed.

Lemma dir_log s r I U F E i nx :
  wf s r I U F E -> 0 <= r -> reachable i -> i_dir sb m i = true -> has_mode i s -> E i = 0 ->
  (forall k, k ∈ log_slots sb m i -> k ∉ U) ->
  exists s', log_loop sb stray fresh fresh_ref (log_fuel sb) i (pm_head sb m i) nx s = Ok (0, s') /\
    wf s' r I (reverse (log_slots sb m i) ++ U) F (bump (zlength (log_slots sb m i)) E i) /\ later s s' /\
    forall c, c ∈ kids sb m i -> c ∈ pushed s'.
Proof.
  intros Hw Hr Hi Hd Hm HE HU. destruct (log_slots_ok i Hi) as (H0 & Hnd & Hlen).
  pose proof (io_chain _ _ Himg i Hi) as Hch. unfold log_next in Hch. rewrite Hd in Hch.
  set (l := log_slots sb m i) in *.
  pose (P := fun rest s' => exists pre, l = pre ++ rest /\ wf s' r I (reverse pre ++ U) F (bump (zlength pre) E i) /\
    later s s' /\ forall k, k ∈ pre -> named sb m k ∈ pushed s').
  destruct (log_loop_run i (dent_next sb m) P) with (rest := l) (a := pm_head sb m i) (nx := nx) (fuel := log_fuel sb) (s := s)
    as (s' & Hs' & pre & El & Hw' & Hl' & Hp'); [|done..| |].
  - intros k rest nx' s1 (pre & El & Hw1 & Hl1 & Hp1).
    assert (k ∈ l) as Hk by (rewrite El; apply elem_of_app; right; by left).
    pose proof (io_slots _ _ Himg i k Hi Hk) as Hkr. rewrite Hd in Hkr. simpl in Hkr. pose proof nums.
    destruct (prefix_bound l pre k rest dnum El Hnd) as (Hpb & Hkp).
    { intros x Hx. pose proof (io_slots _ _ Himg i x Hi Hx) as Hxr. by rewrite Hd in Hxr. }
    assert (k ∉ reverse pre ++ U) as HkU.
    { rewrite elem_of_app, elem_of_reverse. intros [Hin|Hin]; [done|by apply (HU k)]. }
    pose proof (has_mode_later _ _ _ Hl1 Hm) as (o & Ho & Emo).
    destruct (rc_handle_dirent_spec s1 r I (reverse pre ++ U) F (bump (zlength pre) E i) i k nx' Hw1 Hr)
      as (s2 & H2 & Hw2 & Hl2 & Hp2); [by eexists| |done|done| |].
    { unfold bump. rewrite Z.eqb_refl, HE. pose proof (zlength_nonneg pre). lia. }
    { by apply (slot_reach _ _ i). }
    exists o, s2. split; [done|]. split.
    + exists (pre ++ [k]). split; [by rewrite <- app_assoc|]. split; [|split; [by etrans|]].
      * rewrite reverse_snoc. simpl. eapply wf_ext; [|exact Hw2]. intros j. rewrite bump_bump, zlength_app. done.
      * intros x [Hx|Hx]%elem_of_app; [eapply elem_of_prefix; [by apply Hp1|apply Hl2]|].
        by apply list_elem_of_singleton in Hx as ->.
    + rewrite Emo. unfold i_dir in Hd. by rewrite Hd.
  - exists []. split; [done|]. split; [eapply wf_ext; [|exact Hw]; intros j; symmetry; apply bump_0|].
    split; [done|]. intros k Hk. by apply not_elem_of_nil in Hk.
  - rewrite app_nil_r in El. subst pre. exists s'. split; [done|]. split; [done|]. split; [done|].
    intros c Hc. unfold kids in Hc. rewrite Hd in Hc. apply list_elem_of_fmap in Hc as (k & -> & Hk).
    apply Hp'. unfold entries in Hk. fold l in Hk. destruct l as [|x l' _] using rev_ind; [done|].
    rewrite removelast_last in Hk. apply elem_of_app. by left.
Qed.

(** ** A slot of a file *)

(** The hint is empty or at its key in the only node. *)
Definition hint_ok (root : Z) (h : btree_ptr) : Prop :=
  bp_node h = 0 \/ (bp_node h = root /\ bp_index h = bp_key h /\ 0 <= bp_key h < BRANCH_NUM).

Lemma leaf_ptr root b h t ch :
  bt_root t = root -> root <> 0 -> nodes t !! root = Some (mk_node 0 0 0 0 ch) -> 0 <= b < BRANCH_NUM -> hint_ok root h ->
  btree_get_ptr_hint stray b h t = Ok ((Some (root, b), mk_ptr root b b), t).
Proof.
  unfold BRANCH_NUM. intros Hr Hnz Hn Hb Hh. unfold btree_get_ptr_hint.
  destruct (negb (bp_node h =? 0) && (bp_key h =? b)) eqn:E1.
  { apply andb_true_iff in E1 as [E1 E2]. apply negb_true_iff, Z.eqb_neq in E1. apply Z.eqb_eq in E2.
    destruct Hh as [|(Hn1 & Hn2 & _)]; [done|]. destruct h as [a i k]. simpl in *. by subst. }
  destruct (negb (bp_node h =? 0) && (b =? u64 (bp_key h + 1))) eqn:E2.
  - apply andb_true_iff in E2 as [E2 E3]. apply negb_true_iff, Z.eqb_neq in E2. apply Z.eqb_eq in E3.
    destruct Hh as [|(Hn1 & Hn2 & Hk)]; [done|]. unfold BRANCH_NUM in Hk. rewrite u64_small in E3 by lia.
    assert (btree_next stray (mk_ptr (bp_node h) (bp_index h) 0) true t = Ok ((0, mk_ptr root b 0), t)) as Hnx.
    { unfold btree_next. cbn [bp_node bp_index bp_key]. rewrite Hn2, u64_small by lia.
      destruct (Z.ltb_spec (bp_key h + 1) BRANCH_NUM) as [_|Hx]; [|unfold BRANCH_NUM in Hx; lia].
      mstep eq_refl. simpl (1 =? 0). cbv iota. by rewrite Hn1, E3. }
    mstep Hnx. cbv beta iota. simpl (negb (0 =? 0)). cbv iota. cbn [bp_node bp_index].
    destruct (Z.eqb_spec root 0); [done|]. done.
  - assert (btree_pos stray b no_pos true t = Ok ((0, mk_ptr root b 0), t)) as Hp.
    { unfold btree_pos. mstep eq_refl. rewrite Hr. unfold levels. change (Z.to_nat (MAX_LEVELS + 1)) with 11%nat. cbn [pos_loop].
      erewrite M_bind_step; [|unfold read_node; destruct (Z.eqb_spec root 0); [done|]; rewrite Hn; reflexivity]. done. }
    mstep Hp. cbv beta iota. simpl (negb (0 =? 0)). cbv iota. cbn [bp_node bp_index].
    destruct (Z.eqb_spec root 0); [done|]. done.
Qed.

Lemma on_rc_tree_eq {A} s i o (op : M btree A) a t :
  rc_table s !! i = Some o -> op (mk_btree (ri_root o) (ri_height o) (ri_nodes o) (rc_heap s)) = Ok (a, t) ->
  on_rc_tree i op s = Ok (a, upd_rc_heap (fun _ => pool t) (upd_rc_table (alter (upd_ri_tree t) i) s)).
Proof.
  intros Ho Hm. unfold on_rc_tree. mstep (rd_ri_eq _ _ _ Ho). unfold zoom. rewrite Hm. unfold upd_rc_heap, upd_rc_table. simpl. do 3 f_equal.
  apply map_eq. intros j. destruct (decide (j = i)) as [->|].
  - by rewrite lookup_insert_eq, lookup_alter_eq, Ho.
  - by rewrite lookup_insert_ne, lookup_alter_ne.
Qed.
Lemma on_rc_tree_read {A} s i o (op : M btree A) a :
  rc_table s !! i = Some o ->
  op (mk_btree (ri_root o) (ri_height o) (ri_nodes o) (rc_heap s)) = Ok (a, mk_btree (ri_root o) (ri_height o) (ri_nodes o) (rc_heap s)) ->
  on_rc_tree i op s = Ok (a, s).
Proof.
  intros Ho Hm. rewrite (on_rc_tree_eq s i o op a _ Ho Hm). destruct s. unfold upd_rc_heap, upd_rc_table. simpl in *. do 3 f_equal.
  apply map_eq. intros j. destruct (decide (j = i)) as [->|]; [|by rewrite lookup_alter_ne].
  rewrite lookup_alter_eq, Ho. by destruct o.
Qed.

(** The tree of the file [i] is one node, with entries for the blocks [B] only. *)
Definition file_tree (s : rc_mgr) (i : Z) (B : list Z) : Prop :=
  exists o root ch, rc_table s !! i = Some o /\ root <> 0 /\ ri_root o = root /\
    ri_nodes o !! root = Some (mk_node 0 0 0 0 ch) /\ hint_ok root (ri_hint o) /\
    (forall b v, ch !! b = Some v -> v = 0 \/ b ∈ B).
Definition unlisted (p : Z) (s : rc_mgr) : Prop := forall j o, rc_table s !! j = Some o -> p ∉ ri_list o.

Lemma wf_filent s r I U F E p e :
  wf s r I U F E -> is_Some (rc_filents s !! p) -> wf (upd_rc_filents <[p := e]> s) r I U F E.
Proof.
  intros [] Hp. split; try done; simpl.
  - destruct w_heap0 as [? Hh]. split; [done|]. intros q Hq. destruct (Hh q Hq) as [? Hn]. split; [done|].
    rewrite lookup_insert_ne; [done|]. intros ->. rewrite Hn in Hp. by destruct Hp.
  - intros i o Hi. destruct (w_lists0 i o Hi) as [? Hl]. split; [done|]. intros q Hq.
    apply lookup_insert_is_Some'. right. auto.
Qed.

Lemma unlisted_alter p s i f :
  (forall o, rc_table s !! i = Some o -> ri_list (f o) = ri_list o) -> unlisted p s -> unlisted p (upd_rc_table (alter f i) s).
Proof.
  intros Hf Hu j o. simpl. destruct (decide (j = i)) as [->|]; [rewrite lookup_alter_eq|rewrite lookup_alter_ne by done; apply Hu].
  intros (o0 & Ho & ->)%fmap_Some_1. rewrite Hf by done. by eapply Hu.
Qed.

(** An object of which only the tree or the hint changes. *)
Lemma wf_tree s r I U F E i f :
  wf s r I U F E -> is_Some (rc_table s !! i) ->
  (forall o, ri_list (f o) = ri_list o /\ ri_link (f o) = ri_link o /\ ri_entry_num (f o) = ri_entry_num o /\ ri_mode (f o) = ri_mode o) ->
  wf (upd_rc_table (alter f i) s) r I U F E /\ later s (upd_rc_table (alter f i) s).
Proof.
  intros Hw Hi Hf. split.
  - eapply wf_alter; [done|done|done|]. intros o Ho. destruct (Hf o) as (-> & -> & -> & _). split; [done|].
    split; [by apply (w_link _ _ _ _ _ _ Hw i)|by apply (w_num _ _ _ _ _ _ Hw i)].
  - apply later_alter. intros o _. by destruct (Hf o) as (_ & _ & _ & ->).
Qed.

Lemma rd_rf_eq s p e : rc_filents s !! p = Some e -> rd_rf p s = Ok (e, s).
Proof. intros H. unfold rd_rf. by rewrite H. Qed.
Lemma upd_rf_eq s p e f : rc_filents s !! p = Some e -> upd_rf p f s = Ok (tt, upd_rc_filents <[p := f e]> s).
Proof. intros H. unfold upd_rf. by mstep (rd_rf_eq _ _ _ H). Qed.

(** One block of a file that no entry has covered yet. *)
Lemma block_step s r I U F E i p fe B b :
  wf s r I U F E -> file_tree s i B -> rc_filents s !! p = Some fe -> unlisted p s ->
  0 <= b < BRANCH_NUM -> b ∉ B ->
  exists o s1 s2 node index h, rc_table s !! i = Some o /\
    on_rc_tree i (btree_get_ptr_hint stray b (ri_hint o)) s = Ok ((Some (node, index), h), s) /\
    upd_ri i (upd_ri_hint h) s = Ok (tt, s1) /\
    on_rc_tree i (n ← read_node node; get_child n index) s1 = Ok (0, s1) /\
    (_ ← on_rc_tree i (set_child node index p); upd_rf p (upd_rf_ref (fun r => i32 (r + 1)))) s1 = Ok (tt, s2) /\
    wf s2 r I U F E /\ file_tree s2 i (b :: B) /\ later s s2 /\ unlisted p s2 /\
    rc_filents s2 !! p = Some (upd_rf_ref (fun r => i32 (r + 1)) fe).
Proof.
  intros Hw (o & root & ch & Ho & Hnz & Hr & Hn & Hh & Hch) Hp Hun Hb HB.
  set (h := mk_ptr root b b). set (o1 := upd_ri_hint h o).
  assert (is_Some (rc_table s !! i)) as HiS by (by eexists).
  assert ((0 <=? b) && (b <? BRANCH_NUM) = true) as Hbb by (apply andb_true_iff; split; [apply Z.leb_le|apply Z.ltb_lt]; lia).
  destruct (wf_tree s r I U F E i (upd_ri_hint h) Hw HiS) as [Hw1 Hl1]; [done|].
  set (s1 := upd_rc_table (alter (upd_ri_hint h) i) s) in *.
  assert (rc_table s1 !! i = Some o1) as Ho1 by (unfold s1; simpl; by rewrite lookup_alter_eq, Ho).
  set (t := mk_btree root (ri_height o) (<[root := with_child b p (mk_node 0 0 0 0 ch)]> (ri_nodes o)) (rc_heap s)).
  destruct (wf_tree s1 r I U F E i (upd_ri_tree t) Hw1) as [Hw2 Hl2]; [by eexists|done|].
  exists o, s1, (upd_rc_filents <[p := upd_rf_ref (fun r => i32 (r + 1)) fe]> (upd_rc_table (alter (upd_ri_tree t) i) s1)), root, b, h.
  split; [done|]. split; [apply (on_rc_tree_read s i o); [done|]; by apply (leaf_ptr root b _ _ ch)|].
  split; [by apply upd_ri_eq|].
  assert (forall T, nodes T !! root = Some (mk_node 0 0 0 0 ch) -> read_node root T = Ok (mk_node 0 0 0 0 ch, T)) as Hrd.
  { intros T HT. unfold read_node. destruct (Z.eqb_spec root 0); [done|]. by rewrite HT. }
  split; [|split; [|split; [|split; [|split; [|split]]]]].
  - apply (on_rc_tree_read s1 i o1); [done|]. erewrite M_bind_step by (by apply Hrd). unfold get_child. rewrite Hbb. simpl.
    destruct (ch !! b) as [v|] eqn:Ev; [|done]. destruct (Hch b v Ev) as [->|]; done.
  - erewrite M_bind_step; [|apply (on_rc_tree_eq s1 i o1); [done|]; unfold set_child; erewrite M_bind_step by (by apply Hrd); rewrite Hbb; reflexivity].
    erewrite upd_rf_eq; [|exact Hp]. unfold upd_rc_filents, upd_rc_heap, upd_rc_table, s1, t. simpl. by rewrite Hr.
  - apply wf_filent; [done|]. by eexists.
  - exists (upd_ri_tree t o1), root, (<[b := p]> ch). split; [simpl; by rewrite lookup_alter_eq, lookup_alter_eq, Ho|].
    split; [done|]. split; [done|]. split; [simpl; by rewrite lookup_insert_eq|].
    split; [right; simpl; lia|]. intros c v [[<- <-]|[_ Hc]]%lookup_insert_Some; [right; by left|].
    destruct (Hch c v Hc); [by left|right; by right].
  - etrans; [exact Hl1|]. etrans; [exact Hl2|]. split; [done..|]. simpl. eauto.
  - by apply (unlisted_alter p s1), (unlisted_alter p s).
  - simpl. by rewrite lookup_insert_eq.
Qed.

Lemma block_loop_spec s r I U F E i p fe B left j :
  wf s r I U F E -> file_tree s i B -> rc_filents s !! p = Some fe -> unlisted p s ->
  0 <= rf_l_idx fe -> 0 <= j ->
  (forall b, rf_l_idx fe + j <= b < rf_l_idx fe + j + Z.of_nat left -> b < BRANCH_NUM /\ b ∉ B) -> 0 <= rf_ref fe -> rf_ref fe + Z.of_nat left < 2 ^ 30 ->
  exists s', block_loop stray left i p j s = Ok (tt, s') /\
    wf s' r I U F E /\ file_tree s' i (reverse (seqZ (rf_l_idx fe + j) (Z.of_nat left)) ++ B) /\ later s s' /\ unlisted p s' /\
    rc_filents s' !! p = Some (upd_rf_ref (fun x => x + Z.of_nat left) fe).
Proof.
  revert s fe B j. induction left as [|left IH]; intros s fe B j Hw Ht Hp Hu Hl Hj HB Hr0 Href.
  - exists s. split; [done|]. split; [done|]. split; [done|]. split; [done|]. split; [done|].
    rewrite Hp. f_equal. destruct fe. unfold upd_rf_ref. simpl. f_equal. lia.
  - destruct (block_step s r I U F E i p fe B (rf_l_idx fe + j) Hw Ht Hp Hu)
      as (o & s1 & s2 & node & index & h & Ho & H1 & H2 & H3 & H4 & Hw2 & Ht2 & Hl2 & Hu2 & Hp2);
      [split; [lia|apply HB; lia]|apply HB; lia|].
    set (fe2 := upd_rf_ref (fun r => i32 (r + 1)) fe) in *.
    assert (rf_ref fe2 = rf_ref fe + 1) as Hr2 by (unfold fe2; simpl; apply i32_small; lia).
    destruct (IH s2 fe2 (rf_l_idx fe + j :: B) (j + 1) Hw2 Ht2 Hp2 Hu2) as (s3 & H5 & Hw3 & Ht3 & Hl3 & Hu3 & Hp3).
    + done.
    + lia.
    + unfold fe2. simpl. intros b Hb'. destruct (HB b) as [? Hnb]; [lia|]. split; [done|].
      intros [->|Hin]%elem_of_cons; [lia|done].
    + lia.
    + lia.
    + exists s3. split; [|split; [done|split; [|split; [by etrans|split; [done|]]]]].
      * cbn [block_loop]. mstep (rd_rf_eq _ _ _ Hp). cbv zeta. mstep (rd_ri_eq _ _ _ Ho). mstep H1. cbv beta iota. mstep H2.
        mstep H3. simpl (negb (0 =? 0)). cbv iota. mstep H4. exact H5.
      * rewrite seqZ_cons by lia. rewrite reverse_cons, <- app_assoc. simpl.
        replace (Z.succ (rf_l_idx fe + j)) with (rf_l_idx fe + (j + 1)) by lia.
        replace (Z.pred (Z.of_nat (S left))) with (Z.of_nat left) by lia. done.
      * rewrite Hp3. f_equal. unfold upd_rf_ref, fe2 in *. simpl in *. f_equal. lia.
Qed.

(** There is memory when the invariant has room. *)
Lemma room_some s r I U F E : wf s r I U F E -> 1 <= r -> exists p h, rc_heap s = p :: h /\ p <> 0.
Proof.
  intros [] Hr. destruct w_sets0 as (HI & _ & HF), w_ranges0 as (RI & _ & RF). pose proof nums.
  assert (zlength I <= inode_num sb) by (apply NoDup_bound; [lia|done|]; intros; by apply (io_range _ _ Himg), RI).
  assert (zlength F <= fnum) by (apply NoDup_bound; [lia|done|]; intros k Hk; specialize (RF k Hk); lia).
  assert (zlength (pushed s) <= inode_num sb) by (apply NoDup_bound; [lia|done|]; intros; by apply (io_range _ _ Himg), w_pushed0).
  destruct (rc_heap s) as [|p h]; [change (zlength (@nil Z)) with 0 in w_room0; lia|].
  exists p, h. split; [done|]. apply w_heap0. by left.
Qed.

Lemma wf_malloc s r I U F E p h e :
  wf s r I U F E -> rc_heap s = p :: h -> wf (upd_rc_filents <[p := e]> (upd_rc_heap (fun _ => h) s)) (r - 1) I U F E /\
    unlisted p s.
Proof.
  intros [] Hh. destruct w_heap0 as [Hn Hz]. rewrite Hh in Hn, Hz. apply NoDup_cons in Hn as [Hn0 Hn].
  destruct (Hz p) as [_ Hp]; [by left|]. split.
  - split; try done; simpl.
    + split; [done|]. intros q Hq. destruct (Hz q) as [? Hq']; [by right|]. split; [done|].
      rewrite lookup_insert_ne; [done|]. by intros ->.
    + intros i o Hi. destruct (w_lists0 i o Hi) as [? Hl]. split; [done|]. intros q Hq.
      apply lookup_insert_is_Some'. right. auto.
    + unfold pushed in *. simpl in *. rewrite Hh, zlength_cons in w_room0. lia.
  - intros j o Hj Hin. apply (w_lists0 j o Hj) in Hin as [x Hx]. congruence.
Qed.

Lemma wf_list s r I U F E i p o :
  wf s r I U F E -> rc_table s !! i = Some o -> unlisted p s -> is_Some (rc_filents s !! p) ->
  wf (upd_rc_table (alter (upd_ri_list (fun l => l ++ [p])) i) s) r I U F E.
Proof.
  intros [] Ho Hu Hp. set (f := upd_ri_list (fun l => l ++ [p])).
  assert (forall j o', alter f i (rc_table s) !! j = Some o' -> exists o0, rc_table s !! j = Some o0 /\
    ri_link o' = ri_link o0 /\ ri_entry_num o' = ri_entry_num o0 /\
    ((j <> i /\ ri_list o' = ri_list o0) \/ (j = i /\ ri_list o' = ri_list o0 ++ [p]))) as Hal.
  { intros j o'. destruct (decide (j = i)) as [->|Hj]; [rewrite lookup_alter_eq|rewrite lookup_alter_ne by done].
    - intros (o0 & Ho0 & ->)%fmap_Some_1. exists o0. tauto.
    - intros Ho0. exists o'. tauto. }
  split; try done; simpl.
  - intros j. by rewrite alter_is_Some.
  - intros j o' Hj. destruct (Hal j o' Hj) as (o0 & Ho0 & -> & _). eauto.
  - intros j o' Hj. destruct (Hal j o' Hj) as (o0 & Ho0 & _ & -> & _). eauto.
  - intros j o' Hj. destruct (Hal j o' Hj) as (o0 & Ho0 & _ & _ & [[_ ->]|[_ ->]]); [eauto|].
    destruct (w_lists0 j o0 Ho0) as [Hn Hl]. split.
    + apply NoDup_app. split; [done|]. split; [|apply NoDup_singleton]. intros x Hx ->%list_elem_of_singleton. by eapply Hu.
    + intros x [Hx|Hx]%elem_of_app; [auto|]. by apply list_elem_of_singleton in Hx as ->.
  - intros j j' o1 o2 x Hne Hj Hj' Hx. destruct (Hal j o1 Hj) as (o3 & Ho3 & _ & _ & D1), (Hal j' o2 Hj') as (o4 & Ho4 & _ & _ & D2).
    pose proof (w_disj0 j j' o3 o4 x Hne Ho3 Ho4) as Hd.
    destruct D1 as [[_ D1]|[-> D1]], D2 as [[_ D2]|[-> D2]]; rewrite D1 in Hx; rewrite D2, ?elem_of_app, ?list_elem_of_singleton in *.
    + auto.
    + intros [H'|E']; [by apply (Hd Hx)|subst x; exact (Hu _ _ Ho3 Hx)].
    + destruct Hx as [Hx|E']; [auto|subst x; exact (Hu _ _ Ho4)].
    + done.
Qed.

(** Giving back an entry that is on no list. *)
Lemma wf_free s r I U F E p e :
  wf s r I U F E -> rc_filents s !! p = Some e -> unlisted p s -> p <> 0 ->
  free_rf p s = Ok (tt, upd_rc_heap (cons p) (upd_rc_filents (delete p) s)) /\
  wf (upd_rc_heap (cons p) (upd_rc_filents (delete p) s)) (r + 1) I U F E.
Proof.
  intros [] Hp Hu Hz. split; [unfold free_rf; by mstep (rd_rf_eq _ _ _ Hp)|].
  destruct w_heap0 as [Hn Hh]. split; try done; simpl.
  - split.
    + constructor; [|done]. intros Hin. destruct (Hh p Hin). congruence.
    + intros q [->|Hq]%elem_of_cons; [by rewrite lookup_delete_eq|]. destruct (Hh q Hq) as [? Hn']. split; [done|].
      rewrite lookup_delete_ne; [done|]. congruence.
  - intros i o Hi. destruct (w_lists0 i o Hi) as [? Hl]. split; [done|]. intros q Hq. rewrite lookup_delete_ne; [auto|].
    intros ->. by eapply Hu.
  - unfold pushed in *. simpl in *. rewrite zlength_cons. lia.
Qed.

Lemma file_tree_alter s i B f :
  (forall o, ri_root (f o) = ri_root o /\ ri_nodes (f o) = ri_nodes o /\ ri_hint (f o) = ri_hint o) ->
  file_tree s i B -> file_tree (upd_rc_table (alter f i) s) i B.
Proof.
  intros Hf (o & root & ch & Ho & Hnz & Hr & Hn & Hh & Hch). exists (f o), root, ch.
  destruct (Hf o) as (-> & -> & ->). split; [simpl; by rewrite lookup_alter_eq, Ho|]. done.
Qed.
Lemma file_tree_some s i B : file_tree s i B -> is_Some (rc_table s !! i).
Proof. intros (o & ? & ? & Ho & _). by eexists. Qed.

(** What remains to do for an entry after its blocks: the list and the count. *)
Lemma filent_end s r I U F E i p e B :
  wf s r I U F E -> 0 <= r -> file_tree s i B -> rc_filents s !! p = Some e -> unlisted p s -> p <> 0 -> 0 <= E i < 2 ^ 32 ->
  exists s', (_ ← (if rf_ref e =? 0 then free_rf p else upd_ri i (upd_ri_list (fun l => l ++ [p])));
              upd_ri i (upd_ri_entry_num (fun n => u64 (n + 1)))) s = Ok (tt, s') /\
    wf s' r I U F (bump 1 E i) /\ later s s' /\ file_tree s' i B.
Proof.
  intros Hw Hr Ht Hp Hu Hz HE.
  assert (exists s1, (if rf_ref e =? 0 then free_rf p else upd_ri i (upd_ri_list (fun l => l ++ [p]))) s = Ok (tt, s1) /\
    wf s1 r I U F E /\ later s s1 /\ file_tree s1 i B) as (s1 & H1 & Hw1 & Hl1 & Ht1).
  { destruct (rf_ref e =? 0).
    - destruct (wf_free s r I U F E p e Hw Hp Hu Hz) as [Hf Hw1]. eexists. split; [exact Hf|].
      split; [eapply wf_weaken; [|exact Hw1]; lia|]. split; [|done]. split; [done..|]. eauto.
    - destruct (file_tree_some _ _ _ Ht) as [o Ho]. eexists. split; [apply upd_ri_eq; by eexists|].
      split; [eapply wf_list; [done|exact Ho|done|by eexists]|]. split; [by apply later_alter|]. by apply file_tree_alter. }
  destruct (count_entry s1 r I U F E i Hw1 (file_tree_some _ _ _ Ht1) HE) as (s2 & H2 & Hw2 & Hl2).
  exists s2. split; [by mstep H1|]. split; [done|]. split; [by etrans|].
  rewrite upd_ri_eq in H2 by (by eapply file_tree_some). injection H2 as <-. by apply file_tree_alter.
Qed.

Lemma rc_handle_filent_spec s r I U F E i k nx B :
  wf s r I U F E -> 0 <= r -> file_tree s i B -> 0 <= E i < 2 ^ 32 -> 0 < k < fnum -> k ∉ F ->
  (fent_next sb m k <> 0 -> forall b, b ∈ covers sb m k -> b < BRANCH_NUM /\ b ∉ B) ->
  let ghost := fent_next sb m k =? 0 in
  exists s', rc_handle_filent sb stray fresh_ref i k nx s = Ok ((0, fent_next sb m k), s') /\
    wf s' r I U (k :: F) (bump (if ghost then 0 else 1) E i) /\ later s s' /\
    file_tree s' i (if ghost then B else reverse (covers sb m k) ++ B).
Proof.
  intros Hw Hr Ht HE Hk Hn Hcov ghost. pose proof nums.
  destruct (set_map_bit_eq s SLOT_FILE fnum F k (w_fmap _ _ _ _ _ _ Hw)) as (l & Hl & Hb); [lia|lia|].
  pose proof (wf_mark_file _ _ _ _ _ _ _ _ Hw Hk Hn Hb) as Hw1. set (s1 := upd_rc_map SLOT_FILE l s) in *.
  destruct (room_some _ _ _ _ _ _ Hw1) as (p & h & Hh & Hp); [lia|].
  set (fe := IDX2FENT sb k). set (blocks := load m (fe + PF_blocks) 4). set (l_idx := load m (fe + PF_l_idx) 4).
  set (e := mk_rcf (i64 (load m (fe + PF_ts) 8)) fresh_ref (load m (fe + PF_p_idx) 4) l_idx (i32 blocks)).
  destruct (wf_malloc s1 (r + 1) I U (k :: F) E p h e Hw1 Hh) as [Hw2 Hu2]. replace (r + 1 - 1) with r in Hw2 by lia.
  set (s2 := upd_rc_filents <[p := e]> (upd_rc_heap (fun _ => h) s1)) in *.
  assert (file_tree s2 i B) as Ht2 by done.
  assert (later s s2) as Hl2 by (split; [done..|]; simpl; eauto).
  assert (forall K, (forall nx', nx' = fent_next sb m k ->
      (if nx' =? 0 then mret (0, nx') else
       _ ← block_loop stray (Z.to_nat (i32 blocks)) i p 0; e ← rd_rf p;
       _ ← (if rf_ref e =? 0 then free_rf p else upd_ri i (upd_ri_list (fun l => l ++ [p])));
       _ ← upd_ri i (upd_ri_entry_num (fun n => u64 (n + 1))); mret (0, nx')) s2 = K) ->
    rc_handle_filent sb stray fresh_ref i k nx s = K) as Hrun.
  { intros K HK. rewrite <- (HK _ eq_refl). unfold rc_handle_filent. mstep Hl. fold s1.
    erewrite M_bind_step; [|unfold malloc; rewrite Hh; reflexivity]. destruct (Z.eqb_spec p 0); [done|].
    unfold dev_load. do 4 (mstep eq_refl). simpl (rc_dev _). rewrite (w_dev _ _ _ _ _ _ Hw). mstep eq_refl. mstep eq_refl.
    simpl (rc_dev _). rewrite (w_dev _ _ _ _ _ _ Hw). done. }
  subst ghost. destruct (Z.eqb_spec (fent_next sb m k) 0) as [Hg|Hg].
  - exists s2. split; [apply Hrun; intros nx' ->; by rewrite Hg|]. split; [|done].
    eapply wf_ext; [|exact Hw2]. intros j. symmetry. apply bump_0.
  - assert (0 <= l_idx) as Hl0 by (apply load_range, (io_mem _ _ Himg)).
    assert (forall b, l_idx <= b < l_idx + Z.of_nat (Z.to_nat (i32 blocks)) -> b < BRANCH_NUM /\ b ∉ B) as Hcov'.
    { intros b Hb'. apply (Hcov Hg). apply elem_of_seqZ. fold fe blocks l_idx. lia. }
    assert (Z.of_nat (Z.to_nat (i32 blocks)) <= BRANCH_NUM) as Hbr.
    { destruct (decide (0 < i32 blocks)); [|unfold BRANCH_NUM; lia].
      destruct (Hcov' (l_idx + Z.of_nat (Z.to_nat (i32 blocks)) - 1)); lia. }
    destruct Hfresh as (_ & _ & Hfr). unfold BRANCH_NUM in Hbr.
    destruct (block_loop_spec s2 r I U (k :: F) E i p e B (Z.to_nat (i32 blocks)) 0 Hw2 Ht2)
      as (s3 & H3 & Hw3 & Ht3 & Hl3 & Hu3 & Hp3); try done.
    + simpl. by rewrite lookup_insert_eq.
    + unfold e. simpl. intros b Hb'. apply Hcov'. lia.
    + unfold e. simpl. lia.
    + unfold e. simpl. lia.
    + destruct (filent_end s3 r I U (k :: F) E i p _ _ Hw3 Hr Ht3 Hp3 Hu3 Hp HE) as (s4 & H4 & Hw4 & Hl4 & Ht4).
      exists s4. split; [|split; [done|split; [by etrans; [|etrans]|]]].
      * apply Hrun. intros nx' ->. destruct (Z.eqb_spec (fent_next sb m k) 0); [done|]. mstep H3.
        mstep (rd_rf_eq _ _ _ Hp3). apply M_bind_Ok in H4 as (a & sa & Ha & H4). mstep Ha. by mstep H4.
      * unfold covers. fold fe blocks l_idx. revert Ht4. unfold e. simpl (rf_l_idx _). rewrite Z.add_0_r.
        replace (seqZ l_idx (Z.of_nat (Z.to_nat (i32 blocks)))) with (seqZ l_idx (i32 blocks)); [done|].
        unfold seqZ. by rewrite Nat2Z.id.
Qed.

(** The entries among the slots [pre]: the last slot of a log is the ghost slot. *)
Definition entries_of (pre rest : list Z) : list Z := match rest with [] => removelast pre | _ => pre end.

(** The blocks of a slot in front of the ghost slot are new. *)
Lemma covers_new i pre k x rest :
  reachable i -> i_dir sb m i = false -> log_slots sb m i = pre ++ k :: x :: rest ->
  forall b, b ∈ covers sb m k -> b < BRANCH_NUM /\ b ∉ (pre ≫= covers sb m).
Proof.
  intros Hi Hd El b Hb. destruct (io_blocks _ _ Himg i Hi Hd) as [Hn Hf].
  unfold Recover.entries in Hn, Hf. rewrite El in Hn, Hf. rewrite removelast_app in Hn, Hf by done.
  change (removelast (k :: x :: rest)) with (k :: removelast (x :: rest)) in Hn, Hf.
  rewrite bind_app, bind_cons in Hn, Hf. split.
  - rewrite Forall_forall in Hf. apply Hf. rewrite !elem_of_app. auto.
  - intros Hin. apply NoDup_app in Hn as (_ & Hn & _). apply (Hn b Hin). apply elem_of_app. by left.
Qed.

Lemma file_log s r I U F E i nx :
  wf s r I U F E -> 0 <= r -> reachable i -> i_dir sb m i = false -> has_mode i s -> E i = 0 -> file_tree s i [] ->
  (forall k, k ∈ log_slots sb m i -> k ∉ F) ->
  exists s', log_loop sb stray fresh fresh_ref (log_fuel sb) i (pm_head sb m i) nx s = Ok (0, s') /\
    wf s' r I U (reverse (log_slots sb m i) ++ F) (bump (zlength (removelast (log_slots sb m i))) E i) /\ later s s'.
Proof.
  intros Hw Hr Hi Hd Hm HE Ht HF. destruct (log_slots_ok i Hi) as (H0 & Hnd & Hlen).
  pose proof (io_chain _ _ Himg i Hi) as Hch. unfold log_next in Hch. rewrite Hd in Hch.
  assert (forall x, x ∈ log_slots sb m i -> 0 < x < fnum) as Hrange.
  { intros x Hx. pose proof (io_slots _ _ Himg i x Hi Hx) as Hxr. by rewrite Hd in Hxr. }
  pose (P := fun rest s' => exists pre B, log_slots sb m i = pre ++ rest /\
    wf s' r I U (reverse pre ++ F) (bump (zlength (entries_of pre rest)) E i) /\
    later s s' /\ file_tree s' i B /\ forall b, b ∈ B -> b ∈ (pre ≫= covers sb m)).
  destruct (log_loop_run i (fent_next sb m) P) with (rest := log_slots sb m i) (a := pm_head sb m i) (nx := nx)
    (fuel := log_fuel sb) (s := s) as (s' & Hs' & pre & B & El & Hw' & Hl' & _); [|done..| |].
  - intros k rest nx' s1 (pre & B & El & Hw1 & Hl1 & Ht1 & HB). simpl in Hw1.
    assert (k ∈ log_slots sb m i) as Hk by (rewrite El; apply elem_of_app; right; by left).
    pose proof nums. destruct (prefix_bound _ pre k rest fnum El Hnd Hrange) as (Hpb & Hkp).
    pose proof (has_mode_later _ _ _ Hl1 Hm) as (o & Ho & Emo).
    pose proof Hch as Hck. rewrite El in Hck. apply log_chain_app in Hck.
    destruct (rc_handle_filent_spec s1 r I U (reverse pre ++ F) (bump (zlength pre) E i) i k nx' B Hw1 Hr Ht1)
      as (s2 & H2 & Hw2 & Hl2 & Ht2).
    { unfold bump. rewrite Z.eqb_refl, HE. pose proof (zlength_nonneg pre). lia. }
    { auto. }
    { rewrite elem_of_app, elem_of_reverse. intros [Hin|Hin]; [done|by apply (HF k)]. }
    { intros Hnz b Hb. destruct rest as [|x rest]; [done|].
      destruct (covers_new i pre k x rest Hi Hd El b Hb). auto. }
    exists o, s2. split; [done|]. split; [|by unfold i_dir in Hd; rewrite Emo, Hd].
    exists (pre ++ [k]). eexists. split; [by rewrite <- app_assoc|]. split; [|split; [by etrans|split; [exact Ht2|]]].
    + rewrite reverse_snoc. simpl. eapply wf_ext; [|exact Hw2]. intros j. rewrite bump_bump. f_equal.
      destruct rest as [|x rest]; simpl in Hck; [rewrite Hck|destruct Hck as [-> _]].
      * simpl. rewrite removelast_last. lia.
      * destruct (Z.eqb_spec x 0) as [->|]; [exfalso; apply H0; rewrite El, elem_of_app, !elem_of_cons; auto|].
        simpl. by rewrite zlength_app.
    + intros b Hb. rewrite bind_app. simpl. rewrite app_nil_r, elem_of_app.
      destruct (fent_next sb m k =? 0); [auto|]. apply elem_of_app in Hb as [Hb|Hb]; [rewrite elem_of_reverse in Hb|]; auto.
  - exists [], []. split; [done|]. split; [|done]. eapply wf_ext; [|exact Hw]. intros j. symmetry.
    destruct (log_slots sb m i); apply bump_0.
  - rewrite app_nil_r in El. subst pre. exists s'. done.
Qed.

(** ** An inode *)

(** What the walk counts: the entries, and the ghost slot of a directory. *)
Definition counted (i : Z) : Z := zlength (if i_dir sb m i then log_slots sb m i else entries sb m i).

Lemma counted_eq i : counted i = entry_count sb m i + (if i_dir sb m i && negb (pm_head sb m i =? 0) then 1 else 0).
Proof.
  unfold counted, entry_count, entries. destruct (i_dir sb m i); simpl; [|lia].
  assert (log_slots sb m i = [] <-> pm_head sb m i = 0) as Hz.
  { unfold log_slots, log_fuel. pose proof nums as (_ & ? & ?).
    destruct (Z.to_nat (dnum + fnum + 1)) eqn:E; [lia|]. cbn [follow]. destruct (Z.eqb_spec (pm_head sb m i) 0); done. }
  destruct (log_slots sb m i) as [|x l _] using rev_ind.
  - rewrite (proj1 Hz eq_refl). done.
  - rewrite removelast_last, zlength_app. destruct (Z.eqb_spec (pm_head sb m i) 0) as [E|]; [|done].
    apply Hz in E. by destruct l.
Qed.

Lemma wf_fields s r I U F E i f :
  wf s r I U F E -> is_Some (rc_table s !! i) ->
  (forall o, ri_list (f o) = ri_list o /\ ri_link (f o) = ri_link o /\ ri_entry_num (f o) = ri_entry_num o) ->
  wf (upd_rc_table (alter f i) s) r I U F E.
Proof.
  intros Hw Hi Hf. eapply wf_alter; [done|done|done|]. intros o Ho. destruct (Hf o) as (-> & -> & ->). split; [done|].
  split; [by apply (w_link _ _ _ _ _ _ Hw i)|by apply (w_num _ _ _ _ _ _ Hw i)].
Qed.
Lemma wf_pop s r I U F E p h : wf s r I U F E -> rc_heap s = p :: h -> wf (upd_rc_heap (fun _ => h) s) (r - 1) I U F E.
Proof.
  intros [] Hh. destruct w_heap0 as [Hn Hz]. rewrite Hh in Hn, Hz. apply NoDup_cons in Hn as [_ Hn]. split; try done; simpl.
  - split; [done|]. intros q Hq. apply Hz. by right.
  - unfold pushed in *. simpl in *. rewrite Hh, zlength_cons in w_room0. lia.
Qed.

Lemma create_leaf root height ns p h :
  p <> 0 -> btree_create stray (mk_btree root height ns (p :: h)) = Ok (1, mk_btree p 0 (<[p := mk_node 0 0 0 0 ∅]> ns) h).
Proof.
  intros Hp.
  assert (btree_node_create stray 0 0 (mk_btree root 0 ns (p :: h)) = Ok (p, mk_btree root 0 (<[p := mk_node 0 0 0 0 ∅]> ns) h)) as Hc.
  { unfold btree_node_create. erewrite M_bind_step by reflexivity. destruct (Z.eqb_spec p 0); done. }
  unfold btree_create. mstep eq_refl. mstep Hc. mstep eq_refl. destruct (Z.eqb_spec p 0); done.
Qed.

(** The start of [rc_handle_inode] for a file: a tree of one node. *)
Lemma file_start s r I U F E i :
  wf s (r + 1) I U F E -> 0 <= r -> has_mode i s ->
  exists s', (_ ← on_rc_tree i (btree_create stray); upd_ri i (fun o => upd_ri_hint (mk_ptr 0 0 (bp_key (ri_hint o))) o)) s = Ok (tt, s') /\
    wf s' r I U F E /\ later s s' /\ file_tree s' i [].
Proof.
  intros Hw Hr (o & Ho & _). destruct (room_some _ _ _ _ _ _ Hw) as (p & h & Hh & Hp); [lia|].
  set (t := mk_btree p 0 (<[p := mk_node 0 0 0 0 ∅]> (ri_nodes o)) h).
  pose proof (wf_pop _ _ _ _ _ _ _ _ Hw Hh) as Hw1. replace (r + 1 - 1) with r in Hw1 by lia.
  destruct (wf_tree _ r I U F E i (upd_ri_tree t) Hw1) as [Hw2 Hl2]; [by eexists|done|].
  set (s2 := upd_rc_table (alter (upd_ri_tree t) i) (upd_rc_heap (fun _ => h) s)) in *.
  assert (rc_table s2 !! i = Some (upd_ri_tree t o)) as Ho2 by (simpl; by rewrite lookup_alter_eq, Ho).
  set (g := fun o => upd_ri_hint (mk_ptr 0 0 (bp_key (ri_hint o))) o).
  destruct (wf_tree s2 r I U F E i g Hw2) as [Hw3 Hl3]; [by eexists|done|].
  exists (upd_rc_table (alter g i) s2). split; [|split; [done|split]].
  - erewrite M_bind_step; [|apply (on_rc_tree_eq s i o); [done|]; rewrite Hh; by apply create_leaf].
    apply (upd_ri_eq s2). by eexists.
  - etrans; [|exact Hl3]. etrans; [|exact Hl2]. split; [done..|]. simpl. eauto.
  - exists (g (upd_ri_tree t o)), p, ∅. split; [change (rc_table (upd_rc_table (alter g i) s2)) with (alter g i (rc_table s2)); by rewrite lookup_alter_eq, Ho2|].
    split; [done|]. split; [done|].
    split; [simpl; by rewrite lookup_insert_eq|]. split; [by left|]. intros b v Hv. by rewrite lookup_empty in Hv.
Qed.

(** The queue after a step: what was on it stays, the threads are as before. *)
Definition grows (s s' : rc_mgr) : Prop :=
  pushed s `prefix_of` pushed s' /\ front (rc_queue s') = front (rc_queue s) /\ active_thread s' = active_thread s.

Lemma rc_handle_inode_spec s r I U F E i :
  wf s r I U F E -> 0 <= r -> i ∈ pushed s -> i ∉ I -> E i = 0 ->
  (forall k, k ∈ log_slots sb m i -> k ∉ (if i_dir sb m i then U else F)) ->
  let l := reverse (log_slots sb m i) in
  exists s', rc_handle_inode sb stray fresh fresh_ref i s = Ok (0, s') /\
    wf s' r (i :: I) (if i_dir sb m i then l ++ U else U) (if i_dir sb m i then F else l ++ F) (bump (counted i) E i) /\
    grows s s' /\ forall c, c ∈ kids sb m i -> c ∈ pushed s'.
Proof.
  intros Hw Hr Hp HI HE Hk l. pose proof (w_pushed _ _ _ _ _ _ Hw i Hp) as Hi. pose proof (io_range _ _ Himg i Hi) as Hir.
  assert (is_Some (rc_table s !! i)) as [o Ho] by (by apply (w_table _ _ _ _ _ _ Hw)).
  set (mode := i32 (load m (IDX2INODE sb i + PI_i_mode) 4)). set (head := pm_head sb m i).
  pose proof (wf_fields s r I U F E i (upd_ri_mode mode) Hw ltac:(by eexists) ltac:(done)) as Hw1.
  set (s1 := upd_rc_table (alter (upd_ri_mode mode) i) s) in *.
  assert (is_Some (rc_table s1 !! i)) as Hi1 by (simpl; by rewrite lookup_alter_eq, Ho).
  pose proof (wf_fields s1 r I U F E i (upd_ri_log_head head) Hw1 Hi1 ltac:(done)) as Hw2.
  set (s2 := upd_rc_table (alter (upd_ri_log_head head) i) s1) in *. pose proof nums.
  destruct (set_map_bit_eq s2 SLOT_INODE (inode_num sb) I i (w_imap _ _ _ _ _ _ Hw2)) as (b & Hb & Hbb); [lia|lia|].
  pose proof (wf_mark_inode _ _ _ _ _ _ _ _ Hw2 Hi HI Hbb) as Hw3. set (s3 := upd_rc_map SLOT_INODE b s2) in *.
  assert (has_mode i s3) as Hm3.
  { exists (upd_ri_log_head head (upd_ri_mode mode o)). split; [|done]. simpl. by rewrite !lookup_alter_eq, Ho. }
  assert (forall K, ((_ ← (if Z.land mode S_IFDIR =? 0 then
         _ ← on_rc_tree i (btree_create stray); upd_ri i (fun o => upd_ri_hint (mk_ptr 0 0 (bp_key (ri_hint o))) o)
       else mret tt); log_loop sb stray fresh fresh_ref (log_fuel sb) i head 0) s3 = K) ->
    rc_handle_inode sb stray fresh fresh_ref i s = K) as Hrun.
  { intros K <-. unfold rc_handle_inode. mstep (rc_iget_present s i (ex_intro _ o Ho) Hir). simpl (1 =? 0). cbv iota zeta.
    unfold dev_load. mstep eq_refl. rewrite (w_dev _ _ _ _ _ _ Hw). fold mode. mstep (upd_ri_eq s i _ (ex_intro _ o Ho)). fold s1.
    mstep eq_refl. rewrite (w_dev _ _ _ _ _ _ Hw1). change (i64 _) with head. mstep (upd_ri_eq s1 i _ Hi1). fold s2. mstep Hb. done. }
  unfold counted, entries. destruct (i_dir sb m i) eqn:Hd.
  - assert ((Z.land mode S_IFDIR =? 0) = false) as Hd' by (by apply negb_true_iff).
    destruct (dir_log s3 r (i :: I) U F E i 0 (wf_weaken _ (r + 1) r _ _ _ _ ltac:(lia) Hw3) Hr Hi Hd Hm3 HE Hk) as (s4 & H4 & Hw4 & Hl4 & Hc4).
    exists s4. split; [apply Hrun; rewrite Hd'; by mstep eq_refl|]. split; [done|]. split; [|done].
    split; [apply Hl4|]. split; [apply Hl4|apply Hl4].
  - assert ((Z.land mode S_IFDIR =? 0) = true) as Hd' by (by apply negb_false_iff).
    destruct (file_start s3 r (i :: I) U F E i Hw3 Hr Hm3) as (s4 & H4 & Hw4 & Hl4 & Ht4).
    destruct (file_log s4 r (i :: I) U F E i 0 Hw4 Hr Hi Hd (has_mode_later _ _ _ Hl4 Hm3) HE Ht4 Hk) as (s5 & H5 & Hw5 & Hl5).
    assert (later s3 s5) as Hl by (by etrans).
    exists s5. split; [apply Hrun; rewrite Hd'; by mstep H4|]. split; [done|].
    split; [split; [apply Hl|]; split; apply Hl|]. intros c Hc. unfold kids in Hc. rewrite Hd in Hc. by apply not_elem_of_nil in Hc.
Qed.
End proofs.
