(* ===== verification/RecoverThreads.v ===== *)
(** * The threads of the recovery

    Any number of threads take inodes from the queue, in any interleaving: no
    schedule faults, a thread returns only when there is nothing left to do, a
    run can always be completed, and what a complete run leaves on the device
    is the set of inodes and slots that can be reached from the root. *)
From stdpp Require Import base numbers list gmap.
From S2P Require Import Prelude Bitops Slot Btree Rbtree DirIndex Pm Mkfs Shm Fs Journal Dir File FileIndex FileLog Recover RecoverWalk.
Local Open Scope Z_scope.

(** ** Threads *)

Definition handled (p : pc) : list Z := match p with Handle i => [i] | _ => [] end.
Definition handling (ts : list pc) : list Z := ts ≫= handled.
Definition is_active (p : pc) : Z := match p with Pop | Handle _ | Leave => 1 | _ => 0 end.
(** A thread that looks at the queue again before it may return. *)
Definition is_busy (p : pc) : Z := match p with Pop | Handle _ => 1 | _ => 0 end.
Definition weight (p : pc) : Z :=
  match p with Handle _ => 5 | Join => 4 | Pop => 3 | Leave => 2 | Wait => 1 | Done => 0 end.
Definition total (f : pc -> Z) (ts : list pc) : Z := foldr (fun p n => f p + n) 0 ts.

Lemma total_app f l l' : total f (l ++ l') = total f l + total f l'.
Proof. induction l as [|p l IH]; simpl; [done|]. rewrite IH. lia. Qed.
Lemma total_nonneg f l : (forall p, 0 <= f p) -> 0 <= total f l.
Proof. intros Hf. induction l as [|p l IH]; simpl; [done|]. specialize (Hf p). lia. Qed.
Lemma active_nonneg p : 0 <= is_active p.
Proof. destruct p; simpl; lia. Qed.
Lemma busy_nonneg p : 0 <= is_busy p.
Proof. destruct p; simpl; lia. Qed.
Lemma done_elem p' p l1 l2 : p' <> Done -> Done ∈ l1 ++ p' :: l2 -> Done ∈ l1 ++ p :: l2.
Proof. intros Hp. rewrite !elem_of_app, !elem_of_cons. intros [?|[?|?]]; [auto|congruence|auto]. Qed.
Lemma active_le ts : total is_active ts <= zlength ts.
Proof. induction ts as [|p ts IH]; [done|]. rewrite zlength_cons. simpl. destruct p; simpl; lia. Qed.

(** The threads around thread [t]. *)
Lemma thread_split (ts : list pc) t p :
  ts !! t = Some p -> exists l1 l2, ts = l1 ++ p :: l2 /\ forall p', <[t := p']> ts = l1 ++ p' :: l2.
Proof.
  intros Ht. exists (take t ts), (drop (S t) ts). split; [symmetry; by apply take_drop_middle|].
  intros p'. apply insert_take_drop. by eapply lookup_lt_Some.
Qed.

Section threads.
Context (sb : pm_super_block) (stray : Z) (fresh : rc_inode) (fresh_ref : Z) (p0 : pmem).
Local Abbreviation m := (bytes p0).
Local Abbreviation reachable := (reach sb m).
Hypothesis Hlo : layout_ok sb.
Hypothesis Himg : image_ok sb m.
Hypothesis Hfresh : ri_link fresh = 0 /\ ri_entry_num fresh = 0 /\ fresh_ref = 0.

(** The slots of the directories (or files) among [done]. *)
Definition marked (dir : bool) (done : list Z) (k : Z) : Prop :=
  exists i, i ∈ done /\ i_dir sb m i = dir /\ k ∈ log_slots sb m i.

(** The inodes [done] have been handled. *)
Record sinv (s : rc_mgr) (done : list Z) (hs : list Z) : Prop := {
  si_wf : exists U F E, wf sb p0 s 0 done U F E /\ (forall k, k ∈ U <-> marked true done k) /\
    (forall k, k ∈ F <-> marked false done k) /\
    (forall i, E i = if decide (i ∈ done) then counted sb p0 i else 0);
  si_popped : take (Z.to_nat (front (rc_queue s))) (data (rc_queue s)) ≡ₚ done ++ hs;
  si_closed i c : i ∈ done -> c ∈ kids sb m i -> c ∈ pushed s;
  si_root : 0 ∈ pushed s;
}.

Record tinv (s : rc_mgr) (ts : list pc) (done : list Z) : Prop := {
  ti_state : sinv s done (handling ts);
  ti_active : active_thread s = total is_active ts;
  ti_work : front (rc_queue s) < rear (rc_queue s) -> 0 < total is_busy ts;
  ti_stop : Done ∈ ts -> front (rc_queue s) = rear (rc_queue s) /\ handling ts = [];
}.

Lemma sinv_queue s done hs : sinv s done hs ->
  0 <= front (rc_queue s) <= rear (rc_queue s) /\ rear (rc_queue s) <= zlength (data (rc_queue s)) /\
  NoDup (done ++ hs) /\ forall i, i ∈ done ++ hs -> i ∈ pushed s.
Proof.
  intros [(U & F & E & Hw & _) Hp _ _]. destruct (w_queue _ _ _ _ _ _ _ _ Hw) as (Hq1 & Hq2 & Hq3 & Hq4).
  split; [done|]. split; [lia|].
  assert (take (Z.to_nat (front (rc_queue s))) (data (rc_queue s)) `prefix_of` pushed s) as Hpre.
  { unfold pushed. exists (drop (Z.to_nat (front (rc_queue s))) (take (Z.to_nat (rear (rc_queue s))) (data (rc_queue s)))).
    rewrite <- (take_drop (Z.to_nat (front (rc_queue s))) (take _ _)) at 1. rewrite take_take. do 2 f_equal. lia. }
  split.
  - rewrite <- Hp. pose proof (w_nodup _ _ _ _ _ _ _ _ Hw) as Hn. destruct Hpre as [x Hx]. rewrite Hx in Hn.
    by apply NoDup_app in Hn as [Hn _].
  - intros i Hi. rewrite <- Hp in Hi. by eapply elem_of_prefix.
Qed.

(** Popping an inode. *)
Lemma sinv_pop s done hs : sinv s done hs -> front (rc_queue s) < rear (rc_queue s) ->
  exists v s', queue_pop s = Ok (Some v, s') /\ sinv s' done (hs ++ [v]) /\
    front (rc_queue s') = front (rc_queue s) + 1 /\ rear (rc_queue s') = rear (rc_queue s) /\ active_thread s' = active_thread s.
Proof.
  intros Hs Hlt. destruct (sinv_queue s done hs Hs) as (Hf & Hr & _ & _). destruct Hs as [(U & F & E & Hw & HU) Hp Hc H0].
  set (q := rc_queue s) in *. destruct (zget_in (data q) (front q)) as (v & Hv & Hz); [lia|].
  exists v, (upd_rc_queue (mk_queue (front q + 1) (rear q) (data q) (capacity q)) s). split; [|split; [|done]].
  - unfold queue_pop. mstep eq_refl. fold q. rewrite Z.geb_leb. destruct (Z.leb_spec (rear q) (front q)); [lia|].
    erewrite M_bind_step by (unfold lift; rewrite Hz; reflexivity). reflexivity.
  - split; [exists U, F, E; split; [|done]| |done|done].
    + destruct Hw. split; try done. simpl. fold q in w_queue. lia.
    + simpl. replace (Z.to_nat (front q + 1)) with (S (Z.to_nat (front q))) by lia. rewrite (take_S_r _ _ v) by done.
      rewrite Hp. by rewrite <- app_assoc.
Qed.

(** Handling an inode. *)
Lemma sinv_handle s done hs i : sinv s done (i :: hs) ->
  exists s', rc_handle_inode sb stray fresh fresh_ref i s = Ok (0, s') /\ sinv s' (i :: done) hs /\ grows s s'.
Proof.
  intros Hs. destruct (sinv_queue s done _ Hs) as (Hf & Hr & Hnd & Hin). destruct Hs as [(U & F & E & Hw & HU & HF & HE) Hp Hc H0].
  apply NoDup_app in Hnd as (_ & Hnd & _). assert (i ∉ done) as Hi by (intros Hi; apply (Hnd i Hi); by left).
  assert (i ∈ pushed s) as Hip by (apply Hin; rewrite elem_of_app, elem_of_cons; auto).
  pose proof (w_pushed _ _ _ _ _ _ _ _ Hw i Hip) as Hre.
  assert (forall k, k ∈ log_slots sb m i -> k ∉ (if i_dir sb m i then U else F)) as Hk.
  { intros k Hk Hin'. assert (marked (i_dir sb m i) done k) as (j & Hj & Ed & Hjk).
    { destruct (i_dir sb m i); [by apply HU|by apply HF]. }
    enough (i = j) by congruence. eapply (io_disj _ _ Himg i j k); [done| |done|done|done].
    apply (w_ranges _ _ _ _ _ _ _ _ Hw). done. }
  destruct (rc_handle_inode_spec sb stray fresh fresh_ref p0 Hlo Himg Hfresh s 0 done U F E i Hw ltac:(lia) Hip Hi) as (s' & Hs' & Hw' & Hg & Hc').
  { rewrite HE. by rewrite decide_False. }
  { done. }
  exists s'. split; [done|]. split; [|done]. destruct Hg as (Hg1 & Hg2 & Hg3). split.
  - do 3 eexists. split; [exact Hw'|].
    assert (forall d k, marked d (i :: done) k <-> (d = i_dir sb m i /\ k ∈ log_slots sb m i) \/ marked d done k) as Hmk.
    { intros d k. unfold marked. split.
      - intros (j & [->|Hj]%elem_of_cons & Ed & Hjk); [by left|right; eauto].
      - intros [[-> Hk']|(j & Hj & Ed & Hjk)]; [exists i|exists j]; rewrite elem_of_cons; auto. }
    split; [|split].
    + intros k. rewrite Hmk. destruct (i_dir sb m i); [rewrite elem_of_app, elem_of_reverse|]; rewrite HU; intuition congruence.
    + intros k. rewrite Hmk. destruct (i_dir sb m i); [|rewrite elem_of_app, elem_of_reverse]; rewrite HF; intuition congruence.
    + intros j. unfold bump. destruct (Z.eqb_spec j i) as [->|Hne].
      * rewrite HE, decide_False by done. by rewrite decide_True by (by left).
      * rewrite HE. destruct (decide (j ∈ done)); [by rewrite decide_True by (by right)|].
        rewrite decide_False; [done|]. rewrite elem_of_cons. tauto.
  - rewrite Hg2. destruct Hg1 as [x Hx]. unfold pushed in Hx. destruct (w_queue _ _ _ _ _ _ _ _ Hw') as (Hq1 & Hq2 & Hq3 & Hq4).
    assert (take (Z.to_nat (front (rc_queue s))) (data (rc_queue s')) = take (Z.to_nat (front (rc_queue s))) (data (rc_queue s))) as ->.
    { apply (f_equal (take (Z.to_nat (front (rc_queue s))))) in Hx.
      assert (Z.to_nat (front (rc_queue s)) <= Z.to_nat (rear (rc_queue s)))%nat by lia.
      rewrite take_take, take_app_le, take_take in Hx; [|rewrite length_take; unfold zlength in Hr; lia].
      rewrite !Nat.min_l in Hx by lia. done. }
    rewrite Hp. simpl. by rewrite Permutation_middle.
  - intros j c [->|Hj]%elem_of_cons Hcj; [auto|]. eapply elem_of_prefix; [by eapply Hc|done].
  - by eapply elem_of_prefix.
Qed.

Definition measure (s : rc_mgr) (ts : list pc) : Z := 3 * (inode_num sb - front (rc_queue s)) + total weight ts.

Lemma replay_pop s l1 l2 done :
  tinv s (l1 ++ Pop :: l2) done -> exists p' s', rc_replay sb stray fresh fresh_ref Pop s = Ok (p', s') /\
    tinv s' (l1 ++ p' :: l2) done /\ measure s' (l1 ++ p' :: l2) < measure s (l1 ++ Pop :: l2).
Proof.
  intros [Hs Ha Hw Hd]. unfold measure, handling in *. rewrite total_app, ?bind_app, ?bind_cons in *. simpl in *.
  destruct (sinv_queue _ _ _ Hs) as (Hf & _ & _ & _).
  destruct (decide (front (rc_queue s) < rear (rc_queue s))) as [Hlt|Hge].
  - destruct (sinv_pop _ _ _ Hs Hlt) as (v & s' & Hp & Hs' & Ef & Er & Ea). exists (Handle v), s'.
    split; [by mstep Hp|]. rewrite !total_app. simpl. split; [|lia]. split; unfold handling; rewrite ?total_app, ?bind_app, ?bind_cons; simpl.
    + destruct Hs'. split; try done. rewrite si_popped0. apply Permutation_app_head. rewrite <- app_assoc.
      apply Permutation_app_head. by rewrite Permutation_app_comm.
    + lia.
    + intros _. pose proof (total_nonneg is_busy l1 busy_nonneg). pose proof (total_nonneg is_busy l2 busy_nonneg). lia.
    + intros Hin. apply (done_elem _ Pop) in Hin; [|done]. apply Hd in Hin. lia.
  - exists Leave, s. split.
    + simpl. rewrite (M_bind_step _ _ s None s); [done|]. unfold queue_pop. mstep eq_refl. rewrite Z.geb_leb.
      destruct (Z.leb_spec (rear (rc_queue s)) (front (rc_queue s))); [done|lia].
    + rewrite !total_app. simpl. split; [|lia]. split; unfold handling; rewrite ?total_app, ?bind_app, ?bind_cons; simpl; [done|lia|lia|].
      intros Hin. apply Hd. by apply (done_elem _ Pop) in Hin.
Qed.

Lemma replay_handle s l1 l2 i done :
  tinv s (l1 ++ Handle i :: l2) done -> exists s', rc_replay sb stray fresh fresh_ref (Handle i) s = Ok (Pop, s') /\
    tinv s' (l1 ++ Pop :: l2) (i :: done) /\ measure s' (l1 ++ Pop :: l2) < measure s (l1 ++ Handle i :: l2).
Proof.
  intros [Hs Ha Hw Hd]. unfold measure, handling in *. rewrite total_app, ?bind_app, ?bind_cons in *. simpl in *.
  assert (sinv s done (i :: (l1 ≫= handled) ++ (l2 ≫= handled))) as Hs1.
  { destruct Hs. split; try done. rewrite si_popped0. by rewrite Permutation_middle. }
  destruct (sinv_handle s done _ i Hs1) as (s' & H' & Hs' & (_ & Ef & Ea)). exists s'. split; [by mstep H'|].
  rewrite !total_app. simpl. split; [|lia]. split; unfold handling; rewrite ?total_app, ?bind_app, ?bind_cons; simpl; [done|lia| |].
  - intros _. pose proof (total_nonneg is_busy l1 busy_nonneg). pose proof (total_nonneg is_busy l2 busy_nonneg). lia.
  - intros Hin. apply (done_elem _ (Handle i)) in Hin; [|done]. apply Hd in Hin as [_ Hin]. by destruct (l1 ≫= handled).
Qed.

Lemma sinv_active s done hs f : sinv s done hs -> sinv (upd_active f s) done hs.
Proof.
  intros [(U & F & E & Hw & HU) Hp Hc H0]. split; try done. exists U, F, E. split; [|done]. destruct Hw. by split.
Qed.

(** Leaving and joining the active threads. *)
Lemma replay_count s l1 l2 p p' d done :
  tinv s (l1 ++ p :: l2) done -> zlength (l1 ++ p :: l2) < 2 ^ 62 ->
  (p = Leave /\ p' = Wait /\ d = -1) \/ (p = Join /\ p' = Pop /\ d = 1) ->
  tinv (upd_active (fun a => u64 (a + d)) s) (l1 ++ p' :: l2) done.
Proof.
  intros [Hs Ha Hw Hd] Hlen Hp. pose proof (active_le (l1 ++ p :: l2)) as Hle. unfold handling in *.
  rewrite total_app, ?bind_app, ?bind_cons in *. simpl in *.
  pose proof (total_nonneg is_active l1 active_nonneg). pose proof (total_nonneg is_active l2 active_nonneg).
  destruct Hp as [(-> & -> & ->)|(-> & -> & ->)]; (split; unfold handling; rewrite ?total_app, ?bind_app, ?bind_cons; simpl in *).
  - by apply sinv_active.
  - rewrite Ha, u64_small; lia.
  - done.
  - intros Hin. apply Hd. by apply (done_elem _ Leave) in Hin.
  - by apply sinv_active.
  - rewrite Ha, u64_small; lia.
  - intros Hlt. specialize (Hw Hlt). lia.
  - intros Hin. apply Hd. by apply (done_elem _ Join) in Hin.
Qed.

(** When no thread is active, none is busy and nothing is being handled. *)
Lemma inactive ts : total is_active ts = 0 -> total is_busy ts = 0 /\ handling ts = [].
Proof.
  induction ts as [|p ts IH]; [done|]. simpl. pose proof (total_nonneg is_active ts active_nonneg). intros Ht.
  destruct p; simpl in *; try lia; (destruct IH as [IH1 IH2]; [lia|]; split; [lia|done]).
Qed.

Lemma replay_wait s l1 l2 done :
  tinv s (l1 ++ Wait :: l2) done -> exists p', rc_replay sb stray fresh fresh_ref Wait s = Ok (p', s) /\
    tinv s (l1 ++ p' :: l2) done /\ (active_thread s = 0 -> p' = Done).
Proof.
  intros Ht. eexists. split; [reflexivity|]. destruct (Z.eqb_spec (active_thread s) 0) as [Ha0|Ha0].
  - split; [|done]. destruct Ht as [Hs Ha Hw Hd]. destruct (inactive (l1 ++ Wait :: l2)) as [Hb Hh]; [lia|].
    unfold handling in *. rewrite total_app, ?bind_app, ?bind_cons in *. simpl in *.
    split; unfold handling; rewrite ?total_app, ?bind_app, ?bind_cons; simpl; [done|done|done|].
    intros _. split; [|done]. destruct (sinv_queue _ _ _ Hs) as (Hf & _).
    destruct (decide (front (rc_queue s) < rear (rc_queue s))) as [Hlt|]; [|lia]. specialize (Hw Hlt). lia.
  - split; [|done]. destruct (0 <? rear (rc_queue s) - front (rc_queue s)); [|done]. destruct Ht as [Hs Ha Hw Hd].
    unfold handling in *. rewrite total_app, ?bind_app, ?bind_cons in *. simpl in *.
    split; unfold handling; rewrite ?total_app, ?bind_app, ?bind_cons; simpl; [done|done|done|].
    intros Hin. apply Hd. by apply (done_elem _ Wait) in Hin.
Qed.

(** Every step of a thread returns and keeps the invariant. *)
Lemma tinv_step s ts t p done :
  tinv s ts done -> ts !! t = Some p -> zlength ts < 2 ^ 62 ->
  exists p' s' done', rc_replay sb stray fresh fresh_ref p s = Ok (p', s') /\ tinv s' (<[t := p']> ts) done' /\
    (p <> Done -> (p = Wait -> active_thread s = 0) -> measure s' (<[t := p']> ts) < measure s ts).
Proof.
  intros Ht Hp Hlen. destruct (thread_split ts t p Hp) as (l1 & l2 & -> & Hins).
  assert (forall p', weight p' < weight p -> measure s (l1 ++ p' :: l2) < measure s (l1 ++ p :: l2)) as Hme.
  { intros p' Hw. unfold measure. rewrite !total_app. simpl. lia. }
  destruct p as [|i| | | |].
  - destruct (replay_pop s l1 l2 done Ht) as (p' & s' & H1 & H2 & H3). exists p', s', done. rewrite Hins. done.
  - destruct (replay_handle s l1 l2 i done Ht) as (s' & H1 & H2 & H3). exists Pop, s', (i :: done). rewrite Hins. done.
  - exists Wait. do 2 eexists. split; [reflexivity|]. rewrite Hins. split; [eapply replay_count; [done|done|auto]|].
    intros _ _. by apply Hme.
  - destruct (replay_wait s l1 l2 done Ht) as (p' & H1 & H2 & H3). exists p', s, done. rewrite Hins. split; [done|]. split; [done|].
    intros _ Ha. rewrite H3 by auto. by apply Hme.
  - exists Pop. do 2 eexists. split; [reflexivity|]. rewrite Hins. split; [eapply replay_count; [done|done|auto]|].
    intros _ _. by apply Hme.
  - exists Done, s, done. rewrite Hins. done.
Qed.

(** ** Schedules *)

Lemma run_inv sched s ts done :
  tinv s ts done -> zlength ts < 2 ^ 62 ->
  exists ts' s' done', run sb stray fresh fresh_ref sched ts s = Ok (ts', s') /\ tinv s' ts' done' /\ length ts' = length ts.
Proof.
  revert s ts done. induction sched as [|t sched IH]; intros s ts done Ht Hlen; [by exists ts, s, done|].
  cbn [run]. destruct (ts !! t) as [p|] eqn:Hp; [|by apply IH with done].
  destruct (tinv_step s ts t p done Ht Hp Hlen) as (p' & s1 & d1 & H1 & Ht1 & _). mstep H1.
  destruct (IH s1 (<[t := p']> ts) d1 Ht1) as (ts' & s' & d' & Hr & Ht' & El); [by rewrite zlength_insert|].
  exists ts', s', d'. rewrite length_insert in El. done.
Qed.

(** A thread whose step makes progress. *)
Lemma useful_thread s ts done :
  tinv s ts done -> ~ Forall (eq Done) ts -> exists t p, ts !! t = Some p /\ p <> Done /\ (p = Wait -> active_thread s = 0).
Proof.
  intros Ht Hn. destruct (decide (Exists (fun p => p <> Wait /\ p <> Done) ts)) as [He|He].
  - apply Exists_exists in He as (p & Hp & Hpw & Hpd). apply list_elem_of_lookup in Hp as [t Hp]. exists t, p. done.
  - apply not_Forall_Exists in Hn; [|intros p; apply _]. apply Exists_exists in Hn as (p & Hp & Hpd).
    apply list_elem_of_lookup in Hp as [t Hp]. exists t, p. split; [done|]. split; [by intros ->|]. intros _.
    rewrite (ti_active _ _ _ Ht). clear -He. induction ts as [|q ts IH]; [done|]. simpl.
    rewrite Exists_cons in He. rewrite IH by tauto. destruct q; simpl; try done; exfalso; apply He; left; done.
Qed.

Lemma run_completes s ts done :
  tinv s ts done -> zlength ts < 2 ^ 62 ->
  exists sched ts' s' done', run sb stray fresh fresh_ref sched ts s = Ok (ts', s') /\ tinv s' ts' done' /\
    length ts' = length ts /\ Forall (eq Done) ts'.
Proof.
  remember (Z.to_nat (measure s ts)) as n eqn:En. revert s ts done En.
  induction n as [n IH] using lt_wf_ind. intros s ts done -> Ht Hlen.
  destruct (decide (Forall (eq Done) ts)) as [Hd|Hd]; [by exists [], ts, s, done|].
  destruct (useful_thread s ts done Ht Hd) as (t & p & Hp & Hpd & Hpw).
  destruct (tinv_step s ts t p done Ht Hp Hlen) as (p' & s1 & d1 & H1 & Ht1 & Hm).
  assert (0 <= measure s1 (<[t := p']> ts)) as H0.
  { unfold measure. pose proof (total_nonneg weight (<[t := p']> ts)) as Hw.
    destruct (si_wf _ _ _ (ti_state _ _ _ Ht1)) as (U & F & E & Hwf & _). pose proof (w_queue _ _ _ _ _ _ _ _ Hwf).
    specialize (Hw ltac:(intros []; simpl; lia)). lia. }
  destruct (IH (Z.to_nat (measure s1 (<[t := p']> ts)))) with (s := s1) (ts := <[t := p']> ts) (done := d1)
    as (sched & ts' & s' & d' & Hr & Ht' & El & Hf); [specialize (Hm Hpd Hpw); lia|done|done|by rewrite zlength_insert|].
  exists (t :: sched), ts', s', d'. rewrite length_insert in El. split; [|done]. cbn [run]. rewrite Hp. by mstep H1.
Qed.

(** When every thread is back, exactly the reachable inodes are handled. *)
Lemma all_done s ts done :
  tinv s ts done -> Forall (eq Done) ts -> ts <> [] ->
  (forall i, i ∈ done <-> reachable i) /\ exists hs, sinv s done hs /\ hs = [] /\ front (rc_queue s) = rear (rc_queue s).
Proof.
  intros [Hs _ _ Hd] Hf Hne. destruct ts as [|p ts]; [done|]. pose proof (Forall_inv Hf) as <-.
  destruct (Hd ltac:(by left)) as [Efr Eh]. rewrite Eh in Hs. split; [|exists []; done].
  assert (forall i, i ∈ done <-> i ∈ pushed s) as Hdone.
  { intros i. pose proof (si_popped _ _ _ Hs) as Hp. rewrite app_nil_r, Efr in Hp. unfold pushed. by rewrite Hp. }
  intros i. split.
  - intros Hi. destruct (si_wf _ _ _ Hs) as (U & F & E & Hw & _). by apply (w_pushed _ _ _ _ _ _ _ _ Hw), Hdone.
  - induction 1 as [|j c Hj IH Hc]; apply Hdone; [apply (si_root _ _ _ Hs)|]. eapply (si_closed _ _ _ Hs); [exact IH|done].
Qed.

(** ** The start *)

(** Before [recover]: the device and the memory of the process. *)
Definition rc_start (heap : list Z) : rc_mgr := mk_rc p0 (fun _ => []) ∅ (mk_queue 0 0 [] 0) ∅ heap [] 0.
(** Enough memory: the blocks of the manager, two for every inode, one for every file slot. *)
Definition heap_ok (heap : list Z) : Prop :=
  NoDup heap /\ (0 ∉ heap) /\ 2 * inode_num sb + slot_num (sb_file sb) + 9 <= zlength heap.

Lemma malloc_block_eq s p h : rc_heap s = p :: h -> p <> 0 ->
  malloc_block s = Ok (p, upd_rc_blocks (cons p) (upd_rc_heap (fun _ => h) s)).
Proof.
  intros Hh Hp. unfold malloc_block. erewrite M_bind_step by (unfold malloc; rewrite Hh; reflexivity).
  destruct (Z.eqb_spec p 0); done.
Qed.

(** The manager with empty maps and no inode. *)
Record is_base (s : rc_mgr) : Prop := {
  ba_dev : rc_dev s = p0;
  ba_map t : rc_map s t = replicate (Z.to_nat ((slot_num (kind sb t) + 7) / 8)) 0;
  ba_table : rc_table s = ∅;
  ba_queue : rc_queue s = queue_init (i32 (inode_num sb));
  ba_filents : rc_filents s = ∅;
}.

Lemma wf_base s :
  is_base s -> NoDup (rc_heap s) -> (0 ∉ rc_heap s) -> 2 * inode_num sb + slot_num (sb_file sb) <= zlength (rc_heap s) ->
  wf sb p0 s 0 [] [] [] (fun _ => 0).
Proof.
  intros [Bd Bm Bt Bq Bf] Hn H0 Hl. pose proof (nums sb Hlo) as Hnum. destruct (lo_nums _ Hlo) as (_ & _ & _ & [Hdata _]).
  assert (forall A (P : A -> Prop) (x : A), x ∈ [] -> P x) as Hnil by (intros A P x Hx; by apply not_elem_of_nil in Hx).
  split; unfold pushed; rewrite ?Bd, ?Bm, ?Bt, ?Bq, ?Bf; try done; simpl.
  - apply bits_zero. lia.
  - apply bits_zero. lia.
  - apply bits_zero. lia.
  - apply bits_zero. lia.
  - split_and!; constructor.
  - split_and!; apply Hnil.
  - rewrite i32_small by lia. unfold zlength. rewrite length_replicate. lia.
  - constructor.
  - apply Hnil.
  - intros i. rewrite lookup_empty. split; [by intros [? ?]|]. intros Hi. by apply not_elem_of_nil in Hi.
  - split; [done|]. intros p Hp. split; [by intros ->|done].
  - change (Z.to_nat 0) with 0%nat. rewrite take_0. change (zlength (@nil Z)) with 0. lia.
Qed.

(** [rc_init] up to the root. *)
Lemma rc_init_run b1 b2 b3 b4 b5 b6 b7 b8 b9 h :
  (0 ∉ [b1; b2; b3; b4; b5; b6; b7; b8; b9]) ->
  exists s, is_base s /\ rc_heap s = h /\
    rc_init sb fresh (rc_start (b1 :: b2 :: b3 :: b4 :: b5 :: b6 :: b7 :: b8 :: b9 :: h)) =
    (_ ← rc_iget sb fresh 0;
     _ ← upd_ri 0 (fun i => mk_rci (ri_addr i) (ri_log_head i) (ri_entry_num i) true 0 1 (ri_mode i) (ri_root i)
                  (ri_height i) (ri_nodes i) (ri_hint i) (ri_list i));
     mret 0) s.
Proof.
  intros H0. rewrite !not_elem_of_cons in H0. destruct H0 as (? & ? & ? & ? & ? & ? & ? & ? & ? & _).
  unfold rc_init, slot_types. cbn [init_bitmaps].
  erewrite M_bind_step by (apply malloc_block_eq; [reflexivity|done]). destruct (Z.eqb_spec b1 0); [done|].
  erewrite M_bind_step; [|repeat (erewrite M_bind_step by (apply malloc_block_eq; [reflexivity|done]);
    rewrite (proj2 (Z.eqb_neq _ 0)) by done; mstep eq_refl); reflexivity].
  simpl (negb (0 =? 0)). cbv iota.
  erewrite M_bind_step by (apply malloc_block_eq; [reflexivity|done]). destruct (Z.eqb_spec b6 0); [done|]. mstep eq_refl.
  erewrite M_bind_step by (apply malloc_block_eq; [reflexivity|done]). destruct (Z.eqb_spec b7 0); [done|].
  erewrite M_bind_step by (apply malloc_block_eq; [reflexivity|done]). destruct (Z.eqb_spec b8 0); [done|]. mstep eq_refl.
  erewrite M_bind_step by (apply malloc_block_eq; [reflexivity|done]).
  eexists. split; [|split; [|reflexivity]]; [|done]. split; [done| |done..]. by intros [].
Qed.

Lemma root_push s : is_base s -> NoDup (rc_heap s) -> (0 ∉ rc_heap s) ->
  2 * inode_num sb + slot_num (sb_file sb) <= zlength (rc_heap s) ->
  exists s' s1, (_ ← rc_iget sb fresh 0;
     _ ← upd_ri 0 (fun i => mk_rci (ri_addr i) (ri_log_head i) (ri_entry_num i) true 0 1 (ri_mode i) (ri_root i)
                  (ri_height i) (ri_nodes i) (ri_hint i) (ri_list i));
     mret 0) s = Ok (0, s') /\
    queue_push 0 s' = Ok (0, s1) /\ sinv s1 [] [].
Proof.
  intros Hb Hn H0 Hl. pose proof (wf_base s Hb Hn H0 Hl) as Hw. destruct Hfresh as (_ & Hf2 & _). pose proof (nums sb Hlo) as Hnum.
  destruct (rc_heap s) as [|p h] eqn:Hh; [change (zlength (@nil Z)) with 0 in Hl; lia|].
  assert (p <> 0) as Hp by (intros ->; apply H0; by left).
  set (o0 := upd_ri_addr p (upd_ri_list (fun _ => []) fresh)).
  set (o := mk_rci (ri_addr o0) (ri_log_head o0) (ri_entry_num o0) true 0 1 (ri_mode o0) (ri_root o0) (ri_height o0) (ri_nodes o0)
    (ri_hint o0) (ri_list o0)).
  destruct (wf_new sb fresh fresh_ref p0 Hlo Himg Hfresh s 0 [] [] [] (fun _ => 0) 0 p h o Hw (reach_root _ _)) as (Hw' & Hq & Hpu); try done.
  { by rewrite (ba_table _ Hb). }
  do 2 eexists. split; [|split].
  - unfold rc_iget. erewrite M_bind_step; [|mstep eq_refl; destruct (Z.ltb_spec 0 (inode_num sb)); [|lia]; simpl;
      rewrite (ba_table _ Hb), lookup_empty; erewrite M_bind_step by (unfold malloc; rewrite Hh; reflexivity);
      rewrite (proj2 (Z.eqb_neq p 0)) by done; reflexivity].
    erewrite M_bind_step by (apply upd_ri_eq; simpl; rewrite lookup_insert_eq; by eexists). reflexivity.
  - destruct (w_queue _ _ _ _ _ _ _ _ Hw) as (? & ? & ? & ?). apply queue_push_eq; simpl; [done|lia|congruence].
  - split.
    + exists [], [], (fun _ => 0). split.
      * eapply (eq_ind _ (fun S => wf sb p0 S 0 [] [] [] _)); [exact Hw'|].
        unfold upd_rc_queue, upd_rc_table, upd_rc_heap. simpl. f_equal. by rewrite alter_insert_eq.
      * split; [|split; [|done]]; intros k; (split; [by intros ?%not_elem_of_nil|]); intros (i & Hi & _); by apply not_elem_of_nil in Hi.
    + simpl. rewrite (ba_queue _ Hb). simpl. by rewrite take_0.
    + intros i c Hi. by apply not_elem_of_nil in Hi.
    + unfold pushed in *. simpl in *. rewrite Hpu. apply elem_of_app. right. by left.
Qed.

(** ** Writing the result *)

Lemma flush_inodes_spec n i s :
  0 <= i -> i + Z.of_nat n <= inode_num sb ->
  exists p', flush_inodes sb n i s = Ok (tt, upd_rc_dev (fun _ => p') s) /\
    (forall j o, i <= j < i + Z.of_nat n -> rc_table s !! j = Some o -> 0 <= ri_entry_num o < 2 ^ 64 ->
      load (bytes p') (IDX2INODE sb j + PI_entry_num) 8 = ri_entry_num o) /\
    (forall x, (forall j, i <= j < i + Z.of_nat n -> ~ (IDX2INODE sb j + PI_entry_num <= x < IDX2INODE sb j + PI_entry_num + 8)) ->
      bytes p' x = bytes (rc_dev s) x) /\
    (mem_ok (bytes (rc_dev s)) -> mem_ok (bytes p')).
Proof.
  revert i s. induction n as [|n IH]; intros i s Hi Hn; cbn [flush_inodes].
  { exists (rc_dev s). split; [by destruct s|]. split; [lia|done]. }
  mstep eq_refl. set (a := IDX2INODE sb i + PI_entry_num).
  assert (exists q, (match rc_table s !! i with
           | None => mret tt
           | Some inode => modify (upd_rc_dev (pm_update (store a 8 (ri_entry_num inode))))
           end) s = Ok (tt, upd_rc_dev (fun _ => q) s) /\
     (forall o, rc_table s !! i = Some o -> 0 <= ri_entry_num o < 2 ^ 64 -> load (bytes q) a 8 = ri_entry_num o) /\
     (forall x, ~ (a <= x < a + 8) -> bytes q x = bytes (rc_dev s) x) /\
     (mem_ok (bytes (rc_dev s)) -> mem_ok (bytes q))) as (q & Hq & Hq1 & Hq2 & Hq3).
  { destruct (rc_table s !! i) as [o|] eqn:Ho.
    - exists (pm_update (store a 8 (ri_entry_num o)) (rc_dev s)). split; [done|]. rewrite bytes_update. split; [|split].
      + intros o' [= <-] Hr. by apply load_store_u64.
      + intros x Hx. apply (store_agree a 8 _ _ x 1); lia.
      + apply store_ok.
    - exists (rc_dev s). by destruct s. }
  mstep Hq. destruct (IH (i + 1) (upd_rc_dev (fun _ => q) s)) as (p' & -> & Hp1 & Hp2 & Hp3); [lia|lia|].
  exists p'. split; [done|]. split; [|split; [|auto]].
  - intros j o Hj Ho Hr. destruct (decide (j = i)) as [->|Hne]; [|apply Hp1; [lia|done|done]].
    transitivity (load (bytes q) a 8); [|by apply Hq1]. apply load_agree. intros x Hx. apply Hp2. intros j Hj' Hx'.
    rewrite (IDX2INODE_eq sb Hlo) in Hx' by (unfold inode_num in Hn; lia). unfold a in Hx.
    rewrite (IDX2INODE_eq sb Hlo) in Hx by (unfold inode_num in Hn; lia). lia.
  - intros x Hx. rewrite Hp2 by (intros j Hj; apply Hx; lia). apply Hq2. apply Hx. lia.
Qed.

Lemma flush_bits l n S base M k :
  bits l n S -> 0 <= k < 8 * ((n + 7) / 8) -> pm_bit (memcpy base (list_mem l) 0 ((n + 7) / 8) M) base k = bool_decide (k ∈ S).
Proof.
  intros (Hw & Hl & Hb) Hk. rewrite <- Hb by lia. unfold pm_bit, bit_at. f_equal. unfold memcpy.
  destruct (Z.leb_spec base (base + k / 8)); [|zdm]. destruct (Z.ltb_spec (base + k / 8) (base + (n + 7) / 8)); [|zdm].
  simpl. unfold list_mem, byte_at. do 3 f_equal. lia.
Qed.
Lemma pm_bit_agree M M' base n k : agree base n M M' -> 0 <= k < 8 * n -> pm_bit M' base k = pm_bit M base k.
Proof. intros Ha Hk. unfold pm_bit. rewrite Ha by zdm. done. Qed.

(** What a recovery leaves on the device. *)
Record recovered (M : mem) : Prop := {
  rv_mem : mem_ok M;
  rv_inode i : 0 <= i < 8 * ((inode_num sb + 7) / 8) -> pm_bit M (bitmap (sb_inode sb)) i = true <-> reachable i;
  rv_dir k : 0 <= k < 8 * ((slot_num (sb_dir sb) + 7) / 8) -> pm_bit M (bitmap (sb_dir sb)) k = true <->
    exists i, reachable i /\ i_dir sb m i = true /\ k ∈ log_slots sb m i;
  rv_file k : 0 <= k < 8 * ((slot_num (sb_file sb) + 7) / 8) -> pm_bit M (bitmap (sb_file sb)) k = true <->
    exists i, reachable i /\ i_dir sb m i = false /\ k ∈ log_slots sb m i;
  rv_data k : 0 <= k < 8 * ((slot_num (sb_data sb) + 7) / 8) -> pm_bit M (bitmap (sb_data sb)) k = false;
  rv_count i : reachable i -> load M (IDX2INODE sb i + PI_entry_num) 8 =
    entry_count sb m i + (if i_dir sb m i && negb (pm_head sb m i =? 0) then 1 else 0);
  rv_rest x : x < bitmap (sb_inode sb) \/ slot_table (sb_inode sb) <= x ->
    (forall i, 0 <= i < inode_num sb -> ~ (IDX2INODE sb i + PI_entry_num <= x < IDX2INODE sb i + PI_entry_num + 8)) -> M x = m x;
}.

Lemma bitmap_regions :
  let len sl := (slot_num sl + 7) / 8 in
  bitmap (sb_inode sb) + len (sb_inode sb) <= bitmap (sb_dir sb) /\
  bitmap (sb_dir sb) + len (sb_dir sb) <= bitmap (sb_file sb) /\
  bitmap (sb_file sb) + len (sb_file sb) <= bitmap (sb_data sb) /\
  bitmap (sb_data sb) + len (sb_data sb) <= slot_table (sb_inode sb).
Proof.
  destruct (lo_nums _ Hlo) as ([Hi Hi'] & [Hd Hd'] & [Hf Hf'] & [Hz Hz']).
  destruct (lo_bitmaps _ Hlo) as (_ & H1 & H2 & H3 & H4). cbv zeta.
  split_and!; (etrans; [|eassumption]); apply Zplus_le_compat_l; zdm.
Qed.

Lemma memcpy_outside dst from src n M x : ~ (dst <= x < dst + n) -> memcpy dst from src n M x = M x.
Proof. intros Hx. unfold memcpy. destruct (Z.leb_spec dst x), (Z.ltb_spec x (dst + n)); simpl; done || lia. Qed.

Lemma counted_bound i : reachable i -> 0 <= counted sb p0 i < 2 ^ 64.
Proof.
  intros Hi. split; [apply zlength_nonneg|]. destruct (log_slots_ok sb p0 Hlo Himg i Hi) as (_ & _ & Hl).
  pose proof (nums sb Hlo). unfold counted, entries, zlength, log_fuel in *. destruct (i_dir sb m i); [lia|].
  destruct (log_slots sb m i) as [|x l] using rev_ind; [simpl; lia|]. rewrite removelast_last. rewrite length_app in Hl. lia.
Qed.

Lemma rc_flush_spec s done :
  sinv s done [] -> (forall i, i ∈ done <-> reachable i) ->
  exists p', rc_flush sb s = Ok (tt, upd_rc_dev (fun _ => p') s) /\ recovered (bytes p').
Proof.
  intros [(U & F & E & Hw & HU & HF & HE) Hpop Hcl Hroot] Hd. pose proof (nums sb Hlo) as Hnum.
  destruct bitmap_regions as (R1 & R2 & R3 & R4). destruct (lo_nums _ Hlo) as (_ & _ & _ & [Hdata _]).
  destruct (flush_inodes_spec (Z.to_nat (i32 (inode_num sb))) 0 s) as (q & Hq & Hq1 & Hq2 & Hq3); [lia|rewrite i32_small; lia|].
  rewrite i32_small, Z2Nat.id in Hq1, Hq2 by lia.
  set (cp t := memcpy (bitmap (kind sb t)) (list_mem (rc_map s t)) 0 ((slot_num (kind sb t) + 7) / 8)).
  set (M := cp SLOT_DATA (cp SLOT_FILE (cp SLOT_DIR (cp SLOT_INODE (bytes q))))).
  exists (pm_update (cp SLOT_DATA) (pm_update (cp SLOT_FILE) (pm_update (cp SLOT_DIR) (pm_update (cp SLOT_INODE) q)))).
  split; [unfold rc_flush; mstep Hq; do 3 (mstep eq_refl); done|].
  rewrite !bytes_update. fold M. rewrite (w_dev _ _ _ _ _ _ _ _ Hw) in Hq2, Hq3.
  assert (forall x, x < bitmap (sb_inode sb) \/ slot_table (sb_inode sb) <= x -> M x = bytes q x) as Hrest.
  { intros x Hx. unfold M, cp. simpl. unfold inode_num in Hnum.
    rewrite !memcpy_outside; [done|zdm..]. }
  assert (forall i, reachable i -> 0 <= i < inode_num sb) as Hr by apply (io_range _ _ Himg).
  split.
  - pose proof (Hq3 (io_mem _ _ Himg)).
    unfold M, cp. repeat apply memcpy_ok; try done; apply list_mem_ok; apply Hw.
  - intros i Hi. unfold M. rewrite (pm_bit_agree (cp SLOT_INODE (bytes q)) _ _ ((inode_num sb + 7) / 8)); [| |zdm].
    + unfold cp. simpl. rewrite (flush_bits _ _ _ _ _ _ (w_imap _ _ _ _ _ _ _ _ Hw)) by done. by rewrite bool_decide_eq_true.
    + unfold cp. simpl. do 2 (eapply agree_trans; [|apply memcpy_agree; unfold inode_num; zdm]). apply memcpy_agree. unfold inode_num. zdm.
  - intros k Hk. unfold M. rewrite (pm_bit_agree (cp SLOT_DIR (cp SLOT_INODE (bytes q))) _ _ ((slot_num (sb_dir sb) + 7) / 8)); [| |zdm].
    + unfold cp. simpl. rewrite (flush_bits _ _ _ _ _ _ (w_dmap _ _ _ _ _ _ _ _ Hw)) by done. rewrite bool_decide_eq_true, HU.
      unfold marked. by setoid_rewrite Hd.
    + unfold cp. simpl. eapply agree_trans; apply memcpy_agree; zdm.
  - intros k Hk. unfold M. rewrite (pm_bit_agree (cp SLOT_FILE (cp SLOT_DIR (cp SLOT_INODE (bytes q)))) _ _ ((slot_num (sb_file sb) + 7) / 8)); [| |zdm].
    + unfold cp. simpl. rewrite (flush_bits _ _ _ _ _ _ (w_fmap _ _ _ _ _ _ _ _ Hw)) by done. rewrite bool_decide_eq_true, HF.
      unfold marked. by setoid_rewrite Hd.
    + unfold cp. simpl. apply memcpy_agree. zdm.
  - intros k Hk. unfold M, cp. simpl. rewrite (flush_bits _ _ _ _ _ _ (w_zmap _ _ _ _ _ _ _ _ Hw)) by done.
    apply bool_decide_eq_false, not_elem_of_nil.
  - intros i Hi. specialize (Hr i Hi). pose proof (proj2 (Hd i) Hi) as Hdi.
    destruct (sinv_queue s done [] (Build_sinv s done [] (ex_intro _ U (ex_intro _ F (ex_intro _ E (conj Hw (conj HU (conj HF HE)))))) Hpop Hcl Hroot))
      as (_ & _ & _ & Hin). rewrite app_nil_r in Hin.
    assert (is_Some (rc_table s !! i)) as [o Ho] by (apply (w_table _ _ _ _ _ _ _ _ Hw); auto).
    assert (ri_entry_num o = counted sb p0 i) as Ec by (rewrite (w_num _ _ _ _ _ _ _ _ Hw i o Ho), HE; by rewrite decide_True).
    rewrite <- (counted_eq sb p0 Hlo), <- Ec. transitivity (load (bytes q) (IDX2INODE sb i + PI_entry_num) 8).
    + apply load_agree. intros x Hx. apply Hrest. rewrite (IDX2INODE_eq sb Hlo) in Hx by done. unfold PI_entry_num in Hx. lia.
    + apply Hq1; [lia|done|]. rewrite Ec. by apply counted_bound.
  - intros x Hx Hn. rewrite Hrest by done. apply Hq2. intros j Hj. apply Hn. lia.
Qed.

(** ** Releasing the memory *)

Lemma free_list_spec l s :
  NoDup l -> (forall p, p ∈ l -> is_Some (rc_filents s !! p)) ->
  exists s', free_list l s = Ok (tt, s') /\ rc_dev s' = rc_dev s /\ rc_table s' = rc_table s /\
    forall q, q ∉ l -> rc_filents s' !! q = rc_filents s !! q.
Proof.
  revert s. induction l as [|p l IH]; intros s Hn Hl; [by exists s|]. apply NoDup_cons in Hn as [Hp Hn]. cbn [free_list].
  destruct (Hl p) as [e He]; [by left|].
  destruct (IH (upd_rc_heap (cons p) (upd_rc_filents (delete p) s)) Hn) as (s' & Hs' & Hd & Ht & Hf).
  { intros q Hq. simpl. rewrite lookup_delete_ne by congruence. apply Hl. by right. }
  exists s'. split; [|split; [done|split; [done|]]].
  - erewrite M_bind_step; [exact Hs'|]. unfold free_rf. by mstep (rd_rf_eq _ _ _ He).
  - intros q Hq. rewrite not_elem_of_cons in Hq. rewrite Hf by tauto. simpl. apply lookup_delete_ne. intuition congruence.
Qed.

(** The lists of the inodes from [i] on are intact. *)
Definition lists_ok (i : Z) (s : rc_mgr) : Prop :=
  (forall j o, i <= j -> rc_table s !! j = Some o -> NoDup (ri_list o) /\ forall p, p ∈ ri_list o -> is_Some (rc_filents s !! p)) /\
  (forall j k o o' p, i <= j -> j <> k -> rc_table s !! j = Some o -> rc_table s !! k = Some o' -> p ∈ ri_list o -> p ∉ ri_list o').

Lemma free_inodes_spec n i s : lists_ok i s -> exists s', free_inodes n i s = Ok (tt, s') /\ rc_dev s' = rc_dev s.
Proof.
  revert i s. induction n as [|n IH]; intros i s [Hl Hd]; [by exists s|]. cbn [free_inodes]. mstep eq_refl.
  destruct (rc_table s !! i) as [o|] eqn:Ho.
  - destruct (Hl i o) as [Hn Hp]; [lia|done|]. destruct (free_list_spec (ri_list o) s Hn Hp) as (s1 & H1 & Ed & Et & Ef).
    destruct (IH (i + 1) (upd_rc_heap (cons (ri_addr o)) (upd_rc_table (delete i) s1))) as (s' & Hs' & Ed').
    { split; simpl; rewrite Et.
      - intros j o' Hj [Hne Hj']%lookup_delete_Some. destruct (Hl j o') as [Hn' Hp']; [lia|done|]. split; [done|].
        intros p Hpj. rewrite Ef; [auto|]. eapply Hd; [| |exact Hj'|exact Ho|done]; lia.
      - intros j k oj ok p Hj Hjk [_ Hj']%lookup_delete_Some [_ Hk']%lookup_delete_Some. eapply Hd; [|done|done|done]. lia. }
    exists s'. split; [|by rewrite Ed', <- Ed]. erewrite M_bind_step; [exact Hs'|]. mstep H1. done.
  - destruct (IH (i + 1) s) as (s' & Hs' & Ed').
    { split; [intros j o' Hj; apply Hl; lia|]. intros j k oj ok p Hj. apply Hd. lia. }
    exists s'. split; [|done]. by mstep eq_refl.
Qed.

Lemma rc_free_spec s done hs p' :
  sinv s done hs -> exists s', rc_free sb (upd_rc_dev (fun _ => p') s) = Ok (tt, s') /\ rc_dev s' = p'.
Proof.
  intros [(U & F & E & Hw & _) _ _ _].
  destruct (free_inodes_spec (Z.to_nat (i32 (inode_num sb))) 0 (upd_rc_dev (fun _ => p') s)) as (s' & Hs' & Ed).
  { split; simpl.
    - intros j o _. apply (w_lists _ _ _ _ _ _ _ _ Hw).
    - intros j k o o' p _. apply (w_disj _ _ _ _ _ _ _ _ Hw). }
  eexists. split; [unfold rc_free; mstep Hs'; reflexivity|]. done.
Qed.

(** ** The recovery as a whole *)

Lemma recover_prepare heap :
  heap_ok heap -> exists s1, tinv s1 (replicate (Z.to_nat THREAD_NUM) Pop) [] /\
    forall sched, recover sb stray fresh fresh_ref sched (rc_start heap) =
      (ts ← run sb stray fresh fresh_ref sched (replicate (Z.to_nat THREAD_NUM) Pop);
       if decide (Forall (eq Done) ts) then _ ← rc_flush sb; _ ← rc_free sb; mret 0 else throw OutOfFuel) s1.
Proof.
  intros (Hn & H0 & Hl). pose proof (nums sb Hlo) as Hnum.
  do 9 (destruct heap as [|? heap]; [unfold zlength in Hl; simpl in Hl; lia|]).
  destruct (rc_init_run z z0 z1 z2 z3 z4 z5 z6 z7 heap) as (s0 & Hb & Hh & Hrun).
  { intros Hin. apply H0. rewrite !elem_of_cons in Hin |- *. rewrite elem_of_nil in Hin. tauto. }
  destruct (root_push s0 Hb) as (s2 & s3 & H2 & H3 & Hs3).
  { rewrite Hh. do 9 apply NoDup_cons in Hn as [_ Hn]. done. }
  { rewrite Hh. intros Hin. apply H0. do 9 right. done. }
  { rewrite Hh. rewrite !zlength_cons in Hl. lia. }
  exists (upd_active (fun _ => THREAD_NUM) s3). split.
  - split; [by apply sinv_active|done|done|]. intros Hin. apply elem_of_replicate in Hin as [? _]. done.
  - intros sched. unfold recover. rewrite <- Hrun in H2. mstep H2. simpl (negb (0 =? 0)). cbv iota. mstep H3. by mstep eq_refl.
Qed.

(** A schedule that ends leaves the reachable inodes and slots on the device. *)
Lemma recover_run heap sched ret s :
  heap_ok heap -> recover sb stray fresh fresh_ref sched (rc_start heap) = Ok (ret, s) ->
  ret = 0 /\ recovered (bytes (rc_dev s)).
Proof.
  intros Hh. destruct (recover_prepare heap Hh) as (s1 & Ht1 & ->). intros Hr.
  destruct (run_inv sched s1 _ [] Ht1 ltac:(done)) as (ts & s2 & done & H2 & Ht2 & El).
  revert Hr. mstep H2. destruct (decide (Forall (eq Done) ts)) as [Hf|]; [|done].
  destruct (all_done s2 ts done Ht2 Hf) as (Hd & hs & Hs & -> & _); [by destruct ts|].
  destruct (rc_flush_spec s2 done Hs Hd) as (p' & H3 & Hrv). destruct (rc_free_spec s2 done [] p' Hs) as (s4 & H4 & Ed).
  mstep H3. mstep H4. intros [= <- <-]. by rewrite Ed.
Qed.

Lemma recover_finishes heap sched :
  heap_ok heap -> exists sched' s, recover sb stray fresh fresh_ref (sched ++ sched') (rc_start heap) = Ok (0, s).
Proof.
  intros Hh. destruct (recover_prepare heap Hh) as (s1 & Ht1 & Hrec).
  destruct (run_inv sched s1 _ [] Ht1 ltac:(done)) as (ts & s2 & d2 & H2 & Ht2 & El).
  destruct (run_completes s2 ts d2 Ht2) as (sched' & ts3 & s3 & d3 & H3 & Ht3 & El3 & Hf); [unfold zlength; by rewrite El|].
  destruct (all_done s3 ts3 d3 Ht3 Hf) as (Hd & hs & Hs & -> & _); [intros ->; simpl in *; lia|].
  destruct (rc_flush_spec s3 d3 Hs Hd) as (p' & H5 & _). destruct (rc_free_spec s3 d3 [] p' Hs) as (s4 & H4 & _).
  exists sched', s4. rewrite Hrec.
  assert (run sb stray fresh fresh_ref (sched ++ sched') (replicate (Z.to_nat THREAD_NUM) Pop) s1 = Ok (ts3, s3)) as Hrun.
  { clear -H2 H3. revert s1 H2. generalize (replicate (Z.to_nat THREAD_NUM) Pop). 
    induction sched as [|t sched IH]; intros l s1 H2; cbn [run app] in *; [by injection H2 as -> ->|].
    destruct (l !! t); [|by apply IH]. apply M_bind_Ok in H2 as (a & sa & Ha & H2). mstep Ha. by apply IH. }
  mstep Hrun. rewrite decide_True by done. mstep H5. by mstep H4.
Qed.
End threads.

(** ** Properties *)

(** C15: [recover] on an image that meets [image_ok] (logs that end and share
    no slot, no block of a file written twice, at most 256 blocks per file, the
    ghost slot of a directory naming an inode in use), with cleared memory from
    [malloc] and enough of it, and with handlers that are one step each.  In
    every schedule of its threads that ends it returns 0 and writes to the
    device the bitmaps of exactly the inodes that the entries lead to from the
    root and of the slots of their logs, the number of entries of a file, and
    one more than the number of entries of a directory that has a log.  The
    data bitmap comes out empty and the rest of the device is unchanged. *)
Theorem recover_correct sb stray fresh fresh_ref p0 heap sched ret s :
  layout_ok sb -> image_ok sb (bytes p0) ->
  ri_link fresh = 0 /\ ri_entry_num fresh = 0 /\ fresh_ref = 0 -> heap_ok sb heap ->
  recover sb stray fresh fresh_ref sched (rc_start p0 heap) = Ok (ret, s) ->
  ret = 0 /\ recovered sb p0 (bytes (rc_dev s)).
Proof. intros Hlo Himg Hf. by apply recover_run. Qed.

(** C16: under the conditions of [recover_correct], whatever steps the threads
    of [recover] have made, in whatever order, further steps let all of them
    return, and [recover] returns 0: no step so far has faulted and the protocol
    of the queue and [active_thread] is not stuck. *)
Theorem recover_completes sb stray fresh fresh_ref p0 heap sched :
  layout_ok sb -> image_ok sb (bytes p0) ->
  ri_link fresh = 0 /\ ri_entry_num fresh = 0 /\ fresh_ref = 0 -> heap_ok sb heap ->
  exists sched' s, recover sb stray fresh fresh_ref (sched ++ sched') (rc_start p0 heap) = Ok (0, s).
Proof. intros Hlo Himg Hf. by apply recover_finishes. Qed.

(** The maps of one kind of slot, from a bitmap whose bits are [P]. *)
Lemma mount_kind M sl (P : Z -> Prop) :
  mem_ok M -> region_ok sl -> (forall k, P k -> 0 <= k < slot_num sl) ->
  (forall k, 0 <= k < 8 * ((slot_num sl + 7) / 8) -> pm_bit M (bitmap sl) k = true <-> P k) ->
  exists b, init_kind M MAP_NUM sl = Ok b /\ maps_wf MAP_NUM b /\
    forall k, 0 <= k < slot_num sl -> slot_bit b k = true <-> P k.
Proof.
  intros Hm [Hn _] Hr HP. destruct (init_kind_spec M sl Hm Hn) as (b & Hb & Hw & Hs).
  { intros k Hk. destruct (pm_bit M (bitmap sl) k) eqn:E; [|done]. apply HP in E; [|lia]. apply Hr in E. lia. }
  exists b. split; [done|]. split; [done|]. intros k Hk. destruct (Hs k Hk) as [_ ->]. apply HP. zdm.
Qed.

(** C33: a mount after a recovery under the conditions of [recover_correct]: the
    bitmaps in shared memory are well formed; those of inodes, directory slots
    and file slots have in use exactly the inodes that the entries lead to from
    the root and the slots of their logs; that of data slots has none in use. *)
Theorem recover_then_mount sb stray fresh fresh_ref p0 heap sched ret s :
  let m := bytes p0 in
  layout_ok sb -> image_ok sb m ->
  ri_link fresh = 0 /\ ri_entry_num fresh = 0 /\ fresh_ref = 0 -> heap_ok sb heap ->
  recover sb stray fresh fresh_ref sched (rc_start p0 heap) = Ok (ret, s) ->
  exists mi md mf mt, shm_init_bitmap (bytes (rc_dev s)) sb = Ok (mi, md, mf, mt) /\
    maps_wf MAP_NUM mi /\ maps_wf MAP_NUM md /\ maps_wf MAP_NUM mf /\ maps_wf MAP_NUM mt /\
    (forall i, 0 <= i < inode_num sb -> slot_bit mi i = true <-> reach sb m i) /\
    (forall k, 0 <= k < slot_num (sb_dir sb) -> slot_bit md k = true <->
      exists i, reach sb m i /\ i_dir sb m i = true /\ k ∈ log_slots sb m i) /\
    (forall k, 0 <= k < slot_num (sb_file sb) -> slot_bit mf k = true <->
      exists i, reach sb m i /\ i_dir sb m i = false /\ k ∈ log_slots sb m i) /\
    (forall k, 0 <= k < slot_num (sb_data sb) -> slot_bit mt k = true <-> False).
Proof.
  intros m Hlo Himg Hf Hh Hr. destruct (recover_run sb stray fresh fresh_ref p0 Hlo Himg Hf heap sched ret s Hh Hr) as [_ Rv].
  set (M := bytes (rc_dev s)) in *. destruct (lo_nums _ Hlo) as (Ni & Nd & Nf & Nz). pose proof (rv_mem _ _ _ Rv) as Hm.
  assert (forall d k, (exists i, reach sb m i /\ i_dir sb m i = d /\ k ∈ log_slots sb m i) ->
    0 <= k < slot_num (kind sb (if d then SLOT_DIR else SLOT_FILE))) as Hk.
  { intros d k (i & Hi & <- & Hk). pose proof (io_slots _ _ Himg i k Hi Hk). lia. }
  destruct (mount_kind M (sb_inode sb) (reach sb m) Hm Ni (io_range _ _ Himg) (rv_inode _ _ _ Rv)) as (mi & Ei & Wi & Bi).
  destruct (mount_kind M (sb_dir sb) _ Hm Nd (Hk true) (rv_dir _ _ _ Rv)) as (md & Ed & Wd & Bd).
  destruct (mount_kind M (sb_file sb) _ Hm Nf (Hk false) (rv_file _ _ _ Rv)) as (mf & Ef & Wf & Bf).
  destruct (mount_kind M (sb_data sb) (fun _ => False) Hm Nz ltac:(done)) as (mt & Et & Wt & Bt).
  { intros k Hk'. by rewrite (rv_data _ _ _ Rv k Hk'). }
  exists mi, md, mf, mt. split; [|done]. unfold shm_init_bitmap. by rewrite Ei, Ed, Ef, Et.
Qed.

(** ** A small image

    The root names the file 5 in its slot 1; slot 2 is its ghost slot.  The
    file has one entry, for two blocks, in slot 3, and the ghost slot 4. *)

Definition put_dir (ino head : Z) (M : mem) : mem :=
  store (IDX2INODE example_sb ino + PI_i_mode) 4 16877 (store (IDX2INODE example_sb ino + PI_log_head) 8 head M).
Definition put_file (ino head : Z) (M : mem) : mem :=
  store (IDX2INODE example_sb ino + PI_i_mode) 4 33188 (store (IDX2INODE example_sb ino + PI_log_head) 8 head M).
Definition put_dent (k ino next : Z) (M : mem) : mem :=
  store (IDX2DENT example_sb k + PD_ino) 8 ino (store (IDX2DENT example_sb k + PD_next) 8 next M).
Definition put_fent (k l_idx p_idx blocks ts next : Z) (M : mem) : mem :=
  store (IDX2FENT example_sb k + PF_l_idx) 4 l_idx (store (IDX2FENT example_sb k + PF_p_idx) 4 p_idx
    (store (IDX2FENT example_sb k + PF_blocks) 4 blocks (store (IDX2FENT example_sb k + PF_ts) 8 ts
      (store (IDX2FENT example_sb k + PF_next) 8 next M)))).

Definition small_image : mem :=
  put_dir 0 1 (put_dent 1 5 2 (put_file 5 3 (put_fent 3 0 7 2 1 4 (fun _ => 0)))).
Definition small_pm : pmem := mk_pmem small_image [].
Definition cleared : rc_inode := mk_rci 0 0 0 false 0 0 0 0 0 ∅ (mk_ptr 0 0 0) [].
Definition small_heap : list Z := seqZ 1 300.

(** The first thread does the work; then each thread finds the queue empty. *)
Definition one_by_one : list nat := [0; 0; 0; 0; 0; 0; 1; 1; 2; 2; 3; 3; 4; 4; 5; 5; 6; 6; 7; 7; 0; 1; 2; 3; 4; 5; 6; 7]%nat.

Lemma small_reach i : reach example_sb small_image i -> i = 0 \/ i = 5.
Proof.
  induction 1 as [|i c _ IH Hc]; [by left|]. destruct IH as [-> | ->].
  - assert (kids example_sb small_image 0 = [5]) as E by (by vm_compute). rewrite E in Hc.
    rewrite list_elem_of_singleton in Hc. by right.
  - assert (kids example_sb small_image 5 = []) as E by (by vm_compute). rewrite E in Hc. destruct (not_elem_of_nil _ Hc).
Qed.

Lemma small_logs :
  log_slots example_sb small_image 0 = [1; 2] /\ log_slots example_sb small_image 5 = [3; 4] /\
  i_dir example_sb small_image 0 = true /\ i_dir example_sb small_image 5 = false.
Proof. by vm_compute. Qed.

Lemma small_chains :
  log_chain (log_next example_sb small_image 0) (pm_head example_sb small_image 0) (log_slots example_sb small_image 0) /\
  log_chain (log_next example_sb small_image 5) (pm_head example_sb small_image 5) (log_slots example_sb small_image 5).
Proof. vm_compute. split_and!; reflexivity. Qed.
Lemma small_covers : entries example_sb small_image 5 ≫= covers example_sb small_image = [0; 1].
Proof. by vm_compute. Qed.

Lemma small_ghost : named example_sb small_image 2 = 0.
Proof. by vm_compute. Qed.

Lemma small_ok : image_ok example_sb small_image.
Proof.
  split.
  - unfold small_image, put_dir, put_dent, put_file, put_fent. repeat apply store_ok. intros x. lia.
  - change (inode_num example_sb) with 64. intros i Hi. apply small_reach in Hi. lia.
  - intros i Hi. apply small_reach in Hi. destruct Hi as [-> | ->]; [exact (proj1 small_chains)|exact (proj2 small_chains)].
  - destruct small_logs as (L0 & L5 & D0 & D5). intros i k Hi. apply small_reach in Hi. destruct Hi as [-> | ->];
      [rewrite L0, D0|rewrite L5, D5]; clear; rewrite !elem_of_cons, elem_of_nil; simpl; lia.
  - destruct small_logs as (_ & _ & D0 & D5). intros i j k Hi Hj. apply small_reach in Hi, Hj.
    destruct Hi as [-> | ->], Hj as [-> | ->]; rewrite ?D0, ?D5; clear; intros; [reflexivity|discriminate|discriminate|reflexivity].
  - destruct small_logs as (L0 & _ & _ & D5). intros i k Hi. apply small_reach in Hi. destruct Hi as [-> | ->].
    + rewrite L0. intros _ Hk. assert (k = 2) as -> by (clear -Hk; simpl in Hk; congruence). rewrite small_ghost. apply reach_root.
    + rewrite D5. clear. intros E _. discriminate E.
  - destruct small_logs as (_ & _ & D0 & D5). intros i Hi. apply small_reach in Hi. destruct Hi as [-> | ->]; rewrite ?D0, ?D5, ?small_covers; clear; intros; [discriminate|].
    unfold BRANCH_NUM. split; [|repeat constructor; lia].
    repeat (apply NoDup_cons; split; [rewrite ?elem_of_cons, elem_of_nil; lia|]). apply NoDup_nil_2.
Qed.

Lemma small_heap_ok : heap_ok example_sb small_heap.
Proof.
  split; [apply NoDup_seqZ|]. split; [|by vm_compute]. intros H. apply elem_of_seqZ in H. lia.
Qed.

Lemma eval_ok {S A} (m : M S A) s a : eval m s = Ok a -> exists s', m s = Ok (a, s').
Proof. unfold eval. destruct (m s) as [[b s']|f]; [|discriminate]. intros [= ->]. by exists s'. Qed.

Lemma small_run : exists s, recover example_sb 0 cleared 0 one_by_one (rc_start small_pm small_heap) = Ok (0, s).
Proof. apply eval_ok. vm_compute. reflexivity. Qed.

Lemma recover_correct_witness :
  exists s, recover example_sb 0 cleared 0 one_by_one (rc_start small_pm small_heap) = Ok (0, s) /\
    recovered example_sb small_pm (bytes (rc_dev s)).
Proof.
  destruct small_run as [s Hs]. exists s. split; [exact Hs|].
  exact (proj2 (recover_correct example_sb 0 cleared 0 small_pm small_heap one_by_one 0 s example_layout small_ok
    (conj eq_refl (conj eq_refl eq_refl)) small_heap_ok Hs)).
Defined.

Lemma recover_completes_witness :
  exists sched' s, recover example_sb 0 cleared 0 ([0; 3; 3]%nat ++ sched') (rc_start small_pm small_heap) = Ok (0, s).
Proof.
  exact (recover_completes example_sb 0 cleared 0 small_pm small_heap [0; 3; 3]%nat example_layout small_ok
    (conj eq_refl (conj eq_refl eq_refl)) small_heap_ok).
Defined.

Lemma recover_then_mount_witness :
  exists s mi md mf mt, recover example_sb 0 cleared 0 one_by_one (rc_start small_pm small_heap) = Ok (0, s) /\
    shm_init_bitmap (bytes (rc_dev s)) example_sb = Ok (mi, md, mf, mt) /\
    (forall i, 0 <= i < inode_num example_sb -> slot_bit mi i = true <-> reach example_sb small_image i).
Proof.
  destruct small_run as [s Hs]. exists s.
  destruct (recover_then_mount example_sb 0 cleared 0 small_pm small_heap one_by_one 0 s example_layout small_ok
    (conj eq_refl (conj eq_refl eq_refl)) small_heap_ok Hs) as (mi & md & mf & mt & H1 & _ & _ & _ & _ & H2 & _).
  exists mi, md, mf, mt. split; [exact Hs|]. split; [exact H1|exact H2].
Defined.

(** ** Where the recovery goes wrong *)

(** The bitmaps of a mount after the recovery of the image [M]. *)
Definition remount (sched : list nat) (fresh : rc_inode) (M : mem) :
    outcome (list dram_bitmap * list dram_bitmap * list dram_bitmap * list dram_bitmap) :=
  match recover example_sb 0 fresh 0 sched (rc_start (mk_pmem M []) small_heap) with
  | Ok (_, s) => shm_init_bitmap (bytes (rc_dev s)) example_sb
  | Fault f => Fault f
  end.

(** mkfs reserves the directory slot 0, since 0 ends a log.  The recovery
    does not: the first slot handed out afterwards is 0, and the entry that
    follows a directory's slot 0 is lost. *)
Theorem recover_frees_slot_zero :
  ('(mi, md, mf, mt) ← remount one_by_one cleared small_image; '(r, _) ← do_slot_alloc MAP_NUM 0 md; mret r) = Ok 0.
Proof. vm_compute. reflexivity. Qed.

(** The ghost slot of the root counts as an entry: there is one entry, and the
    recovery finds two. *)
Theorem recover_counts_ghost :
  entry_count example_sb small_image 0 = 1 /\
  ('(_, s) ← recover example_sb 0 cleared 0 one_by_one (rc_start small_pm small_heap);
   mret (load (bytes (rc_dev s)) (IDX2INODE example_sb 0 + PI_entry_num) 8)) = Ok 2.
Proof. split; vm_compute; reflexivity. Qed.

(** The inode number that the last user of the ghost slot left there counts,
    too: no entry names the inode 9, but it is in use after the recovery. *)
Theorem recover_follows_ghost :
  kids example_sb (put_dent 2 9 0 small_image) 0 = [5] /\
  ('(mi, md, mf, mt) ← remount ([0; 0] ++ one_by_one)%nat cleared (put_dent 2 9 0 small_image); mret (slot_bit mi 9)) = Ok true.
Proof. split; vm_compute; reflexivity. Qed.

(** The file has its data in the slots 7 and 8, but they count as free. *)
Theorem recover_frees_data :
  ('(mi, md, mf, mt) ← remount one_by_one cleared small_image; mret (slot_bit mt 7, slot_bit mt 8)) = Ok (false, false).
Proof. vm_compute. reflexivity. Qed.

(** [rc_iget] does not clear the link count: with another value than 0 in the
    memory the file is not put on the queue, and its inode counts as free. *)
Theorem recover_needs_cleared_memory :
  ('(mi, md, mf, mt) ← remount one_by_one (upd_ri_link (fun _ => 3) cleared) small_image; mret (slot_bit mi 5)) = Ok false.
Proof. vm_compute. reflexivity. Qed.

(** A block that was written twice: the second entry replaces the first in the
    tree but is not counted there ([ref] stays 0), and is freed while the tree
    refers to it.  Its memory goes to the next slot of the log: the tree now has
    the data slot 0 for the block, not 8. *)
Definition twice : mem :=
  put_dir 0 1 (put_dent 1 5 2 (put_file 5 3 (put_fent 3 0 7 1 1 4 (put_fent 4 0 8 1 2 6 (fun _ => 0))))).
Theorem recover_frees_entry_in_use :
  eval (_ ← rc_init example_sb cleared;
        _ ← rc_handle_inode example_sb 0 cleared 0 0;
        _ ← rc_handle_inode example_sb 0 cleared 0 5;
        p ← on_rc_tree 5 (r ← gets bt_root; n ← read_node r; get_child n 0);
        s ← get;
        mret (rf_p_idx <$> rc_filents s !! p)) (rc_start (mk_pmem twice []) small_heap) = Ok (Some 0).
Proof. vm_compute. reflexivity. Qed.
