(* ===== verification/FileRead.v ===== *)
(** * The contents of a file: [inode_read]

    [file_byte] is the contents of a file: the byte of the data slot that the
    index has for the block, 0 in a hole.  [inode_read] takes the length of a
    copy from the whole extent, whatever block of it the copy starts at; it is
    right when the range stays inside one page or one extent, or when it starts
    at the first block of an extent and no extent has been partly overwritten. *)
From stdpp Require Import base numbers list gmap.
From S2P Require Import Prelude Bitops Slot Btree Rbtree RbErase DirIndex Pm Mkfs Fs Journal Dir File FileIndex FileLog.
Local Open Scope Z_scope.

Section read.
Context (sb : pm_super_block).

Definition file_byte (s : fs) (i : dram_inode) (o : Z) : Z :=
  match phys (filents s) (block_of i) (o / PAGE_SIZE) with
  | None => 0
  | Some q => bytes (dev s) (IDX2DATA sb q + o mod PAGE_SIZE)
  end.

(** Every block of an extent that has a reference refers to it. *)
Definition whole (s : fs) (i : dram_inode) : Prop :=
  forall k e, 0 <= k -> block_of i k <> 0 -> filents s !! block_of i k = Some e ->
  forall k', covers e k' -> block_of i k' = block_of i k.
(** Block [k] is a hole or the first of its extent. *)
Definition starts (s : fs) (i : dram_inode) (k : Z) : Prop :=
  block_of i k = 0 \/ exists e, filents s !! block_of i k = Some e /\ f_l_idx e = k.

Hypothesis Hlo : layout_ok sb.

Lemma filent_lookup_spec stray p k s i :
  inodes s !! p = Some i -> file_ok sb s i -> 0 <= k < capacity (b_height i) ->
  filent_lookup stray p k s = Ok (block_of i k, s).
Proof.
  intros Hi Hok Hk. unfold filent_lookup. apply (on_btree_read _ _ i); [done|].
  rewrite btree_get_spec; [by rewrite contents_tree_of|apply Hok|done].
Qed.

(** The pages of an extent are contiguous on the device. *)
Lemma extent_byte s i e k o d :
  file_ok sb s i -> 0 <= k -> block_of i k <> 0 -> filents s !! block_of i k = Some e -> 0 <= o -> o / PAGE_SIZE = k ->
  0 <= d -> block_of i ((o + d) / PAGE_SIZE) = block_of i k ->
  file_byte s i (o + d) = bytes (dev s) (data_addr sb e k + o mod PAGE_SIZE + d).
Proof.
  intros Hok Hk Hnz He Ho Eo Hd Ek. set (k' := (o + d) / PAGE_SIZE) in *.
  assert (0 <= k') as Hk' by (unfold k', PAGE_SIZE in *; zdm). assert (block_of i k' <> 0) as Hnz' by congruence.
  destruct (core_entry _ _ _ _ _ _ _ (fo_core _ _ _ Hok) Hk Hnz) as (e0 & He0 & Hok0 & Hcov & _ & _ & _ & _ & _ & Hr).
  rewrite He in He0. injection He0 as <-.
  destruct (core_entry _ _ _ _ _ _ _ (fo_core _ _ _ Hok) Hk' Hnz') as (e0 & He0 & _ & Hcov' & _ & _ & _ & _ & Hph & Hr').
  rewrite Ek, He in He0. injection He0 as <-.
  unfold file_byte. fold k'. rewrite Hph. f_equal. unfold data_addr. rewrite u64_small.
  2: { destruct Hlo as [_ _ _ (_ & _ & _ & [? _]) _ _]. unfold slot_of in *. lia. }
  fold (slot_of e k). rewrite !(IDX2DATA_eq sb Hlo) by done. unfold slot_of, k', PAGE_SIZE in *. zdm.
Qed.

(** The user's buffer after [n] bytes of the file from [o] were copied to [buf]. *)
Definition filled (s : fs) (i : dram_inode) (ub ub' : mem) (buf n o : Z) : Prop :=
  forall x, ub' x = if (buf <=? x) && (x <? buf + n) then file_byte s i (o + (x - buf)) else ub x.

Lemma filled_app s i ub ub1 ub2 buf n1 n2 o :
  0 <= n1 -> 0 <= n2 -> filled s i ub ub1 buf n1 o -> filled s i ub1 ub2 (buf + n1) n2 (o + n1) ->
  filled s i ub ub2 buf (n1 + n2) o.
Proof.
  intros Hn1 Hn2 H1 H2 x. rewrite H2, H1.
  destruct (Z.leb_spec (buf + n1) x), (Z.ltb_spec x (buf + n1 + n2)), (Z.leb_spec buf x), (Z.ltb_spec x (buf + n1)),
    (Z.ltb_spec x (buf + (n1 + n2))); simpl; try lia; try done. f_equal. lia.
Qed.

Lemma land_page_mask x : 0 <= x -> Z.land x PAGE_MASK = x mod PAGE_SIZE.
Proof. intros. change PAGE_MASK with (Z.ones 12). by rewrite Z.land_ones. Qed.
Lemma shiftr_page x : Z.shiftr x PAGE_SHIFT = x / PAGE_SIZE.
Proof. unfold PAGE_SHIFT. by rewrite Z.shiftr_div_pow2. Qed.

(** ** The loop *)

(** The ranges [inode_read] copies right: all blocks have the same entry, or
    the range starts where an extent starts and all extents are whole. *)
Definition step_ok (s : fs) (i : dram_inode) (left o : Z) : Prop :=
  (forall k, o / PAGE_SIZE <= k <= (o + left - 1) / PAGE_SIZE -> block_of i k = block_of i (o / PAGE_SIZE)) \/
  (whole s i /\ starts s i (o / PAGE_SIZE)).

(** The number of bytes a round copies. *)
Definition round_len (s : fs) (i : dram_inode) (left o : Z) : Z :=
  let room := match filents s !! block_of i (o / PAGE_SIZE) with
              | Some e => if block_of i (o / PAGE_SIZE) =? 0 then PAGE_SIZE - o mod PAGE_SIZE
                          else f_blocks e * PAGE_SIZE - o mod PAGE_SIZE
              | None => PAGE_SIZE - o mod PAGE_SIZE end in
  Z.min left room.

Lemma round_bytes s i left o :
  file_ok sb s i -> 0 <= o -> 0 < left -> step_ok s i left o -> block_of i (o / PAGE_SIZE) <> 0 ->
  forall d, 0 <= d < round_len s i left o ->
  block_of i ((o + d) / PAGE_SIZE) = block_of i (o / PAGE_SIZE).
Proof.
  intros Hok Ho Hl Hst Hnz d Hd. assert (0 <= o / PAGE_SIZE) as Hk by (unfold PAGE_SIZE; zdm).
  destruct (core_entry _ _ _ _ _ _ _ (fo_core _ _ _ Hok) Hk Hnz) as (e & He & Hoke & Hcov & _).
  unfold round_len in Hd. rewrite He in Hd. destruct (Z.eqb_spec (block_of i (o / PAGE_SIZE)) 0); [done|].
  destruct Hst as [Hone|[Hw Hs]].
  - apply Hone. unfold PAGE_SIZE in *. zdm.
  - apply (Hw (o / PAGE_SIZE) e Hk Hnz He). destruct Hs as [|(e' & He' & Hs)]; [done|].
    assert (e' = e) as -> by congruence. unfold covers, PAGE_SIZE in *. zdm.
Qed.

Lemma step_ok_next s i left o :
  file_ok sb s i -> 0 <= o -> round_len s i left o < left -> step_ok s i left o ->
  (o + round_len s i left o) mod PAGE_SIZE = 0 /\ 0 < round_len s i left o /\
  step_ok s i (left - round_len s i left o) (o + round_len s i left o).
Proof.
  intros Hok Ho Hlt Hst. assert (0 <= o / PAGE_SIZE) as Hk by (unfold PAGE_SIZE; zdm).
  unfold round_len in *. set (k := o / PAGE_SIZE) in *.
  destruct (Z.eqb_spec (block_of i k) 0) as [Hz|Hnz].
  - (* a hole *)
    assert ((match filents s !! block_of i k with Some _ => PAGE_SIZE - o mod PAGE_SIZE | None => PAGE_SIZE - o mod PAGE_SIZE end)
      = PAGE_SIZE - o mod PAGE_SIZE) as E by (by destruct (filents s !! block_of i k)). rewrite E in *.
    rewrite Z.min_r in * by lia. assert (0 < PAGE_SIZE - o mod PAGE_SIZE) by (unfold PAGE_SIZE; zdm).
    split_and!; [unfold PAGE_SIZE in *; zdm|done|].
    destruct Hst as [Hone|[Hw _]].
    { left. intros k' Hk'. etransitivity; [apply Hone|symmetry; apply Hone]; unfold k, PAGE_SIZE in *; zdm. }
    right. split; [done|].
    replace ((o + (PAGE_SIZE - o mod PAGE_SIZE)) / PAGE_SIZE) with (k + 1) by (unfold k, PAGE_SIZE in *; zdm).
    destruct (decide (block_of i (k + 1) = 0)) as [|Hnz]; [by left|right].
    destruct (core_entry _ _ _ _ _ _ (k + 1) (fo_core _ _ _ Hok) ltac:(lia) Hnz) as (e & He & _ & Hcov & _).
    exists e. split; [done|]. unfold covers in Hcov. destruct (decide (f_l_idx e = k + 1)); [done|].
    exfalso. apply Hnz. rewrite <- (Hw (k + 1) e ltac:(lia) Hnz He k); [done|]. unfold covers. lia.
  - destruct (core_entry _ _ _ _ _ _ _ (fo_core _ _ _ Hok) Hk Hnz) as (e & He & Hoke & Hcov & _). rewrite He in *.
    rewrite Z.min_r in * by lia. unfold ent_ok, covers in *.
    assert (0 < f_blocks e * PAGE_SIZE - o mod PAGE_SIZE) by (unfold PAGE_SIZE; zdm).
    split_and!; [unfold PAGE_SIZE in *; zdm|done|].
    destruct Hst as [Hone|[Hw [Hs|(e' & He' & Hs)]]]; [|done|].
    { exfalso. fold k in Hone. set (last := (o + left - 1) / PAGE_SIZE) in *.
      assert (block_of i last = block_of i k) as El by (apply Hone; unfold k, last, PAGE_SIZE in *; zdm).
      destruct (co_map _ _ _ _ _ _ (fo_core _ _ _ Hok) last) as [_ Hc]; [unfold last, PAGE_SIZE in *; zdm|by rewrite El|].
      rewrite El in Hc. specialize (Hc e He). unfold covers, k, last, PAGE_SIZE in *. zdm. }
    fold k in He', Hs. assert (e' = e) as -> by congruence. right. split; [done|].
    replace ((o + (f_blocks e * PAGE_SIZE - o mod PAGE_SIZE)) / PAGE_SIZE) with (k + f_blocks e) by (unfold k, PAGE_SIZE in *; zdm).
    set (k2 := k + f_blocks e). destruct (decide (block_of i k2 = 0)) as [|Hnz2]; [by left|right].
    destruct (core_entry _ _ _ _ _ _ k2 (fo_core _ _ _ Hok) ltac:(lia) Hnz2) as (e2 & He2 & _ & Hcov2 & _).
    exists e2. split; [done|]. unfold covers in Hcov2. destruct (decide (f_l_idx e2 = k2)); [done|]. exfalso.
    assert (block_of i (k2 - 1) = block_of i k) as E1 by (apply (Hw k e Hk Hnz He); unfold covers; lia).
    assert (block_of i (k2 - 1) = block_of i k2) as E2 by (apply (Hw k2 e2 ltac:(lia) Hnz2 He2); unfold covers; lia).
    rewrite <- E2, E1, He in He2. injection He2 as <-. lia.
Qed.

(** One round copies [round_len] bytes of the file. *)
Lemma read_round stray p s i ub buf left o :
  inodes s !! p = Some i -> file_ok sb s i -> 0 <= o -> 0 < left -> o + left < 2 ^ 43 ->
  (o + left - 1) / PAGE_SIZE < capacity (b_height i) -> step_ok s i left o ->
  let nr := round_len s i left o in
  exists ub', (forall fuel, read_loop sb stray (S fuel) p ub buf left o s =
      if u64 (left - nr) >? 0 then read_loop sb stray fuel p ub' (buf + nr) (u64 (left - nr)) (o + nr) s else Ok (ub', s)) /\
    filled s i ub ub' buf nr o.
Proof.
  intros Hi Hok Ho Hl Hmax Hcap Hst nr.
  assert (0 <= o / PAGE_SIZE) as Hk by (unfold PAGE_SIZE; zdm).
  assert (0 <= o / PAGE_SIZE < capacity (b_height i)) as Hkc by (unfold PAGE_SIZE in *; zdm).
  pose proof (filent_lookup_spec stray p (o / PAGE_SIZE) s i Hi Hok Hkc) as Hlook.
  assert (u64 (Z.shiftr o PAGE_SHIFT) = o / PAGE_SIZE) as Eidx
    by (rewrite shiftr_page; apply u64_small; unfold PAGE_SIZE in *; zdm).
  destruct (Z.eqb_spec (block_of i (o / PAGE_SIZE)) 0) as [Hz|Hnz].
  - assert (nr = if left >? PAGE_SIZE - o mod PAGE_SIZE then PAGE_SIZE - o mod PAGE_SIZE else left) as Enr.
    { unfold nr, round_len. rewrite Hz. simpl. destruct (filents s !! 0); destruct (Z.gtb_spec left (PAGE_SIZE - o mod PAGE_SIZE)); lia. }
    exists (memset buf 0 nr ub). split.
    + intros fuel. cbn [read_loop]. rewrite land_page_mask, Eidx by done. mstep Hlook. rewrite Hz. simpl (0 =? 0). cbv iota.
      rewrite <- Enr. mstep eq_refl. cbv beta iota zeta. by destruct (u64 (left - nr) >? 0).
    + intros x. unfold memset. destruct (Z.leb_spec buf x), (Z.ltb_spec x (buf + nr)); simpl; try done.
      unfold file_byte, phys.
      assert ((o + (x - buf)) / PAGE_SIZE = o / PAGE_SIZE) as ->
        by (destruct (Z.gtb_spec left (PAGE_SIZE - o mod PAGE_SIZE)); unfold PAGE_SIZE in *; zdm).
      by rewrite Hz.
  - destruct (core_entry _ _ _ _ _ _ _ (fo_core _ _ _ Hok) Hk Hnz) as (e & He & Hoke & Hcov & _).
    unfold ent_ok in Hoke.
    set (room := u64 (u64 (Z.shiftl (f_blocks e) PAGE_SHIFT) - o mod PAGE_SIZE)).
    assert (room = f_blocks e * PAGE_SIZE - o mod PAGE_SIZE) as Er.
    { unfold room, PAGE_SHIFT. rewrite Z.shiftl_mul_pow2 by lia. change (2 ^ 12) with PAGE_SIZE.
      assert (0 <= o mod PAGE_SIZE < PAGE_SIZE) by (apply Z.mod_pos_bound; done).
      unfold PAGE_SIZE in *. rewrite (u64_small (f_blocks e * 4096)) by lia. by rewrite u64_small by lia. }
    assert (nr = if left >? room then room else left) as Enr.
    { unfold nr, round_len. rewrite He. destruct (Z.eqb_spec (block_of i (o / PAGE_SIZE)) 0); [done|].
      rewrite <- Er. destruct (Z.gtb_spec left room); lia. }
    exists (memcpy buf (bytes (dev s)) (data_addr sb e (o / PAGE_SIZE) + o mod PAGE_SIZE) nr ub). split.
    + intros fuel. cbn [read_loop]. rewrite land_page_mask, Eidx by done. mstep Hlook.
      destruct (Z.eqb_spec (block_of i (o / PAGE_SIZE)) 0); [done|].
      erewrite M_bind_step by (fs_step; fold room; rewrite <- Enr; mstep eq_refl; reflexivity).
      cbv beta iota zeta. by destruct (u64 (left - nr) >? 0).
    + intros x. unfold memcpy. destruct (Z.leb_spec buf x), (Z.ltb_spec x (buf + nr)); simpl; try done.
      rewrite (extent_byte s i e (o / PAGE_SIZE) o (x - buf)); try done; [lia|].
      apply (round_bytes s i left); try done. unfold nr in *. lia.
Qed.

Lemma read_loop_spec stray p s i fuel ub buf left o :
  inodes s !! p = Some i -> file_ok sb s i -> 0 <= o -> 0 < left -> o + left < 2 ^ 43 ->
  (o + left - 1) / PAGE_SIZE < capacity (b_height i) -> step_ok s i left o ->
  (o mod PAGE_SIZE + left + PAGE_SIZE - 1) / PAGE_SIZE <= Z.of_nat fuel ->
  exists ub', read_loop sb stray fuel p ub buf left o s = Ok (ub', s) /\ filled s i ub ub' buf left o.
Proof.
  intros Hi Hok. revert ub buf left o. induction fuel as [|fuel IH]; intros ub buf left o Ho Hl Hmax Hcap Hst Hf.
  { exfalso. unfold PAGE_SIZE in *. zdm. }
  destruct (read_round stray p s i ub buf left o Hi Hok Ho Hl Hmax Hcap Hst) as (ub1 & Hrun & Hf1). rewrite Hrun.
  set (nr := round_len s i left o) in *. assert (nr <= left) by apply Z.le_min_l.
  destruct (decide (nr = left)) as [E|E].
  { rewrite E in *. rewrite Z.sub_diag. exists ub1. split; [done|exact Hf1]. }
  destruct (step_ok_next s i left o Hok Ho ltac:(fold nr; lia) Hst) as (Hz & Hp & Hst'). fold nr in Hz, Hp, Hst'.
  rewrite u64_small by lia. destruct (Z.gtb_spec (left - nr) 0); [|lia].
  destruct (IH ub1 (buf + nr) (left - nr) (o + nr)) as (ub2 & Hrun2 & Hf2); try done; try lia.
  - by replace (o + nr + (left - nr) - 1) with (o + left - 1) by lia.
  - rewrite Hz. unfold PAGE_SIZE in *. zdm.
  - exists ub2. split; [done|]. replace left with (nr + (left - nr)) by lia. eapply filled_app; [lia|lia|done|done].
Qed.

Lemma unlock_lock (s : fs) k : k ∉ ilocks s -> upd_ilocks (fun l => l ∖ {[k]}) (upd_ilocks (fun l => {[k]} ∪ l) s) = s.
Proof. intros Hk. apply fs_ext; fsimpl; try done. set_solver. Qed.

Lemma inode_lock_eq k s : k ∉ ilocks s -> inode_lock k s = Ok (tt, upd_ilocks (fun l => {[k]} ∪ l) s).
Proof. intros Hk. unfold inode_lock. by rewrite decide_False. Qed.

Lemma file_ok_locks s i f : file_ok sb s i -> file_ok sb (upd_ilocks f s) i.
Proof. intros []. by constructor. Qed.

Lemma inode_read_spec stray p s i ub buf len o :
  let n := Z.min len (i_size i - o) in
  inodes s !! p = Some i -> file_ok sb s i -> i_ino i ∉ ilocks s -> 0 <= o <= i_size i -> 0 <= len ->
  (0 < n -> (o + n - 1) / PAGE_SIZE < capacity (b_height i) /\ step_ok s i n o) ->
  exists ub', inode_read sb stray p ub buf len o s = Ok ((n, ub'), s) /\ filled s i ub ub' buf n o.
Proof.
  intros n Hi Hok Hlk Ho Hl Hst. destruct (fo_size _ _ _ Hok) as [Hs _].
  unfold inode_read. mstep (rd_inode_eq _ _ _ Hi). cbv zeta. rewrite u64_small by lia.
  replace (if len >? i_size i - o then i_size i - o else len) with n by (unfold n; destruct (Z.gtb_spec len (i_size i - o)); lia).
  destruct (Z.leb_spec n 0) as [Hn|Hn].
  { assert (n = 0) as -> by lia. exists ub. split; [done|]. intros x. destruct (Z.leb_spec buf x), (Z.ltb_spec x (buf + 0)); done || lia. }
  destruct (Hst Hn) as [Hcap Hstep]. mstep (inode_lock_eq _ _ Hlk).
  destruct (read_loop_spec stray p (upd_ilocks (fun l => {[i_ino i]} ∪ l) s) i (read_fuel n) ub buf n o)
    as (ub' & Hrun & Hf); try done; [by apply file_ok_locks|lia|lia| |].
  { unfold read_fuel. rewrite Z2Nat.id by (unfold PAGE_SIZE; zdm). unfold PAGE_SIZE. zdm. }
  mstep Hrun. exists ub'. split; [|exact Hf]. mstep eq_refl. by rewrite unlock_lock.
Qed.

(** C7: [inode_read] from an offset inside the file or at its end returns the
    smaller of the length asked for and what there is up to the end of the file,
    copies exactly these bytes of the file to the buffer, and leaves everything
    else as it was.  This holds when the blocks are within the capacity of the
    index, and all blocks of the range have the same entry (a range in one page,
    in one extent, or in a hole), or the range starts at a hole or at the first
    block of an extent and no extent of the file has been partly overwritten;
    [inode_read_over_extent] is a read in the middle of an extent that is wrong. *)
Theorem inode_read_correct stray p s i ub buf len o :
  let n := Z.min len (i_size i - o) in
  inodes s !! p = Some i -> file_ok sb s i -> i_ino i ∉ ilocks s -> 0 <= o <= i_size i -> 0 <= len ->
  (0 < n -> (o + n - 1) / PAGE_SIZE < capacity (b_height i) /\ step_ok s i n o) ->
  exists ub', inode_read sb stray p ub buf len o s = Ok ((n, ub'), s) /\
    forall x, ub' x = if (buf <=? x) && (x <? buf + n) then file_byte s i (o + (x - buf)) else ub x.
Proof. apply inode_read_spec. Qed.
End read.
