(* ===== verification/FileWrite.v ===== *)
(** * Writing: [inode_write]

    A write goes one of three ways: a small overwrite in place, under a write
    journal; a small append into the last block, in place; and otherwise into
    fresh data slots, with the rest of the first and the last block copied
    over, and an entry in the log that takes the blocks.  Each way changes
    exactly the bytes of the range; the other files keep their contents. *)
From stdpp Require Import base numbers list gmap.
From S2P Require Import Prelude Bitops Slot Btree Rbtree RbErase DirIndex Pm Mkfs.
From S2P Require Import Fs Journal Dir File FileIndex FileLog FileRead.
Local Open Scope Z_scope.

Section write.
Context (sb : pm_super_block).
Hypothesis Hlo : layout_ok sb.

(** ** What files do not depend on *)

(** Fields of an inode that [file_ok] does not look at may change. *)
Definition same_file (i i' : dram_inode) : Prop :=
  i_ino i' = i_ino i /\ b_root i' = b_root i /\ b_height i' = b_height i /\ b_nodes i' = b_nodes i /\
  i_list i' = i_list i /\ i_invalid i' = i_invalid i /\ ghost_slot i' = ghost_slot i /\ log_head i' = log_head i.

Lemma same_file_tree i i' l : same_file i i' -> tree_of i' l = tree_of i l.
Proof. intros (_ & E1 & E2 & E3 & _). unfold tree_of. by rewrite E1, E2, E3. Qed.
Lemma same_file_block i i' : same_file i i' -> block_of i' = block_of i.
Proof. intros H. unfold block_of. by rewrite (same_file_tree _ _ [] H). Qed.
Lemma same_file_slots F i i' : same_file i i' -> fslots F i' = fslots F i.
Proof. intros (_ & _ & _ & _ & E1 & _ & E2 & _). unfold fslots. by rewrite E1, E2. Qed.
Lemma same_file_apart F i i' j j' : same_file i i' -> same_file j j' -> file_apart F i j -> file_apart F i' j'.
Proof.
  intros Hi Hj (A1 & A2 & A3 & A4). unfold file_apart.
  rewrite (same_file_slots _ i i'), (same_file_block i i'), (same_file_slots _ j j'), (same_file_block j j') by done.
  destruct Hi as (-> & _ & _ & _ & -> & _), Hj as (-> & _ & _ & _ & -> & _). done.
Qed.

Definition size_ok (i : dram_inode) : Prop :=
  0 <= i_size i < 2 ^ 43 /\ (i_size i mod PAGE_SIZE <> 0 -> block_of i (i_size i / PAGE_SIZE) <> 0).

Lemma file_ok_attrs s i i' : file_ok sb s i -> same_file i i' -> size_ok i' -> file_ok sb s i'.
Proof.
  intros [O1 O2 O3 O4 O5 O6 O7 O8 O9 O10 O11 O12] Hsame Hsz.
  pose proof (same_file_block i i' Hsame) as Eb. pose proof (same_file_slots (filents s) i i' Hsame) as Es.
  destruct Hsame as (E1 & E2 & E3 & E4 & E5 & E6 & E7 & E8).
  constructor; rewrite ?Es, ?Eb, ?E1, ?E5, ?E6, ?E8; try done.
  - unfold tree_of. by rewrite E2, E3, E4.
  - unfold size_ok in Hsz. by rewrite Eb in Hsz.
Qed.

Lemma files_inv_mono s s' P :
  files_inv sb s P ->
  (forall p i, p ∈ P -> inodes s !! p = Some i -> exists i', inodes s' !! p = Some i' /\ same_file i i' /\ i_size i' = i_size i) ->
  filents s' = filents s -> NoDup (entry_arena s') -> (forall d, d ∈ entry_arena s' -> 0 < d < 2 ^ 62) ->
  (forall p i fe, p ∈ P -> inodes s !! p = Some i -> fe ∈ i_list i -> fe ∉ entry_arena s') ->
  (exists u, btree_arena s = u ++ btree_arena s') ->
  sa_inv (map_file s') -> (forall k, sa_valid (map_file s') k <-> sa_valid (map_file s) k) ->
  (forall k, sa_valid (map_file s) k -> sa_used (map_file s) k = true -> sa_used (map_file s') k = true) ->
  data_ok sb (map_data s') ->
  (forall q, 0 <= q < slot_num (sb_data sb) -> sa_used (map_data s) q = true -> sa_used (map_data s') q = true) ->
  (forall k, 0 <= k < slot_num (sb_file sb) -> agree (IDX2FENT sb k) 40 (bytes (dev s)) (bytes (dev s'))) ->
  (forall p i, p ∈ P -> inodes s !! p = Some i ->
     pm_head sb (bytes (dev s')) (i_ino i) = pm_head sb (bytes (dev s)) (i_ino i)) ->
  files_inv sb s' P.
Proof.
  intros Hinv Hin Ef Hnd Ha Hfree Hb Hmi Hmv Hmu Hd Hu Hag Hh. destruct Hinv as [[S1 S2 S3 S4 S5 S6] He Hap]. constructor.
  - constructor; try done; [intros k; by rewrite Hmv|].
    apply Hmu; [|done]. apply S3. destruct Hlo as [_ _ _ (_ & _ & [? _] & _) _ _]. unfold region_ok in *. lia.
  - intros p Hp. destruct (He p Hp) as (i & Hi & Hok). destruct (Hin p i Hp Hi) as (i' & Hi' & Hs & Hsz). exists i'. split; [done|].
    apply (file_ok_attrs s' i); [|done|unfold size_ok; rewrite Hsz, (same_file_block i i' Hs); apply Hok].
    apply (file_ok_frame sb s s' i Hok); [by rewrite Ef|intros fe Hfe; by apply (Hfree p i)|done| | | |].
    + intros k q Hk Hq. rewrite (co_data _ _ _ _ _ _ (fo_core _ _ _ Hok) k q Hk Hq). apply Hu.
      * apply phys_inv in Hq as (Hnz & e & Hq & ->).
        destruct (core_entry _ _ _ _ _ _ _ (fo_core _ _ _ Hok) Hk Hnz) as (e' & He' & _ & _ & _ & _ & _ & _ & _ & ?).
        by replace e with e' by congruence.
      * by apply (co_data _ _ _ _ _ _ (fo_core _ _ _ Hok) k q).
    + intros k Hk. destruct (fo_slots _ _ _ Hok k Hk). apply Hmu; [|done]. apply S3. lia.
    + intros k Hk. apply Hag. destruct (fo_slots _ _ _ Hok k Hk). lia.
    + by apply (Hh p).
  - intros p q i' j' Hp Hq Hne Hi' Hj'. rewrite Ef. destruct (He p Hp) as (i & Hi & _). destruct (He q Hq) as (j & Hj & _).
    destruct (Hin p i Hp Hi) as (x & Hx & Hs & _). destruct (Hin q j Hq Hj) as (z & Hz & Ht & _).
    rewrite Hx in Hi'. injection Hi' as <-. rewrite Hz in Hj'. injection Hj' as <-.
    apply (same_file_apart _ i x j z Hs Ht). by apply (Hap p q).
Qed.

Lemma files_inv_frame s s' P :
  files_inv sb s P -> inodes s' = inodes s -> filents s' = filents s -> entry_arena s' = entry_arena s ->
  btree_arena s' = btree_arena s -> map_file s' = map_file s -> data_ok sb (map_data s') ->
  (forall q, 0 <= q < slot_num (sb_data sb) -> sa_used (map_data s) q = true -> sa_used (map_data s') q = true) ->
  (forall k, 0 <= k < slot_num (sb_file sb) -> agree (IDX2FENT sb k) 40 (bytes (dev s)) (bytes (dev s'))) ->
  (forall p i, p ∈ P -> inodes s !! p = Some i ->
     pm_head sb (bytes (dev s')) (i_ino i) = pm_head sb (bytes (dev s)) (i_ino i)) ->
  files_inv sb s' P.
Proof.
  intros Hinv Ei Ef Ea Eb Em Hd Hu Hag Hh. pose proof (fv_shared _ _ _ Hinv) as [S1 S2 S3 S4 S5 S6].
  apply (files_inv_mono s s'); rewrite ?Ea, ?Em, ?Eb; try done; [| |by exists []].
  - intros p i _ Hi. exists i. rewrite Ei. done.
  - intros p i fe Hp Hi Hfe. destruct (fv_each _ _ _ Hinv p Hp) as (i0 & Hi0 & Hok). rewrite Hi in Hi0. injection Hi0 as <-.
    by apply (fo_busy _ _ _ Hok).
Qed.

Lemma files_inv_attrs s P p i i' :
  files_inv sb s P -> p ∈ P -> inodes s !! p = Some i -> same_file i i' -> size_ok i' ->
  files_inv sb (upd_inodes <[p := i']> s) P.
Proof.
  intros [Hsh He Hap] Hp Hi Hsame Hsz.
  assert (forall q j, q ∈ P -> <[p := i']> (inodes s) !! q = Some j ->
    exists j0, inodes s !! q = Some j0 /\ same_file j0 j /\ (size_ok j0 -> size_ok j)) as Hback.
  { intros q j Hq. destruct (decide (q = p)) as [->|Hne].
    - rewrite lookup_insert_eq. intros [= <-]. by exists i.
    - rewrite lookup_insert_ne by done. intros Hj. by exists j. }
  constructor.
  - destruct Hsh. by constructor.
  - intros q Hq. assert (is_Some (<[p := i']> (inodes s) !! q)) as [j Hj].
    { apply lookup_insert_is_Some'. right. destruct (He q Hq) as (j & Hj & _). by exists j. }
    exists j. split; [exact Hj|]. destruct (Hback q j Hq Hj) as (j0 & Hj0 & Hs & Hz). destruct (He q Hq) as (x & Hx & Hok).
    rewrite Hj0 in Hx. injection Hx as <-. apply (file_ok_attrs _ j0); [|done|apply Hz, Hok]. destruct Hok. by constructor.
  - intros q1 q2 j1 j2 Hq1 Hq2 Hne Hj1 Hj2. destruct (Hback q1 j1 Hq1 Hj1) as (k1 & Hk1 & Hs1 & _).
    destruct (Hback q2 j2 Hq2 Hj2) as (k2 & Hk2 & Hs2 & _). apply (same_file_apart _ k1 j1 k2 j2 Hs1 Hs2). by apply (Hap q1 q2).
Qed.

(** One more file. *)
Lemma files_inv_cons s P p i :
  files_inv sb s P -> inodes s !! p = Some i -> file_ok sb s i ->
  (forall q j, q ∈ P -> inodes s !! q = Some j -> file_apart (filents s) i j) -> files_inv sb s (p :: P).
Proof.
  intros [Hsh He Hap] Hi Hok Hnew. constructor; [done| |].
  - intros q [->|Hq]%elem_of_cons; [by exists i|by apply He].
  - intros q r j k [->|Hq]%elem_of_cons [->|Hr]%elem_of_cons Hne Hj Hk; [done| | |by apply (Hap q r)].
    + rewrite Hi in Hj. injection Hj as <-. by apply (Hnew r).
    + rewrite Hi in Hk. injection Hk as <-. apply file_apart_sym. by apply (Hnew q).
Qed.

(** ** Data pages *)

Lemma page_apart q1 q2 :
  0 <= q1 < slot_num (sb_data sb) -> 0 <= q2 < slot_num (sb_data sb) -> q1 <> q2 ->
  IDX2DATA sb q1 + 4096 <= IDX2DATA sb q2 \/ IDX2DATA sb q2 + 4096 <= IDX2DATA sb q1.
Proof. intros. rewrite !(IDX2DATA_eq sb Hlo) by done. lia. Qed.

(** The data address of a block that has an entry. *)
Lemma block_data s i k :
  file_ok sb s i -> 0 <= k -> block_of i k <> 0 ->
  exists e q, filents s !! block_of i k = Some e /\ phys (filents s) (block_of i) k = Some q /\
    data_addr sb e k = IDX2DATA sb q /\ 0 <= q < slot_num (sb_data sb) /\ sa_used (map_data s) q = true.
Proof.
  intros Hok Hk Hnz.
  destruct (core_entry _ _ _ _ _ _ _ (fo_core _ _ _ Hok) Hk Hnz) as (e & He & _ & _ & _ & _ & _ & _ & Hph & Hr).
  exists e, (slot_of e k). split_and!; try done; [|lia|lia|by apply (co_data _ _ _ _ _ _ (fo_core _ _ _ Hok) k)].
  unfold data_addr. fold (slot_of e k). rewrite u64_small; [done|].
  destruct Hlo as [_ _ _ (_ & _ & _ & [? _]) _ _]. lia.
Qed.

(** The slots from [r] are free in [s] and taken in [b]. *)
Record fresh_range (s : fs) (r n : Z) (b : list dram_bitmap) : Prop := {
  fr_pos : 0 < n;
  fr_data : data_ok sb b;
  fr_free q : r <= q < r + n -> 0 <= q < slot_num (sb_data sb) /\ sa_used (map_data s) q = false;
  fr_used q : 0 <= q < slot_num (sb_data sb) ->
    sa_used b q = sa_used (map_data s) q || ((r <=? q) && (q <? r + n));
}.

Lemma fresh_base s r n b d : fresh_range s r n b -> 0 <= d < n -> IDX2DATA sb (r + d) = IDX2DATA sb r + 4096 * d.
Proof.
  intros [Hn _ Hf _] Hd. rewrite !(IDX2DATA_eq sb Hlo); [lia|apply Hf; lia|apply Hf; lia].
Qed.
Lemma fresh_page_apart s r n b q :
  fresh_range s r n b -> 0 <= q < slot_num (sb_data sb) -> ~ (r <= q < r + n) ->
  IDX2DATA sb q + 4096 <= IDX2DATA sb r \/ IDX2DATA sb r + 4096 * n <= IDX2DATA sb q.
Proof.
  intros [Hn _ Hf _] Hq Hne. rewrite !(IDX2DATA_eq sb Hlo); [|apply Hf; lia|done]. lia.
Qed.
Lemma fresh_not_used s r n b q : fresh_range s r n b -> sa_used (map_data s) q = true -> ~ (r <= q < r + n).
Proof. intros Hf Hu Hr. destruct (fr_free _ _ _ _ Hf q Hr). congruence. Qed.

(** No block of the files [P] is in the slots from [r]. *)
Definition unowned (s : fs) (P : list Z) (r n : Z) : Prop :=
  forall p i k q, p ∈ P -> inodes s !! p = Some i -> 0 <= k -> phys (filents s) (block_of i) k = Some q -> ~ (r <= q < r + n).

(** The device changes only in the data slots from [r]. *)
Definition in_slots (r n : Z) (m m' : mem) : Prop :=
  forall x, ~ (IDX2DATA sb r <= x < IDX2DATA sb r + 4096 * n) -> m' x = m x.

Lemma in_slots_inv s P r n pm' :
  files_inv sb s P -> 0 <= r -> 0 < n -> r + n <= slot_num (sb_data sb) -> in_slots r n (bytes (dev s)) (bytes pm') ->
  files_inv sb (upd_dev (fun _ => pm') s) P.
Proof.
  intros Hinv Hr Hn Hrn Hm. apply (files_inv_frame s); try done; [apply Hinv| |].
  - intros k Hk x Hx. apply Hm. pose proof (fent_below_data sb Hlo k r Hk ltac:(lia)). lia.
  - intros p i Hp Hi. apply pm_head_agree. intros x Hx. apply Hm.
    destruct (fv_each _ _ _ Hinv p Hp) as (i0 & Hi0 & Hok). rewrite Hi in Hi0. injection Hi0 as <-.
    pose proof (inode_below_data sb Hlo (i_ino i) r (fo_ino _ _ _ Hok) ltac:(lia)). lia.
Qed.

Section fresh.
Context (stray : Z) (P : list Z) (p : Z) (i : dram_inode) (r n len offset : Z).
Hypothesis Hp : p ∈ P.
Hypothesis Hr : 0 <= r.
Hypothesis Hn : 0 < n.
Hypothesis Hrn : r + n <= slot_num (sb_data sb).
Hypothesis Ho : 0 <= offset.
Hypothesis Hl : 0 < len.
Hypothesis Hmax : offset + len <= 2 ^ 43 - PAGE_SIZE.
Local Definition w_k0 : Z := offset / PAGE_SIZE.
Local Definition w_po : Z := offset mod PAGE_SIZE.
Hypothesis En : n = (w_po + len + PAGE_SIZE - 1) / PAGE_SIZE.
Hypothesis Hcap : w_k0 + n - 1 < capacity (b_height i) \/ (w_po = 0 /\ (offset + len) mod PAGE_SIZE = 0).

(** The old byte that belongs at distance [d] in the slots from [r]. *)
Definition old_byte (s : fs) (d : Z) : option Z :=
  q ← phys (filents s) (block_of i) (w_k0 + d / PAGE_SIZE);
  Some (bytes (dev s) (IDX2DATA sb q + d mod PAGE_SIZE)).

(** A copy of old data to the [size] bytes at distance [d0], in one page. *)
Lemma copy_old s k d0 size :
  files_inv sb s P -> inodes s !! p = Some i -> unowned s P r n ->
  0 <= k < n -> k * PAGE_SIZE <= d0 -> 0 <= size -> d0 + size <= (k + 1) * PAGE_SIZE -> block_of i (w_k0 + k) <> 0 ->
  exists e pm', filents s !! block_of i (w_k0 + k) = Some e /\
    pm_avx_move (IDX2DATA sb r + d0) (data_addr sb e (w_k0 + k) + d0 mod PAGE_SIZE) size s = Ok (tt, upd_dev (fun _ => pm') s) /\
    in_slots r n (bytes (dev s)) (bytes pm') /\
    forall d, 0 <= d -> bytes pm' (IDX2DATA sb r + d) =
      if (d0 <=? d) && (d <? d0 + size) then default 0 (old_byte s d) else bytes (dev s) (IDX2DATA sb r + d).
Proof.
  intros Hinv Hi Hun Hk Hd0 Hsz Hd1 Hnz. destruct (fv_each _ _ _ Hinv p Hp) as (i0 & Hi0 & Hok).
  rewrite Hi in Hi0. injection Hi0 as <-.
  assert (0 <= w_k0 + k) as Hk' by (unfold w_k0, PAGE_SIZE in *; zdm).
  destruct (block_data s i (w_k0 + k) Hok Hk' Hnz) as (e & q & He & Hph & Ed & Hq & Hu).
  pose proof (Hun p i (w_k0 + k) q Hp Hi Hk' Hph) as Hnr.
  assert (0 <= d0 mod PAGE_SIZE /\ d0 mod PAGE_SIZE + size <= PAGE_SIZE) as Hd2 by (unfold PAGE_SIZE in *; zdm).
  assert (IDX2DATA sb q + 4096 <= IDX2DATA sb r \/ IDX2DATA sb r + 4096 * n <= IDX2DATA sb q) as Hap.
  { rewrite !(IDX2DATA_eq sb Hlo) by lia. lia. }
  unfold PAGE_SIZE in *.
  destruct (pm_avx_move_eq (IDX2DATA sb r + d0) (data_addr sb e (w_k0 + k) + d0 mod 4096) size s Hsz) as (m' & Hrun & Hm).
  { rewrite Ed. lia. }
  exists e, (pm_update (fun _ => m') (dev s)). split_and!; [done|exact Hrun| |].
  - intros x Hx. rewrite bytes_update, Hm.
    destruct (Z.leb_spec (IDX2DATA sb r + d0) x), (Z.ltb_spec x (IDX2DATA sb r + d0 + size)); simpl; try done. lia.
  - intros d Hd. rewrite bytes_update, Hm. unfold old_byte.
    destruct (Z.leb_spec (IDX2DATA sb r + d0) (IDX2DATA sb r + d)), (Z.ltb_spec (IDX2DATA sb r + d) (IDX2DATA sb r + d0 + size)),
      (Z.leb_spec d0 d), (Z.ltb_spec d (d0 + size)); simpl; try lia; try done.
    replace (d / PAGE_SIZE) with k by (unfold PAGE_SIZE; zdm). rewrite Hph. simpl. rewrite Ed. f_equal. unfold PAGE_SIZE. zdm.
Qed.

Lemma upd_dev_id (s : fs) : upd_dev (fun _ => dev s) s = s.
Proof. by destruct s. Qed.
Lemma upd_dev_dev (s : fs) p1 p2 : upd_dev (fun _ => p2) (upd_dev (fun _ => p1) s) = upd_dev (fun _ => p2) s.
Proof. done. Qed.

(** Old data is outside the fresh slots. *)
Lemma old_byte_stable s pm' d :
  files_inv sb s P -> inodes s !! p = Some i -> unowned s P r n -> in_slots r n (bytes (dev s)) (bytes pm') -> 0 <= d ->
  old_byte (upd_dev (fun _ => pm') s) d = old_byte s d.
Proof.
  intros Hinv Hi Hun Hin Hd. unfold old_byte. fsimpl. set (k := w_k0 + d / PAGE_SIZE).
  assert (0 <= k) as Hk by (unfold k, w_k0, PAGE_SIZE in *; zdm).
  destruct (phys (filents s) (block_of i) k) as [q|] eqn:Hph; [|done]. simpl. f_equal. apply Hin.
  destruct (fv_each _ _ _ Hinv p Hp) as (i0 & Hi0 & Hok). rewrite Hi in Hi0. injection Hi0 as <-.
  pose proof (Hun p i k q Hp Hi Hk Hph). apply phys_inv in Hph as (Hnz & e & He & ->).
  destruct (core_entry _ _ _ _ _ _ _ (fo_core _ _ _ Hok) Hk Hnz) as (e' & He' & _ & _ & _ & _ & _ & _ & _ & Hq).
  replace e' with e in Hq by congruence.
  assert (0 <= d mod PAGE_SIZE < PAGE_SIZE) by (apply Z.mod_pos_bound; done). unfold PAGE_SIZE in *.
  rewrite !(IDX2DATA_eq sb Hlo) by lia. lia.
Qed.

Lemma w_k0_pos : 0 <= w_k0.
Proof. unfold w_k0, PAGE_SIZE. zdm. Qed.
Lemma w_po_range : 0 <= w_po < 4096.
Proof. unfold w_po, PAGE_SIZE. zdm. Qed.
Lemma w_start : w_k0 * PAGE_SIZE + w_po = offset.
Proof. unfold w_k0, w_po, PAGE_SIZE. zdm. Qed.
Lemma w_max : offset + len < 2 ^ 43.
Proof. unfold PAGE_SIZE in *. lia. Qed.
Lemma w_blocks : w_k0 + n < 2 ^ 31.
Proof.
  pose proof w_start. assert (n * PAGE_SIZE <= w_po + len + PAGE_SIZE - 1) by (rewrite En; unfold PAGE_SIZE; zdm).
  unfold PAGE_SIZE in *. lia.
Qed.

Lemma copy_head_spec s :
  files_inv sb s P -> inodes s !! p = Some i -> unowned s P r n ->
  exists pm', copy_head sb stray p (IDX2DATA sb r) w_po w_k0 s = Ok (tt, upd_dev (fun _ => pm') s) /\
    in_slots r n (bytes (dev s)) (bytes pm') /\
    forall d, 0 <= d -> bytes pm' (IDX2DATA sb r + d) =
      if d <? w_po then default (bytes (dev s) (IDX2DATA sb r + d)) (old_byte s d) else bytes (dev s) (IDX2DATA sb r + d).
Proof.
  intros Hinv Hi Hun. pose proof w_k0_pos. pose proof w_po_range. unfold copy_head.
  destruct (Z.eqb_spec w_po 0) as [Hz|Hz]; simpl (negb _); cbv iota.
  { exists (dev s). rewrite upd_dev_id. split_and!; try done. intros d Hd. destruct (Z.ltb_spec d w_po); [lia|done]. }
  destruct Hcap as [Hc|[? _]]; [|done].
  destruct (fv_each _ _ _ Hinv p Hp) as (i0 & Hi0 & Hok). rewrite Hi in Hi0. injection Hi0 as <-.
  mstep (filent_lookup_spec sb stray p w_k0 s i Hi Hok ltac:(lia)).
  assert (Hk0 : forall d, 0 <= d < w_po -> w_k0 + d / PAGE_SIZE = w_k0) by (intros d Hd; unfold PAGE_SIZE in *; zdm).
  destruct (Z.eqb_spec (block_of i w_k0) 0) as [Hb|Hb]; simpl (negb _); cbv iota.
  - exists (dev s). rewrite upd_dev_id. split_and!; try done. intros d Hd. destruct (Z.ltb_spec d w_po); [|done].
    unfold old_byte. rewrite Hk0 by lia. unfold phys. by rewrite Hb.
  - destruct (copy_old s 0 0 w_po) as (e & pm' & He & Hrun & Hin & Hby);
      [done|done|done|lia|lia|lia|unfold PAGE_SIZE; lia|by rewrite Z.add_0_r|].
    rewrite !Z.add_0_r in Hrun. rewrite Z.add_0_r in He. change (0 mod PAGE_SIZE) with 0 in Hrun. rewrite ?Z.add_0_r in Hrun.
    exists pm'. split_and!; [|done|].
    + mstep (rd_filent_eq _ _ _ He). exact Hrun.
    + intros d Hd. rewrite Hby by done. destruct (Z.leb_spec 0 d); [|lia]. simpl. rewrite Z.add_0_l.
      destruct (Z.ltb_spec d w_po); [|done]. unfold old_byte. rewrite Hk0 by lia.
      destruct (block_data s i w_k0 Hok ltac:(lia) Hb) as (? & q & _ & -> & _). done.
Qed.

Lemma w_end : (offset + len) mod PAGE_SIZE = (w_po + len) mod PAGE_SIZE.
Proof. unfold w_po, PAGE_SIZE. zdm. Qed.
(** Where the range ends in the fresh slots. *)
Lemma w_last : (w_po + len) mod PAGE_SIZE <> 0 -> w_po + len = (n - 1) * PAGE_SIZE + (w_po + len) mod PAGE_SIZE.
Proof. rewrite En. unfold PAGE_SIZE. intros. zdm. Qed.
Lemma w_full : (w_po + len) mod PAGE_SIZE = 0 -> w_po + len = n * PAGE_SIZE.
Proof. rewrite En. unfold PAGE_SIZE. intros. zdm. Qed.
Lemma w_fits : w_po + len <= n * PAGE_SIZE.
Proof. rewrite En. unfold PAGE_SIZE. zdm. Qed.

Lemma copy_tail_spec s :
  files_inv sb s P -> inodes s !! p = Some i -> unowned s P r n ->
  exists pm', copy_tail sb stray p r n w_po w_k0 len len offset s = Ok (tt, upd_dev (fun _ => pm') s) /\
    in_slots r n (bytes (dev s)) (bytes pm') /\
    forall d, 0 <= d < n * PAGE_SIZE -> bytes pm' (IDX2DATA sb r + d) =
      if w_po + len <=? d then default (bytes (dev s) (IDX2DATA sb r + d)) (old_byte s d)
      else bytes (dev s) (IDX2DATA sb r + d).
Proof.
  intros Hinv Hi Hun. pose proof w_k0_pos. pose proof w_po_range. pose proof w_fits. unfold copy_tail.
  pose proof w_k0_pos. pose proof w_blocks. pose proof w_max.
  cbv zeta. rewrite (u64_small (w_po + len)), (u64_small (w_k0 + n - 1)), (u64_small (offset + len)), (u64_small (r + n - 1))
    by (destruct Hlo as [_ _ _ (_ & _ & _ & [? _]) _ _]; lia).
  rewrite (land_page_mask (w_po + len)), (land_page_mask (offset + len)), w_end by lia.
  destruct (Z.eqb_spec ((w_po + len) mod PAGE_SIZE) 0) as [Hz|Hz]; simpl (negb _); cbv iota.
  { exists (dev s). rewrite upd_dev_id. split_and!; try done. intros d Hd. pose proof (w_full Hz).
    destruct (Z.leb_spec (w_po + len) d); [lia|done]. }
  destruct Hcap as [Hc|[_ Hx]]; [|by rewrite w_end in Hx]. pose proof (w_last Hz) as El.
  set (eo := (w_po + len) mod PAGE_SIZE) in *. assert (0 < eo < 4096) by (unfold eo, PAGE_SIZE in *; zdm).
  destruct (fv_each _ _ _ Hinv p Hp) as (i0 & Hi0 & Hok). rewrite Hi in Hi0. injection Hi0 as <-. cbv zeta.
  mstep (filent_lookup_spec sb stray p (w_k0 + n - 1) s i Hi Hok ltac:(lia)).
  assert (Hk1 : forall d, w_po + len <= d < n * PAGE_SIZE -> w_k0 + d / PAGE_SIZE = w_k0 + n - 1).
  { intros d Hd. unfold PAGE_SIZE in *. zdm. }
  destruct (Z.eqb_spec (block_of i (w_k0 + n - 1)) 0) as [Hb|Hb]; simpl (negb _); cbv iota.
  - exists (dev s). rewrite upd_dev_id. split_and!; try done. intros d Hd.
    destruct (Z.leb_spec (w_po + len) d); [|done]. unfold old_byte. rewrite Hk1 by lia. unfold phys. by rewrite Hb.
  - assert (w_k0 + (n - 1) = w_k0 + n - 1) as Ek by lia.
    destruct (copy_old s (n - 1) ((n - 1) * PAGE_SIZE + eo) (PAGE_SIZE - eo)) as (e & pm' & He & Hrun & Hin & Hby);
      [done|done|done|lia|unfold PAGE_SIZE in *; lia|unfold PAGE_SIZE in *; lia|unfold PAGE_SIZE in *; lia|by rewrite Ek|].
    rewrite Ek in He, Hrun. exists pm'. split_and!; [|done|].
    + mstep (rd_filent_eq _ _ _ He). replace (((n - 1) * PAGE_SIZE + eo) mod PAGE_SIZE) with eo in Hrun by (unfold PAGE_SIZE in *; zdm).
      rewrite <- Hrun. f_equal. rewrite !(IDX2DATA_eq sb Hlo) by lia. unfold PAGE_SIZE. lia.
    + intros d Hd. rewrite Hby by lia. replace ((n - 1) * PAGE_SIZE + eo + (PAGE_SIZE - eo)) with (n * PAGE_SIZE) by lia.
      rewrite <- El. destruct (Z.leb_spec (w_po + len) d); [|done]. destruct (Z.ltb_spec d (n * PAGE_SIZE)); [|lia]. simpl.
      unfold old_byte. rewrite Hk1 by lia.
      destruct (block_data s i (w_k0 + n - 1) Hok ltac:(lia) Hb) as (? & q & _ & -> & _). done.
Qed.

Lemma unowned_fresh s b : files_inv sb s P -> fresh_range s r n b -> unowned s P r n.
Proof.
  intros Hinv Hf p0 i0 k q Hp0 Hi0 Hk Hq. destruct (fv_each _ _ _ Hinv p0 Hp0) as (i1 & Hi1 & Hok).
  rewrite Hi0 in Hi1. injection Hi1 as <-. apply (fresh_not_used s r n b q Hf).
  by apply (co_data _ _ _ _ _ _ (fo_core _ _ _ Hok) k).
Qed.
Lemma alloc_inv s b : files_inv sb s P -> fresh_range s r n b -> files_inv sb (upd_map_data (fun _ => b) s) P.
Proof.
  intros Hinv Hf. apply (files_inv_frame s); try done; [apply Hf|]. intros q Hq Hu. fsimpl.
  rewrite (fr_used _ _ _ _ Hf q Hq). by rewrite Hu.
Qed.

Lemma ebuf_add_eq eb l p0 k s E :
  zget (ebuf_mgr s) eb = Ok E -> eb_num E = 0 -> 0 < zlength (eb_arr E) ->
  ebuf_add eb l p0 k s = Ok (tt, upd_ebuf_mgr (fun _ => <[Z.to_nat eb :=
    mk_ebuf (<[0%nat := mk_unit k l p0]> (eb_arr E)) 1 (eb_size E) (eb_idx E) (eb_locked E)]> (ebuf_mgr s)) s).
Proof.
  intros Hg Hnum Hlen. unfold ebuf_add. mstep eq_refl. erewrite M_bind_step by (unfold lift; by rewrite Hg).
  rewrite Hnum. erewrite M_bind_step by (unfold lift; rewrite zset_in by lia; reflexivity).
  apply zget_Ok in Hg as [Hge Hg]. pose proof (lookup_lt_Some _ _ _ Hg).
  erewrite M_bind_step by (unfold lift; rewrite zset_in by (unfold zlength; lia); reflexivity). done.
Qed.

Lemma write_fresh_spec cpu ub buf eb s b E :
  files_inv sb s P -> inodes s !! p = Some i -> fresh_range s r n b ->
  do_slot_alloc_range MAP_NUM cpu (map_data s) n = Ok (r, n, b) ->
  zget (ebuf_mgr s) eb = Ok E -> eb_num E = 0 -> 0 < zlength (eb_arr E) ->
  exists pm', write_fresh sb cpu stray p ub len offset eb (mk_w offset buf len n 0) s =
      Ok ((len, n), upd_ebuf_mgr (fun _ => <[Z.to_nat eb := mk_ebuf (<[0%nat := mk_unit n w_k0 r]> (eb_arr E)) 1
            (eb_size E) (eb_idx E) (eb_locked E)]> (ebuf_mgr s)) (upd_dev (fun _ => pm') (upd_map_data (fun _ => b) s))) /\
    in_slots r n (bytes (dev s)) (bytes pm') /\
    forall d, 0 <= d < n * PAGE_SIZE -> bytes pm' (IDX2DATA sb r + d) =
      if (w_po <=? d) && (d <? w_po + len) then ub (buf + (d - w_po))
      else default (bytes (dev s) (IDX2DATA sb r + d)) (old_byte s d).
Proof.
  intros Hinv Hi Hf Hall Hg Hnum Harr. pose proof w_k0_pos. pose proof w_po_range. pose proof w_fits.
  pose proof w_k0_pos. pose proof w_blocks. pose proof w_max.
  set (s1 := upd_map_data (fun _ => b) s). pose proof (alloc_inv s b Hinv Hf) as Hinv1. fold s1 in Hinv1.
  pose proof (unowned_fresh s b Hinv Hf) as Hun.
  destruct (copy_head_spec s1 Hinv1 Hi Hun) as (pm1 & Hrun1 & Hin1 & Hb1).
  set (s2 := upd_dev (fun _ => pm1) s1) in *.
  assert (files_inv sb s2 P) as Hinv2 by (by apply (in_slots_inv s1 P r n)).
  destruct (copy_tail_spec s2 Hinv2 Hi Hun) as (pm2 & Hrun2 & Hin2 & Hb2).
  set (s3 := upd_dev (fun _ => pm2) s2) in *.
  destruct (pm_avx_from_eq ub (IDX2DATA sb r + w_po) buf len s3 ltac:(lia)) as (m3 & Hrun3 & Hb3).
  exists (pm_update (fun _ => m3) pm2). split_and!.
  - unfold write_fresh. cbn [w_c w_buf w_count w_num_blk]. rewrite land_page_mask by lia. rewrite shiftr_page.
    fold w_po w_k0. erewrite M_bind_step.
    2: { unfold slot_data_alloc. mstep eq_refl. erewrite M_bind_step by (unfold lift; by rewrite Hall). reflexivity. }
    cbv beta iota zeta. fold s1. rewrite (u64_small r) by (destruct Hlo as [_ _ _ (_ & _ & _ & [? _]) _ _]; lia).
    rewrite (u64_small (PAGE_SIZE * n - w_po)) by (unfold PAGE_SIZE in *; lia).
    assert ((if PAGE_SIZE * n - w_po >? len then len else PAGE_SIZE * n - w_po) = len) as ->
      by (destruct (Z.gtb_spec (PAGE_SIZE * n - w_po) len); lia).
    mstep Hrun1. mstep Hrun2. mstep Hrun3.
    erewrite M_bind_step by (apply (ebuf_add_eq eb _ _ _ _ E); done). done.
  - intros x Hx. rewrite bytes_update, Hb3. unfold PAGE_SIZE in *.
    destruct (Z.leb_spec (IDX2DATA sb r + w_po) x), (Z.ltb_spec x (IDX2DATA sb r + w_po + len)); simpl; try lia;
      (change (bytes pm2 x = bytes (dev s) x); rewrite Hin2 by done; by apply Hin1).
  - intros d Hd. rewrite bytes_update, Hb3. pose proof (old_byte_stable s1 pm1 d Hinv1 Hi Hun Hin1 ltac:(lia)) as Eo.
    destruct (Z.leb_spec (IDX2DATA sb r + w_po) (IDX2DATA sb r + d)), (Z.ltb_spec (IDX2DATA sb r + d) (IDX2DATA sb r + w_po + len)),
      (Z.leb_spec w_po d), (Z.ltb_spec d (w_po + len)); simpl; try lia; [f_equal; lia|..].
    all: change (bytes pm2 (IDX2DATA sb r + d) = default (bytes (dev s) (IDX2DATA sb r + d)) (old_byte s1 d)).
    all: rewrite Hb2 by done; change (bytes (dev s2)) with (bytes pm1); rewrite Hb1 by lia.
    all: rewrite (Eo : old_byte s2 d = old_byte s1 d).
    all: destruct (Z.leb_spec (w_po + len) d), (Z.ltb_spec d w_po); try lia; done.
Qed.
Record file_written (s s' : fs) (i' : dram_inode) (ub : mem) (buf : Z) : Prop := {
  fw_range o : offset <= o < offset + len -> file_byte sb s' i' o = ub (buf + (o - offset));
  fw_rest o : 0 <= o -> ~ (offset <= o < offset + len) ->
    phys (filents s) (block_of i) (o / PAGE_SIZE) <> None \/ ~ (w_k0 <= o / PAGE_SIZE < w_k0 + n) ->
    file_byte sb s' i' o = file_byte sb s i o;
  fw_other q j o : q ∈ P -> q <> p -> inodes s !! q = Some j -> 0 <= o -> file_byte sb s' j o = file_byte sb s j o;
  fw_block k : w_k0 <= k < w_k0 + n -> block_of i' k = block_of i' w_k0 /\ block_of i' k <> 0;
  fw_kept k : 0 <= k -> block_of i k <> 0 -> block_of i' k <> 0;
}.

(** The entry written by the append is below the data area. *)
Lemma appended_dev s4 s' i' fe t q x :
  files_inv sb s4 P -> inodes s4 !! p = Some i ->
  file_appended sb s4 s' p i i' fe (mk_pf w_k0 r n t) -> 0 <= q < slot_num (sb_data sb) -> 0 <= x ->
  bytes (dev s') (IDX2DATA sb q + x) = bytes (dev s4) (IDX2DATA sb q + x).
Proof.
  intros Hinv Hi Happ Hq Hx. destruct (fa_dev _ _ _ _ _ _ _ _ Happ) as (fno & Hfno & Hag).
  destruct (fv_each _ _ _ Hinv p Hp) as (i0 & Hi0 & Hok). rewrite Hi in Hi0. injection Hi0 as <-.
  destruct (fo_slots _ _ _ Hok fno Hfno) as [Hfb _]. pose proof (fent_below_data sb Hlo fno q ltac:(lia) Hq).
  apply (Hag (IDX2DATA sb q + x) 1); lia.
Qed.

Lemma page_shift o k : k + (o - k * PAGE_SIZE) / PAGE_SIZE = o / PAGE_SIZE /\ (o - k * PAGE_SIZE) mod PAGE_SIZE = o mod PAGE_SIZE.
Proof.
  replace (o - k * PAGE_SIZE) with (o + - k * PAGE_SIZE) by lia.
  rewrite Z.div_add, Z.mod_add by done. split; [lia|done].
Qed.

(** A block that had data keeps it, unless it is written. *)
Lemma kept_byte s s4 s' j k q x :
  files_inv sb s P -> unowned s P r n -> in_slots r n (bytes (dev s)) (bytes (dev s4)) ->
  (forall q x, 0 <= q < slot_num (sb_data sb) -> 0 <= x -> bytes (dev s') (IDX2DATA sb q + x) = bytes (dev s4) (IDX2DATA sb q + x)) ->
  (exists p0, p0 ∈ P /\ inodes s !! p0 = Some j) -> 0 <= k -> phys (filents s) (block_of j) k = Some q -> 0 <= x < PAGE_SIZE ->
  bytes (dev s') (IDX2DATA sb q + x) = bytes (dev s) (IDX2DATA sb q + x).
Proof.
  intros Hinv Hun Hin Hd (p0 & Hp0 & Hj) Hk Hph Hx. pose proof (Hun p0 j k q Hp0 Hj Hk Hph) as Hnr.
  destruct (fv_each _ _ _ Hinv p0 Hp0) as (j0 & Hj0 & Hok). rewrite Hj in Hj0. injection Hj0 as <-.
  apply phys_inv in Hph as (Hnz & e & He & ->).
  destruct (core_entry _ _ _ _ _ _ _ (fo_core _ _ _ Hok) Hk Hnz) as (e' & He' & _ & _ & _ & _ & _ & _ & _ & Hq).
  replace e' with e in Hq by congruence. rewrite Hd by lia. apply Hin. unfold PAGE_SIZE in *.
  rewrite !(IDX2DATA_eq sb Hlo) by lia. lia.
Qed.

Lemma written_of s s4 s' b i' fe t ub buf :
  files_inv sb s P -> inodes s !! p = Some i -> fresh_range s r n b ->
  files_inv sb s4 P -> inodes s4 = inodes s -> filents s4 = filents s -> 0 < fe < 2 ^ 62 ->
  in_slots r n (bytes (dev s)) (bytes (dev s4)) ->
  (forall d, 0 <= d < n * PAGE_SIZE -> bytes (dev s4) (IDX2DATA sb r + d) =
      if (w_po <=? d) && (d <? w_po + len) then ub (buf + (d - w_po))
      else default (bytes (dev s) (IDX2DATA sb r + d)) (old_byte s d)) ->
  file_appended sb s4 s' p i i' fe (mk_pf w_k0 r n t) -> file_written s s' i' ub buf.
Proof.
  intros Hinv Hi Hf Hinv4 Ei Ef Hfe Hin Hby Happ. pose proof (unowned_fresh s b Hinv Hf) as Hun.
  assert (inodes s4 !! p = Some i) as Hi4 by (by rewrite Ei).
  pose proof (fun q x => appended_dev s4 s' i' fe t q x Hinv4 Hi4 Happ) as Hd.
  pose proof w_k0_pos. pose proof w_po_range. pose proof w_fits.
  assert (Hin_new : forall o, 0 <= o -> w_k0 <= o / PAGE_SIZE < w_k0 + n -> file_byte sb s' i' o =
    bytes (dev s4) (IDX2DATA sb r + (o - w_k0 * PAGE_SIZE)) /\ 0 <= o - w_k0 * PAGE_SIZE < n * PAGE_SIZE).
  { intros o Hoo Hk. unfold file_byte. rewrite (fa_phys _ _ _ _ _ _ _ _ Happ) by (unfold PAGE_SIZE in *; zdm).
    cbn [pf_l_idx pf_p_idx pf_blocks]. rewrite decide_True by done. split; [|unfold PAGE_SIZE in *; zdm].
    rewrite Hd by (unfold PAGE_SIZE in *; zdm). f_equal. rewrite (fresh_base s r n b) by (done || lia). unfold PAGE_SIZE in *. zdm. }
  pose proof w_start.
  constructor.
  - intros o Hor. destruct (Hin_new o) as [-> Hr']; [lia|unfold w_k0, PAGE_SIZE in *; zdm|]. rewrite Hby by done.
    destruct (Z.leb_spec w_po (o - w_k0 * PAGE_SIZE)), (Z.ltb_spec (o - w_k0 * PAGE_SIZE) (w_po + len)); simpl; try lia. f_equal. lia.
  - intros o Hoo Hnr Hor. destruct (decide (w_k0 <= o / PAGE_SIZE < w_k0 + n)) as [Hk|Hk].
    + destruct Hor as [Hph|]; [|done]. destruct (Hin_new o Hoo Hk) as [-> Hr']. rewrite Hby by done.
      destruct (Z.leb_spec w_po (o - w_k0 * PAGE_SIZE)), (Z.ltb_spec (o - w_k0 * PAGE_SIZE) (w_po + len)); simpl; try lia.
      all: unfold old_byte, file_byte; destruct (page_shift o w_k0) as [-> ->].
      all: by destruct (phys (filents s) (block_of i) (o / PAGE_SIZE)).
    + unfold file_byte. rewrite (fa_phys _ _ _ _ _ _ _ _ Happ) by (unfold PAGE_SIZE in *; zdm).
      cbn [pf_l_idx pf_p_idx pf_blocks]. rewrite decide_False by done. rewrite Ef.
      destruct (phys (filents s) (block_of i) (o / PAGE_SIZE)) as [q|] eqn:Hph; [|done].
      apply (kept_byte s s4 s' i (o / PAGE_SIZE)); try done; [by exists p|unfold PAGE_SIZE in *; zdm|apply Z.mod_pos_bound; done].
  - intros q j o Hq Hne Hj Hoo. unfold file_byte.
    destruct (fv_each _ _ _ Hinv q Hq) as (j0 & Hj0 & Hok). rewrite Hj in Hj0. injection Hj0 as <-.
    rewrite (phys_frame sb (filents s) (filents s') _ _ j (o / PAGE_SIZE) (fo_core _ _ _ Hok)); [| |unfold PAGE_SIZE; zdm].
    + destruct (phys (filents s) (block_of j) (o / PAGE_SIZE)) as [x|] eqn:Hph; [|done].
      apply (kept_byte s s4 s' j (o / PAGE_SIZE)); try done; [by exists q|unfold PAGE_SIZE in *; zdm|apply Z.mod_pos_bound; done].
    + intros x Hx. rewrite <- Ef. destruct (fv_apart _ _ _ Hinv p q i j Hp Hq ltac:(done) Hi Hj) as (_ & A2 & _).
      assert (file_ok sb s4 j) as Hok4.
      { destruct (fv_each _ _ _ Hinv4 q Hq) as (j0 & Hj0 & ?). rewrite Ei, Hj in Hj0. by injection Hj0 as <-. }
      apply (fa_other _ _ _ _ _ _ _ _ Happ); [|by apply (fo_busy _ _ _ Hok4)]. intros Hx'. by apply (A2 x).
  - intros k Hk. rewrite !(fa_block _ _ _ _ _ _ _ _ Happ) by lia. cbn [pf_l_idx pf_blocks].
    rewrite !assign_in by lia. lia.
  - intros k Hk Hnz. rewrite (fa_block _ _ _ _ _ _ _ _ Happ) by done. cbn [pf_l_idx pf_blocks].
    destruct (decide (w_k0 <= k < w_k0 + n)); [rewrite assign_in by done; lia|by rewrite assign_out].
Qed.

(** The entry for the fresh slots is appended in [s4], which differs from [s]
    in the bitmap and in the contents of those slots. *)
Lemma append_fresh cpu junk ub buf s s4 b t :
  files_inv sb s P -> inodes s !! p = Some i -> fresh_range s r n b -> is_symlink i = false -> 0 <= cpu -> - 2 ^ 63 <= t < 2 ^ 63 ->
  files_inv sb s4 P -> inodes s4 = inodes s -> filents s4 = filents s -> map_data s4 = b ->
  entry_arena s4 <> [] -> (exists k, 0 <= k < slot_num (sb_file sb) /\ sa_used (map_file s4) k = false) ->
  (12 + Z.to_nat n * 6 < length (btree_arena s4))%nat ->
  in_slots r n (bytes (dev s)) (bytes (dev s4)) ->
  (forall d, 0 <= d < n * PAGE_SIZE -> bytes (dev s4) (IDX2DATA sb r + d) =
      if (w_po <=? d) && (d <? w_po + len) then ub (buf + (d - w_po))
      else default (bytes (dev s) (IDX2DATA sb r + d)) (old_byte s d)) ->
  exists fe s' i', file_append_entry sb cpu stray junk p (mk_pf w_k0 r n t) s4 = Ok (fe, s') /\ 0 < fe < 2 ^ 62 /\
    files_inv sb s' P /\ file_appended sb s4 s' p i i' fe (mk_pf w_k0 r n t) /\ file_written s s' i' ub buf /\ mem_kept junk s4 s'.
Proof.
  intros Hinv Hi Hf Hsym Hcpu Ht Hinv4 Ei Ef Ed Har Hslot Hpool Hin Hby. pose proof w_k0_pos. pose proof w_fits.
  pose proof w_blocks. pose proof w_po_range. pose proof (unowned_fresh s b Hinv Hf) as Hun.
  destruct (file_append_spec sb Hlo cpu stray junk P p (mk_pf w_k0 r n t) s4 i) as (fe & s' & i' & Hrun & Hfe & Hinv' & Happ & Hmk);
    try done; [by rewrite Ei| |].
  { intros x j Hx Hj q Hq. rewrite Ei in Hj. cbn [pf_p_idx pf_blocks] in Hq.
    rewrite Ed, Ef. split.
    - rewrite (fr_used _ _ _ _ Hf) by lia. apply orb_true_iff. right. apply andb_true_iff. split; [apply Z.leb_le|apply Z.ltb_lt]; lia.
    - intros k Hk Hph. by apply (Hun x j k q). }
  exists fe, s', i'. do 4 (split; [done|]). split; [|done]. by apply (written_of s s4 s' b i' fe t ub buf).
Qed.
End fresh.

(** ** The effect of a write *)

Definition ebufs_ok (l : list ebuf) : Prop :=
  zlength l = EBUF_NUM /\ Forall (fun e => eb_locked e = false /\ zlength (eb_arr e) = EBUF_SIZE) l.

(** The number of blocks a range touches. *)
Definition blocks_of (offset len : Z) : Z := (offset mod PAGE_SIZE + len + PAGE_SIZE - 1) / PAGE_SIZE.

(** What a write to the file [i] leaves alone, the directories and the tables
    of inodes and directory slots among it. *)
Record write_frame (s s' : fs) (i i' : dram_inode) (ub junk : mem) : Prop := {
  wn_same : map_inode s' = map_inode s /\ map_dir s' = map_dir s /\ dirents s' = dirents s /\
    inode_arena s' = inode_arena s /\ inode_table s' = inode_table s /\ release_list s' = release_list s /\ root s' = root s;
  wn_arena x : x ∈ entry_arena s' -> x ∈ entry_arena s;
  wn_list x : x ∈ i_list i' -> x ∈ i_list i \/ x ∈ entry_arena s;
  wn_pool : exists u, btree_arena s = u ++ btree_arena s';
  wn_bytes x : slot_table (sb_inode sb) <= x < slot_table (sb_file sb) ->
    ~ (IDX2INODE sb (i_ino i) <= x < IDX2INODE sb (i_ino i) + 128) -> bytes (dev s') x = bytes (dev s) x;
  wn_mem : mem_ok ub -> mem_kept junk s s';
}.

(** [len] bytes from [buf] have been written to the file at [p] from [offset]
    on.  The rest of a block that had no entry is not determined. *)
Record wrote (s s' : fs) (P : list Z) (p : Z) (i i' : dram_inode) (ub junk : mem) (buf len offset : Z) : Prop := {
  wr_inv : files_inv sb s' P;
  wr_inodes : inodes s' = <[p := i']> (inodes s);
  wr_attrs : i_size i' = Z.max (i_size i) (offset + len) /\ i_ino i' = i_ino i /\ i_mode i' = i_mode i /\ i_link i' = i_link i;
  wr_range o : offset <= o < offset + len -> file_byte sb s' i' o = ub (buf + (o - offset));
  wr_rest o : 0 <= o -> ~ (offset <= o < offset + len) ->
    phys (filents s) (block_of i) (o / PAGE_SIZE) <> None \/
    ~ (offset / PAGE_SIZE <= o / PAGE_SIZE < offset / PAGE_SIZE + blocks_of offset len) ->
    file_byte sb s' i' o = file_byte sb s i o;
  wr_other q j o : q ∈ P -> q <> p -> inodes s !! q = Some j -> 0 <= o -> file_byte sb s' j o = file_byte sb s j o;
  wr_read : step_ok s' i' len offset;
  wr_cap : (offset + len - 1) / PAGE_SIZE < capacity (b_height i');
  wr_locks : ilocks s' = ilocks s;
  wr_ebufs : ebufs_ok (ebuf_mgr s');
  wr_jnl : serial (jnl_mgr s');
  wr_frame : write_frame s s' i i' ub junk;
  wr_mapped k : 0 <= k -> block_of i k <> 0 \/ offset / PAGE_SIZE <= k < offset / PAGE_SIZE + blocks_of offset len -> block_of i' k <> 0;
  wr_extent k : 0 <= k -> extent (filents s') (block_of i') k = extent (filents s) (block_of i) k \/
    extent (filents s') (block_of i') k = Some (blocks_of offset len);
  wr_extents q j k : q ∈ P -> q <> p -> inodes s !! q = Some j -> 0 <= k ->
    extent (filents s') (block_of j) k = extent (filents s) (block_of j) k;
}.

(** The resources a write needs. *)
Record write_ready (s : fs) (i : dram_inode) (cpu n : Z) : Prop := {
  wy_cpu : 0 <= cpu;
  wy_reg : is_symlink i = false;
  wy_lock : i_ino i ∉ ilocks s;
  wy_ebufs : ebufs_ok (ebuf_mgr s);
  wy_jnl : serial (jnl_mgr s);
  wy_entry : entry_arena s <> [];
  wy_slot : exists k, 0 <= k < slot_num (sb_file sb) /\ sa_used (map_file s) k = false;
  wy_pool : (12 + Z.to_nat n * 6 < length (btree_arena s))%nat;
}.

Lemma ebuf_index cpu : 0 <= cpu -> 0 <= Z.rem cpu EBUF_NUM < EBUF_NUM.
Proof. intros. rewrite Z.rem_mod_nonneg by (done || lia). apply Z.mod_pos_bound. done. Qed.

Lemma ebuf_alloc_eq cpu s :
  0 <= cpu -> ebufs_ok (ebuf_mgr s) ->
  exists E, zget (ebuf_mgr s) (Z.rem cpu EBUF_NUM) = Ok E /\ zlength (eb_arr E) = EBUF_SIZE /\
    ebuf_alloc cpu s = Ok (Z.rem cpu EBUF_NUM, upd_ebuf_mgr (fun _ =>
      <[Z.to_nat (Z.rem cpu EBUF_NUM) := mk_ebuf (eb_arr E) 0 (eb_size E) (eb_idx E) true]> (ebuf_mgr s)) s).
Proof.
  intros Hc [Hl Hf]. pose proof (ebuf_index cpu Hc) as Hk.
  destruct (zget_in (ebuf_mgr s) (Z.rem cpu EBUF_NUM) ltac:(lia)) as (E & HE & Hg). exists E.
  rewrite Forall_lookup in Hf. destruct (Hf _ _ HE) as [Hlk Har]. split_and!; try done.
  unfold ebuf_alloc. cbv zeta. mstep eq_refl. erewrite M_bind_step by (unfold lift; by rewrite Hg). rewrite Hlk. cbv iota.
  erewrite M_bind_step by (unfold lift; rewrite zset_in by lia; reflexivity). done.
Qed.

Lemma ebuf_put_eq k s E :
  zget (ebuf_mgr s) k = Ok E ->
  ebuf_put k s = Ok (tt, upd_ebuf_mgr (fun _ => <[Z.to_nat k :=
    mk_ebuf (eb_arr E) (eb_num E) (eb_size E) (eb_idx E) false]> (ebuf_mgr s)) s).
Proof.
  intros Hg. unfold ebuf_put. mstep eq_refl. erewrite M_bind_step by (unfold lift; by rewrite Hg).
  apply zget_Ok in Hg as [Hk Hg]. pose proof (lookup_lt_Some _ _ _ Hg).
  erewrite M_bind_step by (unfold lift; rewrite zset_in by (unfold zlength; lia); reflexivity). done.
Qed.

Lemma ebufs_ok_insert l k E : ebufs_ok l -> eb_locked E = false -> zlength (eb_arr E) = EBUF_SIZE -> ebufs_ok (<[k := E]> l).
Proof. intros [Hl Hf] H1 H2. split; [by rewrite zlength_insert|]. by apply Forall_insert. Qed.

Lemma zget_insert {A} (l : list A) k x : 0 <= k < zlength l -> zget (<[Z.to_nat k := x]> l) k = Ok x.
Proof.
  intros Hk. apply zget_Ok. split; [lia|]. apply list_lookup_insert_eq. unfold zlength in Hk. lia.
Qed.

Lemma not_err fe : 0 < fe < 2 ^ 62 -> IS_ERR fe = false.
Proof.
  intros. unfold IS_ERR. rewrite (u64_small fe) by lia. apply Z.leb_gt.
  assert (u64 (- MAX_ERRNO) = 18446744073709547521) as -> by (by vm_compute). lia.
Qed.
(** *** Into fresh slots *)

Lemma write_loop_fresh fuel cpu stray p ub buf len offset eb s i n bytes s' :
  inodes s !! p = Some i -> (offset =? i_size i) && negb (Z.land offset PAGE_MASK =? 0) && (n =? 1) = false -> 0 < n < 2 ^ 32 ->
  write_fresh sb cpu stray p ub len offset eb (mk_w offset buf len n 0) s = Ok ((bytes, n), s') ->
  exists w, write_loop sb cpu stray (S (S fuel)) p ub len offset eb (mk_w offset buf len n 0) s = Ok (w, s') /\
    w_entry_num w = 1.
Proof.
  intros Hi Hc Hn Hrun. eexists. split.
  - cbn [write_loop w_num_blk w_c w_buf w_count w_entry_num]. destruct (Z.eqb_spec n 0); [lia|].
    mstep (rd_inode_eq _ _ _ Hi). rewrite Hc.
    erewrite M_bind_step by (erewrite M_bind_step by exact Hrun; reflexivity).
    cbv beta iota. rewrite Z.sub_diag. cbn [write_loop w_num_blk w_c w_buf w_count w_entry_num]. reflexivity.
  - reflexivity.
Qed.

Lemma append_loop_one cpu stray junk p eb ts s E u fe s' :
  zget (ebuf_mgr s) eb = Ok E -> zget (eb_arr E) 0 = Ok u ->
  file_append_entry sb cpu stray junk p (mk_pf (u32 (eu_l_idx u)) (u32 (eu_p_idx u)) (u32 (eu_blocks u)) ts) s = Ok (fe, s') ->
  0 < fe < 2 ^ 62 ->
  append_loop sb cpu stray junk 1 p eb 0 ts s = Ok (None, s').
Proof.
  intros Hg Hu Hrun Hfe. unfold append_loop. erewrite M_bind_step.
  2: { unfold ebuf_get. mstep eq_refl. erewrite M_bind_step by (unfold lift; by rewrite Hg). unfold lift. by rewrite Hu. }
  mstep Hrun. by rewrite (not_err fe Hfe).
Qed.

Lemma block_capacity s i k : file_ok sb s i -> 0 <= k -> block_of i k <> 0 -> k < capacity (b_height i).
Proof.
  intros Hok Hk Hnz. destruct (Z.ltb_spec k (capacity (b_height i))); [done|]. exfalso. apply Hnz.
  rewrite <- (contents_tree_of i (btree_arena s)). by apply contents_high; [apply (fo_tree _ _ _ Hok)|].
Qed.
(** The last steps of [inode_write_atomic]. *)
Definition finished (now sz : Z) (i : dram_inode) : dram_inode :=
  upd_i_ctim (fun _ => now) (upd_i_mtim (fun _ => now) (upd_i_size (fun n => Z.max n sz) i)).

Lemma write_finish now p i k eb E sz len s :
  inodes s !! p = Some i -> zget (ebuf_mgr s) eb = Ok E ->
  ((_ ← inode_unlock k;
   _ ← ebuf_put eb;
   _ ← upd_inode p (upd_i_size (fun n => Z.max n sz));
   _ ← upd_inode p (fun i => upd_i_ctim (fun _ => now) (upd_i_mtim (fun _ => now) i));
   mret len) : M fs Z) s =
  Ok (len, upd_inodes <[p := finished now sz i]>
    (upd_ebuf_mgr (fun _ => <[Z.to_nat eb := mk_ebuf (eb_arr E) (eb_num E) (eb_size E) (eb_idx E) false]> (ebuf_mgr s))
      (upd_ilocks (fun l => l ∖ {[k]}) s))).
Proof.
  intros Hi Hg. mstep eq_refl. erewrite M_bind_step by (apply ebuf_put_eq; exact Hg).
  erewrite M_bind_step by (apply upd_inode_eq; exact Hi).
  erewrite M_bind_step by (eapply upd_inode_eq; fsimpl; apply lookup_insert_eq).
  unfold mret, M_ret. do 2 f_equal. apply fs_ext; fsimpl; try done. by rewrite insert_insert_eq.
Qed.
(** What the steps up to [file_append_entry] leave. *)
Record appended (s s' : fs) (P : list Z) (p : Z) (i i' : dram_inode) (ub junk : mem) (buf len offset : Z) : Prop := {
  ap_inv : files_inv sb s' P;
  ap_inodes : inodes s' = <[p := i']> (inodes s);
  ap_attrs : i_ino i' = i_ino i /\ i_size i' = i_size i /\ i_mode i' = i_mode i /\ i_link i' = i_link i;
  ap_written : file_written P p i (blocks_of offset len) len offset s s' i' ub buf;
  ap_frame : write_frame s s' i i' ub junk;
  ap_extent k : 0 <= k -> extent (filents s') (block_of i') k = extent (filents s) (block_of i) k \/
    extent (filents s') (block_of i') k = Some (blocks_of offset len);
  ap_extents q j k : q ∈ P -> q <> p -> inodes s !! q = Some j -> 0 <= k ->
    extent (filents s') (block_of j) k = extent (filents s) (block_of j) k;
}.

Lemma written_same P p i n len offset s0 s s' i' ub buf :
  inodes s0 = inodes s -> filents s0 = filents s -> dev s0 = dev s ->
  file_written P p i n len offset s s' i' ub buf -> file_written P p i n len offset s0 s' i' ub buf.
Proof.
  intros E1 E2 E3 [W1 W2 W3 W4 W5].
  assert (E : forall j o, file_byte sb s0 j o = file_byte sb s j o) by (intros; unfold file_byte; by rewrite E2, E3).
  constructor; try done.
  - intros o Ho Hn. rewrite E, E2. by apply W2.
  - intros q j o. rewrite E, E1. apply W3.
Qed.

(** The tables in front of the file slots. *)
Lemma tables_below : slot_table (sb_inode sb) <= slot_table (sb_file sb) <= slot_table (sb_data sb).
Proof. destruct Hlo as [_ _ (? & ? & ? & ?) ([? ?] & [? ?] & [? ?] & [? ?]) _ _]. lia. Qed.

(** The data written to the fresh slots and the entry appended for them. *)
Lemma fresh_frame P p i r n len offset (Hp : p ∈ P) (Hr : 0 <= r) (Hn : 0 < n) (Hrn : r + n <= slot_num (sb_data sb))
    (Ho : 0 <= offset) (Hl : 0 < len) (Hmax : offset + len <= 2 ^ 43 - PAGE_SIZE)
    (En : n = (w_po offset + len + PAGE_SIZE - 1) / PAGE_SIZE) s s4 s5 i5 fe t ub junk buf :
  files_inv sb s4 P -> inodes s4 !! p = Some i -> 
  (map_inode s4 = map_inode s /\ map_dir s4 = map_dir s /\ dirents s4 = dirents s /\
    inode_arena s4 = inode_arena s /\ inode_table s4 = inode_table s /\ release_list s4 = release_list s /\ root s4 = root s) ->
  entry_arena s4 = entry_arena s -> btree_arena s4 = btree_arena s ->
  in_slots r n (bytes (dev s)) (bytes (dev s4)) ->
  (forall d, 0 <= d < n * PAGE_SIZE -> bytes (dev s4) (IDX2DATA sb r + d) =
      if (w_po offset <=? d) && (d <? w_po offset + len) then ub (buf + (d - w_po offset))
      else default (bytes (dev s) (IDX2DATA sb r + d)) (old_byte i offset s d)) ->
  file_appended sb s4 s5 p i i5 fe (mk_pf (w_k0 offset) r n t) -> mem_kept junk s4 s5 -> write_frame s s5 i i5 ub junk.
Proof.
  intros Hinv Hi (E1 & E2 & E3 & E4 & E5 & E6 & E7) Ea Eb Hin Hby Happ Hmk.
  destruct (fa_same _ _ _ _ _ _ _ _ Happ) as (F1 & F2 & F3 & F4 & F5 & _ & _ & _ & F6 & _ & F7). constructor.
  - split_and!; congruence.
  - intros x Hx. rewrite <- Ea. by apply (fa_arena _ _ _ _ _ _ _ _ Happ).
  - intros x Hx. rewrite <- Ea. by apply (fa_list _ _ _ _ _ _ _ _ Happ).
  - rewrite <- Eb. apply (fa_pool _ _ _ _ _ _ _ _ Happ).
  - intros x Hx _. pose proof tables_below as Ht. transitivity (bytes (dev s4) x).
    + destruct (fa_dev _ _ _ _ _ _ _ _ Happ) as (fno & Hfno & Hag). destruct (fv_each _ _ _ Hinv p Hp) as (i0 & Hi0 & Hok).
      rewrite Hi in Hi0. injection Hi0 as <-. destruct (fo_slots _ _ _ Hok fno Hfno) as [Hfb _]. apply (Hag x 1); [|lia].
      rewrite (IDX2FENT_eq sb Hlo) by lia. lia.
    + apply Hin. rewrite (IDX2DATA_eq sb Hlo) by lia. lia.
  - intros Hub Hj Hm. apply Hmk; [done|]. intros x.
    destruct (decide (IDX2DATA sb r <= x < IDX2DATA sb r + 4096 * n)) as [Hx|Hx]; [|rewrite Hin by done; apply Hm].
    replace x with (IDX2DATA sb r + (x - IDX2DATA sb r)) by lia. rewrite Hby by (unfold PAGE_SIZE; lia).
    destruct (_ && _); [apply Hub|]. unfold old_byte. destruct (phys _ _ _); simpl; apply Hm.
Qed.

Lemma write_blocks_append cpu now stray junk P p ub buf len offset s i r b :
  let n := blocks_of offset len in
  let eb := Z.rem cpu EBUF_NUM in
  files_inv sb s P -> p ∈ P -> inodes s !! p = Some i -> write_ready s i cpu n ->
  do_slot_alloc_range MAP_NUM cpu (map_data s) n = Ok (r, n, b) -> fresh_range s r n b ->
  0 <= offset -> 0 < len -> offset + len <= 2 ^ 43 - PAGE_SIZE ->
  offset / PAGE_SIZE + n - 1 < capacity (b_height i) \/ (offset mod PAGE_SIZE = 0 /\ (offset + len) mod PAGE_SIZE = 0) ->
  (offset =? i_size i) && negb (Z.land offset PAGE_MASK =? 0) && (n =? 1) = false ->
  exists s5 i5 E5, write_blocks sb cpu now stray junk p (i_ino i) ub buf len offset n s =
      Ok (len, upd_inodes <[p := finished now (offset + len) i5]>
        (upd_ebuf_mgr (fun _ => <[Z.to_nat eb := E5]> (ebuf_mgr s)) (upd_ilocks (fun _ => ilocks s) s5))) /\
    eb_locked E5 = false /\ zlength (eb_arr E5) = EBUF_SIZE /\ jnl_mgr s5 = jnl_mgr s /\
    appended s s5 P p i i5 ub junk buf len offset.
Proof.
  intros n eb Hinv Hp Hi [Hcpu Hsym Hlk Heb Hjnl Har Hslot Hpool] Hall Hf Ho Hl Hmax Hcap Hc.
  pose proof (fr_pos _ _ _ _ Hf) as Hn.
  assert (0 <= r /\ r + n <= slot_num (sb_data sb)) as [Hr Hrn].
  { pose proof (fr_free _ _ _ _ Hf r). pose proof (fr_free _ _ _ _ Hf (r + n - 1)). lia. }
  pose proof (w_blocks n len offset Hn Ho Hl Hmax eq_refl) as Hblk. pose proof (w_k0_pos n len offset Hn Ho Hl eq_refl) as Hk0.
  destruct (ebuf_alloc_eq cpu s Hcpu Heb) as (E & Hg & Harr & Hea). fold eb in Hg, Hea.
  set (s1 := upd_ebuf_mgr _ s) in Hea. set (s2 := upd_ilocks (fun l => {[i_ino i]} ∪ l) s1).
  assert (files_inv sb s2 P) as Hinv2 by (by apply (files_inv_frame s); try done; apply Hinv).
  assert (fresh_range s2 r n b) as Hf2 by (by destruct Hf; constructor).
  assert (0 <= eb < zlength (ebuf_mgr s)) as Hebr by (destruct Heb as [-> _]; by apply ebuf_index).
  destruct (write_fresh_spec stray P p i r n len offset Hp Hr Hn Hrn Ho Hl Hmax eq_refl Hcap cpu ub buf eb s2 b _ Hinv2 Hi Hf2 Hall
    (zget_insert _ _ _ Hebr) eq_refl) as (pm' & Hrun3 & Hin & Hby).
  { cbn [eb_arr]. rewrite Harr. done. }
  set (s3 := upd_ebuf_mgr _ _) in Hrun3.
  destruct (write_loop_fresh 512 cpu stray p ub buf len offset eb s2 i n len s3 Hi Hc ltac:(lia) Hrun3) as (w & Hrun & Ew).
  set (s4 := upd_ts (fun t => u64 (t + 1)) s3).
  assert (files_inv sb s4 P) as Hinv4.
  { pose proof (alloc_inv P r n s2 b Hinv2 Hf2) as Ha. pose proof (in_slots_inv _ P r n pm' Ha Hr Hn Hrn Hin) as Hb.
    apply (files_inv_frame _ _ P Hb); try done. apply Hb. }
  destruct (append_fresh stray P p i r n len offset Hp Hr Hn Hrn Ho Hl Hmax eq_refl cpu junk ub buf s2 s4 b (i64 (ts s4)))
    as (fe & s5 & i5 & Hrun5 & Hfe & Hinv5 & Happ & Hwr & Hmk); try done.
  { apply i64_range. }
  destruct (fa_same _ _ _ _ _ _ _ _ Happ) as (_ & _ & _ & _ & _ & El & Ee & Ej & _).
  set (arr := <[0%nat := mk_unit n (w_k0 offset) r]> (eb_arr E)).
  assert (zget (ebuf_mgr s4) eb = Ok (mk_ebuf arr 1 (eb_size E) (eb_idx E) true)) as Hg4.
  { apply zget_insert. change (0 <= eb < zlength (ebuf_mgr s2)). unfold s2, s1. fsimpl. by rewrite zlength_insert. }
  assert (zlength arr = EBUF_SIZE) as Harr' by (unfold arr; by rewrite zlength_insert).
  assert (zget arr 0 = Ok (mk_unit n (w_k0 offset) r)) as Hu by (apply (zget_insert (eb_arr E) 0); rewrite Harr; done).
  destruct Hlo as [_ _ _ (_ & _ & _ & [Hdn _]) _ _].
  assert (append_loop sb cpu stray junk 1 p eb 0 (i64 (ts s4)) s4 = Ok (None, s5)) as Hloop.
  { eapply append_loop_one; [exact Hg4|exact Hu| |exact Hfe]. cbn [eu_l_idx eu_p_idx eu_blocks].
    rewrite !u32_small by lia. exact Hrun5. }
  exists s5, i5, (mk_ebuf arr 1 (eb_size E) (eb_idx E) false). split_and!; try done.
  - unfold write_blocks. mstep Hea. mstep (inode_lock_eq _ s1 Hlk). rewrite (u64_small offset) by (unfold PAGE_SIZE in *; lia).
    change write_fuel with (S (S 512)). mstep Hrun. rewrite Ew.
    erewrite M_bind_step by (unfold slotfs_timestamp; mstep eq_refl; reflexivity). fold s4. mstep Hloop.
    rewrite u64_small by (unfold PAGE_SIZE in *; lia). erewrite write_finish.
    2: { rewrite (fa_inodes _ _ _ _ _ _ _ _ Happ). apply lookup_insert_eq. }
    2: { rewrite Ee. exact Hg4. }
    do 2 f_equal. apply fs_ext; fsimpl; try done.
    + rewrite El. change (ilocks s4) with ({[i_ino i]} ∪ ilocks s). clear -Hlk. set_solver.
    + rewrite Ee. change (ebuf_mgr s4) with (<[Z.to_nat eb := mk_ebuf arr 1 (eb_size E) (eb_idx E) true]> (ebuf_mgr s2)).
      unfold s2, s1. fsimpl. by rewrite !list_insert_insert_eq.
  - constructor; [done|by apply (fa_inodes _ _ _ _ _ _ _ _ Happ)|by destruct (fa_attrs _ _ _ _ _ _ _ _ Happ) as (? & ? & ? & _ & ?)|..].
    + by apply (written_same P p i n len offset s s2).
    + by apply (fresh_frame P p i r n len offset Hp Hr Hn Hrn Ho Hl Hmax eq_refl s s4 s5 i5 fe (i64 (ts s4)) ub junk buf).
    + intros k Hk. rewrite (fa_extent _ _ _ _ _ _ _ _ Happ k Hk). destruct (decide _); [by right|by left].
    + intros q j k Hq Hne Hj Hk. destruct (fv_each _ _ _ Hinv4 q Hq) as (j0 & Hj0 & Hokj).
      change (inodes s4) with (inodes s) in Hj0. rewrite Hj in Hj0. injection Hj0 as <-. change (filents s) with (filents s4).
      apply (extent_frame sb _ _ _ _ j k (fo_core _ _ _ Hokj)); [|done]. intros x Hx.
      by apply (several_other sb s4 s5 P p i i5 fe (mk_pf (w_k0 offset) r n (i64 (ts s4))) Hinv4 Hp Hi Happ q j).
Qed.
Lemma written_size n len offset i i' sz :
  0 <= offset -> 0 < len -> offset + len <= 2 ^ 43 - PAGE_SIZE -> size_ok i -> n = blocks_of offset len ->
  (forall k, offset / PAGE_SIZE <= k < offset / PAGE_SIZE + n -> block_of i' k <> 0) ->
  (forall k, 0 <= k -> block_of i k <> 0 -> block_of i' k <> 0) ->
  sz = Z.max (i_size i) (offset + len) ->
  0 <= sz < 2 ^ 43 /\ (sz mod PAGE_SIZE <> 0 -> block_of i' (sz / PAGE_SIZE) <> 0).
Proof.
  intros Ho Hl Hmax [Hs1 Hs2] -> Hnew Hold ->. split; [unfold PAGE_SIZE in *; lia|].
  destruct (Z.max_spec (i_size i) (offset + len)) as [[? ->]|[? ->]]; intros Hz.
  - apply Hnew. unfold blocks_of, PAGE_SIZE in *. zdm.
  - apply Hold; [unfold PAGE_SIZE in *; zdm|]. by apply Hs2.
Qed.

Lemma write_blocks_fresh cpu now stray junk P p ub buf len offset s i r b :
  let n := blocks_of offset len in
  files_inv sb s P -> p ∈ P -> inodes s !! p = Some i -> write_ready s i cpu n ->
  do_slot_alloc_range MAP_NUM cpu (map_data s) n = Ok (r, n, b) -> fresh_range s r n b ->
  0 <= offset -> 0 < len -> offset + len <= 2 ^ 43 - PAGE_SIZE ->
  offset / PAGE_SIZE + n - 1 < capacity (b_height i) \/ (offset mod PAGE_SIZE = 0 /\ (offset + len) mod PAGE_SIZE = 0) ->
  (offset =? i_size i) && negb (Z.land offset PAGE_MASK =? 0) && (n =? 1) = false ->
  exists s' i', write_blocks sb cpu now stray junk p (i_ino i) ub buf len offset n s = Ok (len, s') /\
    wrote s s' P p i i' ub junk buf len offset.
Proof.
  intros n Hinv Hp Hi Hrdy Hall Hf Ho Hl Hmax Hcap Hc.
  destruct (write_blocks_append cpu now stray junk P p ub buf len offset s i r b Hinv Hp Hi Hrdy Hall Hf Ho Hl Hmax Hcap Hc)
    as (s5 & i5 & E5 & Hrun & He1 & He2 & Hj & [Hinv5 Hi5 (A1 & A2 & A3 & A4) [W1 W2 W3 W4 W5] [N1 N2 N3 N4 N5 N6] X1 X2]).
  eexists _, _. split; [exact Hrun|]. set (i' := finished now (offset + len) i5).
  assert (same_file i5 i') as Hsame by done. pose proof (same_file_block _ _ Hsame) as Eb.
  assert (inodes s5 !! p = Some i5) as Hi5' by (rewrite Hi5; apply lookup_insert_eq).
  destruct (fv_each _ _ _ Hinv p Hp) as (i0 & Hi0 & Hok). rewrite Hi in Hi0. injection Hi0 as <-.
  pose proof (fr_pos _ _ _ _ Hf) as Hn. fold n in W2, W4.
  assert (i_size i' = Z.max (i_size i) (offset + len)) as Esz.
  { change (i_size i') with (Z.max (i_size i5) (offset + len)). by rewrite A2. }
  assert (files_inv sb (upd_inodes <[p := i']> s5) P) as Hinv'.
  { apply (files_inv_attrs s5 P p i5); try done. unfold size_ok. rewrite Eb.
    apply (written_size n len offset i i5); try done; [apply (fo_size _ _ _ Hok)|]. intros k Hk. by apply W4. }
  set (s' := upd_inodes _ _).
  assert (Ef : forall j o, file_byte sb s' j o = file_byte sb s5 j o) by done.
  assert (Ei : forall o, file_byte sb s5 i' o = file_byte sb s5 i5 o) by (intros; unfold file_byte; by rewrite Eb).
  constructor.
  - apply (files_inv_frame _ _ P Hinv'); try done. apply Hinv'.
  - unfold s'. fsimpl. by rewrite Hi5, insert_insert_eq.
  - done.
  - intros o Hoo. rewrite Ef, Ei. by apply W1.
  - intros o Hoo Hno Hor. rewrite Ef, Ei. by apply W2.
  - intros q j o Hq Hne Hjq Hoo. rewrite Ef. by apply (W3 q).
  - left. intros k Hk. change (block_of i' k = block_of i' (offset / PAGE_SIZE)). rewrite Eb. apply W4. unfold n, blocks_of, w_k0, PAGE_SIZE in *. zdm.
  - change (b_height i') with (b_height i5).
    destruct (fv_each _ _ _ Hinv5 p Hp) as (i0 & Hi0 & Hok5). rewrite Hi5' in Hi0. injection Hi0 as <-.
    apply (block_capacity s5 i5 _ Hok5); [unfold PAGE_SIZE; zdm|]. apply W4. unfold n, blocks_of, w_k0, PAGE_SIZE in *. zdm.
  - done.
  - apply ebufs_ok_insert; try done. apply (wy_ebufs _ _ _ _ Hrdy).
  - change (jnl_mgr s') with (jnl_mgr s5). rewrite Hj. apply (wy_jnl _ _ _ _ Hrdy).
  - constructor; done.
  - intros k Hk [Hb|Hb]; change (block_of i' k <> 0); rewrite Eb; [by apply W5|]. apply W4. exact Hb.
  - intros k Hk. change (block_of (finished now (offset + len) i5)) with (block_of i'). rewrite Eb. by apply X1.
  - exact X2.
Qed.
(** *** In place *)

(** The device changes in the [len] bytes of the data slot [q] at [po], and
    outside the tables of the file system. *)
Record patched (ino q po len : Z) (ub : mem) (buf : Z) (m m' : mem) : Prop := {
  pa_data x : 0 <= x < slot_num (sb_data sb) * 4096 -> m' (IDX2DATA sb 0 + x) =
    if (q * 4096 + po <=? x) && (x <? q * 4096 + po + len) then ub (buf + (x - (q * 4096 + po))) else m (IDX2DATA sb 0 + x);
  pa_fent k : 0 <= k < slot_num (sb_file sb) -> agree (IDX2FENT sb k) 40 m m';
  pa_head k : 0 <= k < slot_num (sb_inode sb) -> pm_head sb m' k = pm_head sb m k;
  pa_tables x : slot_table (sb_inode sb) <= x < slot_table (sb_file sb) ->
    ~ (IDX2INODE sb ino <= x < IDX2INODE sb ino + 128) -> m' x = m x;
  pa_mem : mem_ok ub -> mem_ok m -> mem_ok m';
}.

Lemma patched_page ino q po len ub buf m m' q' d :
  patched ino q po len ub buf m m' -> 0 <= q < slot_num (sb_data sb) -> 0 <= q' < slot_num (sb_data sb) ->
  0 <= po -> po + len <= 4096 -> 0 <= d < 4096 ->
  m' (IDX2DATA sb q' + d) =
    if decide (q' = q /\ po <= d < po + len) then ub (buf + (d - po)) else m (IDX2DATA sb q' + d).
Proof.
  intros Hp Hq Hq' Hpo Hle Hd. rewrite (IDX2DATA_eq sb Hlo q') by done. pose proof (pa_data _ _ _ _ _ _ _ _ Hp (q' * 4096 + d) ltac:(lia)) as E.
  rewrite (IDX2DATA_eq sb Hlo 0) in E by lia. replace (slot_table (sb_data sb) + 4096 * 0 + (q' * 4096 + d)) with
    (slot_table (sb_data sb) + 4096 * q' + d) in E by lia. rewrite E.
  destruct (Z.leb_spec (q * 4096 + po) (q' * 4096 + d)), (Z.ltb_spec (q' * 4096 + d) (q * 4096 + po + len)); simpl.
  - assert (q' = q) by lia. subst. rewrite decide_True by lia. f_equal. lia.
  - rewrite decide_False by lia. done.
  - rewrite decide_False by lia. done.
  - rewrite decide_False by lia. done.
Qed.

Lemma files_inv_patched s s1 P ino q po len ub buf :
  files_inv sb s P -> patched ino q po len ub buf (bytes (dev s)) (bytes (dev s1)) ->
  inodes s1 = inodes s -> filents s1 = filents s -> entry_arena s1 = entry_arena s ->
  btree_arena s1 = btree_arena s -> map_file s1 = map_file s -> map_data s1 = map_data s ->
  files_inv sb s1 P.
Proof.
  intros Hinv Hpa E1 E2 E3 E4 E5 E6. apply (files_inv_frame s); try done.
  - rewrite E6. apply Hinv.
  - by rewrite E6.
  - apply Hpa.
  - intros p i Hp Hi. apply Hpa. destruct (fv_each _ _ _ Hinv p Hp) as (i0 & Hi0 & Hok). rewrite Hi in Hi0.
    injection Hi0 as <-. apply (fo_ino _ _ _ Hok).
Qed.

(** Two blocks with the same slot are the same block of the same file. *)
Lemma slot_owner s P p0 j p i k0 k q :
  files_inv sb s P -> p0 ∈ P -> p ∈ P -> inodes s !! p0 = Some j -> inodes s !! p = Some i -> 0 <= k0 -> 0 <= k ->
  phys (filents s) (block_of j) k0 = Some q -> phys (filents s) (block_of i) k = Some q -> p0 = p /\ k0 = k.
Proof.
  intros Hinv Hp0 Hp Hj Hi Hk0 Hk E1 E2. destruct (decide (p0 = p)) as [->|Hne].
  - split; [done|]. destruct (fv_each _ _ _ Hinv p Hp) as (i0 & Hi0 & Hok). replace j with i in * by congruence.
    replace i0 with i in Hok by congruence. by apply (co_inj _ _ _ _ _ _ (fo_core _ _ _ Hok) k0 k q).
  - destruct (fv_apart _ _ _ Hinv p0 p j i Hp0 Hp Hne Hj Hi) as (_ & _ & _ & A). by destruct (A k0 k q Hk0 Hk E1).
Qed.

(** The byte of any file after the change. *)
Lemma patched_byte s s' P p i p0 j ub buf len offset q o :
  files_inv sb s P -> p ∈ P -> inodes s !! p = Some i -> p0 ∈ P -> inodes s !! p0 = Some j -> 0 <= offset -> 0 <= o ->
  phys (filents s) (block_of i) (offset / PAGE_SIZE) = Some q -> offset mod PAGE_SIZE + len <= PAGE_SIZE ->
  patched (i_ino i) q (offset mod PAGE_SIZE) len ub buf (bytes (dev s)) (bytes (dev s')) -> filents s' = filents s ->
  file_byte sb s' j o = if decide (p0 = p /\ offset <= o < offset + len) then ub (buf + (o - offset)) else file_byte sb s j o.
Proof.
  intros Hinv Hp Hi Hp0 Hj Ho Hoo Hq Hle Hpa Ef. unfold file_byte. rewrite Ef.
  assert (0 <= offset / PAGE_SIZE /\ 0 <= o / PAGE_SIZE /\ 0 <= o mod PAGE_SIZE < 4096 /\ 0 <= offset mod PAGE_SIZE)
    as (H1 & H2 & H3 & H4) by (unfold PAGE_SIZE; zdm).
  destruct (phys (filents s) (block_of j) (o / PAGE_SIZE)) as [q'|] eqn:Hq'.
  - assert (Hr : forall p1 i1 k1 q1, p1 ∈ P -> inodes s !! p1 = Some i1 -> 0 <= k1 -> phys (filents s) (block_of i1) k1 = Some q1 ->
      0 <= q1 < slot_num (sb_data sb)).
    { intros p1 i1 k1 q1 Hp1 Hi1 Hk1 Hph. destruct (fv_each _ _ _ Hinv p1 Hp1) as (i0 & Hi0 & Hok). replace i0 with i1 in Hok by congruence.
      apply phys_inv in Hph as (Hnz & e & He & ->).
      destruct (core_entry _ _ _ _ _ _ _ (fo_core _ _ _ Hok) Hk1 Hnz) as (e' & He' & _ & _ & _ & _ & _ & _ & _ & ?).
      by replace e with e' by congruence. }
    rewrite (patched_page (i_ino i) q (offset mod PAGE_SIZE) len ub buf (bytes (dev s)));
      [|done|by apply (Hr p i _ _ Hp Hi H1)|by apply (Hr p0 j _ _ Hp0 Hj H2)|done|done|done].
    destruct (decide (q' = q /\ _)) as [[-> Hd]|Hn].
    + destruct (slot_owner s P p0 j p i (o / PAGE_SIZE) (offset / PAGE_SIZE) q) as [-> Ek]; try done.
      rewrite decide_True; [f_equal; unfold PAGE_SIZE in *; zdm|]. split; [done|]. unfold PAGE_SIZE in *. zdm.
    + destruct (decide (p0 = p /\ _)) as [[-> Hd]|]; [|done]. exfalso. apply Hn. replace j with i in * by congruence.
      assert (o / PAGE_SIZE = offset / PAGE_SIZE) as Ek by (unfold PAGE_SIZE in *; zdm). rewrite Ek in Hq'.
      split; [congruence|]. unfold PAGE_SIZE in *. zdm.
  - rewrite decide_False; [done|]. intros [-> Hd]. replace j with i in * by congruence.
    replace (o / PAGE_SIZE) with (offset / PAGE_SIZE) in Hq' by (unfold PAGE_SIZE in *; zdm). congruence.
Qed.
Lemma wrote_in_place s s' P p i i' ub junk buf len offset q :
  files_inv sb s P -> p ∈ P -> inodes s !! p = Some i -> 0 <= offset -> 0 < len ->
  phys (filents s) (block_of i) (offset / PAGE_SIZE) = Some q -> offset mod PAGE_SIZE + len <= PAGE_SIZE ->
  patched (i_ino i) q (offset mod PAGE_SIZE) len ub buf (bytes (dev s)) (bytes (dev s')) ->
  inodes s' = <[p := i']> (inodes s) -> filents s' = filents s -> entry_arena s' = entry_arena s ->
  btree_arena s' = btree_arena s -> map_file s' = map_file s -> map_data s' = map_data s ->
  same_file i i' -> i_mode i' = i_mode i -> i_link i' = i_link i -> i_size i' = Z.max (i_size i) (offset + len) -> size_ok i' ->
  (map_inode s' = map_inode s /\ map_dir s' = map_dir s /\ dirents s' = dirents s /\
    inode_arena s' = inode_arena s /\ inode_table s' = inode_table s /\ release_list s' = release_list s /\ root s' = root s) ->
  ilocks s' = ilocks s -> ebufs_ok (ebuf_mgr s') -> serial (jnl_mgr s') ->
  wrote s s' P p i i' ub junk buf len offset.
Proof.
  intros Hinv Hp Hi Ho Hl Hq Hle Hpa E1 E2 E3 E4 E5 E6 Hsame Em Elk Es Hsz Hrest E7 He Hj.
  pose proof (same_file_block _ _ Hsame) as Eb.
  assert (Ei : forall o, file_byte sb s' i' o = file_byte sb s' i o) by (intros; unfold file_byte; by rewrite Eb).
  pose proof (fun p0 j o H1 H2 => patched_byte s s' P p i p0 j ub buf len offset q o Hinv Hp Hi H1 H2 Ho) as Hby.
  set (s1 := upd_inodes (fun _ => inodes s) s').
  assert (files_inv sb s1 P) as H1 by (by apply (files_inv_patched s s1 P (i_ino i) q (offset mod PAGE_SIZE) len ub buf)).
  assert (files_inv sb s' P) as Hinv'.
  { pose proof (files_inv_attrs s1 P p i i' H1 Hp Hi Hsame Hsz) as H2. apply (files_inv_frame _ _ P H2); try done. apply H2. }
  destruct (fv_each _ _ _ Hinv p Hp) as (i0 & Hi0 & Hok). rewrite Hi in Hi0. injection Hi0 as <-.
  constructor; try done.
  - destruct Hsame as (? & _). done.
  - intros o Hoo. rewrite Ei, (Hby p i o) by (done || lia). by rewrite decide_True by lia.
  - intros o Hoo Hn _. rewrite Ei, (Hby p i o) by (done || lia). by rewrite decide_False by tauto.
  - intros x j o Hx Hne Hjx Hoo. rewrite (Hby x j o) by (done || lia). by rewrite decide_False by tauto.
  - left. intros k Hk. f_equal. unfold PAGE_SIZE in *. zdm.
  - destruct Hsame as (_ & _ & -> & _). replace ((offset + len - 1) / PAGE_SIZE) with (offset / PAGE_SIZE) by (unfold PAGE_SIZE in *; zdm).
    apply phys_inv in Hq as (Hnz & _). apply (block_capacity s i _ Hok); [unfold PAGE_SIZE; zdm|done].
  - constructor; [done|by rewrite E3|destruct Hsame as (_ & _ & _ & _ & -> & _); by left|exists []; by rewrite E4|apply Hpa|].
    intros Hub _ Hm. by apply (pa_mem _ _ _ _ _ _ _ _ Hpa).
  - intros k Hk [Hb|Hb]; rewrite Eb; [done|]. apply phys_inv in Hq as (Hnz & _).
    replace k with (offset / PAGE_SIZE); [done|]. unfold blocks_of, PAGE_SIZE in *. zdm.
  - intros k _. left. by rewrite E2, Eb.
  - intros x j k _ _ _ _. by rewrite E2.
Qed.

(** The data tables are behind the inodes, the entries and the journals. *)
Lemma patched_of ino q po len ub buf m m' lo hi :
  0 <= q < slot_num (sb_data sb) -> 0 <= po -> po + len <= 4096 ->
  (hi <= slot_table (sb_file sb)) ->
  (forall k, 0 <= k < slot_num (sb_inode sb) -> IDX2INODE sb k + PI_log_head + 8 <= lo \/ hi <= IDX2INODE sb k + PI_log_head) ->
  (forall x, m' x = if (IDX2DATA sb q + po <=? x) && (x <? IDX2DATA sb q + po + len) then ub (buf + (x - (IDX2DATA sb q + po)))
     else if (lo <=? x) && (x <? hi) then m' x else m x) ->
  (forall x, slot_table (sb_inode sb) <= x -> lo <= x < hi -> IDX2INODE sb ino <= x < IDX2INODE sb ino + 128) ->
  (mem_ok ub -> mem_ok m -> mem_ok m') ->
  patched ino q po len ub buf m m'.
Proof.
  intros Hq Hpo Hle Hhi Hino Hm Hown Hby. pose proof (IDX2DATA_eq sb Hlo q Hq) as Eq. constructor.
  - intros x Hx. rewrite (IDX2DATA_eq sb Hlo 0) by lia. rewrite Hm, Eq.
    destruct (Z.leb_spec (slot_table (sb_data sb) + 4096 * q + po) (slot_table (sb_data sb) + 4096 * 0 + x)),
      (Z.ltb_spec (slot_table (sb_data sb) + 4096 * 0 + x) (slot_table (sb_data sb) + 4096 * q + po + len)),
      (Z.leb_spec (q * 4096 + po) x), (Z.ltb_spec x (q * 4096 + po + len)); simpl; try lia; [f_equal; lia|..].
    all: destruct (Z.ltb_spec (slot_table (sb_data sb) + 4096 * 0 + x) hi); rewrite ?andb_false_r; try done.
    all: destruct Hlo as [_ _ (_ & _ & Ht & _) (_ & _ & [Hn _] & _) _ _]; lia.
  - intros k Hk x Hx. rewrite Hm. pose proof (fent_below_data sb Hlo k q Hk Hq).
    rewrite (IDX2FENT_eq sb Hlo) in * by done.
    destruct (Z.leb_spec (IDX2DATA sb q + po) x); [lia|]. simpl. destruct (Z.ltb_spec x hi); [lia|]. by rewrite andb_false_r.
  - intros k Hk. unfold pm_head. f_equal. apply load_agree. intros x Hx. simpl in Hx. rewrite Hm.
    pose proof (inode_below_data sb Hlo k q Hk Hq).
    destruct (Z.leb_spec (IDX2DATA sb q + po) x); [unfold PI_log_head in *; lia|]. simpl.
    destruct (Z.leb_spec lo x), (Z.ltb_spec x hi); simpl; try done. destruct (Hino k Hk); lia.
  - intros x Hx Hn. rewrite Hm. pose proof tables_below. destruct (Z.leb_spec (IDX2DATA sb q + po) x); [lia|]. cbn [andb].
    destruct (Z.leb_spec lo x), (Z.ltb_spec x hi); cbn [andb]; [destruct Hn; apply Hown; lia|done..].
  - done.
Qed.
Lemma in_last_block i offset len :
  size_ok i -> offset = i_size i -> offset mod PAGE_SIZE <> 0 -> blocks_of offset len = 1 ->
  offset mod PAGE_SIZE + len <= PAGE_SIZE /\ block_of i (offset / PAGE_SIZE) <> 0.
Proof.
  intros [_ Hb] -> Hpo Hn. split; [unfold blocks_of, PAGE_SIZE in *; zdm|by apply Hb].
Qed.

Lemma write_tail_spec stray P p ub buf len offset s i :
  files_inv sb s P -> p ∈ P -> inodes s !! p = Some i -> offset = i_size i -> offset mod PAGE_SIZE <> 0 ->
  blocks_of offset len = 1 -> 0 < len -> offset + len <= 2 ^ 43 - PAGE_SIZE ->
  exists q pm', phys (filents s) (block_of i) (offset / PAGE_SIZE) = Some q /\
    write_tail sb stray p ub len offset (mk_w offset buf len 1 0) s =
      Ok (len, upd_dev (fun _ => pm') (upd_inodes <[p := upd_i_size (fun n => Z.max n (offset + len)) i]> s)) /\
    patched (i_ino i) q (offset mod PAGE_SIZE) len ub buf (bytes (dev s)) (bytes pm').
Proof.
  intros Hinv Hp Hi Es Hpo Hn Hl Hmax.
  destruct (fv_each _ _ _ Hinv p Hp) as (i0 & Hi0 & Hok). rewrite Hi in Hi0. injection Hi0 as <-.
  destruct (fo_size _ _ _ Hok) as [Hsz _]. destruct (in_last_block i offset len (fo_size _ _ _ Hok) Es Hpo Hn) as [Hle Hnz].
  assert (0 <= offset / PAGE_SIZE) as Hk by (unfold PAGE_SIZE; zdm).
  destruct (block_data s i _ Hok Hk Hnz) as (e & q & He & Hph & Ed & Hq & _).
  set (i1 := upd_i_size (fun n => Z.max n (offset + len)) i).
  destruct (pm_avx_from_eq ub (IDX2DATA sb q + offset mod PAGE_SIZE) buf len s ltac:(lia)) as (m1 & Hrun & Hm1).
  eexists q, _. split_and!; [done| |].
  - unfold write_tail. cbn [w_c w_buf w_count]. rewrite land_page_mask, shiftr_page by lia. cbv zeta.
    mstep (filent_lookup_spec sb stray p (offset / PAGE_SIZE) s i Hi Hok (conj Hk (block_capacity s i _ Hok Hk Hnz))).
    assert ((if PAGE_SIZE - offset mod PAGE_SIZE >? len then len else PAGE_SIZE - offset mod PAGE_SIZE) = len) as ->
      by (destruct (Z.gtb_spec (PAGE_SIZE - offset mod PAGE_SIZE) len); lia).
    mstep (rd_filent_eq _ _ _ He). rewrite Ed. mstep Hrun. rewrite (u64_small (offset + len)) by (unfold PAGE_SIZE in *; lia).
    erewrite M_bind_step by (apply upd_inode_eq; exact Hi). fold i1.
    erewrite M_bind_step by (eapply rd_inode_eq; fsimpl; apply lookup_insert_eq).
    mstep eq_refl. reflexivity.
  - apply (patched_of _ _ _ _ _ _ _ _ (IDX2INODE sb (i_ino i)) (IDX2INODE sb (i_ino i) + 8)); try done.
    + unfold PAGE_SIZE. zdm.
    + rewrite (IDX2INODE_eq sb Hlo) by apply (fo_ino _ _ _ Hok). pose proof (fo_ino _ _ _ Hok).
      destruct Hlo as [_ _ (Ht1 & Ht2 & _) (_ & [? _] & _) _ _]. lia.
    + intros k Hk'. rewrite !(IDX2INODE_eq sb Hlo) by (done || apply (fo_ino _ _ _ Hok)). unfold PI_log_head. lia.
    + intros x. rewrite bytes_update. fsimpl.
      pose proof (inode_below_data sb Hlo (i_ino i) q (fo_ino _ _ _ Hok) Hq).
      destruct (decide (IDX2INODE sb (i_ino i) <= x < IDX2INODE sb (i_ino i) + 8)) as [Hx|Hx].
      * destruct (Z.leb_spec (IDX2DATA sb q + offset mod PAGE_SIZE) x); [unfold PAGE_SIZE in *; zdm|]. simpl.
        destruct (Z.leb_spec (IDX2INODE sb (i_ino i)) x), (Z.ltb_spec x (IDX2INODE sb (i_ino i) + 8)); simpl; done || lia.
      * rewrite (store_agree _ _ _ _ x 1) by (unfold PI_i_size; simpl; lia). rewrite bytes_update, Hm1. fsimpl.
        destruct (_ && _); [done|]. destruct (_ && _); done.
    + intros x _ Hx. lia.
    + intros Hub Hm. apply store_ok. fsimpl. intros x. rewrite bytes_update, Hm1. destruct (_ && _); [apply Hub|apply Hm].
Qed.

Lemma write_loop_tail fuel cpu stray p ub buf len offset eb s i bytes s' :
  inodes s !! p = Some i -> (offset =? i_size i) && negb (Z.land offset PAGE_MASK =? 0) = true ->
  write_tail sb stray p ub len offset (mk_w offset buf len 1 0) s = Ok (bytes, s') ->
  exists w, write_loop sb cpu stray (S (S fuel)) p ub len offset eb (mk_w offset buf len 1 0) s = Ok (w, s') /\
    w_entry_num w = 0.
Proof.
  intros Hi Hc Hrun. eexists. split.
  - cbn [write_loop w_num_blk w_c w_buf w_count w_entry_num]. cbn [Z.eqb].
    mstep (rd_inode_eq _ _ _ Hi). rewrite Hc. simpl (true && _)%bool. cbv iota.
    erewrite M_bind_step by (erewrite M_bind_step by exact Hrun; reflexivity). reflexivity.
  - reflexivity.
Qed.

Lemma write_blocks_tail cpu now stray junk P p ub buf len offset s i :
  files_inv sb s P -> p ∈ P -> inodes s !! p = Some i -> write_ready s i cpu 1 -> offset = i_size i -> offset mod PAGE_SIZE <> 0 ->
  blocks_of offset len = 1 -> 0 < len -> offset + len <= 2 ^ 43 - PAGE_SIZE ->
  exists s' i', write_blocks sb cpu now stray junk p (i_ino i) ub buf len offset 1 s = Ok (len, s') /\
    wrote s s' P p i i' ub junk buf len offset.
Proof.
  intros Hinv Hp Hi [Hcpu Hsym Hlk Heb Hjnl Har Hslot Hpool] Es Hpo Hn Hl Hmax.
  destruct (fv_each _ _ _ Hinv p Hp) as (i0 & Hi0 & Hok). rewrite Hi in Hi0. injection Hi0 as <-.
  destruct (fo_size _ _ _ Hok) as [Hsz _]. destruct (in_last_block i offset len (fo_size _ _ _ Hok) Es Hpo Hn) as [Hle Hnz].
  destruct (ebuf_alloc_eq cpu s Hcpu Heb) as (E & Hg & Harr & Hea). set (eb := Z.rem cpu EBUF_NUM) in *.
  set (s1 := upd_ebuf_mgr _ s) in Hea. set (s2 := upd_ilocks (fun l => {[i_ino i]} ∪ l) s1).
  assert (files_inv sb s2 P) as Hinv2 by (by apply (files_inv_frame s); try done; apply Hinv).
  assert (0 <= eb < zlength (ebuf_mgr s)) as Hebr by (destruct Heb as [-> _]; by apply ebuf_index).
  destruct (write_tail_spec stray P p ub buf len offset s2 i Hinv2 Hp Hi Es Hpo Hn Hl Hmax) as (q & pm' & Hph & Hrun & Hpa).
  set (s3 := upd_dev _ _) in Hrun.
  assert (exists w, write_loop sb cpu stray (S (S 512)) p ub len offset eb (mk_w offset buf len 1 0) s2 = Ok (w, s3) /\ w_entry_num w = 0)
    as (w & Hloop & Ew).
  { apply (write_loop_tail 512 cpu stray p ub buf len offset eb s2 i len); try done. rewrite (land_page_mask offset) by lia.
    rewrite Es, Z.eqb_refl, <- Es. by destruct (Z.eqb_spec (offset mod PAGE_SIZE) 0). }
  set (sz := offset + len) in *.
  exists (upd_inodes <[p := finished now sz (upd_i_size (fun n => Z.max n sz) i)]>
      (upd_ebuf_mgr (fun _ => <[Z.to_nat eb := mk_ebuf (eb_arr E) 0 (eb_size E) (eb_idx E) false]> (ebuf_mgr s))
      (upd_ilocks (fun _ => ilocks s) (upd_ts (fun t => u64 (t + 1)) s3)))), (finished now sz (upd_i_size (fun n => Z.max n sz) i)). split.
  - unfold write_blocks. mstep Hea. mstep (inode_lock_eq _ s1 Hlk). rewrite (u64_small offset) by lia.
    change write_fuel with (S (S 512)). mstep Hloop. rewrite Ew.
    erewrite M_bind_step by (unfold slotfs_timestamp; mstep eq_refl; reflexivity). mstep eq_refl.
    rewrite u64_small by (unfold PAGE_SIZE in *; lia). fold sz. erewrite write_finish; [|apply lookup_insert_eq|by apply zget_insert].
    do 2 f_equal. apply fs_ext; fsimpl; try done.
    + unfold s3, s2, s1. fsimpl. clear -Hlk. set_solver.
    + unfold s3, s2, s1. fsimpl. by rewrite list_insert_insert_eq.
  - assert (Z.max (Z.max (i_size i) sz) sz = Z.max (i_size i) sz) as Em by lia.
    apply (wrote_in_place _ _ _ _ _ _ _ _ _ _ _ q); try done; try lia.
    + unfold s3. fsimpl. by rewrite insert_insert_eq.
    + unfold size_ok. change (i_size (finished now sz (upd_i_size (fun n => Z.max n sz) i))) with (Z.max (Z.max (i_size i) sz) sz).
      rewrite Em. apply (written_size 1 len offset i i); try done; [lia|apply (fo_size _ _ _ Hok)|].
      intros k Hk. by replace k with (offset / PAGE_SIZE) by lia.
    + by apply ebufs_ok_insert.
Qed.
Lemma write_journal_spec stray P p ub buf len offset s i :
  files_inv sb s P -> p ∈ P -> inodes s !! p = Some i -> serial (jnl_mgr s) -> 0 <= offset < 2 ^ 43 -> 0 < len < 1024 ->
  offset mod PAGE_SIZE + len <= PAGE_SIZE -> block_of i (offset / PAGE_SIZE) <> 0 ->
  exists q pm' mgr', phys (filents s) (block_of i) (offset / PAGE_SIZE) = Some q /\
    inode_write_journal sb stray p ub buf len offset s = Ok (len, upd_jnl_mgr (fun _ => mgr') (upd_dev (fun _ => pm') s)) /\
    serial mgr' /\ patched (i_ino i) q (offset mod PAGE_SIZE) len ub buf (bytes (dev s)) (bytes pm').
Proof.
  intros Hinv Hp Hi Hser Ho Hl Hle Hnz.
  destruct (fv_each _ _ _ Hinv p Hp) as (i0 & Hi0 & Hok). rewrite Hi in Hi0. injection Hi0 as <-.
  assert (0 <= offset / PAGE_SIZE < 2 ^ 43 /\ 0 <= offset mod PAGE_SIZE < 4096) as [Hk Hpo] by (unfold PAGE_SIZE; zdm).
  destruct (block_data s i _ Hok (proj1 Hk) Hnz) as (e & q & He & Hph & Ed & Hq & _).
  destruct (serial_alloc s Hser) as (c & Hal & ->). set (s1 := upd_jnl_mgr _ s) in Hal.
  set (begin := IDX2DATA sb q + offset mod PAGE_SIZE).
  assert (slot_table (sb_data sb) <= begin < 2 ^ 62) as Hb.
  { unfold begin. rewrite (IDX2DATA_eq sb Hlo) by done. destruct Hlo as [_ _ (_ & _ & _ & ?) _ _ ?]. lia. }
  assert (JOURNAL_START + PAGE_SIZE <= slot_table (sb_inode sb)) as Hj.
  { destruct Hlo as [_ (? & ? & ? & ? & ?) _ ([? ?] & [? ?] & [? ?] & [? ?]) _ _].
    change (JOURNAL_START + PAGE_SIZE) with 12288. change BITMAP_START with 1060864 in *. lia. }
  assert (slot_table (sb_inode sb) <= slot_table (sb_file sb) <= slot_table (sb_data sb)) as Ht.
  { destruct Hlo as [_ _ (? & ? & ? & ?) ([? ?] & [? ?] & [? ?] & [? ?]) _ _]. lia. }
  assert (0 <= slot_table (sb_inode sb)) as H0 by (eapply Z.le_trans; [|exact Hj]; done).
  destruct (journal_write_eq JOURNAL_START (i_ino i) begin len s1) as (pm2 & Hjw & Hb2). set (s2 := upd_dev _ s1) in Hjw.
  set (s3 := upd_dev (pm_update (memcpy begin ub buf len)) s2).
  destruct (serial_commit s3 eq_refl) as (s4 & Hc & Hser' & Es4).
  exists q, (pm_update (store JOURNAL_START 1 0) (dev s3)), (jnl_mgr s4). split_and!; try done.
  - unfold inode_write_journal. rewrite shiftr_page. cbv zeta. rewrite (u64_small (offset / PAGE_SIZE)) by lia.
    mstep (filent_lookup_spec sb stray p (offset / PAGE_SIZE) s i Hi Hok (conj (proj1 Hk) (block_capacity s i _ Hok (proj1 Hk) Hnz))).
    destruct (Z.eqb_spec (block_of i (offset / PAGE_SIZE)) 0); [done|]. mstep Hal.
    mstep (rd_filent_eq s1 _ _ He). rewrite land_page_mask, Ed by lia. fold begin. rewrite (u64_small begin) by lia.
    mstep (rd_inode_eq s1 _ _ Hi). mstep Hjw. mstep eq_refl. fold s3. mstep Hc. rewrite i32_small by lia. unfold mret, M_ret.
    rewrite Es4. done.
  - apply (patched_of _ _ _ _ _ _ _ _ JOURNAL_START (JOURNAL_START + PAGE_SIZE)); try done; try lia.
    + intros k Hk'. rewrite (IDX2INODE_eq sb Hlo) by done. unfold PI_log_head. lia.
    + intros x. fold begin. destruct (decide (JOURNAL_START <= x < JOURNAL_START + PAGE_SIZE)) as [Hx|Hx].
      * destruct (Z.leb_spec begin x); [lia|]. simpl.
        destruct (Z.leb_spec JOURNAL_START x), (Z.ltb_spec x (JOURNAL_START + PAGE_SIZE)); simpl; done || lia.
      * rewrite bytes_update. rewrite (store_agree _ _ _ _ x 1) by (unfold PAGE_SIZE in *; simpl; lia).
        unfold s3. fsimpl. rewrite bytes_update. unfold s2. fsimpl. unfold memcpy. rewrite Hb2, written_outside by (done || unfold jnl_room, PAGE_SIZE, SIZEOF_WJNL in *; lia).
        destruct (_ && _); [done|]. destruct (_ && _); done.
    + intros Hub Hm. apply store_ok. unfold s3. fsimpl. rewrite bytes_update. apply memcpy_ok; [|done]. unfold s2. fsimpl. rewrite Hb2.
      by repeat first [apply store_ok|apply memcpy_ok].
Qed.
(** ** [inode_write] *)

Lemma num_blk_eq offset len :
  0 <= offset -> 0 < len -> offset + len <= 2 ^ 43 - PAGE_SIZE ->
  Z.shiftr (u64 (len + Z.land offset PAGE_MASK + PAGE_SIZE - 1)) PAGE_SHIFT = blocks_of offset len.
Proof.
  intros Ho Hl Hmax. rewrite (land_page_mask offset) by lia. assert (0 <= offset mod PAGE_SIZE < 4096) by (unfold PAGE_SIZE; zdm).
  rewrite u64_small by (unfold PAGE_SIZE in *; lia). rewrite shiftr_page. unfold blocks_of. f_equal. lia.
Qed.

(** A write that takes the way through the journal. *)
Definition small_overwrite (i : dram_inode) (offset len : Z) : Prop :=
  offset <> i_size i /\ blocks_of offset len = 1 /\ len < 1024 /\ block_of i (offset / PAGE_SIZE) <> 0.

Lemma write_small cpu now stray junk P p ub buf len offset s i :
  files_inv sb s P -> p ∈ P -> inodes s !! p = Some i -> serial (jnl_mgr s) -> 0 <= offset -> 0 < len ->
  offset + len <= 2 ^ 43 - PAGE_SIZE -> small_overwrite i offset len ->
  exists q pm' mgr', phys (filents s) (block_of i) (offset / PAGE_SIZE) = Some q /\
    inode_write sb cpu now stray junk p ub buf len offset s = Ok (len, upd_jnl_mgr (fun _ => mgr') (upd_dev (fun _ => pm') s)) /\
    serial mgr' /\ patched (i_ino i) q (offset mod PAGE_SIZE) len ub buf (bytes (dev s)) (bytes pm') /\
    offset mod PAGE_SIZE + len <= PAGE_SIZE.
Proof.
  intros Hinv Hp Hi Hser Ho Hl Hmax (Hne & Hn & Hl' & Hnz).
  assert (offset mod PAGE_SIZE + len <= PAGE_SIZE) as Hle by (unfold blocks_of, PAGE_SIZE in *; zdm).
  destruct (write_journal_spec stray P p ub buf len offset s i) as (q & pm' & mgr' & Hph & Hrun & Hs & Hpa); try done.
  { unfold PAGE_SIZE in *. lia. }
  exists q, pm', mgr'. split_and!; try done.
  unfold inode_write, inode_write_atomic. cbv zeta. rewrite num_blk_eq by done. rewrite Hn. mstep (rd_inode_eq _ _ _ Hi).
  rewrite (u64_small offset) by (unfold PAGE_SIZE in *; lia). destruct (Z.eqb_spec offset (i_size i)); [done|].
  destruct (Z.ltb_spec len 1024); [|lia]. simpl ((1 =? 1) && true && negb false)%bool. cbv iota. mstep Hrun.
  destruct (Z.gtb_spec len 0); [done|lia].
Qed.

(** Otherwise the blocks are written under the lock of the inode. *)
Lemma write_large cpu now stray junk p ub buf len offset s i :
  let n := blocks_of offset len in
  inodes s !! p = Some i -> file_ok sb s i -> 0 <= offset -> 0 < len -> offset + len <= 2 ^ 43 - PAGE_SIZE ->
  offset / PAGE_SIZE + n - 1 < capacity (b_height i) \/ (offset mod PAGE_SIZE = 0 /\ (offset + len) mod PAGE_SIZE = 0) ->
  ~ small_overwrite i offset len ->
  inode_write sb cpu now stray junk p ub buf len offset s = write_blocks sb cpu now stray junk p (i_ino i) ub buf len offset n s.
Proof.
  intros n Hi Hok Ho Hl Hmax Hcap Hns. unfold inode_write, inode_write_atomic. cbv zeta. rewrite num_blk_eq by done. fold n.
  mstep (rd_inode_eq _ _ _ Hi). rewrite (u64_small offset) by (unfold PAGE_SIZE in *; lia).
  destruct (Z.eqb_spec n 1) as [Hn|]; [|by mstep eq_refl]. destruct (Z.ltb_spec len 1024); [|by mstep eq_refl].
  destruct (Z.eqb_spec offset (i_size i)) as [|Hne]; [by mstep eq_refl|]. simpl (true && true && negb false)%bool. cbv iota.
  destruct Hcap as [Hcap|[H1 H2]]; [|unfold n, blocks_of, PAGE_SIZE in *; zdm].
  assert (block_of i (offset / PAGE_SIZE) = 0) as Hz.
  { destruct (decide (block_of i (offset / PAGE_SIZE) = 0)); [done|]. by destruct Hns. }
  assert (0 <= offset / PAGE_SIZE) as Hk by (unfold PAGE_SIZE; zdm).
  erewrite M_bind_step.
  2: { unfold inode_write_journal. rewrite shiftr_page. cbv zeta. rewrite (u64_small (offset / PAGE_SIZE)) by (unfold PAGE_SIZE in *; zdm).
       mstep (filent_lookup_spec sb stray p (offset / PAGE_SIZE) s i Hi Hok ltac:(lia)). rewrite Hz. reflexivity. }
  reflexivity.
Qed.

Lemma inode_write_spec cpu now stray junk P p ub buf len offset s i r b :
  let n := blocks_of offset len in
  files_inv sb s P -> p ∈ P -> inodes s !! p = Some i -> write_ready s i cpu n ->
  do_slot_alloc_range MAP_NUM cpu (map_data s) n = Ok (r, n, b) -> fresh_range s r n b ->
  0 <= offset -> 0 < len -> offset + len <= 2 ^ 43 - PAGE_SIZE ->
  offset / PAGE_SIZE + n - 1 < capacity (b_height i) \/ (offset mod PAGE_SIZE = 0 /\ (offset + len) mod PAGE_SIZE = 0) ->
  (small_overwrite i offset len -> offset + len <= i_size i) ->
  exists s' i', inode_write sb cpu now stray junk p ub buf len offset s = Ok (len, s') /\
    wrote s s' P p i i' ub junk buf len offset.
Proof.
  intros n Hinv Hp Hi Hrdy Hall Hf Ho Hl Hmax Hcap Hsm.
  destruct (fv_each _ _ _ Hinv p Hp) as (i0 & Hi0 & Hok). rewrite Hi in Hi0. injection Hi0 as <-.
  assert (small_overwrite i offset len \/ ~ small_overwrite i offset len) as [Hs|Hs].
  { unfold small_overwrite. destruct (decide (offset = i_size i)), (decide (blocks_of offset len = 1)), (decide (len < 1024)),
      (decide (block_of i (offset / PAGE_SIZE) = 0)); (by left) || (right; tauto). }
  - destruct (write_small cpu now stray junk P p ub buf len offset s i) as (q & pm' & mgr' & Hph & Hrun & Hser & Hpa & Hle); try done.
    { apply (wy_jnl _ _ _ _ Hrdy). }
    eexists _, i. split; [exact Hrun|]. apply (wrote_in_place _ _ _ _ _ _ _ _ _ _ _ q); try done.
    + fsimpl. by rewrite insert_id.
    + specialize (Hsm Hs). lia.
    + apply (fo_size _ _ _ Hok).
    + apply (wy_ebufs _ _ _ _ Hrdy).
  - rewrite (write_large cpu now stray junk p ub buf len offset s i) by done. fold n.
    destruct ((offset =? i_size i) && negb (Z.land offset PAGE_MASK =? 0) && (n =? 1)) eqn:Hc.
    + rewrite (land_page_mask offset) in Hc by lia. apply andb_true_iff in Hc as [Hc Hn]. apply andb_true_iff in Hc as [Hc1 Hc2].
      apply Z.eqb_eq in Hc1, Hn. apply negb_true_iff, Z.eqb_neq in Hc2. rewrite Hn in *.
      by apply write_blocks_tail.
    + by apply (write_blocks_fresh cpu now stray junk P p ub buf len offset s i r b).
Qed.
(** One free slot is enough for a write within a page. *)
Lemma fresh_one cpu s :
  data_ok sb (map_data s) -> 0 <= cpu -> (exists k, 0 <= k < slot_num (sb_data sb) /\ sa_used (map_data s) k = false) ->
  exists r b, do_slot_alloc_range MAP_NUM cpu (map_data s) 1 = Ok (r, 1, b) /\ fresh_range s r 1 b.
Proof.
  intros [Hs Hv] Hcpu (k & Hk & Hf).
  destruct (do_slot_alloc_range_one MAP_NUM (map_data s) cpu Hs Hcpu ltac:(done)) as (r & b & Hrun & Hwf & Hval & Hr & Hfr & Hu).
  { exists k. split; [by apply Hv|done]. }
  exists r, b. split; [done|]. constructor; [lia| | |].
  - split; [done|]. intros x. rewrite <- Hv. apply Hval.
  - intros q Hq. replace q with r by lia. split; [by apply Hv|done].
  - intros q Hq. change (slot_bit b q = slot_bit (map_data s) q || ((r <=? q) && (q <? r + 1))). rewrite Hu by (by apply Hv). f_equal.
    destruct (Z.eqb_spec q r), (Z.leb_spec r q), (Z.ltb_spec q (r + 1)); simpl; done || lia.
Qed.

Lemma write_read_spec cpu now stray junk P p ub buf len offset s i ub2 buf2 :
  files_inv sb s P -> p ∈ P -> inodes s !! p = Some i -> write_ready s i cpu 1 ->
  (exists k, 0 <= k < slot_num (sb_data sb) /\ sa_used (map_data s) k = false) ->
  0 <= offset -> 0 < len -> offset + len <= 2 ^ 43 - PAGE_SIZE -> blocks_of offset len = 1 ->
  offset / PAGE_SIZE < capacity (b_height i) ->
  (small_overwrite i offset len -> offset + len <= i_size i) ->
  exists s' ub', inode_write sb cpu now stray junk p ub buf len offset s = Ok (len, s') /\
    inode_read sb stray p ub2 buf2 len offset s' = Ok ((len, ub'), s') /\
    (forall d, 0 <= d < len -> ub' (buf2 + d) = ub (buf + d)).
Proof.
  intros Hinv Hp Hi Hrdy Hfree Ho Hl Hmax Hn Hcap Hsm.
  destruct (fresh_one cpu s (fs_data _ _ (fv_shared _ _ _ Hinv)) (wy_cpu _ _ _ _ Hrdy) Hfree) as (r & b & Hall & Hf).
  destruct (inode_write_spec cpu now stray junk P p ub buf len offset s i r b) as (s' & i' & Hrun & W); rewrite ?Hn; try done.
  { left. lia. }
  destruct (wr_attrs _ _ _ _ _ _ _ _ _ _ _ W) as (Esz & Eino & _).
  assert (inodes s' !! p = Some i') as Hi' by (rewrite (wr_inodes _ _ _ _ _ _ _ _ _ _ _ W); apply lookup_insert_eq).
  destruct (fv_each _ _ _ (wr_inv _ _ _ _ _ _ _ _ _ _ _ W) p Hp) as (i0 & Hi0 & Hok). rewrite Hi' in Hi0. injection Hi0 as <-.
  pose proof (inode_read_spec sb Hlo stray p s' i' ub2 buf2 len offset) as Hread. cbv zeta in Hread.
  replace (Z.min len (i_size i' - offset)) with len in Hread by lia. destruct Hread as (ub' & Hrd & Hfill); try done.
  - rewrite Eino, (wr_locks _ _ _ _ _ _ _ _ _ _ _ W). apply (wy_lock _ _ _ _ Hrdy).
  - lia.
  - lia.
  - intros _. split; [apply (wr_cap _ _ _ _ _ _ _ _ _ _ _ W)|apply (wr_read _ _ _ _ _ _ _ _ _ _ _ W)].
  - exists s', ub'. split_and!; try done. intros d Hd. rewrite Hfill.
    destruct (Z.leb_spec buf2 (buf2 + d)), (Z.ltb_spec (buf2 + d) (buf2 + len)); simpl; try lia.
    rewrite (wr_range _ _ _ _ _ _ _ _ _ _ _ W) by lia. f_equal. lia.
Qed.

(** ** Properties *)

(** C6: [inode_write] of a range to a file returns [len] and has written
    exactly the range: the bytes of the range are those of the buffer, the
    other bytes of the file that had a block and every byte of the other files
    are as before, the size is the larger of the old size and the end of the
    range, the files stay well formed and apart, and locks, entry buffers and
    journals are as free as before.  This holds for the way through the write
    journal, for the append in the last block and for the way through fresh
    slots with the rest of the first and last block copied.  Assumed are: slots
    from one call of the allocator, resources, a range within the capacity of
    the tree or made of whole pages, and that a small overwrite ends in the
    file (see [inode_write_size_kept] for the others). *)
Theorem inode_write_correct cpu now stray junk P p ub buf len offset s i r b :
  files_inv sb s P -> p ∈ P -> inodes s !! p = Some i -> write_ready s i cpu (blocks_of offset len) ->
  do_slot_alloc_range MAP_NUM cpu (map_data s) (blocks_of offset len) = Ok (r, blocks_of offset len, b) ->
  fresh_range s r (blocks_of offset len) b ->
  0 <= offset -> 0 < len -> offset + len <= 2 ^ 43 - PAGE_SIZE ->
  offset / PAGE_SIZE + blocks_of offset len - 1 < capacity (b_height i) \/
    (offset mod PAGE_SIZE = 0 /\ (offset + len) mod PAGE_SIZE = 0) ->
  (small_overwrite i offset len -> offset + len <= i_size i) ->
  exists s' i', inode_write sb cpu now stray junk p ub buf len offset s = Ok (len, s') /\
    wrote s s' P p i i' ub junk buf len offset.
Proof. apply inode_write_spec. Qed.

(** What [inode_write] wrote to a page, [inode_read] reads back: as long as
    there is a free data slot, a write within one page succeeds, and a read of
    the range returns the bytes of the buffer and leaves the file system as the
    write left it. *)
Theorem inode_write_read cpu now stray junk P p ub buf len offset s i ub2 buf2 :
  files_inv sb s P -> p ∈ P -> inodes s !! p = Some i -> write_ready s i cpu 1 ->
  (exists k, 0 <= k < slot_num (sb_data sb) /\ sa_used (map_data s) k = false) ->
  0 <= offset -> 0 < len -> offset + len <= 2 ^ 43 - PAGE_SIZE -> blocks_of offset len = 1 ->
  offset / PAGE_SIZE < capacity (b_height i) ->
  (small_overwrite i offset len -> offset + len <= i_size i) ->
  exists s' ub', inode_write sb cpu now stray junk p ub buf len offset s = Ok (len, s') /\
    inode_read sb stray p ub2 buf2 len offset s' = Ok ((len, ub'), s') /\
    (forall d, 0 <= d < len -> ub' (buf2 + d) = ub (buf + d)).
Proof. apply write_read_spec. Qed.

(** A small write ([len] below 1024, in one block that exists, not at the
    end of the file) goes through the write journal and returns [len] without
    an update of [i_size]: when the range ends behind the old end of the file,
    the write is reported as done, the size stays, and the bytes behind the
    old end are not part of the file. *)
Theorem inode_write_size_kept cpu now stray junk P p ub buf len offset s i :
  files_inv sb s P -> p ∈ P -> inodes s !! p = Some i -> serial (jnl_mgr s) -> 0 <= offset -> 0 < len ->
  offset + len <= 2 ^ 43 - PAGE_SIZE -> small_overwrite i offset len ->
  exists s', inode_write sb cpu now stray junk p ub buf len offset s = Ok (len, s') /\ inodes s' = inodes s.
Proof.
  intros Hinv Hp Hi Hs Ho Hl Hmax Hsm.
  destruct (write_small cpu now stray junk P p ub buf len offset s i) as (q & pm' & mgr' & _ & Hrun & _); try done.
  by eexists.
Qed.
End write.
