(* ===== verification/FileExample.v ===== *)
(** * Two empty files

    A file system of two empty regular files on a small device, on which the
    theorems about reading and writing are applied and some runs evaluated. *)
From stdpp Require Import base numbers list gmap.
From S2P Require Import Prelude Bitops Slot Btree Rbtree RbErase DirIndex Pm Mkfs.
From S2P Require Import Fs Journal Dir File FileIndex FileLog FileRead FileWrite.
Local Open Scope Z_scope.

(** An empty file with its tree node and its ghost slot. *)
Definition empty_file (ino node slot : Z) : dram_inode :=
  mk_inode ino 0 0 0 0 1 33188 0 0 0 0 (mk_tree 0 ∅) node 0 {[node := mk_node 0 0 0 0 ∅]} (mk_ptr 0 0 0) 0 0 slot slot [] [].

Definition two_mem : mem :=
  store (IDX2INODE example_sb 6 + PI_log_head) 8 2 (store (IDX2INODE example_sb 5 + PI_log_head) 8 1 (fun _ => 0)).
Definition two_files (data_bits : list Z) (hint : Z) : fs :=
  mk_fs (mk_pmem two_mem [])
    [example_map [97; 0; 0; 0; 0; 0; 0; 0] 64 1] [example_map [1; 0; 0; 0; 0; 0; 0; 0] 64 1]
    [example_map [7; 0; 0; 0; 0; 0; 0; 0] 64 3] [example_map data_bits 64 hint]
    {[8192 := empty_file 5 1 1; 12288 := empty_file 6 2 2]} ∅ ∅ [] [65536; 65664; 65792; 65920; 66048; 66176] (seqZ 3 40) ∅ ∅
    (replicate 128 (mk_ebuf (replicate 512 (mk_unit 0 0 0)) 0 512 0 false))
    journal_mgr_init [] 0 4096.
Definition free_data : list Z := [1; 0; 0; 0; 0; 0; 0; 0].

Definition wr (p : Z) (v len offset : Z) : M fs Z := inode_write example_sb 0 0 0 (fun _ => 0) p (fun _ => v) 0 len offset.
Definition rd (p : Z) (len offset : Z) : M fs (Z * mem) := inode_read example_sb 0 p (fun _ => 255) 0 len offset.

Lemma empty_blocks ino node slot k : block_of (empty_file ino node slot) k = 0.
Proof.
  unfold block_of, contents, depth, tree_of. simpl. destruct (k / 256 =? 0).
  - unfold ch. simpl. rewrite lookup_singleton_eq. simpl. by rewrite lookup_empty.
  - unfold ch. simpl. destruct ({[node := _]} !! 0) as [n|] eqn:E; [|done].
    apply lookup_singleton_Some in E as [_ <-]. simpl. by rewrite lookup_empty.
Qed.

Lemma empty_tree ino node slot l :
  0 < node -> NoDup l -> (forall x, x ∈ l -> node < x) -> btree_wf (tree_of (empty_file ino node slot) l).
Proof.
  intros Hn Hnd Hl. split; simpl; [lia|rewrite lookup_singleton_eq; by eexists|apply lookup_singleton_ne; lia| | |].
  - intros a n [<- <-]%lookup_singleton_Some i c. simpl. by rewrite lookup_empty.
  - intros a n [<- <-]%lookup_singleton_Some. split; [simpl; lia|]. by rewrite decide_True.
  - split; [done|]. intros p Hp. specialize (Hl p Hp). split; [lia|]. apply lookup_singleton_ne. lia.
Qed.

Lemma empty_phys F ino node slot k : phys F (block_of (empty_file ino node slot)) k = None.
Proof. unfold phys. by rewrite empty_blocks. Qed.

Lemma empty_file_ok data h ino node slot :
  0 <= ino < 64 -> 0 < node < 3 -> 0 < slot < 64 -> sa_used (map_file (two_files data h)) slot = true ->
  pm_head example_sb two_mem ino = slot ->
  file_ok example_sb (two_files data h) (empty_file ino node slot).
Proof.
  intros Hi Hn Hs Hu Hh. constructor; try done.
  - apply empty_tree; [lia|apply (NoDup_seqZ 3 40)|]. intros x Hx. change (x ∈ seqZ 3 40) in Hx. apply elem_of_seqZ in Hx. lia.
  - constructor; try (intros; by rewrite ?empty_phys in *).
    + by intros fe ?%elem_of_nil.
    + split; [apply NoDup_nil_2|by intros ? ?%elem_of_nil].
    + intros k _ Hk. by rewrite empty_blocks in Hk.
  - apply NoDup_nil_2.
  - by intros fe ?%elem_of_nil.
  - apply NoDup_singleton.
  - intros k Hk%list_elem_of_singleton. by subst k.
Qed.

Lemma empty_apart F i1 n1 k1 i2 n2 k2 : i1 <> i2 -> k1 <> k2 -> file_apart F (empty_file i1 n1 k1) (empty_file i2 n2 k2).
Proof.
  intros Hi Hk. split_and!; [done|by intros ? ?%elem_of_nil| |].
  - intros k Hk1%list_elem_of_singleton Hk2%list_elem_of_singleton. simpl in *. congruence.
  - intros ??? _ _. by rewrite empty_phys.
Qed.

Lemma two_inode_1 data h : inodes (two_files data h) !! 8192 = Some (empty_file 5 1 1).
Proof. done. Qed.
Lemma two_inode_2 data h : inodes (two_files data h) !! 12288 = Some (empty_file 6 2 2).
Proof. done. Qed.

Lemma two_heads : pm_head example_sb two_mem 5 = 1 /\ pm_head example_sb two_mem 6 = 2.
Proof. by vm_compute. Qed.

Lemma two_data_ok data h : maps_wf 1 [example_map data 64 h] -> data_ok example_sb (map_data (two_files data h)).
Proof. intros Hd. split; [exact Hd|]. intros k. by apply (single_map_valid (example_map data 64 h)). Qed.

Lemma two_files_inv data h :
  maps_wf 1 [example_map data 64 h] -> files_inv example_sb (two_files data h) [8192; 12288].
Proof.
  intros Hd. constructor.
  - constructor.
    + by apply two_data_ok.
    + change (maps_wf 1 [example_map [7; 0; 0; 0; 0; 0; 0; 0] 64 3]). example_wf.
    + intros k. by apply (single_map_valid (example_map [7; 0; 0; 0; 0; 0; 0; 0] 64 3)).
    + done.
    + repeat (apply NoDup_cons; split; [rewrite ?elem_of_cons, elem_of_nil; lia|]). apply NoDup_nil_2.
    + intros d. cbn. rewrite !elem_of_cons, elem_of_nil. lia.
  - destruct two_heads. intros p. rewrite !elem_of_cons, elem_of_nil. intros [->|[->|[]]].
    + exists (empty_file 5 1 1). split; [apply two_inode_1|apply empty_file_ok; [lia|lia|lia|reflexivity|assumption]].
    + exists (empty_file 6 2 2). split; [apply two_inode_2|apply empty_file_ok; [lia|lia|lia|reflexivity|assumption]].
  - intros p q i j. rewrite !elem_of_cons, !elem_of_nil.
    pose proof (two_inode_1 data h) as E1. pose proof (two_inode_2 data h) as E2.
    intros [->|[->|[]]] [->|[->|[]]] Hne; [congruence| | |congruence].
    all: rewrite E1, E2; intros [= <-] [= <-]; apply empty_apart; lia.
Qed.

(** ** The theorems at work *)

Definition example_ub : mem := fun x => x mod 256.

Lemma free_data_wf : maps_wf 1 [example_map free_data 64 1].
Proof. unfold free_data. example_wf. Qed.
Lemma two_ready : write_ready example_sb (two_files free_data 1) (empty_file 5 1 1) 0 1.
Proof.
  constructor; try done; try lia.
  - split; [done|]. by apply Forall_replicate.
  - split; [done|by left].
  - exists 3. split; [simpl; lia|done].
  - simpl. lia.
Qed.
Lemma two_free : exists k, 0 <= k < slot_num (sb_data example_sb) /\ sa_used (map_data (two_files free_data 1)) k = false.
Proof. exists 1. split; [simpl; lia|done]. Qed.

(** 3000 bytes written to the empty file. *)
Lemma two_written :
  exists s i, inode_write example_sb 0 0 0 (fun _ => 0) 8192 example_ub 0 3000 0 (two_files free_data 1) = Ok (3000, s) /\
    wrote example_sb (two_files free_data 1) s [8192; 12288] 8192 (empty_file 5 1 1) i example_ub (fun _ => 0) 0 3000 0.
Proof.
  destruct (fresh_one example_sb 0 (two_files free_data 1)) as (r & b & Hall & Hf);
    [apply two_data_ok, free_data_wf|lia|apply two_free|].
  apply (inode_write_spec example_sb example_layout 0 0 0 (fun _ => 0) [8192; 12288] 8192 example_ub 0 3000 0 _ _ r b);
    [apply two_files_inv, free_data_wf|by left|apply two_inode_1|apply two_ready|exact Hall|exact Hf|lia|lia|done|by left|].
  intros (_ & _ & _ & H). by rewrite empty_blocks in H.
Qed.

Lemma inode_write_correct_witness :
  exists s i, inode_write example_sb 0 0 0 (fun _ => 0) 8192 example_ub 0 3000 0 (two_files free_data 1) = Ok (3000, s) /\
    wrote example_sb (two_files free_data 1) s [8192; 12288] 8192 (empty_file 5 1 1) i example_ub (fun _ => 0) 0 3000 0.
Proof.
  destruct (fresh_one example_sb 0 (two_files free_data 1)) as (r & b & Hall & Hf);
    [apply two_data_ok, free_data_wf|lia|apply two_free|].
  apply (inode_write_correct example_sb example_layout 0 0 0 (fun _ => 0) [8192; 12288] 8192 example_ub 0 3000 0 _ _ r b);
    [apply two_files_inv, free_data_wf|by left|apply two_inode_1|apply two_ready|exact Hall|exact Hf|lia|lia|done|by left|].
  intros (_ & _ & _ & H). by rewrite empty_blocks in H.
Defined.

Lemma inode_write_read_witness :
  exists s ub, inode_write example_sb 0 0 0 (fun _ => 0) 8192 example_ub 0 3000 0 (two_files free_data 1) = Ok (3000, s) /\
    inode_read example_sb 0 8192 (fun _ => 0) 500 3000 0 s = Ok ((3000, ub), s) /\
    (forall d, 0 <= d < 3000 -> ub (500 + d) = example_ub (0 + d)).
Proof.
  apply (inode_write_read example_sb example_layout 0 0 0 (fun _ => 0) [8192; 12288] 8192 example_ub 0 3000 0 _ (empty_file 5 1 1));
    [apply two_files_inv, free_data_wf|by left|apply two_inode_1|apply two_ready|apply two_free|lia|lia|done|done|done|].
  intros (_ & _ & _ & H). by rewrite empty_blocks in H.
Defined.

(** A read of 2500 bytes at 1000 of a file of 3000 bytes. *)
Lemma inode_read_correct_witness :
  exists s ub, inode_read example_sb 0 8192 (fun _ => 0) 0 2500 1000 s = Ok ((2000, ub), s) /\
    forall d, 0 <= d < 2000 -> ub d = example_ub (1000 + d).
Proof.
  destruct two_written as (s & i & _ & W). destruct (wr_attrs _ _ _ _ _ _ _ _ _ _ _ _ W) as (Esz & Eino & _).
  pose proof (wr_inv _ _ _ _ _ _ _ _ _ _ _ _ W) as Hinv. pose proof (wr_locks _ _ _ _ _ _ _ _ _ _ _ _ W) as Elk.
  assert (inodes s !! 8192 = Some i) as Hi by (rewrite (wr_inodes _ _ _ _ _ _ _ _ _ _ _ _ W); apply lookup_insert_eq).
  destruct (fv_each _ _ _ Hinv 8192) as (i0 & Hi0 & Hok); [by left|]. rewrite Hi in Hi0. injection Hi0 as <-.
  assert (i_size i = 3000) as Es by (simpl in Esz; lia).
  pose proof (inode_read_correct example_sb example_layout 0 8192 s i (fun _ => 0) 0 2500 1000) as Hread. cbv zeta in Hread. rewrite Es in Hread.
  destruct Hread as (ub & Hrun & Hub); [exact Hi|exact Hok|rewrite Elk; apply not_elem_of_empty|lia|lia| |].
  - intros _. split; [apply (wr_cap _ _ _ _ _ _ _ _ _ _ _ _ W)|]. left. intros k Hk. f_equal.
    change (1000 / PAGE_SIZE) with 0 in *. change ((1000 + Z.min 2500 (3000 - 1000) - 1) / PAGE_SIZE) with 0 in *. lia.
  - exists s, ub. split; [exact Hrun|]. intros d Hd. rewrite Hub. change (Z.min 2500 (3000 - 1000)) with 2000.
    destruct (Z.leb_spec 0 d), (Z.ltb_spec d (0 + 2000)); simpl; try lia.
    rewrite (wr_range _ _ _ _ _ _ _ _ _ _ _ _ W) by lia. f_equal. lia.
Defined.

(** A write of 500 bytes at 2800, which ends behind the end of the file at 3000. *)
Lemma inode_write_size_kept_witness :
  exists s s' i, inode_write example_sb 0 0 0 (fun _ => 0) 8192 example_ub 0 500 2800 s = Ok (500, s') /\
    inodes s' !! 8192 = Some i /\ i_size i = 3000.
Proof.
  destruct two_written as (s & i & _ & W). destruct (wr_attrs _ _ _ _ _ _ _ _ _ _ _ _ W) as (Esz & _ & _).
  pose proof (wr_inv _ _ _ _ _ _ _ _ _ _ _ _ W) as Hinv.
  assert (inodes s !! 8192 = Some i) as Hi by (rewrite (wr_inodes _ _ _ _ _ _ _ _ _ _ _ _ W); apply lookup_insert_eq).
  destruct (inode_write_size_kept example_sb example_layout 0 0 0 (fun _ => 0) [8192; 12288] 8192 example_ub 0 500 2800 s i)
    as (s' & Hrun & E); [exact Hinv|by left|exact Hi|apply (wr_jnl _ _ _ _ _ _ _ _ _ _ _ _ W)|lia|lia|done| |].
  - split_and!; [rewrite Esz; simpl; lia|done|lia|].
    destruct (fv_each _ _ _ Hinv 8192) as (i0 & Hi0 & Hok); [by left|]. rewrite Hi in Hi0. injection Hi0 as <-.
    destruct (fo_size _ _ _ Hok) as [_ Hb]. rewrite Esz in Hb. apply Hb. done.
  - exists s, s', i. split_and!; [exact Hrun|by rewrite E|exact Esz].
Defined.

(** ** Where the code does not do what it means to *)

(** Few free data slots: 1, 2 and 3; only 1. *)
Definition few_free : list Z := [241; 255; 255; 255; 255; 255; 255; 255].
Definition one_free : list Z := [253; 255; 255; 255; 255; 255; 255; 255].
Definition data_byte0 : M fs Z := gets (fun s => match map_data s with b :: _ => nth 0 (dram b) 0 | [] => -1 end).

(** [inode_read] that starts inside an extent reads too far: it copies up to
    [blocks] pages from the first block it looks up, not from the first block
    of the extent.  Here page 2 holds twos; the read of pages 1 and 2 returns
    nines in their place, data of page 5. *)
Theorem inode_read_over_extent :
  eval (_ ← wr 8192 1 8192 0; _ ← wr 8192 9 4096 20480; _ ← wr 8192 2 4096 8192;
        '(n, u) ← rd 8192 8192 4096; '(_, v) ← rd 8192 4096 8192; mret (n, u 0, u 4096, v 0)) (two_files free_data 1)
  = Ok (8192, 1, 9, 2).
Proof. vm_compute. reflexivity. Qed.

(** Releasing a file frees the data slots of its overwritten entries a
    second time: slot 1, which the first overwrite freed and the other file has
    taken since, is marked free while the other file uses it. *)
Theorem release_frees_live_slot :
  eval (_ ← wr 8192 1 4096 0; _ ← wr 8192 2 4096 0; _ ← wr 12288 3 4096 0; _ ← wr 12288 4 4096 4096;
        i ← rd_inode 12288; s ← get; _ ← do_inode_release example_sb 8192; b ← data_byte0;
        mret (phys (filents s) (block_of i) 1, Z.testbit b 1)) (two_files few_free 1)
  = Ok (Some 1, false).
Proof. vm_compute. reflexivity. Qed.

(** A write that starts inside a block without data leaves the rest of the
    fresh slot as it is: the file shows data of a file that was released. *)
Theorem inode_write_stale :
  eval (_ ← wr 8192 7 4096 0; _ ← do_inode_release example_sb 8192; _ ← wr 12288 9 10 4;
        '(n, u) ← rd 12288 14 0; mret (n, u 0, u 4)) (two_files one_free 1)
  = Ok (14, 7, 9).
Proof. vm_compute. reflexivity. Qed.

(** With no data slot left [slot_data_alloc] returns -1 as an unsigned
    number and no slots; the test [nr < 0] fails and the loop adds entries
    until it leaves the entry buffer. *)
Theorem inode_write_no_space :
  eval (_ ← wr 8192 1 4096 0; wr 12288 2 4096 0) (two_files one_free 1) = Fault OutOfBounds.
Proof. vm_compute. reflexivity. Qed.

(** Truncating a file faults: [file_remove_entry] gives the entry back to
    the arena and then follows its list links. *)
Theorem inode_shrink_use_after_free :
  eval (_ ← wr 8192 1 4096 0; inode_resize example_sb 0 0 (fun _ => 0) 8192 0) (two_files free_data 1) = Fault UseAfterFree.
Proof. vm_compute. reflexivity. Qed.
