(* ===== verification/Runtime.v ===== *)
(** * The runtime of a process (src/slotfs/runtime.c, runtime.h)

    The table of open files, the error number and the working directory.  The
    state of the system is the file system, the heap and the runtime.  The
    lock of the table is held for the whole of [fd_alloc] and [fd_free]. *)
From stdpp Require Import base numbers list gmap.
From S2P Require Import Prelude Slot Btree Rbtree Pm Mkfs Heap Fs.
Local Open Scope Z_scope.

Definition FD_MAX : Z := 4096 * 2.

Record f_header : Type := mk_fh {
  fh_fd : Z;
  fh_file : Z;   (* inode_t*, 0 for NULL *)
  fh_offset : Z;   (* off_t *)
  fh_flags : Z;
  fh_valid : bool;
  temp_dirent : Z;   (* struct dirent*, 0 for NULL *)
}.

Record runtime : Type := mk_rt {
  f_table : list f_header;
  fd_hint : Z;
  _errno : Z;
  uid : Z;
  gid : Z;
  cwd : Z;   (* inode_t* *)
}.

Definition upd_f_table (f : list f_header -> list f_header) (r : runtime) : runtime :=
  mk_rt (f (f_table r)) (fd_hint r) (_errno r) (uid r) (gid r) (cwd r).
Definition upd_fd_hint (f : Z -> Z) (r : runtime) : runtime :=
  mk_rt (f_table r) (f (fd_hint r)) (_errno r) (uid r) (gid r) (cwd r).
Definition upd_errno (f : Z -> Z) (r : runtime) : runtime :=
  mk_rt (f_table r) (fd_hint r) (f (_errno r)) (uid r) (gid r) (cwd r).

Record sys : Type := mk_sys {
  y_fs : fs;
  y_heap : heap_t;
  y_rt : runtime;
}.

Definition upd_y_fs (f : fs -> fs) (y : sys) : sys := mk_sys (f (y_fs y)) (y_heap y) (y_rt y).
Definition upd_y_heap (f : heap_t -> heap_t) (y : sys) : sys := mk_sys (y_fs y) (f (y_heap y)) (y_rt y).
Definition upd_y_rt (f : runtime -> runtime) (y : sys) : sys := mk_sys (y_fs y) (y_heap y) (f (y_rt y)).

(** Computations of the parts on the whole. *)
Definition on_fs {A} (m : M fs A) : M sys A := zoom y_fs (fun s => upd_y_fs (fun _ => s)) m.
Definition on_heap {A} (m : M heap_t A) : M sys A := zoom y_heap (fun h => upd_y_heap (fun _ => h)) m.
Definition on_rt {A} (m : M runtime A) : M sys A := zoom y_rt (fun r => upd_y_rt (fun _ => r)) m.

Definition set_errno (err : Z) : M runtime unit := modify (upd_errno (fun _ => err)).
Definition get_fh (fd : Z) : M runtime f_header := r ← get; lift (zget (f_table r) fd).
Definition set_fh (fd : Z) (fh : f_header) : M runtime unit :=
  r ← get; l ← lift (zset (f_table r) fd fh); modify (upd_f_table (fun _ => l)).

(** The [for] loop of [fd_alloc] with [n] rounds left; [None]: no slot found. *)
Fixpoint fd_loop (n : nat) (i : Z) : M runtime (option Z) :=
  match n with
  | O => mret None
  | S n' =>
      r ← get;
      let index := Z.rem (fd_hint r + i) FD_MAX in
      fh ← get_fh index;
      if fh_valid fh then fd_loop n' (i + 1) else
      _ ← modify (upd_fd_hint (fun _ => Z.rem (index + 1) FD_MAX));
      _ ← set_fh index (mk_fh index 0 0 0 true 0);
      mret (Some index)
  end.

(** The descriptor of the header, -1 for NULL. *)
Definition fd_alloc : M runtime Z :=
  r ← fd_loop (Z.to_nat FD_MAX) 0;
  match r with
  | Some fd => mret fd
  | None =>
      r ← fd_loop (Z.to_nat FD_MAX) 0;
      match r with Some fd => mret fd | None => mret (-1) end
  end.

Definition fd_free (fd : Z) : M runtime unit :=
  fh ← get_fh fd;
  set_fh fd (mk_fh (fh_fd fh) 0 (fh_offset fh) (fh_flags fh) false (temp_dirent fh)).

(** ** Running the parts *)

Lemma on_fs_run {A} (m : M fs A) y a s' : m (y_fs y) = Ok (a, s') -> on_fs m y = Ok (a, upd_y_fs (fun _ => s') y).
Proof. intros H. unfold on_fs, zoom. by rewrite H. Qed.
Lemma on_heap_run {A} (m : M heap_t A) y a h' : m (y_heap y) = Ok (a, h') -> on_heap m y = Ok (a, upd_y_heap (fun _ => h') y).
Proof. intros H. unfold on_heap, zoom. by rewrite H. Qed.
Lemma on_rt_run {A} (m : M runtime A) y a r' : m (y_rt y) = Ok (a, r') -> on_rt m y = Ok (a, upd_y_rt (fun _ => r') y).
Proof. intros H. unfold on_rt, zoom. by rewrite H. Qed.

Lemma get_fh_at r fd fh : 0 <= fd -> f_table r !! Z.to_nat fd = Some fh -> get_fh fd r = Ok (fh, r).
Proof. intros Hfd Hl. unfold get_fh. mstep eq_refl. unfold lift, zget. rewrite (proj2 (Z.leb_le 0 fd)) by done. by rewrite Hl. Qed.
Lemma set_fh_at r fd fh g : 0 <= fd -> f_table r !! Z.to_nat fd = Some g ->
  set_fh fd fh r = Ok (tt, upd_f_table <[Z.to_nat fd := fh]> r).
Proof.
  intros Hfd Hl. unfold set_fh. mstep eq_refl. apply lookup_lt_Some in Hl.
  erewrite M_bind_step by (unfold lift; rewrite zset_in by (unfold zlength; lia); reflexivity). done.
Qed.

(** ** The table of open files *)

Record rt_ok (r : runtime) : Prop := {
  rt_len : zlength (f_table r) = FD_MAX;
  rt_hint : 0 <= fd_hint r < FD_MAX;
}.

Lemma get_fh_eq fd r : rt_ok r -> 0 <= fd < FD_MAX -> exists fh, f_table r !! Z.to_nat fd = Some fh /\ get_fh fd r = Ok (fh, r).
Proof.
  intros Hr Hfd. rewrite <- (rt_len r Hr) in Hfd. destruct (zget_in _ _ Hfd) as (fh & H1 & H2). exists fh. split; [done|].
  unfold get_fh. mstep eq_refl. unfold lift. by rewrite H2.
Qed.

Definition next_fd (r : runtime) (i : Z) : Z := (fd_hint r + i) mod FD_MAX.

(** The loop returns the first descriptor from the hint on that is not in use. *)
Lemma fd_loop_spec n i r :
  rt_ok r -> 0 <= i -> i + Z.of_nat n = FD_MAX ->
  (exists k fh, i <= k < FD_MAX /\ f_table r !! Z.to_nat (next_fd r k) = Some fh /\ fh_valid fh = false /\
     (forall j, i <= j < k -> exists g, f_table r !! Z.to_nat (next_fd r j) = Some g /\ fh_valid g = true) /\
     fd_loop n i r = Ok (Some (next_fd r k), upd_f_table <[Z.to_nat (next_fd r k) := mk_fh (next_fd r k) 0 0 0 true 0]>
       (upd_fd_hint (fun _ => (next_fd r k + 1) mod FD_MAX) r))) \/
  ((forall j, i <= j < FD_MAX -> exists g, f_table r !! Z.to_nat (next_fd r j) = Some g /\ fh_valid g = true) /\
   fd_loop n i r = Ok (None, r)).
Proof.
  intros Hr. revert i. induction n as [|n IH]; intros i Hi Hn.
  { right. split; [intros j Hj; lia|done]. }
  assert (Z.rem (fd_hint r + i) FD_MAX = next_fd r i) as E.
  { pose proof (rt_hint r Hr). apply Z.rem_mod_nonneg; [lia|done]. }
  assert (0 <= next_fd r i < FD_MAX) as Hx by (by apply Z.mod_pos_bound).
  destruct (get_fh_eq (next_fd r i) r Hr Hx) as (fh & Hl & Hg).
  cbn [fd_loop]. destruct (fh_valid fh) eqn:Hv.
  - destruct (IH (i + 1) ltac:(lia) ltac:(lia)) as [(k & g & Hk & Hkl & Hkv & Hall & Hrun)|[Hall Hrun]].
    + left. exists k, g. split_and!; try done; try lia.
      * intros j Hj. destruct (decide (j = i)) as [->|]; [by exists fh|apply Hall; lia].
      * mstep eq_refl. cbv zeta. rewrite E. mstep Hg. rewrite Hv. exact Hrun.
    + right. split.
      * intros j Hj. destruct (decide (j = i)) as [->|]; [by exists fh|apply Hall; lia].
      * mstep eq_refl. cbv zeta. rewrite E. mstep Hg. rewrite Hv. exact Hrun.
  - left. exists i, fh. split_and!; try done; try lia. mstep eq_refl. cbv zeta. rewrite E. mstep Hg. rewrite Hv.
    rewrite (Z.rem_mod_nonneg (next_fd r i + 1)) by (done || lia). mstep eq_refl.
    unfold set_fh. erewrite M_bind_step; [reflexivity|]. mstep eq_refl.
    erewrite M_bind_step by (unfold lift; rewrite zset_in by (change (0 <= next_fd r i < zlength (f_table r)); by rewrite (rt_len r Hr)); reflexivity).
    done.
Qed.

Lemma next_fd_surj r fd : rt_ok r -> 0 <= fd < FD_MAX -> exists k, 0 <= k < FD_MAX /\ next_fd r k = fd.
Proof.
  intros Hr Hfd. exists ((fd - fd_hint r) mod FD_MAX). split; [by apply Z.mod_pos_bound|]. unfold next_fd.
  rewrite Z.add_mod_idemp_r by done. replace (fd_hint r + (fd - fd_hint r)) with fd by lia. by apply Z.mod_small.
Qed.


Lemma fd_alloc_spec r :
  rt_ok r ->
  exists fd r', fd_alloc r = Ok (fd, r') /\ rt_ok r' /\
    ((fd = -1 /\ r' = r /\ forall k, 0 <= k < FD_MAX -> exists g, f_table r !! Z.to_nat k = Some g /\ fh_valid g = true) \/
     (0 <= fd < FD_MAX /\ (exists g, f_table r !! Z.to_nat fd = Some g /\ fh_valid g = false) /\
      f_table r' = <[Z.to_nat fd := mk_fh fd 0 0 0 true 0]> (f_table r) /\ cwd r' = cwd r)).
Proof.
  intros Hr. unfold fd_alloc.
  destruct (fd_loop_spec (Z.to_nat FD_MAX) 0 r Hr ltac:(lia) ltac:(done)) as [(k & g & Hk & Hl & Hv & _ & Hrun)|[Hall Hrun]].
  - assert (0 <= next_fd r k < FD_MAX) as Hx by (by apply Z.mod_pos_bound).
    eexists _, _. split; [by mstep Hrun|]. split.
    + constructor; simpl; [rewrite zlength_insert; apply Hr|by apply Z.mod_pos_bound].
    + right. split_and!; try lia; [by exists g|done|done].
  - exists (-1), r. split; [mstep Hrun; by mstep Hrun|]. split; [done|]. left. split_and!; try done.
    intros fd Hfd. destruct (next_fd_surj r fd Hr Hfd) as (j & Hj & <-). by apply Hall.
Qed.

Lemma fd_free_spec r fd :
  rt_ok r -> 0 <= fd < FD_MAX ->
  exists r', fd_free fd r = Ok (tt, r') /\ rt_ok r' /\
    (exists g, f_table r' !! Z.to_nat fd = Some g /\ fh_valid g = false /\ fh_file g = 0) /\
    (forall k, k <> Z.to_nat fd -> f_table r' !! k = f_table r !! k).
Proof.
  intros Hr Hfd. destruct (get_fh_eq fd r Hr Hfd) as (fh & Hl & Hg). rewrite <- (rt_len r Hr) in Hfd.
  eexists. split_and!.
  - unfold fd_free. mstep Hg. unfold set_fh. mstep eq_refl.
    erewrite M_bind_step by (unfold lift; rewrite zset_in by exact Hfd; reflexivity). reflexivity.
  - constructor; simpl; [rewrite zlength_insert; apply Hr|apply Hr].
  - eexists. split; [apply list_lookup_insert_eq; unfold zlength in Hfd; lia|done].
  - intros k Hk. simpl. by apply list_lookup_insert_ne.
Qed.

(** ** Properties *)

(** [fd_alloc] hands out a descriptor that was not in use and makes its
    entry valid and empty, leaves every other entry of the table as it was, and
    returns NULL exactly when all descriptors are in use. *)
Theorem fd_alloc_correct r :
  rt_ok r ->
  exists fd r', fd_alloc r = Ok (fd, r') /\ rt_ok r' /\
    ((fd = -1 /\ r' = r /\ forall k, 0 <= k < FD_MAX -> exists g, f_table r !! Z.to_nat k = Some g /\ fh_valid g = true) \/
     (0 <= fd < FD_MAX /\ (exists g, f_table r !! Z.to_nat fd = Some g /\ fh_valid g = false) /\
      f_table r' = <[Z.to_nat fd := mk_fh fd 0 0 0 true 0]> (f_table r) /\ cwd r' = cwd r)).
Proof. apply fd_alloc_spec. Qed.

(** A descriptor that is released can be handed out again: after [fd_free]
    its entry is not valid and has no file, and no other entry has changed. *)
Theorem fd_free_correct r fd :
  rt_ok r -> 0 <= fd < FD_MAX ->
  exists r', fd_free fd r = Ok (tt, r') /\ rt_ok r' /\
    (exists g, f_table r' !! Z.to_nat fd = Some g /\ fh_valid g = false /\ fh_file g = 0) /\
    (forall k, k <> Z.to_nat fd -> f_table r' !! k = f_table r !! k).
Proof. apply fd_free_spec. Qed.

(** A table without open files. *)
Definition empty_table : list f_header := (fun k => mk_fh (Z.of_nat k) 0 0 0 false 0) <$> seq 0 (Z.to_nat FD_MAX).
Definition empty_rt (cwd : Z) : runtime := mk_rt empty_table 0 0 0 0 cwd.

Lemma empty_rt_ok c : rt_ok (empty_rt c).
Proof. constructor; [|done]. unfold zlength, empty_rt, empty_table. cbn [f_table]. rewrite length_fmap, length_seq. done. Qed.
Lemma fd_alloc_correct_witness : exists fd r', fd_alloc (empty_rt 0) = Ok (fd, r') /\ rt_ok r'.
Proof. destruct (fd_alloc_correct (empty_rt 0) (empty_rt_ok 0)) as (fd & r' & H1 & H2 & _). by exists fd, r'. Defined.
Lemma fd_free_correct_witness : exists r', fd_free 3 (empty_rt 0) = Ok (tt, r') /\ rt_ok r'.
Proof. destruct (fd_free_correct (empty_rt 0) 3 (empty_rt_ok 0) ltac:(done)) as (r' & H1 & H2 & _). by exists r'. Defined.
