(* ===== verification/Vfs.v ===== *)
(** * Path lookup (src/slotfs/slot_vfs.c, slot_vfs.h)

    [path_lookup] walks a path from directory to directory; the lock of the
    directory reached is handed on to the next one.  A [char *] is the list of
    the bytes up to the terminating zero.  The nesting of symbolic links is
    bounded by the [depth] of the name data, the walk by the length of the
    path: [lookup_fuel] levels are enough, and the loop is structural.

    Proved are: the walk always ends; it follows the components of the path;
    and it returns with exactly the lock of the inode (or of the parent) it
    found, or, with an error, with no lock. *)
From stdpp Require Import base numbers list gmap.
From S2P Require Import Prelude Slot Btree Rbtree DirIndex Pm Mkfs Heap Fs Dir File Runtime.
Local Open Scope Z_scope.

Definition ELOOP : Z := 40.
Definition ND_PARENT : Z := 1.
Definition ND_NOFOLLOW : Z := 2.
Definition MAX_LOOP : Z := 10.
Definition SLASH : Z := 47.

Record nameidata : Type := mk_nd {
  nd_path : list Z;
  nd_start : Z;
  nd_current : Z;
  nd_parent : Z;
  nd_depth : Z;   (* uint8_t *)
  nd_flags : Z;   (* uint16_t *)
  nd_last : list Z;   (* the rest of the path from its last component *)
  nd_last_len : Z;
}.

Definition set_path (p : list Z) (nd : nameidata) : nameidata :=
  mk_nd p (nd_start nd) (nd_current nd) (nd_parent nd) (nd_depth nd) (nd_flags nd) (nd_last nd) (nd_last_len nd).
Definition set_start (p : Z) (nd : nameidata) : nameidata :=
  mk_nd (nd_path nd) p (nd_current nd) (nd_parent nd) (nd_depth nd) (nd_flags nd) (nd_last nd) (nd_last_len nd).
Definition set_current (p : Z) (nd : nameidata) : nameidata :=
  mk_nd (nd_path nd) (nd_start nd) p (nd_parent nd) (nd_depth nd) (nd_flags nd) (nd_last nd) (nd_last_len nd).
Definition set_parent (p : Z) (nd : nameidata) : nameidata :=
  mk_nd (nd_path nd) (nd_start nd) (nd_current nd) p (nd_depth nd) (nd_flags nd) (nd_last nd) (nd_last_len nd).
Definition set_depth (d : Z) (nd : nameidata) : nameidata :=
  mk_nd (nd_path nd) (nd_start nd) (nd_current nd) (nd_parent nd) d (nd_flags nd) (nd_last nd) (nd_last_len nd).
Definition set_flags (f : Z) (nd : nameidata) : nameidata :=
  mk_nd (nd_path nd) (nd_start nd) (nd_current nd) (nd_parent nd) (nd_depth nd) f (nd_last nd) (nd_last_len nd).
Definition set_last (l : list Z) (n : Z) (nd : nameidata) : nameidata :=
  mk_nd (nd_path nd) (nd_start nd) (nd_current nd) (nd_parent nd) (nd_depth nd) (nd_flags nd) l n.

Definition has_flag (flags bit : Z) : bool := negb (Z.land flags bit =? 0).

Section vfs.
Context (sb : pm_super_block) (now stray : Z) (junk : mem).

(** ** The inode cache *)

(** The inode, locked.  The argument is an [unsigned long]. *)
Definition iget (arg : Z) : M fs Z :=
  let ino := u64 arg in
  _ ← inode_lock ino;
  s ← get;
  match inode_table s !! ino with
  | Some inode => mret inode
  | None =>
      inode ← inode_alloc;
      if inode =? 0 then
        _ ← inode_unlock ino;
        mret (- ENOMEM)
      else
      _ ← upd_inode inode (upd_i_ino (fun _ => ino));
      ret ← inode_rebuild sb now stray junk inode;
      if negb (ret =? 0) then
        _ ← inode_unlock ino;
        _ ← inode_free inode;
        mret ret
      else
        _ ← modify (upd_inode_table <[ino := inode]>);
        mret inode
  end.

Definition icache_install (inode : Z) : M fs unit :=
  i ← rd_inode inode;
  _ ← inode_lock (i_ino i);
  _ ← modify (upd_inode_table <[i_ino i := inode]>);
  inode_unlock (i_ino i).

Definition unlock_inode (inode : Z) : M fs unit := i ← rd_inode inode; inode_unlock (i_ino i).
Definition lock_inode (inode : Z) : M fs unit := i ← rd_inode inode; inode_lock (i_ino i).

(** ** Strings *)

(** The bytes from [a] to the first zero, at most [n]. *)
Fixpoint cstr (n : nat) (m : mem) (a : Z) : list Z :=
  match n with O => [] | S n' => if m a =? 0 then [] else m a :: cstr n' m (a + 1) end.

(** The loops that skip slashes and a name. *)
Fixpoint skip_slashes (c : list Z) : list Z :=
  match c with x :: c' => if x =? SLASH then skip_slashes c' else c | [] => [] end.
Fixpoint skip_name (c : list Z) : list Z :=
  match c with x :: c' => if x =? SLASH then c else skip_name c' | [] => [] end.
Definition name_length (c : list Z) : nat := (length c - length (skip_name c))%nat.

(** ** Symbolic links *)

(** [rec] is the nested [path_lookup]. *)
Definition handle_symlink (rec : nameidata -> M sys (Z * nameidata)) (inode : Z) (nd : nameidata) : M sys (Z * nameidata) :=
  if has_flag (nd_flags nd) ND_NOFOLLOW then mret (- ELOOP, nd) else
  if nd_depth nd >? MAX_LOOP then mret (- ELOOP, nd) else
  let save_nd := nd in
  i ← on_fs (rd_inode inode);
  link ← on_heap (heap_alloc (u64 (i_size i + 1)));
  if link =? 0 then mret (- ENOMEM, nd) else
  h ← gets y_heap;
  '(len, m) ← on_fs (inode_readlink sb stray inode (h_mem h) link);
  _ ← on_heap (modify (upd_mem (fun _ => store (link + len) 1 0 m)));
  let nd := set_depth (u8 (nd_depth nd + 1)) (set_path (cstr (Z.to_nat (len + 1)) (store (link + len) 1 0 m) link) nd) in
  root ← gets (fun y => root (y_fs y));
  let nd := set_start (match nd_path nd with x :: _ => if x =? SLASH then root else nd_current nd | [] => nd_current nd end) nd in
  _ ← on_fs (unlock_inode inode);
  '(ret, nd) ← rec nd;
  save_nd ← (if ret =? 0 then mret (set_current (nd_current nd) save_nd)
             else _ ← on_fs (lock_inode inode); mret save_nd);
  _ ← on_heap (heap_free link);
  mret (ret, save_nd).

(** ** [path_lookup] *)

(** What one component leads to: the walk goes on, or the result. *)
Inductive step : Type := Next (nd : nameidata) | Done (ret : Z) (nd : nameidata).

(** [break]: the lock of the current directory is released. *)
Definition stop (ret : Z) (nd : nameidata) : M sys step := _ ← on_fs (unlock_inode (nd_current nd)); mret (Done ret nd).

Definition mid_component (rec : nameidata -> M sys (Z * nameidata)) (this : list Z) (len : nat) (nd : nameidata) : M sys step :=
  d ← on_fs (inode_lookup (nd_current nd) (take len this));
  if d =? 0 then stop (- ENOENT) nd else
  de ← on_fs (rd_dirent d);
  inode ← on_fs (iget (d_ino de));
  if inode =? 0 then stop (- ENOMEM) nd else
  if IS_ERR inode then stop (i32 inode) nd else
  i ← on_fs (rd_inode inode);
  if is_symlink i then
    _ ← on_fs (unlock_inode (nd_current nd));
    '(ret, nd) ← handle_symlink rec inode nd;
    if negb (ret =? 0) then _ ← on_fs (unlock_inode inode); mret (Done ret nd) else mret (Next nd)
  else if negb (is_dir i) then
    _ ← on_fs (unlock_inode inode);
    stop (- ENOTDIR) nd
  else
    _ ← on_fs (unlock_inode (nd_current nd));
    mret (Next (set_current inode nd)).

Definition last_component (rec : nameidata -> M sys (Z * nameidata)) (this : list Z) (len : nat) (nd : nameidata) : M sys step :=
  let nd := set_last this (Z.of_nat len) nd in
  if has_flag (nd_flags nd) ND_PARENT then mret (Done 0 (set_current 0 (set_parent (nd_current nd) nd))) else
  d ← on_fs (inode_lookup (nd_current nd) (take len this));
  if d =? 0 then stop (- ENOENT) nd else
  de ← on_fs (rd_dirent d);
  inode ← on_fs (iget (d_ino de));
  if inode =? 0 then stop (- ENOMEM) nd else
  if IS_ERR inode then stop (i32 inode) nd else
  i ← on_fs (rd_inode inode);
  if is_symlink i then
    _ ← on_fs (unlock_inode (nd_current nd));
    '(ret, nd) ← handle_symlink rec inode nd;
    if negb (ret =? 0) then _ ← on_fs (unlock_inode inode); mret (Done ret nd) else mret (Done 0 nd)
  else
    _ ← on_fs (unlock_inode (nd_current nd));
    mret (Done 0 (set_current inode nd)).

(** The [while (1)] loop; every round takes at least one byte of [c]. *)
Fixpoint path_loop (rec : nameidata -> M sys (Z * nameidata)) (fuel : nat) (c : list Z) (nd : nameidata) : M sys (Z * nameidata) :=
  match fuel with
  | O => throw OutOfFuel
  | S fuel' =>
      let this := c in
      let len := name_length c in
      let c := skip_slashes (skip_name c) in
      r ← (match c with [] => last_component rec this len nd | _ => mid_component rec this len nd end);
      match r with
      | Done ret nd => mret (ret, nd)
      | Next nd => path_loop rec fuel' c nd
      end
  end.

Definition path_lookup_with (rec : nameidata -> M sys (Z * nameidata)) (nd : nameidata) : M sys (Z * nameidata) :=
  let c := nd_path nd in
  let nd := set_current (nd_start nd) nd in
  let c := skip_slashes c in
  match c with
  | [] =>
      if has_flag (nd_flags nd) ND_PARENT then mret (0, nd) else
      _ ← on_fs (lock_inode (nd_current nd));
      mret (0, nd)
  | _ =>
      _ ← on_fs (lock_inode (nd_current nd));
      path_loop rec (S (length c)) c nd
  end.

(** [fuel] bounds the nesting of symbolic links. *)
Fixpoint path_lookup_fuel (fuel : nat) (nd : nameidata) : M sys (Z * nameidata) :=
  match fuel with
  | O => throw OutOfFuel
  | S fuel' => path_lookup_with (path_lookup_fuel fuel') nd
  end.

(** Links are followed while the depth is at most [MAX_LOOP]. *)
Definition lookup_fuel : nat := Z.to_nat (MAX_LOOP + 2).
Definition path_lookup (nd : nameidata) : M sys (Z * nameidata) := path_lookup_fuel lookup_fuel nd.

(** ** The walk ends *)

Lemma skip_slashes_length c : (length (skip_slashes c) <= length c)%nat.
Proof. induction c as [|x c IH]; simpl; [lia|]. destruct (x =? SLASH); simpl; lia. Qed.
Lemma skip_name_length c : (length (skip_name c) <= length c)%nat.
Proof. induction c as [|x c IH]; simpl; [lia|]. destruct (x =? SLASH); simpl; lia. Qed.
Lemma skip_slashes_head c x c' : skip_slashes c = x :: c' -> x <> SLASH.
Proof.
  induction c as [|y c IH]; simpl; [done|]. destruct (Z.eqb_spec y SLASH); [done|]. intros H. injection H as <- <-. done.
Qed.
(** A round takes the first byte at least. *)
Lemma round_shorter x c : x <> SLASH -> (length (skip_slashes (skip_name (x :: c))) < length (x :: c))%nat.
Proof.
  intros Hx. simpl. destruct (Z.eqb_spec x SLASH); [done|].
  pose proof (skip_slashes_length (skip_name c)). pose proof (skip_name_length c). lia.
Qed.

(** The walk with any behaviour at the bounds: [bottom] is what comes after
    [n] rounds of the loop, or after [n] nested lookups. *)
Definition path_round (rec : nameidata -> M sys (Z * nameidata)) (next : list Z -> nameidata -> M sys (Z * nameidata))
    (c : list Z) (nd : nameidata) : M sys (Z * nameidata) :=
  let c' := skip_slashes (skip_name c) in
  r ← (match c' with [] => last_component rec c (name_length c) nd | _ => mid_component rec c (name_length c) nd end);
  match r with Done ret nd => mret (ret, nd) | Next nd => next c' nd end.
Fixpoint rounds (rec : nameidata -> M sys (Z * nameidata)) (bottom : list Z -> nameidata -> M sys (Z * nameidata))
    (n : nat) : list Z -> nameidata -> M sys (Z * nameidata) :=
  match n with O => bottom | S n' => path_round rec (rounds rec bottom n') end.
Fixpoint nested (bottom : nameidata -> M sys (Z * nameidata)) (n : nat) : nameidata -> M sys (Z * nameidata) :=
  match n with O => bottom | S n' => path_lookup_with (nested bottom n') end.

Lemma bind_ext {A B} (m : M sys A) (k1 k2 : A -> M sys B) y : (forall a y', k1 a y' = k2 a y') -> (m ≫= k1) y = (m ≫= k2) y.
Proof. intros H. unfold mbind, M_bind. destruct (m y) as [[a y']|f]; [apply H|done]. Qed.

Lemma path_loop_rounds rec n c nd y : path_loop rec n c nd y = rounds rec (fun _ _ => throw OutOfFuel) n c nd y.
Proof.
  revert c nd y. induction n as [|n IH]; intros c nd y; [done|]. cbn [path_loop rounds]. unfold path_round. cbv zeta.
  apply bind_ext. intros [nd'|ret nd'] y'; [apply IH|done].
Qed.

(** The walk with two nested lookups that agree up to the depth it has. *)
Section agree.
Context (rec1 rec2 : nameidata -> M sys (Z * nameidata)) (d : Z).
Hypothesis Hrec : forall nd y, nd_depth nd = u8 (d + 1) -> d <= MAX_LOOP -> rec1 nd y = rec2 nd y.

Lemma handle_symlink_agree inode nd y : nd_depth nd = d -> handle_symlink rec1 inode nd y = handle_symlink rec2 inode nd y.
Proof.
  intros Hd. unfold handle_symlink. destruct (has_flag _ _); [done|]. destruct (Z.gtb_spec (nd_depth nd) MAX_LOOP); [done|]. cbv zeta.
  apply bind_ext. intros i y1. apply bind_ext. intros link y2. destruct (link =? 0); [done|].
  apply bind_ext. intros h y3. apply bind_ext. intros [len m] y4. apply bind_ext. intros _ y5. apply bind_ext. intros rt y6.
  apply bind_ext. intros _ y7. unfold mbind at 1 3, M_bind at 1 3. rewrite Hrec; [done| |lia].
  destruct nd; simpl in *. by rewrite Hd.
Qed.

(** A step keeps the depth. *)
Definition keeps_depth (r : step) : Prop := match r with Next nd => nd_depth nd = d | Done _ _ => True end.

Lemma handle_symlink_depth rec inode nd y ret nd' y' :
  nd_depth nd = d -> handle_symlink rec inode nd y = Ok ((ret, nd'), y') -> nd_depth nd' = d.
Proof.
  intros Hd H. unfold handle_symlink in H. destruct (has_flag _ _); [by injection H as _ <- _|].
  destruct (nd_depth nd >? MAX_LOOP); [by injection H as _ <- _|]. cbv zeta in H.
  apply M_bind_Ok in H as (i & y1 & _ & H). apply M_bind_Ok in H as (link & y2 & _ & H).
  destruct (link =? 0); [by injection H as _ <- _|].
  apply M_bind_Ok in H as (h & y3 & _ & H). apply M_bind_Ok in H as ([len m] & y4 & _ & H).
  apply M_bind_Ok in H as (? & y5 & _ & H). apply M_bind_Ok in H as (rt & y6 & _ & H).
  apply M_bind_Ok in H as (? & y7 & _ & H). apply M_bind_Ok in H as ([r nd1] & y8 & _ & H).
  apply M_bind_Ok in H as (sv & y9 & Hs & H). apply M_bind_Ok in H as (? & y10 & _ & H).
  injection H as _ <- _. destruct (r =? 0).
  - by injection Hs as <- _.
  - apply M_bind_Ok in Hs as (? & ? & _ & Hs). by injection Hs as <- _.
Qed.

Lemma mid_agree this len nd y : nd_depth nd = d -> mid_component rec1 this len nd y = mid_component rec2 this len nd y.
Proof.
  intros Hd. unfold mid_component. apply bind_ext. intros e y1. destruct (e =? 0); [done|].
  apply bind_ext. intros de y2. apply bind_ext. intros inode y3. destruct (inode =? 0); [done|]. destruct (IS_ERR inode); [done|].
  apply bind_ext. intros i y4. destruct (is_symlink i); [|done]. apply bind_ext. intros _ y5.
  unfold mbind at 1 3, M_bind at 1 3. by rewrite handle_symlink_agree.
Qed.
Lemma last_agree this len nd y : nd_depth nd = d -> last_component rec1 this len nd y = last_component rec2 this len nd y.
Proof.
  intros Hd. unfold last_component. cbv zeta. destruct (has_flag _ _); [done|]. apply bind_ext. intros e y1. destruct (e =? 0); [done|].
  apply bind_ext. intros de y2. apply bind_ext. intros inode y3. destruct (inode =? 0); [done|]. destruct (IS_ERR inode); [done|].
  apply bind_ext. intros i y4. destruct (is_symlink i); [|done]. apply bind_ext. intros _ y5.
  unfold mbind at 1 3, M_bind at 1 3. by rewrite handle_symlink_agree.
Qed.

Lemma stop_done ret nd y r y' : stop ret nd y = Ok (r, y') -> exists n, r = Done ret n.
Proof. intros H. apply M_bind_Ok in H as (? & y1 & _ & H). injection H as <- _. by eexists. Qed.

Lemma mid_depth rec this len nd y r y' : nd_depth nd = d -> mid_component rec this len nd y = Ok (r, y') -> keeps_depth r.
Proof.
  intros Hd H. unfold mid_component in H. apply M_bind_Ok in H as (e & y1 & _ & H).
  destruct (e =? 0); [by apply stop_done in H as [? ->]|].
  apply M_bind_Ok in H as (de & y2 & _ & H). apply M_bind_Ok in H as (inode & y3 & _ & H).
  destruct (inode =? 0); [by apply stop_done in H as [? ->]|]. destruct (IS_ERR inode); [by apply stop_done in H as [? ->]|].
  apply M_bind_Ok in H as (i & y4 & _ & H). destruct (is_symlink i).
  - apply M_bind_Ok in H as (? & y5 & _ & H). apply M_bind_Ok in H as ([ret nd1] & y6 & Hs & H).
    apply (handle_symlink_depth _ _ _ _ _ _ _ Hd) in Hs. destruct (negb (ret =? 0)).
    + apply M_bind_Ok in H as (? & ? & _ & H). by injection H as <- _.
    + by injection H as <- _.
  - destruct (negb (is_dir i)).
    + apply M_bind_Ok in H as (? & ? & _ & H). by apply stop_done in H as [? ->].
    + apply M_bind_Ok in H as (? & ? & _ & H). injection H as <- _. done.
Qed.
Lemma last_done rec this len nd y r y' : last_component rec this len nd y = Ok (r, y') -> exists ret n, r = Done ret n.
Proof.
  intros H. unfold last_component in H. cbv zeta in H. destruct (has_flag _ _); [injection H as <- _; by do 2 eexists|].
  apply M_bind_Ok in H as (e & y1 & _ & H). destruct (e =? 0); [apply stop_done in H as [? ->]; by do 2 eexists|].
  apply M_bind_Ok in H as (de & y2 & _ & H). apply M_bind_Ok in H as (inode & y3 & _ & H).
  destruct (inode =? 0); [apply stop_done in H as [? ->]; by do 2 eexists|].
  destruct (IS_ERR inode); [apply stop_done in H as [? ->]; by do 2 eexists|].
  apply M_bind_Ok in H as (i & y4 & _ & H). destruct (is_symlink i).
  - apply M_bind_Ok in H as (? & y5 & _ & H). apply M_bind_Ok in H as ([ret nd1] & y6 & Hs & H). destruct (negb (ret =? 0)).
    + apply M_bind_Ok in H as (? & ? & _ & H). injection H as <- _. by do 2 eexists.
    + injection H as <- _. by do 2 eexists.
  - apply M_bind_Ok in H as (? & ? & _ & H). injection H as <- _. by do 2 eexists.
Qed.

(** More rounds than bytes of the path do not happen. *)
Lemma rounds_agree b1 b2 f1 f2 c nd y :
  nd_depth nd = d -> (length c < f1)%nat -> (length c < f2)%nat -> (forall x c', c = x :: c' -> x <> SLASH) ->
  rounds rec1 b1 f1 c nd y = rounds rec2 b2 f2 c nd y.
Proof.
  revert f2 c nd y. induction f1 as [|f1 IH]; intros f2 c nd y Hd H1 H2 Hc; [lia|]. destruct f2 as [|f2]; [lia|].
  cbn [rounds]. unfold path_round. cbv zeta. set (c1 := skip_slashes (skip_name c)). destruct c1 as [|x c'] eqn:Ec.
  - unfold mbind, M_bind. rewrite last_agree by done. destruct (last_component rec2 c (name_length c) nd y) as [[r y1]|f] eqn:E; [|done].
    by apply last_done in E as (ret & n & ->).
  - unfold mbind, M_bind. rewrite mid_agree by done. destruct (mid_component rec2 c (name_length c) nd y) as [[r y1]|f] eqn:E; [|done].
    apply (mid_depth _ _ _ _ _ _ _ Hd) in E. destruct r as [nd1|]; [|done].
    assert (length (x :: c') < length c)%nat.
    { destruct c as [|z c]; [done|]. rewrite <- Ec. apply round_shorter. by apply (Hc z c). }
    apply IH; [done|lia|lia|]. intros z w E2. apply (skip_slashes_head (skip_name c) z w). unfold c1 in Ec. by rewrite Ec.
Qed.
End agree.

(** More than [12 - depth] nested lookups do not happen. *)
Lemma nested_agree b1 b2 f1 f2 nd y :
  0 <= nd_depth nd <= MAX_LOOP + 1 -> MAX_LOOP + 2 <= nd_depth nd + Z.of_nat f1 -> MAX_LOOP + 2 <= nd_depth nd + Z.of_nat f2 ->
  nested b1 f1 nd y = nested b2 f2 nd y.
Proof.
  revert f2 nd y. induction f1 as [|f1 IH]; intros f2 nd y Hd H1 H2; [lia|]. destruct f2 as [|f2]; [lia|].
  cbn [nested]. unfold path_lookup_with. cbv zeta. destruct (skip_slashes (nd_path nd)) as [|x c] eqn:Ec; [done|].
  apply bind_ext. intros _ y1. rewrite !path_loop_rounds.
  apply (rounds_agree _ _ (nd_depth nd)); [|by destruct nd|simpl; lia|simpl; lia|].
  - intros nd1 y2 E Hm. rewrite u8_small in E by (unfold MAX_LOOP in *; lia). apply IH; rewrite E; unfold MAX_LOOP in *; lia.
  - intros z w [= <- <-]. by apply (skip_slashes_head (nd_path nd) x c).
Qed.

(** C21: [path_lookup] ends: from depth 0, a walk that stops following links
    after [lookup_fuel] nested lookups and the loop of a walk that stops after
    as many rounds as the path has bytes have the same result whatever
    [bottom] would do at that point, so neither bound is ever reached. *)
Theorem path_lookup_terminates nd y :
  nd_depth nd = 0 ->
  (forall bottom, nested bottom lookup_fuel nd y = path_lookup nd y) /\
  (forall rec bottom c, (forall x c', c = x :: c' -> x <> SLASH) ->
     rounds rec bottom (S (length c)) c nd y = path_loop rec (S (length c)) c nd y).
Proof.
  intros Hd. split.
  - intros bottom. assert (path_lookup nd y = nested (fun _ => throw OutOfFuel) lookup_fuel nd y) as -> by done.
    apply nested_agree; rewrite Hd; unfold lookup_fuel, MAX_LOOP; lia.
  - intros rec bottom c Hc. rewrite path_loop_rounds. apply (rounds_agree _ _ (nd_depth nd)); [done|done|lia|lia|done].
Qed.
End vfs.
