(* ===== verification/VfsLocks.v ===== *)
(** * Locks and the inode cache in path lookup

    [path_lookup] without [ND_PARENT] returns either with an error and the
    locks it was called with, or with exactly one more lock, that of the inode
    it found, whatever the path and however many symbolic links it follows.
    This is partial correctness in every state with a consistent inode cache;
    the cache stays consistent. *)
From stdpp Require Import base numbers list gmap.
From S2P Require Import Prelude Slot Btree Rbtree DirIndex Pm Mkfs Heap Fs Dir File Runtime Vfs.
Local Open Scope Z_scope.

(** ** What rebuilding an inode leaves alone *)

Record keeps (p : Z) (s s' : fs) : Prop := {
  kp_locks : ilocks s' = ilocks s;
  kp_table : inode_table s' = inode_table s;
  kp_arena : inode_arena s' = inode_arena s;
  kp_root : root s' = root s;
  kp_other q : q <> p -> inodes s' !! q = inodes s !! q;
  kp_some : is_Some (inodes s !! p) -> is_Some (inodes s' !! p);
}.
#[local] Instance keeps_refl p : Reflexive (keeps p).
Proof. by constructor. Qed.
#[local] Instance keeps_trans p : Transitive (keeps p).
Proof. intros s1 s2 s3 [A1 A2 A3 A4 A5 A6] [B1 B2 B3 B4 B5 B6]. constructor; try congruence; [|auto]. intros q Hq. by rewrite B5, A5. Qed.

(** The same, and the number of the inode. *)
Definition keeps_ino (p : Z) (s s' : fs) : Prop :=
  keeps p s s' /\ forall i, inodes s !! p = Some i -> exists i', inodes s' !! p = Some i' /\ i_ino i' = i_ino i.
#[local] Instance keeps_ino_refl p : Reflexive (keeps_ino p).
Proof. split; [done|]. eauto. Qed.
#[local] Instance keeps_ino_trans p : Transitive (keeps_ino p).
Proof.
  intros s1 s2 s3 [A1 A2] [B1 B2]. split; [by etrans|]. intros i Hi.
  destruct (A2 i Hi) as (i1 & H1 & E1). destruct (B2 i1 H1) as (i2 & H2 & E2). exists i2. split; [done|congruence].
Qed.

Lemma keeps_insert p s i : keeps p s (upd_inodes <[p := i]> s).
Proof. constructor; try done; fsimpl; [intros q Hq; by apply lookup_insert_ne|intros _; rewrite lookup_insert_eq; eauto]. Qed.
Lemma keeps_ino_insert p s i i' : inodes s !! p = Some i -> i_ino i' = i_ino i -> keeps_ino p s (upd_inodes <[p := i']> s).
Proof. intros Hi E. split; [apply keeps_insert|]. intros j Hj. exists i'. fsimpl. rewrite lookup_insert_eq. split; [done|congruence]. Qed.

Lemma rd_inode_Ok p s i s' : rd_inode p s = Ok (i, s') -> inodes s !! p = Some i /\ s' = s.
Proof. unfold rd_inode, lift, deref. destruct (inodes s !! p); [|done]. intros H. by injection H as <- <-. Qed.
Lemma upd_inode_Ok p f s x s' : upd_inode p f s = Ok (x, s') -> exists i, inodes s !! p = Some i /\ s' = upd_inodes <[p := f i]> s.
Proof.
  intros H. unfold upd_inode in H. apply M_bind_Ok in H as (i & s1 & H1 & H). apply rd_inode_Ok in H1 as [Hi ->].
  injection H as _ <-. by exists i.
Qed.

Lemma runs_upd_inode p f : runs (keeps p) (upd_inode p f) (fun _ => True).
Proof. intros s x s' H. apply upd_inode_Ok in H as (i & Hi & ->). split; [apply keeps_insert|done]. Qed.
Lemma runs_upd_inode_ino p f : (forall i, i_ino (f i) = i_ino i) -> runs (keeps_ino p) (upd_inode p f) (fun _ => True).
Proof. intros Hf s x s' H. apply upd_inode_Ok in H as (i & Hi & ->). split; [by eapply keeps_ino_insert|done]. Qed.
Lemma runs_rd_inode R p : Reflexive R -> runs R (rd_inode p) (fun _ => True).
Proof. intros HR s i s' H. apply rd_inode_Ok in H as [_ ->]. by split. Qed.

Lemma runs_on_btree {A} p (m : M btree A) : runs (keeps_ino p) (on_btree p m) (fun _ => True).
Proof.
  intros s x s' H. unfold on_btree in H. apply M_bind_Ok in H as (i & s1 & H1 & H). apply rd_inode_Ok in H1 as [Hi ->].
  unfold zoom in H. destruct (m _) as [[a t]|]; [|done]. injection H as _ <-. split; [|done].
  destruct (keeps_ino_insert p s i (with_tree t i) Hi eq_refl) as [[] ?]. split; [by constructor|done].
Qed.
Lemma runs_on_rbtree {A} p (m : M rb_tree A) V :
  (forall t a t', m t = Ok (a, t') -> V a) -> runs (keeps_ino p) (on_rbtree p m) V.
Proof.
  intros HV s x s' H. unfold on_rbtree in H. apply M_bind_Ok in H as (i & s1 & H1 & H). apply rd_inode_Ok in H1 as [Hi ->].
  unfold zoom in H. destruct (m _) as [[a t]|] eqn:E; [|done]. injection H as <- <-. split; [|by eapply HV].
  by eapply keeps_ino_insert.
Qed.
Lemma runs_keeps_ino {A} p (m : M fs A) V : runs (keeps_ino p) m V -> runs (keeps p) m V.
Proof. intros Hm s a s' H. destruct (Hm _ _ _ H) as [[? _] ?]. done. Qed.

Lemma insert_pos_errors hash_of fuel hash temp parent t r t' :
  insert_pos_loop hash_of fuel hash temp parent t = Ok (inl r, t') -> r = - EEXIST.
Proof.
  revert temp parent t. induction fuel as [|f IH]; intros temp parent t H; [done|]. cbn [insert_pos_loop] in H.
  apply M_bind_Ok in H as (c & t1 & _ & H). destruct (c =? 0); [done|]. destruct (hash <? hash_of c); [by apply IH in H|].
  destruct (hash >? hash_of c); [by apply IH in H|]. by injection H as <- _.
Qed.
Lemma index_insert_errors hash_of d t r t' : DirIndex.dir_index_insert hash_of d t = Ok (r, t') -> r = 0 \/ r = - EEXIST.
Proof.
  intros H. unfold DirIndex.dir_index_insert in H. apply M_bind_Ok in H as (f & t1 & _ & H).
  apply M_bind_Ok in H as (x & t2 & Hx & H). destruct x as [e|[pa te]].
  - injection H as <- _. right. by apply insert_pos_errors in Hx.
  - apply M_bind_Ok in H as (? & t3 & _ & H). apply M_bind_Ok in H as (? & t4 & _ & H). injection H as <- _. by left.
Qed.

(** The results of rebuilding: success or an error number. *)
Definition rebuild_ret (r : Z) : Prop := r = 0 \/ r = - EEXIST \/ r = - ENOMEM.
Lemma rebuild_ret_err r : rebuild_ret r -> r <> 0 -> IS_ERR r = true.
Proof. intros [->|[->| ->]] H; done. Qed.

Lemma runs_entry_alloc p : runs (keeps_ino p) entry_alloc (fun _ => True).
Proof.
  intros s d s' H. unfold entry_alloc in H. destruct (entry_arena s); injection H as <- <-; (split; [|exact I]); [done|].
  split; [by constructor|]. intros i Hi. by exists i.
Qed.

Lemma runs_dir_rebuild_insert p pd idx : runs (keeps_ino p) (dir_rebuild_insert p pd idx) rebuild_ret.
Proof.
  assert (Hu : forall f, (forall s, keeps_ino p s (f s)) -> runs (keeps_ino p) (modify f) (fun _ => True))
    by (intros; by apply runs_modify).
  unfold dir_rebuild_insert. eapply runs_bind; [apply _|apply runs_entry_alloc|intros d _].
  destruct (d =? 0); [apply runs_ret; [apply _|by right; right]|]. cbv zeta.
  eapply runs_bind; [apply _|apply Hu; intros s; split; [by constructor|intros i Hi; by exists i]|intros _ _].
  eapply runs_bind; [apply _|eapply runs_bind; [apply _|apply runs_get; apply _|intros s0 _; apply (runs_on_rbtree _ _ (fun r => r = 0 \/ r = - EEXIST))]|].
  { intros t a t' H. by apply index_insert_errors in H. }
  intros r Hr. destruct (Z.eqb_spec r 0) as [->|Hne]; simpl.
  - eapply runs_bind; [apply _|by apply runs_upd_inode_ino|intros _ _]. apply runs_ret; [apply _|by left].
  - eapply runs_bind; [apply _|apply Hu; intros s; split; [by constructor|intros i Hi; by exists i]|intros _ _].
    apply runs_ret; [apply _|]. destruct Hr as [->| ->]; [done|]. by right; left.
Qed.

Lemma runs_dir_rebuild sb p junk : runs (keeps_ino p) (dir_rebuild sb p junk) rebuild_ret.
Proof.
  unfold dir_rebuild. eapply runs_bind; [apply _|apply runs_rd_inode; apply _|intros i _].
  eapply runs_bind; [apply _|by apply runs_upd_inode_ino|intros _ _]. generalize (Z.to_nat (entry_num i)) (log_head i) junk.
  intros n. induction n as [|n IH]; intros curr pd; [apply runs_ret; [apply _|by left]|]. cbn [dir_rebuild_loop].
  eapply runs_bind; [apply _|apply runs_gets; apply _|intros m _]. cbv zeta.
  eapply runs_bind; [apply _|apply runs_dir_rebuild_insert|intros r Hr]. destruct (negb (r =? 0)); [by apply runs_ret; [apply _|]|].
  eapply runs_bind; [apply _|by apply runs_upd_inode_ino|intros _ _]. apply IH.
Qed.

(** *** [inode_rebuild] *)

Ltac keep := eapply runs_bind; [apply _|apply runs_upd_inode|intros _ _].
Ltac keep_ino := eapply runs_bind; [apply _|by apply runs_upd_inode_ino|intros _ _].

Lemma runs_init_header stray p mode : runs (keeps p) (inode_init_header stray p mode) (fun _ => True).
Proof.
  unfold inode_init_header. keep. eapply runs_bind; [apply _| |intros _ _].
  { destruct (S_ISDIR_bit mode); [apply runs_upd_inode|]. eapply runs_bind; [apply _|apply runs_keeps_ino, runs_on_btree|intros _ _].
    by apply (runs_ret _ _ (fun _ => True)). }
  keep. keep. keep. keep. apply runs_upd_inode.
Qed.

Lemma inode_rebuild_Ok sb now stray junk p s i r s' :
  inodes s !! p = Some i -> inode_rebuild sb now stray junk p s = Ok (r, s') ->
  keeps p s s' /\ rebuild_ret r /\ exists i', inodes s' !! p = Some i' /\ i_ino i' = u64 (i64 (i_ino i)).
Proof.
  intros Hi H. unfold inode_rebuild in H. apply M_bind_Ok in H as (i0 & s1 & H1 & H). apply rd_inode_Ok in H1 as [Hi0 ->].
  rewrite Hi in Hi0. injection Hi0 as <-. cbv zeta in H. apply M_bind_Ok in H as (m & s1 & H1 & H). injection H1 as <- <-.
  apply M_bind_Ok in H as (? & s1 & H1 & H). apply runs_init_header in H1 as [K1 _].
  do 9 (apply M_bind_Ok in H as (? & ? & ?H2 & H); apply runs_upd_inode in H2 as [K2 _];
    pose proof (keeps_trans _ _ _ _ K1 K2) as K3; clear K1 K2; rename K3 into K1).
  apply M_bind_Ok in H as (? & s2 & H2 & H). apply upd_inode_Ok in H2 as (i2 & Hi2 & ->).
  set (s2 := upd_inodes _ _) in H. set (i3 := upd_i_ino _ i2) in s2.
  assert (inodes s2 !! p = Some i3) as Hi3 by (unfold s2; fsimpl; apply lookup_insert_eq).
  assert (runs (keeps_ino p) (_ ← upd_inode p (upd_entry_num (fun _ => load (bytes (dev s)) (IDX2INODE sb (i64 (i_ino i)) + PI_entry_num) 8));
    i ← rd_inode p; if is_dir i then dir_rebuild sb p junk else file_rebuild p) rebuild_ret) as Hrest.
  { keep_ino. eapply runs_bind; [apply _|apply runs_rd_inode; apply _|intros j _]. destruct (is_dir j); [apply runs_dir_rebuild|].
    apply runs_ret; [apply _|by left]. }
  destruct (Hrest _ _ _ H) as [[K4 Hino] Hr]. split_and!.
  - etrans; [exact K1|]. etrans; [apply keeps_insert|exact K4].
  - exact Hr.
  - destruct (Hino i3 Hi3) as (i4 & Hi4 & E). exists i4. split; [done|]. by rewrite E.
Qed.

(** ** The inode cache *)

(** [p] is an inode object in use with number [k]. *)
Definition live (s : fs) (p k : Z) : Prop :=
  (0 < p < 2 ^ 62 /\ p ∉ inode_arena s) /\ exists i, inodes s !! p = Some i /\ i_ino i = k.

Record cache_ok (s : fs) : Prop := {
  ca_live k p : inode_table s !! k = Some p -> live s p k;
  ca_arena : NoDup (inode_arena s);
  ca_addr p : p ∈ inode_arena s -> 0 < p < 2 ^ 62;
}.

(** Inodes in use stay in use and keep their number. *)
Definition evolves (s s' : fs) : Prop := cache_ok s' /\ root s' = root s /\ forall p k, live s p k -> live s' p k.

Lemma evolves_refl s : cache_ok s -> evolves s s.
Proof. by split. Qed.
Lemma evolves_trans s1 s2 s3 : evolves s1 s2 -> evolves s2 s3 -> evolves s1 s3.
Proof. intros (A1 & A2 & A3) (B1 & B2 & B3). split_and!; [done|congruence|auto]. Qed.
Lemma evolves_locks s f : cache_ok s -> evolves s (upd_ilocks f s).
Proof. intros [H1 H2 H3]. split_and!; [by constructor|done|done]. Qed.

Lemma live_fun s p k k' : live s p k -> live s p k' -> k = k'.
Proof. intros (_ & i & Hi & <-) (_ & j & Hj & <-). congruence. Qed.

Lemma u64_i64 x : u64 (i64 x) = u64 x.
Proof.
  unfold u64, i64, signed. destruct (x mod 2 ^ 64 <? 2 ^ (64 - 1)); [by rewrite Z.mod_mod|].
  replace (x mod 2 ^ 64 - 2 ^ 64) with (x mod 2 ^ 64 + (-1) * 2 ^ 64) by lia. by rewrite Z.mod_add, Z.mod_mod.
Qed.

Lemma inode_lock_Ok k s x s' : inode_lock k s = Ok (x, s') -> (k ∉ ilocks s) /\ s' = upd_ilocks (fun l => {[k]} ∪ l) s.
Proof. unfold inode_lock. destruct (decide (k ∈ ilocks s)); [done|]. intros H. by injection H as <-. Qed.

(** [iget] returns an inode in use and its lock, or an error and no lock. *)
Definition got (s s' : fs) (k q : Z) : Prop :=
  evolves s s' /\
  ((IS_ERR q = true /\ ilocks s' = ilocks s) \/
   (live s' q k /\ (ilocks s' = {[k]} ∪ ilocks s) /\ (k ∉ ilocks s))).

(** Taking an object from the arena, rebuilding it, and what may follow. *)
Section take.
Context (s s' : fs) (p : Z) (l : list Z).
Hypothesis Hc : cache_ok s.
Hypothesis Ha : inode_arena s = p :: l.
Hypothesis Hother : forall q, q <> p -> inodes s' !! q = inodes s !! q.
Hypothesis Hroot : root s' = root s.

Lemma live_not_taken q k : live s q k -> q <> p.
Proof. intros [[_ Hq] _] ->. apply Hq. rewrite Ha. by left. Qed.
Lemma taken_live q k : inode_arena s' = l \/ inode_arena s' = p :: l -> live s q k -> live s' q k.
Proof.
  intros Ha' Hq. pose proof (live_not_taken q k Hq) as Hne. destruct Hq as ([Hr Hq] & i & Hi & Ei). rewrite Ha, not_elem_of_cons in Hq.
  split; [split; [done|]; destruct Ha' as [->| ->]; [|rewrite not_elem_of_cons]; tauto|]. exists i. by rewrite Hother.
Qed.
Lemma taken_evolves :
  inode_arena s' = l \/ inode_arena s' = p :: l -> inode_table s' = inode_table s -> evolves s s'.
Proof.
  intros Ha' Ht. pose proof (ca_arena s Hc) as Hnd. rewrite Ha in Hnd. split_and!; [|done|intros q k; by apply taken_live].
  constructor.
  - intros k q Hk. rewrite Ht in Hk. apply taken_live; [done|by apply (ca_live s Hc)].
  - apply NoDup_cons in Hnd as [H1 H2]. destruct Ha' as [->| ->]; [done|by apply NoDup_cons].
  - intros q Hq. apply (ca_addr s Hc). rewrite Ha. destruct Ha' as [E|E]; rewrite E in Hq; [by right|done].
Qed.
Lemma taken_install k i :
  inode_arena s' = l -> inode_table s' = <[k := p]> (inode_table s) -> inodes s' !! p = Some i -> i_ino i = k ->
  evolves s s' /\ live s' p k.
Proof.
  intros Ha' Ht Hi Ei. pose proof (ca_arena s Hc) as Hnd. rewrite Ha in Hnd. apply NoDup_cons in Hnd as [H1 H2].
  assert (0 < p < 2 ^ 62) as Hr by (apply (ca_addr s Hc); rewrite Ha; by left).
  assert (live s' p k) as Hp by (split; [by rewrite Ha'|by exists i]). split; [|done].
  split_and!; [|done|intros q k'; apply taken_live; by left].
  constructor; [|by rewrite Ha'|intros q Hq; apply (ca_addr s Hc); rewrite Ha, <- Ha'; by right].
  intros k' q Hk. rewrite Ht in Hk. destruct (decide (k' = k)) as [->|Hne].
  - rewrite lookup_insert_eq in Hk. by injection Hk as <-.
  - rewrite lookup_insert_ne in Hk by done. apply taken_live; [by left|by apply (ca_live s Hc)].
Qed.
End take.

Lemma unlock_locked (L : gset Z) k : k ∉ L -> ({[k]} ∪ L) ∖ {[k]} = L.
Proof. set_solver. Qed.

Lemma iget_Ok sb now stray junk arg s q s' :
  cache_ok s -> iget sb now stray junk arg s = Ok (q, s') -> got s s' (u64 arg) q.
Proof.
  intros Hc H. unfold iget in H. cbv zeta in H. set (k := u64 arg) in *.
  apply M_bind_Ok in H as (? & s1 & H1 & H). apply inode_lock_Ok in H1 as [Hk ->].
  apply M_bind_Ok in H as (s1 & s2 & H1 & H). injection H1 as <- <-. cbn [inode_table upd_ilocks] in H.
  destruct (inode_table s !! k) as [p|] eqn:Et.
  { injection H as <- <-. split; [by apply evolves_locks|]. right. split_and!; [|done|done].
    by apply (ca_live s Hc) in Et. }
  apply M_bind_Ok in H as (p & s2 & H1 & H). unfold inode_alloc in H1. cbn [inode_arena upd_ilocks] in H1.
  destruct (inode_arena s) as [|p0 l] eqn:Ea; injection H1 as <- <-.
  { injection H as <- <-. split; [|left; split; [done|fsimpl; by apply unlock_locked]].
    eapply evolves_trans; [by apply evolves_locks|]. apply evolves_locks. by apply (evolves_locks s). }
  destruct (Z.eqb_spec p0 0) as [->|Hnz].
  { injection H as <- <-. split; [|left; split; [done|fsimpl; by apply unlock_locked]].
    apply (taken_evolves s _ 0 l); try done; [|by left]. intros q Hq. fsimpl. by apply lookup_insert_ne. }
  apply M_bind_Ok in H as (? & s3 & H1 & H). apply upd_inode_Ok in H1 as (i1 & Hi1 & ->).
  apply M_bind_Ok in H as (r & s4 & H1 & H).
  eapply inode_rebuild_Ok in H1 as ([K1 K2 K3 K4 K5 _] & Hr & i4 & Hi4 & Ei4); [|fsimpl; apply lookup_insert_eq].
  assert (Hother : forall q, q <> p0 -> inodes s4 !! q = inodes s !! q).
  { intros z Hz. rewrite K5 by done. fsimpl. by rewrite !lookup_insert_ne. }
  assert (i_ino i4 = k) as Ek.
  { rewrite Ei4. fsimpl. rewrite u64_i64. apply u64_small. apply u64_range. }
  destruct (Z.eqb_spec r 0) as [->|Hr0]; cbn [negb] in H.
  - apply M_bind_Ok in H as (? & s5 & H1 & H). injection H1 as _ <-. injection H as <- <-.
    destruct (taken_install s (upd_inode_table <[k := p0]> s4) p0 l Hc Ea Hother K4 k i4) as [He Hlv]; try done.
    { fsimpl. by rewrite K2. }
    split; [done|]. right. split_and!; [done|fsimpl; by rewrite K1|done].
  - apply M_bind_Ok in H as (? & s5 & H1 & H). injection H1 as _ <-.
    apply M_bind_Ok in H as (? & s5 & H1 & H). injection H1 as _ <-. injection H as <- <-.
    split; [apply (taken_evolves s _ p0 l); try done; right; fsimpl; by rewrite K3|].
    left. split; [by apply rebuild_ret_err|]. fsimpl. rewrite K1. by apply unlock_locked.
Qed.

(** ** The lookup *)

Section lookup.
Context (sb : pm_super_block) (now stray : Z) (junk : mem).

Definition locks (y : sys) : gset Z := ilocks (y_fs y).

Lemma on_fs_Ok {A} (m : M fs A) y a y' :
  on_fs m y = Ok (a, y') -> exists s', m (y_fs y) = Ok (a, s') /\ y' = upd_y_fs (fun _ => s') y.
Proof. unfold on_fs, zoom. destruct (m (y_fs y)) as [[b s']|]; [|done]. intros H. injection H as <- <-. by exists s'. Qed.
Lemma on_heap_Ok {A} (m : M heap_t A) y a y' : on_heap m y = Ok (a, y') -> y_fs y' = y_fs y.
Proof. unfold on_heap, zoom. destruct (m (y_heap y)) as [[b h]|]; [|done]. intros H. by injection H as _ <-. Qed.

Lemma keeps_ino_evolves p s s' : cache_ok s -> keeps_ino p s s' -> evolves s s' /\ ilocks s' = ilocks s.
Proof.
  intros Hc [[K1 K2 K3 K4 K5 _] K6].
  assert (Hl : forall q k, live s q k -> live s' q k).
  { intros q k (Hq & i & Hi & Ei). split; [by rewrite K3|]. destruct (decide (q = p)) as [->|Hne].
    - destruct (K6 i Hi) as (i' & Hi' & E). exists i'. split; [done|congruence].
    - exists i. by rewrite K5. }
  split; [|done]. split_and!; [|done|done]. constructor; [|rewrite K3; apply Hc|rewrite K3; apply Hc].
  intros k q Hk. rewrite K2 in Hk. apply Hl. by apply (ca_live s Hc).
Qed.

Lemma lookup_evolves p n s d s' : cache_ok s -> inode_lookup p n s = Ok (d, s') -> evolves s s' /\ ilocks s' = ilocks s.
Proof.
  intros Hc H. apply (keeps_ino_evolves p s s' Hc).
  assert (runs (keeps_ino p) (inode_lookup p n) (fun _ => True)) as Hr.
  { unfold inode_lookup. eapply runs_bind; [apply _|apply runs_rd_inode; apply _|intros i _].
    destruct (negb (is_dir i)); [by apply (runs_ret _ _ (fun _ => True))|].
    eapply runs_bind; [apply _|apply runs_get; apply _|intros s0 _]. by apply runs_on_rbtree. }
  by destruct (Hr _ _ _ H).
Qed.

Lemma readlink_evolves p m link s r s' : cache_ok s -> inode_readlink sb stray p m link s = Ok (r, s') -> evolves s s' /\ ilocks s' = ilocks s.
Proof.
  intros Hc H. apply (keeps_ino_evolves p s s' Hc).
  assert (runs (keeps_ino p) (inode_readlink sb stray p m link) (fun _ => True)) as Hr.
  { unfold inode_readlink. eapply runs_bind; [apply _|apply runs_rd_inode; apply _|intros i _]. cbv zeta.
    eapply runs_bind; [apply _|apply runs_on_btree|intros fe _].
    eapply (runs_bind _ _ _ (fun _ => True)); [|intros e _].
    { intros t a t' Ht. unfold rd_filent, lift in Ht. destruct (deref _ _); [|done]. by injection Ht as <- <-. }
    eapply runs_bind; [apply _|apply runs_gets; apply _|intros mm _]. by apply (runs_ret _ _ (fun _ => True)). }
  by destruct (Hr _ _ _ H).
Qed.

Lemma unlock_inode_Ok p s x s' k : live s p k -> unlock_inode p s = Ok (x, s') -> s' = upd_ilocks (fun l => l ∖ {[k]}) s.
Proof.
  intros (_ & i & Hi & <-) H. unfold unlock_inode in H. apply M_bind_Ok in H as (j & s1 & H1 & H). apply rd_inode_Ok in H1 as [Hj ->].
  rewrite Hi in Hj. injection Hj as <-. by injection H as _ <-.
Qed.
Lemma lock_inode_Ok p s x s' k :
  live s p k -> lock_inode p s = Ok (x, s') -> (k ∉ ilocks s) /\ s' = upd_ilocks (fun l => {[k]} ∪ l) s.
Proof.
  intros (_ & i & Hi & <-) H. unfold lock_inode in H. apply M_bind_Ok in H as (j & s1 & H1 & H). apply rd_inode_Ok in H1 as [Hj ->].
  rewrite Hi in Hj. injection Hj as <-. by apply inode_lock_Ok in H.
Qed.

Lemma is_err_ret x : IS_ERR x = true -> i32 x <> 0.
Proof.
  unfold IS_ERR, i32, signed. intros H%Z.leb_le. assert (u64 (- MAX_ERRNO) = 18446744073709547521) as E by (by vm_compute).
  rewrite E in H. unfold u64 in H. pose proof (Z.mod_pos_bound x (2 ^ 64) ltac:(lia)).
  assert (x mod 2 ^ 32 = (x mod 2 ^ 64) mod 2 ^ 32) as ->.
  { change (2 ^ 64) with (2 ^ 32 * 2 ^ 32). rewrite Z.rem_mul_r by lia. rewrite Z.mul_comm, Z.mod_add, Z.mod_mod; done || lia. }
  assert ((x mod 2 ^ 64) mod 2 ^ 32 = x mod 2 ^ 64 - (2 ^ 32 - 1) * 2 ^ 32) as ->.
  { symmetry. apply (Z.mod_unique _ _ (2 ^ 32 - 1)); lia. }
  change (2 ^ (32 - 1)) with 2147483648. destruct (Z.ltb_spec (x mod 2 ^ 64 - (2 ^ 32 - 1) * 2 ^ 32) 2147483648); lia.
Qed.

(** The outcome of a lookup that was called with the locks [L]. *)
Definition held (L : gset Z) (y y' : sys) (ret cur : Z) : Prop :=
  evolves (y_fs y) (y_fs y') /\
  (ret = 0 -> exists k, live (y_fs y') cur k /\ (locks y' = {[k]} ∪ L) /\ (k ∉ L)) /\
  (ret <> 0 -> locks y' = L).

Definition rooted (s : fs) : Prop := exists k, live s (root s) k.
Lemma rooted_evolves s s' : rooted s -> evolves s s' -> rooted s'.
Proof. intros [k Hk] (_ & E & H). exists k. rewrite E. by apply H. Qed.

(** A lookup that keeps the promise. *)
Definition good (rec : nameidata -> M sys (Z * nameidata)) : Prop := forall nd y ret nd' y' k,
  cache_ok (y_fs y) -> rooted (y_fs y) -> live (y_fs y) (nd_start nd) k -> has_flag (nd_flags nd) ND_PARENT = false ->
  rec nd y = Ok ((ret, nd'), y') -> held (locks y) y y' ret (nd_current nd').

Section rec.
Context (rec : nameidata -> M sys (Z * nameidata)).
Hypothesis Hrec : good rec.

(** Called with the lock of the link, whose number is [k]. *)
Lemma handle_symlink_held inode nd y ret nd' y' k kc L :
  cache_ok (y_fs y) -> rooted (y_fs y) -> live (y_fs y) inode k -> live (y_fs y) (nd_current nd) kc ->
  has_flag (nd_flags nd) ND_PARENT = false -> locks y = {[k]} ∪ L -> k ∉ L ->
  handle_symlink sb stray rec inode nd y = Ok ((ret, nd'), y') ->
  evolves (y_fs y) (y_fs y') /\ nd_flags nd' = nd_flags nd /\
  (ret = 0 -> exists k', live (y_fs y') (nd_current nd') k' /\ (locks y' = {[k']} ∪ L) /\ (k' ∉ L)) /\
  (ret <> 0 -> locks y' = {[k]} ∪ L).
Proof.
  intros Hc Hroot Hin Hcur Hfl HL Hk H. pose proof (evolves_refl _ Hc) as Href. unfold handle_symlink in H.
  destruct (has_flag _ ND_NOFOLLOW); [by injection H as <- <- <-|].
  destruct (nd_depth nd >? MAX_LOOP); [by injection H as <- <- <-|]. cbv zeta in H.
  apply M_bind_Ok in H as (i & y1 & H1 & H). apply on_fs_Ok in H1 as (s1 & H1 & ->). apply rd_inode_Ok in H1 as [Hi ->].
  apply M_bind_Ok in H as (link & y2 & H1 & H). apply on_heap_Ok in H1 as E2. cbn [y_fs upd_y_fs] in E2.
  destruct (link =? 0); [injection H as <- <- <-; unfold locks; rewrite E2; by split_and!|].
  apply M_bind_Ok in H as (h & y3 & H3 & H). injection H3 as _ <-.
  apply M_bind_Ok in H as ([len m] & y4 & H4 & H). apply on_fs_Ok in H4 as (s4 & H4 & ->).
  rewrite E2 in H4. apply readlink_evolves in H4 as [Ev4 El4]; [|done].
  apply M_bind_Ok in H as (? & y5 & H5 & H). apply on_heap_Ok in H5. cbn [y_fs upd_y_fs] in H5.
  apply M_bind_Ok in H as (rt & y6 & H6 & H). injection H6 as <- <-. rewrite H5 in H.
  apply M_bind_Ok in H as (? & y7 & H7 & H). apply on_fs_Ok in H7 as (s7 & H7 & ->). rewrite H5 in H7.
  pose proof Ev4 as (Hc4 & Er4 & Hl4).
  apply (unlock_inode_Ok _ _ _ _ k) in H7 as ->; [|by apply Hl4].
  apply M_bind_Ok in H as ([r nd1] & y8 & H8 & H).
  set (s7 := upd_ilocks (fun l => l ∖ {[k]}) s4) in *.
  assert (ilocks s7 = L) as EL. { unfold s7. fsimpl. rewrite El4. change (ilocks (y_fs y)) with (locks y). rewrite HL. by apply unlock_locked. }
  assert (evolves (y_fs y) s7) as Ev7 by (eapply evolves_trans; [exact Ev4|by apply evolves_locks]).
  pose proof Ev7 as (Hc7 & Er7 & Hl7). pose proof (rooted_evolves _ _ Hroot Ev7) as Hroot7. destruct Hroot as [kr Hkr].
  set (nd2 := set_start _ _) in H8.
  assert (exists k2, live s7 (nd_start nd2) k2) as [k2 Hk2].
  { unfold nd2. cbn [nd_start set_start]. destruct (nd_path _) as [|z c]; [exists kc; by apply Hl7|].
    destruct (z =? SLASH); [exists kr; rewrite Er4; by apply Hl7|exists kc; by apply Hl7]. }
  destruct (Hrec nd2 (upd_y_fs (fun _ => s7) y5) r nd1 y8 k2 Hc7 Hroot7 Hk2 Hfl H8) as (Ev8 & Hok & Herr). cbn [y_fs upd_y_fs] in Ev8.
  unfold locks in Hok, Herr at 2. cbn [y_fs upd_y_fs] in Hok, Herr. rewrite EL in Hok, Herr.
  pose proof (evolves_trans _ _ _ Ev7 Ev8) as Ev. pose proof Ev8 as (Hc8 & _ & Hl8).
  apply M_bind_Ok in H as (sv & y9 & H9 & H). apply M_bind_Ok in H as (? & y10 & H10 & H). apply on_heap_Ok in H10.
  injection H as <- <- <-. unfold locks. rewrite H10. destruct (Z.eqb_spec r 0) as [->|Hr].
  - injection H9 as <- <-. split_and!; [done|done|intros _|done]. by apply Hok.
  - apply M_bind_Ok in H9 as (? & y11 & H11 & H9). apply on_fs_Ok in H11 as (s11 & H11 & ->). injection H9 as <- <-.
    apply (lock_inode_Ok _ _ _ _ k) in H11 as [_ ->]; [|by apply Hl8, Hl7].
    split_and!; [|done|done|intros _].
    + cbn [y_fs upd_y_fs]. eapply evolves_trans; [exact Ev|by apply evolves_locks].
    + cbn [y_fs upd_y_fs]. fsimpl. f_equal. by apply Herr.
Qed.

Lemma live_addr s p k : live s p k -> IS_ERR p = false /\ p <> 0.
Proof.
  intros [[Hp _] _]. split; [|lia]. unfold IS_ERR. rewrite (u64_small p) by lia. apply Z.leb_gt.
  assert (u64 (- MAX_ERRNO) = 18446744073709547521) as -> by (by vm_compute). lia.
Qed.

(** The steps both kinds of component share: the child is locked, or an error. *)
Lemma fetch_held cur n y d y1 de y2 q y3 kc L :
  cache_ok (y_fs y) -> live (y_fs y) cur kc -> locks y = {[kc]} ∪ L ->
  on_fs (inode_lookup cur n) y = Ok (d, y1) -> on_fs (rd_dirent d) y1 = Ok (de, y2) ->
  on_fs (iget sb now stray junk (d_ino de)) y2 = Ok (q, y3) ->
  evolves (y_fs y) (y_fs y3) /\
  ((IS_ERR q = true /\ locks y3 = {[kc]} ∪ L) \/
   exists k, live (y_fs y3) q k /\ (locks y3 = {[k]} ∪ ({[kc]} ∪ L)) /\ (k ∉ ({[kc]} ∪ L : gset Z))).
Proof.
  intros Hc Hcur HL H1 H2 H3. apply on_fs_Ok in H1 as (s1 & H1 & ->). apply lookup_evolves in H1 as [E1 L1]; [|done].
  apply on_fs_Ok in H2 as (s2 & H2 & ->). cbn [y_fs upd_y_fs] in H2.
  assert (s2 = s1) as ->. { unfold rd_dirent, lift in H2. destruct (deref _ _); [|done]. by injection H2 as _ <-. }
  apply on_fs_Ok in H3 as (s3 & H3 & ->). cbn [y_fs upd_y_fs] in *. apply iget_Ok in H3 as [E3 H3]; [|apply E1].
  rewrite L1 in H3. change (ilocks (y_fs y)) with (locks y) in H3. rewrite HL in H3.
  split; [by eapply evolves_trans|]. destruct H3 as [[? ?]|(? & ? & ?)]; [by left|right; by eexists].
Qed.

Lemma stop_held ret nd y r y' kc L y0 :
  evolves (y_fs y0) (y_fs y) -> live (y_fs y) (nd_current nd) kc -> (locks y = {[kc]} ∪ L) -> kc ∉ L -> ret <> 0 ->
  stop ret nd y = Ok (r, y') -> exists nd', r = Done ret nd' /\ held L y0 y' ret (nd_current nd').
Proof.
  intros He Hcur HL Hk Hr H. apply M_bind_Ok in H as (? & y1 & H1 & H). apply on_fs_Ok in H1 as (s1 & H1 & ->).
  apply (unlock_inode_Ok _ _ _ _ kc) in H1 as ->; [|done]. injection H as <- <-. eexists. split; [done|].
  split_and!; [|done|intros _].
  - cbn [y_fs upd_y_fs]. eapply evolves_trans; [done|]. apply evolves_locks. apply He.
  - unfold locks. cbn [y_fs upd_y_fs]. fsimpl. change (ilocks (y_fs y)) with (locks y). rewrite HL. by apply unlock_locked.
Qed.

(** What a component leaves behind. *)
Definition stepped (L : gset Z) (y0 y' : sys) (flags : Z) (r : step) : Prop :=
  match r with
  | Next nd' => nd_flags nd' = flags /\ held L y0 y' 0 (nd_current nd')
  | Done ret nd' => held L y0 y' ret (nd_current nd')
  end.

(** From the child on: a link, or anything else with what follows in [k]. *)
Lemma link_held inode nd y r y' k kc L (ok : nameidata -> step) y0 :
  cache_ok (y_fs y0) -> rooted (y_fs y0) -> evolves (y_fs y0) (y_fs y) -> live (y_fs y) inode k -> live (y_fs y) (nd_current nd) kc ->
  has_flag (nd_flags nd) ND_PARENT = false -> (locks y = {[k]} ∪ ({[kc]} ∪ L)) -> (k ∉ ({[kc]} ∪ L : gset Z)) -> kc ∉ L ->
  (forall n, (ok n = Next n \/ ok n = Done 0 n)) ->
  (_ ← on_fs (unlock_inode (nd_current nd));
   '(ret, nd) ← handle_symlink sb stray rec inode nd;
   if negb (ret =? 0) then _ ← on_fs (unlock_inode inode); mret (Done ret nd) else mret (ok nd)) y = Ok (r, y') ->
  stepped L y0 y' (nd_flags nd) r.
Proof.
  intros Hc0 Hr0 He Hin Hcur Hfl HL Hk Hkc Hok H. pose proof He as (Hc & _ & _).
  apply M_bind_Ok in H as (? & y1 & H1 & H). apply on_fs_Ok in H1 as (s1 & H1 & ->).
  apply (unlock_inode_Ok _ _ _ _ kc) in H1 as ->; [|done].
  set (y1 := upd_y_fs _ y) in H. assert (evolves (y_fs y) (y_fs y1)) as E1 by (by apply evolves_locks).
  assert (locks y1 = {[k]} ∪ L) as HL1.
  { unfold locks, y1. cbn [y_fs upd_y_fs]. fsimpl. change (ilocks (y_fs y)) with (locks y). rewrite HL. set_solver. }
  apply M_bind_Ok in H as ([ret nd1] & y2 & H2 & H). pose proof E1 as (Hc1 & _ & Hl1).
  assert (rooted (y_fs y1)) as Hr1 by (eapply rooted_evolves; [|exact E1]; by eapply rooted_evolves).
  apply (handle_symlink_held inode nd y1 ret nd1 y2 k kc L) in H2 as (E2 & Ef & H0 & Hne);
    [|done|done|by apply Hl1|by apply Hl1|done|done|set_solver].
  pose proof (evolves_trans _ _ _ He (evolves_trans _ _ _ E1 E2)) as Ev. destruct (Z.eqb_spec ret 0) as [->|Hret]; cbn [negb] in H.
  - injection H as <- <-. destruct (Hok nd1) as [->| ->]; simpl; [split; [done|]|]; (split_and!; [done|done|done]).
  - apply M_bind_Ok in H as (? & y3 & H3 & H). apply on_fs_Ok in H3 as (s3 & H3 & ->).
    pose proof E2 as (Hc2 & _ & Hl2). apply (unlock_inode_Ok _ _ _ _ k) in H3 as ->; [|by apply Hl2, Hl1].
    injection H as <- <-. simpl. split_and!; [|done|intros _].
    + cbn [y_fs upd_y_fs]. eapply evolves_trans; [exact Ev|by apply evolves_locks].
    + unfold locks. cbn [y_fs upd_y_fs]. fsimpl. change (ilocks (y_fs y2)) with (locks y2). rewrite (Hne Hret). apply unlock_locked. set_solver.
Qed.

(** The child becomes the current inode: the lock is handed on. *)
Lemma advance_held inode nd y r y' k kc L (ok : nameidata -> step) y0 :
  evolves (y_fs y0) (y_fs y) -> live (y_fs y) inode k -> live (y_fs y) (nd_current nd) kc ->
  (locks y = {[k]} ∪ ({[kc]} ∪ L)) -> (k ∉ ({[kc]} ∪ L : gset Z)) -> kc ∉ L ->
  (forall n, (ok n = Next n \/ ok n = Done 0 n)) ->
  (_ ← on_fs (unlock_inode (nd_current nd)); mret (ok (set_current inode nd))) y = Ok (r, y') ->
  stepped L y0 y' (nd_flags nd) r.
Proof.
  intros He Hin Hcur HL Hk Hkc Hok H. pose proof He as (Hc & _ & _).
  apply M_bind_Ok in H as (? & y1 & H1 & H). apply on_fs_Ok in H1 as (s1 & H1 & ->).
  apply (unlock_inode_Ok _ _ _ _ kc) in H1 as ->; [|done]. injection H as <- <-.
  assert (held L y0 (upd_y_fs (fun _ => upd_ilocks (fun l => l ∖ {[kc]}) (y_fs y)) y) 0 inode) as Hh.
  { split_and!; [|intros _|done].
    - cbn [y_fs upd_y_fs]. eapply evolves_trans; [done|by apply evolves_locks].
    - exists k. split_and!; [done| |set_solver]. unfold locks. cbn [y_fs upd_y_fs]. fsimpl. change (ilocks (y_fs y)) with (locks y).
      rewrite HL. set_solver. }
  destruct (Hok (set_current inode nd)) as [->| ->]; simpl; [by split|done].
Qed.

Lemma mid_held this len nd y r y' kc L :
  cache_ok (y_fs y) -> rooted (y_fs y) -> live (y_fs y) (nd_current nd) kc -> has_flag (nd_flags nd) ND_PARENT = false ->
  (locks y = {[kc]} ∪ L) -> kc ∉ L ->
  mid_component sb now stray junk rec this len nd y = Ok (r, y') -> stepped L y y' (nd_flags nd) r.
Proof.
  intros Hc Hroot Hcur Hfl HL Hkc H. unfold mid_component in H. apply M_bind_Ok in H as (d & y1 & H1 & H).
  destruct (d =? 0).
  { apply on_fs_Ok in H1 as (s1 & H1 & ->). apply lookup_evolves in H1 as [E1 L1]; [|done].
    apply (stop_held _ _ _ _ _ kc L y) in H as (nd' & -> & Hh); try done; [by apply E1|unfold locks in *; cbn [y_fs upd_y_fs]; by rewrite L1]. }
  apply M_bind_Ok in H as (de & y2 & H2 & H). apply M_bind_Ok in H as (inode & y3 & H3 & H).
  destruct (fetch_held _ _ _ _ _ _ _ _ _ kc L Hc Hcur HL H1 H2 H3) as [E3 Hf]. pose proof E3 as (Hc3 & _ & Hl3).
  destruct (Z.eqb_spec inode 0) as [->|Hnz].
  { destruct Hf as [[? _]|(k & Hlv & _)]; [done|]. by destruct (live_addr _ _ _ Hlv). }
  destruct (IS_ERR inode) eqn:He.
  { destruct Hf as [[_ HL3]|(k & Hlv & _)]; [|by destruct (live_addr _ _ _ Hlv); congruence].
    apply (stop_held _ _ _ _ _ kc L y) in H as (nd' & -> & Hh); try done; [by apply Hl3|by apply is_err_ret]. }
  destruct Hf as [[? _]|(k & Hlv & HL3 & Hk)]; [done|].
  apply M_bind_Ok in H as (i & y4 & H4 & H). apply on_fs_Ok in H4 as (s4 & H4 & ->). apply rd_inode_Ok in H4 as [Hi ->].
  destruct (is_symlink i).
  - apply (link_held inode nd _ r y' k kc L Next y) in H; try done; [by apply Hl3|by left].
  - destruct (is_dir i); cbn [negb] in H.
    + apply (advance_held inode nd _ r y' k kc L Next y) in H; try done; [by apply Hl3|by left].
    + apply M_bind_Ok in H as (? & y5 & H5 & H). apply on_fs_Ok in H5 as (s5 & H5 & ->).
      apply (unlock_inode_Ok _ _ _ _ k) in H5 as ->; [|done].
      apply (stop_held _ _ _ _ _ kc L y) in H as (nd' & -> & Hh); try done.
      * cbn [y_fs upd_y_fs]. eapply evolves_trans; [exact E3|by apply evolves_locks].
      * cbn [y_fs upd_y_fs]. by apply Hl3.
      * unfold locks. cbn [y_fs upd_y_fs]. fsimpl. change (ilocks (y_fs y3)) with (locks y3). rewrite HL3. by apply unlock_locked.
Qed.

Lemma last_held this len nd y r y' kc L :
  cache_ok (y_fs y) -> rooted (y_fs y) -> live (y_fs y) (nd_current nd) kc -> has_flag (nd_flags nd) ND_PARENT = false ->
  (locks y = {[kc]} ∪ L) -> kc ∉ L ->
  last_component sb now stray junk rec this len nd y = Ok (r, y') -> stepped L y y' (nd_flags nd) r.
Proof.
  intros Hc Hroot Hcur Hfl HL Hkc H. unfold last_component in H. cbv zeta in H. set (nd0 := set_last _ _ nd) in H.
  change (nd_flags nd0) with (nd_flags nd) in H. rewrite Hfl in H. change (nd_flags nd) with (nd_flags nd0).
  assert (live (y_fs y) (nd_current nd0) kc) as Hcur0 by done. apply M_bind_Ok in H as (d & y1 & H1 & H).
  destruct (d =? 0).
  { apply on_fs_Ok in H1 as (s1 & H1 & ->). apply lookup_evolves in H1 as [E1 L1]; [|done].
    apply (stop_held _ _ _ _ _ kc L y) in H as (nd' & -> & Hh); try done; [by apply E1|unfold locks in *; cbn [y_fs upd_y_fs]; by rewrite L1]. }
  apply M_bind_Ok in H as (de & y2 & H2 & H). apply M_bind_Ok in H as (inode & y3 & H3 & H).
  destruct (fetch_held _ _ _ _ _ _ _ _ _ kc L Hc Hcur0 HL H1 H2 H3) as [E3 Hf]. pose proof E3 as (Hc3 & _ & Hl3).
  destruct (Z.eqb_spec inode 0) as [->|Hnz].
  { destruct Hf as [[? _]|(k & Hlv & _)]; [done|]. by destruct (live_addr _ _ _ Hlv). }
  destruct (IS_ERR inode) eqn:He.
  { destruct Hf as [[_ HL3]|(k & Hlv & _)]; [|by destruct (live_addr _ _ _ Hlv); congruence].
    apply (stop_held _ _ _ _ _ kc L y) in H as (nd' & -> & Hh); try done; [by apply Hl3|by apply is_err_ret]. }
  destruct Hf as [[? _]|(k & Hlv & HL3 & Hk)]; [done|].
  apply M_bind_Ok in H as (i & y4 & H4 & H). apply on_fs_Ok in H4 as (s4 & H4 & ->). apply rd_inode_Ok in H4 as [Hi ->].
  destruct (is_symlink i).
  - apply (link_held inode nd0 _ r y' k kc L (Done 0) y) in H; try done; [by apply Hl3|by right].
  - apply (advance_held inode nd0 _ r y' k kc L (Done 0) y) in H; try done; [by apply Hl3|by right].
Qed.

Lemma path_loop_held fuel c nd y ret nd' y' kc L y0 :
  evolves (y_fs y0) (y_fs y) -> rooted (y_fs y) -> live (y_fs y) (nd_current nd) kc -> has_flag (nd_flags nd) ND_PARENT = false ->
  (locks y = {[kc]} ∪ L) -> kc ∉ L ->
  path_loop sb now stray junk rec fuel c nd y = Ok ((ret, nd'), y') -> held L y0 y' ret (nd_current nd').
Proof.
  revert c nd y kc. induction fuel as [|fuel IH]; intros c nd y kc He Hroot Hcur Hfl HL Hkc H; [done|].
  cbn [path_loop] in H. cbv zeta in H. apply M_bind_Ok in H as (r & y1 & H1 & H). pose proof He as (Hc & _ & _).
  assert (stepped L y y1 (nd_flags nd) r) as Hst.
  { destruct (skip_slashes (skip_name c)); [by apply (last_held _ _ _ _ _ _ kc L) in H1|by apply (mid_held _ _ _ _ _ _ kc L) in H1]. }
  destruct r as [nd1|ret1 nd1]; simpl in Hst.
  - destruct Hst as [Ef (E1 & H0 & _)]. destruct (H0 eq_refl) as (k1 & Hlv & HL1 & Hk1).
    apply (IH _ nd1 y1 k1) in H; try done; [by eapply evolves_trans|by eapply rooted_evolves|by rewrite Ef].
  - injection H as <- <- <-. destruct Hst as (E1 & H0 & H2). split_and!; [by eapply evolves_trans|done|done].
Qed.

Lemma path_lookup_with_good : good (path_lookup_with sb now stray junk rec).
Proof.
  intros nd y ret nd' y' k Hc Hroot Hst Hfl H. unfold path_lookup_with in H. cbv zeta in H.
  set (nd0 := set_current _ nd) in H. destruct (skip_slashes (nd_path nd)) as [|x c].
  - change (nd_flags nd0) with (nd_flags nd) in H. rewrite Hfl in H. apply M_bind_Ok in H as (? & y1 & H1 & H).
    apply on_fs_Ok in H1 as (s1 & H1 & ->). apply (lock_inode_Ok _ _ _ _ k) in H1 as [Hk ->]; [|done].
    injection H as <- <- <-. split_and!; [by apply evolves_locks|intros _|done]. by exists k.
  - apply M_bind_Ok in H as (? & y1 & H1 & H).
    apply on_fs_Ok in H1 as (s1 & H1 & ->). apply (lock_inode_Ok _ _ _ _ k) in H1 as [Hk ->]; [|done].
    eapply path_loop_held in H; [exact H|by apply evolves_locks|done|exact Hst|done|done|done].
Qed.
End rec.

Lemma path_lookup_fuel_good fuel : good (path_lookup_fuel sb now stray junk fuel).
Proof. induction fuel as [|fuel IH]; [by intros ???????????|]. by apply path_lookup_with_good. Qed.

(** C20: Locks in path lookup: called without [ND_PARENT] on any path, when
    [path_lookup] returns 0 it holds exactly one lock more than when it was
    called, that of the inode it found, and when it returns an error it holds
    exactly the locks it was called with; this includes every symbolic link on
    the way.  The cache of inodes stays consistent, and inodes in use stay in
    use under their numbers.  With [ND_PARENT] this does not hold: the lookup of
    [/] returns 0 without a lock. *)
Theorem path_lookup_locks nd y ret nd' y' k :
  cache_ok (y_fs y) -> rooted (y_fs y) -> live (y_fs y) (nd_start nd) k -> has_flag (nd_flags nd) ND_PARENT = false ->
  path_lookup sb now stray junk nd y = Ok ((ret, nd'), y') ->
  evolves (y_fs y) (y_fs y') /\
  (ret = 0 -> exists k', live (y_fs y') (nd_current nd') k' /\ (locks y' = {[k']} ∪ locks y) /\ (k' ∉ locks y)) /\
  (ret <> 0 -> locks y' = locks y).
Proof. apply path_lookup_fuel_good. Qed.
End lookup.
