(* ===== verification/VfsWalk.v ===== *)
(** * Path lookup follows the path

    The components of a path are defined by a reference that splits the string
    at slashes.  On well-formed directories with cached inodes and without
    symbolic links, [path_lookup] finds what following the components one by
    one finds, with the same errors. *)
From stdpp Require Import base numbers list gmap.
From S2P Require Import Prelude Slot Btree Rbtree DirIndex Pm Mkfs Heap Fs Dir File Runtime Vfs VfsLocks.
Local Open Scope Z_scope.

(** ** Components *)

(** The names between the slashes; [cur] is the name read so far, reversed. *)
Fixpoint split (cur c : list Z) : list (list Z) :=
  match c with
  | [] => match cur with [] => [] | _ => [rev cur] end
  | x :: c' =>
      if x =? SLASH then match cur with [] => split [] c' | _ => rev cur :: split [] c' end
      else split (x :: cur) c'
  end.
Definition components (c : list Z) : list (list Z) := split [] c.

Lemma components_skip c : components (skip_slashes c) = components c.
Proof.
  induction c as [|x c IH]; [done|]. simpl. unfold components. simpl. destruct (x =? SLASH) eqn:E; [exact IH|]. simpl. by rewrite E.
Qed.

Lemma split_name cur c : cur <> [] -> split cur c = (rev cur ++ take (name_length c) c) :: components (skip_name c).
Proof.
  revert cur. induction c as [|x c IH]; intros cur Hc.
  - simpl. destruct cur; [done|]. by rewrite app_nil_r.
  - simpl. unfold name_length. simpl. destruct (Z.eqb_spec x SLASH) as [->|Hx].
    + simpl. rewrite Nat.sub_diag. simpl. rewrite app_nil_r. destruct cur; [done|]. done.
    + rewrite IH by done. pose proof (skip_name_length c). unfold name_length.
      rewrite Nat.sub_succ_l by done. simpl. by rewrite <- app_assoc.
Qed.

(** What a round of the loop sees. *)
Lemma components_round x c : x <> SLASH ->
  components (x :: c) = take (name_length (x :: c)) (x :: c) :: components (skip_slashes (skip_name (x :: c))).
Proof.
  intros Hx. rewrite components_skip. unfold components at 1. simpl split. destruct (Z.eqb_spec x SLASH); [done|].
  rewrite split_name by done. unfold name_length. simpl. destruct (Z.eqb_spec x SLASH); [done|].
  pose proof (skip_name_length c). rewrite Nat.sub_succ_l by done. done.
Qed.
Lemma components_nil c : (forall x c', c = x :: c' -> x <> SLASH) -> components c = [] -> c = [].
Proof. intros Hc H. destruct c as [|x c]; [done|]. rewrite components_round in H by (by apply (Hc x c)). done. Qed.

(** ** Following a path *)

Section walk.
Context (sb : pm_super_block) (now stray : Z) (junk : mem).

(** The entry of the directory at [p] for a name, and the cached inode it names. *)
Definition entry_at (s : fs) (D : list Z) (p : Z) (name : list Z) (d : Z) : Prop :=
  p ∈ D /\ exists i, inodes s !! p = Some i /\ is_dir i = true /\ d ∈ i_list i /\ hash_of s d = BKDRHash name.
Definition no_entry (s : fs) (D : list Z) (p : Z) (name : list Z) : Prop :=
  p ∈ D /\ exists i, inodes s !! p = Some i /\ is_dir i = true /\ forall d, d ∈ i_list i -> hash_of s d <> BKDRHash name.
Definition child (s : fs) (D : list Z) (p : Z) (name : list Z) (q : Z) : Prop :=
  exists d e i, entry_at s D p name d /\ dirents s !! d = Some e /\ inode_table s !! d_ino e = Some q /\
    0 <= d_ino e < 2 ^ 64 /\ inodes s !! p = Some i /\ d_ino e <> i_ino i.

(** Following the names from [p] leads to an inode or to an error. *)
Inductive resolves (s : fs) (D : list Z) : Z -> list (list Z) -> Z + Z -> Prop :=
  | res_here p : resolves s D p [] (inl p)
  | res_absent p n ns : no_entry s D p n -> resolves s D p (n :: ns) (inr (- ENOENT))
  | res_not_dir p n m ns q i :
      child s D p n q -> inodes s !! q = Some i -> is_symlink i = false -> is_dir i = false ->
      resolves s D p (n :: m :: ns) (inr (- ENOTDIR))
  | res_step p n ns q i r :
      child s D p n q -> inodes s !! q = Some i -> is_symlink i = false -> (ns <> [] -> is_dir i = true) ->
      resolves s D q ns r -> resolves s D p (n :: ns) r.

Context (y : sys) (D : list Z).
Local Abbreviation s := (y_fs y).
Hypothesis Hdirs : dirs_inv sb s D.
Hypothesis Hcache : cache_ok s.

(** The system with the locks [L]. *)
Local Definition st (L : gset Z) : sys := upd_y_fs (upd_ilocks (fun _ => L)) y.

Lemma dirs_inv_locks f : dirs_inv sb (upd_ilocks f s) D.
Proof. destruct Hdirs as [[] He Ha]. constructor; [by constructor| |done]. intros p Hp. destruct (He p Hp) as (i & Hi & []). exists i. split; [done|by constructor]. Qed.

Lemma lookup_entry L p n d : entry_at s D p n d -> on_fs (inode_lookup p n) (st L) = Ok (d, st L) /\ d <> 0.
Proof.
  intros (Hp & i & Hi & Hd & Hin & Hh). pose proof (dirs_inv_locks (fun _ => L)) as Hinv.
  destruct (dv_each _ _ _ Hinv p Hp) as (i0 & Hi0 & Hok). change (inodes s !! p = Some i0) in Hi0. rewrite Hi in Hi0. injection Hi0 as <-.
  destruct (dirent_lookup_spec sb (upd_ilocks (fun _ => L) s) p i (BKDRHash n) Hi Hok) as (a & Ha & H1 & H0).
  assert (a <> 0) as Hnz by (intros ->; by apply (H0 eq_refl d Hin)).
  assert (a = d) as ->.
  { destruct (H1 Hnz) as [Hin' Hh']. destruct (do_index _ _ _ Hok) as (l & Hl & Hpm).
    apply (index_rep_hash_inj (hash_of (upd_ilocks (fun _ => L) s)) (rb_root i) l); [done|by rewrite Hpm|by rewrite Hpm|].
    rewrite Hh'. symmetry. exact Hh. }
  split; [|done]. unfold on_fs, zoom. cbn [y_fs st upd_y_fs]. unfold inode_lookup.
  erewrite M_bind_step by (apply rd_inode_eq; exact Hi). rewrite Hd. simpl (negb _). cbv iota. by rewrite Ha.
Qed.
Lemma lookup_absent L p n : no_entry s D p n -> on_fs (inode_lookup p n) (st L) = Ok (0, st L).
Proof.
  intros (Hp & i & Hi & Hd & Hno). pose proof (dirs_inv_locks (fun _ => L)) as Hinv.
  destruct (dv_each _ _ _ Hinv p Hp) as (i0 & Hi0 & Hok). change (inodes s !! p = Some i0) in Hi0. rewrite Hi in Hi0. injection Hi0 as <-.
  destruct (dirent_lookup_spec sb (upd_ilocks (fun _ => L) s) p i (BKDRHash n) Hi Hok) as (a & Ha & H1 & _).
  assert (a = 0) as ->. { destruct (decide (a = 0)); [done|]. destruct (H1 n0) as [Hin Hh]. by destruct (Hno a Hin). }
  unfold on_fs, zoom. cbn [y_fs st upd_y_fs]. unfold inode_lookup.
  erewrite M_bind_step by (apply rd_inode_eq; exact Hi). rewrite Hd. simpl (negb _). cbv iota. by rewrite Ha.
Qed.

Lemma unlock_st p k L : live s p k -> on_fs (unlock_inode p) (st L) = Ok (tt, st (L ∖ {[k]})).
Proof.
  intros (_ & i & Hi & <-). unfold on_fs, zoom. cbn [y_fs st upd_y_fs]. unfold unlock_inode.
  by erewrite M_bind_step by (apply rd_inode_eq; exact Hi).
Qed.
Lemma lock_st p k L : live s p k -> k ∉ L -> on_fs (lock_inode p) (st L) = Ok (tt, st ({[k]} ∪ L)).
Proof.
  intros (_ & i & Hi & <-) Hk. unfold on_fs, zoom. cbn [y_fs st upd_y_fs]. unfold lock_inode.
  erewrite M_bind_step by (apply rd_inode_eq; exact Hi). unfold inode_lock. by rewrite decide_False.
Qed.
Lemma iget_st k q L : inode_table s !! k = Some q -> 0 <= k < 2 ^ 64 -> k ∉ L ->
  on_fs (iget sb now stray junk k) (st L) = Ok (q, st ({[k]} ∪ L)).
Proof.
  intros Hq Hk Hl. unfold on_fs, zoom. cbn [y_fs st upd_y_fs]. unfold iget. cbv zeta. rewrite u64_small by done.
  erewrite M_bind_step by (unfold inode_lock; rewrite decide_False by exact Hl; reflexivity).
  mstep eq_refl. fsimpl. by rewrite Hq.
Qed.

Lemma st_eq L L' : L = L' -> st L = st L'.
Proof. by intros ->. Qed.

Section round.
Context (rec : nameidata -> M sys (Z * nameidata)) (this : list Z) (len : nat) (nd : nameidata) (kc : Z).
Hypothesis Hcur : live s (nd_current nd) kc.

(** The steps from the name to the locked child. *)
Lemma fetch_child {A} q (k : Z -> dram_inode -> M sys A) (stop1 stop2 : M sys A) (stop3 : Z -> M sys A) i :
  child s D (nd_current nd) (take len this) q -> inodes s !! q = Some i ->
  exists kq, live s q kq /\ kq <> kc /\
  (d ← on_fs (inode_lookup (nd_current nd) (take len this));
   if d =? 0 then stop1 else
   de ← on_fs (rd_dirent d);
   inode ← on_fs (iget sb now stray junk (d_ino de));
   if inode =? 0 then stop2 else
   if IS_ERR inode then stop3 inode else
   i ← on_fs (rd_inode inode);
   k inode i) (st {[kc]}) = k q i (st ({[kq]} ∪ {[kc]})).
Proof.
  intros (d & e & j & Hen & He & Ht & Hr & Hj & Hne) Hi. pose proof (ca_live s Hcache _ _ Ht) as Hq.
  assert (d_ino e <> kc) as Hk. { destruct Hcur as (_ & j' & Hj' & <-). congruence. }
  exists (d_ino e). split_and!; [done|done|]. destruct (lookup_entry {[kc]} _ _ _ Hen) as [Hl Hnz].
  mstep Hl. rewrite (proj2 (Z.eqb_neq d 0)) by done.
  erewrite M_bind_step.
  2: { unfold on_fs, zoom, rd_dirent, lift, deref. cbn [y_fs st upd_y_fs]. fsimpl. rewrite He. reflexivity. }
  change (upd_y_fs (fun _ => y_fs (st {[kc]})) (st {[kc]})) with (st {[kc]}).
  mstep (iget_st _ q {[kc]} Ht Hr ltac:(set_solver)). destruct (live_addr _ _ _ Hq) as [He1 He2].
  rewrite (proj2 (Z.eqb_neq q 0)) by done. rewrite He1.
  erewrite M_bind_step.
  2: { unfold on_fs, zoom, rd_inode, lift, deref. cbn [y_fs st upd_y_fs]. fsimpl. rewrite Hi. reflexivity. }
  done.
Qed.

Lemma stop_st ret n k : live s (nd_current n) k -> stop ret n (st {[k]}) = Ok (Done ret n, st ∅).
Proof. intros Hk. unfold stop. mstep (unlock_st _ _ _ Hk). unfold mret, M_ret. do 2 f_equal. apply st_eq. set_solver. Qed.

Lemma mid_absent : no_entry s D (nd_current nd) (take len this) ->
  mid_component sb now stray junk rec this len nd (st {[kc]}) = Ok (Done (- ENOENT) nd, st ∅).
Proof. intros Hno. unfold mid_component. mstep (lookup_absent _ _ _ Hno). simpl (0 =? 0). cbv iota. by apply stop_st. Qed.
Lemma last_absent : no_entry s D (nd_current nd) (take len this) -> has_flag (nd_flags nd) ND_PARENT = false ->
  exists n, last_component sb now stray junk rec this len nd (st {[kc]}) = Ok (Done (- ENOENT) n, st ∅).
Proof.
  intros Hno Hfl. eexists. unfold last_component. cbv zeta. change (nd_flags (set_last _ _ nd)) with (nd_flags nd). rewrite Hfl.
  mstep (lookup_absent {[kc]} _ _ Hno). simpl (0 =? 0). cbv iota. by apply stop_st.
Qed.

Lemma mid_not_dir q i : child s D (nd_current nd) (take len this) q -> inodes s !! q = Some i -> is_symlink i = false -> is_dir i = false ->
  mid_component sb now stray junk rec this len nd (st {[kc]}) = Ok (Done (- ENOTDIR) nd, st ∅).
Proof.
  intros Hch Hi Hs Hd. unfold mid_component. edestruct (fetch_child (A:=step) q) as (kq & Hq & Hne & ->); [done|done|]. cbv beta.
  rewrite Hs, Hd. simpl (negb _). cbv iota. mstep (unlock_st q kq _ Hq). rewrite (st_eq _ {[kc]}) by set_solver. by apply stop_st.
Qed.
Lemma mid_step q i : child s D (nd_current nd) (take len this) q -> inodes s !! q = Some i -> is_symlink i = false -> is_dir i = true ->
  exists kq, live s q kq /\ mid_component sb now stray junk rec this len nd (st {[kc]}) = Ok (Next (set_current q nd), st {[kq]}).
Proof.
  intros Hch Hi Hs Hd. unfold mid_component. edestruct (fetch_child (A:=step) q) as (kq & Hq & Hne & ->); [done|done|]. cbv beta.
  exists kq. split; [done|]. rewrite Hs, Hd. simpl (negb _). cbv iota. mstep (unlock_st _ kc _ Hcur). by rewrite (st_eq _ {[kq]}) by set_solver.
Qed.
Lemma last_step q i : child s D (nd_current nd) (take len this) q -> inodes s !! q = Some i -> is_symlink i = false ->
  has_flag (nd_flags nd) ND_PARENT = false ->
  exists kq n, live s q kq /\ nd_current n = q /\
    last_component sb now stray junk rec this len nd (st {[kc]}) = Ok (Done 0 n, st {[kq]}).
Proof.
  intros Hch Hi Hs Hfl. unfold last_component. cbv zeta. change (nd_flags (set_last _ _ nd)) with (nd_flags nd). rewrite Hfl.
  change (nd_current (set_last _ _ nd)) with (nd_current nd).
  edestruct (fetch_child (A:=step) q) as (kq & Hq & Hne & ->); [done|done|]. cbv beta.
  exists kq, (set_current q (set_last this (Z.of_nat len) nd)). split_and!; [done|done|]. rewrite Hs.
  mstep (unlock_st _ kc _ Hcur). by rewrite (st_eq _ {[kq]}) by set_solver.
Qed.
End round.

(** What the lookup returns for a result of following the names. *)
Definition returns (o : outcome ((Z * nameidata) * sys)) (r : Z + Z) : Prop :=
  match r with
  | inl q => exists nd' kq, o = Ok ((0, nd'), st {[kq]}) /\ nd_current nd' = q /\ live s q kq
  | inr e => exists nd', o = Ok ((e, nd'), st ∅)
  end.

Lemma path_loop_resolves rec p names r :
  resolves s D p names r -> forall fuel c nd kc,
  names <> [] -> components c = names -> (forall x c', c = x :: c' -> x <> SLASH) -> (length c < fuel)%nat ->
  nd_current nd = p -> live s p kc -> has_flag (nd_flags nd) ND_PARENT = false ->
  returns (path_loop sb now stray junk rec fuel c nd (st {[kc]})) r.
Proof.
  induction 1 as [p|p n ns Hno|p n m ns q i Hch Hi Hs Hd|p n ns q i r Hch Hi Hs Hd Hres IH];
    intros fuel c nd kc Hne Hc Hx Hf Hcur Hlv Hfl; [done| | |].
  all: destruct fuel as [|fuel]; [lia|]; destruct c as [|x c]; [done|]; pose proof (Hx x c eq_refl) as Hsl.
  all: rewrite components_round in Hc by done; injection Hc as <- Hc; subst p; cbn [path_loop]; cbv zeta.
  all: set (c1 := skip_slashes (skip_name (x :: c))) in *; match type of Hc with _ = ?l => change (components c1 = l) in Hc end.
  all: assert (forall z w, c1 = z :: w -> z <> SLASH) as Hx1 by (intros z w E; by apply (skip_slashes_head (skip_name (x :: c)) z w)).
  - destruct c1 as [|z w].
    + destruct (last_absent rec (x :: c) (name_length (x :: c)) nd kc Hlv Hno Hfl) as (n' & E). exists n'. by mstep E.
    + exists nd. by mstep (mid_absent rec (x :: c) (name_length (x :: c)) nd kc Hlv Hno).
  - destruct c1 as [|z w]; [done|]. exists nd.
    by mstep (mid_not_dir rec (x :: c) (name_length (x :: c)) nd kc Hlv q i Hch Hi Hs Hd).
  - destruct c1 as [|z w] eqn:Ec1.
    + subst ns. inversion Hres; subst.
      destruct (last_step rec (x :: c) (name_length (x :: c)) nd kc Hlv q i Hch Hi Hs Hfl) as (kq & n' & Hq & En & E).
      exists n', kq. split_and!; [by mstep E|done|done].
    + assert (ns <> []) as Hns.
      { intros E0. apply (components_nil (z :: w)) in Hx1; [done|]. by rewrite Hc. }
      destruct (mid_step rec (x :: c) (name_length (x :: c)) nd kc Hlv q i Hch Hi Hs (Hd Hns)) as (kq & Hq & E).
      pose proof (round_shorter x c Hsl) as Hlen. fold c1 in Hlen. rewrite Ec1 in Hlen.
      unfold returns. erewrite M_bind_step by exact E. apply (IH fuel (z :: w) (set_current q nd) kq); try done. lia.
Qed.

Lemma path_lookup_walk nd kc r :
  locks y = ∅ -> live s (nd_start nd) kc -> has_flag (nd_flags nd) ND_PARENT = false ->
  resolves s D (nd_start nd) (components (nd_path nd)) r ->
  returns (path_lookup sb now stray junk nd y) r.
Proof.
  intros HL Hst Hfl Hres. assert (y = st ∅) as Ey.
  { unfold st, locks in *. rewrite <- HL. destruct y as [f h t]. unfold upd_y_fs. simpl. f_equal. by destruct f. }
  rewrite Ey at 1. unfold path_lookup, lookup_fuel. change (Z.to_nat (MAX_LOOP + 2)) with 12%nat. cbn [path_lookup_fuel].
  unfold path_lookup_with. cbv zeta. rewrite <- components_skip in Hres.
  change (nd_flags (set_current (nd_start nd) nd)) with (nd_flags nd). rewrite Hfl.
  pose proof (lock_st (nd_start nd) kc ∅ Hst ltac:(set_solver)) as Hlock.
  rewrite (st_eq ({[kc]} ∪ ∅) {[kc]}) in Hlock by set_solver.
  destruct (skip_slashes (nd_path nd)) as [|x c] eqn:Ec.
  - inversion Hres; subst. exists (set_current (nd_start nd) nd), kc. split_and!; [by mstep Hlock|done|done].
  - unfold returns. erewrite M_bind_step by exact Hlock.
    apply (path_loop_resolves _ (nd_start nd) (components (x :: c)) r Hres); try done.
    + rewrite components_round; [done|]. by apply (skip_slashes_head (nd_path nd) x c).
    + intros z w [= <- <-]. by apply (skip_slashes_head (nd_path nd) x c).
    + simpl. lia.
Qed.

Lemma path_loop_parent rec p names r :
  resolves s D p names r -> forall q iq l fuel c nd kc, r = inl q -> inodes s !! q = Some iq -> is_dir iq = true ->
  components c = names ++ [l] -> (forall x c', c = x :: c' -> x <> SLASH) -> (length c < fuel)%nat ->
  nd_current nd = p -> live s p kc -> has_flag (nd_flags nd) ND_PARENT = true ->
  exists nd' kq, path_loop sb now stray junk rec fuel c nd (st {[kc]}) = Ok ((0, nd'), st {[kq]}) /\ nd_parent nd' = q /\
    live s q kq /\ take (Z.to_nat (nd_last_len nd')) (nd_last nd') = l /\
    nd_last_len nd' = Z.of_nat (name_length (nd_last nd')).
Proof.
  induction 1 as [p|p n ns Hno|p n m ns q i Hch Hi Hs Hd|p n ns q0 i r Hch Hi Hs Hd Hres IH];
    intros q1 iq l fuel c nd kc Er Hiq Hdq Hc Hx Hf Hcur Hlv Hfl; try discriminate Er.
  all: destruct fuel as [|fuel]; [lia|]; destruct c as [|x c]; [done|]; pose proof (Hx x c eq_refl) as Hsl.
  all: rewrite components_round in Hc by done; injection Hc as Hn Hc; subst p; cbn [path_loop]; cbv zeta.
  all: set (c1 := skip_slashes (skip_name (x :: c))) in *; match type of Hc with _ = ?l => change (components c1 = l) in Hc end.
  all: assert (forall z w, c1 = z :: w -> z <> SLASH) as Hx1 by (intros z w E; by apply (skip_slashes_head (skip_name (x :: c)) z w)).
  - injection Er as <-. apply components_nil in Hc; [|done]. rewrite Hc.
    exists (set_current 0 (set_parent (nd_current nd) (set_last (x :: c) (Z.of_nat (name_length (x :: c))) nd))), kc.
    split_and!; [|done|done| |done].
    + unfold last_component. cbv zeta. change (nd_flags (set_last _ _ nd)) with (nd_flags nd). rewrite Hfl. done.
    + cbn [nd_last nd_last_len set_current set_parent set_last]. by rewrite Nat2Z.id.
  - destruct c1 as [|z w] eqn:Ec1; [by destruct ns|].
    assert (is_dir i = true) as Hdi.
    { destruct ns as [|n2 ns]; [|by apply Hd]. inversion Hres; subst. congruence. }
    subst n. destruct (mid_step rec (x :: c) (name_length (x :: c)) nd kc Hlv q0 i Hch Hi Hs Hdi) as (kq & Hq & E).
    pose proof (round_shorter x c Hsl) as Hlen. fold c1 in Hlen. rewrite Ec1 in Hlen.
    erewrite M_bind_step by exact E. apply (IH q1 iq l fuel (z :: w) (set_current q0 nd) kq); try done. lia.
Qed.

Lemma path_lookup_walk_parent nd kc names l q iq :
  locks y = ∅ -> live s (nd_start nd) kc -> has_flag (nd_flags nd) ND_PARENT = true ->
  components (nd_path nd) = names ++ [l] -> resolves s D (nd_start nd) names (inl q) ->
  inodes s !! q = Some iq -> is_dir iq = true ->
  exists nd' kq, path_lookup sb now stray junk nd y = Ok ((0, nd'), st {[kq]}) /\ nd_parent nd' = q /\
    live s q kq /\ take (Z.to_nat (nd_last_len nd')) (nd_last nd') = l /\
    nd_last_len nd' = Z.of_nat (name_length (nd_last nd')).
Proof.
  intros HL Hst Hfl Hc Hres Hiq Hdq. rewrite <- components_skip in Hc. assert (y = st ∅) as Ey.
  { unfold st, locks in *. rewrite <- HL. destruct y as [f h t]. unfold upd_y_fs. simpl. f_equal. by destruct f. }
  replace (path_lookup sb now stray junk nd y) with (path_lookup sb now stray junk nd (st ∅)) by (by rewrite <- Ey).
  unfold path_lookup, lookup_fuel. change (Z.to_nat (MAX_LOOP + 2)) with 12%nat. cbn [path_lookup_fuel].
  unfold path_lookup_with. cbv zeta. destruct (skip_slashes (nd_path nd)) as [|x c] eqn:Ec; [by destruct names|].
  pose proof (lock_st (nd_start nd) kc ∅ Hst ltac:(set_solver)) as Hlock.
  rewrite (st_eq ({[kc]} ∪ ∅) {[kc]}) in Hlock by set_solver. erewrite M_bind_step by exact Hlock.
  apply (path_loop_parent _ (nd_start nd) names (inl q) Hres q iq); try done.
  - intros z w [= <- <-]. by apply (skip_slashes_head (nd_path nd) x c).
  - simpl. lia.
Qed.

(** Where the walk to the parent fails: where following the names fails, and
    when they lead to a file. *)
Definition parent_fails (p : Z) (names : list (list Z)) (e : Z) : Prop :=
  resolves s D p names (inr e) \/
  exists q iq, resolves s D p names (inl q) /\ names <> [] /\ inodes s !! q = Some iq /\ is_dir iq = false /\ e = - ENOTDIR.

Lemma path_loop_fails rec p names r :
  resolves s D p names r -> forall l fuel c nd kc e,
  (r = inr e \/ exists q iq, r = inl q /\ names <> [] /\ inodes s !! q = Some iq /\ is_dir iq = false /\ e = - ENOTDIR) ->
  components c = names ++ [l] -> (forall x c', c = x :: c' -> x <> SLASH) -> (length c < fuel)%nat ->
  nd_current nd = p -> live s p kc ->
  exists nd', path_loop sb now stray junk rec fuel c nd (st {[kc]}) = Ok ((e, nd'), st ∅).
Proof.
  induction 1 as [p|p n ns Hno|p n m ns q i Hch Hi Hs Hd|p n ns q0 i r Hch Hi Hs Hd Hres IH];
    intros l fuel c nd kc e Hr Hc Hx Hf Hcur Hlv.
  { destruct Hr as [Hr|(? & ? & _ & Hne & _)]; [discriminate Hr|done]. }
  all: destruct fuel as [|fuel]; [lia|]; destruct c as [|x c]; [done|]; pose proof (Hx x c eq_refl) as Hsl.
  all: rewrite components_round in Hc by done; injection Hc as Hn Hc; subst p; cbn [path_loop]; cbv zeta.
  all: set (c1 := skip_slashes (skip_name (x :: c))) in *; match type of Hc with _ = ?l => change (components c1 = l) in Hc end.
  all: assert (forall z w, c1 = z :: w -> z <> SLASH) as Hx1 by (intros z w E; by apply (skip_slashes_head (skip_name (x :: c)) z w)).
  all: subst n; destruct c1 as [|z w] eqn:Ec1; [by destruct ns|].
  - destruct Hr as [[= <-]|(? & ? & Hr & _)]; [|discriminate Hr]. exists nd. by mstep (mid_absent rec (x :: c) (name_length (x :: c)) nd kc Hlv Hno).
  - destruct Hr as [[= <-]|(? & ? & Hr & _)]; [|discriminate Hr]. exists nd.
    by mstep (mid_not_dir rec (x :: c) (name_length (x :: c)) nd kc Hlv q i Hch Hi Hs Hd).
  - destruct (is_dir i) eqn:Hdi.
    + destruct (mid_step rec (x :: c) (name_length (x :: c)) nd kc Hlv q0 i Hch Hi Hs Hdi) as (kq & Hq & E).
      pose proof (round_shorter x c Hsl) as Hlen. fold c1 in Hlen. rewrite Ec1 in Hlen.
      erewrite M_bind_step by exact E. apply (IH l fuel (z :: w) (set_current q0 nd) kq e); try done; [|lia].
      destruct Hr as [Hr|(q & iq & Hr & _ & Hiq & Hdq & He)]; [by left|right]. exists q, iq. split_and!; try done.
      intros ->. inversion Hres; subst. congruence.
    + assert (ns = []) as -> by (destruct ns; [done|by specialize (Hd ltac:(done))]). inversion Hres; subst.
      destruct Hr as [Hr|(q & iq & Hr & _ & Hiq & Hdq & ->)]; [discriminate Hr|]. exists nd.
      by mstep (mid_not_dir rec (x :: c) (name_length (x :: c)) nd kc Hlv q0 i Hch Hi Hs Hdi).
Qed.

Lemma path_lookup_fails nd kc names l e :
  locks y = ∅ -> live s (nd_start nd) kc -> components (nd_path nd) = names ++ [l] -> parent_fails (nd_start nd) names e ->
  exists nd', path_lookup sb now stray junk nd y = Ok ((e, nd'), y).
Proof.
  intros HL Hst Hc Hres. rewrite <- components_skip in Hc. assert (y = st ∅) as Ey.
  { unfold st, locks in *. rewrite <- HL. destruct y as [f h t]. unfold upd_y_fs. simpl. f_equal. by destruct f. }
  replace (path_lookup sb now stray junk nd y) with (path_lookup sb now stray junk nd (st ∅)) by (by rewrite <- Ey).
  unfold path_lookup, lookup_fuel. change (Z.to_nat (MAX_LOOP + 2)) with 12%nat. cbn [path_lookup_fuel].
  unfold path_lookup_with. cbv zeta. destruct (skip_slashes (nd_path nd)) as [|x c] eqn:Ec; [by destruct names|].
  pose proof (lock_st (nd_start nd) kc ∅ Hst ltac:(set_solver)) as Hlock.
  rewrite (st_eq ({[kc]} ∪ ∅) {[kc]}) in Hlock by set_solver. erewrite M_bind_step by exact Hlock.
  assert (forall z w, x :: c = z :: w -> z <> SLASH) as Hx by (intros z w [= <- <-]; by apply (skip_slashes_head (nd_path nd) x c)).
  assert (exists r, resolves s D (nd_start nd) names r /\
    (r = inr e \/ exists q iq, r = inl q /\ names <> [] /\ inodes s !! q = Some iq /\ is_dir iq = false /\ e = - ENOTDIR)) as (r & Hr & Hor).
  { destruct Hres as [Hr|(q & iq & Hr & Hrest)]; [exists (inr e); split; [done|by left]|exists (inl q); split; [done|right; by exists q, iq]]. }
  match goal with |- exists nd', ?X = _ => assert (exists nd', X = Ok ((e, nd'), st ∅)) as (nd' & Hl) end;
    [|exists nd'; rewrite Hl; by rewrite <- Ey].
  apply (path_loop_fails _ (nd_start nd) names r Hr l _ _ _ kc e); try done. simpl. lia.
Qed.

(** ** Properties *)

(** C18: [path_lookup] is right on paths without symbolic links: from a
    directory, with well-formed directories, cached inodes and no lock held, it
    returns what following the components of the path one by one leads to: the
    inode, with its lock and no other; [-ENOENT] when a name is missing and
    [-ENOTDIR] when a name in the middle is not a directory, with no lock.
    Repeated, leading and trailing slashes make no difference. *)
Theorem path_lookup_correct nd kc r :
  locks y = ∅ -> live s (nd_start nd) kc -> has_flag (nd_flags nd) ND_PARENT = false ->
  resolves s D (nd_start nd) (components (nd_path nd)) r ->
  returns (path_lookup sb now stray junk nd y) r.
Proof. apply path_lookup_walk. Qed.

(** C19: With [ND_PARENT], on a path that has a component, and under the
    conditions of [path_lookup_correct] (no symbolic link on the way, cached
    inodes, no lock held), [path_lookup] returns 0 with the directory that all but
    the last component lead to, with its lock and no other, and with the last
    component.  For a path without components, as [/], it returns 0 with no
    parent and no lock, see [rename_root_faults]. *)
Theorem path_lookup_parent nd kc names l q iq :
  locks y = ∅ -> live s (nd_start nd) kc -> has_flag (nd_flags nd) ND_PARENT = true ->
  components (nd_path nd) = names ++ [l] -> resolves s D (nd_start nd) names (inl q) ->
  inodes s !! q = Some iq -> is_dir iq = true ->
  exists nd' kq, path_lookup sb now stray junk nd y = Ok ((0, nd'), st {[kq]}) /\ nd_parent nd' = q /\
    live s q kq /\ take (Z.to_nat (nd_last_len nd')) (nd_last nd') = l /\
    nd_last_len nd' = Z.of_nat (name_length (nd_last nd')).
Proof. apply path_lookup_walk_parent. Qed.
End walk.
