(* ===== verification/FsInv.v ===== *)
(** * The invariant of the file system

    [fs_inv] is the invariant of the whole file system in memory and on the
    device: every directory and every file is well formed, they share no
    inode number, no slot and no entry, every object in use is outside its
    arena, and every entry of a directory names an inode slot that is in use.
    Operations on one directory and writes to one file keep it. *)
From stdpp Require Import base numbers list gmap.
From S2P Require Import Prelude Bitops Slot Btree Rbtree RbErase DirIndex Pm Mkfs Shm Fs Journal Dir DirView.
From S2P Require Import File FileIndex FileLog FileRead FileWrite Runtime Vfs VfsLocks.
Local Open Scope Z_scope.

Section inv.
Context (sb : pm_super_block).

(** [D] are the directories and [P] the files among the inodes in memory. *)
Record fs_inv (s : fs) (D P : list Z) : Prop := {
  fi_dirs : dirs_inv sb s D;
  fi_files : files_inv sb s P;
  fi_cache : cache_ok s;
  fi_imap : sa_inv (map_inode s) /\ forall k, sa_valid (map_inode s) k <-> 0 <= k < slot_num (sb_inode sb);
  fi_pool : NoDup (btree_arena s) /\ 0 ∉ btree_arena s;
  fi_kind p i : inodes s !! p = Some i -> (p ∈ D -> is_dir i = true) /\ (p ∈ P -> is_dir i = false);
  fi_busy p i : p ∈ D ++ P -> inodes s !! p = Some i -> (p ∉ inode_arena s) /\ sa_used (map_inode s) (i_ino i) = true;
  fi_apart p q i j : p ∈ D -> q ∈ P -> inodes s !! p = Some i -> inodes s !! q = Some j ->
    i_ino i <> i_ino j /\ forall d, d ∈ i_list i -> d ∉ i_list j;
  fi_addr p i d : p ∈ D -> inodes s !! p = Some i -> d ∈ i_list i -> 0 < d < 2 ^ 62;
  fi_table k p : inode_table s !! k = Some p -> 0 <= k < slot_num (sb_inode sb) /\ sa_used (map_inode s) k = true;
  fi_entries p h k : p ∈ D -> entry_ino s p h = Some k -> 0 <= k < slot_num (sb_inode sb) /\ sa_used (map_inode s) k = true;
}.

Lemma fs_dir s D P p : fs_inv s D P -> p ∈ D ->
  exists i, inodes s !! p = Some i /\ dir_ok sb s i /\ 0 <= i_ino i < slot_num (sb_inode sb) /\ p ∉ P.
Proof.
  intros H Hp. destruct (dv_each _ _ _ (fi_dirs _ _ _ H) p Hp) as (i & Hi & Hok). exists i. split_and!; [done|done|apply Hok|apply Hok|].
  intros HP. destruct (fi_kind _ _ _ H p i Hi) as [H1 H2]. by rewrite H1 in H2; [discriminate H2|].
Qed.
Lemma fs_reg s D P p : fs_inv s D P -> p ∈ P ->
  exists i, inodes s !! p = Some i /\ file_ok sb s i /\ 0 <= i_ino i < slot_num (sb_inode sb) /\ p ∉ D.
Proof.
  intros H Hp. destruct (fv_each _ _ _ (fi_files _ _ _ H) p Hp) as (i & Hi & Hok). exists i. split_and!; [done|done|apply Hok|apply Hok|].
  intros HD. destruct (fi_kind _ _ _ H p i Hi) as [H1 H2]. by rewrite H1 in H2; [discriminate H2|].
Qed.

Lemma fs_ino s D P q j : fs_inv s D P -> q ∈ D ++ P -> inodes s !! q = Some j -> 0 <= i_ino j < slot_num (sb_inode sb).
Proof.
  intros H Hq Hj. apply elem_of_app in Hq as [Hq|Hq]; [destruct (fs_dir s D P q H Hq) as (x & Hx & _ & Hr & _)|destruct (fs_reg s D P q H Hq) as (x & Hx & _ & Hr & _)]; congruence.
Qed.

(** The file [j] of [s] is the file [j'] of [s']: attributes, index and bytes. *)
Definition same_contents (s s' : fs) (j j' : dram_inode) : Prop :=
  same_file j j' /\ i_size j' = i_size j /\ i_mode j' = i_mode j /\
  (forall k, 0 <= k -> extent (filents s') (block_of j') k = extent (filents s) (block_of j) k) /\
  forall o, 0 <= o -> file_byte sb s' j' o = file_byte sb s j o.

(** From [s] to [s'] the invariant is kept, and every file. *)
Definition keeps (D P : list Z) (s s' : fs) : Prop :=
  fs_inv s D P -> fs_inv s' D P /\
  forall q j, q ∈ P -> inodes s !! q = Some j -> exists j', inodes s' !! q = Some j' /\ same_contents s s' j j'.

Lemma same_contents_trans s1 s2 s3 i j k : same_contents s1 s2 i j -> same_contents s2 s3 j k -> same_contents s1 s3 i k.
Proof.
  intros ((A1 & A2 & A3 & A4 & A5 & A6 & A7 & A8) & A9 & A10 & A12 & A11) ((B1 & B2 & B3 & B4 & B5 & B6 & B7 & B8) & B9 & B10 & B12 & B11).
  unfold same_contents, same_file. split_and!; try congruence; [intros b Hb; by rewrite B12, A12|]. intros o Ho. by rewrite B11, A11.
Qed.
Lemma keeps_trans D P s1 s2 s3 : keeps D P s1 s2 -> keeps D P s2 s3 -> keeps D P s1 s3.
Proof.
  intros H1 H2 H. destruct (H1 H) as [I2 F2], (H2 I2) as [I3 F3]. split; [done|]. intros q j Hq Hj.
  destruct (F2 q j Hq Hj) as (j2 & Hj2 & E2). destruct (F3 q j2 Hq Hj2) as (j3 & Hj3 & E3). exists j3. split; [done|]. by eapply same_contents_trans.
Qed.

Hypothesis Hlo : layout_ok sb.

(** ** Operations on one directory *)

Lemma dent_below_fent x y : 0 <= x < slot_num (sb_dir sb) -> 0 <= y < slot_num (sb_file sb) -> IDX2DENT sb x + 256 <= IDX2FENT sb y.
Proof.
  intros. rewrite (IDX2DENT_eq sb Hlo), (IDX2FENT_eq sb Hlo) by done. destruct Hlo as [_ _ (_ & ? & _) _ _ _]. lia.
Qed.

(** What is outside the slot of the inode of the directory and the directory slots. *)
Section beside.
Context (i : dram_inode) (m m' : mem).
Hypothesis Hr : 0 <= i_ino i < slot_num (sb_inode sb).
Hypothesis Hb : beside_dir sb i m m'.

Lemma beside_fent y : 0 <= y < slot_num (sb_file sb) -> agree (IDX2FENT sb y) 40 m m'.
Proof.
  intros Hy x Hx. apply Hb.
  - pose proof (inode_below_fent sb Hlo (i_ino i) y Hr Hy). lia.
  - intros z Hz. pose proof (dent_below_fent z y Hz Hy). lia.
Qed.
Lemma beside_data y : 0 <= y < slot_num (sb_data sb) -> agree (IDX2DATA sb y) 4096 m m'.
Proof.
  intros Hy x Hx. apply Hb.
  - pose proof (inode_below_data sb Hlo (i_ino i) y Hr Hy). lia.
  - intros z Hz. rewrite (IDX2DENT_eq sb Hlo) by done. rewrite (IDX2DATA_eq sb Hlo) in Hx by done.
    destruct Hlo as [_ _ (_ & ? & ? & _) (_ & _ & [? _] & _) _ _]. lia.
Qed.
Lemma beside_inode ino : 0 <= ino < slot_num (sb_inode sb) -> ino <> i_ino i -> agree (IDX2INODE sb ino) 128 m m'.
Proof.
  intros Hi Hne x Hx. apply Hb.
  - rewrite !(IDX2INODE_eq sb Hlo) in * by done. lia.
  - intros z Hz. pose proof (inode_below_dent sb Hlo ino z Hi Hz). lia.
Qed.
Lemma beside_head ino : 0 <= ino < slot_num (sb_inode sb) -> ino <> i_ino i -> pm_head sb m' ino = pm_head sb m ino.
Proof.
  intros Hi Hne. unfold pm_head. f_equal. apply load_agree. eapply agree_sub; [| |by apply (beside_inode ino)]; unfold PI_log_head; lia.
Qed.
End beside.

Section dir_op.
Context (s s' : fs) (D P : list Z) (p : Z) (i i' : dram_inode).
Hypothesis Hinv : fs_inv s D P.
Hypothesis Hp : p ∈ D.
Hypothesis Hi : inodes s !! p = Some i.
Hypothesis Hi' : inodes s' !! p = Some i'.
Hypothesis Eino : i_ino i' = i_ino i.
Hypothesis Hfr : dir_frame sb s s' p.
Hypothesis Hdirs : dirs_inv sb s' D.
(** Entries and free objects are those of before. *)
Hypothesis Hlist : forall x, x ∈ i_list i' -> x ∈ i_list i \/ x ∈ entry_arena s.
Hypothesis Harena : forall x, x ∈ entry_arena s' -> x ∈ entry_arena s \/ x ∈ i_list i.

Lemma dop_ino : 0 <= i_ino i < slot_num (sb_inode sb) /\ p ∉ P.
Proof. destruct (fs_dir s D P p Hinv Hp) as (j & Hj & _ & Hr & Hn). rewrite Hi in Hj. injection Hj as <-. done. Qed.
Lemma dop_bytes : beside_dir sb i (bytes (dev s)) (bytes (dev s')).
Proof. by apply (fr_dev _ _ _ _ Hfr i). Qed.

Lemma dop_inode q j : inodes s !! q = Some j -> exists j', inodes s' !! q = Some j' /\ i_ino j' = i_ino j /\ i_mode j' = i_mode j /\ i_link j' = i_link j.
Proof.
  intros Hj. destruct (decide (q = p)) as [->|Hne].
  - rewrite Hi in Hj. injection Hj as <-. exists i'. split_and!; [done|done|..]; by apply (fr_self _ _ _ _ Hfr i i').
  - destruct (fr_count _ _ _ _ Hfr q j Hne Hj) as (n & Hn). eexists. split; [exact Hn|]. done.
Qed.
(** Inodes of files differ in the count only. *)
Lemma dop_file q j : q ∈ P -> inodes s !! q = Some j ->
  exists j', inodes s' !! q = Some j' /\ same_file j j' /\ i_size j' = i_size j /\ i_mode j' = i_mode j.
Proof.
  intros Hq Hj. destruct (fr_count _ _ _ _ Hfr q j) as (n & Hn); [|done|].
  - intros ->. by destruct dop_ino.
  - eexists. split; [exact Hn|]. by destruct j.
Qed.
Lemma dop_back q j' : q ∈ D ++ P -> inodes s' !! q = Some j' ->
  exists j, inodes s !! q = Some j /\ i_ino j' = i_ino j /\ i_mode j' = i_mode j.
Proof.
  intros Hq Hj'. assert (exists j, inodes s !! q = Some j) as (j & Hj).
  { apply elem_of_app in Hq as [Hq|Hq]; [destruct (fs_dir s D P q Hinv Hq) as (j & Hj & _)|destruct (fs_reg s D P q Hinv Hq) as (j & Hj & _)]; by exists j. }
  exists j. split; [done|]. destruct (dop_inode q j Hj) as (x & Hx & E1 & E2 & _). rewrite Hj' in Hx. by injection Hx as <-.
Qed.

(** The entries of a file are not those of the directory, and not free. *)
Lemma dop_entry q j fe : q ∈ P -> inodes s !! q = Some j -> fe ∈ i_list j -> fe ∉ entry_arena s /\ fe ∉ i_list i /\ fe ∉ i_list i' /\ fe ∉ entry_arena s'.
Proof.
  intros Hq Hj Hfe. destruct (fs_reg s D P q Hinv Hq) as (x & Hx & Hok & _). rewrite Hj in Hx. injection Hx as <-.
  destruct (fo_busy _ _ _ Hok fe Hfe) as [Hb _]. destruct (fi_apart _ _ _ Hinv p q i j Hp Hq Hi Hj) as [_ Hap].
  assert (fe ∉ i_list i) as Hn by (intros H; by apply (Hap fe)).
  split_and!; [done|done|intros H; by destruct (Hlist fe H)|intros H; by destruct (Harena fe H)].
Qed.

Lemma dop_files : files_inv sb s' P.
Proof.
  pose proof (fv_shared _ _ _ (fi_files _ _ _ Hinv)) as [S1 S2 S3 S4 S5 S6]. destruct dop_ino as [Hr _].
  destruct (fr_files _ _ _ _ Hfr) as (E1 & _ & E3 & E4). destruct (fr_rest _ _ _ _ Hfr) as (E5 & _).
  apply (files_inv_mono sb Hlo s s' P (fi_files _ _ _ Hinv)); rewrite ?E3, ?E4, ?E5; try done.
  - intros q j Hq Hj. destruct (dop_file q j Hq Hj) as (j' & Hj' & Hs & Hz & _). by exists j'.
  - apply (so_arena _ _ (dv_shared _ _ _ Hdirs)).
  - intros x Hx. destruct (Harena x Hx) as [H|H]; [by apply S6|by apply (fi_addr _ _ _ Hinv p i)].
  - intros q j fe Hq Hj Hfe. by apply (dop_entry q j fe).
  - by exists [].
  - intros y Hy. by apply (beside_fent i); [|apply dop_bytes|].
  - intros q j Hq Hj. destruct (fs_reg s D P q Hinv Hq) as (x & Hx & Hok & _). rewrite Hj in Hx. injection Hx as <-.
    apply (beside_head i); [done|apply dop_bytes|apply Hok|]. intros E. by destruct (fi_apart _ _ _ Hinv p q i j Hp Hq Hi Hj).
Qed.

Lemma dop_contents q j : q ∈ P -> inodes s !! q = Some j -> exists j', inodes s' !! q = Some j' /\ same_contents s s' j j'.
Proof.
  intros Hq Hj. destruct (dop_file q j Hq Hj) as (j' & Hj' & Hs & Hz & Hmd). exists j'. split; [done|].
  destruct (fr_files _ _ _ _ Hfr) as (E1 & _). split_and!; [done..|intros k _; by rewrite (same_file_block j j' Hs), E1|]. intros o Ho.
  destruct (fs_reg s D P q Hinv Hq) as (x & Hx & Hok & _). rewrite Hj in Hx. injection Hx as <-. unfold file_byte. rewrite (same_file_block j j' Hs), E1.
  destruct (phys (filents s) (block_of j) (o / PAGE_SIZE)) as [x|] eqn:Ex; [|done].
  assert (0 <= o / PAGE_SIZE) as Hk by (unfold PAGE_SIZE; zdm). apply phys_inv in Ex as (Hnz & e & He & ->).
  destruct (core_entry _ _ _ _ _ _ _ (fo_core _ _ _ Hok) Hk Hnz) as (e' & He' & _ & _ & _ & _ & _ & _ & _ & Hr).
  rewrite He in He'. injection He' as <-. assert (0 <= o mod PAGE_SIZE < 4096) by (unfold PAGE_SIZE; zdm).
  destruct dop_ino as [Hri _]. apply (beside_data i _ _ Hri dop_bytes (slot_of e (o / PAGE_SIZE)) Hr). lia.
Qed.

Lemma dop_cache : cache_ok s'.
Proof.
  pose proof (fi_cache _ _ _ Hinv) as [C1 C2 C3]. constructor; rewrite ?(fr_arena _ _ _ _ Hfr); try done.
  intros x q Hx. rewrite (fr_table _ _ _ _ Hfr) in Hx. destruct (C1 x q Hx) as (Hq & j & Hj & Ej).
  destruct (dop_inode q j Hj) as (j' & Hj' & E & _). split; [by rewrite (fr_arena _ _ _ _ Hfr)|]. exists j'. split; [done|congruence].
Qed.

Lemma dop_inv : (forall q h k, q ∈ D -> entry_ino s' q h = Some k -> 0 <= k < slot_num (sb_inode sb) /\ sa_used (map_inode s) k = true) ->
  fs_inv s' D P.
Proof.
  intros Hview. destruct (fr_files _ _ _ _ Hfr) as (_ & Em & _). destruct (fr_rest _ _ _ _ Hfr) as (Eb & _).
  pose proof Hinv as [_ _ _ I4 I5 I6 I7 I8 I9 I10 _]. constructor; rewrite ?Em, ?Eb, ?(fr_table _ _ _ _ Hfr), ?(fr_arena _ _ _ _ Hfr); try done.
  - apply dop_files.
  - apply dop_cache.
  - intros q j' Hj'. unfold is_dir. split; intros Hq.
    + destruct (dop_back q j') as (j & Hj & _ & ->); [apply elem_of_app; by left|done|]. by apply (I6 q j).
    + destruct (dop_back q j') as (j & Hj & _ & ->); [apply elem_of_app; by right|done|]. by apply (I6 q j).
  - intros q j' Hq Hj'. destruct (dop_back q j' Hq Hj') as (j & Hj & -> & _). by apply I7.
  - intros q r jq jr Hq Hr Hjq Hjr. destruct (dop_back q jq) as (q0 & Hq0 & -> & _); [apply elem_of_app; by left|done|].
    destruct (dop_back r jr) as (r0 & Hr0 & -> & _); [apply elem_of_app; by right|done|]. destruct (I8 q r q0 r0 Hq Hr Hq0 Hr0) as [Hne Hap]. split; [done|].
    destruct (dop_file r r0 Hr Hr0) as (x & Hx & (_ & _ & _ & _ & El & _) & _). rewrite Hjr in Hx. injection Hx as <-. rewrite El.
    intros d Hd Hd'. destruct (decide (q = p)) as [->|Hqp].
    + rewrite Hi' in Hjq. injection Hjq as <-. by destruct (dop_entry r r0 d Hr Hr0 Hd') as (_ & _ & ? & _).
    + destruct (fr_other _ _ _ _ Hfr q q0 Hqp Hq0) as (x & Hx & (_ & _ & El' & _) & _). rewrite Hjq in Hx. injection Hx as <-. rewrite El' in Hd. by apply (Hap d).
  - intros q jq d Hq Hjq Hd. destruct (decide (q = p)) as [->|Hqp].
    + rewrite Hi' in Hjq. injection Hjq as <-. destruct (Hlist d Hd) as [H|H]; [by apply (I9 p i)|].
      by apply (fs_addr _ _ (fv_shared _ _ _ (fi_files _ _ _ Hinv))).
    + destruct (dop_back q jq) as (q0 & Hq0 & _); [apply elem_of_app; by left|done|].
      destruct (fr_other _ _ _ _ Hfr q q0 Hqp Hq0) as (x & Hx & (_ & _ & El' & _) & _). rewrite Hjq in Hx. injection Hx as <-. rewrite El' in Hd. by apply (I9 q q0).
Qed.
End dir_op.

(** The appended entry leads to an inode slot in use. *)
Lemma fs_append s s' D P p i d k its name :
  fs_inv s D P -> p ∈ D -> inodes s !! p = Some i -> (exists l, entry_arena s = d :: l) -> Dir.appended sb s s' p i d k its name ->
  dirs_inv sb s' D -> 0 <= k < slot_num (sb_inode sb) -> sa_used (map_inode s) k = true -> fs_inv s' D P /\
  forall q j, q ∈ P -> inodes s !! q = Some j -> exists j', inodes s' !! q = Some j' /\ same_contents s s' j j'.
Proof.
  intros Hinv Hp Hi (l & Hl) Happ Hd Hk Hu. pose proof Happ as (i' & g & Hi' & Eino & El & _ & _ & _ & Ea & _ & Hfr).
  split; [|intros q j; by apply (dop_contents s s' D P p i)]. apply (dop_inv s s' D P p i i'); try done.
  - intros x Hx. rewrite El in Hx. apply elem_of_app in Hx as [Hx|Hx%list_elem_of_singleton]; [by left|right]. rewrite Hl, Hx. by left.
  - intros x Hx. left. rewrite Ea, Hl in Hx. rewrite Hl. by right.
  - intros q h x Hq Hx. rewrite (appended_view sb Hlo s s' D p i d l k its name q h) in Hx by (try done; apply Hinv).
    destruct (decide _); [by injection Hx as <-|]. by apply (fi_entries _ _ _ Hinv q h).
Qed.
Lemma fs_remove s s' D P p i d e :
  fs_inv s D P -> p ∈ D -> inodes s !! p = Some i -> d ∈ i_list i -> dirents s !! d = Some e -> removed sb s s' p i d e ->
  dirs_inv sb s' D -> fs_inv s' D P /\
  forall q j, q ∈ P -> inodes s !! q = Some j -> exists j', inodes s' !! q = Some j' /\ same_contents s s' j j'.
Proof.
  intros Hinv Hp Hi Hin He Hrem Hd. pose proof Hrem as (i' & Hi' & Eino & El & _ & _ & Ea & _ & _ & Hfr).
  split; [|intros q j; by apply (dop_contents s s' D P p i)]. apply (dop_inv s s' D P p i i'); try done.
  - intros x Hx. rewrite El in Hx. left. by apply list_elem_of_filter in Hx as [_ ?].
  - intros x Hx. rewrite Ea in Hx. apply elem_of_cons in Hx as [->|Hx]; [by right|by left].
  - intros q h x Hq Hx. rewrite (removed_view sb s s' D p i d e q h) in Hx by (try done; apply Hinv).
    destruct (decide _); [done|]. by apply (fi_entries _ _ _ Hinv q h).
Qed.

(** ** Writes to one file *)

Section write.
Context (s s' : fs) (D P : list Z) (p : Z) (i i' : dram_inode) (ub junk : mem) (buf len offset : Z).
Hypothesis Hinv : fs_inv s D P.
Hypothesis Hp : p ∈ P.
Hypothesis Hi : inodes s !! p = Some i.
Hypothesis Hw : wrote sb s s' P p i i' ub junk buf len offset.
Hypothesis Hub : mem_ok ub.
Hypothesis Hjunk : mem_ok junk.

Lemma wop_frame : write_frame sb s s' i i' ub junk.
Proof. apply (wr_frame _ _ _ _ _ _ _ _ _ _ _ _ Hw). Qed.
Lemma wop_other q : q <> p -> inodes s' !! q = inodes s !! q.
Proof. intros Hne. rewrite (wr_inodes _ _ _ _ _ _ _ _ _ _ _ _ Hw). by rewrite lookup_insert_ne. Qed.
Lemma wop_self : inodes s' !! p = Some i' /\ i_ino i' = i_ino i /\ i_mode i' = i_mode i.
Proof. rewrite (wr_inodes _ _ _ _ _ _ _ _ _ _ _ _ Hw), lookup_insert_eq. split; [done|]. by destruct (wr_attrs _ _ _ _ _ _ _ _ _ _ _ _ Hw) as (_ & ? & ? & _). Qed.
Lemma wop_back q j' : inodes s' !! q = Some j' -> exists j, inodes s !! q = Some j /\ i_ino j' = i_ino j /\ i_mode j' = i_mode j.
Proof.
  intros Hj'. destruct (decide (q = p)) as [->|Hne].
  - destruct wop_self as (H1 & H2). rewrite H1 in Hj'. injection Hj' as <-. by exists i.
  - rewrite wop_other in Hj' by done. by exists j'.
Qed.
Lemma wop_dir q : q ∈ D -> inodes s' !! q = inodes s !! q.
Proof. intros Hq. apply wop_other. intros ->. by destruct (fs_reg s D P p Hinv Hp) as (_ & _ & _ & _ & ?). Qed.

Lemma wop_dirs : dirs_inv sb s' D.
Proof.
  destruct wop_frame as [(E1 & E2 & E3 & E4 & E5 & E6 & E7) N2 N3 N4 N5 N6]. pose proof (dv_shared _ _ _ (fi_dirs _ _ _ Hinv)) as Hsh.
  destruct (fs_reg s D P p Hinv Hp) as (x & Hx & Hok & Hr & _). rewrite Hi in Hx. injection Hx as <-.
  assert (forall a, slot_table (sb_dir sb) <= a < slot_table (sb_file sb) -> bytes (dev s') a = bytes (dev s) a) as Hdir.
  { intros a Ha. destruct Hlo as [_ _ (Ht & _) ([? ?] & _) _ _]. apply N5; [lia|]. rewrite (IDX2INODE_eq sb Hlo) by done. lia. }
  apply (dirs_inv_mono sb Hlo s s' D (fi_dirs _ _ _ Hinv)); rewrite ?E2; try done; try apply Hsh.
  - intros q j Hq Hj. exists j. rewrite wop_dir by done. split; [done|]. by destruct j.
  - apply (fs_arena _ _ (fv_shared _ _ _ (wr_inv _ _ _ _ _ _ _ _ _ _ _ _ Hw))).
  - apply (N6 Hub Hjunk), Hsh.
  - intros k Hk a Ha. apply Hdir. rewrite (IDX2DENT_eq sb Hlo) in Ha by done. destruct Hlo as [_ _ (_ & Ht & _) _ _ _]. lia.
  - intros q j Hq Hj. destruct (fs_dir s D P q Hinv Hq) as (x & Hx & Hokj & Hrj & _). rewrite Hj in Hx. injection Hx as <-.
    unfold pm_head. f_equal. apply load_agree. intros a Ha. destruct (fi_apart _ _ _ Hinv q p j i Hq Hp Hj Hi) as [Hne _].
    rewrite (IDX2INODE_eq sb Hlo) in Ha by done. unfold PI_log_head in Ha. apply N5; [|rewrite (IDX2INODE_eq sb Hlo) by done; lia].
    destruct Hlo as [_ _ (Ht1 & Ht2 & _) (_ & [? ?] & _) _ _]. lia.
Qed.
Lemma wop_view q h : q ∈ D -> entry_ino s' q h = entry_ino s q h.
Proof.
  intros Hq. destruct (fs_dir s D P q Hinv Hq) as (j & Hj & Hok & _). destruct (dv_each _ _ _ wop_dirs q Hq) as (j' & Hj' & Hok').
  rewrite wop_dir, Hj in Hj' by done. injection Hj' as <-. destruct wop_frame as [(_ & _ & E3 & _) _ _ _ _ _].
  apply (entry_ino_same sb s s' q j j); try done; [by rewrite wop_dir|]. intros d _. by rewrite E3.
Qed.
Lemma fs_write : fs_inv s' D P.
Proof.
  pose proof wop_frame as [(E1 & E2 & E3 & E4 & E5 & E6 & E7) N2 N3 N4 N5 N6]. pose proof Hinv as [_ _ [C1 C2 C3] I4 I5 I6 I7 I8 I9 I10 I11].
  constructor; rewrite ?E1, ?E4, ?E5; try done.
  - apply wop_dirs.
  - apply (wr_inv _ _ _ _ _ _ _ _ _ _ _ _ Hw).
  - constructor; rewrite ?E4, ?E5; try done. intros k q Hk. destruct (C1 k q Hk) as (Hq & j & Hj & Ej). split; [by rewrite E4|].
    destruct (decide (q = p)) as [->|Hne]; [|exists j; by rewrite wop_other]. exists i'. destruct wop_self as (H1 & H2 & _). split; [done|]. congruence.
  - destruct I5 as [N1 Nz], N4 as (u & Eu). rewrite Eu in N1, Nz. apply NoDup_app in N1 as (_ & _ & N1). split; [done|]. intros H. apply Nz, elem_of_app. by right.
  - intros q j' Hj'. destruct (wop_back q j' Hj') as (j & Hj & _ & Em). unfold is_dir. rewrite Em. by apply (I6 q j).
  - intros q j' Hq Hj'. destruct (wop_back q j' Hj') as (j & Hj & -> & _). by apply I7.
  - intros q r jq jr Hq Hr Hjq Hjr. rewrite wop_dir in Hjq by done. destruct (wop_back r jr Hjr) as (r0 & Hr0 & -> & _). destruct (I8 q r jq r0 Hq Hr Hjq Hr0) as [Hne Hap].
    split; [done|]. intros d Hd Hd'. destruct (decide (r = p)) as [->|Hrp].
    + destruct wop_self as (H1 & _). rewrite Hjr in H1. injection H1 as <-. rewrite Hi in Hr0. injection Hr0 as <-. destruct (N3 d Hd') as [H|H]; [by apply (Hap d)|].
      destruct (fs_dir s D P q Hinv Hq) as (x & Hx & Hok & _). rewrite Hjq in Hx. injection Hx as <-. by destruct (do_objs _ _ _ Hok d Hd) as [? _].
    + rewrite wop_other in Hjr by done. rewrite Hr0 in Hjr. injection Hjr as <-. by apply (Hap d).
  - intros q jq d Hq Hjq. rewrite wop_dir in Hjq by done. by apply (I9 q jq d).
  - intros q h k Hq. rewrite wop_view by done. by apply I11.
Qed.
End write.

(** ** What the invariant does not depend on *)

(** Locks, entry buffers, journals, the clock and the device below the tables. *)
Definition same_objects (s s' : fs) : Prop :=
  map_inode s' = map_inode s /\ map_dir s' = map_dir s /\ map_file s' = map_file s /\ map_data s' = map_data s /\
  dirents s' = dirents s /\ filents s' = filents s /\ inode_arena s' = inode_arena s /\ entry_arena s' = entry_arena s /\
  btree_arena s' = btree_arena s.

(** The fields of an inode that no invariant mentions: times, links, references, counts. *)
Definition same_shape (i i' : dram_inode) : Prop := same_dir i i' /\ same_file i i' /\ i_size i' = i_size i /\ i_mode i' = i_mode i.
Lemma same_shape_refl i : same_shape i i.
Proof. by destruct i. Qed.

Section same.
Context (s s' : fs) (D P : list Z).
Hypothesis Hinv : fs_inv s D P.
Hypothesis Hobj : same_objects s s'.
Hypothesis Hm : mem_ok (bytes (dev s')).
Hypothesis Hdent : forall k, 0 <= k < slot_num (sb_dir sb) -> agree (IDX2DENT sb k) 256 (bytes (dev s)) (bytes (dev s')).
Hypothesis Hfent : forall k, 0 <= k < slot_num (sb_file sb) -> agree (IDX2FENT sb k) 40 (bytes (dev s)) (bytes (dev s')).
Hypothesis Hdata : forall k, 0 <= k < slot_num (sb_data sb) -> agree (IDX2DATA sb k) 4096 (bytes (dev s)) (bytes (dev s')).
Hypothesis Hhead : forall q j, q ∈ D ++ P -> inodes s !! q = Some j -> pm_head sb (bytes (dev s')) (i_ino j) = pm_head sb (bytes (dev s)) (i_ino j).
Hypothesis Hin : forall q, option_Forall2 same_shape (inodes s !! q) (inodes s' !! q).
(** An entry of the table of inodes is there before, or is of an inode of [D] or [P]. *)
Hypothesis Htab : forall k q, inode_table s' !! k = Some q ->
  inode_table s !! k = Some q \/ (q ∈ D ++ P /\ 0 < q < 2 ^ 62 /\ exists j, inodes s !! q = Some j /\ i_ino j = k).

Lemma same_to q j : inodes s !! q = Some j -> exists j', inodes s' !! q = Some j' /\ same_shape j j'.
Proof. intros Hj. specialize (Hin q). rewrite Hj in Hin. inversion Hin as [x y Hxy Ex Ey|]. by exists y. Qed.
Lemma same_from q j' : inodes s' !! q = Some j' -> exists j, inodes s !! q = Some j /\ same_shape j j'.
Proof. intros Hj. specialize (Hin q). rewrite Hj in Hin. inversion Hin as [x y Hxy Ex Ey|]. by exists x. Qed.
Lemma same_dirs : dirs_inv sb s' D.
Proof.
  destruct Hobj as (E1 & E2 & E3 & E4 & E5 & E6 & E7 & E8 & E9). pose proof (dv_shared _ _ _ (fi_dirs _ _ _ Hinv)) as Hsh.
  apply (dirs_inv_mono sb Hlo s s' D (fi_dirs _ _ _ Hinv)); rewrite ?E2, ?E8; try done; try apply Hsh.
  - intros q j _ Hj. destruct (same_to q j Hj) as (j' & Hj' & Hs & _). by exists j'.
  - intros q j Hq Hj. apply (Hhead q); [apply elem_of_app; by left|done].
Qed.
Lemma same_files : files_inv sb s' P.
Proof.
  destruct Hobj as (E1 & E2 & E3 & E4 & E5 & E6 & E7 & E8 & E9). pose proof (fv_shared _ _ _ (fi_files _ _ _ Hinv)) as [S1 S2 S3 S4 S5 S6].
  apply (files_inv_mono sb Hlo s s' P (fi_files _ _ _ Hinv)); rewrite ?E3, ?E4, ?E8, ?E9; try done.
  - intros q j _ Hj. destruct (same_to q j Hj) as (j' & Hj' & _ & Hs & Hz & _). by exists j'.
  - intros q j fe Hq Hj Hfe. destruct (fs_reg s D P q Hinv Hq) as (x & Hx & Hok & _). rewrite Hj in Hx. injection Hx as <-. by apply (fo_busy _ _ _ Hok).
  - by exists [].
  - intros q j Hq Hj. apply (Hhead q); [apply elem_of_app; by right|done].
Qed.
Lemma same_view q h : q ∈ D -> entry_ino s' q h = entry_ino s q h.
Proof.
  intros Hq. destruct (fs_dir s D P q Hinv Hq) as (j & Hj & Hok & _). destruct (dv_each _ _ _ same_dirs q Hq) as (j' & Hj' & Hok').
  destruct (same_to q j Hj) as (x & Hx & (_ & _ & El & _) & _). rewrite Hj' in Hx. injection Hx as <-.
  apply (entry_ino_same sb s s' q j j'); rewrite ?El; try done. intros d _. by destruct Hobj as (_ & _ & _ & _ & -> & _).
Qed.
Lemma same_kept q j : q ∈ P -> inodes s !! q = Some j -> exists j', inodes s' !! q = Some j' /\ same_contents s s' j j'.
Proof.
  intros Hq Hj. destruct (same_to q j Hj) as (j' & Hj' & _ & Hs & Hz & Hmd). exists j'. split; [done|].
  destruct Hobj as (_ & _ & _ & _ & _ & E1 & _). split_and!; [done..|intros k _; by rewrite (same_file_block j j' Hs), E1|]. intros o Ho.
  destruct (fs_reg s D P q Hinv Hq) as (x & Hx & Hok & _). rewrite Hj in Hx. injection Hx as <-. unfold file_byte. rewrite (same_file_block j j' Hs), E1.
  destruct (phys (filents s) (block_of j) (o / PAGE_SIZE)) as [x|] eqn:Ex; [|done].
  assert (0 <= o / PAGE_SIZE) as Hk by (unfold PAGE_SIZE; zdm). apply phys_inv in Ex as (Hnz & e & He & ->).
  destruct (core_entry _ _ _ _ _ _ _ (fo_core _ _ _ Hok) Hk Hnz) as (e' & He' & _ & _ & _ & _ & _ & _ & _ & Hr).
  rewrite He in He'. injection He' as <-. assert (0 <= o mod PAGE_SIZE < 4096) by (unfold PAGE_SIZE; zdm).
  apply (Hdata (slot_of e (o / PAGE_SIZE)) Hr). lia.
Qed.
Lemma fs_same : fs_inv s' D P.
Proof.
  pose proof Hobj as (E1 & _ & _ & _ & E5 & _ & E7 & _ & E9). pose proof Hinv as [_ _ [C1 C2 C3] I4 I5 I6 I7 I8 I9 I10 I11].
  constructor; rewrite ?E1, ?E9; try done.
  - apply same_dirs.
  - apply same_files.
  - constructor; rewrite ?E7; try done. intros k q Hk. unfold live. rewrite E7. destruct (Htab k q Hk) as [H|(Hq & Ha & j & Hj & Ej)].
    + destruct (C1 k q H) as ((Ha & Hq) & j & Hj & Ej). split; [done|]. destruct (same_to q j Hj) as (j' & Hj' & (E & _) & _). exists j'. split; [done|congruence].
    + split; [split; [done|by apply (I7 q j)]|]. destruct (same_to q j Hj) as (j' & Hj' & (E & _) & _). exists j'. split; [done|congruence].
  - intros q j' Hj'. destruct (same_from q j' Hj') as (j & Hj & _ & _ & _ & Em). unfold is_dir. rewrite Em. by apply (I6 q j).
  - intros q j' Hq Hj'. destruct (same_from q j' Hj') as (j & Hj & (-> & _) & _). rewrite E7. by apply I7.
  - intros q r jq jr Hq Hr Hjq Hjr. destruct (same_from q jq Hjq) as (q0 & Hq0 & (-> & _ & -> & _) & _).
    destruct (same_from r jr Hjr) as (r0 & Hr0 & (-> & _ & -> & _) & _). by apply (I8 q r).
  - intros q j' d Hq Hj'. destruct (same_from q j' Hj') as (j & Hj & (_ & _ & -> & _) & _). by apply (I9 q j).
  - intros k q Hk. destruct (Htab k q Hk) as [H|(Hq & Ha & j & Hj & <-)]; [by apply (I10 k q)|]. split; [|by apply (I7 q j)].
    apply elem_of_app in Hq as [Hq|Hq]; [destruct (fs_dir s D P q Hinv Hq) as (x & Hx & _ & Hr & _)|destruct (fs_reg s D P q Hinv Hq) as (x & Hx & _ & Hr & _)]; congruence.
  - intros q h k Hq. rewrite same_view by done. by apply I11.
Qed.
End same.

(** The locks, the journals, the entry buffers and the device below the tables
    can change. *)
Lemma same_inodes_refl s q : option_Forall2 same_shape (inodes s !! q) (inodes s !! q).
Proof. destruct (inodes s !! q); constructor. apply same_shape_refl. Qed.
(** The device from the slot tables on. *)
Section low.
Context (s s' : fs) (D P : list Z).
Hypothesis Hinv : fs_inv s D P.
Hypothesis Hab : forall x, slot_table (sb_inode sb) <= x -> bytes (dev s') x = bytes (dev s) x.

Lemma low_dent k : 0 <= k < slot_num (sb_dir sb) -> agree (IDX2DENT sb k) 256 (bytes (dev s)) (bytes (dev s')).
Proof. intros Hk a Ha. apply Hab. rewrite (IDX2DENT_eq sb Hlo) in Ha by done. destruct Hlo as [_ _ (? & _) ([? ?] & _) _ _]. lia. Qed.
Lemma low_fent k : 0 <= k < slot_num (sb_file sb) -> agree (IDX2FENT sb k) 40 (bytes (dev s)) (bytes (dev s')).
Proof. intros Hk a Ha. apply Hab. rewrite (IDX2FENT_eq sb Hlo) in Ha by done. destruct Hlo as [_ _ (? & ? & _) ([? ?] & [? ?] & _) _ _]. lia. Qed.
Lemma low_data k : 0 <= k < slot_num (sb_data sb) -> agree (IDX2DATA sb k) 4096 (bytes (dev s)) (bytes (dev s')).
Proof. intros Hk a Ha. apply Hab. rewrite (IDX2DATA_eq sb Hlo) in Ha by done. destruct Hlo as [_ _ (? & ? & ? & _) ([? ?] & [? ?] & [? ?] & _) _ _]. lia. Qed.
Lemma low_head q j : q ∈ D ++ P -> inodes s !! q = Some j -> pm_head sb (bytes (dev s')) (i_ino j) = pm_head sb (bytes (dev s)) (i_ino j).
Proof.
  intros Hq Hj. pose proof (fs_ino s D P q j Hinv Hq Hj) as Hr.
  unfold pm_head. f_equal. apply load_agree. intros a Ha. rewrite (IDX2INODE_eq sb Hlo) in Ha by done. unfold PI_log_head in Ha. apply Hab. lia.
Qed.
End low.

Lemma fs_shape s s' D P :
  same_objects s s' -> (forall q, option_Forall2 same_shape (inodes s !! q) (inodes s' !! q)) -> inode_table s' = inode_table s -> mem_ok (bytes (dev s')) ->
  (forall x, slot_table (sb_inode sb) <= x -> bytes (dev s') x = bytes (dev s) x) -> keeps D P s s'.
Proof.
  intros Hobj Hin Et Hm Hab H.
  pose proof (low_dent s s' Hab) as H1. pose proof (low_fent s s' Hab) as H2. pose proof (low_data s s' Hab) as H3. pose proof (low_head s s' D P H Hab) as H4.
  split; [|intros q j; by apply (same_kept s s' D P H)]. apply (fs_same s s' D P H); try done. intros k q. rewrite Et. by left.
Qed.
Lemma fs_shape_view s s' D P q h :
  fs_inv s D P -> same_objects s s' -> (forall q, option_Forall2 same_shape (inodes s !! q) (inodes s' !! q)) -> mem_ok (bytes (dev s')) ->
  (forall x, slot_table (sb_inode sb) <= x -> bytes (dev s') x = bytes (dev s) x) -> q ∈ D -> entry_ino s' q h = entry_ino s q h.
Proof.
  intros H Hobj Hin Hm Hab Hq. pose proof (low_dent s s' Hab) as H1. pose proof (low_head s s' D P H Hab) as H4. by apply (same_view s s' D P H).
Qed.
Lemma fs_low s s' D P :
  same_objects s s' -> inodes s' = inodes s -> inode_table s' = inode_table s -> mem_ok (bytes (dev s')) ->
  (forall x, slot_table (sb_inode sb) <= x -> bytes (dev s') x = bytes (dev s) x) -> keeps D P s s'.
Proof. intros Hobj Ei. apply fs_shape; [done|]. rewrite Ei. exact (same_inodes_refl s). Qed.
Lemma fs_low_view s s' D P q h :
  fs_inv s D P -> same_objects s s' -> inodes s' = inodes s -> mem_ok (bytes (dev s')) ->
  (forall x, slot_table (sb_inode sb) <= x -> bytes (dev s') x = bytes (dev s) x) -> q ∈ D -> entry_ino s' q h = entry_ino s q h.
Proof. intros H Hobj Ei. apply (fs_shape_view s s' D P q h H Hobj). rewrite Ei. exact (same_inodes_refl s). Qed.

(** One inode changes in what no invariant mentions. *)
Lemma insert_shape s s' p i i' :
  inodes s !! p = Some i -> inodes s' = <[p := i']> (inodes s) -> same_shape i i' ->
  forall q, option_Forall2 same_shape (inodes s !! q) (inodes s' !! q).
Proof.
  intros Hi E Hs q. rewrite E. destruct (decide (q = p)) as [->|Hne].
  - rewrite Hi, lookup_insert_eq. by constructor.
  - rewrite lookup_insert_ne by done. apply same_inodes_refl.
Qed.
End inv.
