(* ===== verification/Create.v ===== *)
(** * Creating files and directories (inode_create of src/slotfs/inode.c)

    [inode_create] keeps the invariant of the file system and adds one inode:
    to the map of the parent directory it adds one name, and the files keep
    their contents.  The inode is on the device before the entry that names it
    is linked. *)
From stdpp Require Import base numbers list gmap.
From S2P Require Import Prelude Bitops Slot Btree Rbtree RbErase DirIndex Pm Mkfs Shm Fs Journal Dir DirView.
From S2P Require Import File FileIndex FileLog FileRead FileWrite Runtime Vfs VfsLocks FsInv.
Local Open Scope Z_scope.

Section create.
Context (sb : pm_super_block) (cpu now stray : Z).

(** ** The inode on the device *)

(** The slot of an inode on the device. *)
Definition only_inode (k : Z) (m m' : mem) : Prop :=
  forall x, ~ (IDX2INODE sb k <= x < IDX2INODE sb k + 128) -> m' x = m x.

(** What [inode_flush] puts there. *)
Definition inode_on (m : mem) (i : dram_inode) : Prop :=
  let pi := IDX2INODE sb (i_ino i) in
  load m (pi + PI_i_size) 8 = u64 (i_size i) /\ load m (pi + PI_i_uid) 4 = u32 (i_uid i) /\
  load m (pi + PI_i_gid) 4 = u32 (i_gid i) /\ load m (pi + PI_i_mode) 4 = u32 (i_mode i) /\
  load m (pi + PI_i_mtim) 8 = u64 (i_mtim i) /\ load m (pi + PI_i_ctim) 8 = u64 (i_ctim i) /\
  load m (pi + PI_log_head) 8 = u64 (log_head i) /\ load m (pi + PI_entry_num) 8 = u64 (entry_num i).

Lemma only_inode_trans k m1 m2 m3 : only_inode k m1 m2 -> only_inode k m2 m3 -> only_inode k m1 m3.
Proof. intros H1 H2 x Hx. by rewrite H2, H1. Qed.
Lemma only_inode_store k off n v m :
  0 <= off -> off + Z.of_nat n <= 128 -> only_inode k m (store (IDX2INODE sb k + off) n v m).
Proof. intros ? ? x Hx. apply (store_agree _ _ _ _ x 1); lia. Qed.
Lemma inode_on_agree m m' i : agree (IDX2INODE sb (i_ino i)) 128 m m' -> inode_on m i -> inode_on m' i.
Proof.
  intros Ha. assert (forall off n, 0 <= off -> off + Z.of_nat n <= 128 ->
    load m' (IDX2INODE sb (i_ino i) + off) n = load m (IDX2INODE sb (i_ino i) + off) n) as E.
  { intros off n H1 H2. apply load_agree. eapply agree_sub; [| |exact Ha]; lia. }
  unfold inode_on, PI_i_size, PI_i_uid, PI_i_gid, PI_i_mode, PI_i_mtim, PI_i_ctim, PI_log_head, PI_entry_num.
  cbv zeta. by rewrite !E by (simpl; lia).
Qed.
Lemma i64_u64 x : i64 (u64 x) = i64 x.
Proof. unfold i64, u64, signed. by rewrite Z.mod_mod by done. Qed.
Lemma inode_on_head m i : - 2 ^ 63 <= log_head i < 2 ^ 63 -> inode_on m i -> pm_head sb m (i_ino i) = log_head i.
Proof. intros Hr (_ & _ & _ & _ & _ & _ & H & _). unfold pm_head. rewrite H. rewrite i64_u64. by apply i64_small. Qed.

Lemma inode_flush_run s p i :
  inodes s !! p = Some i -> mem_ok (bytes (dev s)) ->
  exists pm, inode_flush sb p s = Ok (tt, upd_dev (fun _ => pm) s) /\ mem_ok (bytes pm) /\ inode_on (bytes pm) i /\
    crash_safe (only_inode (i_ino i) (bytes (dev s))) (dev s) pm.
Proof.
  intros Hi Hm. unfold inode_flush. mstep (rd_inode_eq _ _ _ Hi). cbv zeta. do 9 fs_step. eexists. split; [reflexivity|].
  split; [|split]; fsimpl; cbn [bytes pm_update].
  - repeat apply store_ok. exact Hm.
  - unfold inode_on, u64, u32. cbv zeta. change (2 ^ 64) with (256 ^ Z.of_nat 8). change (2 ^ 32) with (256 ^ Z.of_nat 4).
    unfold PI_i_size, PI_i_uid, PI_i_gid, PI_i_mode, PI_i_atim, PI_i_mtim, PI_i_ctim, PI_log_head, PI_entry_num, PI_csum.
    split_and!; repeat (rewrite load_store_ne by (simpl; lia)); rewrite load_store_eq; reflexivity.
  - repeat first [apply crash_safe_update; [|cbn [bytes pm_update]; repeat (eapply only_inode_trans; [|apply only_inode_store; simpl; done || lia]); done]].
    by apply crash_safe_refl.
Qed.

(** ** The new inode *)

Definition mode_dir (mode : Z) : bool := Z.land mode S_IFMT =? S_IFDIR.

(** The type of a mode is a directory or has not the bit of directories;
    [S_ISDIR_bit] and [is_dir] then agree. *)
Definition mode_ok (mode : Z) : Prop := 0 <= mode < 2 ^ 32 /\ S_ISDIR_bit mode = mode_dir mode.

Definition new_inode (k mode g : Z) (t : btree) : dram_inode :=
  mk_inode k 0 now 0 0 1 mode now now 0 0 (mk_tree 0 ∅) (bt_root t) (bt_height t) (nodes t) (mk_ptr 0 0 0) 0 0 g g [] [].

(** A slot taken from a pool. *)
Definition took (b b' : list dram_bitmap) (g : Z) : Prop :=
  sa_valid b g /\ sa_used b g = false /\ sa_inv b' /\ (forall k, sa_valid b' k <-> sa_valid b k) /\
  forall k, sa_valid b k -> sa_used b' k = sa_used b k || (k =? g).
(** The free nodes that are left and the tree of the new inode. *)
Definition new_tree (pool0 : list Z) (t : btree) : Prop :=
  btree_wf t /\ bt_height t = 0 /\ (exists x, pool0 = x :: pool t) /\ forall k, contents t k = 0.

(** The state before the entry is appended. *)
Record staged (s s1 : fs) (p k mode g : Z) (t : btree) : Prop := {
  pr_inodes : inodes s1 = <[p := new_inode k mode g t]> (inodes s);
  pr_arena : inode_arena s = p :: inode_arena s1;
  pr_imap : took (map_inode s) (map_inode s1) k;
  pr_kind : if mode_dir mode then took (map_dir s) (map_dir s1) g /\ map_file s1 = map_file s /\ btree_arena s1 = btree_arena s
            else took (map_file s) (map_file s1) g /\ map_dir s1 = map_dir s /\ new_tree (btree_arena s) t /\ btree_arena s1 = pool t;
  pr_heaps : dirents s1 = dirents s /\ filents s1 = filents s /\ entry_arena s1 = entry_arena s /\ map_data s1 = map_data s;
  pr_rest : inode_table s1 = inode_table s /\ ilocks s1 = ilocks s /\ ebuf_mgr s1 = ebuf_mgr s /\ jnl_mgr s1 = jnl_mgr s /\
    release_list s1 = release_list s /\ root s1 = root s;
  pr_mem : mem_ok (bytes (dev s1)) /\ inode_on (bytes (dev s1)) (new_inode k mode g t);
  pr_dev : crash_safe (only_inode k (bytes (dev s))) (dev s) (dev s1);
}.

Lemma header_dir s p i mode : S_ISDIR_bit mode = true ->
  inode_init_header stray p mode (at_inode s p i) =
  Ok (tt, at_inode s p (mk_inode 0 0 0 0 0 0 mode 0 0 0 0 (mk_tree 0 ∅) 0 0 ∅ (mk_ptr 0 0 0) 0 0 0 0 [] [])).
Proof.
  intros Hd. unfold inode_init_header. mstep (at_upd s p i (fun _ => zero_inode)). rewrite Hd. cbv iota.
  do 5 (erewrite M_bind_step by apply at_upd). rewrite at_upd. reflexivity.
Qed.
Lemma header_file s p i mode :
  S_ISDIR_bit mode = false -> NoDup (btree_arena s) -> 0 ∉ btree_arena s -> btree_arena s <> [] ->
  exists t, new_tree (btree_arena s) t /\ inode_init_header stray p mode (at_inode s p i) =
  Ok (tt, at_inode (upd_btree_arena (fun _ => pool t) s) p
    (mk_inode 0 0 0 0 0 0 mode 0 0 0 0 (mk_tree 0 ∅) (bt_root t) (bt_height t) (nodes t) (mk_ptr 0 0 0) 0 0 0 0 [] [])).
Proof.
  intros Hd Hnd Hz Hne. destruct (btree_create_spec stray (tree_of zero_inode (btree_arena s)) eq_refl Hnd Hz Hne) as (t & Ht & Hwf & Hh & Hp & Hc).
  exists t. split; [done|]. unfold inode_init_header. mstep (at_upd s p i (fun _ => zero_inode)). rewrite Hd. cbv iota.
  erewrite M_bind_step; [|erewrite M_bind_step by (apply (at_btree s p zero_inode _ 1 t); exact Ht); reflexivity].
  do 4 (erewrite M_bind_step by apply at_upd). rewrite at_upd. reflexivity.
Qed.

Hypothesis Hlo : layout_ok sb.
Hypothesis Hcpu : 0 <= cpu.

Lemma took_intro {b b' : list dram_bitmap} {r} :
  sa_inv b' -> (forall i, sa_valid b' i <-> sa_valid b i) ->
  ((r = -1 /\ b' = b /\ forall i, sa_valid b i -> sa_used b i = true) \/
   (sa_valid b r /\ sa_used b r = false /\ forall i, sa_valid b i -> sa_used b' i = sa_used b i || (i =? r))) ->
  (exists k, sa_valid b k /\ sa_used b k = false) -> took b b' r.
Proof.
  intros Hi Hv [(_ & _ & Hall)|(H1 & H2 & H3)] (k & Hk & Hu); [by rewrite Hall in Hu|]. by split_and!.
Qed.
Lemma took_used b b' g k : took b b' g -> sa_valid b k -> sa_used b k = true -> sa_used b' k = true.
Proof. intros (_ & _ & _ & _ & Hu) Hv H. by rewrite Hu, H. Qed.
Lemma took_self b b' g : took b b' g -> sa_used b' g = true.
Proof. intros (Hv & _ & _ & _ & Hu). by rewrite Hu, Z.eqb_refl, orb_true_r. Qed.

(** [init_ghost_slot] and [inode_flush] on the new inode. *)
Lemma ghost_dir s p i : is_dir i = true -> sa_inv (map_dir s) -> (exists k, sa_valid (map_dir s) k /\ sa_used (map_dir s) k = false) ->
  (forall k, sa_valid (map_dir s) k -> 0 <= k) ->
  exists g b, took (map_dir s) b g /\ init_ghost_slot cpu p (at_inode s p i) =
    Ok (0, at_inode (upd_map_dir (fun _ => b) s) p (upd_log_head (fun _ => g) (upd_ghost_slot (fun _ => g) i))).
Proof.
  intros Hd Hi Hf Hpos. destruct (slot_dirent_alloc_spec cpu (at_inode s p i) Hi Hcpu) as (g & b & Hr & Hb & Hv & Hg).
  pose proof (took_intro Hb Hv Hg Hf) as Ht. exists g, b. split; [exact Ht|]. unfold init_ghost_slot. mstep (at_rd s p i). rewrite Hd. cbv iota.
  mstep Hr. erewrite M_bind_step by apply (at_upd (upd_map_dir (fun _ => b) s)).
  destruct (Z.ltb_spec g 0) as [Hlt|_]; [destruct Ht as (Hgv & _); specialize (Hpos _ Hgv); lia|]. by erewrite M_bind_step by apply at_upd.
Qed.
Lemma ghost_file s p i : is_dir i = false -> sa_inv (map_file s) -> (exists k, sa_valid (map_file s) k /\ sa_used (map_file s) k = false) ->
  (forall k, sa_valid (map_file s) k -> 0 <= k) ->
  exists g b, took (map_file s) b g /\ init_ghost_slot cpu p (at_inode s p i) =
    Ok (0, at_inode (upd_map_file (fun _ => b) s) p (upd_log_head (fun _ => g) (upd_ghost_slot (fun _ => g) i))).
Proof.
  intros Hd Hi Hf Hpos. destruct (slot_firent_alloc_spec cpu (at_inode s p i) Hi Hcpu) as (g & b & Hr & Hb & Hv & Hg).
  pose proof (took_intro Hb Hv Hg Hf) as Ht. exists g, b. split; [exact Ht|]. unfold init_ghost_slot. mstep (at_rd s p i). rewrite Hd. cbv iota.
  mstep Hr. erewrite M_bind_step by apply (at_upd (upd_map_file (fun _ => b) s)).
  destruct (Z.ltb_spec g 0) as [Hlt|_]; [destruct Ht as (Hgv & _); specialize (Hpos _ Hgv); lia|]. by erewrite M_bind_step by apply at_upd.
Qed.

Lemma flush_at s p i : mem_ok (bytes (dev s)) ->
  exists pm, inode_flush sb p (at_inode s p i) = Ok (tt, at_inode (upd_dev (fun _ => pm) s) p i) /\ mem_ok (bytes pm) /\ inode_on (bytes pm) i /\
    crash_safe (only_inode (i_ino i) (bytes (dev s))) (dev s) pm.
Proof.
  intros Hm. destruct (inode_flush_run (at_inode s p i) p i) as (pm & Hr & H); [unfold at_inode; fsimpl; apply lookup_insert_eq|done|].
  exists pm. split; [exact Hr|exact H].
Qed.

(** The head of the log of an inode is on the device. *)
Lemma fs_head s D P p i : fs_inv sb s D P -> p ∈ D ++ P -> inodes s !! p = Some i ->
  pm_head sb (bytes (dev s)) (i_ino i) = log_head i /\ 0 <= log_head i < 2 ^ 31.
Proof.
  intros Hinv Hp Hi. destruct Hlo as [_ _ _ (_ & [? _] & [? _] & _) _ _]. apply elem_of_app in Hp as [Hp|Hp].
  - destruct (fs_dir _ _ _ _ p Hinv Hp) as (x & Hx & Hok & _). rewrite Hi in Hx. injection Hx as <-.
    pose proof (do_head _ _ _ Hok) as Hh. pose proof (do_chain _ _ _ Hok) as Hc. destruct (slots s i) as [|k l] eqn:Es; [done|]. injection Hh as ->.
    destruct (do_slots _ _ _ Hok (log_head i)) as [Hr _]; [rewrite Es; by left|]. split; [|lia]. destruct l; apply Hc.
  - destruct (fs_reg _ _ _ _ p Hinv Hp) as (x & Hx & Hok & _). rewrite Hi in Hx. injection Hx as <-. split; [apply Hok|].
    pose proof (fo_head _ _ _ Hok) as Hh. destruct (fo_slots _ _ _ Hok (log_head i)) as [Hr _]; [|lia].
    destruct (fslots (filents s) i); [done|]. injection Hh as ->. by left.
Qed.

(** Flushing an inode changes its slot only, and not the head of its log. *)
Lemma flush_keeps s D P p i : fs_inv sb s D P -> p ∈ D ++ P -> inodes s !! p = Some i ->
  exists pm, inode_flush sb p s = Ok (tt, upd_dev (fun _ => pm) s) /\ keeps sb D P s (upd_dev (fun _ => pm) s) /\
    forall q h, q ∈ D -> entry_ino (upd_dev (fun _ => pm) s) q h = entry_ino s q h.
Proof.
  intros Hinv Hp Hi. pose proof (fs_ino _ _ _ _ _ _ Hinv Hp Hi) as Hr. destruct (fs_head s D P p i Hinv Hp Hi) as [Hh Hhr].
  destruct (inode_flush_run s p i Hi (so_mem _ _ (dv_shared _ _ _ (fi_dirs _ _ _ _ Hinv)))) as (pm & Hf & Hm & Hon & Hcr).
  assert (only_inode (i_ino i) (bytes (dev s)) (bytes pm)) as Ho by apply Hcr. exists pm. split; [done|].
  assert (forall k, 0 <= k < slot_num (sb_dir sb) -> agree (IDX2DENT sb k) 256 (bytes (dev s)) (bytes pm)) as H1.
  { intros k Hk x Hx. apply Ho. pose proof (inode_below_dent sb Hlo (i_ino i) k Hr Hk). lia. }
  assert (forall k, 0 <= k < slot_num (sb_file sb) -> agree (IDX2FENT sb k) 40 (bytes (dev s)) (bytes pm)) as H2.
  { intros k Hk x Hx. apply Ho. pose proof (inode_below_fent sb Hlo (i_ino i) k Hr Hk). lia. }
  assert (forall k, 0 <= k < slot_num (sb_data sb) -> agree (IDX2DATA sb k) 4096 (bytes (dev s)) (bytes pm)) as H3.
  { intros k Hk x Hx. apply Ho. pose proof (inode_below_data sb Hlo (i_ino i) k Hr Hk). lia. }
  assert (forall q j, q ∈ D ++ P -> inodes s !! q = Some j -> pm_head sb (bytes pm) (i_ino j) = pm_head sb (bytes (dev s)) (i_ino j)) as H4.
  { intros q j Hq Hj. pose proof (fs_ino _ _ _ _ _ _ Hinv Hq Hj) as Hrj. destruct (decide (i_ino j = i_ino i)) as [->|Hne].
    - rewrite Hh. apply inode_on_head; [lia|done].
    - unfold pm_head. f_equal. apply load_agree. intros x Hx. apply Ho. rewrite !(IDX2INODE_eq sb Hlo) in * by done. unfold PI_log_head in Hx. lia. }
  split.
  - intros _. split; [apply (fs_same sb Hlo s _ D P Hinv); try done; [exact (same_inodes_refl s)|intros k q Hk; by left]|].
    intros q j Hq Hj. apply (same_kept sb s _ D P Hinv); try done. exact (same_inodes_refl s).
  - intros q h Hq. apply (same_view sb Hlo s _ D P Hinv); try done. exact (same_inodes_refl s).
Qed.

(** What a creation needs. *)
Record create_ready (s : fs) (mode : Z) : Prop := {
  cr_object : inode_arena s <> [];
  cr_slot : exists k, sa_valid (map_inode s) k /\ sa_used (map_inode s) k = false;
  cr_entry : entry_arena s <> [];
  cr_kind : if mode_dir mode
            then exists k1 k2, k1 <> k2 /\ sa_valid (map_dir s) k1 /\ sa_valid (map_dir s) k2 /\
                   sa_used (map_dir s) k1 = false /\ sa_used (map_dir s) k2 = false
            else (exists k, sa_valid (map_dir s) k /\ sa_used (map_dir s) k = false) /\
                 (exists k, sa_valid (map_file s) k /\ sa_used (map_file s) k = false) /\ btree_arena s <> [];
}.

(** The rest of [inode_create] after the inode is on the device. *)
Definition create_tail (parent p : Z) (name : list Z) : M fs Z :=
  d ← dir_append_entry sb cpu parent p name;
  if IS_ERR d then mret d else mret 0.

Lemma body_run s0 s p i0 l k parent name mode bi D P :
  fs_inv sb s D P -> create_ready s mode -> mode_ok mode -> inode_arena s = p :: l -> took (map_inode s) bi k ->
  s0 = upd_inode_arena (fun _ => l) (upd_map_inode (fun _ => bi) s) ->
  exists g t s1, staged s s1 p k mode g t /\
    inode_create_body sb cpu now stray parent p k name mode (at_inode s0 p i0) = create_tail parent p name s1.
Proof.
  intros Hinv [_ _ _ Hkind] [_ Hbit] Ha Hbi E0. pose proof (dv_shared _ _ _ (fi_dirs _ _ _ _ Hinv)) as Hsd. pose proof (fv_shared _ _ _ (fi_files _ _ _ _ Hinv)) as Hsf.
  pose proof (so_mem _ _ Hsd) as Hm. unfold inode_create_body. destruct (mode_dir mode) eqn:Hdir.
  - mstep (header_dir s0 p i0 mode Hbit). do 4 (erewrite M_bind_step by apply at_upd). destruct Hkind as (k1 & k2 & _ & Hv & _ & Hu & _).
    match goal with |- context [at_inode s0 p ?j] => set (i1 := j) end.
    destruct (ghost_dir s0 p i1) as (g & b & Ht & Hg); [exact Hdir|by subst s0; apply Hsd|subst s0; by exists k1|
      intros x Hx; subst s0; apply (so_valid _ _ Hsd) in Hx; lia|]. mstep Hg. cbn [negb Z.eqb].
    destruct (flush_at (upd_map_dir (fun _ => b) s0) p (upd_log_head (fun _ => g) (upd_ghost_slot (fun _ => g) i1))) as (pm & Hf & Hpm & Hon & Hcr);
      [by subst s0|]. mstep Hf. exists g, (mk_btree 0 0 ∅ []). eexists. split; [|reflexivity]. subst s0.
    constructor; unfold at_inode; fsimpl; try done. rewrite Hdir. by split_and!.
  - destruct Hkind as (_ & Hfree & Hpool). destruct (fi_pool _ _ _ _ Hinv) as [Hnd Hz].
    destruct (header_file s0 p i0 mode Hbit) as (t & Hnt & Hh); [by subst s0..|]. mstep Hh. do 4 (erewrite M_bind_step by apply at_upd).
    match goal with |- context [at_inode (upd_btree_arena _ s0) p ?j] => set (i1 := j) end.
    destruct (ghost_file (upd_btree_arena (fun _ => pool t) s0) p i1) as (g & b & Ht & Hg); [exact Hdir|by subst s0; apply Hsf|by subst s0|
      intros x Hx; subst s0; apply (fs_valid _ _ Hsf) in Hx; lia|]. mstep Hg. cbn [negb Z.eqb].
    destruct (flush_at (upd_map_file (fun _ => b) (upd_btree_arena (fun _ => pool t) s0)) p (upd_log_head (fun _ => g) (upd_ghost_slot (fun _ => g) i1)))
      as (pm & Hf & Hpm & Hon & Hcr); [by subst s0|]. mstep Hf. exists g, t. eexists. split; [|reflexivity]. subst s0.
    constructor; unfold at_inode; fsimpl; try done. rewrite Hdir. by split_and!.
Qed.

(** ** The new inode is well formed *)

Section staged.
Context (s s1 : fs) (D P : list Z) (p k mode g : Z) (t : btree).
Hypothesis Hinv : fs_inv sb s D P.
Hypothesis Hpr : staged s s1 p k mode g t.
Local Abbreviation new := (new_inode k mode g t).

Lemma pr_k : 0 <= k < slot_num (sb_inode sb).
Proof. destruct (fi_imap _ _ _ _ Hinv) as [_ Hv], (pr_imap _ _ _ _ _ _ _ Hpr) as [Hk _]. by apply Hv. Qed.
Lemma pr_at : inodes s1 !! p = Some new.
Proof. rewrite (pr_inodes _ _ _ _ _ _ _ Hpr). apply lookup_insert_eq. Qed.
Lemma pr_fresh q j : q ∈ D ++ P -> inodes s !! q = Some j -> q <> p /\ i_ino j <> k.
Proof.
  intros Hq Hj. destruct (fi_busy _ _ _ _ Hinv q j Hq Hj) as [Hn Hu]. split.
  - intros ->. apply Hn. rewrite (pr_arena _ _ _ _ _ _ _ Hpr). by left.
  - intros E. destruct (pr_imap _ _ _ _ _ _ _ Hpr) as (_ & Hf & _). congruence.
Qed.
Lemma pr_other q j : q ∈ D ++ P -> inodes s !! q = Some j -> inodes s1 !! q = Some j.
Proof. intros Hq Hj. rewrite (pr_inodes _ _ _ _ _ _ _ Hpr). rewrite lookup_insert_ne; [done|]. by destruct (pr_fresh q j Hq Hj). Qed.
Lemma pr_member q : q ∈ D ++ P -> q <> p.
Proof.
  intros Hq. assert (exists j, inodes s !! q = Some j) as (j & Hj); [|by apply (pr_fresh q j)]. apply elem_of_app in Hq as [Hq|Hq].
  - destruct (dv_each _ _ _ (fi_dirs _ _ _ _ Hinv) q Hq) as (j & Hj & _). by exists j.
  - destruct (fv_each _ _ _ (fi_files _ _ _ _ Hinv) q Hq) as (j & Hj & _). by exists j.
Qed.

Lemma pr_bytes : only_inode k (bytes (dev s)) (bytes (dev s1)).
Proof. apply (pr_dev _ _ _ _ _ _ _ Hpr). Qed.
Lemma pr_dent j : 0 <= j < slot_num (sb_dir sb) -> agree (IDX2DENT sb j) 256 (bytes (dev s)) (bytes (dev s1)).
Proof. intros Hj x Hx. apply pr_bytes. pose proof (inode_below_dent sb Hlo k j pr_k Hj). lia. Qed.
Lemma pr_fent j : 0 <= j < slot_num (sb_file sb) -> agree (IDX2FENT sb j) 40 (bytes (dev s)) (bytes (dev s1)).
Proof. intros Hj x Hx. apply pr_bytes. pose proof (inode_below_fent sb Hlo k j pr_k Hj). lia. Qed.
Lemma pr_data q : 0 <= q < slot_num (sb_data sb) -> agree (IDX2DATA sb q) 4096 (bytes (dev s)) (bytes (dev s1)).
Proof. intros Hq x Hx. apply pr_bytes. pose proof (inode_below_data sb Hlo k q pr_k Hq). lia. Qed.
Lemma pr_pm_head ino : 0 <= ino < slot_num (sb_inode sb) -> ino <> k -> pm_head sb (bytes (dev s1)) ino = pm_head sb (bytes (dev s)) ino.
Proof.
  intros Hi Hne. unfold pm_head. f_equal. apply load_agree. intros x Hx. apply pr_bytes. pose proof pr_k.
  rewrite !(IDX2INODE_eq sb Hlo) in * by done. unfold PI_log_head in Hx. lia.
Qed.

Lemma took_mono b b' : b' = b \/ took b b' g -> sa_inv b ->
  sa_inv b' /\ (forall x, sa_valid b' x <-> sa_valid b x) /\ forall x, sa_valid b x -> sa_used b x = true -> sa_used b' x = true.
Proof.
  intros [->|Ht] Hb; [done|]. pose proof Ht as (_ & _ & H1 & H2 & _). split_and!; [done|done|]. intros x. by apply (took_used b b' g).
Qed.
Lemma pr_dirmap : map_dir s1 = map_dir s \/ took (map_dir s) (map_dir s1) g.
Proof. pose proof (pr_kind _ _ _ _ _ _ _ Hpr) as H. destruct (mode_dir mode); [right|left]; apply H. Qed.
Lemma pr_filemap : map_file s1 = map_file s \/ took (map_file s) (map_file s1) g.
Proof. pose proof (pr_kind _ _ _ _ _ _ _ Hpr) as H. destruct (mode_dir mode); [left|right]; apply H. Qed.
Lemma pr_pool : exists u, btree_arena s = u ++ btree_arena s1 /\ (length u <= 1)%nat.
Proof.
  pose proof (pr_kind _ _ _ _ _ _ _ Hpr) as H. destruct (mode_dir mode).
  - destruct H as (_ & _ & ->). exists []. split; [done|apply Nat.le_0_l].
  - destruct H as (_ & _ & (_ & _ & (x & E) & _) & ->). by exists [x].
Qed.

Lemma pr_dirs0 : dirs_inv sb s1 D.
Proof.
  pose proof (dv_shared _ _ _ (fi_dirs _ _ _ _ Hinv)) as Hsh. destruct (took_mono _ _ pr_dirmap (so_maps _ _ Hsh)) as (M1 & M2 & M3).
  destruct (pr_heaps _ _ _ _ _ _ _ Hpr) as (E1 & _ & E3 & _). destruct (pr_mem _ _ _ _ _ _ _ Hpr) as [Hm _].
  apply (dirs_inv_mono sb Hlo s s1 D (fi_dirs _ _ _ _ Hinv)); rewrite ?E3; try done; [|apply Hsh|exact pr_dent|].
  - intros q j Hq Hj. exists j. split; [|by destruct j]. apply pr_other; [|done]. apply elem_of_app. by left.
  - intros q j Hq Hj. destruct (dv_each _ _ _ (fi_dirs _ _ _ _ Hinv) q Hq) as (j0 & Hj0 & Hok). rewrite Hj in Hj0. injection Hj0 as <-.
    apply pr_pm_head; [apply Hok|]. apply (pr_fresh q j); [apply elem_of_app; by left|done].
Qed.
Lemma pr_files0 : files_inv sb s1 P.
Proof.
  pose proof (fv_shared _ _ _ (fi_files _ _ _ _ Hinv)) as Hsh. destruct (took_mono _ _ pr_filemap (fs_file _ _ Hsh)) as (M1 & M2 & M3).
  destruct (pr_heaps _ _ _ _ _ _ _ Hpr) as (_ & E2 & E3 & E4).
  apply (files_inv_mono sb Hlo s s1 P (fi_files _ _ _ _ Hinv)); rewrite ?E3, ?E4; try done; [|apply Hsh|apply Hsh| |destruct pr_pool as (u & ? & _); by exists u|apply Hsh|exact pr_fent|].
  - intros q j Hq Hj. exists j. split; [|done]. apply pr_other; [|done]. apply elem_of_app. by right.
  - intros q j fe Hq Hj Hfe. destruct (fs_reg _ s D P q Hinv Hq) as (x & Hx & Hok & _). rewrite Hj in Hx. injection Hx as <-. by apply (fo_busy _ _ _ Hok).
  - intros q j Hq Hj. destruct (fv_each _ _ _ (fi_files _ _ _ _ Hinv) q Hq) as (j0 & Hj0 & Hok). rewrite Hj in Hj0. injection Hj0 as <-.
    apply pr_pm_head; [apply Hok|]. apply (pr_fresh q j); [apply elem_of_app; by right|done].
Qed.

Lemma pr_log_head : 0 <= g < 2 ^ 31.
Proof.
  destruct Hlo as [_ _ _ (_ & [? _] & [? _] & _) _ _]. pose proof (dv_shared _ _ _ (fi_dirs _ _ _ _ Hinv)) as Hsd.
  pose proof (fv_shared _ _ _ (fi_files _ _ _ _ Hinv)) as Hsf. pose proof (pr_kind _ _ _ _ _ _ _ Hpr) as Hk. destruct (mode_dir mode).
  - destruct Hk as ((Hv & _) & _). apply (so_valid _ _ Hsd) in Hv. lia.
  - destruct Hk as ((Hv & _) & _). apply (fs_valid _ _ Hsf) in Hv. lia.
Qed.
Lemma pr_new_head : pm_head sb (bytes (dev s1)) k = g.
Proof. apply (inode_on_head _ new); [pose proof pr_log_head; unfold new_inode; fsimpl; lia|]. apply (pr_mem _ _ _ _ _ _ _ Hpr). Qed.

Lemma pr_new_dir : mode_dir mode = true -> dir_ok sb s1 new.
Proof.
  intros Hd. pose proof (pr_kind _ _ _ _ _ _ _ Hpr) as Hk. rewrite Hd in Hk. destruct Hk as (Ht & _).
  pose proof (dv_shared _ _ _ (fi_dirs _ _ _ _ Hinv)) as Hsh. pose proof Ht as (Hv & Hf & _). pose proof (proj1 (so_valid _ _ Hsh g) Hv) as Hg.
  assert (g <> 0) by (intros ->; pose proof (so_zero _ _ Hsh); congruence). constructor; unfold new_inode, slots; fsimpl.
  - apply pr_k.
  - exists []. split; [apply index_rep_empty|done].
  - by intros d ?%not_elem_of_nil.
  - apply NoDup_singleton.
  - intros x Hx. apply list_elem_of_singleton in Hx as ->. split; [fsimpl; lia|]. by apply (took_self (map_dir s)).
  - done.
  - rewrite pr_new_head. split; [done|]. fsimpl. rewrite (agree_next sb g (bytes (dev s))) by (by apply pr_dent). by apply Hsh.
Qed.
Lemma pr_dirs : mode_dir mode = true -> dirs_inv sb s1 (p :: D).
Proof.
  intros Hd. apply (dirs_inv_cons sb s1 D p new pr_dirs0 pr_at (pr_new_dir Hd)). intros q j Hq Hj.
  destruct (dv_each _ _ _ (fi_dirs _ _ _ _ Hinv) q Hq) as (j0 & Hj0 & Hok). assert (q ∈ D ++ P) as Hqp by (apply elem_of_app; by left).
  rewrite (pr_other q j0 Hqp Hj0) in Hj. injection Hj as <-. destruct (pr_fresh q j0 Hqp Hj0) as [_ Hne].
  split_and!; [done| |by intros d ?%not_elem_of_nil]. intros x Hx. apply list_elem_of_singleton in Hx as ->. fsimpl.
  rewrite (slots_ext s s1 j0 j0) by (try done; intros; by destruct (pr_heaps _ _ _ _ _ _ _ Hpr) as (-> & _)).
  intros Hg. destruct (do_slots _ _ _ Hok g Hg) as [_ Hu]. pose proof (pr_kind _ _ _ _ _ _ _ Hpr) as Hk. rewrite Hd in Hk.
  destruct Hk as ((_ & Hf & _) & _). congruence.
Qed.

Lemma pr_block x : mode_dir mode = false -> block_of new x = 0.
Proof.
  intros Hd. pose proof (pr_kind _ _ _ _ _ _ _ Hpr) as Hk. rewrite Hd in Hk. destruct Hk as (_ & _ & (_ & _ & _ & Hc) & _).
  rewrite <- (contents_tree_of new (pool t)). rewrite <- (Hc x). by destruct t.
Qed.
Lemma pr_phys F x : mode_dir mode = false -> phys F (block_of new) x = None.
Proof. intros Hd. unfold phys. by rewrite pr_block. Qed.
Lemma pr_new_file : mode_dir mode = false -> file_ok sb s1 new.
Proof.
  intros Hd. pose proof (pr_kind _ _ _ _ _ _ _ Hpr) as Hk. rewrite Hd in Hk. destruct Hk as (Ht & _ & (Hwf & _) & Hp).
  pose proof (fv_shared _ _ _ (fi_files _ _ _ _ Hinv)) as Hsh. pose proof Ht as (Hv & Hf & _). pose proof (proj1 (fs_valid _ _ Hsh g) Hv) as Hg.
  assert (g <> 0) by (intros ->; pose proof (fs_zero _ _ Hsh); congruence). constructor; unfold new_inode, fslots; fsimpl; fold new; try (by intros ? ?%not_elem_of_nil).
  - apply pr_k.
  - rewrite Hp. by destruct t.
  - constructor.
    + by intros ? ?%not_elem_of_nil.
    + split; [apply NoDup_nil_2|]. by intros ? ?%not_elem_of_nil.
    + intros x _ Hx. by rewrite pr_block in Hx.
    + intros x q _. by rewrite pr_phys.
    + intros x y q _ _. by rewrite pr_phys.
  - apply NoDup_nil_2.
  - apply NoDup_singleton.
  - intros x Hx. apply list_elem_of_singleton in Hx as ->. split; [fsimpl; lia|]. by apply (took_self (map_file s)).
  - done.
  - apply pr_new_head.
  - intros j x y Hx Hy. destruct j; [done|]. by destruct j.
  - by intros ? ? ?%not_elem_of_nil.
  - split; [lia|]. done.
Qed.
Lemma pr_files : mode_dir mode = false -> files_inv sb s1 (p :: P).
Proof.
  intros Hd. apply (files_inv_cons sb s1 P p new pr_files0 pr_at (pr_new_file Hd)). intros q j Hq Hj.
  destruct (fv_each _ _ _ (fi_files _ _ _ _ Hinv) q Hq) as (j0 & Hj0 & Hok). assert (q ∈ D ++ P) as Hqp by (apply elem_of_app; by right).
  rewrite (pr_other q j0 Hqp Hj0) in Hj. injection Hj as <-. destruct (pr_fresh q j0 Hqp Hj0) as [_ Hne].
  destruct (pr_heaps _ _ _ _ _ _ _ Hpr) as (_ & -> & _).
  split_and!; [done|by intros ? ?%not_elem_of_nil| |intros x y z _ _; by rewrite pr_phys]. intros x Hx. apply list_elem_of_singleton in Hx as ->. fsimpl.
  intros Hg. destruct (fo_slots _ _ _ Hok g Hg) as [_ Hu]. pose proof (pr_kind _ _ _ _ _ _ _ Hpr) as Hk. rewrite Hd in Hk.
  destruct Hk as ((_ & Hf & _) & _). congruence.
Qed.

(** The directories and the files with the new inode. *)
Lemma pr_both : dirs_inv sb s1 (if mode_dir mode then p :: D else D) /\ files_inv sb s1 (if mode_dir mode then P else p :: P).
Proof.
  destruct (mode_dir mode) eqn:Hd.
  - split; [by apply pr_dirs|apply pr_files0].
  - split; [apply pr_dirs0|by apply pr_files].
Qed.

(** ** The entry is appended *)

Local Abbreviation D1 := (if mode_dir mode then p :: D else D).
Local Abbreviation P1 := (if mode_dir mode then P else p :: P).

Lemma pr_elem q : q ∈ D1 ++ P1 <-> q = p \/ q ∈ D ++ P.
Proof. destruct (mode_dir mode); rewrite !elem_of_app, elem_of_cons; tauto. Qed.
(** Each inode of the invariant in [s1] is the new one or one of [s]. *)
Lemma pr_split q : q ∈ D1 ++ P1 -> q = p \/ (q <> p /\ (q ∈ D ++ P) /\ exists j, inodes s !! q = Some j /\ inodes s1 !! q = Some j /\ 0 <= i_ino j < slot_num (sb_inode sb)).
Proof.
  intros [->|Hq]%pr_elem; [by left|]. right. split; [by apply pr_member|]. split; [done|].
  assert (exists j, inodes s !! q = Some j /\ 0 <= i_ino j < slot_num (sb_inode sb)) as (j & Hj & Hr).
  { pose proof Hq as Hq'. apply elem_of_app in Hq' as [Hd|Hp].
    - destruct (dv_each _ _ _ (fi_dirs _ _ _ _ Hinv) q Hd) as (j & Hj & Hok). exists j. split; [done|apply Hok].
    - destruct (fv_each _ _ _ (fi_files _ _ _ _ Hinv) q Hp) as (j & Hj & Hok). exists j. split; [done|apply Hok]. }
  exists j. split_and!; [done|by apply pr_other|lia|lia].
Qed.

Lemma pr_back q j : q ∈ D1 ++ P1 -> inodes s1 !! q = Some j ->
  (q = p /\ j = new) \/ (q <> p /\ (q ∈ D1 -> q ∈ D) /\ (q ∈ P1 -> q ∈ P) /\ (q ∈ D ++ P) /\ inodes s !! q = Some j /\ 0 <= i_ino j < slot_num (sb_inode sb)).
Proof.
  intros Hq Hj. destruct (pr_split q Hq) as [->|(Hne & Hqp & j0 & Hj0 & Hj1 & Hr)].
  - left. rewrite pr_at in Hj. by injection Hj as <-.
  - right. rewrite Hj in Hj1. injection Hj1 as <-. split; [done|].
    split; [destruct (mode_dir mode); rewrite ?elem_of_cons; tauto|]. split; [destruct (mode_dir mode); rewrite ?elem_of_cons; tauto|]. done.
Qed.
(** The new inode is in one of the lists only. *)
Lemma pr_new_kind : (p ∈ D1 -> mode_dir mode = true) /\ (p ∈ P1 -> mode_dir mode = false).
Proof.
  assert (p ∉ D ++ P) as Hn by (intros H; by destruct (pr_member p H)). rewrite elem_of_app in Hn.
  destruct (mode_dir mode); split; intros; try done; exfalso; tauto.
Qed.
Lemma pr_cache : cache_ok s1.
Proof.
  pose proof (fi_cache _ _ _ _ Hinv) as [C1 C2 C3]. pose proof (pr_arena _ _ _ _ _ _ _ Hpr) as Ea. rewrite Ea in C2. apply NoDup_cons in C2 as [C2 C2'].
  constructor; [|done|intros q Hq; apply C3; rewrite Ea; by right].
  intros x q Hx. destruct (pr_rest _ _ _ _ _ _ _ Hpr) as (Et & _). rewrite Et in Hx.
  destruct (C1 x q Hx) as ([Hr Hq] & j & Hj & Ej). rewrite Ea, not_elem_of_cons in Hq. destruct Hq as [Hne Hq].
  split; [done|]. exists j. split; [|done]. rewrite (pr_inodes _ _ _ _ _ _ _ Hpr). by rewrite lookup_insert_ne.
Qed.
Lemma pr_view q h : q ∈ D -> entry_ino s1 q h = entry_ino s q h.
Proof.
  intros Hq. assert (q ∈ D1) as Hq1 by (destruct (mode_dir mode); [by right|done]). destruct (pr_heaps _ _ _ _ _ _ _ Hpr) as (E1 & _).
  destruct (dv_each _ _ _ (fi_dirs _ _ _ _ Hinv) q Hq) as (j & Hj & Hok). destruct (dv_each _ _ _ (proj1 pr_both) q Hq1) as (j1 & Hj1 & Hok1).
  rewrite (pr_other q j) in Hj1 by (try done; apply elem_of_app; by left). injection Hj1 as <-.
  apply (entry_ino_same sb s s1 q j j); try done; [apply pr_other; [apply elem_of_app; by left|done]|]. intros x _. by rewrite E1.
Qed.
Lemma pr_view_new h : p ∈ D1 -> entry_ino s1 p h = None.
Proof.
  intros Hp. destruct (dv_each _ _ _ (proj1 pr_both) p Hp) as (j & Hj & Hok). rewrite pr_at in Hj. injection Hj as <-.
  apply (entry_ino_miss sb s1 p new); [apply pr_at|done|]. by intros x ?%not_elem_of_nil.
Qed.
Lemma pr_used x : 0 <= x < slot_num (sb_inode sb) -> sa_used (map_inode s) x = true -> sa_used (map_inode s1) x = true.
Proof. intros Hx. apply (took_used _ _ k); [apply (pr_imap _ _ _ _ _ _ _ Hpr)|]. by apply (fi_imap _ _ _ _ Hinv). Qed.
Lemma pr_used_k : sa_used (map_inode s1) k = true.
Proof. apply (took_self (map_inode s)). apply (pr_imap _ _ _ _ _ _ _ Hpr). Qed.

Lemma pr_inv : fs_inv sb s1 D1 P1.
Proof.
  pose proof Hinv as [_ _ [_ C2 _] [I4 I4'] [N1 N2] I6 I7 I8 I9 I10 I11]. pose proof (pr_imap _ _ _ _ _ _ _ Hpr) as (_ & _ & J1 & J2 & _).
  pose proof (pr_arena _ _ _ _ _ _ _ Hpr) as Ea. destruct pr_new_kind as [K1 K2].
  constructor; [apply pr_both|apply pr_both|apply pr_cache|..].
  - split; [done|]. intros x. by rewrite J2.
  - destruct pr_pool as (u & Eu & _). rewrite Eu in N1, N2. apply NoDup_app in N1 as (_ & _ & N1). split; [done|]. intros Hz. apply N2, elem_of_app. by right.
  - intros q j Hj. split; intros Hq.
    + destruct (pr_back q j) as [(-> & ->)|(_ & Hq' & _ & _ & Hj0 & _)]; [apply elem_of_app; by left|done|by apply K1|]. apply (I6 q j Hj0). by apply Hq'.
    + destruct (pr_back q j) as [(-> & ->)|(_ & _ & Hq' & _ & Hj0 & _)]; [apply elem_of_app; by right|done|by apply K2|]. apply (I6 q j Hj0). by apply Hq'.
  - intros q j Hq Hj. destruct (pr_back q j Hq Hj) as [(-> & ->)|(Hne & _ & _ & Hqp & Hj0 & Hr)].
    + split; [|apply pr_used_k]. rewrite Ea in C2. by apply NoDup_cons in C2 as [? _].
    + destruct (I7 q j Hqp Hj0) as [B1 B2]. rewrite Ea, not_elem_of_cons in B1. split; [tauto|by apply pr_used].
  - intros q r jq jr Hq Hr Hjq Hjr.
    destruct (pr_back q jq) as [(-> & ->)|(_ & Hq' & _ & Hqp & Hjq0 & _)]; [apply elem_of_app; by left|done|..];
    destruct (pr_back r jr) as [(-> & ->)|(_ & _ & Hr' & Hrp & Hjr0 & _)]; try (apply elem_of_app; by right); try done.
    + pose proof (K1 Hq). pose proof (K2 Hr). congruence.
    + destruct (pr_fresh r jr Hrp Hjr0) as [_ Hne]. split; [by intros E; apply Hne|]. by intros d ?%not_elem_of_nil.
    + destruct (pr_fresh q jq Hqp Hjq0) as [_ Hne]. split; [done|]. intros d _ Hd. by apply not_elem_of_nil in Hd.
    + apply (I8 q r); [by apply Hq'|by apply Hr'|done|done].
  - intros q j d Hq Hj Hd. destruct (pr_back q j) as [(-> & ->)|(_ & Hq' & _ & _ & Hj0 & _)]; [apply elem_of_app; by left|done|by apply not_elem_of_nil in Hd|].
    apply (I9 q j); [by apply Hq'|done|done].
  - intros x q Hx. destruct (pr_rest _ _ _ _ _ _ _ Hpr) as (Et & _). rewrite Et in Hx. destruct (I10 x q Hx) as [Hr Hu]. split; [done|by apply pr_used].
  - intros q h x Hq Hx. destruct (decide (q = p)) as [->|Hne]; [by rewrite pr_view_new in Hx|].
    assert (q ∈ D) as HqD by (destruct (mode_dir mode); [by apply elem_of_cons in Hq as [?|?]|done]). rewrite pr_view in Hx by done.
    destruct (I11 q h x HqD Hx) as [Hr Hu]. split; [done|by apply pr_used].
Qed.

Section finished.
Context (s2 : fs) (parent : Z) (i : dram_inode) (d its : Z) (name : list Z).
Hypothesis HpD : parent ∈ D.
Hypothesis Hi : inodes s !! parent = Some i.
Hypothesis Hd : exists l, entry_arena s = d :: l.
Hypothesis Happ : Dir.appended sb s1 s2 parent i d k its name.
Hypothesis Hdirs2 : dirs_inv sb s2 D1.

Lemma fn_frame : dir_frame sb s1 s2 parent.
Proof. by destruct Happ as (i' & g' & _ & _ & _ & _ & _ & _ & _ & _ & Hf). Qed.
Lemma fn_parent : parent ∈ D1 /\ p <> parent /\ inodes s1 !! parent = Some i.
Proof.
  clear Hdirs2. assert (parent ∈ D ++ P) as Hp by (apply elem_of_app; by left).
  split_and!; [destruct (mode_dir mode); [by right|done]| |by apply pr_other]. intros E. by apply (pr_member parent Hp).
Qed.
Lemma fn_ino : 0 <= i_ino i < slot_num (sb_inode sb) /\ i_ino i <> k.
Proof.
  destruct (fs_dir _ s D P parent Hinv HpD) as (j & Hj & _ & Hr & _). rewrite Hi in Hj. injection Hj as <-.
  split; [done|]. apply (pr_fresh parent i); [apply elem_of_app; by left|done].
Qed.
Lemma fn_arena : entry_arena s = d :: entry_arena s2.
Proof.
  destruct Happ as (_ & _ & _ & _ & _ & _ & _ & _ & E & _). destruct (pr_heaps _ _ _ _ _ _ _ Hpr) as (_ & _ & E1 & _).
  destruct Hd as (l & El). by rewrite E, E1, El.
Qed.
Lemma fn_arena1 : exists l, entry_arena s1 = d :: l.
Proof. destruct (pr_heaps _ _ _ _ _ _ _ Hpr) as (_ & _ & -> & _). exact Hd. Qed.

Lemma fn_inv : fs_inv sb s2 D1 P1.
Proof.
  destruct fn_parent as (Hp1 & _ & Hi1). by destruct (fs_append sb Hlo s1 s2 D1 P1 parent i d k its name pr_inv Hp1 Hi1 fn_arena1 Happ Hdirs2 pr_k pr_used_k).
Qed.

(** The names of the directories: one more in the parent, none in a new directory. *)
Lemma fn_view1 q h : q ∈ D1 -> entry_ino s2 q h = if decide (q = parent /\ h = BKDRHash name) then Some k else entry_ino s1 q h.
Proof.
  intros Hq. destruct fn_parent as (Hp1 & _ & Hi1). destruct fn_arena1 as (l & El).
  by apply (appended_view sb Hlo s1 s2 D1 parent i d l k its name q h (proj1 pr_both)).
Qed.
Lemma fn_view q h : q ∈ D -> entry_ino s2 q h = if decide (q = parent /\ h = BKDRHash name) then Some k else entry_ino s q h.
Proof. intros Hq. rewrite fn_view1, pr_view; [done|done|]. destruct (mode_dir mode); [by right|done]. Qed.
Lemma fn_new_empty h : mode_dir mode = true -> entry_ino s2 p h = None.
Proof.
  intros Hm. assert (p ∈ D1) as Hp by (rewrite Hm; by left). rewrite fn_view1 by done. rewrite decide_False by (intros [E _]; by apply fn_parent).
  by apply pr_view_new.
Qed.
Lemma fn_inode q j : inodes s1 !! q = Some j -> exists j', inodes s2 !! q = Some j' /\ i_ino j' = i_ino j /\ i_mode j' = i_mode j /\ i_link j' = i_link j.
Proof.
  destruct fn_parent as (_ & _ & Hi1). destruct Happ as (i' & g' & Hi' & Ei & _ & _ & _ & _ & _ & _ & Hf). by apply (dop_inode sb s1 s2 parent i i').
Qed.

(** ** What the device holds between the stores *)

Lemma fn_slots : slots s1 i = slots s i.
Proof. apply slots_ext; [done|done|]. intros x _. by destruct (pr_heaps _ _ _ _ _ _ _ Hpr) as (-> & _). Qed.
Lemma only_inode_chain m : only_inode k (bytes (dev s)) m -> chain sb m (pm_head sb m (i_ino i)) (slots s i).
Proof.
  intros Ho. destruct (dv_each _ _ _ (fi_dirs _ _ _ _ Hinv) parent HpD) as (j & Hj & Hok). rewrite Hi in Hj. injection Hj as <-.
  destruct fn_ino as [Hr Hne]. pose proof pr_k as Hk. assert (pm_head sb m (i_ino i) = pm_head sb (bytes (dev s)) (i_ino i)) as ->.
  { unfold pm_head. f_equal. apply load_agree. intros x Hx. apply Ho. rewrite !(IDX2INODE_eq sb Hlo) in * by done. unfold PI_log_head in Hx. lia. }
  eapply dent_chain_ext; [|apply (do_chain _ _ _ Hok)]. intros y Hy. destruct (do_slots _ _ _ Hok y Hy) as [Hy' _]. apply agree_next.
  intros x Hx. apply Ho. pose proof (inode_below_dent sb Hlo k y Hk). lia.
Qed.

(** The log of the parent is as before, or it has one more slot, which has the
    number of the new inode, and the slot of the new inode is complete.  The name
    is not part of this: [dir_append_entry] stores it after the link. *)
Definition atomic_create (g' : Z) (m : mem) : Prop :=
  chain sb m (pm_head sb m (i_ino i)) (slots s i) \/
  (chain sb m (pm_head sb m (i_ino i)) (slots s i ++ [g']) /\ load m (IDX2DENT sb (ghost_slot i) + PD_ino) 8 = k /\ inode_on m new).

Lemma fn_crash : exists g', crash_safe (atomic_create g') (dev s) (dev s2).
Proof.
  destruct Happ as (i' & g' & _ & _ & _ & _ & _ & _ & _ & Hcr & Hf). exists g'. rewrite fn_slots in Hcr. eapply crash_safe_trans.
  - eapply crash_safe_mono; [|apply (pr_dev _ _ _ _ _ _ _ Hpr)]. intros m Hm. left. by apply only_inode_chain.
  - destruct fn_parent as (_ & _ & Hi1). destruct fn_ino as [_ Hne].
    eapply crash_safe_mono; [|apply (crash_safe_and _ _ _ _ Hcr (fr_dev _ _ _ _ Hf i Hi1))]. intros m [[Hm|[Hm Hk]] Hb]; [by left|right].
    split_and!; [done|done|]. eapply inode_on_agree; [|apply (pr_mem _ _ _ _ _ _ _ Hpr)].
    apply (beside_inode sb Hlo i _ _ (proj1 fn_ino) Hb); [apply pr_k|]. intros E. by apply Hne.
Qed.

(** ** The contents of the files *)

Lemma fn_contents q j : q ∈ P -> inodes s !! q = Some j -> exists j', inodes s2 !! q = Some j' /\ same_contents sb s s2 j j'.
Proof.
  intros Hq Hj. assert (q ∈ D ++ P) as Hqp by (apply elem_of_app; by right). assert (q ∈ P1) as Hq1 by (destruct (mode_dir mode); [done|by right]).
  destruct fn_parent as (Hp1 & _ & Hi1). pose proof (pr_other q j Hqp Hj) as Hj1.
  destruct (dop_contents sb Hlo s1 s2 D1 P1 parent i pr_inv Hp1 Hi1 fn_frame q j Hq1 Hj1) as (j' & Hj' & Hs & Hz & Hmd & Hx & Hc). exists j'. split; [done|].
  destruct (pr_heaps _ _ _ _ _ _ _ Hpr) as (_ & E1 & _). split_and!; [done..|intros b Hb; by rewrite Hx, E1|]. intros o Ho. clear Hx.
  rewrite Hc by done. destruct (fs_reg _ s D P q Hinv Hq) as (x & Hx & Hok & _). rewrite Hj in Hx. injection Hx as <-.
  unfold file_byte. rewrite E1. destruct (phys (filents s) (block_of j) (o / PAGE_SIZE)) as [x|] eqn:Ex; [|done].
  assert (0 <= o / PAGE_SIZE) as Hk by (unfold PAGE_SIZE; zdm). apply phys_inv in Ex as (Hnz & e & He & ->).
  destruct (core_entry _ _ _ _ _ _ _ (fo_core _ _ _ Hok) Hk Hnz) as (e' & He' & _ & _ & _ & _ & _ & _ & _ & Hr).
  rewrite He in He'. injection He' as <-. assert (0 <= o mod PAGE_SIZE < 4096) by (unfold PAGE_SIZE; zdm).
  apply (pr_data (slot_of e (o / PAGE_SIZE)) Hr). lia.
Qed.
End finished.
End staged.

(** ** The operation *)

(** The inode [k] at [p] has been created under [name] in [parent]; it has
    [r] references, and the table of inodes has it when there are some. *)
Record created (s s2 : fs) (D P : list Z) (parent : Z) (name : list Z) (mode p k r : Z) : Prop := {
  cd_inv : fs_inv sb s2 (if mode_dir mode then p :: D else D) (if mode_dir mode then P else p :: P);
  cd_object : inode_arena s = p :: inode_arena s2;
  cd_slot : took (map_inode s) (map_inode s2) k;
  cd_inode : exists j, inodes s2 !! p = Some j /\ i_ino j = k /\ i_mode j = mode /\ i_size j = 0 /\ i_link j = 1 /\ i_ref j = r /\
    (mode_dir mode = false -> b_height j = 0 /\ (forall x, block_of j x = 0) /\ forall o, file_byte sb s2 j o = 0);
  cd_view q h : q ∈ D -> entry_ino s2 q h = if decide (q = parent /\ h = BKDRHash name) then Some k else entry_ino s q h;
  cd_empty h : mode_dir mode = true -> entry_ino s2 p h = None;
  cd_files q j : q ∈ P -> inodes s !! q = Some j -> exists j', inodes s2 !! q = Some j' /\ same_contents sb s s2 j j';
  cd_others q j : q <> p -> inodes s !! q = Some j ->
    exists j', inodes s2 !! q = Some j' /\ i_ino j' = i_ino j /\ i_mode j' = i_mode j /\ i_link j' = i_link j;
  cd_table : inode_table s2 = if r =? 0 then inode_table s else <[k := p]> (inode_table s);
  cd_rest : ilocks s2 = ilocks s /\ root s2 = root s /\ ebuf_mgr s2 = ebuf_mgr s /\
    jnl_mgr s2 = jnl_mgr s /\ release_list s2 = release_list s /\ map_data s2 = map_data s;
  cd_pools : (exists d, entry_arena s = d :: entry_arena s2) /\
    (exists u, btree_arena s = u ++ btree_arena s2 /\ (length u <= 1)%nat) /\
    (map_file s2 = map_file s \/ exists g, took (map_file s) (map_file s2) g);
  cd_crash i : inodes s !! parent = Some i ->
    exists g t g', crash_safe (atomic_create s k mode g t i g') (dev s) (dev s2);
}.

Lemma finished_created s s1 D P p k mode g t :
  fs_inv sb s D P -> staged s s1 p k mode g t -> forall s2 parent i d its name,
  parent ∈ D -> inodes s !! parent = Some i -> (exists l, entry_arena s = d :: l) -> Dir.appended sb s1 s2 parent i d k its name ->
  dirs_inv sb s2 (if mode_dir mode then p :: D else D) -> created s s2 D P parent name mode p k 0.
Proof.
  intros Hinv Hpr s2 parent i d its name HpD Hi Hd Happ Hd2. pose proof (fn_frame s1 k s2 parent i d its name Happ) as Hfr.
  destruct (fr_files _ _ _ _ Hfr) as (F1 & F2 & F3 & F4). destruct (fr_rest _ _ _ _ Hfr) as (F5 & F6 & F7).
  destruct (pr_rest _ _ _ _ _ _ _ Hpr) as (R1 & R2 & R3 & R4 & R5 & R6). destruct (pr_heaps _ _ _ _ _ _ _ Hpr) as (_ & H2 & _ & H4).
  constructor.
  - by eapply fn_inv.
  - rewrite (fr_arena _ _ _ _ Hfr). apply (pr_arena _ _ _ _ _ _ _ Hpr).
  - rewrite F2. apply (pr_imap _ _ _ _ _ _ _ Hpr).
  - pose proof (pr_at s s1 p k mode g t Hpr) as Hat.
    destruct (fr_count _ _ _ _ Hfr p _ ltac:(by eapply fn_parent) Hat) as (n & Hn). eexists. split; [exact Hn|].
    split_and!; try done. intros Hm. split.
    + pose proof (pr_kind _ _ _ _ _ _ _ Hpr) as Hk. rewrite Hm in Hk. by destruct Hk as (_ & _ & (_ & ? & _) & _).
    + split; [intros x; by apply (pr_block s s1 p k mode g t Hpr x Hm)|]. intros o. unfold file_byte. rewrite F1, H2. pose proof (pr_phys s s1 p k mode g t Hpr (filents s) (o / PAGE_SIZE) Hm) as Hph.
      change (block_of (upd_entry_num (fun _ => n) (new_inode k mode g t))) with (block_of (new_inode k mode g t)). by rewrite Hph.
  - intros q h. by eapply fn_view.
  - intros h. by eapply fn_new_empty.
  - intros q j. by eapply fn_contents.
  - intros q j Hne Hj. eapply (fn_inode s s1); try done. rewrite (pr_inodes _ _ _ _ _ _ _ Hpr). by rewrite lookup_insert_ne.
  - rewrite (fr_table _ _ _ _ Hfr). exact R1.
  - rewrite (fr_locks _ _ _ _ Hfr), (fr_root _ _ _ _ Hfr), (fr_jnl _ _ _ _ Hfr), F4, F6, F7. by rewrite H4.
  - split_and!.
    + exists d. by eapply fn_arena.
    + rewrite F5. by eapply pr_pool.
    + rewrite F3. destruct (pr_filemap s s1 p k mode g t Hpr) as [E|E]; [by left|right; by exists g].
  - intros i0 Hi0. rewrite Hi in Hi0. injection Hi0 as <-. exists g, t. by eapply fn_crash.
Qed.

Lemma free_slot_left s s1 mode p k g t D P :
  fs_inv sb s D P -> create_ready s mode -> staged s s1 p k mode g t -> exists x, sa_valid (map_dir s1) x /\ sa_used (map_dir s1) x = false.
Proof.
  intros Hinv [_ _ _ Hk] Hpr. pose proof (pr_kind _ _ _ _ _ _ _ Hpr) as H. destruct (mode_dir mode).
  - destruct H as ((_ & _ & _ & Hv & Hu) & _), Hk as (k1 & k2 & Hne & V1 & V2 & U1 & U2). destruct (decide (k1 = g)) as [->|Hg].
    + exists k2. rewrite Hv, Hu, U2 by done. split; [done|]. by apply Z.eqb_neq.
    + exists k1. rewrite Hv, Hu, U1 by done. split; [done|]. by apply Z.eqb_neq.
  - destruct H as (_ & -> & _). apply Hk.
Qed.

Lemma inode_create_run s D P parent i name mode :
  fs_inv sb s D P -> parent ∈ D -> inodes s !! parent = Some i -> name_ok name -> mode_ok mode -> create_ready s mode ->
  (forall x, x ∈ i_list i -> hash_of s x <> BKDRHash name) ->
  exists p k s2, inode_create sb cpu now stray parent name mode s = Ok (p, s2) /\ created s s2 D P parent name mode p k 0.
Proof.
  intros Hinv HpD Hi Hn Hmode Hrdy Hfresh. pose proof Hrdy as [Hobj Hslot Hent Hkind]. destruct (fi_imap _ _ _ _ Hinv) as [I1 I2].
  destruct (slot_inode_alloc_spec cpu s I1 Hcpu) as (k & bi & Hal & Hbi & Hbv & Hk). pose proof (took_intro Hbi Hbv Hk Hslot) as Htk.
  destruct (inode_arena s) as [|p l] eqn:Ha; [done|]. destruct (entry_arena s) as [|d le] eqn:Hea; [done|].
  set (s0 := upd_inode_arena (fun _ => l) (upd_map_inode (fun _ => bi) s)).
  destruct (body_run s0 s p (default zero_inode (inodes s !! p)) l k parent name mode bi D P) as (g & t & s1 & Hpr & Hbody); try done.
  pose proof (pr_k s s1 D P p k mode g t Hinv Hpr) as Hkr. destruct (pr_both s s1 D P p k mode g t Hinv Hpr) as [Hd1 _].
  destruct (fn_parent s s1 D P p k mode g t Hinv Hpr parent i HpD Hi) as (Hp1 & _ & Hi1).
  destruct (pr_heaps _ _ _ _ _ _ _ Hpr) as (E1 & _ & E3 & E4).
  destruct (dir_append_spec sb cpu Hlo Hcpu s1 (if mode_dir mode then p :: D else D) parent p i (new_inode k mode g t) name d le) as (s2 & Hap & Hd2 & Happ);
    [exact Hd1|exact Hp1|exact Hi1|by eapply (pr_at s s1)|by rewrite E3|done|unfold new_inode; fsimpl; destruct Hlo as [_ _ _ ([? _] & _) _ _]; lia| |
     by apply (free_slot_left s s1 mode p k g t D P)|].
  { intros x Hx. unfold hash_of. rewrite E1. by apply Hfresh. }
  assert (0 < p < 2 ^ 62) as Hp by (apply (ca_addr _ (fi_cache _ _ _ _ Hinv)); rewrite Ha; by left).
  assert (0 < d < 2 ^ 62) as Hdr by (apply (fs_addr _ _ (fv_shared _ _ _ (fi_files _ _ _ _ Hinv))); rewrite Hea; by left).
  exists p, k, s2. split.
  - unfold inode_create. mstep Hal. cbv zeta. rewrite u64_small by (destruct Hlo as [_ _ _ ([? _] & _) _ _]; lia).
    destruct (Z.ltb_spec k 0); [lia|]. assert (inode_alloc (upd_map_inode (fun _ => bi) s) = Ok (p, at_inode s0 p (default zero_inode (inodes s !! p)))) as Hia
      by (unfold inode_alloc; fsimpl; by rewrite Ha).
    mstep Hia. rewrite (proj2 (Z.eqb_neq p 0)) by lia.
    assert (create_tail parent p name s1 = Ok (0, s2)) as Ht by (unfold create_tail; mstep Hap; by rewrite not_err).
    rewrite Ht in Hbody. mstep Hbody. done.
  - by apply (finished_created s s1 D P p k mode g t Hinv Hpr s2 parent i d (i_ts (new_inode k mode g t)) name HpD Hi ltac:(by exists le)).
Qed.
End create.
