(* ===== verification/Func.v ===== *)
(** * The system calls (src/slotfs/slotfs_func.c, runtime.c)

    Open, close, read, write, link, unlink, rename, stat and the directory
    stream, on the file system, the heap and the table of open files.  The
    user's memory is a parameter [ub].  Local variables that the code does not
    initialise are parameters: [stk] and [stk'] are name data, [wild] an [inode_t *],
    [fake_ts] the time stamp of the inode that [slotfs_rename] makes up.
    Functions that only return 0 ([slotfs_linkat] and the like) are left out;
    [slotfs_mmap] is in Lib.v. *)
From stdpp Require Import base numbers list gmap.
From S2P Require Import Prelude Slot Btree Rbtree RbErase DirIndex Pm Mkfs Heap Fs Journal Dir File Runtime Vfs.
Local Open Scope Z_scope.

Definition EPERM : Z := 1.
Definition EBADF : Z := 9.
Definition EISDIR : Z := 21.
Definition EMFILE : Z := 24.
Definition EBADFD : Z := 77.
Definition AT_FDCWD : Z := -100.
Definition O_WRONLY : Z := 1.
Definition O_CREAT : Z := 0x40.
Definition O_DIRECTORY : Z := 0x10000.
Definition O_NOFOLLOW : Z := 0x20000.
Definition SEEK_SET : Z := 0.
Definition SEEK_CUR : Z := 1.
Definition SEEK_END : Z := 2.
Definition READDIR_END : Z := 2 ^ 64 - 1.

(** [struct dirent] *)
Definition DE_ino : Z := 0.
Definition DE_off : Z := 8.
Definition DE_reclen : Z := 16.
Definition DE_name : Z := 19.
Definition SIZEOF_DE : Z := 280.
Definition DE_NAME_LEN : Z := 256.

Record stat : Type := mk_stat {
  st_ino : Z;
  st_mode : Z;
  st_nlink : Z;
  st_uid : Z;
  st_gid : Z;
  st_size : Z;
  st_atime : Z;
  st_mtime : Z;
  st_ctime : Z;
  st_blksize : Z;
}.

Section func.
Context (sb : pm_super_block) (cpu now stray : Z) (junk : mem) (stk stk' : nameidata) (wild fake_ts : Z).

(** ** Names *)

Definition file_table_get (fd : Z) : M sys Z :=
  if (fd <? 0) || (FD_MAX <=? fd) then mret (- EBADFD) else
  fh ← on_rt (get_fh fd);
  if negb (fh_valid fh) then mret (- EBADFD) else mret (fh_file fh).

Definition starts_at_root (path : list Z) : bool := match path with x :: _ => x =? SLASH | [] => false end.

Definition nameidata_init (nd : nameidata) (fd : Z) (path : list Z) (flags : Z) : M sys nameidata :=
  let nd := set_flags 0 nd in
  start ← (if starts_at_root path then gets (fun y => root (y_fs y))
           else if fd =? AT_FDCWD then gets (fun y => cwd (y_rt y))
           else file_table_get fd);
  let nd := set_start start nd in
  let nd := if has_flag flags O_NOFOLLOW then set_flags (Z.lor (nd_flags nd) ND_NOFOLLOW) nd else nd in
  mret (set_depth 0 (set_path path nd)).

Definition with_parent (nd : nameidata) : nameidata := set_flags (Z.lor (nd_flags nd) ND_PARENT) nd.
Definition last_name (nd : nameidata) : list Z := take (Z.to_nat (nd_last_len nd)) (nd_last nd).

Definition lookup (nd : nameidata) : M sys (Z * nameidata) := path_lookup sb now stray junk nd.
Definition get_inode (ino : Z) : M sys Z := on_fs (iget sb now stray junk ino).
Definition unlock (inode : Z) : M sys unit := on_fs (unlock_inode inode).

(** ** Opening and closing *)

(** [nd.path] without its leading slashes. *)
Definition open_create (nd : nameidata) (mode : Z) : M sys Z :=
  let nd := set_path (skip_slashes (nd_path nd)) (with_parent nd) in
  match nd_path nd with
  | [] => gets (fun y => root (y_fs y))
  | _ =>
      '(ret, nd) ← lookup nd;
      if negb (ret =? 0) then mret ret else
      let parent := nd_parent nd in
      d ← on_fs (inode_lookup parent (last_name nd));
      if negb (d =? 0) then
        e ← on_fs (rd_dirent d);
        inode ← get_inode (d_ino e);
        _ ← unlock inode;
        _ ← unlock parent;
        mret inode
      else
        inode ← on_fs (inode_create sb cpu now stray parent (last_name nd) mode);
        _ ← on_fs (upd_inode inode (upd_i_ref (fun n => u32 (n + 1))));
        _ ← on_fs (icache_install inode);
        _ ← unlock parent;
        mret inode
  end.

Definition open_existing (nd : nameidata) (flags : Z) : M sys Z :=
  '(ret, nd) ← lookup nd;
  if negb (ret =? 0) then mret ret else
  i ← on_fs (rd_inode (nd_current nd));
  if has_flag flags O_DIRECTORY && negb (is_dir i) then
    _ ← unlock (nd_current nd);
    mret (- ENOTDIR)
  else
    _ ← on_fs (upd_inode (nd_current nd) (upd_i_ref (fun n => u32 (n + 1))));
    _ ← unlock (nd_current nd);
    mret (nd_current nd).

Definition do_slotfs_open (dfd : Z) (path : list Z) (flags mode : Z) : M sys Z :=
  nd ← nameidata_init stk dfd path flags;
  if IS_ERR (nd_start nd) then mret (nd_start nd) else
  if negb (has_flag flags O_CREAT) then open_existing nd flags else open_create nd mode.

Definition slotfs_open (dfd : Z) (path : list Z) (flags mode : Z) : M sys Z :=
  fd ← on_rt fd_alloc;
  if fd =? -1 then _ ← on_rt (set_errno (- EMFILE)); mret (-1) else
  inode ← do_slotfs_open dfd path flags mode;
  if IS_ERR inode then _ ← on_rt (set_errno (i32 inode)); mret (-1) else
  fh ← on_rt (get_fh fd);
  _ ← on_rt (set_fh fd (mk_fh (fh_fd fh) inode (fh_offset fh) flags (fh_valid fh) (temp_dirent fh)));
  mret (fh_fd fh).

Definition slotfs_close (fd : Z) : M sys Z :=
  fh ← on_rt (get_fh fd);
  if fh_file fh =? 0 then _ ← on_rt (set_errno (- EBADFD)); mret (-1) else
  if negb (fh_valid fh) then _ ← on_rt (set_errno (- EBADFD)); mret (-1) else
  let inode := fh_file fh in
  _ ← on_fs (lock_inode inode);
  _ ← on_fs (upd_inode inode (upd_i_ref (fun n => u32 (n - 1))));
  i ← on_fs (rd_inode inode);
  _ ← (if (i_ref i =? 0) && (i_link i =? 0) then
         _ ← on_fs (inode_release inode);
         _ ← on_fs (modify (upd_inode_table (delete (i_ino i))));
         on_fs (inode_unlock (i_ino i))
       else if i_ref i =? 0 then
         _ ← on_fs (inode_flush sb inode);
         unlock inode
       else unlock inode);
  _ ← on_rt (fd_free fd);
  mret 0.

(** ** Links *)

Definition slotfs_link (target link : list Z) : M sys Z :=
  nd ← nameidata_init stk AT_FDCWD target 0;
  if IS_ERR (nd_start nd) then mret (i32 (nd_start nd)) else
  '(ret, nd) ← lookup nd;
  if negb (ret =? 0) then mret ret else
  let target_inode := nd_current nd in
  ti ← on_fs (rd_inode target_inode);
  ret ← (if is_dir ti then mret (- EPERM) else
         nd ← nameidata_init nd AT_FDCWD link 0;
         if IS_ERR (nd_start nd) then mret (i32 (nd_start nd)) else
         '(ret, nd) ← lookup (with_parent nd);
         if negb (ret =? 0) then mret ret else
         let parent := nd_parent nd in
         d ← on_fs (inode_lookup parent (last_name nd));
         ret ← (if negb (d =? 0) then mret (- EEXIST) else
                d ← on_fs (dir_append_entry sb cpu parent target_inode (last_name nd));
                if IS_ERR d then mret (i32 d) else mret ret);
         _ ← unlock parent;
         mret ret);
  _ ← unlock target_inode;
  mret ret.

(** The part of [slotfs_unlink] with the inode of the entry [d]; [None] goes to
    [out_inode] with the error. *)
Definition unlink_inode (parent d inode : Z) : M sys (Z * bool) :=
  i ← on_fs (rd_inode inode);
  if is_dir i then mret (- EISDIR, true) else
  ret ← on_fs (inode_remove sb parent d inode);
  if negb (ret =? 0) then mret (ret, true) else
  i ← on_fs (rd_inode inode);
  _ ← (if (i_ref i =? 0) && (i_link i =? 0) then
         _ ← on_fs (inode_release inode);
         on_fs (inode_unlock (i_ino i))
       else unlock inode);
  mret (0, false).

Definition slotfs_unlink (path : list Z) : M sys Z :=
  nd ← nameidata_init stk AT_FDCWD path 0;
  if IS_ERR (nd_start nd) then mret (i32 (nd_start nd)) else
  '(ret, nd) ← lookup (with_parent nd);
  if negb (ret =? 0) then mret ret else
  let parent := nd_parent nd in
  d ← on_fs (inode_lookup parent (last_name nd));
  ret ← (if d =? 0 then mret (- ENOENT) else
         e ← on_fs (rd_dirent d);
         inode ← get_inode (d_ino e);
         if inode =? 0 then mret (- ENOENT) else
         '(ret, out_inode) ← unlink_inode parent d inode;
         _ ← (if out_inode : bool then
                _ ← unlock inode;
                on_fs (dirent_free d)
              else mret tt);
         mret ret);
  _ ← unlock parent;
  mret ret.

Definition slotfs_symlink (target link : list Z) : M sys Z :=
  nd ← nameidata_init stk AT_FDCWD link 0;
  if IS_ERR (nd_start nd) then mret (i32 (nd_start nd)) else
  '(ret, nd) ← lookup (with_parent nd);
  if negb (ret =? 0) then mret ret else
  let parent := nd_parent nd in
  d ← on_fs (inode_lookup parent (last_name nd));
  if negb (d =? 0) then mret (- EEXIST) else
  inode ← on_fs (inode_create sb cpu now stray parent (last_name nd) S_IFLNK);
  if IS_ERR inode then _ ← unlock parent; mret (i32 inode) else
  let len := zlength target in
  ret ← on_fs (inode_write sb cpu now stray junk inode (list_mem target) 0 len 0);
  if negb (i32 ret =? len) then
    _ ← unlock inode;
    i ← on_fs (rd_inode inode);
    _ ← on_fs (slot_inode_free (i_ino i));
    _ ← on_fs (inode_free inode);
    _ ← unlock parent;
    mret (- EIO)
  else
    _ ← on_fs (icache_install inode);
    _ ← unlock inode;
    _ ← unlock parent;
    mret 0.

(** ** Renaming *)

Definition rename_entries (old_dir new_dir : Z) (old_nd new_nd : nameidata) (ret : Z) : M sys Z :=
  old_dentry ← on_fs (inode_lookup old_dir (last_name old_nd));
  if old_dentry =? 0 then mret (- ENOENT) else
  new_dentry ← on_fs (inode_lookup new_dir (last_name new_nd));
  if negb (new_dentry =? 0) then mret (- EEXIST) else
  e ← on_fs (rd_dirent old_dentry);
  jnl ← on_fs journal_alloc;
  oi ← on_fs (rd_inode old_dir);
  ni ← on_fs (rd_inode new_dir);
  _ ← on_fs (journal_rename jnl (i_ino oi) (i_ino ni) (list_mem (nd_last old_nd)) 0 (nd_last_len old_nd)
                    (list_mem (nd_last new_nd)) 0 (nd_last_len new_nd));
  d ← on_fs (do_append_entry sb cpu new_dir (d_ino e) fake_ts (mret tt) (last_name new_nd));
  if IS_ERR d then mret ret else
  _ ← on_fs (dir_remove_entry sb old_dir old_dentry);
  _ ← on_fs (journal_commit jnl);
  mret ret.

Definition slotfs_rename (oldpath newpath : list Z) : M sys Z :=
  old_nd ← nameidata_init stk AT_FDCWD oldpath 0;
  if IS_ERR (nd_start old_nd) then mret (i32 (nd_start old_nd)) else
  '(ret, old_nd) ← lookup (with_parent old_nd);
  if negb (ret =? 0) then mret ret else
  let old_dir := nd_parent old_nd in
  _ ← unlock old_dir;
  new_nd ← nameidata_init stk' AT_FDCWD newpath 0;
  if IS_ERR (nd_start new_nd) then mret (i32 (nd_start new_nd)) else
  '(ret, new_nd) ← lookup (with_parent new_nd);
  if negb (ret =? 0) then mret ret else
  let new_dir := nd_parent new_nd in
  let same_dir := new_dir =? old_dir in
  if same_dir && bool_decide (nd_last old_nd = nd_last new_nd) then
    _ ← unlock new_dir;
    mret (- EINVAL)
  else
  _ ← (if same_dir then mret tt else on_fs (lock_inode old_dir));
  ret ← rename_entries old_dir new_dir old_nd new_nd ret;
  _ ← unlock new_dir;
  _ ← (if same_dir then mret tt else unlock old_dir);
  mret ret.

(** ** Reading and writing *)

Definition set_offset (fd : Z) (off : Z) : M sys unit :=
  fh ← on_rt (get_fh fd);
  on_rt (set_fh fd (mk_fh (fh_fd fh) (fh_file fh) off (fh_flags fh) (fh_valid fh) (temp_dirent fh))).

Definition slotfs_ftruncate (fd length : Z) : M sys Z :=
  fh ← on_rt (get_fh fd);
  if negb (fh_valid fh) || (fh_file fh =? 0) then _ ← on_rt (set_errno (- EBADFD)); mret (-1) else
  ret ← on_fs (inode_resize sb cpu stray junk (fh_file fh) (u64 length));
  _ ← (if negb (ret =? 0) then on_rt (set_errno ret) else mret tt);
  mret ret.

Definition slotfs_pread (fd : Z) (ub : mem) (buf count offset : Z) : M sys (Z * mem) :=
  fh ← on_rt (get_fh fd);
  if negb (fh_valid fh) || (fh_file fh =? 0) then _ ← on_rt (set_errno (- EBADFD)); mret (-1, ub) else
  '(r, ub) ← on_fs (inode_read sb stray (fh_file fh) ub buf count offset);
  let ret := i32 r in
  _ ← (if ret >? 0 then set_offset fd (i64 (fh_offset fh + ret)) else mret tt);
  mret (ret, ub).

Definition slotfs_read (fd : Z) (ub : mem) (buf count : Z) : M sys (Z * mem) :=
  fh ← on_rt (get_fh fd);
  if negb (fh_valid fh) || (fh_file fh =? 0) then _ ← on_rt (set_errno (- EBADFD)); mret (-1, ub) else
  '(r, ub) ← on_fs (inode_read sb stray (fh_file fh) ub buf count (fh_offset fh));
  let ret := i32 r in
  _ ← (if ret >? 0 then set_offset fd (i64 (fh_offset fh + ret)) else mret tt);
  mret (ret, ub).

Definition slotfs_pwrite (fd : Z) (ub : mem) (buf count offset : Z) : M sys Z :=
  fh ← on_rt (get_fh fd);
  if negb (fh_valid fh) || (fh_file fh =? 0) then _ ← on_rt (set_errno (- EBADFD)); mret (-1) else
  r ← on_fs (inode_write sb cpu now stray junk (fh_file fh) ub buf count offset);
  let ret := i32 r in
  _ ← (if ret >? 0 then set_offset fd (i64 (fh_offset fh + ret)) else mret tt);
  mret ret.

Definition slotfs_write (fd : Z) (ub : mem) (buf count : Z) : M sys Z :=
  fh ← on_rt (get_fh fd);
  if negb (fh_valid fh) || (fh_file fh =? 0) then _ ← on_rt (set_errno (- EBADFD)); mret (-1) else
  r ← on_fs (inode_write sb cpu now stray junk (fh_file fh) ub buf count (fh_offset fh));
  let ret := i32 r in
  _ ← (if ret >? 0 then set_offset fd (i64 (fh_offset fh + ret)) else mret tt);
  mret ret.

Definition slotfs_lseek (fd offset whence : Z) : M sys Z :=
  fh ← on_rt (get_fh fd);
  if whence =? SEEK_SET then _ ← set_offset fd offset; mret 0 else
  if whence =? SEEK_CUR then _ ← set_offset fd (i64 (fh_offset fh + offset)); mret 0 else
  if whence =? SEEK_END then
    i ← on_fs (rd_inode (fh_file fh));
    _ ← set_offset fd (i64 (i_size i + offset));
    mret 0
  else _ ← on_rt (set_errno EINVAL); mret (-1).

(** ** Attributes *)

(** The inode that [slotfs_stat] and [slotfs_xstat] look at, or an error; when
    there is no path it is the uninitialised variable. *)
Definition stat_inode (fd : Z) (path : option (list Z)) (flags : Z) : M sys (Z + Z) :=
  match path with
  | Some path =>
      nd ← nameidata_init stk fd path flags;
      if IS_ERR (nd_start nd) then mret (inr (i32 (nd_start nd))) else
      '(ret, nd) ← lookup nd;
      if negb (ret =? 0) then mret (inr ret) else mret (inl (nd_current nd))
  | None =>
      inode ← file_table_get fd;
      if IS_ERR inode then mret (inr (i32 inode)) else mret (inl wild)
  end.

Definition slotfs_stat (fd : Z) (path : option (list Z)) (flags : Z) : M sys (Z * option stat) :=
  r ← stat_inode fd path flags;
  match r with
  | inr ret => mret (ret, None)
  | inl inode =>
      i ← on_fs (rd_inode inode);
      _ ← unlock inode;
      mret (0, Some (mk_stat (i_ino i) (i_mode i) (i_link i) (i_uid i) (i_gid i) (i_size i) (i_atim i) (i_mtim i) (i_ctim i) PAGE_SIZE))
  end.

(** The fields of [statx] that the code fills: ino, mode, nlink, uid, gid, size,
    blocks and mask. *)
Definition STATX_MASK : Z := 0x1 + 0x2 + 0x4 + 0x8 + 0x10 + 0x100 + 0x200.
Definition slotfs_xstat (fd : Z) (path : option (list Z)) (flags mask : Z) : M sys (Z * option (list Z)) :=
  r ← stat_inode fd path flags;
  match r with
  | inr ret => mret (ret, None)
  | inl inode =>
      i ← on_fs (rd_inode inode);
      _ ← unlock inode;
      mret (0, Some [i_ino i; i_mode i; i_link i; i_uid i; i_gid i; i_size i;
                     u64 (i_size i + PAGE_SIZE - 1) / PAGE_SIZE; Z.land STATX_MASK mask])
  end.

(** ** Directory streams *)

Definition slotfs_opendir (path : list Z) : M sys Z := slotfs_open AT_FDCWD path O_DIRECTORY 0.

Definition hwrite (a n : Z) (f : mem -> mem) : M heap_t unit := fun h =>
  if in_region h a (Z.to_nat n) then Ok (tt, upd_mem f h) else Fault OutOfBounds.

(** [strncpy] of at most [n] bytes: the string and zeros up to [n]. *)
Definition strncpy (dst : Z) (m : mem) (src n : Z) (h : mem) : mem :=
  memcpy dst (list_mem (cstr (Z.to_nat n) m src)) 0 n h.

Definition fill_dirent (p : Z) (e : dirent) (off : Z) (m : mem) : M heap_t unit :=
  hwrite p SIZEOF_DE (fun h =>
    store (p + DE_name + DE_NAME_LEN - 1) 1 0
      (strncpy (p + DE_name) m (IDX2DENT sb (d_idx e) + PD_name) (DE_NAME_LEN - 1)
        (store (p + DE_reclen) 2 SIZEOF_DE (store (p + DE_off) 8 off (store (p + DE_ino) 8 (d_ino e) h))))).

(** The entry to return, 0 for none. *)
Definition readdir_next (inode pos : Z) : M fs Z :=
  if pos =? 0 then on_rbtree inode rb_first else
  d ← dirent_lookup inode pos;
  if negb (d =? 0) then on_rbtree inode (rb_next d) else mret 0.

(** The end of [slotfs_readdir], with the lock of the directory. *)
Definition readdir_emit (fd inode d : Z) : M sys Z :=
  if d =? 0 then
    _ ← set_offset fd (i64 READDIR_END);
    _ ← unlock inode;
    mret 0
  else
  e ← on_fs (rd_dirent d);
  _ ← set_offset fd (i64 (d_hash e));
  fh ← on_rt (get_fh fd);
  p ← (if temp_dirent fh =? 0 then
         p ← on_heap (heap_alloc SIZEOF_DE);
         _ ← on_rt (set_fh fd (mk_fh (fh_fd fh) (fh_file fh) (fh_offset fh) (fh_flags fh) (fh_valid fh) p));
         mret p
       else mret (temp_dirent fh));
  if p =? 0 then _ ← unlock inode; mret 0 else
  m ← gets (fun y => bytes (dev (y_fs y)));
  _ ← on_heap (fill_dirent p e (fh_offset fh) m);
  _ ← unlock inode;
  mret p.

Definition slotfs_readdir (fd : Z) : M sys Z :=
  fh ← on_rt (get_fh fd);
  if negb (fh_valid fh) || (fh_file fh =? 0) then _ ← on_rt (set_errno (- EBADFD)); mret 0 else
  if has_flag (fh_flags fh) O_WRONLY then _ ← on_rt (set_errno (- EBADF)); mret 0 else
  let inode := fh_file fh in
  i ← on_fs (rd_inode inode);
  if negb (is_dir i) then _ ← on_rt (set_errno (- ENOTDIR)); mret 0 else
  let pos := u64 (fh_offset fh) in
  _ ← on_fs (lock_inode inode);
  if pos =? READDIR_END then _ ← unlock inode; mret 0 else
  d ← on_fs (readdir_next inode pos);
  readdir_emit fd inode d.

(** ** The life of a process *)

(** [calloc] succeeded; [uid] and [gid] are those of the process. *)
(** [mem]: [calloc] returns memory. *)
Definition runtime_init (mem : bool) (uid gid : Z) : M sys unit :=
  if negb mem then throw AssertFail else
  root ← get_inode 0;
  _ ← on_fs (inode_unlock 0);
  on_rt (modify (fun _ => mk_rt empty_table 0 0 uid gid root)).

Fixpoint exit_loop (n : nat) (i : Z) : M sys unit :=
  match n with
  | O => mret tt
  | S n' =>
      fh ← on_rt (get_fh i);
      _ ← (if (fh_file fh =? 0) || negb (fh_valid fh) then mret 0 else slotfs_close i);
      exit_loop n' (i + 1)
  end.
Definition runtime_exit : M sys unit := exit_loop (Z.to_nat FD_MAX) 0.
End func.

(** ** Running the primitives *)

Lemma set_offset_run y fd fh off : 0 <= fd -> f_table (y_rt y) !! Z.to_nat fd = Some fh ->
  set_offset fd off y = Ok (tt, upd_y_rt (upd_f_table
    <[Z.to_nat fd := mk_fh (fh_fd fh) (fh_file fh) off (fh_flags fh) (fh_valid fh) (temp_dirent fh)]>) y).
Proof.
  intros Hfd Hl. unfold set_offset. erewrite M_bind_step by (apply on_rt_run, get_fh_at; done).
  erewrite on_rt_run; [|by eapply set_fh_at]. done.
Qed.
Lemma unlock_run y p i : inodes (y_fs y) !! p = Some i ->
  unlock p y = Ok (tt, upd_y_fs (upd_ilocks (fun l => l ∖ {[i_ino i]})) y).
Proof.
  intros Hi. unfold unlock. erewrite on_fs_run; [|unfold unlock_inode; erewrite M_bind_step by (apply rd_inode_eq; done); reflexivity].
  done.
Qed.
Lemma relock k s : k ∉ ilocks s -> upd_ilocks (fun l => l ∖ {[k]}) (upd_ilocks (fun l => {[k]} ∪ l) s) = s.
Proof. intros Hk. destruct s. unfold upd_ilocks. simpl in *. f_equal. set_solver. Qed.
