(* ===== verification/FuncDir.v ===== *)
(** * Listing a directory (slotfs_readdir of src/slotfs/slotfs_func.c)

    A directory stream keeps the hash of the last entry it returned.  Reading
    it to the end returns every entry of the directory once, in the order of
    the hashes, with its inode number and its name.  The name on the device has
    a length and no zero behind it; [slotfs_readdir] copies it as a string and
    so shows what was left in the slot behind the name, too. *)
From stdpp Require Import base numbers list gmap sorting.
From S2P Require Import Prelude Slot Btree Rbtree RbErase DirIndex DirIter Pm Mkfs Heap Fs Journal Dir DirView File Runtime Vfs Func.
Local Open Scope Z_scope.

(** ** Strings *)

Lemma cstr_unique n M a L :
  (length L <= n)%nat -> (forall k x, L !! k = Some x -> M (a + Z.of_nat k) = x /\ x <> 0) ->
  (M (a + zlength L) = 0) -> cstr n M a = L.
Proof.
  revert a n. induction L as [|x L IH]; intros a n Hn HL H0.
  - destruct n; [done|]. simpl. unfold zlength in H0. simpl in H0. rewrite Z.add_0_r in H0. by rewrite H0.
  - destruct n as [|n]; [simpl in Hn; lia|]. destruct (HL O x eq_refl) as [Hx Hnz]. simpl.
    rewrite Z.add_0_r in Hx. rewrite Hx, (proj2 (Z.eqb_neq x 0)) by done. f_equal. apply IH; [simpl in Hn; lia| |].
    + intros k z Hz. replace (a + 1 + Z.of_nat k) with (a + Z.of_nat (S k)) by lia. by apply HL.
    + unfold zlength in *. replace (a + 1 + Z.of_nat (length L)) with (a + Z.of_nat (length (x :: L))) by (simpl; lia). done.
Qed.
Lemma cstr_length n M a : (length (cstr n M a) <= n)%nat.
Proof. revert a. induction n as [|n IH]; intros a; simpl; [lia|]. destruct (M a =? 0); simpl; [lia|]. specialize (IH (a + 1)). lia. Qed.
Lemma cstr_nonzero n M a k x : cstr n M a !! k = Some x -> x <> 0.
Proof.
  revert a k. induction n as [|n IH]; intros a k; simpl; [done|]. destruct (Z.eqb_spec (M a) 0); [done|].
  destruct k; simpl; [naive_solver|apply IH].
Qed.

(** A string begins with [n] bytes other than 0, and ends there if 0 follows. *)
Lemma cstr_prefix k m a n :
  0 <= n <= Z.of_nat k -> 0 ∉ mem_list m a n ->
  mem_list m a n `prefix_of` cstr k m a /\ (m (a + n) = 0 -> cstr k m a = mem_list m a n).
Proof.
  unfold mem_list. intros Hn. rewrite <- (Z2Nat.id n) at 3 by lia. assert (Z.to_nat n <= k)%nat as Hk by lia.
  generalize dependent (Z.to_nat n). clear n Hn. intros n Hk H0. revert a n Hk H0. induction k as [|k IH]; intros a n Hk H0.
  - assert (n = O) as -> by lia. done.
  - destruct n as [|n]; [split; [apply prefix_nil|]; intros E; simpl; rewrite Z.add_0_r in E; by rewrite E|].
    cbn [seq fmap list_fmap cstr] in *. rewrite <- fmap_S_seq, <- list_fmap_compose in *.
    assert ((fun j => m (a + Z.of_nat j)) ∘ S <$> seq 0 n = (fun j => m (a + 1 + Z.of_nat j)) <$> seq 0 n) as Ef.
    { apply list_fmap_ext. intros j x _. simpl. f_equal. lia. }
    rewrite Ef in *. rewrite Z.add_0_r in *. rewrite not_elem_of_cons in H0. destruct H0 as [Hz H0].
    destruct (Z.eqb_spec (m a) 0); [congruence|]. destruct (IH (a + 1) n ltac:(lia) H0) as [Hp He]. split; [by apply prefix_cons|].
    intros E. f_equal. apply He. rewrite <- E. f_equal. lia.
Qed.

(** What is read back of a string copied by [strncpy] with a zero behind it. *)
Lemma strncpy_cstr dst m src n h k :
  (0 <= n) -> (Z.to_nat n < k)%nat ->
  cstr k (store (dst + n) 1 0 (strncpy dst m src n h)) dst = cstr (Z.to_nat n) m src.
Proof.
  intros Hn Hk. pose proof (cstr_length (Z.to_nat n) m src) as Hl. set (L := cstr (Z.to_nat n) m src) in *.
  assert (forall x, dst <= x < dst + n -> store (dst + n) 1 0 (strncpy dst m src n h) x = list_mem L (x - dst)) as Hin.
  { intros x Hx. unfold store. rewrite (proj2 (Z.leb_gt (dst + n) x)) by lia. simpl. unfold strncpy, memcpy.
    rewrite (proj2 (Z.leb_le dst x)), (proj2 (Z.ltb_lt x (dst + n))) by lia. simpl. f_equal. }
  apply cstr_unique; [lia| |].
  - intros j x Hx. split; [|by eapply cstr_nonzero]. pose proof (lookup_lt_Some _ _ _ Hx).
    rewrite Hin by lia. unfold list_mem. replace (Z.to_nat _) with j by lia. by rewrite Hx.
  - unfold zlength. destruct (decide (Z.of_nat (length L) = n)) as [->|].
    + unfold store. rewrite Z.leb_refl, (proj2 (Z.ltb_lt _ _)) by lia. simpl. by rewrite Z.sub_diag.
    + rewrite Hin by lia. unfold list_mem. by rewrite lookup_ge_None_2 by lia.
Qed.

Lemma u64_of_i64 x : 0 <= x < 2 ^ 64 -> u64 (i64 x) = x.
Proof.
  intros. unfold u64, i64, signed. rewrite (Z.mod_small x) by done. destruct (_ <? _); [by apply Z.mod_small|].
  symmetry. apply (Z.mod_unique_pos _ _ (-1)); lia.
Qed.

Section readdir.
Context (sb : pm_super_block).

(** The name of the entry [d]: [name_len] bytes on the device. *)
Definition entry_slot (s : fs) (d : Z) : Z := IDX2DENT sb (idx_of s d).
Definition entry_name_len (s : fs) (d : Z) : Z := bytes (dev s) (entry_slot s d + PD_name_len).
Definition entry_name (s : fs) (d : Z) : list Z := mem_list (bytes (dev s)) (entry_slot s d + PD_name) (entry_name_len s d).

(** [v], an inode number and a string, shows the entry [d]: the string begins
    with the name, and is the name if a zero follows it in the slot. *)
Definition lists (s : fs) (d : Z) (v : Z * list Z) : Prop :=
  (exists e, dirents s !! d = Some e /\ v.1 = d_ino e) /\ entry_name s d `prefix_of` v.2 /\
  (bytes (dev s) (entry_slot s d + PD_name + entry_name_len s d) = 0 -> v.2 = entry_name s d).

(** What [slotfs_readdir] shows of the entry [d]: its inode and a string. *)
Definition shown (s : fs) (d : Z) : Z * list Z :=
  match dirents s !! d with
  | Some e => (d_ino e, cstr (Z.to_nat (DE_NAME_LEN - 1)) (bytes (dev s)) (IDX2DENT sb (d_idx e) + PD_name))
  | None => (0, [])
  end.

(** What a process reads in the [struct dirent] at [p]. *)
Definition dirent_view (h : heap_t) (p : Z) : Z * list Z :=
  (load (h_mem h) (p + DE_ino) 8, cstr (Z.to_nat DE_NAME_LEN) (h_mem h) (p + DE_name)).

(** [while ((e = readdir(dirp))) ...], at most [n] rounds. *)
Fixpoint read_all (n : nat) (fd : Z) : M sys (list (Z * list Z)) :=
  match n with
  | O => throw OutOfFuel
  | S n' =>
      p ← slotfs_readdir sb fd;
      if p =? 0 then mret [] else
      v ← gets (fun y => dirent_view (y_heap y) p);
      vs ← read_all n' fd;
      mret (v :: vs)
  end.

Lemma fill_dirent_spec p e off m h :
  in_region h p (Z.to_nat SIZEOF_DE) = true -> 0 <= d_ino e < 2 ^ 64 ->
  exists h', fill_dirent sb p e off m h = Ok (tt, h') /\ h_start h' = h_start h /\ h_end h' = h_end h /\
    dirent_view h' p = (d_ino e, cstr (Z.to_nat (DE_NAME_LEN - 1)) m (IDX2DENT sb (d_idx e) + PD_name)).
Proof.
  intros Hr He. unfold fill_dirent, hwrite. rewrite Hr. eexists. split; [done|]. split_and!; [done|done|].
  unfold dirent_view. cbn [h_mem upd_mem]. f_equal.
  - unfold DE_ino, DE_name, DE_off, DE_reclen, DE_NAME_LEN.
    erewrite load_agree by (apply store_agree; lia). unfold strncpy.
    erewrite load_agree by (apply memcpy_agree; lia). erewrite load_agree by (apply store_agree; lia).
    erewrite load_agree by (apply store_agree; lia). by apply load_store_u64.
  - replace (p + DE_name + DE_NAME_LEN - 1) with (p + DE_name + (DE_NAME_LEN - 1)) by lia.
    apply strncpy_cstr; unfold DE_NAME_LEN; lia.
Qed.

(** ** The stream *)

(** Where the stream is after the entries [l1]. *)
Definition position (s : fs) (l1 : list Z) : Z := default 0 (hash_of s <$> last l1).

(** The buffer of the stream, or what the allocator returns for it. *)
Definition buffer_ok (h : heap_t) (p b : Z) (h' : heap_t) : Prop :=
  b <> 0 /\ in_region h' b (Z.to_nat SIZEOF_DE) = true /\ (if p =? 0 then heap_alloc SIZEOF_DE h = Ok (b, h') else p = b /\ h = h').

(** The descriptor [fd] is a stream on the directory [i] at [p], which has the
    entries [l] in the order of the hashes; [l1] have been returned. *)
Record stream (s : fs) (r : runtime) (fd p : Z) (i : dram_inode) (fh : f_header) (l l1 : list Z) : Prop := {
  sr_fd : 0 <= fd;
  sr_fh : f_table r !! Z.to_nat fd = Some fh;
  sr_valid : fh_valid fh = true;
  sr_file : fh_file fh = p;
  sr_nz : p <> 0;
  sr_mode : has_flag (fh_flags fh) O_WRONLY = false;
  sr_ino : inodes s !! p = Some i;
  sr_dir : is_dir i = true;
  sr_ok : dir_ok sb s i;
  sr_index : index_rep (hash_of s) (rb_root i) l;
  sr_list : l ≡ₚ i_list i;
  sr_hash d : d ∈ l -> 0 < hash_of s d < READDIR_END;
  sr_mem : mem_ok (bytes (dev s));
  sr_pos : u64 (fh_offset fh) = position s l1;
}.

Lemma position_range s r fd p i fh l l1 l2 :
  stream s r fd p i fh l l1 -> l = l1 ++ l2 -> 0 <= position s l1 < READDIR_END /\ (position s l1 = 0 -> l1 = []).
Proof.
  intros Hs ->. unfold position. destruct (last l1) as [d|] eqn:E; simpl.
  - pose proof (sr_hash _ _ _ _ _ _ _ _ Hs d) as Hd. rewrite elem_of_app in Hd. specialize (Hd (or_introl (last_Some_elem_of _ _ E))). lia.
  - apply last_None in E as ->. unfold READDIR_END. split; [lia|done].
Qed.

Lemma readdir_next_spec s r fd p i fh l1 l2 :
  stream s r fd p i fh (l1 ++ l2) l1 -> readdir_next p (position s l1) s = Ok (next_in l2, s).
Proof.
  intros Hs. destruct (position_range _ _ _ _ _ _ _ _ _ Hs eq_refl) as [_ H0]. pose proof (sr_index _ _ _ _ _ _ _ _ Hs) as Hi.
  unfold readdir_next. destruct (Z.eqb_spec (position s l1) 0) as [E|E].
  - rewrite (H0 E) in Hi. eapply on_rbtree_read; [apply Hs|]. by eapply rb_first_spec.
  - unfold position in *. destruct (last l1) as [d|] eqn:El; [|done]. simpl in *.
    apply last_Some in El as [l0 ->]. rewrite <- app_assoc in Hi. simpl in Hi.
    assert (d ∈ l0 ++ d :: l2) as Hd by (rewrite elem_of_app, elem_of_cons; auto).
    assert (d ∈ i_list i) as Hdi by (rewrite <- (sr_list _ _ _ _ _ _ _ _ Hs), <- app_assoc; done).
    mstep (dirent_lookup_hit sb s p i d (sr_ino _ _ _ _ _ _ _ _ Hs) (sr_ok _ _ _ _ _ _ _ _ Hs) Hdi).
    assert (d <> 0) as Hnz by (apply aligned_nz; by eapply index_rep_aligned).
    rewrite (proj2 (Z.eqb_neq d 0)) by done. simpl. eapply on_rbtree_read; [apply Hs|]. by eapply rb_next_spec.
Qed.

Lemma stream_locks f s r fd p i fh l l1 : stream s r fd p i fh l l1 -> stream (upd_ilocks f s) r fd p i fh l l1.
Proof. intros []. constructor; try done. destruct sr_ok0. by constructor. Qed.

Lemma stream_move s r fd p i fh l l1 l1' off b :
  stream s r fd p i fh l l1 -> u64 off = position s l1' ->
  forall r', f_table r' = <[Z.to_nat fd := mk_fh (fh_fd fh) (fh_file fh) off (fh_flags fh) (fh_valid fh) b]> (f_table r) ->
  stream s r' fd p i (mk_fh (fh_fd fh) (fh_file fh) off (fh_flags fh) (fh_valid fh) b) l l1'.
Proof.
  intros [] Hoff r' Hr'. constructor; try done. rewrite Hr'. apply list_lookup_insert_eq. by eapply lookup_lt_Some.
Qed.

(** The checks at the start of a call, up to the lock. *)
Lemma readdir_enter y fd p i fh l l1 l2 :
  stream (y_fs y) (y_rt y) fd p i fh l l1 -> l = l1 ++ l2 -> i_ino i ∉ ilocks (y_fs y) ->
  slotfs_readdir sb fd y =
  (d ← on_fs (readdir_next p (position (y_fs y) l1));
   readdir_emit sb fd p d) (upd_y_fs (upd_ilocks (fun l => {[i_ino i]} ∪ l)) y).
Proof.
  intros Hs Hl Hk. destruct (position_range _ _ _ _ _ _ _ _ _ Hs Hl) as [Hr _]. pose proof Hs as [].
  unfold slotfs_readdir. erewrite M_bind_step by (apply on_rt_run, get_fh_at; done).
  rewrite sr_valid0, sr_file0, (proj2 (Z.eqb_neq p 0)) by done. simpl (negb true || false). cbv iota.
  rewrite sr_mode0. erewrite M_bind_step by (apply on_fs_run, rd_inode_eq; done).
  rewrite sr_dir0. simpl (negb true). cbv iota zeta. rewrite sr_pos0.
  erewrite M_bind_step; [|apply on_fs_run; unfold lock_inode; erewrite M_bind_step by (apply rd_inode_eq; done);
    unfold inode_lock; rewrite decide_False by done; reflexivity].
  rewrite (proj2 (Z.eqb_neq (position (y_fs y) l1) READDIR_END)) by lia. done.
Qed.

(** After the last entry the stream is at its end. *)
Lemma readdir_end y fd p i fh l :
  stream (y_fs y) (y_rt y) fd p i fh l l -> i_ino i ∉ ilocks (y_fs y) ->
  exists y', slotfs_readdir sb fd y = Ok (0, y') /\ y_fs y' = y_fs y.
Proof.
  intros Hs Hk. rewrite (readdir_enter y fd p i fh l l []) by (done || by rewrite app_nil_r).
  assert (l = l ++ []) as El by (by rewrite app_nil_r). rewrite El in Hs at 1.
  eapply (stream_locks (fun l => {[i_ino i]} ∪ l)) in Hs. pose proof (readdir_next_spec _ _ _ _ _ _ _ _ Hs) as Hn.
  pose proof Hs as []. erewrite M_bind_step by (apply on_fs_run; exact Hn). cbn [next_in head default].
  unfold readdir_emit. cbn [Z.eqb]. erewrite M_bind_step by (by eapply set_offset_run).
  erewrite M_bind_step by (eapply unlock_run; exact sr_ino0). eexists. split; [done|]. simpl. by apply relock.
Qed.

(** The buffer is there, or allocated on the way. *)
Lemma buffer_run y fd fh b h' :
  0 <= fd -> f_table (y_rt y) !! Z.to_nat fd = Some fh -> buffer_ok (y_heap y) (temp_dirent fh) b h' ->
  exists r', (if temp_dirent fh =? 0 then
      p ← on_heap (heap_alloc SIZEOF_DE);
      _ ← on_rt (set_fh fd (mk_fh (fh_fd fh) (fh_file fh) (fh_offset fh) (fh_flags fh) (fh_valid fh) p));
      mret p
    else mret (temp_dirent fh)) y = Ok (b, mk_sys (y_fs y) h' r') /\
    f_table r' = <[Z.to_nat fd := mk_fh (fh_fd fh) (fh_file fh) (fh_offset fh) (fh_flags fh) (fh_valid fh) b]> (f_table (y_rt y)).
Proof.
  intros Hfd Hl (Hb & _ & H). destruct (temp_dirent fh =? 0).
  - exists (upd_f_table <[Z.to_nat fd := mk_fh (fh_fd fh) (fh_file fh) (fh_offset fh) (fh_flags fh) (fh_valid fh) b]> (y_rt y)).
    split; [|done]. erewrite M_bind_step by (apply on_heap_run; exact H).
    erewrite M_bind_step by (apply on_rt_run; by eapply set_fh_at). done.
  - destruct H as [<- <-]. exists (y_rt y). split; [by destruct y|]. symmetry. apply list_insert_id. rewrite Hl. by destruct fh.
Qed.

(** A call in the middle of the stream returns the next entry. *)
Lemma readdir_entry y fd p i fh l1 d l2 b h' :
  stream (y_fs y) (y_rt y) fd p i fh (l1 ++ d :: l2) l1 -> i_ino i ∉ ilocks (y_fs y) ->
  buffer_ok (y_heap y) (temp_dirent fh) b h' ->
  exists y' fh', slotfs_readdir sb fd y = Ok (b, y') /\ y_fs y' = y_fs y /\
    stream (y_fs y) (y_rt y') fd p i fh' (l1 ++ d :: l2) (l1 ++ [d]) /\
    buffer_ok (y_heap y') (temp_dirent fh') b (y_heap y') /\
    dirent_view (y_heap y') b = shown (y_fs y) d.
Proof.
  intros Hs Hk Hb. rewrite (readdir_enter y fd p i fh _ l1 (d :: l2)) by done.
  pose proof (stream_locks (fun l => {[i_ino i]} ∪ l) _ _ _ _ _ _ _ _ Hs) as HsL.
  pose proof (readdir_next_spec _ _ _ _ _ _ _ _ HsL) as Hn. pose proof Hs as [].
  assert (d ∈ l1 ++ d :: l2) as Hd by (rewrite elem_of_app, elem_of_cons; auto).
  assert (d <> 0) as Hnz by (apply aligned_nz; by eapply index_rep_aligned).
  destruct (entry_of sb _ _ d sr_ok0) as (e & He & Hino); [by rewrite <- sr_list0|done|].
  pose proof (sr_hash0 d Hd) as Hh. unfold READDIR_END in Hh. unfold hash_of in Hh. rewrite He in Hh.
  erewrite M_bind_step by (apply on_fs_run; exact Hn). change (next_in (d :: l2)) with d.
  unfold readdir_emit. rewrite (proj2 (Z.eqb_neq d 0)) by done.
  erewrite M_bind_step by (apply on_fs_run, rd_dirent_eq; exact He).
  erewrite M_bind_step by (by eapply set_offset_run).
  set (fh1 := mk_fh (fh_fd fh) (fh_file fh) (i64 (d_hash e)) (fh_flags fh) (fh_valid fh) (temp_dirent fh)).
  set (y1 := upd_y_rt _ _). pose proof (lookup_lt_Some _ _ _ sr_fh0) as Hlt.
  assert (f_table (y_rt y1) !! Z.to_nat fd = Some fh1) as Hfh1 by (by apply list_lookup_insert_eq).
  erewrite M_bind_step by (apply on_rt_run, get_fh_at; [done|exact Hfh1]).
  destruct (buffer_run y1 fd fh1 b h' sr_fd0 Hfh1 Hb) as (r' & Hrun & Hr').
  erewrite M_bind_step by exact Hrun. destruct Hb as (Hb0 & Hreg & _). rewrite (proj2 (Z.eqb_neq b 0)) by done.
  mstep eq_refl. destruct (fill_dirent_spec b e (fh_offset fh1) (bytes (dev (y_fs y))) h' Hreg Hino) as (h2 & Hfill & Hst & Hen & Hview).
  erewrite M_bind_step by (apply on_heap_run; exact Hfill). erewrite M_bind_step by (eapply unlock_run; exact sr_ino0).
  eexists _, (mk_fh (fh_fd fh) (fh_file fh) (i64 (d_hash e)) (fh_flags fh) (fh_valid fh) b). split; [done|]. simpl. split_and!.
  - by apply relock.
  - eapply stream_move; [exact Hs| |rewrite Hr'; simpl; by rewrite list_insert_insert_eq].
    unfold position. rewrite last_snoc. simpl. unfold hash_of. rewrite He. apply u64_of_i64. lia.
  - unfold buffer_ok. rewrite (proj2 (Z.eqb_neq b 0)) by done. unfold in_region in *. by rewrite Hst, Hen.
  - rewrite Hview. unfold shown. by rewrite He.
Qed.

Lemma read_all_spec l2 n y fd p i fh l1 b h' :
  stream (y_fs y) (y_rt y) fd p i fh (l1 ++ l2) l1 -> i_ino i ∉ ilocks (y_fs y) ->
  buffer_ok (y_heap y) (temp_dirent fh) b h' -> (length l2 < n)%nat ->
  exists y', read_all n fd y = Ok (shown (y_fs y) <$> l2, y') /\ y_fs y' = y_fs y.
Proof.
  revert n y fh l1 h'. induction l2 as [|d l2 IH]; intros n y fh l1 h' Hs Hk Hb Hn; (destruct n as [|n]; [simpl in Hn; lia|]).
  - rewrite app_nil_r in Hs. destruct (readdir_end y fd p i fh l1 Hs Hk) as (y' & Hy & Hf). exists y'. split; [|done].
    cbn [read_all]. by mstep Hy.
  - destruct (readdir_entry y fd p i fh l1 d l2 b h' Hs Hk Hb) as (y1 & fh1 & Hy & Hf & Hs1 & Hb1 & Hv).
    rewrite <- Hf in Hs1. replace (l1 ++ d :: l2) with ((l1 ++ [d]) ++ l2) in Hs1 by (by rewrite <- app_assoc).
    destruct (IH n y1 fh1 (l1 ++ [d]) (y_heap y1) Hs1) as (y2 & Hr & Hf2); [by rewrite Hf|done|simpl in Hn; lia|].
    exists y2. split; [|congruence]. cbn [read_all]. mstep Hy. rewrite (proj2 (Z.eqb_neq b 0)) by apply Hb.
    unfold gets. mstep eq_refl. mstep Hr. simpl. by rewrite Hv, Hf.
Qed.

(** ** Properties *)

Lemma shown_lists s i d :
  dir_ok sb s i -> mem_ok (bytes (dev s)) -> d ∈ i_list i -> 0 ∉ entry_name s d -> lists s d (shown s d).
Proof.
  intros Hok Hm Hd. destruct (do_objs _ _ _ Hok d Hd) as (_ & e & He & _ & Hlen & _). intros H0.
  assert (entry_slot s d = IDX2DENT sb (d_idx e)) as Es by (unfold entry_slot, idx_of; by rewrite He).
  unfold lists, shown. rewrite He. cbn [fst snd]. unfold entry_name, entry_name_len in *. rewrite Es in *.
  split; [by exists e|]. apply cstr_prefix; [|done]. pose proof (Hm (IDX2DENT sb (d_idx e) + PD_name_len)).
  unfold DE_NAME_LEN, MAX_NAME_LEN in *. lia.
Qed.

(** C14: Reading a directory stream from the start until NULL shows every entry
    of the directory exactly once, in the order of the hashes of the names, each
    with its inode number and a string that begins with its name, and that is
    its name when a zero follows the name in its slot; it leaves the file system
    as it was, the lock of the directory included.  The names have no zeros, and
    the hashes are neither 0 nor [READDIR_END], which [slotfs_readdir] uses for
    the two ends of the stream. *)
Theorem readdir_lists_directory y fd p i fh l b h' :
  stream (y_fs y) (y_rt y) fd p i fh l [] -> i_ino i ∉ ilocks (y_fs y) ->
  buffer_ok (y_heap y) (temp_dirent fh) b h' -> (forall d, d ∈ l -> 0 ∉ entry_name (y_fs y) d) ->
  exists vs y', read_all (S (length l)) fd y = Ok (vs, y') /\ y_fs y' = y_fs y /\ Forall2 (lists (y_fs y)) l vs /\
    (l ≡ₚ i_list i) /\ StronglySorted (fun a b => hash_of (y_fs y) a < hash_of (y_fs y) b) l.
Proof.
  intros Hs Hk Hb Hz. destruct (read_all_spec l (S (length l)) y fd p i fh [] b h' Hs Hk Hb ltac:(lia)) as (y' & Hr & Hf).
  exists (shown (y_fs y) <$> l), y'. split_and!; [done|done| |apply Hs|].
  - apply Forall2_fmap_r, Forall_Forall2_diag, Forall_forall. intros d Hd.
    apply (shown_lists _ i); [apply Hs|apply Hs|by rewrite <- (sr_list _ _ _ _ _ _ _ _ Hs)|auto].
  - destruct (sr_index _ _ _ _ _ _ _ _ Hs) as (t & _ & _ & Hso). exact Hso.
Qed.
End readdir.
