(* ===== verification/FuncFile.v ===== *)
(** * Open files (src/slotfs/slotfs_func.c)

    Opening a path gives a descriptor for the inode that the components of the
    path lead to; what is written through a descriptor is read back through
    any descriptor of the same file. *)
From stdpp Require Import base numbers list gmap.
From S2P Require Import Prelude Slot Btree Rbtree RbErase DirIndex Pm Mkfs Heap Fs Journal Dir.
From S2P Require Import File FileIndex FileLog FileRead FileWrite Runtime Vfs VfsLocks VfsWalk Func.
Local Open Scope Z_scope.

(** ** Opening *)

Section open.
Context (sb : pm_super_block) (cpu now stray : Z) (junk : mem) (stk : nameidata).

(** Where a path starts. *)
Definition start_of (y : sys) (path : list Z) : Z := if starts_at_root path then root (y_fs y) else cwd (y_rt y).

Lemma nameidata_init_run y path flags :
  exists nd, nameidata_init stk AT_FDCWD path flags y = Ok (nd, y) /\ nd_path nd = path /\ nd_start nd = start_of y path /\
    nd_depth nd = 0 /\ nd_flags nd = if has_flag flags O_NOFOLLOW then ND_NOFOLLOW else 0.
Proof.
  unfold nameidata_init, start_of. cbv zeta. destruct (starts_at_root path).
  - mstep eq_refl. eexists. split; [done|]. by destruct (has_flag flags O_NOFOLLOW).
  - change (AT_FDCWD =? AT_FDCWD) with true. cbv iota. mstep eq_refl. eexists. split; [done|]. by destruct (has_flag flags O_NOFOLLOW).
Qed.

Lemma not_IS_ERR p : 0 <= p < 2 ^ 62 -> IS_ERR p = false.
Proof.
  intros Hp. unfold IS_ERR. rewrite (u64_small p) by lia.
  assert (u64 (- MAX_ERRNO) = 2 ^ 64 - MAX_ERRNO) as -> by (by vm_compute). apply Z.leb_gt. unfold MAX_ERRNO. lia.
Qed.
Lemma live_not_err s p k : live s p k -> IS_ERR p = false.
Proof. intros ((H & _) & _). apply not_IS_ERR. lia. Qed.

Lemma resolves_err s D p names e : resolves s D p names (inr e) -> e = - ENOENT \/ e = - ENOTDIR.
Proof. remember (inr e) as r eqn:E. induction 1; try (injection E as <-); auto. discriminate E. Qed.

Lemma unlocked (y : sys) k f : ilocks (y_fs y) = ∅ -> (forall g s, f (upd_ilocks g s) = upd_ilocks g (f s)) ->
  upd_y_fs (upd_ilocks (fun l => l ∖ {[k]})) (upd_y_fs f (VfsWalk.st y {[k]})) = upd_y_fs f y.
Proof.
  intros HL Hf. destruct y as [s h t]. unfold upd_y_fs, VfsWalk.st. simpl in *. rewrite Hf. f_equal.
  assert (upd_ilocks (fun _ => ∅) s = s) as E by (rewrite <- HL; by destruct s).
  rewrite <- E at 2. rewrite Hf. unfold upd_ilocks. simpl. f_equal. set_solver.
Qed.

Lemma resolves_live s D p names q :
  cache_ok s -> resolves s D p names (inl q) -> forall k, live s p k -> exists k', live s q k'.
Proof.
  intros Hc. remember (inl q) as r eqn:E. induction 1 as [p| |p|p n ns q' i r (d & e & ip & _ & _ & Ht & _) Hi _ _ _ IH];
    intros k Hk; [injection E as <-; by exists k|discriminate E..|]. apply (IH E (d_ino e)). by apply (ca_live _ Hc).
Qed.

Definition reopened (q : Z) (i : dram_inode) (s : fs) : fs := upd_inodes <[q := upd_i_ref (fun n => u32 (n + 1)) i]> s.

(** [do_slotfs_open] without [O_CREAT]. *)
Lemma do_open_run y D path flags mode kc r :
  dirs_inv sb (y_fs y) D -> cache_ok (y_fs y) -> locks y = ∅ -> live (y_fs y) (start_of y path) kc ->
  has_flag flags O_CREAT = false -> resolves (y_fs y) D (start_of y path) (components path) r ->
  match r with
  | inr e => do_slotfs_open sb cpu now stray junk stk AT_FDCWD path flags mode y = Ok (e, y)
  | inl q => forall i, inodes (y_fs y) !! q = Some i ->
      do_slotfs_open sb cpu now stray junk stk AT_FDCWD path flags mode y =
      if has_flag flags O_DIRECTORY && negb (is_dir i) then Ok (- ENOTDIR, y) else Ok (q, upd_y_fs (reopened q i) y)
  end.
Proof.
  intros Hd Hc HL Hst Hcr Hres. destruct (nameidata_init_run y path flags) as (nd & Hnd & Hp & Hs & _ & Hf).
  assert (has_flag (nd_flags nd) ND_PARENT = false) as Hnp by (rewrite Hf; by destruct (has_flag flags O_NOFOLLOW)).
  assert (upd_y_fs (upd_ilocks (fun _ => ∅)) y = y) as Ey.
  { unfold locks in HL. rewrite <- HL. destruct y as [f h t]. unfold upd_y_fs. simpl. f_equal. by destruct f. }
  assert (IS_ERR (nd_start nd) = false) as He by (rewrite Hs; by eapply live_not_err).
  pose proof (path_lookup_walk sb now stray junk y D Hd Hc nd kc r HL) as Hw. rewrite Hs, Hp in Hw.
  specialize (Hw Hst Hnp Hres). unfold do_slotfs_open.
  destruct r as [q|e]; [intros i Hi|]; mstep Hnd; rewrite He, Hcr; cbn [negb]; unfold open_existing, lookup.
  - destruct Hw as (nd' & k & Hw & Hcur & Hlv). erewrite M_bind_step by exact Hw. cbn [negb Z.eqb]. rewrite Hcur.
    erewrite M_bind_step by (apply on_fs_run, rd_inode_eq; exact Hi). destruct Hlv as (_ & i0 & Hi0 & Hk).
    rewrite Hi in Hi0. injection Hi0 as <-. destruct (has_flag flags O_DIRECTORY && negb (is_dir i)).
    + erewrite M_bind_step by (eapply unlock_run; exact Hi). pose proof (unlocked y k (fun s => s) HL ltac:(done)) as Hu.
      rewrite Hk. transitivity (Ok (- ENOTDIR, upd_y_fs (fun s => s) y)); [by rewrite <- Hu|by destruct y].
    + erewrite M_bind_step by (apply on_fs_run, upd_inode_eq; exact Hi).
      erewrite M_bind_step by (eapply unlock_run; apply lookup_insert_eq).
      pose proof (unlocked y k (reopened q i) HL ltac:(done)) as Hu. rewrite <- Hu.
      change (i_ino (upd_i_ref (fun n => u32 (n + 1)) i)) with (i_ino i). by rewrite Hk.
  - destruct Hw as (nd' & Hw). erewrite M_bind_step by exact Hw. 
    destruct (resolves_err _ _ _ _ _ Hres) as [-> | ->]; cbn; by rewrite <- Ey at 2.
Qed.

(** What [slotfs_open] makes of the result of [do_slotfs_open]. *)
Lemma open_run y path flags mode inode y1 :
  rt_ok (y_rt y) -> (exists k g, 0 <= k < FD_MAX /\ f_table (y_rt y) !! Z.to_nat k = Some g /\ fh_valid g = false) ->
  (forall r', cwd r' = cwd (y_rt y) ->
     do_slotfs_open sb cpu now stray junk stk AT_FDCWD path flags mode (upd_y_rt (fun _ => r') y) =
     Ok (inode, upd_y_rt (fun _ => r') y1)) ->
  exists fd g y', 0 <= fd < FD_MAX /\ f_table (y_rt y) !! Z.to_nat fd = Some g /\ fh_valid g = false /\ y_fs y' = y_fs y1 /\
    (if IS_ERR inode then slotfs_open sb cpu now stray junk stk AT_FDCWD path flags mode y = Ok (-1, y') /\ _errno (y_rt y') = i32 inode
     else slotfs_open sb cpu now stray junk stk AT_FDCWD path flags mode y = Ok (fd, y') /\
       f_table (y_rt y') = <[Z.to_nat fd := mk_fh fd inode 0 flags true 0]> (f_table (y_rt y))).
Proof.
  intros Hr (k & g0 & Hk & Hg0 & Hv0) Hdo.
  destruct (fd_alloc_spec (y_rt y) Hr) as (fd & r' & Ha & Hr' & [(_ & _ & Hall)|(Hfd & (g & Hg & Hv) & Ht & Hcwd)]).
  { destruct (Hall k Hk) as (g & Hg & Hv). congruence. }
  specialize (Hdo r' Hcwd). pose proof (lookup_lt_Some _ _ _ Hg) as Hlt.
  assert (f_table r' !! Z.to_nat fd = Some (mk_fh fd 0 0 0 true 0)) as Hfh by (rewrite Ht; by apply list_lookup_insert_eq).
  exists fd, g. unfold slotfs_open. destruct (IS_ERR inode) eqn:He.
  - exists (upd_y_rt (fun _ => upd_errno (fun _ => i32 inode) r') y1). split_and!; try done; try lia.
    erewrite M_bind_step by (apply on_rt_run; exact Ha). rewrite (proj2 (Z.eqb_neq fd (-1))) by lia.
    erewrite M_bind_step by exact Hdo. rewrite He. done.
  - exists (upd_y_rt (fun _ => upd_f_table <[Z.to_nat fd := mk_fh fd inode 0 flags true 0]> r') y1). split_and!; try done; try lia.
    + erewrite M_bind_step by (apply on_rt_run; exact Ha). rewrite (proj2 (Z.eqb_neq fd (-1))) by lia.
      erewrite M_bind_step by exact Hdo. rewrite He.
      erewrite M_bind_step by (apply on_rt_run, get_fh_at; [lia|exact Hfh]).
      erewrite M_bind_step by (apply on_rt_run; eapply set_fh_at; [lia|exact Hfh]). done.
    + simpl. rewrite Ht. by rewrite list_insert_insert_eq.
Qed.

End open.

(** ** Reading and writing through descriptors *)

Section io.
Context (sb : pm_super_block) (cpu now stray : Z) (junk : mem).
Hypothesis Hlo : layout_ok sb.

(** [fd] is an open descriptor of the file at [p]. *)
Definition opened (r : runtime) (fd p : Z) : Prop :=
  0 <= fd /\ p <> 0 /\ exists fh, f_table r !! Z.to_nat fd = Some fh /\ fh_valid fh = true /\ fh_file fh = p.

Lemma opened_move r fd p fd' off fh :
  f_table r !! Z.to_nat fd' = Some fh -> opened r fd p ->
  opened (upd_f_table <[Z.to_nat fd' := mk_fh (fh_fd fh) (fh_file fh) off (fh_flags fh) (fh_valid fh) (temp_dirent fh)]> r) fd p.
Proof.
  intros Hfh (Hfd & Hp & g & Hg & Hv & Hf). split_and!; [done|done|]. simpl. pose proof (lookup_lt_Some _ _ _ Hfh).
  destruct (decide (Z.to_nat fd = Z.to_nat fd')) as [E|E].
  - rewrite E in Hg |- *. rewrite Hfh in Hg. injection Hg as <-. eexists. split; [by apply list_lookup_insert_eq|done].
  - exists g. by rewrite list_lookup_insert_ne by done.
Qed.

Lemma pwrite_run y fd p ub buf len offset s' :
  opened (y_rt y) fd p -> 0 < len < 2 ^ 31 ->
  inode_write sb cpu now stray junk p ub buf len offset (y_fs y) = Ok (len, s') ->
  exists y', slotfs_pwrite sb cpu now stray junk fd ub buf len offset y = Ok (len, y') /\ y_fs y' = s' /\
    forall fd' q, opened (y_rt y) fd' q -> opened (y_rt y') fd' q.
Proof.
  intros (Hfd & Hp & fh & Hfh & Hv & Hf) Hl Hw. unfold slotfs_pwrite.
  erewrite M_bind_step by (apply on_rt_run, get_fh_at; done). rewrite Hv, Hf, (proj2 (Z.eqb_neq p 0)) by done.
  cbn [negb orb]. erewrite M_bind_step by (apply on_fs_run; exact Hw). cbv zeta. rewrite i32_small by lia.
  rewrite (proj2 (Z.gtb_lt len 0)) by lia. erewrite M_bind_step by (eapply set_offset_run; done).
  eexists. split; [done|]. split; [done|]. intros fd' q Hq. by eapply opened_move.
Qed.

Lemma pread_run y fd p ub buf len offset s' ub' :
  opened (y_rt y) fd p -> 0 < len < 2 ^ 31 ->
  inode_read sb stray p ub buf len offset (y_fs y) = Ok ((len, ub'), s') ->
  exists y', slotfs_pread sb stray fd ub buf len offset y = Ok ((len, ub'), y') /\ y_fs y' = s'.
Proof.
  intros (Hfd & Hp & fh & Hfh & Hv & Hf) Hl Hw. unfold slotfs_pread.
  erewrite M_bind_step by (apply on_rt_run, get_fh_at; done). rewrite Hv, Hf, (proj2 (Z.eqb_neq p 0)) by done.
  cbn [negb orb]. erewrite M_bind_step by (apply on_fs_run; exact Hw). cbv zeta iota beta. rewrite i32_small by lia.
  rewrite (proj2 (Z.gtb_lt len 0)) by lia. erewrite M_bind_step by (eapply set_offset_run; done).
  by eexists.
Qed.

(** C12: What is written through one descriptor of a file is read back
    through any other descriptor of it: a [slotfs_pwrite] of a range within one
    page, below the capacity of the index of the file, returns its length, and a
    [slotfs_pread] of the same range then returns the length and these bytes.
    There are a free data slot and the other objects that [inode_write] takes, no
    lock is held on the file, and a write of less than 1024 bytes into a page that
    has data ends inside the size ([inode_write_size_kept] has the others, whose
    bytes behind the size are not read back). *)
Theorem pwrite_pread y P p i fd fd' ub buf len offset ub2 buf2 :
  opened (y_rt y) fd p -> opened (y_rt y) fd' p ->
  files_inv sb (y_fs y) P -> p ∈ P -> inodes (y_fs y) !! p = Some i -> write_ready sb (y_fs y) i cpu 1 ->
  (exists k, 0 <= k < slot_num (sb_data sb) /\ sa_used (map_data (y_fs y)) k = false) ->
  0 <= offset -> 0 < len -> offset + len <= 2 ^ 43 - PAGE_SIZE -> blocks_of offset len = 1 ->
  offset / PAGE_SIZE < capacity (b_height i) ->
  (small_overwrite i offset len -> offset + len <= i_size i) ->
  exists y1 y2 ub', slotfs_pwrite sb cpu now stray junk fd ub buf len offset y = Ok (len, y1) /\
    slotfs_pread sb stray fd' ub2 buf2 len offset y1 = Ok ((len, ub'), y2) /\
    (forall d, 0 <= d < len -> ub' (buf2 + d) = ub (buf + d)).
Proof.
  intros Ho Ho' Hinv Hp Hi Hrdy Hfree Hoff Hl Hmax Hn Hcap Hsm.
  destruct (write_read_spec sb Hlo cpu now stray junk P p ub buf len offset (y_fs y) i ub2 buf2) as (s' & ub' & Hw & Hr & Hb); try done.
  assert (0 < len < 2 ^ 31) by (unfold blocks_of, PAGE_SIZE in Hn; zdm).
  destruct (pwrite_run y fd p ub buf len offset s' Ho) as (y1 & H1 & E1 & Hop); [done|done|].
  destruct (pread_run y1 fd' p ub2 buf2 len offset s' ub' (Hop _ _ Ho')) as (y2 & H2 & _); [done|by rewrite E1|].
  by exists y1, y2, ub'.
Qed.
End io.
