(* ===== verification/FuncRename.v ===== *)
(** * Renaming (slotfs_rename of src/slotfs/slotfs_func.c)

    [slotfs_rename] moves an entry from one directory to another, or to a
    new name in the same one: as maps from names to inodes, the directories lose
    the old name and gain the new one, and nothing else. *)
From stdpp Require Import base numbers list gmap.
From S2P Require Import Prelude Slot Btree Rbtree RbErase DirIndex Pm Mkfs Heap Fs Journal Dir DirView File.
From S2P Require Import FileRead FileWrite Runtime Vfs VfsLocks VfsWalk FsInv Func FuncFile.
Local Open Scope Z_scope.

Section rename.
Context (sb : pm_super_block) (cpu now stray : Z) (junk : mem) (stk stk' : nameidata) (fake_ts : Z).
Hypothesis Hlo : layout_ok sb.
Hypothesis Hcpu : 0 <= cpu.

(** ** The journal of a rename *)

Lemma memcpy_bytes dst from src n m :
  mem_ok m -> (forall k, 0 <= k < n -> 0 <= from (src + k) < 256) -> mem_ok (memcpy dst from src n m).
Proof.
  intros Hm Hf x. unfold memcpy. destruct (Z.leb_spec dst x), (Z.ltb_spec x (dst + n)); simpl; try apply Hm. apply Hf. lia.
Qed.

Lemma last_bytes l c n : take (Z.to_nat n) c = l -> name_ok l -> 0 <= n <= zlength c ->
  n = zlength l /\ forall k, 0 <= k < n -> 0 <= list_mem c (0 + k) < 256.
Proof.
  intros Hl [_ Hb] Hn. unfold zlength in *. rewrite <- Hl. rewrite length_take_le by lia. split; [lia|]. intros k Hk.
  unfold list_mem. rewrite Z.add_0_l. rewrite <- Hl in Hb. rewrite Forall_lookup in Hb.
  destruct (lookup_lt_is_Some_2 c (Z.to_nat k)) as [x Hx]; [lia|]. rewrite Hx. simpl. apply (Hb (Z.to_nat k)).
  rewrite lookup_take_lt by lia. done.
Qed.

Lemma journal_rename_low op np c1 n1 c2 n2 s :
  mem_ok (bytes (dev s)) -> 0 <= n1 <= 64 -> 0 <= n2 <= 64 ->
  (forall k, 0 <= k < n1 -> 0 <= list_mem c1 (0 + k) < 256) -> (forall k, 0 <= k < n2 -> 0 <= list_mem c2 (0 + k) < 256) ->
  exists p, journal_rename JOURNAL_START op np (list_mem c1) 0 n1 (list_mem c2) 0 n2 s = Ok (tt, upd_dev (fun _ => p) s) /\
    mem_ok (bytes p) /\ forall x, JOURNAL_START + PAGE_SIZE <= x -> bytes p x = bytes (dev s) x.
Proof.
  intros Hm Hn1 Hn2 H1 H2. eexists. split; [reflexivity|]. split.
  - apply store_ok, memcpy_bytes; [|done]. apply store_ok, memcpy_bytes; [|done]. by repeat apply store_ok.
  - intros x Hx. repeat first [rewrite bytes_update | progress fsimpl]. unfold PAGE_SIZE, J_valid, J_type, RJ_old_parent, RJ_new_parent, RJ_old_name, RJ_old_len, RJ_new_name, RJ_new_len in *.
    set (J := JOURNAL_START) in *. rewrite (store_agree _ _ _ _ x 1) by (simpl; lia). rewrite (memcpy_agree _ _ _ _ _ x 1) by lia.
    rewrite (store_agree _ _ _ _ x 1) by (simpl; lia). rewrite (memcpy_agree _ _ _ _ _ x 1) by lia.
    by rewrite !(store_agree _ _ _ _ x 1) by (simpl; lia).
Qed.

Lemma journal_below_tables : JOURNAL_START + PAGE_SIZE <= slot_table (sb_inode sb).
Proof.
  destruct Hlo as [_ (? & ? & ? & ? & ?) _ ([? ?] & [? ?] & [? ?] & [? ?]) _ _].
  change (JOURNAL_START + PAGE_SIZE) with 12288. change BITMAP_START with 1060864 in *. lia.
Qed.

(** The inode that [slotfs_rename] makes up is not in the heap. *)
Lemma bumps_none s : exists q, bumps s (mret tt) q.
Proof.
  set (q := fresh (dom (inodes s))). exists q. intros s' Hdom.
  assert (alter (upd_entry_num (fun n => u64 (n + 1))) q (inodes s') = inodes s') as E.
  { apply map_eq. intros k. destruct (decide (k = q)) as [->|Hne]; [|by rewrite lookup_alter_ne].
    rewrite lookup_alter_eq. assert (inodes s' !! q = None) as -> by (apply not_elem_of_dom; rewrite Hdom; apply is_fresh). done. }
  unfold mret, M_ret. do 2 f_equal. destruct s'. unfold upd_inodes. simpl in *. by rewrite E.
Qed.

(** ** The entries *)

(** What a rename does to the maps of the directories. *)
Definition moved (s s' : fs) (D : list Z) (q1 h1 q2 h2 : Z) : Prop :=
  forall q h, q ∈ D -> entry_ino s' q h =
    if decide (q = q1 /\ h = h1) then None else
    if decide (q = q2 /\ h = h2) then entry_ino s q1 h1 else entry_ino s q h.

(** What it needs: the old name is there and the new one is not, there are an
    entry object and a directory slot, and the journal is not in use. *)
Record rename_ready (s : fs) (D : list Z) (q1 : Z) (l1 : list Z) (q2 : Z) (l2 : list Z) : Prop := {
  rr_old : exists d, entry_at s D q1 l1 d;
  rr_new : no_entry s D q2 l2;
  rr_names : name_ok l1 /\ name_ok l2;
  rr_object : exists d l, entry_arena s = d :: l /\ d < 2 ^ 62;
  rr_slot : exists k, sa_valid (map_dir s) k /\ sa_used (map_dir s) k = false;
  rr_jnl : serial (jnl_mgr s);
}.

(** The rest of the system. *)
Definition rest_same (s s' : fs) : Prop :=
  ilocks s' = ilocks s /\ inode_table s' = inode_table s /\ root s' = root s /\ inode_arena s' = inode_arena s /\
  ebuf_mgr s' = ebuf_mgr s /\ forall p i, inodes s !! p = Some i -> exists i', inodes s' !! p = Some i' /\ i_ino i' = i_ino i /\ i_mode i' = i_mode i /\ i_link i' = i_link i.

Lemma rest_same_trans s1 s2 s3 : rest_same s1 s2 -> rest_same s2 s3 -> rest_same s1 s3.
Proof.
  intros (A1 & A2 & A3 & A4 & A6 & A5) (B1 & B2 & B3 & B4 & B6 & B5). split_and!; try congruence.
  intros p i Hi. destruct (A5 p i Hi) as (j & Hj & E1 & E2 & E3). destruct (B5 p j Hj) as (k & Hk & F1 & F2 & F3). exists k. split_and!; congruence.
Qed.
Lemma rest_same_frame s s' p i i' :
  dir_frame sb s s' p -> inodes s !! p = Some i -> inodes s' !! p = Some i' -> i_ino i' = i_ino i -> rest_same s s'.
Proof.
  intros [_ Hs Hj Hl Ht Hr Ha Ho _ (_ & He & _) _] Hi Hi' Eino. split_and!; try done. intros q j Hq. destruct (decide (q = p)) as [->|Hne].
  - rewrite Hi in Hq. injection Hq as <-. exists i'. split_and!; [done|done|by apply (Hs i i')..].
  - destruct (Ho q j Hne Hq) as (n & Hn). eexists. split; [exact Hn|]. done.
Qed.

(** The appended entry and the removed one. *)
Lemma append_then_remove s D q1 i1 d e q2 l2 :
  dirs_inv sb s D -> q1 ∈ D -> inodes s !! q1 = Some i1 -> d ∈ i_list i1 -> dirents s !! d = Some e -> no_entry s D q2 l2 ->
  name_ok l2 -> (exists d l, entry_arena s = d :: l /\ d < 2 ^ 62) -> (exists k, sa_valid (map_dir s) k /\ sa_used (map_dir s) k = false) ->
  exists d2 s1 s2, do_append_entry sb cpu q2 (d_ino e) fake_ts (mret tt) l2 s = Ok (d2, s1) /\ IS_ERR d2 = false /\
    dir_remove_entry sb q1 d s1 = Ok (tt, s2) /\ dirs_inv sb s2 D /\ moved s s2 D q1 (d_hash e) q2 (BKDRHash l2) /\
    jnl_mgr s2 = jnl_mgr s /\ rest_same s s2 /\ forall P, keeps sb D P s s2.
Proof.
  intros Hinv Hq1 Hi1 Hd He (Hq2 & i2 & Hi2 & _ & Hno) Hn (d2 & l & Ha & Hd2) Hfree.
  destruct (dir_at sb s D q1 Hinv Hq1) as (x & Hx & Hok1). rewrite Hi1 in Hx. injection Hx as <-.
  destruct (entry_of sb s i1 d Hok1 Hd) as (e' & He' & Hino); [apply (so_mem _ _ (dv_shared _ _ _ Hinv))|].
  rewrite He in He'. injection He' as <-. destruct (bumps_none s) as (q & Hb).
  destruct (do_append_spec sb cpu Hlo Hcpu s D q2 i2 (d_ino e) fake_ts (mret tt) q l2 d2 l Hinv Hq2 Hi2 Ha Hb Hn Hino Hno Hfree)
    as (s1 & Hs1 & Hinv1 & Happ).
  pose proof Happ as (i2' & g & Hi2' & Eino2 & El2 & _ & _ & Ed & _ & _ & Hfr).
  assert (exists j, inodes s1 !! q1 = Some j /\ d ∈ i_list j) as (j & Hj & Hdj).
  { destruct (decide (q1 = q2)) as [->|Hne].
    - exists i2'. split; [done|]. rewrite El2. rewrite Hi1 in Hi2. injection Hi2 as <-. set_solver.
    - destruct (fr_other _ _ _ _ Hfr q1 i1 Hne Hi1) as (j & Hj & (_ & _ & E & _) & _). exists j. by rewrite E. }
  assert (dirents s1 !! d = Some e) as He1.
  { rewrite Ed. rewrite lookup_insert_ne; [done|]. intros <-. by apply (not_listed sb s D q1 i1 d2 l). }
  destruct (dir_remove_spec sb Hlo s1 D q1 j d e Hinv1 Hq1 Hj Hdj He1) as (s2 & Hs2 & Hinv2 & Hrem).
  pose proof Hrem as (j' & Hj' & Eino1 & _ & _ & _ & _ & _ & _ & Hfr2).
  exists d2, s1, s2. split; [done|]. split.
  { apply not_IS_ERR. destruct (so_aligned _ _ (dv_shared _ _ _ Hinv) d2) as [? _]; [rewrite Ha; by left|lia]. }
  split; [done|]. split; [done|]. split_and!.
  - intros q0 h Hq0. rewrite (removed_view sb s1 s2 D q1 j d e q0 h) by done.
    rewrite (appended_view sb Hlo s s1 D q2 i2 d2 l (d_ino e) fake_ts l2 q0 h) by done.
    destruct (decide (q0 = q1 /\ h = d_hash e)); [done|]. destruct (decide (q0 = q2 /\ h = BKDRHash l2)); [|done].
    symmetry. by apply (entry_ino_hit sb s q1 i1 d e).
  - by rewrite (fr_jnl _ _ _ _ Hfr2), (fr_jnl _ _ _ _ Hfr).
  - eapply rest_same_trans; [by eapply rest_same_frame|by eapply rest_same_frame].
  - intros P. apply (keeps_trans sb D P s s1 s2).
    + intros Hf. pose proof (entry_ino_hit sb s q1 i1 d e Hi1 Hok1 Hd He) as Hk. destruct (fi_entries _ _ _ _ Hf q1 _ _ Hq1 Hk) as [Hkr Hku].
      apply (fs_append sb Hlo s s1 D P q2 i2 d2 (d_ino e) fake_ts l2 Hf Hq2 Hi2 ltac:(by exists l) Happ Hinv1 Hkr Hku).
    + intros Hf. by apply (fs_remove sb Hlo s1 s2 D P q1 j d e).
Qed.

(** The name that a lookup of the parent left in the name data. *)
Definition holds_name (nd : nameidata) (l : list Z) : Prop :=
  last_name nd = l /\ 0 <= nd_last_len nd <= zlength (nd_last nd).

Lemma inode_lookup_at s D p l d : dirs_inv sb s D -> entry_at s D p l d -> inode_lookup p l s = Ok (d, s) /\ d <> 0.
Proof.
  intros Hinv (Hp & i & Hi & Hdir & Hd & Hh). destruct (dir_at sb s D p Hinv Hp) as (x & Hx & Hok). rewrite Hi in Hx. injection Hx as <-.
  split.
  - unfold inode_lookup. mstep (rd_inode_eq _ _ _ Hi). rewrite Hdir. cbn [negb]. rewrite <- Hh. by apply (dirent_lookup_hit sb s p i).
  - destruct (do_index _ _ _ Hok) as (x & Hx & Hp'). apply aligned_nz. eapply index_rep_aligned; [exact Hx|by rewrite Hp'].
Qed.
Lemma inode_lookup_none s D p l : dirs_inv sb s D -> no_entry s D p l -> inode_lookup p l s = Ok (0, s).
Proof.
  intros Hinv (Hp & i & Hi & Hdir & Hno). destruct (dir_at sb s D p Hinv Hp) as (x & Hx & Hok). rewrite Hi in Hx. injection Hx as <-.
  unfold inode_lookup. mstep (rd_inode_eq _ _ _ Hi). rewrite Hdir. cbn [negb].
  destruct (dirent_lookup_spec sb s p i (BKDRHash l) Hi Hok) as (a & -> & H1 & _). destruct (decide (a = 0)) as [->|Hn]; [done|].
  destruct (H1 Hn) as [Hin Hh]. by destruct (Hno a Hin).
Qed.

Lemma rename_entries_spec y D q1 l1 q2 l2 nd1 nd2 :
  dirs_inv sb (y_fs y) D -> rename_ready (y_fs y) D q1 l1 q2 l2 -> holds_name nd1 l1 -> holds_name nd2 l2 ->
  exists s', rename_entries sb cpu fake_ts q1 q2 nd1 nd2 0 y = Ok (0, upd_y_fs (fun _ => s') y) /\
    dirs_inv sb s' D /\ serial (jnl_mgr s') /\ moved (y_fs y) s' D q1 (BKDRHash l1) q2 (BKDRHash l2) /\ rest_same (y_fs y) s' /\
    forall P, keeps sb D P (y_fs y) s'.
Proof.
  intros Hinv [(d & Hat) Hno (Hn1 & Hn2) Hobj Hslot Hser] [E1 Hr1] [E2 Hr2]. set (s := y_fs y) in *.
  pose proof Hat as (Hq1 & i1 & Hi1 & Hdir1 & Hd & Hh). pose proof Hno as (Hq2 & i2 & Hi2 & _).
  destruct (dir_at sb s D q1 Hinv Hq1) as (x & Hx & Hok1). rewrite Hi1 in Hx. injection Hx as <-.
  destruct (do_objs _ _ _ Hok1 d Hd) as (_ & e & He & _). assert (d_hash e = BKDRHash l1) as Ehe by (unfold hash_of in Hh; by rewrite He in Hh).
  destruct (inode_lookup_at s D q1 l1 d Hinv Hat) as [Hl1 Hnz]. pose proof (inode_lookup_none s D q2 l2 Hinv Hno) as Hl2.
  destruct (serial_alloc s Hser) as (c & Hal & ->). set (s1 := upd_jnl_mgr _ s) in Hal.
  pose proof (so_mem _ _ (dv_shared _ _ _ Hinv)) as Hm. destruct (last_bytes l1 _ _ E1 Hn1 Hr1) as [Len1 Hb1].
  destruct (last_bytes l2 _ _ E2 Hn2 Hr2) as [Len2 Hb2]. pose proof (zlength_nonneg l1). pose proof (zlength_nonneg l2).
  destruct (journal_rename_low (i_ino i1) (i_ino i2) (nd_last nd1) (nd_last_len nd1) (nd_last nd2) (nd_last_len nd2) s1) as (pm & Hjr & Hpm & Hlow);
    [done|destruct Hn1 as [Hn1 _]; unfold MAX_NAME_LEN in Hn1; lia|destruct Hn2 as [Hn2 _]; unfold MAX_NAME_LEN in Hn2; lia|done|done|].
  set (s2 := upd_dev _ s1) in Hjr. pose proof journal_below_tables as Hjt.
  assert (dirs_inv sb s2 D) as Hinv2 by (apply (dirs_inv_low sb Hlo s); try done; intros z Hz; apply Hlow; lia).
  destruct (append_then_remove s2 D q1 i1 d e q2 l2) as (d2 & s3 & s4 & Ha & Herr & Hr & Hinv4 & Hmv & Hj4 & Hrs & Hkp); try done.
  destruct (serial_commit s4 Hj4) as (s5 & Hc & Hser5 & Es5).
  remember (jnl_mgr s5) as m5 eqn:Em5. clear Em5. set (s6 := upd_jnl_mgr (fun _ => m5) _) in Es5. subst s5.
  assert (dirs_inv sb s6 D) as Hinv5.
  { apply (dirs_inv_low sb Hlo s4); try done.
    - apply store_ok. apply (so_mem _ _ (dv_shared _ _ _ Hinv4)).
    - intros z Hz. apply (store_agree _ _ _ _ z 1); [|lia]. unfold PAGE_SIZE in Hjt. simpl. lia. }
  exists s6. split_and!; try done.
  - unfold rename_entries. rewrite E1, E2. erewrite M_bind_step by (apply on_fs_run; exact Hl1).
    rewrite (proj2 (Z.eqb_neq d 0)) by done. erewrite M_bind_step by (apply on_fs_run; exact Hl2). cbn [negb Z.eqb].
    erewrite M_bind_step by (apply on_fs_run, rd_dirent_eq; exact He). erewrite M_bind_step by (apply on_fs_run; exact Hal).
    erewrite M_bind_step by (apply on_fs_run, rd_inode_eq; exact Hi1). erewrite M_bind_step by (apply on_fs_run, rd_inode_eq; exact Hi2).
    erewrite M_bind_step by (apply on_fs_run; exact Hjr). erewrite M_bind_step by (apply on_fs_run; exact Ha). rewrite Herr.
    erewrite M_bind_step by (apply on_fs_run; exact Hr). erewrite M_bind_step by (apply on_fs_run; exact Hc). done.
  - intros q h Hq. rewrite (entry_ino_frame sb s4 s6 D q h Hinv4 Hinv5 Hq) by done.
    rewrite (Hmv q h Hq), Ehe. rewrite !(entry_ino_frame sb s s2 D _ _ Hinv Hinv2) by done. done.
  - intros P. apply (keeps_trans sb D P s s2 s6); [|apply (keeps_trans sb D P s2 s4 s6); [apply Hkp|]].
    + apply (fs_low sb Hlo); try done. intros z Hz. apply Hlow. lia.
    + apply (fs_low sb Hlo); try done; [apply store_ok; apply (so_mem _ _ (dv_shared _ _ _ Hinv4))|].
      intros z Hz. apply (store_agree _ _ _ _ z 1); [|lia]. unfold PAGE_SIZE in Hjt. simpl. lia.
Qed.

(** ** The system call *)

Lemma rename_ready_locks f s D q1 l1 q2 l2 : rename_ready s D q1 l1 q2 l2 -> rename_ready (upd_ilocks f s) D q1 l1 q2 l2.
Proof. intros []. by constructor. Qed.
Lemma name_length_le c : (name_length c <= length c)%nat.
Proof. unfold name_length. lia. Qed.

(** The lookup of the parent of a path. *)
Lemma lookup_parent_run stk0 y D path names l q i k :
  dirs_inv sb (y_fs y) D -> cache_ok (y_fs y) -> locks y = ∅ -> live (y_fs y) (start_of y path) k ->
  components path = names ++ [l] -> resolves (y_fs y) D (start_of y path) names (inl q) ->
  inodes (y_fs y) !! q = Some i -> is_dir i = true ->
  exists nd nd', nameidata_init stk0 AT_FDCWD path 0 y = Ok (nd, y) /\ IS_ERR (nd_start nd) = false /\
    lookup sb now stray junk (with_parent nd) y = Ok ((0, nd'), VfsWalk.st y {[i_ino i]}) /\ nd_parent nd' = q /\
    holds_name nd' l /\ nd_last_len nd' = Z.of_nat (name_length (nd_last nd')).
Proof.
  intros Hd Hc HL Hst Hcomp Hres Hi Hdir. destruct (nameidata_init_run stk0 y path 0) as (nd & Hnd & Hp & Hs & _ & Hf).
  exists nd. assert (IS_ERR (nd_start nd) = false) as He by (rewrite Hs; by eapply live_not_err).
  destruct (path_lookup_walk_parent sb now stray junk y D Hd Hc (with_parent nd) k names l q i HL) as (nd' & kq & Hw & Hpar & Hlv & Hl & Hlen);
    [by rewrite <- Hs in Hst| |by rewrite <- Hp in Hcomp|by rewrite <- Hs in Hres|done|done|].
  { unfold with_parent. cbn [nd_flags set_flags]. rewrite Hf. done. }
  destruct Hlv as (_ & i0 & Hi0 & <-). rewrite Hi in Hi0. injection Hi0 as <-.
  exists nd'. split_and!; try done. split; [exact Hl|]. rewrite Hlen. unfold zlength. pose proof (name_length_le (nd_last nd')). lia.
Qed.

Lemma both_unlocked y s' q1 i1 q2 i2 (ret : Z) :
  inodes s' !! q1 = Some i1 -> inodes s' !! q2 = Some i2 -> ilocks s' = {[i_ino i1]} ∪ {[i_ino i2]} ->
  exists y', (_ ← unlock q2; _ ← (if q2 =? q1 then mret tt else unlock q1); mret ret) (upd_y_fs (fun _ => s') y) = Ok (ret, y') /\
    y_fs y' = upd_ilocks (fun _ => ∅) s' /\ y_rt y' = y_rt y /\ y_heap y' = y_heap y.
Proof.
  intros Hi1 Hi2 HL. erewrite M_bind_step by (eapply unlock_run; exact Hi2). destruct (Z.eqb_spec q2 q1) as [->|Hne].
  - rewrite Hi1 in Hi2. injection Hi2 as <-. eexists. split; [reflexivity|]. split; [|done]. unfold upd_ilocks. simpl. f_equal. rewrite HL. set_solver.
  - erewrite M_bind_step by (eapply unlock_run; exact Hi1). eexists. split; [reflexivity|]. split; [|done]. unfold upd_ilocks. simpl. f_equal. rewrite HL. set_solver.
Qed.

(** [slotfs_rename] up to the entries, when both parents exist. *)
Lemma rename_parents y D path1 names1 l1 q1 i1 k1 path2 names2 l2 q2 i2 k2 :
  dirs_inv sb (y_fs y) D -> cache_ok (y_fs y) -> locks y = ∅ ->
  live (y_fs y) (start_of y path1) k1 -> components path1 = names1 ++ [l1] -> resolves (y_fs y) D (start_of y path1) names1 (inl q1) ->
  live (y_fs y) (start_of y path2) k2 -> components path2 = names2 ++ [l2] -> resolves (y_fs y) D (start_of y path2) names2 (inl q2) ->
  q1 ∈ D -> q2 ∈ D -> inodes (y_fs y) !! q1 = Some i1 -> is_dir i1 = true -> inodes (y_fs y) !! q2 = Some i2 -> is_dir i2 = true ->
  exists nd1 nd2, holds_name nd1 l1 /\ holds_name nd2 l2 /\ (nd_last nd1 = nd_last nd2 -> l1 = l2) /\
    slotfs_rename sb cpu now stray junk stk stk' fake_ts path1 path2 y =
    if (q2 =? q1) && bool_decide (nd_last nd1 = nd_last nd2) then Ok (- EINVAL, y)
    else (ret ← rename_entries sb cpu fake_ts q1 q2 nd1 nd2 0;
          _ ← unlock q2; _ ← (if q2 =? q1 then mret tt else unlock q1); mret ret) (VfsWalk.st y ({[i_ino i1]} ∪ {[i_ino i2]})).
Proof.
  intros Hd Hc HL Hst1 Hcomp1 Hres1 Hst2 Hcomp2 Hres2 Hq1 Hq2 Hi1 Hdir1 Hi2 Hdir2.
  destruct (lookup_parent_run stk y D path1 names1 l1 q1 i1 k1) as (n1 & nd1 & Hn1 & He1 & Hw1 & Hp1 & Hl1 & Hlen1); try done.
  destruct (lookup_parent_run stk' y D path2 names2 l2 q2 i2 k2) as (n2 & nd2 & Hn2 & He2 & Hw2 & Hp2 & Hl2 & Hlen2); try done.
  assert (forall k, upd_y_fs (upd_ilocks (fun l => l ∖ {[k]})) (VfsWalk.st y {[k]}) = y) as Ey.
  { intros k. pose proof (unlocked y k (fun s => s) HL ltac:(done)) as Hu. destruct y. exact Hu. }
  exists nd1, nd2. split_and!; try done.
  { intros E. destruct Hl1 as [<- _], Hl2 as [<- _]. unfold last_name. by rewrite Hlen1, Hlen2, E. }
  unfold slotfs_rename. erewrite M_bind_step by exact Hn1. rewrite He1. erewrite M_bind_step by exact Hw1. cbn [negb Z.eqb].
  rewrite Hp1. erewrite M_bind_step by (eapply unlock_run; exact Hi1). rewrite Ey.
  erewrite M_bind_step by exact Hn2. rewrite He2. erewrite M_bind_step by exact Hw2. cbn [negb Z.eqb]. cbv zeta. rewrite Hp2.
  destruct ((q2 =? q1) && bool_decide (nd_last nd1 = nd_last nd2)) eqn:Hsame.
  { erewrite M_bind_step by (eapply unlock_run; exact Hi2). by rewrite Ey. }
  clear Hsame. destruct (Z.eqb_spec q2 q1) as [E|Hqq].
  - erewrite M_bind_step by reflexivity. assert (VfsWalk.st y {[i_ino i2]} = VfsWalk.st y ({[i_ino i1]} ∪ {[i_ino i2]})) as ->; [|done].
    rewrite E, Hi1 in Hi2. injection Hi2 as <-. f_equal. set_solver.
  - assert (i_ino i1 <> i_ino i2) as Hine by (by apply (dv_apart _ _ _ Hd q1 q2)).
    erewrite M_bind_step; [|apply on_fs_run; unfold lock_inode; erewrite M_bind_step by (apply rd_inode_eq; exact Hi1);
      unfold inode_lock; rewrite decide_False by (change (i_ino i1 ∉ ({[i_ino i2]} : gset Z)); set_solver); reflexivity].
    done.
Qed.

(** The old name is missing, or the new one exists. *)
Lemma slotfs_rename_refused y D path1 names1 l1 q1 i1 k1 path2 names2 l2 q2 i2 k2 :
  dirs_inv sb (y_fs y) D -> cache_ok (y_fs y) -> locks y = ∅ ->
  live (y_fs y) (start_of y path1) k1 -> components path1 = names1 ++ [l1] -> resolves (y_fs y) D (start_of y path1) names1 (inl q1) ->
  live (y_fs y) (start_of y path2) k2 -> components path2 = names2 ++ [l2] -> resolves (y_fs y) D (start_of y path2) names2 (inl q2) ->
  q1 ∈ D -> q2 ∈ D -> inodes (y_fs y) !! q1 = Some i1 -> is_dir i1 = true -> inodes (y_fs y) !! q2 = Some i2 -> is_dir i2 = true ->
  no_entry (y_fs y) D q1 l1 \/ ((exists d, entry_at (y_fs y) D q1 l1 d) /\ exists d, entry_at (y_fs y) D q2 l2 d) ->
  exists e, slotfs_rename sb cpu now stray junk stk stk' fake_ts path1 path2 y = Ok (e, y) /\
    ((e = - EINVAL /\ q1 = q2 /\ l1 = l2) \/ (e = - ENOENT /\ no_entry (y_fs y) D q1 l1) \/ (e = - EEXIST /\ exists d, entry_at (y_fs y) D q2 l2 d)).
Proof.
  intros Hd Hc HL Hst1 Hcomp1 Hres1 Hst2 Hcomp2 Hres2 Hq1 Hq2 Hi1 Hdir1 Hi2 Hdir2 Hwhy.
  destruct (rename_parents y D path1 names1 l1 q1 i1 k1 path2 names2 l2 q2 i2 k2) as (nd1 & nd2 & Hl1 & Hl2 & Hlast & Hrun); try done.
  destruct ((q2 =? q1) && bool_decide (nd_last nd1 = nd_last nd2)) eqn:Hsame.
  { apply andb_true_iff in Hsame as [Hs1 Hs2]. apply Z.eqb_eq in Hs1. apply bool_decide_eq_true in Hs2. exists (- EINVAL). split; [done|]. left. auto. }
  destruct Hl1 as [E1 _], Hl2 as [E2 _]. set (L := {[i_ino i1]} ∪ {[i_ino i2]} : gset Z) in *. pose proof (dirs_inv_locks sb y D Hd (fun _ => L)) as Hd'.
  destruct (both_unlocked (VfsWalk.st y L) (y_fs (VfsWalk.st y L)) q1 i1 q2 i2 (- ENOENT) Hi1 Hi2 eq_refl) as (y1 & Hu1 & Ef1 & Er1 & Eh1).
  destruct (both_unlocked (VfsWalk.st y L) (y_fs (VfsWalk.st y L)) q1 i1 q2 i2 (- EEXIST) Hi1 Hi2 eq_refl) as (y2 & Hu2 & Ef2 & Er2 & Eh2).
  assert (forall z, y_fs z = upd_ilocks (fun _ => ∅) (y_fs (VfsWalk.st y L)) -> y_rt z = y_rt y -> y_heap z = y_heap y -> z = y) as Hz.
  { intros z F1 F2 F3. unfold locks in HL. destruct z as [zf zh zr], y as [yf yh yr]. cbn in F1, F2, F3, HL. subst. f_equal. destruct yf. unfold upd_ilocks. cbn in *. by rewrite HL. }
  assert (upd_y_fs (fun _ => y_fs (VfsWalk.st y L)) (VfsWalk.st y L) = VfsWalk.st y L) as Est by done.
  assert (no_entry (y_fs y) D q1 l1 -> rename_entries sb cpu fake_ts q1 q2 nd1 nd2 0 (VfsWalk.st y L) = Ok (- ENOENT, VfsWalk.st y L)) as Hent1.
  { intros Hno. unfold rename_entries. rewrite E1. by mstep (lookup_absent sb y D Hd L q1 l1 Hno). }
  destruct Hwhy as [Hno|((d & Hat) & d2 & Hat2)].
  - exists (- ENOENT). split; [|auto]. rewrite Hrun. mstep (Hent1 Hno). rewrite Est in Hu1. rewrite Hu1. by rewrite (Hz y1).
  - exists (- EEXIST). split; [|right; right; split; [done|by exists d2]].
    destruct (lookup_entry sb y D Hd L q1 l1 d Hat) as [Hf1 Hnz1]. destruct (lookup_entry sb y D Hd L q2 l2 d2 Hat2) as [Hf2 Hnz2].
    assert (rename_entries sb cpu fake_ts q1 q2 nd1 nd2 0 (VfsWalk.st y L) = Ok (- EEXIST, VfsWalk.st y L)) as Hent.
    { unfold rename_entries. rewrite E1, E2. mstep Hf1. rewrite (proj2 (Z.eqb_neq _ _) Hnz1). mstep Hf2. by rewrite (proj2 (Z.eqb_neq _ _) Hnz2). }
    rewrite Hrun. mstep Hent. rewrite Est in Hu2. rewrite Hu2. by rewrite (Hz y2).
Qed.

(** A parent is missing. *)
Lemma lookup_parent_fails stk0 y D path names l k e :
  dirs_inv sb (y_fs y) D -> cache_ok (y_fs y) -> locks y = ∅ -> live (y_fs y) (start_of y path) k ->
  components path = names ++ [l] -> parent_fails y D (start_of y path) names e ->
  exists nd nd', nameidata_init stk0 AT_FDCWD path 0 y = Ok (nd, y) /\ IS_ERR (nd_start nd) = false /\
    lookup sb now stray junk (with_parent nd) y = Ok ((e, nd'), y).
Proof.
  intros Hd Hc HL Hst Hcomp Hf. destruct (nameidata_init_run stk0 y path 0) as (nd & Hnd & Hp & Hs & _).
  exists nd. assert (IS_ERR (nd_start nd) = false) as He by (rewrite Hs; by eapply live_not_err).
  destruct (path_lookup_fails sb now stray junk y D Hd Hc (with_parent nd) k names l e HL) as (nd' & Hw);
    [by rewrite <- Hs in Hst|by rewrite <- Hp in Hcomp|by rewrite <- Hs in Hf|]. by exists nd'.
Qed.
Lemma slotfs_rename_old_fails y D path1 names1 l1 k1 path2 e :
  dirs_inv sb (y_fs y) D -> cache_ok (y_fs y) -> locks y = ∅ -> live (y_fs y) (start_of y path1) k1 -> components path1 = names1 ++ [l1] ->
  parent_fails y D (start_of y path1) names1 e -> e <> 0 -> slotfs_rename sb cpu now stray junk stk stk' fake_ts path1 path2 y = Ok (e, y).
Proof.
  intros Hd Hc HL Hst Hcomp Hf Hne. destruct (lookup_parent_fails stk y D path1 names1 l1 k1 e) as (n1 & nd1 & Hn1 & He1 & Hw1); try done.
  unfold slotfs_rename. erewrite M_bind_step by exact Hn1. rewrite He1. erewrite M_bind_step by exact Hw1. cbv beta iota. by rewrite (proj2 (Z.eqb_neq _ _) Hne).
Qed.
Lemma slotfs_rename_new_fails y D path1 names1 l1 q1 i1 k1 path2 names2 l2 k2 e :
  dirs_inv sb (y_fs y) D -> cache_ok (y_fs y) -> locks y = ∅ ->
  live (y_fs y) (start_of y path1) k1 -> components path1 = names1 ++ [l1] -> resolves (y_fs y) D (start_of y path1) names1 (inl q1) ->
  inodes (y_fs y) !! q1 = Some i1 -> is_dir i1 = true -> live (y_fs y) (start_of y path2) k2 -> components path2 = names2 ++ [l2] ->
  parent_fails y D (start_of y path2) names2 e -> e <> 0 -> slotfs_rename sb cpu now stray junk stk stk' fake_ts path1 path2 y = Ok (e, y).
Proof.
  intros Hd Hc HL Hst1 Hcomp1 Hres1 Hi1 Hdir1 Hst2 Hcomp2 Hf Hne.
  destruct (lookup_parent_run stk y D path1 names1 l1 q1 i1 k1) as (n1 & nd1 & Hn1 & He1 & Hw1 & Hp1 & _); try done.
  destruct (lookup_parent_fails stk' y D path2 names2 l2 k2 e) as (n2 & nd2 & Hn2 & He2 & Hw2); try done.
  unfold slotfs_rename. erewrite M_bind_step by exact Hn1. rewrite He1. erewrite M_bind_step by exact Hw1. cbn [negb Z.eqb].
  rewrite Hp1. erewrite M_bind_step by (eapply unlock_run; exact Hi1).
  assert (upd_y_fs (upd_ilocks (fun l => l ∖ {[i_ino i1]})) (VfsWalk.st y {[i_ino i1]}) = y) as ->.
  { pose proof (unlocked y (i_ino i1) (fun s => s) HL ltac:(done)) as Hu. destruct y. exact Hu. }
  erewrite M_bind_step by exact Hn2. rewrite He2. erewrite M_bind_step by exact Hw2. cbv beta iota. by rewrite (proj2 (Z.eqb_neq _ _) Hne).
Qed.

Lemma slotfs_rename_run y D path1 names1 l1 q1 k1 path2 names2 l2 q2 k2 :
  dirs_inv sb (y_fs y) D -> cache_ok (y_fs y) -> locks y = ∅ ->
  live (y_fs y) (start_of y path1) k1 -> components path1 = names1 ++ [l1] ->
  resolves (y_fs y) D (start_of y path1) names1 (inl q1) ->
  live (y_fs y) (start_of y path2) k2 -> components path2 = names2 ++ [l2] ->
  resolves (y_fs y) D (start_of y path2) names2 (inl q2) ->
  rename_ready (y_fs y) D q1 l1 q2 l2 ->
  exists y', y_rt y' = y_rt y /\ slotfs_rename sb cpu now stray junk stk stk' fake_ts path1 path2 y = Ok (0, y') /\
    dirs_inv sb (y_fs y') D /\ moved (y_fs y) (y_fs y') D q1 (BKDRHash l1) q2 (BKDRHash l2) /\
    locks y' = ∅ /\ serial (jnl_mgr (y_fs y')) /\ rest_same (y_fs y) (y_fs y') /\ forall P, keeps sb D P (y_fs y) (y_fs y').
Proof.
  intros Hd Hc HL Hst1 Hcomp1 Hres1 Hst2 Hcomp2 Hres2 Hrdy.
  destruct (rr_old _ _ _ _ _ _ Hrdy) as (d & Hq1 & i1 & Hi1 & Hdir1 & Hin1 & Hh1). destruct (rr_new _ _ _ _ _ _ Hrdy) as (Hq2 & i2 & Hi2 & Hdir2 & Hno).
  destruct (rename_parents y D path1 names1 l1 q1 i1 k1 path2 names2 l2 q2 i2 k2) as (nd1 & nd2 & Hl1 & Hl2 & Hlast & Hrn); try done.
  rewrite (proj2 (andb_false_iff (q2 =? q1) _)) in Hrn.
  2: { destruct (Z.eqb_spec q2 q1) as [->|]; [right|by left]. apply bool_decide_eq_false. intros E. rewrite Hi1 in Hi2. injection Hi2 as <-.
    apply (Hno d Hin1). by rewrite Hh1, (Hlast E). }
  set (L := {[i_ino i1]} ∪ {[i_ino i2]} : gset Z).
  destruct (rename_entries_spec (VfsWalk.st y L) D q1 l1 q2 l2 nd1 nd2) as (s' & Hrun & Hinv' & Hser' & Hmv & Hrs & Hkp);
    [by apply dirs_inv_locks|by apply rename_ready_locks|done|done|].
  pose proof Hrs as (EL & _ & _ & _ & _ & Hino). destruct (Hino q1 i1 Hi1) as (j1 & Hj1 & E1 & _). destruct (Hino q2 i2 Hi2) as (j2 & Hj2 & E2 & _).
  destruct (both_unlocked (VfsWalk.st y L) s' q1 j1 q2 j2 0 Hj1 Hj2) as (y' & Hun & Ey' & Er' & _); [rewrite E1, E2; exact EL|].
  exists y'. split; [exact Er'|]. split_and!.
  - rewrite Hrn. erewrite M_bind_step by exact Hrun. exact Hun.
  - rewrite Ey'. by apply (dirs_inv_low sb Hlo s'); try apply (so_mem _ _ (dv_shared _ _ _ Hinv')).
  - intros q h Hq. rewrite Ey'. rewrite (entry_ino_frame sb s' _ D q h Hinv') by (try done; by apply (dirs_inv_low sb Hlo s'); try apply (so_mem _ _ (dv_shared _ _ _ Hinv'))).
    rewrite (Hmv q h Hq). rewrite !(entry_ino_frame sb (y_fs y) (y_fs (VfsWalk.st y L)) D _ _ Hd) by (try done; by apply dirs_inv_locks). done.
  - unfold locks. by rewrite Ey'.
  - by rewrite Ey'.
  - rewrite Ey'. destruct Hrs as (_ & R2 & R3 & R4 & R5 & R6). split_and!; try done.
  - intros P. rewrite Ey'. apply (keeps_trans sb D P _ (y_fs (VfsWalk.st y L)) _); [|apply (keeps_trans sb D P _ s' _); [apply Hkp|]].
    + apply (fs_low sb Hlo); try done. apply (so_mem _ _ (dv_shared _ _ _ Hd)).
    + apply (fs_low sb Hlo); try done. apply (so_mem _ _ (dv_shared _ _ _ Hinv')).
Qed.

End rename.
