(* ===== verification/Replay.v ===== *)
(** * Replaying the journal (src/slotfs/journal.c)

    A rename journal is a redo record: the numbers of the two directories and
    the two names.  Replaying it finishes the rename from wherever the crash
    interrupted it.  [journal_replay] goes through the journals of the device;
    it hands the relative address of a journal to the functions that expect a
    pointer, so that the first valid journal makes it fault. *)
From stdpp Require Import base numbers list gmap.
From S2P Require Import Prelude Slot Btree Rbtree RbErase DirIndex Pm Mkfs Heap Fs Journal Dir DirView File.
From S2P Require Import Runtime Vfs VfsLocks VfsWalk Func FuncFile FuncRename.
Local Open Scope Z_scope.

Section replay.
Context (sb : pm_super_block) (cpu now stray : Z) (junk : mem) (fake_ts : Z).

(** [jnl] is a pointer; the device is mapped at [DAX_START] for [size] bytes. *)
Definition journal_replay_rename (size jnl : Z) : M fs Z :=
  j ← lift (abs2rel size jnl);
  op ← pm_load (j + RJ_old_parent) 8;
  old_parent ← iget sb now stray junk (i64 op);
  np ← pm_load (j + RJ_new_parent) 8;
  new_parent ← iget sb now stray junk (i64 np);
  m ← gets (fun s => bytes (dev s));
  let old_name := mem_list m (j + RJ_old_name) (i32 (load m (j + RJ_old_len) 4)) in
  let new_name := mem_list m (j + RJ_new_name) (i32 (load m (j + RJ_new_len) 4)) in
  old_dirent ← dirent_lookup old_parent (BKDRHash old_name);
  new_dirent ← dirent_lookup new_parent (BKDRHash new_name);
  new_dirent ← (if new_dirent =? 0 then
                  if old_dirent =? 0 then throw AssertFail else
                  de ← rd_dirent old_dirent;
                  do_append_entry sb cpu new_parent (d_ino de) fake_ts (mret tt) new_name
                else mret 1);
  if IS_ERR new_dirent then mret (i32 new_dirent) else
  _ ← (if negb (old_dirent =? 0) then dir_remove_entry sb old_parent old_dirent else mret tt);
  mret 0.

Definition journal_replay_truncate (size jnl : Z) : M fs Z :=
  j ← lift (abs2rel size jnl);
  ino ← pm_load (j + TJ_ino) 8;
  inode ← iget sb now stray junk (i64 ino);
  n ← pm_load (j + TJ_size) 8;
  _ ← upd_inode inode (upd_i_size (fun _ => n));
  inode_resize sb cpu stray junk inode n.

(** The journals from [i] on; [n] of them remain. *)
Fixpoint replay_loop (size : Z) (n : nat) (i : Z) : M fs Z :=
  match n with
  | O => mret 0
  | S n' =>
      let jnl := JOURNAL_START + i * PAGE_SIZE in
      valid ← pm_load (jnl + J_valid) 1;
      if valid =? 0 then replay_loop size n' (i + 1) else
      type ← pm_load (jnl + J_type) 4;
      ret ← (if type =? JNL_WRITE then journal_replay_write size jnl
             else if type =? JNL_RENAME then journal_replay_rename size jnl
             else if type =? JNL_TRUNCATE then journal_replay_truncate size jnl
             else throw AssertFail);
      if negb (ret =? 0) then mret ret else
      _ ← pm_store (jnl + J_valid) 1 0;
      _ ← lift (abs2rel size jnl); (* flush_byte of jnl *)
      replay_loop size n' (i + 1)
  end.
Definition journal_replay (size : Z) : M fs Z := replay_loop size (Z.to_nat JOURNAL_NUM) 0.
End replay.

(** ** The record of a rename *)

(** The journal at [j] holds the numbers of the directories and the names. *)
Definition rename_on (m : mem) (j op np : Z) (l1 l2 : list Z) : Prop :=
  load m (j + RJ_old_parent) 8 = op /\ load m (j + RJ_new_parent) 8 = np /\
  load m (j + RJ_old_len) 4 = zlength l1 /\ load m (j + RJ_new_len) 4 = zlength l2 /\
  mem_list m (j + RJ_old_name) (zlength l1) = l1 /\ mem_list m (j + RJ_new_name) (zlength l2) = l2 /\
  name_ok l1 /\ name_ok l2.

(** The device after [journal_rename]. *)
Definition renamed (j op np : Z) (l1 l2 : list Z) (m : mem) : mem :=
  store (j + RJ_new_len) 4 (zlength l2) (memcpy (j + RJ_new_name) (list_mem l2) 0 (zlength l2)
    (store (j + RJ_old_len) 4 (zlength l1) (memcpy (j + RJ_old_name) (list_mem l1) 0 (zlength l1)
      (store (j + RJ_new_parent) 8 np (store (j + RJ_old_parent) 8 op
        (store (j + J_type) 4 JNL_RENAME (store (j + J_valid) 1 1 m))))))).

Lemma journal_rename_eq j op np l1 l2 s :
  exists p, journal_rename j op np (list_mem l1) 0 (zlength l1) (list_mem l2) 0 (zlength l2) s = Ok (tt, upd_dev (fun _ => p) s) /\
    bytes p = renamed j op np l1 l2 (bytes (dev s)).
Proof. eexists. split; [reflexivity|]. done. Qed.

(** Stores and copies next to a field leave it alone. *)
Ltac past := repeat (erewrite load_agree by (first [apply store_agree|apply memcpy_agree]; simpl; lia)).
Ltac past_list := repeat (erewrite mem_list_agree by (first [apply store_agree|apply memcpy_agree]; simpl; lia)).

Lemma renamed_on j op np l1 l2 m :
  0 <= op < 2 ^ 64 -> 0 <= np < 2 ^ 64 -> name_ok l1 -> name_ok l2 ->
  rename_on (renamed j op np l1 l2 m) j op np l1 l2 /\ renamed j op np l1 l2 m (j + J_valid) = 1 /\
  load (renamed j op np l1 l2 m) (j + J_type) 4 = JNL_RENAME.
Proof.
  intros Hop Hnp Hn1 Hn2. pose proof (zlength_nonneg l1). pose proof (zlength_nonneg l2). pose proof (proj1 Hn1) as L1. pose proof (proj1 Hn2) as L2.
  unfold MAX_NAME_LEN in *. unfold rename_on, renamed, J_valid, J_type, RJ_old_parent, RJ_new_parent, RJ_old_name, RJ_old_len, RJ_new_name, RJ_new_len, JNL_RENAME.
  split_and!; try done.
  - past. by apply load_store_u64.
  - past. by apply load_store_u64.
  - past. apply load_store_u32. lia.
  - past. apply load_store_u32. lia.
  - past_list. apply mem_list_memcpy.
  - past_list. apply mem_list_memcpy.
  - rewrite (store_agree _ _ _ _ (j + 0) 1), (memcpy_agree _ _ _ _ _ (j + 0) 1), (store_agree _ _ _ _ (j + 0) 1), (memcpy_agree _ _ _ _ _ (j + 0) 1) by (simpl; lia).
    rewrite !(store_agree _ _ _ _ (j + 0) 1) by (simpl; lia). unfold store. rewrite Z.sub_diag.
    destruct (Z.leb_spec (j + 0) (j + 0)), (Z.ltb_spec (j + 0) (j + 0 + Z.of_nat 1)); simpl; try lia. done.
  - past. by apply load_store_u32.
Qed.

(** ** Redoing a rename *)

Section redo.
Context (sb : pm_super_block) (cpu now stray : Z) (junk : mem) (fake_ts : Z).
Hypothesis Hlo : layout_ok sb.
Hypothesis Hcpu : 0 <= cpu.

(** The maps of the directories after the replay: the old name is gone, and
    the new one leads to what it led to already, or else to what the old name
    led to. *)
Definition redone (s s' : fs) (D : list Z) (q1 h1 q2 h2 : Z) : Prop :=
  forall q h, q ∈ D -> entry_ino s' q h =
    if decide (q = q1 /\ h = h1) then None else
    if decide (q = q2 /\ h = h2) then
      match entry_ino s q2 h2 with Some k => Some k | None => entry_ino s q1 h1 end
    else entry_ino s q h.

(** What the replay finds: the directories are cached and not locked, one of
    the names is there, and, should the new one be missing, there is room. *)
Record redo_ready (s : fs) (D : list Z) (op q1 : Z) (l1 : list Z) (np q2 : Z) (l2 : list Z) : Prop := {
  re_dirs : q1 ∈ D /\ q2 ∈ D;
  re_cached : (inode_table s !! op = Some q1) /\ (inode_table s !! np = Some q2);
  re_numbers : 0 <= op < 2 ^ 63 /\ 0 <= np < 2 ^ 63 /\ op <> np;
  re_locks : (op ∉ ilocks s) /\ (np ∉ ilocks s);
  re_kind : exists i, inodes s !! q2 = Some i /\ is_dir i = true;
  re_some : entry_ino s q1 (BKDRHash l1) <> None \/ entry_ino s q2 (BKDRHash l2) <> None;
  re_room : entry_ino s q2 (BKDRHash l2) = None ->
    (exists d l, entry_arena s = d :: l /\ d < 2 ^ 62) /\ (exists k, sa_valid (map_dir s) k /\ sa_used (map_dir s) k = false);
}.

(** What a lookup finds, in terms of the map. *)
Lemma lookup_view s D p h : dirs_inv sb s D -> p ∈ D ->
  exists a i, dirent_lookup p h s = Ok (a, s) /\ inodes s !! p = Some i /\
    (a = 0 -> entry_ino s p h = None /\ forall d, d ∈ i_list i -> hash_of s d <> h) /\
    (a <> 0 -> exists e, a ∈ i_list i /\ dirents s !! a = Some e /\ d_hash e = h /\ entry_ino s p h = Some (d_ino e)).
Proof.
  intros Hinv Hp. destruct (dir_at sb s D p Hinv Hp) as (i & Hi & Hok).
  destruct (dirent_lookup_spec sb s p i h Hi Hok) as (a & Ha & H1 & H0). exists a, i. split_and!; [done|done| |].
  - intros Hz. split; [|by apply H0]. apply (entry_ino_miss sb s p i); [done|done|by apply H0].
  - intros Hnz. destruct (H1 Hnz) as [Hin Hh]. destruct (do_objs _ _ _ Hok a Hin) as (_ & e & He & _). exists e.
    assert (d_hash e = h) as E by (unfold hash_of in Hh; by rewrite He in Hh). split_and!; [done|done|done|].
    rewrite <- E. by apply (entry_ino_hit sb s p i a e).
Qed.

Lemma iget_cached s k q : inode_table s !! k = Some q -> 0 <= k < 2 ^ 63 -> k ∉ ilocks s ->
  iget sb now stray junk (i64 k) s = Ok (q, upd_ilocks (fun l => {[k]} ∪ l) s).
Proof.
  intros Hq Hk Hl. unfold iget. cbv zeta. rewrite i64_small, u64_small by lia.
  erewrite M_bind_step by (unfold inode_lock; rewrite decide_False by exact Hl; reflexivity). mstep eq_refl. fsimpl. by rewrite Hq.
Qed.

(** The two lookups and the updates, after the inodes have been locked. *)
Definition redo_entries (q1 q2 h1 h2 : Z) (name : list Z) : M fs Z :=
  old_dirent ← dirent_lookup q1 h1;
  new_dirent ← dirent_lookup q2 h2;
  new_dirent ← (if new_dirent =? 0 then
                  if old_dirent =? 0 then throw AssertFail else
                  de ← rd_dirent old_dirent;
                  do_append_entry sb cpu q2 (d_ino de) fake_ts (mret tt) name
                else mret 1);
  if IS_ERR new_dirent then mret (i32 new_dirent) else
  _ ← (if negb (old_dirent =? 0) then dir_remove_entry sb q1 old_dirent else mret tt);
  mret 0.

Lemma redo_entries_spec s D q1 h1 q2 l2 :
  dirs_inv sb s D -> q1 ∈ D -> q2 ∈ D -> name_ok l2 -> (exists i, inodes s !! q2 = Some i /\ is_dir i = true) ->
  (entry_ino s q1 h1 <> None \/ entry_ino s q2 (BKDRHash l2) <> None) ->
  (entry_ino s q2 (BKDRHash l2) = None ->
    (exists d l, entry_arena s = d :: l /\ d < 2 ^ 62) /\ (exists k, sa_valid (map_dir s) k /\ sa_used (map_dir s) k = false)) ->
  exists s', redo_entries q1 q2 h1 (BKDRHash l2) l2 s = Ok (0, s') /\ dirs_inv sb s' D /\
    redone s s' D q1 h1 q2 (BKDRHash l2) /\ jnl_mgr s' = jnl_mgr s /\ rest_same s s'.
Proof.
  intros Hinv Hq1 Hq2 Hn (i2 & Hi2 & Hdir) Hsome Hroom.
  destruct (lookup_view s D q1 h1 Hinv Hq1) as (d & i1 & Hd & Hi1 & Hd0 & Hd1).
  destruct (lookup_view s D q2 (BKDRHash l2) Hinv Hq2) as (d2 & i2' & Hd2 & Hi2' & Hd20 & Hd21). rewrite Hi2 in Hi2'. injection Hi2' as <-.
  unfold redo_entries. rewrite (M_bind_step _ _ _ _ _ Hd), (M_bind_step _ _ _ _ _ Hd2).
  destruct (Z.eqb_spec d2 0) as [E2|E2].
  - destruct (Hd20 E2) as [En Hno]. destruct (Hroom En) as [Hobj Hslot].
    assert (d <> 0) as Hdz by (intros E; destruct (Hd0 E); destruct Hsome; congruence).
    rewrite (proj2 (Z.eqb_neq d 0)) by done. destruct (Hd1 Hdz) as (e & Hin & He & Eh & Ee).
    destruct (append_then_remove sb cpu fake_ts Hlo Hcpu s D q1 i1 d e q2 l2) as (d3 & s1 & s2 & Ha & Herr & Hr & Hinv2 & Hmv & Hj & Hrs & _); try done.
    { split; [done|]. by exists i2. }
    exists s2. split_and!; try done.
    + erewrite M_bind_step by (erewrite M_bind_step by (apply rd_dirent_eq; exact He); exact Ha). rewrite Herr. cbn [negb].
      by erewrite M_bind_step by exact Hr.
    + intros q h Hq. rewrite (Hmv q h Hq), Eh, En. done.
  - destruct (Hd21 E2) as (e2 & _ & _ & _ & Ee2). erewrite M_bind_step by reflexivity. change (IS_ERR 1) with false. cbv iota.
    destruct (Z.eqb_spec d 0) as [E1|E1]; cbn [negb].
    + exists s. split_and!; try done; [|by split_and!; eauto]. destruct (Hd0 E1) as [En _]. intros q h Hq. rewrite Ee2.
      destruct (decide (q = q1 /\ h = h1)) as [[-> ->]|]; [done|]. destruct (decide (q = q2 /\ h = BKDRHash l2)) as [[-> ->]|]; done.
    + destruct (Hd1 E1) as (e & Hin & He & Eh & Ee). destruct (dir_remove_spec sb Hlo s D q1 i1 d e Hinv Hq1 Hi1 Hin He) as (s2 & Hr & Hinv2 & Hrem).
      pose proof Hrem as (j' & Hj' & Eino & _ & _ & _ & _ & _ & _ & Hfr). exists s2. split_and!; try done.
      * by erewrite M_bind_step by exact Hr.
      * intros q h Hq. rewrite (removed_view sb s s2 D q1 i1 d e q h), Eh, Ee2 by done.
        destruct (decide (q = q1 /\ h = h1)); [done|]. destruct (decide (q = q2 /\ h = BKDRHash l2)) as [[-> ->]|]; done.
      * by apply (fr_jnl _ _ _ _ Hfr).
      * by eapply rest_same_frame.
Qed.

Lemma replay_rename_run size j s D op q1 l1 np q2 l2 :
  0 <= j < size -> DAX_START + size < 2 ^ 64 ->
  dirs_inv sb s D -> rename_on (bytes (dev s)) j op np l1 l2 -> redo_ready s D op q1 l1 np q2 l2 ->
  exists s', journal_replay_rename sb cpu now stray junk fake_ts size (REL2ABS j) s = Ok (0, s') /\
    dirs_inv sb s' D /\ redone s s' D q1 (BKDRHash l1) q2 (BKDRHash l2) /\
    jnl_mgr s' = jnl_mgr s /\ ilocks s' = {[np]} ∪ ({[op]} ∪ ilocks s).
Proof.
  intros Hj Hsz Hinv (R1 & R2 & R3 & R4 & R5 & R6 & Hn1 & Hn2) [[Hq1 Hq2] [Hc1 Hc2] (Ho & Hp & Hne) [Hl1 Hl2] Hkind Hsome Hroom].
  set (s1 := upd_ilocks (fun l => {[np]} ∪ l) (upd_ilocks (fun l => {[op]} ∪ l) s)).
  assert (dirs_inv sb s1 D) as Hinv1 by (apply (dirs_inv_low sb Hlo s); try done; apply (so_mem _ _ (dv_shared _ _ _ Hinv))).
  assert (forall q h, q ∈ D -> entry_ino s1 q h = entry_ino s q h) as Ev by (intros; by apply (entry_ino_frame sb s s1 D)).
  destruct (redo_entries_spec s1 D q1 (BKDRHash l1) q2 l2) as (s' & Hr & Hinv' & Hre & Ej & Hrs); try done;
    [by rewrite !Ev|by rewrite Ev|].
  exists s'. split_and!; try done.
  - unfold journal_replay_rename. erewrite M_bind_step by (unfold lift; by rewrite abs2rel_REL2ABS).
    erewrite M_bind_step by reflexivity. rewrite R1. erewrite M_bind_step by (by apply iget_cached).
    erewrite M_bind_step by reflexivity. fsimpl. rewrite R2. erewrite M_bind_step by (apply iget_cached; [done|done|fsimpl; rewrite not_elem_of_union, not_elem_of_singleton; done]).
    erewrite M_bind_step by reflexivity. cbv zeta. fsimpl. rewrite R3, R4.
    pose proof (proj1 Hn1). pose proof (proj1 Hn2). unfold MAX_NAME_LEN in *. pose proof (zlength_nonneg l1). pose proof (zlength_nonneg l2).
    rewrite !i32_small by lia. rewrite R5, R6. exact Hr.
  - intros q h Hq. rewrite (Hre q h Hq). by rewrite !Ev.
  - by destruct Hrs as (-> & _).
Qed.


(** A journal page outside the tables. *)
Lemma renamed_low j op np l1 l2 m x :
  name_ok l1 -> name_ok l2 -> j + PAGE_SIZE <= x -> renamed j op np l1 l2 m x = m x.
Proof.
  intros [Hn1 _] [Hn2 _] Hx. pose proof (zlength_nonneg l1). pose proof (zlength_nonneg l2). unfold MAX_NAME_LEN, PAGE_SIZE in *.
  unfold renamed, J_valid, J_type, RJ_old_parent, RJ_new_parent, RJ_old_name, RJ_old_len, RJ_new_name, RJ_new_len.
  rewrite (store_agree _ _ _ _ x 1) by (simpl; lia). rewrite (memcpy_agree _ _ _ _ _ x 1) by lia.
  rewrite (store_agree _ _ _ _ x 1) by (simpl; lia). rewrite (memcpy_agree _ _ _ _ _ x 1) by lia.
  by rewrite !(store_agree _ _ _ _ x 1) by (simpl; lia).
Qed.
Lemma list_mem_bytes l k : name_ok l -> 0 <= k < zlength l -> 0 <= list_mem l (0 + k) < 256.
Proof.
  intros [_ Hb] Hk. unfold list_mem, zlength in *. rewrite Z.add_0_l. rewrite Forall_lookup in Hb.
  destruct (lookup_lt_is_Some_2 l (Z.to_nat k)) as [x Hx]; [lia|]. rewrite Hx. simpl. by apply (Hb (Z.to_nat k)).
Qed.
Lemma renamed_bytes j op np l1 l2 m : name_ok l1 -> name_ok l2 -> mem_ok m -> mem_ok (renamed j op np l1 l2 m).
Proof.
  intros Hn1 Hn2 Hm. apply store_ok, memcpy_bytes; [|intros; by apply list_mem_bytes].
  apply store_ok, memcpy_bytes; [|intros; by apply list_mem_bytes]. by repeat apply store_ok.
Qed.


(** ** The loop over the journals *)

(** Replaying a journal through its relative address leaves the mapping. *)
Lemma replay_relative size i s : 0 <= i < JOURNAL_NUM ->
  let jnl := JOURNAL_START + i * PAGE_SIZE in
  journal_replay_write size jnl s = Fault BadPointer /\
  journal_replay_rename sb cpu now stray junk fake_ts size jnl s = Fault BadPointer /\
  journal_replay_truncate sb cpu now stray junk size jnl s = Fault BadPointer.
Proof.
  intros Hi jnl. assert (abs2rel size jnl = Fault BadPointer) as E.
  { unfold abs2rel. assert (jnl < DAX_START) by (unfold jnl; change JOURNAL_START with 8192; unfold JOURNAL_NUM, PAGE_SIZE, DAX_START in *; lia).
    destruct (Z.leb_spec DAX_START jnl); [lia|done]. }
  unfold journal_replay_write, journal_replay_rename, journal_replay_truncate.
  split_and!; apply M_bind_fault; unfold lift; by rewrite E.
Qed.

Lemma load_byte m a : load m a 1 = m a.
Proof. unfold load. lia. Qed.
Lemma replay_loop_spec size n i s : 0 <= i -> i + Z.of_nat n <= JOURNAL_NUM ->
  ((forall k, i <= k < i + Z.of_nat n -> bytes (dev s) (JOURNAL_START + k * PAGE_SIZE + J_valid) = 0) ->
    replay_loop sb cpu now stray junk fake_ts size n i s = Ok (0, s)) /\
  ((exists k, i <= k < i + Z.of_nat n /\ bytes (dev s) (JOURNAL_START + k * PAGE_SIZE + J_valid) <> 0) ->
    exists f, replay_loop sb cpu now stray junk fake_ts size n i s = Fault f).
Proof.
  revert i. induction n as [|n IH]; intros i Hi Hn; [split; [done|intros (k & ? & _); lia]|].
  destruct (IH (i + 1) ltac:(lia) ltac:(lia)) as [IH0 IH1]. cbn [replay_loop]. cbv zeta. erewrite M_bind_step by reflexivity.
  rewrite load_byte. set (v := bytes (dev s) (JOURNAL_START + i * PAGE_SIZE + J_valid)). destruct (Z.eqb_spec v 0) as [Ev|Ev].
  - split; intros H; [apply IH0; intros; apply H; lia|]. apply IH1. destruct H as (k & Hk & Hv). exists k. split; [|done].
    destruct (decide (k = i)) as [->|]; [done|lia].
  - split; intros H; [exfalso; apply Ev, H; lia|]. exists (if decide (1 <= load (bytes (dev s)) (JOURNAL_START + i * PAGE_SIZE + J_type) 4 <= 3) then BadPointer else AssertFail).
    erewrite M_bind_step by reflexivity. apply M_bind_fault. set (t := load _ _ _).
    destruct (replay_relative size i s ltac:(lia)) as (F1 & F2 & F3). unfold JNL_WRITE, JNL_RENAME, JNL_TRUNCATE.
    destruct (Z.eqb_spec t 1); [by rewrite decide_True by lia|]. destruct (Z.eqb_spec t 2); [by rewrite decide_True by lia|].
    destruct (Z.eqb_spec t 3); [by rewrite decide_True by lia|]. by rewrite decide_False by lia.
Qed.

(** C32: [journal_replay] returns exactly when no journal is valid, and then
    it returns 0 and has changed nothing; a valid journal ends it with a fault,
    because the loop hands the relative address of the journal on as a pointer. *)
Theorem journal_replay_idle size s r s' :
  journal_replay sb cpu now stray junk fake_ts size s = Ok (r, s') <->
  r = 0 /\ s' = s /\ forall k, 0 <= k < JOURNAL_NUM -> bytes (dev s) (JOURNAL_START + k * PAGE_SIZE + J_valid) = 0.
Proof.
  unfold journal_replay. destruct (replay_loop_spec size (Z.to_nat JOURNAL_NUM) 0 s) as [H0 H1]; [lia|done|].
  rewrite Z2Nat.id in H0, H1 by done. split.
  - intros H. assert (forall k, 0 <= k < JOURNAL_NUM -> bytes (dev s) (JOURNAL_START + k * PAGE_SIZE + J_valid) = 0) as Hz.
    { intros k Hk. destruct (decide (bytes (dev s) (JOURNAL_START + k * PAGE_SIZE + J_valid) = 0)) as [|Hv]; [done|].
      destruct H1 as (f & Hf); [by exists k|]. rewrite Hf in H. done. }
    rewrite H0 in H by done. by injection H as <- <-.
  - intros (-> & -> & H). by apply H0.
Qed.
(** ** Where the replay does not do what it means to *)

(** A rename within one directory: the replay locks the directory twice. *)
Theorem journal_replay_rename_deadlock size j s op q l1 l2 :
  0 <= j < size -> DAX_START + size < 2 ^ 64 -> rename_on (bytes (dev s)) j op op l1 l2 ->
  inode_table s !! op = Some q -> 0 <= op < 2 ^ 63 -> op ∉ ilocks s ->
  journal_replay_rename sb cpu now stray junk fake_ts size (REL2ABS j) s = Fault Deadlock.
Proof.
  intros Hj Hsz (R1 & R2 & _) Hq Ho Hl. unfold journal_replay_rename.
  erewrite M_bind_step by (unfold lift; by rewrite abs2rel_REL2ABS). erewrite M_bind_step by reflexivity. rewrite R1.
  erewrite M_bind_step by (by apply iget_cached). erewrite M_bind_step by reflexivity. fsimpl. rewrite R2.
  apply M_bind_fault. unfold iget. cbv zeta. rewrite i64_small, u64_small by lia. apply M_bind_fault.
  unfold inode_lock. rewrite decide_True; [done|]. fsimpl. apply elem_of_union. left. by apply elem_of_singleton.
Qed.

(** The replay of a truncation sets the size first; [inode_resize] then sees
    nothing to do, and the blocks behind the new end stay. *)
Theorem journal_replay_truncate_keeps_blocks size j s k q i :
  0 <= j < size -> DAX_START + size < 2 ^ 64 -> load (bytes (dev s)) (j + TJ_ino) 8 = k ->
  inode_table s !! k = Some q -> 0 <= k < 2 ^ 63 -> k ∉ ilocks s -> inodes s !! q = Some i ->
  journal_replay_truncate sb cpu now stray junk size (REL2ABS j) s =
  Ok (0, upd_inodes <[q := upd_i_size (fun _ => load (bytes (dev s)) (j + TJ_size) 8) i]> (upd_ilocks (fun l => {[k]} ∪ l) s)).
Proof.
  intros Hj Hsz R Hq Hk Hl Hi. unfold journal_replay_truncate.
  erewrite M_bind_step by (unfold lift; by rewrite abs2rel_REL2ABS). erewrite M_bind_step by reflexivity. rewrite R.
  erewrite M_bind_step by (by apply iget_cached). erewrite M_bind_step by reflexivity. fsimpl.
  set (n := load (bytes (dev s)) (j + TJ_size) 8).
  erewrite M_bind_step by (apply upd_inode_eq; fsimpl; exact Hi). unfold inode_resize.
  erewrite M_bind_step by (apply rd_inode_eq; fsimpl; apply lookup_insert_eq). cbn [i_size upd_i_size]. by rewrite Z.eqb_refl.
Qed.
End redo.

(** ** An example *)

(** The empty directories 0 and 6. *)
Definition second_dir : dram_inode :=
  mk_inode 6 0 0 0 0 1 16877 0 0 0 0 (mk_tree 0 ∅) 0 0 ∅ (mk_ptr 0 0 0) 0 0 2 2 [] [].
Definition two_mem : mem := store (1077248 + 128 * 6 + PI_log_head) 8 2 example_mem.
Definition two_fs : fs :=
  mk_fs (mk_pmem two_mem [])
    [example_map [1; 0; 0; 0; 0; 0; 0; 0] 64 1] [example_map [7; 0; 0; 0; 0; 0; 0; 0] 64 3]
    [example_map [1; 0; 0; 0; 0; 0; 0; 0] 64 1] [example_map [1; 0; 0; 0; 0; 0; 0; 0] 64 1]
    {[4096 := example_root; 8192 := second_dir]} ∅ ∅ [] [65536; 65664; 65792] [] {[0 := 4096; 6 := 8192]} ∅ []
    journal_mgr_init [] 0 4096.

Lemma two_next k : 0 <= k < 64 -> dent_next example_sb two_mem k = 0.
Proof.
  intros Hk. rewrite <- (example_next k Hk). unfold dent_next. rewrite (IDX2DENT_eq example_sb example_layout) by done.
  simpl slot_table. f_equal. apply load_agree. apply store_agree; unfold PI_log_head, PD_next; simpl; lia.
Qed.
Lemma two_ok i : i = example_root \/ i = second_dir -> dir_ok example_sb two_fs i.
Proof.
  intros Hi. assert (i_list i = [] /\ rb_root i = mk_tree 0 ∅ /\ 0 <= i_ino i < 64 /\ ghost_slot i = log_head i /\ (ghost_slot i = 1 \/ ghost_slot i = 2) /\
    pm_head example_sb two_mem (i_ino i) = log_head i) as (El & Er & Hino & Eg & Hg & Eh).
  { destruct Hi as [-> | ->]; (split_and!; [done|done|simpl; lia|simpl; lia|done|simpl; auto|by vm_compute]). }
  assert (slots two_fs i = [ghost_slot i]) as Es by (unfold slots; by rewrite El).
  constructor; rewrite ?Es, ?El, ?Er.
  - exact Hino.
  - exists []. split; [apply index_rep_empty|done].
  - by intros d ?%elem_of_nil.
  - apply NoDup_singleton.
  - intros k ->%list_elem_of_singleton. destruct Hg as [-> | ->]; (split; [simpl; lia|done]).
  - by rewrite Eg.
  - split; [by rewrite Eg|]. apply two_next. destruct Hg as [-> | ->]; lia.
Qed.
Lemma two_inv : dirs_inv example_sb two_fs [4096; 8192].
Proof.
  assert (forall p, p ∈ [4096; 8192] -> exists i, inodes two_fs !! p = Some i /\ (i = example_root /\ p = 4096 \/ i = second_dir /\ p = 8192)) as Hat.
  { intros p [-> | ->%list_elem_of_singleton]%elem_of_cons; eexists; (split; [reflexivity|]); auto. }
  constructor.
  - constructor.
    + change (maps_wf 1 [example_map [7; 0; 0; 0; 0; 0; 0; 0] 64 3]). example_wf.
    + intros k. apply single_map_valid. done.
    + done.
    + intros k Hk _. by apply two_next.
    + repeat (apply NoDup_cons; split; [rewrite ?elem_of_cons, elem_of_nil; lia|]). apply NoDup_nil_2.
    + intros d. cbn. rewrite !elem_of_cons, elem_of_nil. intros [->|[->|[->|[]]]]; done.
    + apply store_ok, store_ok. intros x. lia.
  - intros p Hp. destruct (Hat p Hp) as (i & Hi & [[-> _]|[-> _]]); eexists; (split; [exact Hi|]); apply two_ok; auto.
  - intros p q i j Hp Hq Hne Hi Hj. destruct (Hat p Hp) as (i' & Hi' & Ei), (Hat q Hq) as (j' & Hj' & Ej).
    rewrite Hi in Hi'. rewrite Hj in Hj'. injection Hi' as <-. injection Hj' as <-.
    destruct Ei as [[-> ->]|[-> ->]], Ej as [[-> ->]|[-> ->]]; try done;
      (split_and!; [done|intros k ->%list_elem_of_singleton; by intros [=]%list_elem_of_singleton|by intros d ?%elem_of_nil]).
Qed.

(** The directory 0 has the name [ab] for the inode 5. *)
Definition two_dirs : fs :=
  match do_append_entry example_sb 0 4096 5 0 (mret tt) [97; 98] two_fs with Ok (_, s) => s | Fault _ => two_fs end.

Lemma two_dirs_view :
  dirs_inv example_sb two_dirs [4096; 8192] /\
  forall q h, q ∈ [4096; 8192] -> entry_ino two_dirs q h = if decide (q = 4096 /\ h = BKDRHash [97; 98]) then Some 5 else None.
Proof.
  destruct (bumps_none two_fs) as (q0 & Hb).
  destruct (do_append_spec example_sb 0 example_layout ltac:(lia) two_fs [4096; 8192] 4096 example_root 5 0 (mret tt) q0 [97; 98] 65536 [65664; 65792])
    as (s & Hs & Hinv & Happ); [exact two_inv|by left|done|done|exact Hb|apply example_name|lia|by intros x ?%elem_of_nil| |].
  { exists 3. split; [by apply (single_map_valid (example_map [7; 0; 0; 0; 0; 0; 0; 0] 64 3))|done]. }
  unfold two_dirs. rewrite Hs. split; [exact Hinv|]. intros q h Hq.
  rewrite (appended_view example_sb example_layout two_fs s [4096; 8192] 4096 example_root 65536 [65664; 65792] 5 0 [97; 98] q h) by
    first [exact two_inv|exact Hinv|exact Happ|exact Hq|reflexivity|by left].
  destruct (decide _); [reflexivity|]. apply elem_of_cons in Hq as [->|Hq%list_elem_of_singleton].
  - apply (entry_ino_miss example_sb two_fs 4096 example_root); [done|apply two_ok; by left|by intros d ?%elem_of_nil].
  - subst q. apply (entry_ino_miss example_sb two_fs 8192 second_dir); [done|apply two_ok; by right|by intros d ?%elem_of_nil].
Qed.
Lemma two_dirs_parts : inode_table two_dirs = {[0 := 4096; 6 := 8192]} /\ ilocks two_dirs = ∅ /\ entry_arena two_dirs = [65664; 65792] /\
  map_dir two_dirs = [example_map [15; 0; 0; 0; 0; 0; 0; 0] 64 4] /\ (inodes two_dirs !! 8192 = Some second_dir).
Proof. vm_compute. done. Qed.

Opaque two_dirs.
Lemma replay_ready : redo_ready two_dirs [4096; 8192] 0 4096 [97; 98] 6 8192 [99].
Proof.
  destruct two_dirs_parts as (Et & El & Ea & Em & Ei). destruct two_dirs_view as [_ Hv]. constructor.
  - split; [by left|right; by left].
  - rewrite Et. split; reflexivity.
  - lia.
  - rewrite El. split; apply not_elem_of_empty.
  - exists second_dir. split; [exact Ei|reflexivity].
  - left. rewrite Hv by by left. rewrite (decide_True _ _ (conj eq_refl eq_refl)). discriminate.
  - intros _. split; [exists 65664, [65792]; split; [exact Ea|lia]|]. rewrite Em. exists 4.
    split; [apply (single_map_valid (example_map [15; 0; 0; 0; 0; 0; 0; 0] 64 4)); [reflexivity|lia]|reflexivity].
Qed.
Lemma two_name : name_ok [99].
Proof. split; [done|]. repeat (constructor; [lia|]). constructor. Qed.

(** The device with a journal in its third page. *)
Definition two_journalled : fs := upd_dev (fun p => mk_pmem (renamed 16384 0 6 [97; 98] [99] (bytes p)) []) two_dirs.


