(* ===== verification/Mount.v ===== *)
(** * Mounting and unmounting (src/slotfs/slotfs.c, shm.c)

    [slotfs_init] attaches a process: it maps the device and the shared memory,
    formats or recovers the device, and sets up the shared memory unless another
    process has.  [slotfs_exit] detaches it.  What the system calls return is the
    record [env].  The first start of a process is the initial state of all
    invariants of the file system. *)
From stdpp Require Import base numbers list gmap.
From S2P Require Import Prelude Bitops Slot Arena Btree Rbtree RbErase DirIndex Pm Heap Mkfs Shm Fs Journal Dir DirView File FileLog Recover RecoverThreads.
From S2P Require Import FileWrite Runtime Vfs VfsLocks VfsWalk FsInv Func FuncRename Replay.
Local Open Scope Z_scope.

(** ** config.h and the sizes of the structures *)

Definition SHM_BASE : Z := 0x700000000000.
Definition SHM_SIZE : Z := 2 * 1024 * 1024 * 1024.
Definition HEAP_SIZE : Z := 20 * 1024 * 1024.
Definition HEAP_START : Z := SHM_BASE + SHM_SIZE - HEAP_SIZE.
Definition BNODE_ARENA : Z := 256 * 1024 * 1024.
Definition INODE_ARENA : Z := 256 * 1024 * 1024.
Definition ENTRY_ARENA : Z := 1024 * 1024 * 1024.
Definition SIZEOF_DRAM_SB : Z := 1104.
Definition SIZEOF_INODE_ENTRY : Z := 16.
Definition SIZEOF_EBUF_MGR : Z := 1574920.
Definition SIZEOF_JNL_MGR : Z := 264.
Definition SIZEOF_BTREE_NODE : Z := 2080.
Definition SIZEOF_INODE : Z := 712.
Definition SIZEOF_ENTRY : Z := 80.
(** The offset of [umount] in [pm_sb_t]. *)
Definition SB_umount : Z := 232.

Definition STATUS_UNINIT : Z := 0.
Definition STATUS_INITING : Z := 1.
Definition STATUS_READY : Z := 2.
Definition STATUS_EXIT : Z := 3.

(** ** State *)

(** The rest of [dram_sb_t], with the file system, the heap and the runtime. *)
Record inst : Type := mk_inst {
  n_sys : sys;
  n_super : option pm_super_block;   (* sbi->super, None for NULL *)
  n_magic : Z;
  n_status : Z;
  n_user : Z;
  n_cpus : Z;
  n_device_size : Z;
}.

Definition upd_n_sys (f : sys -> sys) (n : inst) : inst :=
  mk_inst (f (n_sys n)) (n_super n) (n_magic n) (n_status n) (n_user n) (n_cpus n) (n_device_size n).
Definition upd_n_super (f : option pm_super_block -> option pm_super_block) (n : inst) : inst :=
  mk_inst (n_sys n) (f (n_super n)) (n_magic n) (n_status n) (n_user n) (n_cpus n) (n_device_size n).
Definition upd_n_magic (f : Z -> Z) (n : inst) : inst :=
  mk_inst (n_sys n) (n_super n) (f (n_magic n)) (n_status n) (n_user n) (n_cpus n) (n_device_size n).
Definition upd_n_status (f : Z -> Z) (n : inst) : inst :=
  mk_inst (n_sys n) (n_super n) (n_magic n) (f (n_status n)) (n_user n) (n_cpus n) (n_device_size n).
Definition upd_n_user (f : Z -> Z) (n : inst) : inst :=
  mk_inst (n_sys n) (n_super n) (n_magic n) (n_status n) (f (n_user n)) (n_cpus n) (n_device_size n).
Definition upd_n_cpus (f : Z -> Z) (n : inst) : inst :=
  mk_inst (n_sys n) (n_super n) (n_magic n) (n_status n) (n_user n) (f (n_cpus n)) (n_device_size n).
Definition upd_n_device_size (f : Z -> Z) (n : inst) : inst :=
  mk_inst (n_sys n) (n_super n) (n_magic n) (n_status n) (n_user n) (n_cpus n) (f (n_device_size n)).

Definition on_sys {A} (m : M sys A) : M inst A := zoom n_sys (fun y => upd_n_sys (fun _ => y)) m.
Definition on_nfs {A} (m : M fs A) : M inst A := on_sys (on_fs m).
(** An operation that reads [sbi->super]. *)
Definition with_super {A} (m : pm_super_block -> M sys A) : M inst A :=
  o ← gets n_super;
  match o with Some sb => on_sys (m sb) | None => throw NullDeref end.

(** [memset(sbi, 0, sizeof(dram_sb_t))]; the objects it points to stay. *)
Definition clear_sbi (n : inst) : inst :=
  mk_inst (upd_y_fs (fun s =>
    upd_map_inode (fun _ => []) (upd_map_dir (fun _ => []) (upd_map_file (fun _ => []) (upd_map_data (fun _ => [])
      (upd_inode_arena (fun _ => []) (upd_entry_arena (fun _ => []) (upd_btree_arena (fun _ => []) (upd_inode_table (fun _ => ∅)
        (upd_release_list (fun _ => []) (upd_ts (fun _ => 0) (upd_root (fun _ => 0) s))))))))))) (n_sys n)) None 0 0 0 0 0.

(** What the system and the C library return to one process. *)
Record env : Type := mk_env {
  e_dax_open : Z;      (* open of the device *)
  e_dax_mmap : Z;
  e_shm_exists : bool;      (* open of the shared memory's file works *)
  e_shm_create : Z;      (* shm_open with O_CREAT, and its ftruncate *)
  e_shm_create_size : Z;
  e_shm_open : Z;
  e_ftruncate : Z;
  e_shm_mmap : Z;
  e_cpus : Z;      (* sysconf(_SC_NPROCESSORS_CONF) *)
  e_calloc : bool;      (* calloc returns memory *)
  e_uid : Z;
  e_gid : Z;
  e_crash : option Z;      (* atoi of the environment variable SLOTFS_CRASH, if it is set *)
}.

Section mount.
Context (E : env) (pages_junk cpu now stray : Z) (junk : mem).
(** The memory of [recover] and the order of the steps of its threads. *)
Context (fresh : rc_inode) (fresh_ref : Z) (heap : list Z) (sched : list nat) (fake_ts : Z).

(** ** shm.c *)

(** [dram_start] after the maps of the kinds. *)
Definition bitmaps_end (base : Z) (maps : list (list dram_bitmap)) : Z :=
  fold_left (fun b l => ALIGN (fold_left (fun x d => x + zlength (dram d)) l b) PAGE_SIZE) maps base.

(** inode.h *)
Definition ebuf_mgr_init (l : list ebuf) : list ebuf :=
  imap (fun i e => mk_ebuf (eb_arr e) 0 EBUF_SIZE (Z.of_nat i) false) l.

(** [arena_init] of [size] bytes at [base]: the free items, as [Arena.v] proves. *)
Definition fresh_arena (base size item_size : Z) : list Z := items base item_size (Z.to_nat (size / item_size)).

Definition shm_init : M inst Z :=
  let base := SHM_BASE + SIZEOF_DRAM_SB in
  m ← gets (fun n => bytes (dev (y_fs (n_sys n))));
  let sb := load_sb m in
  _ ← modify (upd_n_super (fun _ => Some sb));
  _ ← modify (upd_n_device_size (fun _ => sb_size sb));
  _ ← on_nfs (modify (upd_ts (fun _ => sb_ts sb)));
  _ ← modify (upd_n_user (fun _ => 0));
  _ ← modify (upd_n_cpus (fun _ => e_cpus E));
  let base := ALIGN base PAGE_SIZE + 4 * PAGE_SIZE in
  _ ← on_nfs (modify (upd_release_list (fun _ => [])));
  '(mi, md, mf, mt) ← lift (shm_init_bitmap m sb);
  _ ← on_nfs (modify (fun s => upd_map_inode (fun _ => mi) (upd_map_dir (fun _ => md)
                                (upd_map_file (fun _ => mf) (upd_map_data (fun _ => mt) s)))));
  let base := ALIGN (bitmaps_end base [mi; md; mf; mt]) PAGE_SIZE in
  _ ← on_nfs (modify (fun s => upd_inode_table (fun _ => ∅) (upd_ilocks (fun _ => ∅) s)));
  let base := ALIGN (base + slot_num (sb_inode sb) * SIZEOF_INODE_ENTRY) PAGE_SIZE in
  _ ← on_nfs (modify (upd_ebuf_mgr ebuf_mgr_init));
  let base := ALIGN (base + SIZEOF_EBUF_MGR) PAGE_SIZE in
  _ ← on_nfs (modify (upd_jnl_mgr (fun _ => journal_mgr_init)));
  let base := ALIGN (base + SIZEOF_JNL_MGR) PAGE_SIZE in
  _ ← on_nfs (modify (upd_btree_arena (fun _ => fresh_arena base BNODE_ARENA SIZEOF_BTREE_NODE)));
  let base := base + BNODE_ARENA in
  _ ← on_nfs (modify (upd_inode_arena (fun _ => fresh_arena base INODE_ARENA SIZEOF_INODE)));
  let base := base + INODE_ARENA in
  _ ← on_nfs (modify (upd_entry_arena (fun _ => fresh_arena base ENTRY_ARENA SIZEOF_ENTRY)));
  let base := base + ENTRY_ARENA in
  if base >? HEAP_START then mret (-1) else
  h ← gets (fun n => y_heap (n_sys n));
  h ← lift (heap_init HEAP_START HEAP_SIZE (h_mem h));
  _ ← modify (upd_n_sys (upd_y_heap (fun _ => h)));
  _ ← modify (upd_n_magic (fun _ => SUPER_BLOCK_MAGIC));
  r ← on_nfs (iget sb now stray junk 0);
  _ ← on_nfs (modify (upd_root (fun _ => r)));
  _ ← on_nfs (inode_unlock 0);
  mret 0.

Definition shm_create : Z :=
  if e_shm_create E <? 0 then e_shm_create E else
  if e_shm_create_size E <? 0 then e_shm_create_size E else 0.

(** The contents of the shared memory are those of its file, in the state. *)
Definition shm_map : M inst Z :=
  let first := negb (e_shm_exists E) in
  let _ := if first then shm_create else 0 in
  if e_shm_open E <? 0 then throw AssertFail else
  if e_ftruncate E <? 0 then mret (e_ftruncate E) else
  if negb (e_shm_mmap E =? SHM_BASE) then mret (-1) else
  _ ← (if first then _ ← modify clear_sbi; modify (upd_n_status (fun _ => STATUS_UNINIT)) else mret tt);
  mret 0.

(** ** slotfs.c *)

Definition dax_map : M inst Z :=
  if e_dax_open E <? 0 then mret (-1) else
  if negb (e_dax_mmap E =? DAX_START) then throw AssertFail else
  mret 0.

(** The rest of the body is not reached. *)
Definition need_mkfs : Z := 1.

Definition need_recovery : M inst bool :=
  n ← get;
  if negb (n_status n =? STATUS_UNINIT) then mret false else
  u ← on_nfs (pm_load SB_umount 1);
  mret (u =? 0).

(** One round of [release_thread]; [false]: it ends. *)
Definition release_round : M inst bool :=
  n ← get;
  if n_status n =? STATUS_EXIT then mret false else
  match release_list (y_fs (n_sys n)) with
  | [] => mret true
  | inode :: l =>
      _ ← on_nfs (modify (upd_release_list (fun _ => l)));
      _ ← with_super (fun sb => on_fs (do_inode_release sb inode));
      mret true
  end.

(** [assert(ret == 0)]. *)
Definition assert0 (ret : Z) : M inst unit := if ret =? 0 then mret tt else throw AssertFail.

(** [recover] works on the device and on memory of the process. *)
Definition run_recover : M inst Z :=
  p ← gets (fun n => dev (y_fs (n_sys n)));
  '(ret, s) ← lift (recover (load_sb (bytes p)) stray fresh fresh_ref sched (rc_start p heap));
  _ ← on_nfs (modify (upd_dev (fun _ => rc_dev s)));
  mret ret.

(** The threads of [init_dramon] run [release_round]. *)
Definition init_dramon : M inst Z := mret 0.

(** The branch in which this process sets up the shared memory. *)
Definition init_first (recovered : bool) : M inst unit :=
  _ ← modify (upd_n_status (fun _ => STATUS_INITING));
  ret ← shm_init;
  _ ← assert0 ret;
  ret ← init_dramon;
  _ ← assert0 ret;
  _ ← (if recovered then
         ret ← with_super (fun sb => on_fs (journal_replay sb cpu now stray junk fake_ts DAX_SIZE));
         assert0 ret
       else mret tt);
  _ ← with_super (fun sb => runtime_init sb now stray junk (e_calloc E) (e_uid E) (e_gid E));
  modify (upd_n_status (fun _ => STATUS_READY)).

(** While another process is initialising, [slotfs_init] waits: the steps of
    other processes are not part of this function. *)
Definition slotfs_init : M inst Z :=
  ret ← dax_map;
  _ ← assert0 ret;
  ret ← shm_map;
  _ ← assert0 ret;
  _ ← (if negb (need_mkfs =? 0) then on_nfs (modify (upd_dev (mkfs pages_junk now))) else mret tt);
  need ← need_recovery;
  _ ← (if (need : bool) then ret ← run_recover; assert0 ret else mret tt);
  n ← get;
  if n_status n =? STATUS_INITING then throw OutOfFuel else
  _ ← (if n_status n =? STATUS_UNINIT then init_first need
       else with_super (fun sb => runtime_init sb now stray junk (e_calloc E) (e_uid E) (e_gid E)));
  _ ← modify (upd_n_user (fun u => i32 (u + 1)));
  _ ← on_nfs (pm_store SB_umount 1 0);
  mret 0.

Definition slotfs_exit : M inst unit :=
  _ ← modify (upd_n_user (fun u => i32 (u - 1)));
  _ ← with_super runtime_exit;
  n ← get;
  if n_user n >? 0 then mret tt else
  let crash := default 0 (e_crash E) in
  _ ← (if crash =? 0 then on_nfs (pm_store SB_umount 1 1) else mret tt);
  if n_user n =? 0 then modify (upd_n_status (fun _ => STATUS_EXIT)) else mret tt.
End mount.

(** ** The first mount after mkfs *)

Lemma hload_in h a n : h_start h <= a -> a + Z.of_nat n <= h_end h -> hload a n h = Ok (load (h_mem h) a n, h).
Proof. intros H1 H2. unfold hload, in_region. by rewrite (proj2 (Z.leb_le _ _) H1), (proj2 (Z.leb_le _ _) H2). Qed.
Lemma hstore_in h a n v : h_start h <= a -> a + Z.of_nat n <= h_end h -> hstore a n v h = Ok (tt, upd_mem (store a n v) h).
Proof. intros H1 H2. unfold hstore, in_region. by rewrite (proj2 (Z.leb_le _ _) H1), (proj2 (Z.leb_le _ _) H2). Qed.

(** One chunk: [heap_init] succeeds whatever the memory held. *)
Lemma heap_init_Ok R m : exists h, heap_init R HEAP_SIZE m = Ok h.
Proof.
  unfold heap_init. assert (u32 (HEAP_SIZE - SIZEOF_NODE - SIZEOF_FOOTER) = 20971488) as Ez by done.
  change HEAP_SIZE with 20971520 in *. unfold heap_init_body, set_hole, set_size, get_size, N_hole, N_size. rewrite Ez.
  erewrite M_bind_step by (apply hstore_in; cbn [h_start h_end upd_mem]; lia).
  erewrite M_bind_step by (apply hstore_in; cbn [h_start h_end upd_mem]; lia).
  set (h1 := upd_mem (store (R + 4) 4 20971488) _).
  assert (h_start h1 = R /\ h_end h1 = R + 20971520) as [Hs He] by done.
  assert (load (h_mem h1) (R + 4) 4 = 20971488) as E1 by (apply load_store_u32; lia). assert (bins h1 = replicate 32 0) as Eb by done.
  clearbody h1.
  assert (create_foot R h1 = Ok (tt, upd_mem (store (R + 20971512) 8 R) h1)) as Ef.
  { unfold create_foot, get_foot, get_size, N_size. erewrite M_bind_step by (erewrite M_bind_step by (apply hload_in; lia); reflexivity).
    rewrite E1. unfold SIZEOF_NODE. replace (R + 24 + 20971488) with (R + 20971512) by lia. apply hstore_in; lia. }
  erewrite M_bind_step by exact Ef. erewrite M_bind_step by (apply hload_in; cbn [h_start h_end upd_mem]; lia).
  cbn [h_mem upd_mem]. rewrite load_store_ne by lia. rewrite E1. change (get_bin_index 20971488) with 22.
  unfold add_node, set_next, set_prev, N_next, N_prev. erewrite M_bind_step by (apply hstore_in; cbn [h_start h_end upd_mem]; lia).
  erewrite M_bind_step by (apply hstore_in; cbn [h_start h_end upd_mem]; lia).
  assert (forall h, bins h = replicate 32 0 -> get_head 22 h = Ok (0, h)) as Eg by (intros h Hb; unfold get_head; mstep eq_refl; by rewrite Hb).
  erewrite M_bind_step by (apply Eg; exact Eb). cbn [Z.eqb]. unfold set_head. erewrite M_bind_step by reflexivity. cbn [bins upd_mem]. rewrite Eb.
  eexists. reflexivity.
Qed.

(** The inode of an empty directory, from the device. *)
Record empty_dir_inode (i : dram_inode) (k g n : Z) : Prop := {
  ed_ino : i_ino i = k;
  ed_dir : is_dir i = true;
  ed_list : i_list i = [];
  ed_tree : rb_root i = mk_tree 0 ∅;
  ed_head : log_head i = g;
  ed_ghost : ghost_slot i = g;
  ed_link : i_link i = n;
}.

Lemma at_init_header stray s p i :
  exists j, inode_init_header stray p 16877 (at_inode s p i) = Ok (tt, at_inode s p j) /\ i_list j = [] /\ rb_root j = mk_tree 0 ∅.
Proof.
  unfold inode_init_header. mstep (at_upd s p i (fun _ => zero_inode)). change (S_ISDIR_bit 16877) with true. cbv iota.
  do 5 (erewrite M_bind_step by apply at_upd). eexists. split; [apply at_upd|]. done.
Qed.

Lemma rebuild_empty_dir sb now stray junk s p i0 :
  let k := i_ino i0 in let m := bytes (dev s) in
  0 <= k < 2 ^ 63 -> load m (IDX2INODE sb k + PI_i_mode) 4 = 16877 -> load m (IDX2INODE sb k + PI_entry_num) 8 = 0 ->
  exists i, inode_rebuild sb now stray junk p (at_inode s p i0) = Ok (0, at_inode s p i) /\
    empty_dir_inode i k (i64 (load m (IDX2INODE sb k + PI_log_head) 8)) (load m (IDX2INODE sb k + PI_i_link) 8).
Proof.
  intros k m Hk Em En. unfold inode_rebuild. mstep (at_rd s p i0). cbv zeta. rewrite i64_small by (fold k; lia).
  erewrite M_bind_step by reflexivity. change (bytes (dev (at_inode s p i0))) with m. fold k. rewrite Em, En.
  destruct (at_init_header stray s p i0) as (j & Hj & E1 & E2). mstep Hj.
  do 11 (erewrite M_bind_step by apply at_upd). erewrite M_bind_step by apply at_rd.
  set (i1 := upd_entry_num _ _). assert (is_dir i1 = true) as -> by done. unfold dir_rebuild. mstep (at_rd s p i1).
  erewrite M_bind_step by apply at_upd. change (entry_num i1) with 0. change (Z.to_nat 0) with O. cbn [dir_rebuild_loop].
  eexists. split; [reflexivity|]. constructor; try done. cbn. by rewrite u64_small by lia.
Qed.

Lemma iget_empty_dir sb now stray junk k s p l :
  0 <= k < 2 ^ 63 -> k ∉ ilocks s -> inode_table s !! k = None -> inode_arena s = p :: l -> p <> 0 ->
  load (bytes (dev s)) (IDX2INODE sb k + PI_i_mode) 4 = 16877 -> load (bytes (dev s)) (IDX2INODE sb k + PI_entry_num) 8 = 0 ->
  exists i, empty_dir_inode i k (i64 (load (bytes (dev s)) (IDX2INODE sb k + PI_log_head) 8)) (load (bytes (dev s)) (IDX2INODE sb k + PI_i_link) 8) /\
    iget sb now stray junk k s = Ok (p, upd_inode_table <[k := p]> (at_inode
      (upd_inode_arena (fun _ => l) (upd_ilocks (fun L => {[k]} ∪ L) s)) p i)).
Proof.
  intros Hk Hlk Ht Ha Hp Em En. unfold iget. cbv zeta. rewrite u64_small by lia.
  erewrite M_bind_step by (unfold inode_lock; rewrite decide_False by exact Hlk; reflexivity).
  erewrite M_bind_step by reflexivity. fsimpl. rewrite Ht. set (s1 := upd_inode_arena (fun _ => l) (upd_ilocks (fun L => {[k]} ∪ L) s)).
  assert (inode_alloc (upd_ilocks (fun L => {[k]} ∪ L) s) = Ok (p, at_inode s1 p (default zero_inode (inodes s !! p)))) as Hal
    by (unfold inode_alloc; fsimpl; by rewrite Ha).
  mstep Hal. rewrite (proj2 (Z.eqb_neq p 0)) by done. erewrite M_bind_step by apply at_upd.
  destruct (rebuild_empty_dir sb now stray junk s1 p (upd_i_ino (fun _ => k) (default zero_inode (inodes s !! p)))) as (i & Hi & Hd); [done|done|done|].
  mstep Hi. exists i. split; [exact Hd|]. done.
Qed.

(** ** What a first mount builds *)

(** The file system with an empty root directory: every invariant holds, no
    lock is held, and all slots but the reserved ones are free. *)
Record fresh_fs (sb : pm_super_block) (s : fs) : Prop := {
  ff_inv : fs_inv sb s [root s] [];
  ff_root : live s (root s) 0;
  ff_link i : inodes s !! root s = Some i -> i_link i = 1;
  ff_table : inode_table s = {[0 := root s]};
  ff_locks : ilocks s = ∅;
  ff_jnl : serial (jnl_mgr s);
  ff_ebufs : ebufs_ok (ebuf_mgr s);
  ff_empty h : entry_ino s (root s) h = None;
  ff_release : release_list s = [];
  ff_objects : zlength (inode_arena s) = INODE_ARENA / SIZEOF_INODE - 1 /\ zlength (entry_arena s) = ENTRY_ARENA / SIZEOF_ENTRY /\
    zlength (btree_arena s) = BNODE_ARENA / SIZEOF_BTREE_NODE;
  ff_inodes k : 0 <= k < slot_num (sb_inode sb) -> sa_used (map_inode s) k = (k =? 0);
  ff_dirents k : 0 <= k < slot_num (sb_dir sb) -> sa_used (map_dir s) k = (k <=? 1);
  ff_filents k : 0 <= k < slot_num (sb_file sb) -> sa_used (map_file s) k = (k =? 0);
  ff_data k : 0 <= k < slot_num (sb_data sb) -> sa_used (map_data s) k = (k =? 0);
}.

(** The shared memory has room for the entry buffers. *)
Definition shm_ok (s : fs) : Prop :=
  zlength (ebuf_mgr s) = EBUF_NUM /\ Forall (fun e => zlength (eb_arr e) = EBUF_SIZE) (ebuf_mgr s).

Lemma ebuf_mgr_init_ok l : zlength l = EBUF_NUM -> Forall (fun e => zlength (eb_arr e) = EBUF_SIZE) l -> ebufs_ok (ebuf_mgr_init l).
Proof.
  intros Hl Hf. unfold ebuf_mgr_init. split; [unfold zlength in *; by rewrite length_imap|].
  rewrite Forall_lookup in *. intros k e. rewrite list_lookup_imap. destruct (l !! k) as [x|] eqn:E; [|done].
  simpl. intros [= <-]. split; [reflexivity|]. exact (Hf k x E).
Qed.

Lemma fresh_arena_ok base size isz : 0 < base -> base + size < 2 ^ 62 -> 0 < isz -> 0 <= size -> base mod 8 = 0 -> isz mod 8 = 0 ->
  NoDup (fresh_arena base size isz) /\ zlength (fresh_arena base size isz) = size / isz /\
  forall p, p ∈ fresh_arena base size isz -> aligned p /\ base <= p < base + size.
Proof.
  intros Hb Hs Hi Hn Hba Hia. unfold fresh_arena. assert (0 <= size / isz) by (apply Z.div_pos; lia). split_and!.
  - by apply items_NoDup.
  - unfold zlength, items. rewrite length_rev, length_fmap, length_seqZ. lia.
  - intros p (k & Hk & ->)%elem_of_items. rewrite Z2Nat.id in Hk by lia. pose proof (Z.mul_div_le size isz Hi). split; [|nia].
    split; [nia|]. apply Z.mod_divide in Hba as [x ->]; [|lia]. apply Z.mod_divide in Hia as [y ->]; [|lia].
    replace (x * 8 + k * (y * 8)) with ((2 * x + 2 * k * y) * 4) by lia. apply Z.mod_mul. lia.
Qed.

Lemma on_nfs_run {A} (c : M fs A) n a s' : c (y_fs (n_sys n)) = Ok (a, s') ->
  on_nfs c n = Ok (a, upd_n_sys (upd_y_fs (fun _ => s')) n).
Proof. intros H. unfold on_nfs, on_sys, on_fs, zoom. by rewrite H. Qed.

Lemma on_nfs_modify f n : on_nfs (modify f) n = Ok (tt, upd_n_sys (upd_y_fs f) n).
Proof. reflexivity. Qed.
Lemma modify_run {S} (f : S -> S) s : modify f s = Ok (tt, f s).
Proof. reflexivity. Qed.
Ltac modify_step := first [erewrite M_bind_step by apply on_nfs_modify | erewrite M_bind_step by apply modify_run].
Lemma on_nfs_load a k n : on_nfs (pm_load a k) n = Ok (load (bytes (dev (y_fs (n_sys n)))) a k, n).
Proof. by destruct n as [[]]. Qed.

Lemma empty_table_ok c u g : rt_ok (mk_rt empty_table 0 0 u g c) /\ Forall (fun fh => fh_valid fh = false) empty_table.
Proof.
  unfold empty_table. split.
  - constructor; cbn [f_table fd_hint]; [|done]. unfold zlength. rewrite length_fmap, length_seq. done.
  - apply Forall_fmap, Forall_forall. intros i _. reflexivity.
Qed.

(** Long lists. *)
#[local] Opaque fresh_arena empty_table.

Section first.
Context (pages_junk now stray : Z) (junk : mem) (p0 : pmem).
Hypothesis Hp0 : mem_ok (bytes p0).
Hypothesis Hjunk : 0 <= pages_junk < 2 ^ 64.
Hypothesis Hnow : 0 <= now < 2 ^ 64.
Let sb := mkfs_sb pages_junk now DAX_SIZE.
Let m := bytes (mkfs pages_junk now p0).

Lemma sb_ok : layout_ok sb.
Proof. apply mkfs_layout_ok. vm_compute. split; congruence. Qed.
Lemma sb_nums : slot_num (sb_inode sb) = 327680 /\ slot_num (sb_dir sb) = 327680 /\ slot_num (sb_file sb) = 14830567 /\ slot_num (sb_data sb) = 12319356.
Proof. unfold sb. by rewrite mkfs_sb_eq. Qed.
Lemma root_addr : IDX2INODE sb 0 = 4538368.
Proof. unfold sb. by rewrite mkfs_sb_eq. Qed.

(** The maps of the mount, with their sizes. *)
Lemma mount_maps : exists mi md mf mt, shm_init_bitmap m sb = Ok (mi, md, mf, mt) /\
  (sa_inv mi /\ sa_inv md /\ sa_inv mf /\ sa_inv mt) /\
  ((forall k, sa_valid mi k <-> 0 <= k < 327680) /\ (forall k, sa_valid md k <-> 0 <= k < 327680) /\ (forall k, sa_valid mf k <-> 0 <= k < 14830567) /\
   (forall k, sa_valid mt k <-> 0 <= k < 12319356)) /\
  ((forall k, 0 <= k < 327680 -> sa_used mi k = (k =? 0) /\ sa_used md k = (k <=? 1)) /\
   (forall k, 0 <= k < 14830567 -> sa_used mf k = (k =? 0)) /\ (forall k, 0 <= k < 12319356 -> sa_used mt k = (k =? 0))) /\
  bitmaps_end (SHM_BASE + 20480) [mi; md; mf; mt] = SHM_BASE + 3497984.
Proof.
  destruct (mount_eq pages_junk now p0 Hp0) as (mi & md & mf & mt & Hb & W1 & W2 & W3 & W4 & B1 & B2 & B3).
  exists mi, md, mf, mt. split; [exact Hb|]. split; [exact (conj W1 (conj W2 (conj W3 W4)))|].
  apply shm_init_bitmap_Ok in Hb as (K1 & K2 & K3 & K4). rewrite mkfs_sb_eq in K1, K2, K3, K4. cbn [sb_inode sb_dir sb_file sb_data] in *.
  apply init_kind_shape in K1 as (b1 & -> & N1 & L1); [|simpl; lia]. apply init_kind_shape in K2 as (b2 & -> & N2 & L2); [|simpl; lia].
  apply init_kind_shape in K3 as (b3 & -> & N3 & L3); [|simpl; lia]. apply init_kind_shape in K4 as (b4 & -> & N4 & L4); [|simpl; lia].
  cbn [slot_num] in *. split; [|split; [exact (conj B1 (conj B2 B3))|]].
  - split_and!; intros k; [rewrite <- N1|rewrite <- N2|rewrite <- N3|rewrite <- N4]; apply single_valid; lia.
  - unfold bitmaps_end. cbn [fold_left]. rewrite L1, L2, L3, L4. vm_compute. reflexivity.
Qed.

(** The state before the root inode is read. *)
Definition prepared (mi md mf mt : list dram_bitmap) (s : fs) : fs :=
  upd_entry_arena (fun _ => fresh_arena (SHM_BASE + 547192832) ENTRY_ARENA SIZEOF_ENTRY)
    (upd_inode_arena (fun _ => fresh_arena (SHM_BASE + 278757376) INODE_ARENA SIZEOF_INODE)
      (upd_btree_arena (fun _ => fresh_arena (SHM_BASE + 10321920) BNODE_ARENA SIZEOF_BTREE_NODE)
        (upd_jnl_mgr (fun _ => journal_mgr_init) (upd_ebuf_mgr ebuf_mgr_init (upd_inode_table (fun _ => ∅) (upd_ilocks (fun _ => ∅)
          (upd_map_inode (fun _ => mi) (upd_map_dir (fun _ => md) (upd_map_file (fun _ => mf) (upd_map_data (fun _ => mt)
            (upd_release_list (fun _ => []) (upd_ts (fun _ => 0) s)))))))))))).

(** The state after it. *)
Definition with_root (s : fs) (l : list Z) (r : Z) (i : dram_inode) : fs :=
  upd_ilocks (fun L => L ∖ {[0]}) (upd_root (fun _ => r) (upd_inode_table <[0 := r]>
    (at_inode (upd_inode_arena (fun _ => l) (upd_ilocks (fun L => {[0]} ∪ L) s)) r i))).

Lemma prepared_iget mi md mf mt s : bytes (dev s) = m ->
  exists r l i, fresh_arena (SHM_BASE + 278757376) INODE_ARENA SIZEOF_INODE = r :: l /\ r <> 0 /\ empty_dir_inode i 0 1 1 /\
    iget sb now stray junk 0 (prepared mi md mf mt s) = Ok (r, upd_inode_table <[0 := r]>
      (at_inode (upd_inode_arena (fun _ => l) (upd_ilocks (fun L => {[0]} ∪ L) (prepared mi md mf mt s))) r i)).
Proof.
  intros Hm. destruct (fresh_arena_ok (SHM_BASE + 278757376) INODE_ARENA SIZEOF_INODE) as (_ & Hlen & Hp); [done..|].
  destruct (fresh_arena _ _ _) as [|r l] eqn:Ea; [done|]. exists r, l.
  assert (r <> 0) as Hr by (apply aligned_nz, (proj1 (Hp r ltac:(by left)))).
  destruct (mkfs_root pages_junk now p0) as (Em & Eh & En & _ & Ek). fold m in Em, Eh, En, Ek.
  destruct (iget_empty_dir sb now stray junk 0 (prepared mi md mf mt s) r l) as (i & Hd & Hi);
    [lia|apply not_elem_of_empty|reflexivity|exact Ea|exact Hr|rewrite root_addr; unfold prepared; fsimpl; rewrite Hm; exact Em|rewrite root_addr; unfold prepared; fsimpl; rewrite Hm; exact En|].
  exists i. split; [reflexivity|]. split; [exact Hr|]. split; [|exact Hi]. rewrite root_addr in Hd. unfold prepared in Hd.
  cbn [dev] in Hd. revert Hd. fsimpl. rewrite Hm. unfold PI_log_head, PI_i_link. rewrite Eh, Ek. intros Hd. exact Hd.
Qed.

Lemma shm_init_run E n : bytes (dev (y_fs (n_sys n))) = m ->
  exists n' mi md mf mt r l i, shm_init E now stray junk n = Ok (0, n') /\ shm_init_bitmap m sb = Ok (mi, md, mf, mt) /\
    fresh_arena (SHM_BASE + 278757376) INODE_ARENA SIZEOF_INODE = r :: l /\ empty_dir_inode i 0 1 1 /\
    y_fs (n_sys n') = with_root (prepared mi md mf mt (y_fs (n_sys n))) l r i /\ n_super n' = Some sb /\ n_user n' = 0 /\ n_status n' = n_status n.
Proof.
  intros Hm. destruct mount_maps as (mi & md & mf & mt & Hb & _ & _ & _ & Hend).
  destruct (prepared_iget mi md mf mt (y_fs (n_sys n)) Hm) as (r & l & i & Ea & Hr & Hd & Hi).
  destruct (heap_init_Ok HEAP_START (h_mem (y_heap (n_sys n)))) as (h & Hh).
  eexists _, mi, md, mf, mt, r, l, i. split.
  - unfold shm_init. erewrite M_bind_step by reflexivity. rewrite Hm. cbv zeta.
    unfold m. rewrite mkfs_super_eq by done. fold m sb. do 6 modify_step.
    change (ALIGN (SHM_BASE + SIZEOF_DRAM_SB) PAGE_SIZE + 4 * PAGE_SIZE) with (SHM_BASE + 20480).
    erewrite M_bind_step by (unfold lift; rewrite Hb; reflexivity). cbv beta iota. rewrite Hend.
    destruct sb_nums as (-> & _). do 7 modify_step.
    match goal with |- context [if ?b then _ else _] => change b with false end. cbv iota.
    erewrite M_bind_step by reflexivity.
    erewrite M_bind_step by (unfold lift; match goal with |- context [heap_init _ _ ?x] => change x with (h_mem (y_heap (n_sys n))) end; rewrite Hh; reflexivity).
    do 2 modify_step. erewrite M_bind_step by (apply on_nfs_run; exact Hi). do 2 modify_step. reflexivity.
  - split_and!; try done.
Qed.

Lemma dent_zero k : 0 <= k < 327680 -> dent_next sb m k = 0.
Proof.
  intros Hk. unfold dent_next. rewrite (IDX2DENT_eq sb sb_ok) by (destruct sb_nums as (_ & -> & _); lia).
  unfold sb. rewrite mkfs_sb_eq. cbn [sb_dir slot_table].
  assert (load m (46481408 + 256 * k + PD_next) 8 = 0) as ->; [|done].
  rewrite <- (load_zero (46481408 + 256 * k + PD_next) 8). apply load_agree. intros x Hx.
  apply mkfs_dir_table. unfold PD_next in Hx. simpl in Hx. lia.
Qed.

Section rooted.
Context (s : fs) (mi md mf mt : list dram_bitmap) (r : Z) (l : list Z) (i : dram_inode).
Hypothesis Hm : bytes (dev s) = m.
Hypothesis Hb : shm_init_bitmap m sb = Ok (mi, md, mf, mt).
Hypothesis Ha : fresh_arena (SHM_BASE + 278757376) INODE_ARENA SIZEOF_INODE = r :: l.
Hypothesis Hd : empty_dir_inode i 0 1 1.
Local Abbreviation S := (with_root (prepared mi md mf mt s) l r i).

Lemma wr_at : inodes S !! r = Some i.
Proof. apply lookup_insert_eq. Qed.
Lemma wr_addr p : p ∈ r :: l -> 0 < p < 2 ^ 62.
Proof.
  destruct (fresh_arena_ok (SHM_BASE + 278757376) INODE_ARENA SIZEOF_INODE) as (_ & _ & I3); [reflexivity|reflexivity|reflexivity|discriminate|reflexivity|reflexivity|]. rewrite Ha in I3.
  intros Hp. destruct (I3 p Hp) as [[? _] ?]. change (SHM_BASE + 278757376 + INODE_ARENA) with 123145849503744 in *. lia.
Qed.
Lemma wr_nodup : NoDup (r :: l) /\ zlength (r :: l) = INODE_ARENA / SIZEOF_INODE.
Proof.
  destruct (fresh_arena_ok (SHM_BASE + 278757376) INODE_ARENA SIZEOF_INODE) as (I1 & I2 & _); [reflexivity|reflexivity|reflexivity|discriminate|reflexivity|reflexivity|].
  rewrite Ha in I1, I2. exact (conj I1 I2).
Qed.
Lemma wr_live : live S r 0.
Proof.
  destruct wr_nodup as [I1 _]. split; [split; [apply wr_addr; by left|exact (proj1 (proj1 (NoDup_cons _ _) I1))]|].
  exists i. split; [exact wr_at|exact (ed_ino _ _ _ _ Hd)].
Qed.
Lemma wr_dir : dir_ok sb S i.
Proof.
  destruct mount_maps as (mi' & md' & mf' & mt' & Hb' & _ & _ & (B1 & _) & _). rewrite Hb in Hb'. injection Hb' as <- <- <- <-.
  destruct Hd as [Ei Ed El Et Eh Eg], sb_nums as (N1 & N2 & _). assert (slots S i = [1]) as Es by (unfold slots; by rewrite El, Eg).
  assert (bytes (dev S) = m) as Hmem by exact Hm. constructor; rewrite ?Es, ?El, ?Et, ?Ei, ?Hmem.
  - rewrite N1. lia.
  - exists []. split; [apply index_rep_empty|reflexivity].
  - intros d Hx. destruct (not_elem_of_nil _ Hx).
  - apply NoDup_singleton.
  - intros k ->%list_elem_of_singleton. rewrite N2. split; [lia|]. exact (proj2 (B1 1 ltac:(lia))).
  - by rewrite Eh.
  - split; [|apply dent_zero; lia]. unfold pm_head. rewrite root_addr. destruct (mkfs_root pages_junk now p0) as (_ & E & _).
    unfold PI_log_head. unfold m. rewrite E. reflexivity.
Qed.
Lemma wr_dirs : dirs_inv sb S [r] /\ files_inv sb S [] /\ cache_ok S.
Proof.
  destruct mount_maps as (mi' & md' & mf' & mt' & Hb' & (_ & W2 & W3 & W4) & (_ & V2 & V3 & V4) & (B1 & B2 & B3) & _).
  rewrite Hb in Hb'. injection Hb' as <- <- <- <-. destruct sb_nums as (_ & N2 & N3 & N4).
  destruct (fresh_arena_ok (SHM_BASE + 547192832) ENTRY_ARENA SIZEOF_ENTRY) as (D1 & _ & D3); [reflexivity|reflexivity|reflexivity|discriminate|reflexivity|reflexivity|].
  assert (bytes (dev S) = m) as Hmem by exact Hm. destruct wr_nodup as [I1 _]. split_and!.
  - constructor.
    + constructor.
      * exact W2.
      * rewrite N2. exact V2.
      * exact (proj2 (B1 0 ltac:(lia))).
      * rewrite N2, Hmem. intros k Hk _. apply dent_zero. exact Hk.
      * exact D1.
      * intros d Hx. exact (proj1 (D3 d Hx)).
      * rewrite Hmem. apply mkfs_mem_ok. exact Hp0.
    + intros p ->%list_elem_of_singleton. exists i. split; [exact wr_at|exact wr_dir].
    + intros p q ? ? ->%list_elem_of_singleton ->%list_elem_of_singleton Hne. destruct (Hne eq_refl).
  - constructor.
    + constructor; [split; [exact W4|rewrite N4; exact V4]|exact W3|rewrite N3; exact V3|exact (B2 0 ltac:(lia))|exact D1|].
      intros d Hx. destruct (D3 d Hx) as [_ ?]. change (SHM_BASE + 547192832) with 123145849503744 in *. change ENTRY_ARENA with 1073741824 in *. lia.
    + intros p Hp. destruct (not_elem_of_nil _ Hp).
    + intros p q ? ? Hp. destruct (not_elem_of_nil _ Hp).
  - constructor.
    + intros k p Hk. change (({[0 := r]} : gmap Z Z) !! k = Some p) in Hk. apply lookup_singleton_Some in Hk as [<- <-]. exact wr_live.
    + exact (proj2 (proj1 (NoDup_cons _ _) I1)).
    + intros p Hp. apply wr_addr. by right.
Qed.
Lemma wr_empty h : entry_ino S r h = None.
Proof. apply (entry_ino_miss sb S r i); [exact wr_at|exact wr_dir|]. rewrite (ed_list _ _ _ _ Hd). intros d Hx. destruct (not_elem_of_nil _ Hx). Qed.
Lemma wr_fs_inv : fs_inv sb S [r] [].
Proof.
  destruct mount_maps as (mi' & md' & mf' & mt' & Hb' & (W1 & _) & (V1 & _) & (B1 & _) & _). rewrite Hb in Hb'. injection Hb' as <- <- <- <-.
  destruct sb_nums as (N1 & _), wr_dirs as (I1 & I2 & I3).
  destruct (fresh_arena_ok (SHM_BASE + 10321920) BNODE_ARENA SIZEOF_BTREE_NODE) as (P1 & _ & P3); [reflexivity|reflexivity|reflexivity|discriminate|reflexivity|reflexivity|].
  constructor; [exact I1|exact I2|exact I3| | | | | | | |].
  - split; [exact W1|]. rewrite N1. exact V1.
  - split; [exact P1|]. intros H0. destruct (P3 0 H0) as [[H1 _] _]. lia.
  - intros p j Hj. split; [|intros Hp; destruct (not_elem_of_nil _ Hp)]. intros ->%list_elem_of_singleton. rewrite wr_at in Hj. injection Hj as <-. exact (ed_dir _ _ _ _ Hd).
  - intros p j Hp Hj. rewrite app_nil_r in Hp. apply list_elem_of_singleton in Hp as ->. rewrite wr_at in Hj. injection Hj as <-.
    rewrite (ed_ino _ _ _ _ Hd). split; [exact (proj2 (proj1 wr_live))|]. exact (proj1 (B1 0 ltac:(lia))).
  - intros p q ? ? _ Hq. destruct (not_elem_of_nil _ Hq).
  - intros p j d ->%list_elem_of_singleton Hj. rewrite wr_at in Hj. injection Hj as <-. rewrite (ed_list _ _ _ _ Hd). intros Hx. destruct (not_elem_of_nil _ Hx).
  - intros k p Hk. change (({[0 := r]} : gmap Z Z) !! k = Some p) in Hk. apply lookup_singleton_Some in Hk as [<- <-]. rewrite N1.
    split; [lia|]. exact (proj1 (B1 0 ltac:(lia))).
  - intros p h k ->%list_elem_of_singleton Hk. rewrite wr_empty in Hk. discriminate Hk.
Qed.

Lemma with_root_fresh : shm_ok s -> fresh_fs sb S.
Proof.
  intros [Hs1 Hs2]. destruct mount_maps as (mi' & md' & mf' & mt' & Hb' & _ & _ & (B1 & B2 & B3) & _). rewrite Hb in Hb'. injection Hb' as <- <- <- <-.
  destruct sb_nums as (N1 & N2 & N3 & N4), wr_nodup as [_ I2].
  destruct (fresh_arena_ok (SHM_BASE + 547192832) ENTRY_ARENA SIZEOF_ENTRY) as (_ & D2 & _); [reflexivity|reflexivity|reflexivity|discriminate|reflexivity|reflexivity|].
  destruct (fresh_arena_ok (SHM_BASE + 10321920) BNODE_ARENA SIZEOF_BTREE_NODE) as (_ & P2 & _); [reflexivity|reflexivity|reflexivity|discriminate|reflexivity|reflexivity|].
  constructor.
  - exact wr_fs_inv.
  - exact wr_live.
  - intros j Hj. change (inodes S !! r = Some j) in Hj. rewrite wr_at in Hj. injection Hj as <-. apply (ed_link _ _ _ _ Hd).
  - reflexivity.
  - unfold with_root, prepared, at_inode. fsimpl. clear. set_solver.
  - split; [reflexivity|by left].
  - apply ebuf_mgr_init_ok; [exact Hs1|exact Hs2].
  - exact wr_empty.
  - reflexivity.
  - split; [|exact (conj D2 P2)]. rewrite <- I2. change (inode_arena S) with l. unfold zlength. cbn [length]. lia.
  - rewrite N1. intros k Hk. exact (proj1 (B1 k Hk)).
  - rewrite N2. intros k Hk. exact (proj2 (B1 k Hk)).
  - rewrite N3. exact B2.
  - rewrite N4. exact B3.
Qed.
End rooted.
End first.

(** ** Starting the first process *)

(** The system calls work and the shared memory did not exist. *)
Record first_start (E : env) : Prop := {
  fe_dax : 0 <= e_dax_open E /\ e_dax_mmap E = DAX_START;
  fe_new : e_shm_exists E = false;
  fe_shm : 0 <= e_shm_open E /\ 0 <= e_ftruncate E /\ e_shm_mmap E = SHM_BASE;
  fe_calloc : e_calloc E = true;
}.

(** A cached inode. *)
Lemma iget_hit sb now stray junk k q s : inode_table s !! k = Some q -> 0 <= k < 2 ^ 64 -> ilocks s = ∅ ->
  iget sb now stray junk k s = Ok (q, upd_ilocks (fun L => {[k]} ∪ L) s).
Proof.
  intros Hq Hk Hl. unfold iget. cbv zeta. rewrite u64_small by done.
  erewrite M_bind_step by (unfold inode_lock; rewrite decide_False by (rewrite Hl; apply not_elem_of_empty); reflexivity).
  mstep eq_refl. fsimpl. by rewrite Hq.
Qed.
Lemma unlock_back k s : ilocks s = ∅ -> upd_ilocks (fun L => L ∖ {[k]}) (upd_ilocks (fun L => {[k]} ∪ L) s) = s.
Proof. intros Hl. destruct s. unfold upd_ilocks. cbn in *. subst. f_equal. set_solver. Qed.

Lemma with_super_run {A} (c : pm_super_block -> M sys A) n sb a y :
  n_super n = Some sb -> c sb (n_sys n) = Ok (a, y) -> with_super c n = Ok (a, upd_n_sys (fun _ => y) n).
Proof. intros Hs Hc. unfold with_super. erewrite M_bind_step by reflexivity. rewrite Hs. unfold on_sys, zoom. by rewrite Hc. Qed.

Lemma runtime_init_run sb now stray junk u g y q :
  inode_table (y_fs y) !! 0 = Some q -> ilocks (y_fs y) = ∅ ->
  runtime_init sb now stray junk true u g y = Ok (tt, mk_sys (y_fs y) (y_heap y) (mk_rt empty_table 0 0 u g q)).
Proof.
  intros Hq Hl. unfold runtime_init. cbn [negb].
  erewrite M_bind_step by (apply on_fs_run; apply (iget_hit sb now stray junk 0 q (y_fs y) Hq ltac:(lia) Hl)).
  erewrite M_bind_step by reflexivity. unfold on_rt, zoom, modify.
  pose proof (unlock_back 0 (y_fs y) Hl) as Hu. destruct y. unfold upd_y_fs, upd_y_rt in *. cbn in *. by rewrite Hu.
Qed.
Lemma start_runtime E now stray junk n sb q :
  e_calloc E = true -> n_super n = Some sb -> inode_table (y_fs (n_sys n)) !! 0 = Some q -> ilocks (y_fs (n_sys n)) = ∅ ->
  with_super (fun sb => runtime_init sb now stray junk (e_calloc E) (e_uid E) (e_gid E)) n =
  Ok (tt, upd_n_sys (fun _ => mk_sys (y_fs (n_sys n)) (y_heap (n_sys n)) (mk_rt empty_table 0 0 (e_uid E) (e_gid E) q)) n).
Proof. intros Hc Hsb Hq Hl. eapply with_super_run; [exact Hsb|]. cbv beta. rewrite Hc. by apply runtime_init_run. Qed.

(** A store to the super block leaves the file system alone. *)
Lemma fresh_fs_sb sb s p : layout_ok sb -> mem_ok (bytes p) -> (forall x, BITMAP_START <= x -> bytes p x = bytes (dev s) x) ->
  fresh_fs sb s -> fresh_fs sb (upd_dev (fun _ => p) s).
Proof.
  intros Hlo Hp Hag [F1 F2 F0 F3 F4 F5 F6 F7 F8 F9 F10 F11 F12 F13].
  assert (forall x, slot_table (sb_inode sb) <= x -> bytes p x = bytes (dev s) x) as Hab.
  { intros x Hx. apply Hag. destruct Hlo as [_ ? _ ([? ?] & [? ?] & [? ?] & [? ?]) _ _]. lia. }
  constructor; try done.
  - by apply (fs_low sb Hlo s _ [root s] []).
  - intros h. rewrite <- (F7 h). apply (fs_low_view sb Hlo s _ [root s] [] _ _ F1); try done. by left.
Qed.

Lemma assert0_run n : assert0 0 n = Ok (tt, n).
Proof. reflexivity. Qed.

Section start.
Context (E : env) (pages_junk cpu now stray : Z) (junk : mem).
Context (fresh : rc_inode) (fresh_ref : Z) (heap : list Z) (sched : list nat) (fake_ts : Z).

Lemma dax_map_run n : first_start E -> dax_map E n = Ok (0, n).
Proof.
  intros [[H1 H2] _ _ _]. unfold dax_map. destruct (Z.ltb_spec (e_dax_open E) 0); [lia|]. by rewrite H2.
Qed.
Lemma shm_map_run n : first_start E -> shm_map E n = Ok (0, clear_sbi n).
Proof.
  intros [_ H1 (H2 & H3 & H4) _]. unfold shm_map. rewrite H1, H4. cbv zeta.
  destruct (Z.ltb_spec (e_shm_open E) 0), (Z.ltb_spec (e_ftruncate E) 0); try lia. reflexivity.
Qed.

(** [init_first] after mkfs. *)
Lemma init_first_run n p0 :
  mem_ok (bytes p0) -> 0 <= pages_junk < 2 ^ 64 -> 0 <= now < 2 ^ 64 -> e_calloc E = true ->
  bytes (dev (y_fs (n_sys n))) = bytes (mkfs pages_junk now p0) -> shm_ok (y_fs (n_sys n)) ->
  exists n', init_first E cpu now stray junk fake_ts false n = Ok (tt, n') /\ n_status n' = STATUS_READY /\ n_user n' = 0 /\
    n_super n' = Some (mkfs_sb pages_junk now DAX_SIZE) /\ fresh_fs (mkfs_sb pages_junk now DAX_SIZE) (y_fs (n_sys n')) /\
    dev (y_fs (n_sys n')) = dev (y_fs (n_sys n)) /\
    y_rt (n_sys n') = mk_rt empty_table 0 0 (e_uid E) (e_gid E) (root (y_fs (n_sys n'))).
Proof.
  intros Hp0 Hj Hn Hc Hm Hs. set (n1 := upd_n_status (fun _ => STATUS_INITING) n).
  destruct (shm_init_run pages_junk now stray junk p0 Hp0 Hj Hn E n1 Hm) as (n2 & mi & md & mf & mt & r & l & i & H2 & Hb & Ha & Hd & Es & Esb & Eu & _).
  pose proof (with_root_fresh pages_junk now p0 Hp0 (y_fs (n_sys n1)) mi md mf mt r l i Hm Hb Ha Hd Hs) as Hf. rewrite <- Es in Hf.
  assert (inode_table (y_fs (n_sys n2)) !! 0 = Some (root (y_fs (n_sys n2)))) as Ht by (rewrite (ff_table _ _ Hf); apply lookup_singleton_eq).
  exists (upd_n_status (fun _ => STATUS_READY) (upd_n_sys (fun _ => mk_sys (y_fs (n_sys n2)) (y_heap (n_sys n2))
    (mk_rt empty_table 0 0 (e_uid E) (e_gid E) (root (y_fs (n_sys n2))))) n2)). split.
  - unfold init_first. erewrite M_bind_step by reflexivity. mstep H2. mstep (assert0_run n2). erewrite M_bind_step by reflexivity.
    mstep (assert0_run n2). erewrite M_bind_step by reflexivity.
    mstep (start_runtime E now stray junk n2 _ _ Hc Esb Ht (ff_locks _ _ Hf)). reflexivity.
  - cbn [n_status n_user n_super n_sys y_fs y_rt upd_n_status upd_n_sys]. clear H2. split_and!; [reflexivity|exact Eu|exact Esb|exact Hf| |reflexivity].
    rewrite Es. reflexivity.
Qed.

Lemma slotfs_init_run n :
  first_start E -> mem_ok (bytes (dev (y_fs (n_sys n)))) -> shm_ok (y_fs (n_sys n)) ->
  0 <= pages_junk < 2 ^ 64 -> 0 <= now < 2 ^ 64 ->
  exists n', slotfs_init E pages_junk cpu now stray junk fresh fresh_ref heap sched fake_ts n = Ok (0, n') /\
    n_status n' = STATUS_READY /\ n_user n' = 1 /\ n_super n' = Some (mkfs_sb pages_junk now DAX_SIZE) /\
    fresh_fs (mkfs_sb pages_junk now DAX_SIZE) (y_fs (n_sys n')) /\ bytes (dev (y_fs (n_sys n'))) SB_umount = 0 /\
    rt_ok (y_rt (n_sys n')) /\ cwd (y_rt (n_sys n')) = root (y_fs (n_sys n')) /\
    Forall (fun fh => fh_valid fh = false) (f_table (y_rt (n_sys n'))).
Proof.
  intros Hst Hm Hs Hj Hn. set (p0 := dev (y_fs (n_sys n))) in *. set (n1 := upd_n_sys (upd_y_fs (upd_dev (mkfs pages_junk now))) (clear_sbi n)).
  destruct (init_first_run n1 p0) as (n2 & H2 & Est & Eu & Esb & Hf & Ed & Ert);
    [exact Hm|exact Hj|exact Hn|exact (fe_calloc E Hst)|reflexivity|exact Hs|].
  assert (need_recovery n1 = Ok (false, n1)) as Hnr.
  { unfold need_recovery. erewrite M_bind_step by reflexivity. change (n_status n1) with 0. cbn [negb Z.eqb STATUS_UNINIT].
    erewrite M_bind_step by apply on_nfs_load. destruct (mkfs_root pages_junk now p0) as (_ & _ & _ & Eum & _).
    change (bytes (dev (y_fs (n_sys n1)))) with (bytes (mkfs pages_junk now p0)). unfold SB_umount. rewrite Eum. reflexivity. }
  eexists. split.
  - unfold slotfs_init. mstep (dax_map_run n Hst). mstep (assert0_run n). mstep (shm_map_run n Hst). mstep (assert0_run (clear_sbi n)).
    change (negb (need_mkfs =? 0)) with true. cbv iota. erewrite M_bind_step by apply on_nfs_modify. mstep Hnr. cbv iota.
    erewrite M_bind_step by reflexivity. erewrite M_bind_step by reflexivity. change (n_status n1) with 0. cbn [Z.eqb STATUS_INITING STATUS_UNINIT].
    mstep H2. modify_step. unfold pm_store, pm_write. erewrite M_bind_step by apply on_nfs_modify. reflexivity.
  - cbn [n_status n_user n_super n_sys y_fs y_rt upd_n_status upd_n_sys upd_n_user upd_y_fs]. rewrite Ert. cbn [cwd f_table].
    clear H2 Hnr. split_and!; [exact Est|rewrite Eu; reflexivity|exact Esb| | | |reflexivity|].
    + apply (fresh_fs_sb _ _ (pm_update (store SB_umount 1 0) (dev (y_fs (n_sys n2)))));
        [by apply sb_ok|apply store_ok; apply (so_mem _ _ (dv_shared _ _ _ (fi_dirs _ _ _ _ (ff_inv _ _ Hf))))| |exact Hf].
      intros x Hx. apply (store_agree _ _ _ _ x 1); [|lia]. right. change BITMAP_START with 1060864 in Hx. unfold SB_umount. simpl. lia.
    + reflexivity.
    + apply empty_table_ok.
    + exact (proj2 (empty_table_ok 0 0 0)).
Qed.

(** C17: The first process that starts formats the device and sets up the
    shared memory: [slotfs_init] returns 0 and leaves a file system that is
    ready, with one user, in which every invariant holds that the operations
    keep: directories, files, cache, journal, entry buffers.  The root directory
    is empty, no lock is held, all slots but the reserved ones are free, no file
    is open, and the working directory is the root. *)
Theorem slotfs_init_correct n :
  first_start E -> mem_ok (bytes (dev (y_fs (n_sys n)))) -> shm_ok (y_fs (n_sys n)) ->
  0 <= pages_junk < 2 ^ 64 -> 0 <= now < 2 ^ 64 ->
  exists n', slotfs_init E pages_junk cpu now stray junk fresh fresh_ref heap sched fake_ts n = Ok (0, n') /\
    n_status n' = STATUS_READY /\ n_user n' = 1 /\ n_super n' = Some (mkfs_sb pages_junk now DAX_SIZE) /\
    fresh_fs (mkfs_sb pages_junk now DAX_SIZE) (y_fs (n_sys n')) /\ bytes (dev (y_fs (n_sys n'))) SB_umount = 0 /\
    rt_ok (y_rt (n_sys n')) /\ cwd (y_rt (n_sys n')) = root (y_fs (n_sys n')) /\
    Forall (fun fh => fh_valid fh = false) (f_table (y_rt (n_sys n'))).
Proof. apply slotfs_init_run. Qed.

(** ** Detaching a process *)

Lemma exit_loop_idle sb k i y :
  rt_ok (y_rt y) -> 0 <= i -> i + Z.of_nat k = FD_MAX ->
  Forall (fun fh => fh_file fh = 0 \/ fh_valid fh = false) (f_table (y_rt y)) -> exit_loop sb k i y = Ok (tt, y).
Proof.
  intros Hr. revert i. induction k as [|k IH]; intros i Hi Hk Hf; [done|]. cbn [exit_loop].
  destruct (get_fh_eq i (y_rt y) Hr ltac:(lia)) as (fh & Hfh & Hg).
  erewrite M_bind_step by (apply on_rt_run; exact Hg). replace (upd_y_rt (fun _ => y_rt y) y) with y by (by destruct y).
  assert ((fh_file fh =? 0) || negb (fh_valid fh) = true) as ->.
  { rewrite Forall_lookup in Hf. destruct (Hf _ _ Hfh) as [E0|E0]; rewrite E0; [done|]. by rewrite orb_true_r. }
  erewrite M_bind_step by reflexivity. apply IH; [lia|lia|done].
Qed.

(** The last process that detaches with no file open marks the device as
    unmounted, unless the environment asks for a crash. *)
Lemma slotfs_exit_run n sb :
  rt_ok (y_rt (n_sys n)) -> 0 < n_user n < 2 ^ 31 -> n_super n = Some sb ->
  Forall (fun fh => fh_file fh = 0 \/ fh_valid fh = false) (f_table (y_rt (n_sys n))) ->
  slotfs_exit E n = Ok (tt,
    let n1 := upd_n_user (fun u => u - 1) n in
    if n_user n =? 1 then
      upd_n_status (fun _ => STATUS_EXIT)
        (if default 0 (e_crash E) =? 0 then upd_n_sys (upd_y_fs (upd_dev (pm_update (store SB_umount 1 1)))) n1 else n1)
    else n1).
Proof.
  intros Hr Hu Hsb Hf. unfold slotfs_exit. modify_step.
  replace (upd_n_user (fun u => i32 (u - 1)) n) with (upd_n_user (fun u => u - 1) n) by (unfold upd_n_user; by rewrite i32_small by lia).
  set (n1 := upd_n_user _ n). assert (with_super runtime_exit n1 = Ok (tt, n1)) as Hx.
  { rewrite (with_super_run runtime_exit n1 sb tt (n_sys n1)); [reflexivity|exact Hsb|]. unfold runtime_exit.
    apply exit_loop_idle; [exact Hr|lia|rewrite Z2Nat.id by (unfold FD_MAX; lia); reflexivity|exact Hf]. }
  mstep Hx. erewrite M_bind_step by reflexivity. cbv zeta. assert (n_user n1 = n_user n - 1) as E1 by done. rewrite E1.
  destruct (Z.eqb_spec (n_user n) 1) as [Hone|Hone].
  - rewrite Hone. cbn [Z.gtb Z.sub]. change (1 - 1 >? 0) with false. cbv iota. change (1 - 1 =? 0) with true.
    destruct (default 0 (e_crash E) =? 0); [|by erewrite M_bind_step by reflexivity].
    unfold pm_store, pm_write. by erewrite M_bind_step by apply on_nfs_modify.
  - rewrite (proj2 (Z.gtb_lt _ _)) by lia. done.
Qed.

Lemma need_recovery_clear n : need_recovery (clear_sbi n) = Ok (bytes (dev (y_fs (n_sys n))) SB_umount =? 0, clear_sbi n).
Proof.
  unfold need_recovery. erewrite M_bind_step by reflexivity. change (n_status (clear_sbi n)) with 0. cbn [negb Z.eqb STATUS_UNINIT].
  erewrite M_bind_step by apply on_nfs_load. rewrite load_byte. reflexivity.
Qed.

(** The flag [umount], for a process that starts and exits with no call between
    the two: when the shared memory is lost before [slotfs_exit], [need_recovery]
    asks for a recovery, and when it is lost after it, it does not. *)
Theorem umount_flag n :
  first_start E -> mem_ok (bytes (dev (y_fs (n_sys n)))) -> shm_ok (y_fs (n_sys n)) ->
  0 <= pages_junk < 2 ^ 64 -> 0 <= now < 2 ^ 64 -> default 0 (e_crash E) = 0 ->
  exists n1 n2, slotfs_init E pages_junk cpu now stray junk fresh fresh_ref heap sched fake_ts n = Ok (0, n1) /\
    slotfs_exit E n1 = Ok (tt, n2) /\ n_status n2 = STATUS_EXIT /\ fresh_fs (mkfs_sb pages_junk now DAX_SIZE) (y_fs (n_sys n2)) /\
    eval need_recovery (clear_sbi n1) = Ok true /\ eval need_recovery (clear_sbi n2) = Ok false.
Proof.
  intros Hst Hm Hs Hj Hn Hc. destruct (slotfs_init_run n Hst Hm Hs Hj Hn) as (n1 & H1 & Est & Eu & Esb & Hf & Eum & Hr & _ & Hfd).
  assert (Forall (fun fh => fh_file fh = 0 \/ fh_valid fh = false) (f_table (y_rt (n_sys n1)))) as Hfd'
    by (eapply Forall_impl; [exact Hfd|intros x Hx; right; exact Hx]).
  pose proof (slotfs_exit_run n1 _ Hr ltac:(lia) Esb Hfd') as H2. rewrite Eu, Hc in H2. cbn [Z.eqb] in H2.
  eexists n1, _. split; [exact H1|]. split; [exact H2|]. cbv zeta. split; [reflexivity|]. split; [|split].
  - apply (fresh_fs_sb _ _ (pm_update (store SB_umount 1 1) (dev (y_fs (n_sys n1)))));
      [by apply sb_ok|apply store_ok; apply (so_mem _ _ (dv_shared _ _ _ (fi_dirs _ _ _ _ (ff_inv _ _ Hf))))| |exact Hf].
    intros x Hx. apply (store_agree _ _ _ _ x 1); [|lia]. right. change BITMAP_START with 1060864 in Hx. unfold SB_umount. simpl. lia.
  - unfold eval. rewrite need_recovery_clear, Eum. reflexivity.
  - unfold eval. rewrite need_recovery_clear. reflexivity.
Qed.

(** ** A later start *)

(** A later start formats the device again, although [need_mkfs] is only meant
    to format a device for which there is no shared memory yet: the cached
    inodes, the bitmaps and the counter of the entries still are those of the
    old file system, of which the device holds nothing anymore. *)
Theorem slotfs_init_again n sb q :
  0 <= e_dax_open E -> e_dax_mmap E = DAX_START -> e_shm_exists E = true ->
  0 <= e_shm_open E -> 0 <= e_ftruncate E -> e_shm_mmap E = SHM_BASE -> e_calloc E = true ->
  n_status n = STATUS_READY \/ n_status n = STATUS_EXIT -> n_super n = Some sb ->
  inode_table (y_fs (n_sys n)) !! 0 = Some q -> ilocks (y_fs (n_sys n)) = ∅ ->
  exists n', slotfs_init E pages_junk cpu now stray junk fresh fresh_ref heap sched fake_ts n = Ok (0, n') /\
    n_status n' = n_status n /\
    y_fs (n_sys n') = upd_dev (fun p => pm_update (store SB_umount 1 0) (mkfs pages_junk now p)) (y_fs (n_sys n)).
Proof.
  intros D1 D2 X1 X2 X3 X4 Hc Hst Hsb Hq Hl. set (n1 := upd_n_sys (upd_y_fs (upd_dev (mkfs pages_junk now))) n).
  assert (dax_map E n = Ok (0, n)) as Hd by (unfold dax_map; rewrite (proj2 (Z.ltb_ge _ _) D1), D2; reflexivity).
  assert (shm_map E n = Ok (0, n)) as Hs.
  { unfold shm_map. rewrite X1, (proj2 (Z.ltb_ge _ _) X2), (proj2 (Z.ltb_ge _ _) X3), X4. reflexivity. }
  assert (need_recovery n1 = Ok (false, n1)) as Hnr.
  { unfold need_recovery. erewrite M_bind_step by reflexivity. change (n_status n1) with (n_status n). destruct Hst as [-> | ->]; reflexivity. }
  eexists. split.
  - unfold slotfs_init. mstep Hd. mstep (assert0_run n). mstep Hs. mstep (assert0_run n). change (negb (need_mkfs =? 0)) with true. cbv iota.
    erewrite M_bind_step by apply on_nfs_modify. mstep Hnr. cbv iota. erewrite M_bind_step by reflexivity. erewrite M_bind_step by reflexivity.
    change (n_status n1) with (n_status n). assert (n_status n =? STATUS_INITING = false) as -> by (destruct Hst as [-> | ->]; reflexivity).
    assert (n_status n =? STATUS_UNINIT = false) as -> by (destruct Hst as [-> | ->]; reflexivity). cbv iota.
    mstep (start_runtime E now stray junk n1 sb q Hc Hsb Hq Hl). modify_step. unfold pm_store, pm_write.
    erewrite M_bind_step by apply on_nfs_modify. reflexivity.
  - split; reflexivity.
Qed.
End start.

(** ** Witnesses *)

(** A device with arbitrary contents and new shared memory. *)
Definition blank_ebufs : list ebuf := replicate 128 (mk_ebuf (replicate 512 (mk_unit 0 0 0)) 0 0 0 false).
Definition blank : inst :=
  mk_inst (mk_sys (mk_fs (mk_pmem (fun _ => 255) []) [] [] [] [] ∅ ∅ ∅ [] [] [] ∅ ∅ blank_ebufs (mk_jnl_mgr [] 0) [] 0 0)
    (mk_heap 0 0 [] (fun _ => 0)) (mk_rt [] 0 0 0 0 0)) None 0 0 0 0 0.
Definition new_env : env := mk_env 3 DAX_START false 4 0 4 0 SHM_BASE 8 true 1000 1000 None.

Lemma new_env_first : first_start new_env.
Proof. by constructor. Qed.
Lemma blank_mem : mem_ok (bytes (dev (y_fs (n_sys blank)))).
Proof. intros x. simpl. lia. Qed.
Lemma blank_shm : shm_ok (y_fs (n_sys blank)).
Proof. split; [reflexivity|]. apply Forall_replicate. reflexivity. Qed.

Lemma slotfs_init_correct_witness :
  exists n', slotfs_init new_env 0 0 7 0 (fun _ => 0) (mk_rci 0 0 0 false 0 0 0 0 0 ∅ (mk_ptr 0 0 0) []) 0 [] [] 0 blank = Ok (0, n') /\
    n_status n' = STATUS_READY /\ fresh_fs (mkfs_sb 0 7 DAX_SIZE) (y_fs (n_sys n')).
Proof.
  destruct (slotfs_init_correct new_env 0 0 7 0 (fun _ => 0) (mk_rci 0 0 0 false 0 0 0 0 0 ∅ (mk_ptr 0 0 0) []) 0 [] [] 0 blank
    new_env_first blank_mem blank_shm ltac:(lia) ltac:(lia)) as (n' & H1 & H2 & _ & _ & H3 & _).
  exists n'. split; [exact H1|]. split; [exact H2|exact H3].
Defined.
