(* ===== verification/FuncCreate.v ===== *)
(** * Creating by path (slotfs_open of src/slotfs/slotfs_func.c with O_CREAT)

    [slotfs_open] with [O_CREAT] of a path whose parent exists and has no such
    name creates a file or a directory, enters it into the table of inodes and
    returns a descriptor for it; of a path that exists, it opens what is there. *)
From stdpp Require Import base numbers list gmap.
From S2P Require Import Prelude Bitops Slot Btree Rbtree RbErase DirIndex Pm Mkfs Heap Fs Journal Dir DirView File FileIndex FileLog FileRead FileWrite.
From S2P Require Import Runtime Vfs VfsLocks VfsWalk FsInv Create Func FuncFile FuncRename.
Local Open Scope Z_scope.

Section create.
Context (sb : pm_super_block) (cpu now stray : Z) (junk : mem) (stk : nameidata).
Hypothesis Hlo : layout_ok sb.
Hypothesis Hcpu : 0 <= cpu.

(** Locks are not part of the invariant. *)
Lemma fs_inv_locks f s D P : fs_inv sb s D P -> fs_inv sb (upd_ilocks f s) D P.
Proof.
  intros H. apply (fs_low sb Hlo s); try done. apply (so_mem _ _ (dv_shared _ _ _ (fi_dirs _ _ _ _ H))).
Qed.
Lemma create_ready_locks f s mode : create_ready s mode -> create_ready (upd_ilocks f s) mode.
Proof. intros []. by constructor. Qed.

(** The new inode with its first reference, in the table of inodes. *)
Definition installed (p : Z) (j : dram_inode) (s : fs) : fs :=
  upd_inode_table <[i_ino j := p]> (upd_inodes <[p := upd_i_ref (fun n => u32 (n + 1)) j]> s).

Lemma installed_inv s D P p j :
  fs_inv sb s D P -> p ∈ D ++ P -> 0 < p < 2 ^ 62 -> inodes s !! p = Some j -> fs_inv sb (installed p j s) D P.
Proof.
  intros H Hp Ha Hj. apply (fs_same sb Hlo s _ D P H); try done.
  - apply (so_mem _ _ (dv_shared _ _ _ (fi_dirs _ _ _ _ H))).
  - intros q. unfold installed. fsimpl. destruct (decide (q = p)) as [->|Hne].
    + rewrite Hj, lookup_insert_eq. constructor. by destruct j.
    + rewrite lookup_insert_ne by done. exact (same_inodes_refl s q).
  - intros k q. unfold installed. fsimpl. destruct (decide (k = i_ino j)) as [->|Hne].
    + rewrite lookup_insert_eq. intros [= <-]. right. split_and!; [done|lia|lia|]. by exists j.
    + rewrite lookup_insert_ne by done. by left.
Qed.

Lemma install_run s p j : inodes s !! p = Some j -> i_ino j ∉ ilocks s ->
  exists s1, upd_inode p (upd_i_ref (fun n => u32 (n + 1))) s = Ok (tt, s1) /\
    icache_install p s1 = Ok (tt, upd_ilocks (fun L => ({[i_ino j]} ∪ L) ∖ {[i_ino j]}) (installed p j s)).
Proof.
  intros Hj Hl. eexists. split; [apply upd_inode_eq; exact Hj|]. unfold icache_install.
  erewrite M_bind_step by (apply rd_inode_eq, lookup_insert_eq). fsimpl. unfold inode_lock.
  erewrite M_bind_step by (rewrite decide_False by exact Hl; reflexivity). reflexivity.
Qed.

(** The lookup of the parent in [open_create]. *)
Lemma open_parent_run y D path flags names l q i k :
  dirs_inv sb (y_fs y) D -> cache_ok (y_fs y) -> locks y = ∅ -> live (y_fs y) (start_of y path) k ->
  components path = names ++ [l] -> resolves (y_fs y) D (start_of y path) names (inl q) ->
  inodes (y_fs y) !! q = Some i -> is_dir i = true -> has_flag flags O_CREAT = true ->
  exists nd', nd_parent nd' = q /\ last_name nd' = l /\ forall mode,
    do_slotfs_open sb cpu now stray junk stk AT_FDCWD path flags mode y =
    (d ← on_fs (inode_lookup q l);
     if negb (d =? 0) then
       e ← on_fs (rd_dirent d);
       inode ← get_inode sb now stray junk (d_ino e);
       _ ← unlock inode;
       _ ← unlock q;
       mret inode
     else
       inode ← on_fs (inode_create sb cpu now stray q l mode);
       _ ← on_fs (upd_inode inode (upd_i_ref (fun n => u32 (n + 1))));
       _ ← on_fs (icache_install inode);
       _ ← unlock q;
       mret inode) (VfsWalk.st y {[i_ino i]}).
Proof.
  intros Hd Hc HL Hst Hcomp Hres Hi Hdir Hcr. destruct (nameidata_init_run stk y path flags) as (nd & Hnd & Hp & Hs & _ & Hf).
  assert (IS_ERR (nd_start nd) = false) as He by (rewrite Hs; by eapply live_not_err).
  set (nd1 := set_path (skip_slashes (nd_path (with_parent nd))) (with_parent nd)).
  destruct (path_lookup_walk_parent sb now stray junk y D Hd Hc nd1 k names l q i HL) as (nd' & kq & Hw & Hpar & Hlv & Hl & _);
    [by rewrite <- Hs in Hst| | |by rewrite <- Hs in Hres|done|done|].
  { unfold nd1, with_parent. cbn [nd_flags set_flags set_path]. rewrite Hf. by destruct (has_flag flags O_NOFOLLOW). }
  { unfold nd1. cbn [nd_path set_path]. rewrite components_skip. by rewrite <- Hp in Hcomp. }
  destruct Hlv as (_ & i0 & Hi0 & <-). rewrite Hi in Hi0. injection Hi0 as <-. exists nd'. split_and!; [done|exact Hl|]. intros mode.
  unfold do_slotfs_open. mstep Hnd. rewrite He, Hcr. cbn [negb]. unfold open_create. cbv zeta. change (set_path (skip_slashes (nd_path nd)) (with_parent nd)) with nd1.
  destruct (nd_path nd1) as [|x c] eqn:Ep.
  { exfalso. unfold nd1 in Ep. cbn [nd_path set_path] in Ep. change (nd_path (with_parent nd)) with (nd_path nd) in Ep. rewrite Hp in Ep.
    rewrite <- components_skip, Ep in Hcomp. by destruct names. }
  unfold lookup. erewrite M_bind_step by exact Hw. cbn [negb Z.eqb]. rewrite Hpar. unfold last_name. rewrite Hl. done.
Qed.

(** The other ends of [open_create]: the path has no component, its parent is
    not there, or the name exists. *)
Lemma open_create_root y path flags mode k :
  live (y_fs y) (start_of y path) k -> components path = [] -> has_flag flags O_CREAT = true ->
  do_slotfs_open sb cpu now stray junk stk AT_FDCWD path flags mode y = Ok (root (y_fs y), y).
Proof.
  intros Hst Hcomp Hcr. destruct (nameidata_init_run stk y path flags) as (nd & Hnd & Hp & Hs & _ & _).
  assert (IS_ERR (nd_start nd) = false) as He by (rewrite Hs; by eapply live_not_err).
  unfold do_slotfs_open. mstep Hnd. rewrite He, Hcr. cbn [negb]. unfold open_create. cbv zeta. cbn [nd_path set_path]. rewrite Hp.
  rewrite <- components_skip in Hcomp. apply components_nil in Hcomp; [|intros x c E; by apply (skip_slashes_head path x c)]. by rewrite Hcomp.
Qed.
Lemma open_create_fails y D path flags mode names l k e :
  dirs_inv sb (y_fs y) D -> cache_ok (y_fs y) -> locks y = ∅ -> live (y_fs y) (start_of y path) k ->
  components path = names ++ [l] -> parent_fails y D (start_of y path) names e -> e <> 0 -> has_flag flags O_CREAT = true ->
  do_slotfs_open sb cpu now stray junk stk AT_FDCWD path flags mode y = Ok (e, y).
Proof.
  intros Hd Hc HL Hst Hcomp Hf Hne Hcr. destruct (nameidata_init_run stk y path flags) as (nd & Hnd & Hp & Hs & _ & _).
  assert (IS_ERR (nd_start nd) = false) as He by (rewrite Hs; by eapply live_not_err).
  set (nd1 := set_path (skip_slashes (nd_path (with_parent nd))) (with_parent nd)).
  destruct (path_lookup_fails sb now stray junk y D Hd Hc nd1 k names l e HL) as (nd' & Hw); [by rewrite <- Hs in Hst| |by rewrite <- Hs in Hf|].
  { unfold nd1. cbn [nd_path set_path]. rewrite components_skip. by rewrite <- Hp in Hcomp. }
  unfold do_slotfs_open. mstep Hnd. rewrite He, Hcr. cbn [negb]. unfold open_create. cbv zeta. change (set_path (skip_slashes (nd_path nd)) (with_parent nd)) with nd1.
  destruct (nd_path nd1) as [|x c] eqn:Ep.
  { exfalso. unfold nd1 in Ep. cbn [nd_path set_path] in Ep. change (nd_path (with_parent nd)) with (nd_path nd) in Ep. rewrite Hp in Ep.
    rewrite <- components_skip, Ep in Hcomp. by destruct names. }
  unfold lookup. erewrite M_bind_step by exact Hw. cbv beta iota. by rewrite (proj2 (Z.eqb_neq e 0)).
Qed.
Lemma open_create_existing y D path flags mode names l q i k q2 :
  dirs_inv sb (y_fs y) D -> cache_ok (y_fs y) -> locks y = ∅ -> live (y_fs y) (start_of y path) k ->
  components path = names ++ [l] -> resolves (y_fs y) D (start_of y path) names (inl q) ->
  inodes (y_fs y) !! q = Some i -> is_dir i = true -> child (y_fs y) D q l q2 -> has_flag flags O_CREAT = true ->
  do_slotfs_open sb cpu now stray junk stk AT_FDCWD path flags mode y = Ok (q2, y).
Proof.
  clear Hlo Hcpu. intros Hd Hc HL Hst Hcomp Hres Hi Hdir (d & e & i0 & Hat & He & Ht & Hr & Hi0 & Hne) Hcr. rewrite Hi in Hi0. injection Hi0 as <-.
  destruct (open_parent_run y D path flags names l q i k Hd Hc HL Hst Hcomp Hres Hi Hdir Hcr) as (nd & _ & _ & Hrun). rewrite Hrun.
  destruct (lookup_entry sb y D Hd {[i_ino i]} q l d Hat) as [Hl Hnz]. pose proof (ca_live _ Hc _ _ Ht) as Hq2.
  mstep Hl. rewrite (proj2 (Z.eqb_neq d 0)) by done. cbn [negb]. erewrite M_bind_step by (apply on_fs_run, rd_dirent_eq; exact He).
  change (upd_y_fs (fun _ => y_fs (VfsWalk.st y {[i_ino i]})) (VfsWalk.st y {[i_ino i]})) with (VfsWalk.st y {[i_ino i]}).
  mstep (iget_st sb now stray junk y (d_ino e) q2 {[i_ino i]} Ht Hr ltac:(set_solver)).
  mstep (unlock_st y q2 (d_ino e) ({[d_ino e]} ∪ {[i_ino i]}) Hq2).
  assert (live (y_fs y) q (i_ino i)) as Hq.
  { destruct (resolves_live _ _ _ _ _ Hc Hres _ Hst) as (k' & Hlv & i0 & Hi0 & <-). rewrite Hi in Hi0. injection Hi0 as <-. split; [done|]. by exists i. }
  mstep (unlock_st y q (i_ino i) (({[d_ino e]} ∪ {[i_ino i]}) ∖ {[d_ino e]}) Hq).
  unfold mret, M_ret. do 2 f_equal. unfold VfsWalk.st, locks in *. destruct y as [s h t]. unfold upd_y_fs. cbn [y_fs y_heap y_rt] in *. f_equal.
  destruct s. unfold upd_ilocks. cbn in *. f_equal. rewrite HL. set_solver.
Qed.

(** What a creation says of the state before the parent was locked and after
    the new inode is in the table. *)
Lemma created_installed s s2 L D P parent name mode p k j :
  fs_inv sb s D P -> created sb now (upd_ilocks (fun _ => L) s) s2 D P parent name mode p k 0 -> inodes s2 !! p = Some j -> ilocks s = ∅ ->
  created sb now s (upd_ilocks (fun _ => ∅) (installed p j s2)) D P parent name mode p k 1.
Proof.
  intros Hinv [C1 C2 C3 (j0 & Hj0 & Ek & Em & Ez & El & Er & Hb) C5 C6 C7 C8 C9 C10 C11 C12] Hj HL.
  rewrite Hj in Hj0. injection Hj0 as <-. set (s' := upd_ilocks _ _).
  set (D1 := if mode_dir mode then p :: D else D) in *. set (P1 := if mode_dir mode then P else p :: P) in *.
  assert (p ∈ D1 ++ P1) as Hp by (apply elem_of_app; subst D1 P1; destruct (mode_dir mode); [left|right]; by left).
  assert (0 < p < 2 ^ 62) as Ha.
  { apply (ca_addr _ (fi_cache _ _ _ _ Hinv)). change (inode_arena s) with (inode_arena (upd_ilocks (fun _ => L) s)). rewrite C2. by left. }
  assert (forall q, option_Forall2 same_shape (inodes s2 !! q) (inodes s' !! q)) as Hin.
  { intros q. unfold s', installed. fsimpl. destruct (decide (q = p)) as [->|Hne].
    - rewrite Hj, lookup_insert_eq. constructor. by destruct j.
    - rewrite lookup_insert_ne by done. exact (same_inodes_refl s2 q). }
  assert (forall q h, q ∈ D1 -> entry_ino s' q h = entry_ino s2 q h) as Hv.
  { intros q h Hq. apply (same_view sb Hlo s2 s' D1 P1 C1); try done. apply (so_mem _ _ (dv_shared _ _ _ (fi_dirs _ _ _ _ C1))). }
  constructor; try done.
  - apply fs_inv_locks. by apply installed_inv.
  - exists (upd_i_ref (fun n => u32 (n + 1)) j). unfold s', installed. fsimpl. rewrite lookup_insert_eq. split_and!; try done. by rewrite Er.
  - intros q h Hq. rewrite Hv by (subst D1; destruct (mode_dir mode); [by right|done]). rewrite C5 by done. destruct (decide _); [done|].
    apply (fs_low_view sb Hlo s _ D P _ _ Hinv); try done. apply (so_mem _ _ (dv_shared _ _ _ (fi_dirs _ _ _ _ Hinv))).
  - intros h Hm. rewrite Hv by (subst D1; rewrite Hm; by left). by apply C6.
  - intros q x Hq Hx. destruct (C7 q x Hq Hx) as (x' & Hx' & Hs). exists x'. split; [|exact Hs]. unfold s', installed. fsimpl.
    rewrite lookup_insert_ne; [done|]. intros ->. apply (proj1 (fi_busy _ _ _ _ Hinv q x ltac:(apply elem_of_app; by right) Hx)).
    change (inode_arena s) with (inode_arena (upd_ilocks (fun _ => L) s)). rewrite C2. by left.
  - intros q x Hne Hx. unfold s', installed. fsimpl. rewrite lookup_insert_ne by done. by apply C8.
  - unfold s', installed. fsimpl. rewrite C9, Ek. done.
  - unfold s', installed. fsimpl. rewrite HL. destruct C10 as (_ & H). by split.
Qed.

Lemma do_create_run y D P path flags mode names l q i k :
  fs_inv sb (y_fs y) D P -> locks y = ∅ -> live (y_fs y) (start_of y path) k ->
  components path = names ++ [l] -> resolves (y_fs y) D (start_of y path) names (inl q) ->
  q ∈ D -> inodes (y_fs y) !! q = Some i -> has_flag flags O_CREAT = true ->
  name_ok l -> mode_ok mode -> create_ready (y_fs y) mode -> entry_ino (y_fs y) q (BKDRHash l) = None ->
  exists p kp s', do_slotfs_open sb cpu now stray junk stk AT_FDCWD path flags mode y = Ok (p, upd_y_fs (fun _ => s') y) /\
    created sb now (y_fs y) s' D P q l mode p kp 1.
Proof.
  intros Hinv HL Hst Hcomp Hres Hq Hi Hcr Hn Hm Hrdy Hno. set (s := y_fs y) in *.
  destruct (fi_kind _ _ _ _ Hinv q i Hi) as [Hdir _]. specialize (Hdir Hq).
  destruct (open_parent_run y D path flags names l q i k (fi_dirs _ _ _ _ Hinv) (fi_cache _ _ _ _ Hinv) HL Hst Hcomp Hres Hi Hdir Hcr) as (nd & _ & _ & Hrun).
  set (L := {[i_ino i]} : gset Z) in *. pose proof (fs_inv_locks (fun _ => L) s D P Hinv) as Hinv1.
  assert (forall d, d ∈ i_list i -> hash_of s d <> BKDRHash l) as Hfresh.
  { intros d Hd E. destruct (fs_dir _ _ _ _ q Hinv Hq) as (x & Hx & Hok & _). rewrite Hi in Hx. injection Hx as <-.
    destruct (do_objs _ _ _ Hok d Hd) as (_ & e & He & _). assert (d_hash e = BKDRHash l) as Eh by (unfold hash_of in E; by rewrite He in E).
    rewrite <- Eh, (entry_ino_hit sb s q i d e) in Hno by done. discriminate Hno. }
  destruct (inode_create_run sb cpu now stray Hlo Hcpu (upd_ilocks (fun _ => L) s) D P q i l mode Hinv1 Hq Hi Hn Hm (create_ready_locks _ _ _ Hrdy) Hfresh)
    as (p & kp & s2 & Hc & Hcd). destruct (cd_inode _ _ _ _ _ _ _ _ _ _ _ _ Hcd) as (j & Hj & Ek & _).
  destruct (cd_rest _ _ _ _ _ _ _ _ _ _ _ _ Hcd) as (EL & _). change (ilocks (upd_ilocks (fun _ => L) s)) with L in EL.
  assert (i_ino j <> i_ino i) as Hne.
  { rewrite Ek. intros E. destruct (cd_slot _ _ _ _ _ _ _ _ _ _ _ _ Hcd) as (_ & Hf & _). rewrite E in Hf.
    destruct (fi_busy _ _ _ _ Hinv q i ltac:(apply elem_of_app; by left) Hi) as [_ Hu]. change (sa_used (map_inode s) (i_ino i) = false) in Hf. congruence. }
  assert (q <> p) as Hqp.
  { intros ->. apply (proj1 (fi_busy _ _ _ _ Hinv p i ltac:(apply elem_of_app; by left) Hi)).
    change (inode_arena s) with (inode_arena (upd_ilocks (fun _ => L) s)). rewrite (cd_object _ _ _ _ _ _ _ _ _ _ _ _ Hcd). by left. }
  destruct (install_run s2 p j Hj) as (s1 & Hin1 & Hin2); [rewrite EL; unfold L; set_solver|].
  destruct (cd_others _ _ _ _ _ _ _ _ _ _ _ _ Hcd q i Hqp Hi) as (i2 & Hi2 & Ei2 & _).
  exists p, kp, (upd_ilocks (fun _ => ∅) (installed p j s2)). split; [|by eapply created_installed].
  rewrite Hrun. erewrite M_bind_step; [|apply on_fs_run; apply (inode_lookup_none sb _ D); [apply Hinv1|split; [done|by exists i]]].
  cbn [negb Z.eqb]. erewrite M_bind_step by (apply on_fs_run; exact Hc). erewrite M_bind_step by (apply on_fs_run; exact Hin1).
  erewrite M_bind_step by (apply on_fs_run; exact Hin2).
  erewrite M_bind_step; [|eapply unlock_run; transitivity (inodes s2 !! q); [apply lookup_insert_ne; done|exact Hi2]].
  unfold mret, M_ret, upd_y_fs. cbn [y_fs y_heap y_rt VfsWalk.st]. do 3 f_equal. unfold installed, upd_ilocks. fsimpl. f_equal. rewrite EL, Ei2. unfold L. set_solver.
Qed.

(** A descriptor that was free is now for [inode], at offset 0. *)
Record new_fd (y y' : sys) (fd inode flags : Z) : Prop := {
  nf_range : 0 <= fd < FD_MAX;
  nf_free : exists g, f_table (y_rt y) !! Z.to_nat fd = Some g /\ fh_valid g = false;
  nf_table : f_table (y_rt y') = <[Z.to_nat fd := mk_fh fd inode 0 flags true 0]> (f_table (y_rt y));
  nf_ok : rt_ok (y_rt y');
  nf_cwd : cwd (y_rt y') = cwd (y_rt y);
}.

(** There is a free descriptor. *)
Definition fd_left (r : runtime) : Prop := exists k g, 0 <= k < FD_MAX /\ f_table r !! Z.to_nat k = Some g /\ fh_valid g = false.

(** What [slotfs_open] makes of the result of [do_slotfs_open]; after an error
    the descriptor stays in use, with no file. *)
Lemma open_with y path flags mode (Q : Z -> fs -> Prop) :
  rt_ok (y_rt y) -> fd_left (y_rt y) ->
  (forall r', cwd r' = cwd (y_rt y) -> exists inode s',
     do_slotfs_open sb cpu now stray junk stk AT_FDCWD path flags mode (upd_y_rt (fun _ => r') y) =
       Ok (inode, upd_y_fs (fun _ => s') (upd_y_rt (fun _ => r') y)) /\ Q inode s') ->
  exists fd inode y', Q inode (y_fs y') /\
    if IS_ERR inode
    then slotfs_open sb cpu now stray junk stk AT_FDCWD path flags mode y = Ok (-1, y') /\ _errno (y_rt y') = i32 inode /\ new_fd y y' fd 0 0
    else slotfs_open sb cpu now stray junk stk AT_FDCWD path flags mode y = Ok (fd, y') /\ new_fd y y' fd inode flags.
Proof.
  intros Hr (k & g0 & Hk & Hg0 & Hv0) Hdo.
  destruct (fd_alloc_spec (y_rt y) Hr) as (fd & r' & Ha & Hr' & [(_ & _ & Hall)|(Hfd & Hg & Ht & Hcwd)]).
  { destruct (Hall k Hk) as (g & Hg & Hv). congruence. }
  destruct (Hdo r' Hcwd) as (inode & s' & Hrun & HQ). pose proof Hg as (g & Hgl & _). pose proof (lookup_lt_Some _ _ _ Hgl) as Hlt.
  assert (f_table r' !! Z.to_nat fd = Some (mk_fh fd 0 0 0 true 0)) as Hfh by (rewrite Ht; by apply list_lookup_insert_eq).
  exists fd, inode. unfold slotfs_open. destruct (IS_ERR inode) eqn:He.
  - exists (upd_y_fs (fun _ => s') (upd_y_rt (fun _ => upd_errno (fun _ => i32 inode) r') y)). split; [exact HQ|]. split; [|split; [done|]].
    + erewrite M_bind_step by (apply on_rt_run; exact Ha). rewrite (proj2 (Z.eqb_neq fd (-1))) by lia. erewrite M_bind_step by exact Hrun. by rewrite He.
    + constructor; [done|done|exact Ht| |exact Hcwd]. destruct Hr'. by constructor.
  - exists (upd_y_fs (fun _ => s') (upd_y_rt (fun _ => upd_f_table <[Z.to_nat fd := mk_fh fd inode 0 flags true 0]> r') y)). split; [exact HQ|]. split.
    + erewrite M_bind_step by (apply on_rt_run; exact Ha). rewrite (proj2 (Z.eqb_neq fd (-1))) by lia.
      erewrite M_bind_step by exact Hrun. rewrite He. erewrite M_bind_step by (apply on_rt_run, get_fh_at; [lia|exact Hfh]).
      erewrite M_bind_step by (apply on_rt_run; eapply set_fh_at; [lia|exact Hfh]). done.
    + constructor; [done|done| | |exact Hcwd].
      * simpl. rewrite Ht. by rewrite list_insert_insert_eq.
      * destruct Hr' as [R1 R2]. constructor; simpl; [by rewrite zlength_insert|done].
Qed.

Lemma open_creates_run y D P path flags mode names l q i k :
  rt_ok (y_rt y) -> fd_left (y_rt y) ->
  fs_inv sb (y_fs y) D P -> locks y = ∅ -> live (y_fs y) (start_of y path) k ->
  components path = names ++ [l] -> resolves (y_fs y) D (start_of y path) names (inl q) ->
  q ∈ D -> inodes (y_fs y) !! q = Some i -> has_flag flags O_CREAT = true ->
  name_ok l -> mode_ok mode -> create_ready (y_fs y) mode -> entry_ino (y_fs y) q (BKDRHash l) = None ->
  exists fd p kp y', slotfs_open sb cpu now stray junk stk AT_FDCWD path flags mode y = Ok (fd, y') /\
    new_fd y y' fd p flags /\ created sb now (y_fs y) (y_fs y') D P q l mode p kp 1 /\ locks y' = ∅.
Proof.
  intros Hr Hfd Hinv HL Hst Hcomp Hres Hq Hi Hcr Hn Hm Hrdy Hno.
  destruct (open_with y path flags mode (fun p s' => 0 < p < 2 ^ 62 /\ exists kp, created sb now (y_fs y) s' D P q l mode p kp 1) Hr Hfd)
    as (fd & p & y' & (Hp & kp & Hcd) & Hrun).
  - intros r' E. assert (start_of (upd_y_rt (fun _ => r') y) path = start_of y path) as Es by (unfold start_of; cbn [y_rt y_fs upd_y_rt]; by rewrite E).
    destruct (do_create_run (upd_y_rt (fun _ => r') y) D P path flags mode names l q i k) as (p & kp & s' & H1 & H2); rewrite ?Es; try done.
    exists p, s'. split; [exact H1|]. split; [|by exists kp].
    apply (ca_addr _ (fi_cache _ _ _ _ Hinv)). pose proof (cd_object _ _ _ _ _ _ _ _ _ _ _ _ H2) as Eo. cbn [y_fs upd_y_rt] in Eo. rewrite Eo. by left.
  - rewrite not_IS_ERR in Hrun by lia. destruct Hrun as [Hrun Hnf]. exists fd, p, kp, y'. split_and!; [done|done|done|].
    unfold locks. destruct (cd_rest _ _ _ _ _ _ _ _ _ _ _ _ Hcd) as (-> & _). exact HL.
Qed.

End create.
