(* ===== verification/Session.v ===== *)
(** * Sessions

    A session is a sequence of system calls of one process on a mounted file
    system.  [afs] is what the calls promise: a tree of names, whose nodes are
    directories, or files with a size and the bytes that have been written, and
    a table of open files.  [astep] says what each call may answer and what it
    does to the tree.  The session theorem is a refinement: whatever a sequence of
    calls answers from the mount on, the tree allows. *)
From stdpp Require Import base numbers list gmap.
From S2P Require Import Prelude Bitops Slot Btree Rbtree RbErase DirIndex Pm Mkfs Heap Shm Fs Journal Dir DirView File FileIndex FileLog FileRead FileWrite.
From S2P Require Import Runtime Vfs VfsLocks VfsWalk FsInv Create Func FuncFile FuncRename Mount FuncCreate.
Local Open Scope Z_scope.

(** ** The abstract file system *)

Record afs : Type := mk_afs {
  a_kind : Z -> option bool;          (* [Some true]: a directory, [Some false]: a file *)
  a_name : Z -> Z -> option Z;        (* directory, hash of a name *)
  a_size : Z -> Z;
  a_byte : Z -> Z -> option Z;        (* file, offset; [None] until it is written *)
  a_open : Z -> option Z;             (* descriptor *)
}.

Definition a_empty : afs :=
  mk_afs (fun k => if k =? 0 then Some true else None) (fun _ _ => None) (fun _ => 0) (fun _ _ => None) (fun _ => None).

(** Following the names from the node [k]. *)
Fixpoint a_walk (a : afs) (k : Z) (names : list (list Z)) : Z + Z :=
  match names with
  | [] => inl k
  | n :: ns =>
      match a_name a k (BKDRHash n) with
      | None => inr (- ENOENT)
      | Some k' => match ns, a_kind a k' with _ :: _, Some false => inr (- ENOTDIR) | _, _ => a_walk a k' ns end
      end
  end.

(** The directory that all but the last name lead to. *)
Definition a_parent (a : afs) (names : list (list Z)) : Z + Z :=
  match a_walk a 0 names with
  | inr e => inr e
  | inl d => match a_kind a d with Some true => inl d | _ => inr (- ENOTDIR) end
  end.

Definition a_set_open (fd : Z) (k : option Z) (a : afs) : afs :=
  mk_afs (a_kind a) (a_name a) (a_size a) (a_byte a) (fun x => if x =? fd then k else a_open a x).
Definition a_set_name (d h : Z) (k : option Z) (a : afs) : afs :=
  mk_afs (a_kind a) (fun x y => if (x =? d) && (y =? h) then k else a_name a x y) (a_size a) (a_byte a) (a_open a).
(** A new node without names and bytes. *)
Definition a_new (k : Z) (dir : bool) (a : afs) : afs :=
  mk_afs (fun x => if x =? k then Some dir else a_kind a x) (fun x y => if x =? k then None else a_name a x y)
    (fun x => if x =? k then 0 else a_size a x) (fun x o => if x =? k then None else a_byte a x o) (a_open a).
Definition a_write (k : Z) (ub : mem) (buf len offset : Z) (a : afs) : afs :=
  mk_afs (a_kind a) (a_name a) (fun x => if x =? k then Z.max (a_size a x) (offset + len) else a_size a x)
    (fun x o => if (x =? k) && ((offset <=? o) && (o <? offset + len)) then Some (ub (buf + (o - offset))) else a_byte a x o) (a_open a).

(** ** Calls *)

Inductive call : Type :=
  | Open (path : list Z) (flags mode : Z)
  | Close (fd : Z)
  | Pwrite (fd : Z) (ub : mem) (buf len offset : Z)
  | Pread (fd : Z) (ub : mem) (buf len offset : Z)
  | Rename (oldpath newpath : list Z).

(** What a call returns: a number, -1 with an error number, or a number and
    the memory of the caller. *)
Inductive reply : Type := Int (r : Z) | Err (e : Z) | Buf (r : Z) (ub : mem).

(** What a call finds around it: the processor, the time, the stack. *)
Record around : Type := mk_around { r_cpu : Z; r_now : Z; r_stray : Z; r_junk : mem; r_stk : nameidata; r_stk' : nameidata; r_ts : Z }.

Definition int (c : M sys Z) : M sys reply :=
  r ← c;
  if r =? -1 then e ← gets (fun y => _errno (y_rt y)); mret (Err e) else mret (Int r).

Definition do_call (sb : pm_super_block) (w : around) (c : call) : M sys reply :=
  let 'mk_around cpu now stray junk stk stk' fake_ts := w in
  match c with
  | Open path flags mode => int (slotfs_open sb cpu now stray junk stk AT_FDCWD path flags mode)
  | Close fd => int (slotfs_close sb fd)
  | Pwrite fd ub buf len offset => int (slotfs_pwrite sb cpu now stray junk fd ub buf len offset)
  | Pread fd ub buf len offset =>
      '(r, ub') ← slotfs_pread sb stray fd ub buf len offset;
      if r =? -1 then e ← gets (fun y => _errno (y_rt y)); mret (Err e) else mret (Buf r ub')
  | Rename old new => int (slotfs_rename sb cpu now stray junk stk stk' fake_ts old new)
  end.

(** What the calls may answer. *)
Inductive astep (a : afs) : call -> reply -> afs -> Prop :=
  | as_open path flags mode k fd :
      has_flag flags O_CREAT = false -> a_walk a 0 (components path) = inl k ->
      has_flag flags O_DIRECTORY && negb (bool_decide (a_kind a k = Some true)) = false ->
      0 <= fd < FD_MAX -> a_open a fd = None ->
      astep a (Open path flags mode) (Int fd) (a_set_open fd (Some k) a)
  | as_open_absent path flags mode e :
      has_flag flags O_CREAT = false -> a_walk a 0 (components path) = inr e -> astep a (Open path flags mode) (Err e) a
  | as_open_no_dir path flags mode k :
      has_flag flags O_CREAT = false -> a_walk a 0 (components path) = inl k -> has_flag flags O_DIRECTORY = true -> a_kind a k <> Some true ->
      astep a (Open path flags mode) (Err (- ENOTDIR)) a
  | as_create_root path flags mode fd :
      has_flag flags O_CREAT = true -> components path = [] -> 0 <= fd < FD_MAX -> a_open a fd = None ->
      astep a (Open path flags mode) (Int fd) (a_set_open fd (Some 0) a)
  | as_create_fails path flags mode names l e :
      has_flag flags O_CREAT = true -> components path = names ++ [l] -> a_parent a names = inr e -> astep a (Open path flags mode) (Err e) a
  | as_create_existing path flags mode names l d k fd :
      has_flag flags O_CREAT = true -> components path = names ++ [l] -> a_parent a names = inl d -> a_name a d (BKDRHash l) = Some k ->
      0 <= fd < FD_MAX -> a_open a fd = None -> astep a (Open path flags mode) (Int fd) (a_set_open fd (Some k) a)
  | as_create path flags mode names l d k fd :
      has_flag flags O_CREAT = true -> components path = names ++ [l] -> a_parent a names = inl d -> a_name a d (BKDRHash l) = None ->
      a_kind a k = None -> 0 <= fd < FD_MAX -> a_open a fd = None ->
      astep a (Open path flags mode) (Int fd) (a_set_open fd (Some k) (a_set_name d (BKDRHash l) (Some k) (a_new k (mode_dir mode) a)))
  | as_close fd k : a_open a fd = Some k -> astep a (Close fd) (Int 0) (a_set_open fd None a)
  | as_close_bad fd : a_open a fd = None -> astep a (Close fd) (Err (- EBADFD)) a
  | as_pwrite_bad fd ub buf len offset : a_open a fd = None -> astep a (Pwrite fd ub buf len offset) (Err (- EBADFD)) a
  | as_pread_bad fd ub buf len offset : a_open a fd = None -> astep a (Pread fd ub buf len offset) (Err (- EBADFD)) a
  | as_pwrite fd k ub buf len offset :
      a_open a fd = Some k -> a_kind a k = Some false ->
      astep a (Pwrite fd ub buf len offset) (Int len) (a_write k ub buf len offset a)
  | as_pread fd k ub buf len offset n ub' :
      a_open a fd = Some k -> a_kind a k = Some false -> offset <= a_size a k -> n = Z.min len (a_size a k - offset) ->
      (forall d v, 0 <= d < n -> a_byte a k (offset + d) = Some v -> ub' (buf + d) = v) ->
      (forall x, ~ (buf <= x < buf + n) -> ub' x = ub x) ->
      astep a (Pread fd ub buf len offset) (Buf n ub') a
  | as_rename_old_fails path1 names1 l1 path2 e :
      components path1 = names1 ++ [l1] -> a_parent a names1 = inr e -> astep a (Rename path1 path2) (Int e) a
  | as_rename_new_fails path1 path2 names2 l2 e :
      components path2 = names2 ++ [l2] -> a_parent a names2 = inr e -> astep a (Rename path1 path2) (Int e) a
  | as_rename_refused path1 names1 l1 d1 path2 names2 l2 d2 e :
      components path1 = names1 ++ [l1] -> a_parent a names1 = inl d1 -> components path2 = names2 ++ [l2] -> a_parent a names2 = inl d2 ->
      (e = - EINVAL /\ d1 = d2 /\ l1 = l2) \/ (e = - ENOENT /\ a_name a d1 (BKDRHash l1) = None) \/
      (e = - EEXIST /\ a_name a d2 (BKDRHash l2) <> None) ->
      astep a (Rename path1 path2) (Int e) a
  | as_rename path1 names1 l1 d1 k path2 names2 l2 d2 :
      components path1 = names1 ++ [l1] -> a_parent a names1 = inl d1 -> a_name a d1 (BKDRHash l1) = Some k ->
      components path2 = names2 ++ [l2] -> a_parent a names2 = inl d2 -> a_name a d2 (BKDRHash l2) = None ->
      astep a (Rename path1 path2) (Int 0) (a_set_name d1 (BKDRHash l1) None (a_set_name d2 (BKDRHash l2) (Some k) a)).

(** ** The relation between the file system and the tree *)

Section session.
Context (sb : pm_super_block).

(** A file that was written in pieces within pages: every entry is for one
    block, and the last block is there. *)
Definition plain (s : fs) (i : dram_inode) : Prop :=
  (forall k n, 0 <= k -> extent (filents s) (block_of i) k = Some n -> n = 1) /\
  (0 < i_size i -> block_of i ((i_size i - 1) / PAGE_SIZE) <> 0).

(** The directories [D] and the files [P] are the nodes of the tree; all are
    linked, and the files are plain. *)
Record fs_abs (s : fs) (D P : list Z) (a : afs) : Prop := {
  fa_inv : fs_inv sb s D P;
  fa_jnl : serial (jnl_mgr s);
  fa_ebufs : ebufs_ok (ebuf_mgr s);
  fa_root : root s ∈ D /\ exists i, inodes s !! root s = Some i /\ i_ino i = 0;
  fa_table p i : p ∈ D ++ P -> inodes s !! p = Some i -> inode_table s !! i_ino i = Some p;
  fa_reg p i : p ∈ P -> inodes s !! p = Some i -> is_symlink i = false;
  fa_closed p i h k : p ∈ D -> inodes s !! p = Some i -> entry_ino s p h = Some k ->
    k <> i_ino i /\ exists q j, (q ∈ D ++ P) /\ inodes s !! q = Some j /\ i_ino j = k;
  fa_dirs p i : p ∈ D -> inodes s !! p = Some i -> a_kind a (i_ino i) = Some true /\ forall h, a_name a (i_ino i) h = entry_ino s p h;
  fa_files p i : p ∈ P -> inodes s !! p = Some i -> a_kind a (i_ino i) = Some false /\ a_size a (i_ino i) = i_size i /\
    forall o v, 0 <= o -> a_byte a (i_ino i) o = Some v -> block_of i (o / PAGE_SIZE) <> 0 /\ file_byte sb s i o = v;
  fa_kind k b : a_kind a k = Some b -> exists p i, (p ∈ D ++ P) /\ inodes s !! p = Some i /\ i_ino i = k;
  fa_link p i : p ∈ D ++ P -> inodes s !! p = Some i -> i_link i <> 0;
  fa_plain p i : p ∈ P -> inodes s !! p = Some i -> plain s i;
}.

(** The open files; a descriptor that an error left in use has no file. *)
Record rt_abs (s : fs) (r : runtime) (D P : list Z) (a : afs) : Prop := {
  ra_ok : rt_ok r;
  ra_cwd : cwd r = root s;
  ra_open fd k : a_open a fd = Some k -> 0 <= fd < FD_MAX /\ exists fh i,
    f_table r !! Z.to_nat fd = Some fh /\ fh_valid fh = true /\ (fh_file fh ∈ D ++ P) /\ inodes s !! fh_file fh = Some i /\ i_ino i = k;
  ra_closed fd fh : 0 <= fd < FD_MAX -> a_open a fd = None -> f_table r !! Z.to_nat fd = Some fh -> fh_valid fh = false \/ fh_file fh = 0;
}.

Definition session (y : sys) (D P : list Z) (a : afs) : Prop := fs_abs (y_fs y) D P a /\ rt_abs (y_fs y) (y_rt y) D P a /\ locks y = ∅.

(** Inodes are told apart by their numbers. *)
Lemma fa_inj s D P a p q i j :
  fs_abs s D P a -> p ∈ D ++ P -> q ∈ D ++ P -> inodes s !! p = Some i -> inodes s !! q = Some j -> i_ino i = i_ino j -> p = q.
Proof. intros H Hp Hq Hi Hj E. pose proof (fa_table _ _ _ _ H p i Hp Hi) as H1. pose proof (fa_table _ _ _ _ H q j Hq Hj) as H2. congruence. Qed.
Lemma fa_member s D P a p i k b : fs_abs s D P a -> a_kind a k = Some b -> p ∈ D ++ P -> inodes s !! p = Some i -> i_ino i = k ->
  p ∈ (if b then D else P).
Proof.
  intros H Hk Hp Hi <-. apply elem_of_app in Hp as [Hp|Hp].
  - destruct (fa_dirs _ _ _ _ H p i Hp Hi) as [E _]. rewrite E in Hk. by injection Hk as <-.
  - destruct (fa_files _ _ _ _ H p i Hp Hi) as [E _]. rewrite E in Hk. by injection Hk as <-.
Qed.
Lemma fa_live s D P a p i : fs_abs s D P a -> p ∈ D ++ P -> inodes s !! p = Some i -> live s p (i_ino i).
Proof. intros H Hp Hi. apply (ca_live _ (fi_cache _ _ _ _ (fa_inv _ _ _ _ H))). by apply (fa_table _ _ _ _ H). Qed.
Lemma fa_at s D P a p : fs_abs s D P a -> p ∈ D ++ P -> exists i, inodes s !! p = Some i.
Proof.
  intros H Hp. apply elem_of_app in Hp as [Hp|Hp].
  - destruct (fs_dir _ _ _ _ p (fa_inv _ _ _ _ H) Hp) as (i & Hi & _). by exists i.
  - destruct (fs_reg _ _ _ _ p (fa_inv _ _ _ _ H) Hp) as (i & Hi & _). by exists i.
Qed.

(** *** Following names *)

Lemma abs_child s D P a p i n k : fs_abs s D P a -> p ∈ D -> inodes s !! p = Some i -> a_name a (i_ino i) (BKDRHash n) = Some k ->
  exists q j, child s D p n q /\ (q ∈ D ++ P) /\ inodes s !! q = Some j /\ i_ino j = k /\ is_symlink j = false /\ (a_kind a k = Some (is_dir j)).
Proof.
  intros H Hp Hi Hk. destruct (fa_dirs _ _ _ _ H p i Hp Hi) as [_ En]. rewrite En in Hk.
  destruct (fa_closed _ _ _ _ H p i _ k Hp Hi Hk) as (Hne & q & j & Hq & Hj & Ej). exists q, j.
  destruct (fs_dir _ _ _ _ p (fa_inv _ _ _ _ H) Hp) as (x & Hx & Hok & _). rewrite Hi in Hx. injection Hx as <-.
  destruct (fi_kind _ _ _ _ (fa_inv _ _ _ _ H) p i Hi) as [Hdir _]. destruct (fi_kind _ _ _ _ (fa_inv _ _ _ _ H) q j Hj) as [Kd Kf].
  split_and!; try done.
  - destruct (hash_dec s (i_list i) (BKDRHash n)) as [(d & Hd & Eh)|Hno]; [|by rewrite (entry_ino_miss sb s p i) in Hk].
    destruct (entry_of sb s i d Hok Hd) as (e & He & Hr); [apply (so_mem _ _ (dv_shared _ _ _ (fi_dirs _ _ _ _ (fa_inv _ _ _ _ H))))|].
    assert (d_hash e = BKDRHash n) as Ee by (unfold hash_of in Eh; by rewrite He in Eh).
    rewrite <- Ee, (entry_ino_hit sb s p i d e) in Hk by done. injection Hk as Ek. exists d, e, i. split.
    + split; [done|]. exists i. split_and!; try done. by apply Hdir.
    + split_and!; try done; try lia. rewrite Ek, <- Ej. by apply (fa_table _ _ _ _ H).
  - apply elem_of_app in Hq as [Hq|Hq]; [|by apply (fa_reg _ _ _ _ H q)]. specialize (Kd Hq). unfold is_dir, is_symlink in *.
    apply Z.eqb_eq in Kd. rewrite Kd. done.
  - rewrite <- Ej. apply elem_of_app in Hq as [Hq|Hq].
    + destruct (fa_dirs _ _ _ _ H q j Hq Hj) as [-> _]. by rewrite (Kd Hq).
    + destruct (fa_files _ _ _ _ H q j Hq Hj) as [-> _]. by rewrite (Kf Hq).
Qed.

Lemma abs_walk s D P a names : fs_abs s D P a -> forall p i k, p ∈ D ++ P -> inodes s !! p = Some i -> i_ino i = k -> (names <> [] -> p ∈ D) ->
  match a_walk a k names with
  | inr e => resolves s D p names (inr e)
  | inl k' => exists q j, resolves s D p names (inl q) /\ (q ∈ D ++ P) /\ inodes s !! q = Some j /\ i_ino j = k'
  end.
Proof.
  intros H. induction names as [|n ns IH]; intros p i k Hp Hi <- HD; cbn [a_walk].
  { exists p, i. split; [constructor|done]. }
  specialize (HD ltac:(done)). destruct (a_name a (i_ino i) (BKDRHash n)) as [k'|] eqn:En.
  - destruct (abs_child s D P a p i n k' H HD Hi En) as (q & j & Hc & Hq & Hj & Ej & Hsym & Hk).
    assert (ns <> [] -> is_dir j = true -> q ∈ D) as HqD.
    { intros _ Hd. rewrite Hd in Hk. exact (fa_member _ _ _ _ q j k' true H Hk Hq Hj Ej). }
    destruct ns as [|m ms].
    + cbn [a_walk] in *. exists q, j. split; [|done]. eapply res_step; [exact Hc|exact Hj|done|done|constructor].
    + rewrite Hk. destruct (is_dir j) eqn:Hd.
      * specialize (IH q j k' Hq Hj Ej ltac:(intros _; by apply HqD)). destruct (a_walk a k' (m :: ms)) as [k2|e].
        -- destruct IH as (q2 & j2 & Hr & Hrest). exists q2, j2. split; [|done]. by eapply res_step.
        -- by eapply res_step.
      * by eapply res_not_dir.
  - apply res_absent. split; [done|]. exists i. destruct (fi_kind _ _ _ _ (fa_inv _ _ _ _ H) p i Hi) as [Hdir _]. split_and!; [done|by apply Hdir|].
    intros d Hd E. destruct (fs_dir _ _ _ _ p (fa_inv _ _ _ _ H) HD) as (x & Hx & Hok & _). rewrite Hi in Hx. injection Hx as <-.
    destruct (do_objs _ _ _ Hok d Hd) as (_ & e & He & _). assert (d_hash e = BKDRHash n) as Ee by (unfold hash_of in E; by rewrite He in E).
    destruct (fa_dirs _ _ _ _ H p i HD Hi) as [_ En']. rewrite En', <- Ee, (entry_ino_hit sb s p i d e) in En by done. discriminate En.
Qed.

(** *** Changes *)

(** The inodes of [D] and [P] keep their numbers, modes and links. *)
Definition same_nodes (D P : list Z) (s s' : fs) : Prop :=
  forall q j, q ∈ D ++ P -> inodes s !! q = Some j -> exists j', inodes s' !! q = Some j' /\ i_ino j' = i_ino j /\ i_mode j' = i_mode j /\ i_link j' = i_link j.

Lemma same_nodes_back s s' D P a q j' : fs_abs s D P a -> same_nodes D P s s' -> q ∈ D ++ P -> inodes s' !! q = Some j' ->
  exists j, inodes s !! q = Some j /\ i_ino j' = i_ino j /\ i_mode j' = i_mode j /\ i_link j' = i_link j.
Proof.
  intros H Hs Hq Hj'. destruct (fa_at _ _ _ _ _ H Hq) as (j & Hj). exists j. split; [done|].
  destruct (Hs q j Hq Hj) as (x & Hx & E). rewrite Hj' in Hx. by injection Hx as <-.
Qed.

Lemma abs_step s s' D P a a' :
  fs_abs s D P a -> fs_inv sb s' D P -> serial (jnl_mgr s') -> ebufs_ok (ebuf_mgr s') -> root s' = root s -> inode_table s' = inode_table s ->
  same_nodes D P s s' -> (forall k, a_kind a' k = a_kind a k) ->
  (forall p i h, p ∈ D -> inodes s !! p = Some i -> a_name a' (i_ino i) h = entry_ino s' p h) ->
  (forall p i h k, p ∈ D -> inodes s !! p = Some i -> entry_ino s' p h = Some k -> k <> i_ino i /\ exists q h', q ∈ D /\ entry_ino s q h' = Some k) ->
  (forall p i i', p ∈ P -> inodes s !! p = Some i -> inodes s' !! p = Some i' -> a_size a' (i_ino i) = i_size i' /\
     forall o v, 0 <= o -> a_byte a' (i_ino i) o = Some v -> block_of i' (o / PAGE_SIZE) <> 0 /\ file_byte sb s' i' o = v) ->
  (forall p i i', p ∈ P -> inodes s !! p = Some i -> inodes s' !! p = Some i' -> plain s i -> plain s' i') ->
  fs_abs s' D P a'.
Proof.
  intros H Hinv Hj He Er Et Hn Hk Hnm Hcl Hf Hpl. pose proof (same_nodes_back s s' D P a) as Hback. pose proof H as [_ _ _ [R1 (i0 & R2 & R3)] F5 F6 F7 F8 F9 F10 F11 F12].
  constructor; try done.
  - rewrite Er. split; [done|]. destruct (Hn _ i0 ltac:(apply elem_of_app; left; exact R1) R2) as (j & Hj' & E & _). exists j. split; [done|congruence].
  - intros p i' Hp Hi'. destruct (Hback p i' H Hn Hp Hi') as (i & Hi & E & _). rewrite Et, E. by apply F5.
  - intros p i' Hp Hi'. destruct (Hback p i' H Hn ltac:(apply elem_of_app; by right) Hi') as (i & Hi & _ & E & _). unfold is_symlink. rewrite E. by apply (F6 p).
  - intros p i' h k Hp Hi' Hh. destruct (Hback p i' H Hn ltac:(apply elem_of_app; by left) Hi') as (i & Hi & E & _). rewrite E.
    destruct (Hcl p i h k Hp Hi Hh) as (Hne & q & h' & Hq & Hq'). split; [done|]. destruct (fs_dir _ _ _ _ q (fa_inv _ _ _ _ H) Hq) as (j & Hj0 & _).
    destruct (F7 q j h' k Hq Hj0 Hq') as (_ & z & jz & Hz & Hjz & Ez). destruct (Hn z jz Hz Hjz) as (jz' & Hjz' & E' & _). exists z, jz'. split_and!; [done|done|congruence].
  - intros p i' Hp Hi'. destruct (Hback p i' H Hn ltac:(apply elem_of_app; by left) Hi') as (i & Hi & -> & _). rewrite Hk. split; [by apply (F8 p)|].
    intros h. by apply Hnm.
  - intros p i' Hp Hi'. destruct (Hback p i' H Hn ltac:(apply elem_of_app; by right) Hi') as (i & Hi & -> & _). rewrite Hk. split; [by apply (F9 p)|].
    by apply (Hf p i).
  - intros k b Hb. rewrite Hk in Hb. destruct (F10 k b Hb) as (p & i & Hp & Hi & E). destruct (Hn p i Hp Hi) as (i' & Hi' & E' & _).
    exists p, i'. split_and!; [done|done|congruence].
  - intros p i' Hp Hi'. destruct (Hback p i' H Hn Hp Hi') as (i & Hi & _ & _ & ->). by apply (F11 p).
  - intros p i' Hp Hi'. destruct (Hback p i' H Hn ltac:(apply elem_of_app; by right) Hi') as (i & Hi & _). by apply (Hpl p i i'), (F12 p i).
Qed.

Lemma plain_same s s' i i' :
  block_of i' = block_of i -> i_size i' = i_size i -> (forall k, 0 <= k -> extent (filents s') (block_of i') k = extent (filents s) (block_of i) k) ->
  plain s i -> plain s' i'.
Proof.
  intros Eb Ez Hx [H1 H2]. split; [|by rewrite Ez, Eb]. intros k n Hk. rewrite Hx by done. by apply H1.
Qed.

(** Nothing the tree has changes. *)
Lemma abs_same s s' D P a a' :
  fs_abs s D P a -> keeps sb D P s s' -> serial (jnl_mgr s') -> ebufs_ok (ebuf_mgr s') -> root s' = root s -> inode_table s' = inode_table s ->
  same_nodes D P s s' -> (forall q h, q ∈ D -> entry_ino s' q h = entry_ino s q h) ->
  a_kind a' = a_kind a -> a_name a' = a_name a -> a_size a' = a_size a -> a_byte a' = a_byte a -> fs_abs s' D P a'.
Proof.
  intros H Hk Hj He Er Et Hn Hv E1 E2 E3 E4. destruct (Hk (fa_inv _ _ _ _ H)) as [Hinv Hf]. apply (abs_step s s' D P a a' H); try done.
  - intros k. by rewrite E1.
  - intros p i h Hp Hi. rewrite E2, Hv by done. by apply (fa_dirs _ _ _ _ H p i).
  - intros p i h k Hp Hi Hh. rewrite Hv in Hh by done. destruct (fa_closed _ _ _ _ H p i h k Hp Hi Hh) as [Hne _]. split; [done|]. by exists p, h.
  - intros p i i' Hp Hi Hi'. destruct (Hf p i Hp Hi) as (j & Hj' & Hs & Hz & _ & _ & Hb). rewrite Hi' in Hj'. injection Hj' as <-.
    destruct (fa_files _ _ _ _ H p i Hp Hi) as (_ & Ez & Eb). rewrite E3, E4, Hz. split; [done|]. intros o v Ho Hv'. rewrite (same_file_block i i' Hs), Hb by done. by apply Eb.
  - intros p i i' Hp Hi Hi'. destruct (Hf p i Hp Hi) as (j & Hj' & Hs & Hz & _ & Hx & _). rewrite Hi' in Hj'. injection Hj' as <-.
    apply plain_same; [by apply same_file_block|done|done].
Qed.

(** The open files when only the file system changes. *)
Lemma rt_grow s s' r D P D' P' a a' :
  rt_abs s r D P a -> same_nodes D P s s' -> (forall x, x ∈ D ++ P -> x ∈ D' ++ P') -> root s' = root s -> a_open a' = a_open a -> rt_abs s' r D' P' a'.
Proof.
  intros [R1 R2 R3 R4] Hn Hsub Er Ea. constructor; [done|congruence| |].
  - intros fd k Hk. rewrite Ea in Hk. destruct (R3 fd k Hk) as (Hfd & fh & i & Hfh & Hv & Hp & Hi & E). split; [done|].
    destruct (Hn _ i Hp Hi) as (i' & Hi' & E' & _). exists fh, i'. split_and!; try done; [by apply Hsub|congruence].
  - intros fd fh Hfd Ho. rewrite Ea in Ho. by apply R4.
Qed.
Lemma rt_same s s' r D P a a' : rt_abs s r D P a -> same_nodes D P s s' -> root s' = root s -> a_open a' = a_open a -> rt_abs s' r D P a'.
Proof. intros H Hn. by apply (rt_grow s s' r D P D P a a' H Hn). Qed.
(** A descriptor is opened. *)
Lemma rt_open s y y' D P a fd p i k flags :
  rt_abs s (y_rt y) D P a -> new_fd y y' fd p flags -> p ∈ D ++ P -> inodes s !! p = Some i -> i_ino i = k ->
  rt_abs s (y_rt y') D P (a_set_open fd (Some k) a) /\ a_open a fd = None.
Proof.
  intros [R1 R2 R3 R4] [N1 (g & Hg & Hgv) N3 N4 N5] Hp Hi Ek. assert (a_open a fd = None) as Hn.
  { destruct (a_open a fd) as [x|] eqn:E; [|done]. destruct (R3 fd x E) as (_ & fh & j & Hfh & Hv & _). congruence. }
  pose proof (lookup_lt_Some _ _ _ Hg) as Hlt. split; [|done]. constructor; [done|congruence| |]; intros x; cbn [a_open a_set_open]; destruct (Z.eqb_spec x fd) as [->|Hne].
  - intros z [= <-]. split; [done|]. eexists _, i. rewrite N3, list_lookup_insert_eq by done. split_and!; try done.
  - intros z Hz. destruct (R3 x z Hz) as (Hx & fh & j & Hfh & Hrest). split; [done|]. exists fh, j. rewrite N3, list_lookup_insert_ne by lia. done.
  - done.
  - intros fh Hx Ho. rewrite N3, list_lookup_insert_ne by lia. by apply R4.
Qed.
(** A descriptor is moved. *)
Lemma rt_move s r D P a fd fh off :
  rt_abs s r D P a -> 0 <= fd -> f_table r !! Z.to_nat fd = Some fh ->
  rt_abs s (upd_f_table <[Z.to_nat fd := mk_fh (fh_fd fh) (fh_file fh) off (fh_flags fh) (fh_valid fh) (temp_dirent fh)]> r) D P a.
Proof.
  intros [[R1 R1'] R2 R3 R4] Hfd Hfh. pose proof (lookup_lt_Some _ _ _ Hfh) as Hlt.
  constructor; [constructor; simpl; [by rewrite zlength_insert|done]|done| |].
  - intros x k Hk. destruct (R3 x k Hk) as (Hx & g & i & Hg & Hrest). split; [done|]. cbn [f_table upd_f_table]. destruct (decide (x = fd)) as [->|Hne].
    + rewrite Hfh in Hg. injection Hg as <-. eexists _, i. rewrite list_lookup_insert_eq by done. split; [reflexivity|]. done.
    + exists g, i. by rewrite list_lookup_insert_ne by lia.
  - intros x g Hx Ho. cbn [f_table upd_f_table]. destruct (decide (x = fd)) as [->|Hne].
    + rewrite list_lookup_insert_eq by done. intros [= <-]. cbn [fh_valid fh_file]. by apply (R4 fd).
    + rewrite list_lookup_insert_ne by lia. by apply R4.
Qed.

(** ** The calls keep the relation *)

Hypothesis Hlo : layout_ok sb.
Context (cpu now stray : Z) (junk : mem) (stk stk' : nameidata) (fake_ts : Z).
Hypothesis Hcpu : 0 <= cpu.
Local Abbreviation w := (mk_around cpu now stray junk stk stk' fake_ts).

Lemma start_root y D P a path : session y D P a -> start_of y path = root (y_fs y).
Proof. intros (_ & [_ Ec _ _] & _). unfold start_of. rewrite Ec. by destruct (starts_at_root path). Qed.

Lemma root_walk s D P a names : fs_abs s D P a ->
  match a_walk a 0 names with
  | inr e => resolves s D (root s) names (inr e)
  | inl k' => exists q j, resolves s D (root s) names (inl q) /\ (q ∈ D ++ P) /\ inodes s !! q = Some j /\ i_ino j = k'
  end.
Proof.
  intros H. destruct (fa_root _ _ _ _ H) as (Hr & i & Hi & E). apply (abs_walk s D P a names H (root s) i 0); try done. apply elem_of_app. by left.
Qed.
Lemma root_live s D P a : fs_abs s D P a -> live s (root s) 0.
Proof.
  intros H. destruct (fa_root _ _ _ _ H) as (Hr & i & Hi & E). rewrite <- E. apply (fa_live s D P a); [done|apply elem_of_app; by left|done].
Qed.

(** The inode at [p] changes in what no invariant mentions. *)
Lemma abs_attrs s s' D P a p i i' :
  fs_abs s D P a -> inodes s !! p = Some i -> inodes s' = <[p := i']> (inodes s) -> same_shape i i' -> i_link i' = i_link i ->
  same_objects s s' -> inode_table s' = inode_table s -> root s' = root s -> jnl_mgr s' = jnl_mgr s -> ebuf_mgr s' = ebuf_mgr s -> dev s' = dev s ->
  fs_abs s' D P a /\ same_nodes D P s s'.
Proof.
  intros H Hi E Hs Elk Hobj Et Er Ej Eb Ed. pose proof (insert_shape s s' p i i' Hi E Hs) as Hin.
  assert (mem_ok (bytes (dev s'))) as Hm by (rewrite Ed; apply (so_mem _ _ (dv_shared _ _ _ (fi_dirs _ _ _ _ (fa_inv _ _ _ _ H))))).
  assert (same_nodes D P s s') as Hn.
  { intros q j _ Hj. rewrite E. destruct (decide (q = p)) as [->|Hne]; [|exists j; by rewrite lookup_insert_ne].
    rewrite Hi in Hj. injection Hj as <-. exists i'. rewrite lookup_insert_eq. by destruct Hs as ((-> & _) & _ & _ & ->). }
  split; [|done]. apply (abs_same s s' D P a a H); rewrite ?Ej, ?Eb; try done; [|apply H|apply H|].
  - apply (fs_shape sb Hlo); try done. intros x _. by rewrite Ed.
  - intros q h Hq. apply (fs_shape_view sb Hlo s s' D P q h (fa_inv _ _ _ _ H)); try done. intros x _. by rewrite Ed.
Qed.
Lemma abs_open_irrelevant s D P a a' :
  fs_abs s D P a -> a_kind a' = a_kind a -> a_name a' = a_name a -> a_size a' = a_size a -> a_byte a' = a_byte a -> fs_abs s D P a'.
Proof. intros [] E1 E2 E3 E4. constructor; rewrite ?E1, ?E2, ?E3, ?E4; done. Qed.

Lemma rt_leak y y' D P a fd : rt_abs (y_fs y) (y_rt y) D P a -> new_fd y y' fd 0 0 -> rt_abs (y_fs y) (y_rt y') D P a.
Proof.
  intros [R1 R2 R3 R4] [N1 (g & Hg & Hgv) N3 N4 N5]. pose proof (lookup_lt_Some _ _ _ Hg) as Hlt. constructor; [done|congruence| |]; intros x.
  - intros z Hz. destruct (R3 x z Hz) as (Hx & fh & j & Hfh & Hv & Hrest). split; [done|]. exists fh, j. rewrite N3, list_lookup_insert_ne; [done|].
    intros E. assert (x = fd) as -> by lia. congruence.
  - intros fh Hx Ho. rewrite N3. destruct (decide (x = fd)) as [->|Hne].
    + rewrite list_lookup_insert_eq by done. intros [= <-]. by right.
    + rewrite list_lookup_insert_ne by lia. by apply R4.
Qed.

Lemma run_open_ok path flags mode y fd y' :
  slotfs_open sb cpu now stray junk stk AT_FDCWD path flags mode y = Ok (fd, y') -> 0 <= fd -> do_call sb w (Open path flags mode) y = Ok (Int fd, y').
Proof. intros H Hfd. cbn [do_call]. unfold int. mstep H. rewrite (proj2 (Z.eqb_neq fd (-1))) by lia. done. Qed.
Lemma run_open_err path flags mode y y' :
  slotfs_open sb cpu now stray junk stk AT_FDCWD path flags mode y = Ok (-1, y') -> do_call sb w (Open path flags mode) y = Ok (Err (_errno (y_rt y')), y').
Proof. intros H. cbn [do_call]. unfold int. mstep H. done. Qed.

Lemma session_leak y y' D P a fd : session y D P a -> y_fs y' = y_fs y -> new_fd y y' fd 0 0 -> session y' D P a.
Proof.
  intros (Hfs & Hrt & HL) E Hn. split; [by rewrite E|]. split; [rewrite E; by apply (rt_leak y y' D P a fd)|]. unfold locks in *. by rewrite E.
Qed.
Lemma session_open y y' D P a q i fd flags :
  session y D P a -> q ∈ D ++ P -> inodes (y_fs y) !! q = Some i -> y_fs y' = reopened q i (y_fs y) -> new_fd y y' fd q flags ->
  session y' D P (a_set_open fd (Some (i_ino i)) a) /\ a_open a fd = None.
Proof.
  intros (Hfs & Hrt & HL) Hq Hi E Hn. destruct (rt_open _ y y' D P a fd q i (i_ino i) flags Hrt Hn Hq Hi eq_refl) as [Hrt' Hno].
  destruct (abs_attrs (y_fs y) (reopened q i (y_fs y)) D P a q i (upd_i_ref (fun n => u32 (n + 1)) i) Hfs Hi) as [Hfs' Hnodes]; try done.
  split; [|done]. split; [rewrite E; by apply (abs_open_irrelevant _ _ _ a)|]. split; [|unfold locks in *; by rewrite E].
  rewrite E. by apply (rt_same (y_fs y) _ _ _ _ (a_set_open fd (Some (i_ino i)) a)).
Qed.

(** [Open] of what exists. *)
Lemma sim_open y D P a path flags mode :
  session y D P a -> has_flag flags O_CREAT = false -> fd_left (y_rt y) ->
  exists r y' a', do_call sb w (Open path flags mode) y = Ok (r, y') /\ astep a (Open path flags mode) r a' /\ session y' D P a'.
Proof.
  intros Hs Hcr Hfd. pose proof Hs as (Hfs & Hrt & HL). pose proof (start_root y D P a path Hs) as Est. pose proof (fa_inv _ _ _ _ Hfs) as Hinv.
  pose proof (root_walk _ _ _ _ (components path) Hfs) as Hw. set (s := y_fs y) in *.
  set (Q := fun inode s' => match a_walk a 0 (components path) with
    | inr e => inode = e /\ s' = s
    | inl k => exists q i, inodes s !! q = Some i /\ i_ino i = k /\ (q ∈ D ++ P) /\
        if has_flag flags O_DIRECTORY && negb (is_dir i) then inode = - ENOTDIR /\ s' = s else inode = q /\ s' = reopened q i s end).
  destruct (open_with sb cpu now stray junk stk y path flags mode Q (ra_ok _ _ _ _ _ Hrt) Hfd) as (fd & inode & y' & HQ & Hrun).
  { intros r' E. assert (start_of (upd_y_rt (fun _ => r') y) path = root s) as Es by (unfold start_of in *; cbn [y_rt y_fs upd_y_rt]; by rewrite E, Est).
    unfold Q. destruct (a_walk a 0 (components path)) as [k|e].
    - destruct Hw as (q & i & Hres & Hq & Hi & Ei).
      pose proof (do_open_run sb cpu now stray junk stk (upd_y_rt (fun _ => r') y) D path flags mode 0 (inl q) (fi_dirs _ _ _ _ Hinv) (fi_cache _ _ _ _ Hinv) HL) as Hdo.
      rewrite Es in Hdo. specialize (Hdo (root_live _ _ _ _ Hfs) Hcr Hres i Hi). rewrite Hdo.
      destruct (has_flag flags O_DIRECTORY && negb (is_dir i)) eqn:Hdir.
      + exists (- ENOTDIR), s. split; [by destruct y|]. exists q, i. rewrite Hdir. done.
      + exists q, (reopened q i s). split; [done|]. exists q, i. rewrite Hdir. done.
    - pose proof (do_open_run sb cpu now stray junk stk (upd_y_rt (fun _ => r') y) D path flags mode 0 (inr e) (fi_dirs _ _ _ _ Hinv) (fi_cache _ _ _ _ Hinv) HL) as Hdo.
      rewrite Es in Hdo. specialize (Hdo (root_live _ _ _ _ Hfs) Hcr Hw). rewrite Hdo. exists e, s. split; [by destruct y|done]. }
  unfold Q in HQ. destruct (a_walk a 0 (components path)) as [k|e] eqn:Ew.
  - destruct HQ as (q & i & Hi & Ei & Hq & HQ). assert (bool_decide (a_kind a k = Some true) = is_dir i) as Ek.
    { destruct (fi_kind _ _ _ _ Hinv q i Hi) as [Kd Kf]. rewrite <- Ei. apply elem_of_app in Hq as [Hq|Hq].
      - destruct (fa_dirs _ _ _ _ Hfs q i Hq Hi) as [-> _]. by rewrite (Kd Hq).
      - destruct (fa_files _ _ _ _ Hfs q i Hq Hi) as [-> _]. by rewrite (Kf Hq). }
    destruct (has_flag flags O_DIRECTORY && negb (is_dir i)) eqn:Hdir.
    + destruct HQ as [-> Es]. destruct Hrun as (Hrun & He & Hn). exists (Err (- ENOTDIR)), y', a. split_and!.
      * rewrite (run_open_err _ _ _ _ _ Hrun). by rewrite He.
      * apply andb_true_iff in Hdir as [Hf Hd]. eapply as_open_no_dir; [done|exact Ew|done|]. intros E. rewrite bool_decide_true in Ek by done. by rewrite <- Ek in Hd.
      * by apply (session_leak y y' D P a fd).
    + destruct HQ as [-> Es]. destruct (fa_live _ _ _ _ _ _ Hfs Hq Hi) as ((Ha & _) & _). rewrite not_IS_ERR in Hrun by lia. destruct Hrun as [Hrun Hn].
      destruct (session_open y y' D P a q i fd flags Hs Hq Hi Es Hn) as [Hs' Hno]. exists (Int fd), y', (a_set_open fd (Some k) a). split_and!.
      * apply run_open_ok; [done|]. apply Hn.
      * apply as_open; try done; [by rewrite Ek|apply Hn].
      * by rewrite <- Ei.
  - destruct HQ as [-> Es]. assert (IS_ERR e = true /\ i32 e = e) as [He1 He2] by (destruct (resolves_err _ _ _ _ _ Hw) as [-> | ->]; done).
    rewrite He1 in Hrun. destruct Hrun as (Hrun & He & Hn). exists (Err e), y', a. split_and!.
    + rewrite (run_open_err _ _ _ _ _ Hrun). by rewrite He, He2.
    + by apply as_open_absent.
    + by apply (session_leak y y' D P a fd).
Qed.

Lemma new_members (b : bool) (D P : list Z) p x : x ∈ (if b then p :: D else D) ++ (if b then P else p :: P) <-> x = p \/ x ∈ D ++ P.
Proof. destruct b; rewrite !elem_of_app, elem_of_cons; tauto. Qed.

(** [Open] with [O_CREAT]: the new inode. *)
Section created.
Context (s s' : fs) (D P : list Z) (a : afs) (q : Z) (i : dram_inode) (l : list Z) (mode p k : Z).
Hypothesis Hfs : fs_abs s D P a.
Hypothesis Hq : q ∈ D.
Hypothesis Hi : inodes s !! q = Some i.
Hypothesis Hcd : created sb now s s' D P q l mode p k 1.
Local Abbreviation D1 := (if mode_dir mode then p :: D else D).
Local Abbreviation P1 := (if mode_dir mode then P else p :: P).
Local Abbreviation a' := (a_set_name (i_ino i) (BKDRHash l) (Some k) (a_new k (mode_dir mode) a)).

Lemma cr_old x j : x ∈ D ++ P -> inodes s !! x = Some j ->
  x <> p /\ i_ino j <> k /\ exists j', inodes s' !! x = Some j' /\ i_ino j' = i_ino j /\ i_mode j' = i_mode j /\ i_link j' = i_link j.
Proof.
  intros Hx Hj. destruct (fi_busy _ _ _ _ (fa_inv _ _ _ _ Hfs) x j Hx Hj) as [B1 B2]. assert (x <> p) as Hne.
  { intros ->. apply B1. rewrite (cd_object _ _ _ _ _ _ _ _ _ _ _ _ Hcd). by left. }
  split_and!; [done| |by apply (cd_others _ _ _ _ _ _ _ _ _ _ _ _ Hcd)].
  intros E. destruct (cd_slot _ _ _ _ _ _ _ _ _ _ _ _ Hcd) as (_ & Hf & _). congruence.
Qed.
Lemma cr_fresh : a_kind a k = None.
Proof.
  destruct (a_kind a k) as [b|] eqn:E; [|done]. destruct (fa_kind _ _ _ _ Hfs k b E) as (x & j & Hx & Hj & Ej). by destruct (cr_old x j Hx Hj) as (_ & ? & _).
Qed.
Lemma cr_back x j' : x ∈ D1 ++ P1 -> inodes s' !! x = Some j' ->
  (x = p /\ i_ino j' = k /\ i_mode j' = mode /\ i_size j' = 0) \/
  (x <> p /\ (x ∈ D1 -> x ∈ D) /\ (x ∈ P1 -> x ∈ P) /\ (x ∈ D ++ P) /\
    exists j, inodes s !! x = Some j /\ i_ino j' = i_ino j /\ i_ino j <> k /\ i_mode j' = i_mode j /\ i_link j' = i_link j).
Proof.
  intros [->|Hx]%new_members Hj'.
  - left. destruct (cd_inode _ _ _ _ _ _ _ _ _ _ _ _ Hcd) as (j & Hj & E1 & E2 & E3 & _). rewrite Hj' in Hj. injection Hj as <-. done.
  - right. destruct (fa_at _ _ _ _ _ Hfs Hx) as (j & Hj). destruct (cr_old x j Hx Hj) as (Hne & Hk & j2 & Hj2 & E1 & E2 & E3). rewrite Hj' in Hj2. injection Hj2 as <-.
    split; [done|]. split; [destruct (mode_dir mode); rewrite ?elem_of_cons; tauto|]. split; [destruct (mode_dir mode); rewrite ?elem_of_cons; tauto|].
    split; [done|]. by exists j.
Qed.
(** The new node is a directory or a file. *)
Lemma cr_kind : (p ∈ D1 -> mode_dir mode = true) /\ (p ∈ P1 -> mode_dir mode = false).
Proof.
  assert (p ∉ D ++ P) as Hn. { intros Hx. destruct (fa_at _ _ _ _ _ Hfs Hx) as (j & Hj). by destruct (cr_old p j Hx Hj). }
  rewrite elem_of_app in Hn. destruct (mode_dir mode); split; intros; try done; exfalso; tauto.
Qed.
Lemma cr_name x j h : x ∈ D -> inodes s !! x = Some j -> a_name a' (i_ino j) h = entry_ino s' x h.
Proof.
  intros Hx Hj. assert (x ∈ D ++ P) as Hxp by (apply elem_of_app; by left). assert (q ∈ D ++ P) as Hqp by (apply elem_of_app; by left).
  destruct (cr_old x j Hxp Hj) as (_ & Hk & _). rewrite (cd_view _ _ _ _ _ _ _ _ _ _ _ _ Hcd) by done.
  cbn [a_name a_set_name a_new]. rewrite (proj2 (Z.eqb_neq _ _) Hk). destruct (fa_dirs _ _ _ _ Hfs x j Hx Hj) as [_ ->].
  destruct (decide (x = q /\ h = BKDRHash l)) as [[-> ->]|Hne].
  - rewrite Hi in Hj. injection Hj as <-. by rewrite !Z.eqb_refl.
  - destruct (Z.eqb_spec (i_ino j) (i_ino i)) as [E|]; [|done]. destruct (Z.eqb_spec h (BKDRHash l)) as [->|]; [|done].
    exfalso. apply Hne. split; [|done]. by apply (fa_inj s D P a x q j i).
Qed.
Lemma cr_closed x j' h z : x ∈ D1 -> inodes s' !! x = Some j' -> entry_ino s' x h = Some z ->
  z <> i_ino j' /\ exists y j, (y ∈ D1 ++ P1) /\ inodes s' !! y = Some j /\ i_ino j = z.
Proof.
  intros Hx Hj' Hz. destruct (cr_back x j') as [(-> & _ & Em & _)|(Hne & HxD & _ & Hxp & j & Hj & Ej & Hk & _)]; [apply elem_of_app; by left|done|..].
  { rewrite (cd_empty _ _ _ _ _ _ _ _ _ _ _ _ Hcd) in Hz by (by apply cr_kind). discriminate Hz. }
  specialize (HxD Hx). rewrite Ej. rewrite (cd_view _ _ _ _ _ _ _ _ _ _ _ _ Hcd) in Hz by done. destruct (decide _) as [[-> ->]|Hn].
  - injection Hz as <-. split; [done|]. destruct (cd_inode _ _ _ _ _ _ _ _ _ _ _ _ Hcd) as (jp & Hjp & E & _). exists p, jp. split_and!; try done. apply new_members. by left.
  - destruct (fa_closed _ _ _ _ Hfs x j h z HxD Hj Hz) as (Hne' & y & jy & Hy & Hjy & Ey). split; [done|].
    destruct (cr_old y jy Hy Hjy) as (_ & _ & j2 & Hj2 & E2 & _). exists y, j2. split_and!; [apply new_members; by right|done|congruence].
Qed.
Lemma cr_nodes : same_nodes D P s s'.
Proof. intros x j Hx Hj. by destruct (cr_old x j Hx Hj) as (_ & _ & ?). Qed.

Lemma abs_created : (Z.land mode S_IFMT =? S_IFLNK) = false -> fs_abs s' D1 P1 a'.
Proof.
  intros Hsym. pose proof Hfs as [_ F2 F3 [R1 (i0 & R2 & R3)] F5 F6 F7 F8 F9 F10 F11 F12]. destruct (cd_rest _ _ _ _ _ _ _ _ _ _ _ _ Hcd) as (_ & Er & Eb & Ej & _).
  constructor; [apply (cd_inv _ _ _ _ _ _ _ _ _ _ _ _ Hcd)|by rewrite Ej|by rewrite Eb|..].
  - rewrite Er. split; [destruct (mode_dir mode); [by right|done]|]. destruct (cr_nodes _ i0 ltac:(apply elem_of_app; left; exact R1) R2) as (j & Hj & E & _).
    exists j. split; [done|congruence].
  - intros x j Hx Hj. rewrite (cd_table _ _ _ _ _ _ _ _ _ _ _ _ Hcd). cbn [Z.eqb].
    destruct (cr_back x j Hx Hj) as [(-> & -> & _)|(_ & _ & _ & Hxp & j0 & Hj0 & -> & Hk & _)]; [apply lookup_insert_eq|].
    rewrite lookup_insert_ne by done. by apply F5.
  - intros x j Hx Hj. destruct (cr_back x j) as [(-> & _ & Em & _)|(_ & _ & HxP & _ & j0 & Hj0 & _ & _ & Em & _)]; [apply elem_of_app; by right|done|..]; unfold is_symlink; rewrite Em; [done|].
    by apply (F6 x j0); [apply HxP|].
  - exact cr_closed.
  - intros x j Hx Hj. destruct (cr_back x j) as [(-> & E & _)|(_ & HxD & _ & _ & j0 & Hj0 & E & Hk & _)]; [apply elem_of_app; by left|done|..]; rewrite E.
    + cbn [a_kind a_name a_set_name a_new]. rewrite Z.eqb_refl, (proj1 cr_kind Hx). split; [done|]. intros h.
      destruct (cr_old q i ltac:(apply elem_of_app; by left) Hi) as (_ & Hki & _). rewrite (proj2 (Z.eqb_neq k (i_ino i))) by done. cbn [andb].
      symmetry. apply (cd_empty _ _ _ _ _ _ _ _ _ _ _ _ Hcd). by apply cr_kind.
    + specialize (HxD Hx). split; [|intros h; by apply cr_name]. cbn [a_kind a_set_name a_new]. rewrite (proj2 (Z.eqb_neq _ _) Hk). by apply (F8 x).
  - intros x j Hx Hj. destruct (cr_back x j) as [(-> & E & _ & Ez)|(_ & _ & HxP & _ & j0 & Hj0 & E & Hk & _)]; [apply elem_of_app; by right|done|..]; rewrite E;
      cbn [a_kind a_size a_byte a_set_name a_new].
    + rewrite Z.eqb_refl, (proj2 cr_kind Hx), Ez. split_and!; try done.
    + specialize (HxP Hx). rewrite (proj2 (Z.eqb_neq _ _) Hk). destruct (F9 x j0 HxP Hj0) as (K1 & K2 & K3).
      destruct (cd_files _ _ _ _ _ _ _ _ _ _ _ _ Hcd x j0 HxP Hj0) as (j2 & Hj2 & Hs & Hz & _ & _ & Hb). rewrite Hj in Hj2. injection Hj2 as <-.
      split_and!; [done|congruence|]. intros o v Ho Hv. rewrite (same_file_block j0 j Hs), Hb by done. by apply K3.
  - intros z b. cbn [a_kind a_set_name a_new]. destruct (Z.eqb_spec z k) as [->|Hz]; intros Hb.
    + destruct (cd_inode _ _ _ _ _ _ _ _ _ _ _ _ Hcd) as (jp & Hjp & E & _). exists p, jp. split_and!; try done. apply new_members. by left.
    + destruct (F10 z b Hb) as (x & j & Hx & Hj & E). destruct (cr_nodes x j Hx Hj) as (j2 & Hj2 & E2 & _). exists x, j2. split_and!; [apply new_members; by right|done|congruence].
  - intros x j Hx Hj. destruct (cr_back x j Hx Hj) as [(-> & _)|(_ & _ & _ & Hxp & j0 & Hj0 & _ & _ & _ & ->)]; [|by apply (F11 x)].
    destruct (cd_inode _ _ _ _ _ _ _ _ _ _ _ _ Hcd) as (jp & Hjp & _ & _ & _ & E & _). rewrite Hj in Hjp. injection Hjp as <-. by rewrite E.
  - intros x j Hx Hj. destruct (cr_back x j) as [(-> & _ & _ & Ez)|(_ & _ & HxP & _ & j0 & Hj0 & _)]; [apply elem_of_app; by right|done|..].
    + destruct (cd_inode _ _ _ _ _ _ _ _ _ _ _ _ Hcd) as (jp & Hjp & _ & _ & _ & _ & _ & Hz). rewrite Hj in Hjp. injection Hjp as <-.
      destruct (Hz (proj2 cr_kind Hx)) as (_ & Hb & _). split; [|by rewrite Ez]. intros y n _. unfold extent. by rewrite Hb.
    + specialize (HxP Hx). destruct (cd_files _ _ _ _ _ _ _ _ _ _ _ _ Hcd x j0 HxP Hj0) as (j2 & Hj2 & Hs & Hz & _ & Hx2 & _).
      rewrite Hj in Hj2. injection Hj2 as <-. apply (plain_same s s' j0 j); [by apply same_file_block|done|done|by apply (F12 x)].
Qed.
End created.

(** The walk to the parent. *)
Lemma parent_walk y D P a names : fs_abs (y_fs y) D P a ->
  match a_parent a names with
  | inr e => parent_fails y D (root (y_fs y)) names e /\ e <> 0 /\ IS_ERR e = true /\ i32 e = e
  | inl d => exists q i, resolves (y_fs y) D (root (y_fs y)) names (inl q) /\ (q ∈ D) /\ inodes (y_fs y) !! q = Some i /\ i_ino i = d
  end.
Proof.
  intros H. pose proof (root_walk _ _ _ _ names H) as Hw. unfold a_parent. destruct (a_walk a 0 names) as [d|e] eqn:Ew.
  - destruct Hw as (q & i & Hres & Hq & Hi & Ei). destruct (a_kind a d) as [[|]|] eqn:Ek.
    + exists q, i. split_and!; try done. exact (fa_member _ _ _ _ q i d true H Ek Hq Hi Ei).
    + split; [|done]. right. exists q, i. pose proof (fa_member _ _ _ _ q i d false H Ek Hq Hi Ei) as HqP. split_and!; try done.
      * intros ->. cbn [a_walk] in Ew. injection Ew as <-. destruct (fa_root _ _ _ _ H) as (Hr & ir & Hir & Er).
        destruct (fa_dirs _ _ _ _ H _ _ Hr Hir) as [Hk _]. rewrite Er in Hk. congruence.
      * by apply (fi_kind _ _ _ _ (fa_inv _ _ _ _ H) q i Hi).
    + exfalso. rewrite <- Ei in Ek. apply elem_of_app in Hq as [Hq|Hq].
      * destruct (fa_dirs _ _ _ _ H q i Hq Hi) as [E _]. congruence.
      * destruct (fa_files _ _ _ _ H q i Hq Hi) as [E _]. congruence.
  - split; [by left|]. by destruct (resolves_err _ _ _ _ _ Hw) as [-> | ->].
Qed.

Definition create_ok (s : fs) (path : list Z) (mode : Z) : Prop :=
  mode_ok mode /\ (Z.land mode S_IFMT =? S_IFLNK) = false /\ Forall name_ok (components path) /\ create_ready s mode.

(** A descriptor for an inode that is there, whose references are not counted. *)
Lemma session_uncounted y y' D P a q i fd flags :
  session y D P a -> q ∈ D ++ P -> inodes (y_fs y) !! q = Some i -> y_fs y' = y_fs y -> new_fd y y' fd q flags ->
  session y' D P (a_set_open fd (Some (i_ino i)) a) /\ a_open a fd = None.
Proof.
  intros (Hfs & Hrt & HL) Hq Hi E Hn. destruct (rt_open _ y y' D P a fd q i (i_ino i) flags Hrt Hn Hq Hi eq_refl) as [Hrt' Hno].
  split; [|done]. split; [rewrite E; by apply (abs_open_irrelevant _ _ _ a)|]. split; [by rewrite E|unfold locks in *; by rewrite E].
Qed.

Lemma run_open_node y D P a path flags mode q i :
  session y D P a -> fd_left (y_rt y) -> q ∈ D ++ P -> inodes (y_fs y) !! q = Some i ->
  (forall r', cwd r' = cwd (y_rt y) ->
     do_slotfs_open sb cpu now stray junk stk AT_FDCWD path flags mode (upd_y_rt (fun _ => r') y) = Ok (q, upd_y_rt (fun _ => r') y)) ->
  exists fd y', do_call sb w (Open path flags mode) y = Ok (Int fd, y') /\ 0 <= fd < FD_MAX /\ a_open a fd = None /\
    session y' D P (a_set_open fd (Some (i_ino i)) a).
Proof.
  intros Hs Hfd Hq Hi Hdo. pose proof Hs as (Hfs & Hrt & HL).
  destruct (open_with sb cpu now stray junk stk y path flags mode (fun x s' => x = q /\ s' = y_fs y) (ra_ok _ _ _ _ _ Hrt) Hfd) as (fd & x & y' & [-> Es] & Hrun).
  { intros r' E. exists q, (y_fs y). split; [rewrite (Hdo r' E); by destruct y|done]. }
  destruct (fa_live _ _ _ _ _ _ Hfs Hq Hi) as ((Ha & _) & _). rewrite not_IS_ERR in Hrun by lia. destruct Hrun as [Hrun Hn].
  destruct (session_uncounted y y' D P a q i fd flags Hs Hq Hi Es Hn) as [Hs' Hno]. exists fd, y'. split_and!; try done; try apply Hn.
  apply run_open_ok; [done|apply Hn].
Qed.
Lemma run_open_error y D P a path flags mode e :
  session y D P a -> fd_left (y_rt y) -> IS_ERR e = true -> i32 e = e ->
  (forall r', cwd r' = cwd (y_rt y) ->
     do_slotfs_open sb cpu now stray junk stk AT_FDCWD path flags mode (upd_y_rt (fun _ => r') y) = Ok (e, upd_y_rt (fun _ => r') y)) ->
  exists y', do_call sb w (Open path flags mode) y = Ok (Err e, y') /\ session y' D P a.
Proof.
  intros Hs Hfd He1 He2 Hdo. pose proof Hs as (Hfs & Hrt & HL).
  destruct (open_with sb cpu now stray junk stk y path flags mode (fun x s' => x = e /\ s' = y_fs y) (ra_ok _ _ _ _ _ Hrt) Hfd) as (fd & x & y' & [-> Es] & Hrun).
  { intros r' E. exists e, (y_fs y). split; [rewrite (Hdo r' E); by destruct y|done]. }
  rewrite He1 in Hrun. destruct Hrun as (Hrun & He & Hn). exists y'. split; [|by apply (session_leak y y' D P a fd)].
  rewrite (run_open_err _ _ _ _ _ Hrun). by rewrite He, He2.
Qed.

Lemma sim_create y D P a path flags mode :
  session y D P a -> has_flag flags O_CREAT = true -> fd_left (y_rt y) -> create_ok (y_fs y) path mode ->
  exists r y' a' D' P', do_call sb w (Open path flags mode) y = Ok (r, y') /\ astep a (Open path flags mode) r a' /\ session y' D' P' a'.
Proof.
  intros Hs Hcr Hfd (Hm & Hsym & Hnames & Hrdy). pose proof Hs as (Hfs & Hrt & HL). pose proof (start_root y D P a path Hs) as Est.
  assert (forall r', cwd r' = cwd (y_rt y) -> start_of (upd_y_rt (fun _ => r') y) path = root (y_fs y)) as Es.
  { intros r' E. unfold start_of in *. cbn [y_rt y_fs upd_y_rt]. by rewrite E, Est. }
  pose proof (fa_inv _ _ _ _ Hfs) as Hinv. pose proof (root_live _ _ _ _ Hfs) as Hroot. destruct (fa_root _ _ _ _ Hfs) as (Hr & ir & Hir & Eir).
  destruct (decide (components path = [])) as [Hnil|(names & l & Hcomp)%exists_last].
  { destruct (run_open_node y D P a path flags mode (root (y_fs y)) ir Hs Hfd) as (fd & y' & Hrun & Hfr & Hno & Hs'); [apply elem_of_app; by left|done| |].
    - intros r' E. by rewrite (open_create_root sb cpu now stray junk stk (upd_y_rt (fun _ => r') y) path flags mode 0); [|rewrite Es|..].
    - exists (Int fd), y', (a_set_open fd (Some 0) a), D, P. rewrite Eir in Hs'. split_and!; [done|by apply as_create_root|done]. }
  pose proof (parent_walk y D P a names Hfs) as Hw. destruct (a_parent a names) as [d|e] eqn:Ep.
  2: { destruct Hw as (Hf & Hne & He1 & He2). destruct (run_open_error y D P a path flags mode e Hs Hfd He1 He2) as (y' & Hrun & Hs').
    - intros r' E. eapply (open_create_fails sb cpu now stray junk stk (upd_y_rt (fun _ => r') y) D path flags mode names l 0 e);
        [apply Hinv|apply Hinv|done|by rewrite Es|done|rewrite Es by done; exact Hf|done|done].
    - exists (Err e), y', a, D, P. split_and!; [done|by eapply as_create_fails|done]. }
  destruct Hw as (q & i & Hres & Hq & Hi & Ei). destruct (fa_dirs _ _ _ _ Hfs q i Hq Hi) as [_ En].
  destruct (a_name a d (BKDRHash l)) as [k|] eqn:Ek.
  - rewrite <- Ei in Ek. destruct (abs_child _ D P a q i l k Hfs Hq Hi Ek) as (q2 & j & Hch & Hq2 & Hj & Ej & _).
    destruct (run_open_node y D P a path flags mode q2 j Hs Hfd Hq2 Hj) as (fd & y' & Hrun & Hfr & Hno & Hs').
    + intros r' E. eapply (open_create_existing sb cpu now stray junk stk (upd_y_rt (fun _ => r') y) D path flags mode names l q i 0 q2);
        [apply Hinv|apply Hinv|done|by rewrite Es|done|rewrite Es by done; exact Hres|done|by apply (fi_kind _ _ _ _ Hinv q i Hi)|done|done].
    + exists (Int fd), y', (a_set_open fd (Some k) a), D, P. rewrite Ej in Hs'. rewrite Ei in Ek. split_and!; [done|by eapply as_create_existing|done].
  - assert (name_ok l) as Hl by (rewrite Hcomp in Hnames; apply Forall_app in Hnames as [_ Hnames]; by inversion Hnames).
    destruct (open_creates_run sb cpu now stray junk stk Hlo Hcpu y D P path flags mode names l q i 0) as (fd & p & k & y' & Hrun & Hn & Hcd & HL');
      rewrite ?Est; try done; [apply Hrt|by rewrite <- En, Ei|].
    pose proof (abs_created _ _ D P a q i l mode p k Hfs Hq Hi Hcd Hsym) as Hfs'. pose proof (cr_nodes _ _ D P a q l mode p k Hfs Hcd) as Hnodes.
    destruct (cd_inode _ _ _ _ _ _ _ _ _ _ _ _ Hcd) as (jp & Hjp & Ejp & _). destruct (cd_rest _ _ _ _ _ _ _ _ _ _ _ _ Hcd) as (_ & Er & _).
    set (a1 := a_set_name (i_ino i) (BKDRHash l) (Some k) (a_new k (mode_dir mode) a)) in *.
    set (D1 := if mode_dir mode then p :: D else D) in *. set (P1 := if mode_dir mode then P else p :: P) in *.
    assert (rt_abs (y_fs y') (y_rt y) D1 P1 a1) as Hrt1.
    { apply (rt_grow (y_fs y) _ _ D P D1 P1 a a1 Hrt); try done. intros x Hx. apply new_members. by right. }
    destruct (rt_open _ y y' D1 P1 a1 fd p jp k flags Hrt1 Hn ltac:(apply new_members; by left) Hjp Ejp) as [Hrt2 Hno].
    exists (Int fd), y', (a_set_open fd (Some k) a1), D1, P1. split_and!.
    + apply run_open_ok; [done|apply Hn].
    + unfold a1. rewrite Ei. eapply as_create; try done; [by apply (cr_fresh _ _ D P a q l mode p k Hfs Hcd)|apply Hn].
    + split; [by apply (abs_open_irrelevant _ _ _ a1)|]. by split.
Qed.

(** *** Reading and writing *)

Section wrote.
Context (s s' : fs) (D P : list Z) (a : afs) (p : Z) (i i' : dram_inode) (ub : mem) (buf len offset : Z).
Hypothesis Hfs : fs_abs s D P a.
Hypothesis Hp : p ∈ P.
Hypothesis Hi : inodes s !! p = Some i.
Hypothesis Hw : wrote sb s s' P p i i' ub junk buf len offset.
Hypothesis Hub : mem_ok ub.
Hypothesis Hjunk : mem_ok junk.
Hypothesis Ho : 0 <= offset.
Hypothesis Hl : 0 < len.
Hypothesis Hone : blocks_of offset len = 1.

Lemma wt_nodes : same_nodes D P s s'.
Proof.
  intros q j Hq Hj. destruct (wr_attrs _ _ _ _ _ _ _ _ _ _ _ _ Hw) as (_ & E1 & E2 & E3). rewrite (wr_inodes _ _ _ _ _ _ _ _ _ _ _ _ Hw).
  destruct (decide (q = p)) as [->|Hne]; [|exists j; by rewrite lookup_insert_ne]. rewrite Hi in Hj. injection Hj as <-. exists i'. by rewrite lookup_insert_eq.
Qed.
Lemma wt_phys o : 0 <= o -> block_of i (o / PAGE_SIZE) <> 0 -> phys (filents s) (block_of i) (o / PAGE_SIZE) <> None.
Proof.
  intros Hoo Hb. destruct (fs_reg _ _ _ _ p (fa_inv _ _ _ _ Hfs) Hp) as (x & Hx & Hok & _). rewrite Hi in Hx. injection Hx as <-.
  assert (0 <= o / PAGE_SIZE) as Hk by (unfold PAGE_SIZE; zdm).
  destruct (core_entry _ _ _ _ _ _ _ (fo_core _ _ _ Hok) Hk Hb) as (e & _ & _ & _ & _ & _ & _ & _ & -> & _). done.
Qed.
Lemma wt_block o : offset <= o < offset + len -> offset / PAGE_SIZE <= o / PAGE_SIZE < offset / PAGE_SIZE + blocks_of offset len.
Proof. intros Hoo. unfold blocks_of, PAGE_SIZE. zdm. Qed.

Lemma wt_plain q j j' : q ∈ P -> inodes s !! q = Some j -> inodes s' !! q = Some j' -> plain s j -> plain s' j'.
Proof.
  intros Hq Hj Hj' [H1 H2]. rewrite (wr_inodes _ _ _ _ _ _ _ _ _ _ _ _ Hw) in Hj'. destruct (decide (q = p)) as [->|Hne].
  - rewrite lookup_insert_eq in Hj'. injection Hj' as <-. rewrite Hi in Hj. injection Hj as <-. split.
    + intros k n Hk E. destruct (wr_extent _ _ _ _ _ _ _ _ _ _ _ _ Hw k Hk) as [X|X]; rewrite X in E; [by apply (H1 k)|]. congruence.
    + destruct (wr_attrs _ _ _ _ _ _ _ _ _ _ _ _ Hw) as (Ez & _). rewrite Ez. intros _.
      apply (wr_mapped _ _ _ _ _ _ _ _ _ _ _ _ Hw); [unfold PAGE_SIZE; zdm|].
      destruct (Z.max_spec (i_size i) (offset + len)) as [[? ->]|[? ->]]; [right; apply wt_block; lia|left; apply H2; lia].
  - rewrite lookup_insert_ne, Hj in Hj' by done. injection Hj' as <-. split; [|done]. intros k n Hk.
    rewrite (wr_extents _ _ _ _ _ _ _ _ _ _ _ _ Hw q j k) by done. by apply H1.
Qed.

Lemma abs_wrote : fs_abs s' D P (a_write (i_ino i) ub buf len offset a).
Proof.
  pose proof (fa_inv _ _ _ _ Hfs) as Hinv. destruct (wr_frame _ _ _ _ _ _ _ _ _ _ _ _ Hw) as [(_ & _ & _ & _ & Et & _ & Er) _ _ _ _ _].
  assert (p ∈ D ++ P) as Hpp by (apply elem_of_app; by right).
  apply (abs_step s s' D P a _ Hfs); try done.
  - by apply (fs_write sb Hlo s s' D P p i i' ub junk buf len offset).
  - apply (wr_jnl _ _ _ _ _ _ _ _ _ _ _ _ Hw).
  - apply (wr_ebufs _ _ _ _ _ _ _ _ _ _ _ _ Hw).
  - exact wt_nodes.
  - intros q j h Hq Hj. rewrite (wop_view sb Hlo s s' D P p i i' ub junk buf len offset) by done. by apply (fa_dirs _ _ _ _ Hfs q j).
  - intros q j h k Hq Hj Hk. rewrite (wop_view sb Hlo s s' D P p i i' ub junk buf len offset) in Hk by done.
    destruct (fa_closed _ _ _ _ Hfs q j h k Hq Hj Hk) as [Hne _]. split; [done|]. by exists q, h.
  - intros q j j' Hq Hj Hj'. destruct (fa_files _ _ _ _ Hfs q j Hq Hj) as (_ & Es & Eb). cbn [a_size a_byte a_write].
    rewrite (wr_inodes _ _ _ _ _ _ _ _ _ _ _ _ Hw) in Hj'. destruct (decide (q = p)) as [->|Hne].
    + rewrite Hi in Hj. injection Hj as <-. rewrite lookup_insert_eq in Hj'. injection Hj' as <-. rewrite Z.eqb_refl, Es.
      destruct (wr_attrs _ _ _ _ _ _ _ _ _ _ _ _ Hw) as (E0 & _). split; [done|]. intros o v Hoo. cbn [andb].
      destruct (Z.leb_spec offset o), (Z.ltb_spec o (offset + len)); cbn [andb]; intros Hv.
      * injection Hv as <-. split; [|apply (wr_range _ _ _ _ _ _ _ _ _ _ _ _ Hw); lia].
        apply (wr_mapped _ _ _ _ _ _ _ _ _ _ _ _ Hw); [unfold PAGE_SIZE; zdm|right; apply wt_block; lia].
      * destruct (Eb o v Hoo Hv) as [Hb <-]. split; [apply (wr_mapped _ _ _ _ _ _ _ _ _ _ _ _ Hw); [unfold PAGE_SIZE; zdm|by left]|].
        apply (wr_rest _ _ _ _ _ _ _ _ _ _ _ _ Hw); [done|lia|left; by apply wt_phys].
      * destruct (Eb o v Hoo Hv) as [Hb <-]. split; [apply (wr_mapped _ _ _ _ _ _ _ _ _ _ _ _ Hw); [unfold PAGE_SIZE; zdm|by left]|].
        apply (wr_rest _ _ _ _ _ _ _ _ _ _ _ _ Hw); [done|lia|left; by apply wt_phys].
      * destruct (Eb o v Hoo Hv) as [Hb <-]. split; [apply (wr_mapped _ _ _ _ _ _ _ _ _ _ _ _ Hw); [unfold PAGE_SIZE; zdm|by left]|].
        apply (wr_rest _ _ _ _ _ _ _ _ _ _ _ _ Hw); [done|lia|left; by apply wt_phys].
    + rewrite lookup_insert_ne, Hj in Hj' by done. injection Hj' as <-.
      assert (i_ino j <> i_ino i) as Hk by (intros E; apply Hne; by apply (fa_inj s D P a q p j i Hfs ltac:(apply elem_of_app; by right) Hpp)).
      rewrite (proj2 (Z.eqb_neq _ _) Hk). split; [done|]. intros o v Hoo Hv. rewrite (wr_other _ _ _ _ _ _ _ _ _ _ _ _ Hw q) by done. by apply Eb.
  - exact wt_plain.
Qed.
End wrote.

(** What a descriptor is: of a node, or without a file. *)
Lemma fd_cases y D P a fd : session y D P a -> 0 <= fd < FD_MAX -> exists fh, f_table (y_rt y) !! Z.to_nat fd = Some fh /\
  match a_open a fd with
  | Some k => exists i, fh_valid fh = true /\ (fh_file fh ∈ D ++ P) /\ inodes (y_fs y) !! fh_file fh = Some i /\ i_ino i = k /\ fh_file fh <> 0
  | None => negb (fh_valid fh) || (fh_file fh =? 0) = true
  end.
Proof.
  intros (Hfs & [R1 R2 R3 R4] & _) Hfd. destruct (get_fh_eq fd (y_rt y) R1 Hfd) as (fh & Hfh & _). exists fh. split; [done|].
  destruct (a_open a fd) as [k|] eqn:E.
  - destruct (R3 fd k E) as (_ & fh' & i & Hfh' & Hv & Hp & Hi & Ei). rewrite Hfh in Hfh'. injection Hfh' as <-. exists i. split_and!; try done.
    destruct (fa_live _ _ _ _ _ _ Hfs Hp Hi) as ((Ha & _) & _). lia.
  - destruct (R4 fd fh Hfd E Hfh) as [-> | ->]; [done|]. by destruct (fh_valid fh).
Qed.

Lemma bad_fd y D P a : session y D P a -> session (upd_y_rt (upd_errno (fun _ => - EBADFD)) y) D P a.
Proof. intros (Hfs & [[] R2 R3 R4] & HL). split; [done|]. split; [|done]. constructor; try done. Qed.

(** What a write through [fd] needs: the range lies in one page of a file, and
    - a page that is not written as a whole is within the capacity of the index;
    - a write of less than 1024 bytes to a block that is there, but not at the
      end of the file, ends inside the file, whose size it does not change;
    - an entry object, a log slot, a data slot and nodes for the index are free. *)
Definition write_ok (y : sys) (fd : Z) (ub : mem) (len offset : Z) : Prop :=
  0 <= fd < FD_MAX /\ mem_ok ub /\ mem_ok junk /\ 0 <= offset /\ 0 < len /\ blocks_of offset len = 1 /\ offset + len <= 2 ^ 43 - PAGE_SIZE /\
  forall fh i, f_table (y_rt y) !! Z.to_nat fd = Some fh -> fh_valid fh = true -> inodes (y_fs y) !! fh_file fh = Some i ->
    is_dir i = false /\ (offset / PAGE_SIZE < capacity (b_height i) \/ len = PAGE_SIZE) /\
    (small_overwrite i offset len -> offset + len <= i_size i) /\
    entry_arena (y_fs y) <> [] /\ (exists k, 0 <= k < slot_num (sb_file sb) /\ sa_used (map_file (y_fs y)) k = false) /\
    (exists k, 0 <= k < slot_num (sb_data sb) /\ sa_used (map_data (y_fs y)) k = false) /\ (18 < length (btree_arena (y_fs y)))%nat.

Lemma sim_pwrite y D P a fd ub buf len offset :
  session y D P a -> write_ok y fd ub len offset ->
  exists r y' a', do_call sb w (Pwrite fd ub buf len offset) y = Ok (r, y') /\ astep a (Pwrite fd ub buf len offset) r a' /\ session y' D P a'.
Proof.
  intros Hs (Hfd & Hub & Hjunk & Ho & Hl & Hone & Hmax & Hrdy). assert (len <= PAGE_SIZE) as Hpg by (unfold blocks_of, PAGE_SIZE in *; zdm). unfold PAGE_SIZE in Hpg. pose proof Hs as (Hfs & Hrt & HL). pose proof (fa_inv _ _ _ _ Hfs) as Hinv.
  destruct (fd_cases y D P a fd Hs Hfd) as (fh & Hfh & Hcase). destruct (a_open a fd) as [k|] eqn:Ea.
  - destruct Hcase as (i & Hv & Hp & Hi & Ei & Hnz). destruct (Hrdy fh i Hfh Hv Hi) as (Hnd & Hcap & Hsm & Har & Hslot & Hdata & Hpool).
    destruct (fi_kind _ _ _ _ Hinv _ i Hi) as [Kd _]. assert (fh_file fh ∈ P) as HpP.
    { apply elem_of_app in Hp as [Hp|Hp]; [|done]. rewrite Kd in Hnd by done. discriminate Hnd. }
    destruct (fresh_one sb cpu (y_fs y) (fs_data _ _ (fv_shared _ _ _ (fi_files _ _ _ _ Hinv))) Hcpu Hdata) as (r & b & Hall & Hfr).
    destruct (inode_write_spec sb Hlo cpu now stray junk P (fh_file fh) ub buf len offset (y_fs y) i r b (fi_files _ _ _ _ Hinv) HpP Hi) as (s' & i' & Hw & W); rewrite ?Hone; try done; try lia.
    { constructor; try done; [by apply (fa_reg _ _ _ _ Hfs (fh_file fh))|unfold locks in HL; rewrite HL; apply not_elem_of_empty|apply Hfs|apply Hfs]. }
    { destruct Hcap as [?| ->]; [left; lia|right]. unfold blocks_of, PAGE_SIZE in *. split; zdm. }
    exists (Int len). eexists. exists (a_write k ub buf len offset a). split_and!.
    + cbn [do_call]. unfold int, slotfs_pwrite. erewrite M_bind_step; [|erewrite M_bind_step by (apply on_rt_run, get_fh_at; [lia|exact Hfh]);
        rewrite Hv, (proj2 (Z.eqb_neq _ _) Hnz); cbn [negb orb]; erewrite M_bind_step by (apply on_fs_run; exact Hw); cbv zeta; rewrite i32_small by lia;
        rewrite (proj2 (Z.gtb_lt len 0)) by lia; erewrite M_bind_step by (eapply set_offset_run; [|exact Hfh]; lia); reflexivity].
      rewrite (proj2 (Z.eqb_neq len (-1))) by lia. reflexivity.
    + apply as_pwrite; [done|]. rewrite <- Ei. by apply (fa_files _ _ _ _ Hfs (fh_file fh) i).
    + rewrite <- Ei. pose proof (wt_nodes _ _ D P _ _ _ _ _ _ _ Hi W) as Hnodes. destruct (wr_frame _ _ _ _ _ _ _ _ _ _ _ _ W) as [(_ & _ & _ & _ & _ & _ & Er) _ _ _ _ _].
      split; [by apply (abs_wrote (y_fs y) s' D P a (fh_file fh) i i' ub buf len offset)|]. split.
      * apply (rt_same (y_fs y) s' _ D P a); [|done|done|done]. apply rt_move; [done|lia|done].
      * unfold locks in *. cbn [y_fs upd_y_fs upd_y_rt]. by rewrite (wr_locks _ _ _ _ _ _ _ _ _ _ _ _ W).
  - exists (Err (- EBADFD)), (upd_y_rt (upd_errno (fun _ => - EBADFD)) y), a. split_and!.
    + cbn [do_call]. unfold int, slotfs_pwrite. erewrite M_bind_step; [|erewrite M_bind_step by (apply on_rt_run, get_fh_at; [lia|exact Hfh]); rewrite Hcase; reflexivity].
      destruct y; reflexivity.
    + by apply as_pwrite_bad.
    + by apply bad_fd.
Qed.

(** The entries of a plain file start at their only block. *)
Lemma plain_step s i n o : file_ok sb s i -> plain s i -> 0 <= o -> step_ok s i n o.
Proof.
  intros Hok [Hp _] Ho.
  assert (forall k e, 0 <= k -> block_of i k <> 0 -> filents s !! block_of i k = Some e -> f_blocks e = 1) as Hb.
  { intros k e Hk Hnz He. apply (Hp k); [done|]. unfold extent. by rewrite (proj2 (Z.eqb_neq _ _) Hnz), He. }
  right. split.
  - intros k e Hk Hnz He k' Hc. destruct (core_entry _ _ _ _ _ _ _ (fo_core _ _ _ Hok) Hk Hnz) as (e' & He' & _ & Hc' & _). rewrite He in He'. injection He' as <-.
    specialize (Hb k e Hk Hnz He). unfold covers in *. by replace k' with k by lia.
  - assert (0 <= o / PAGE_SIZE) as Hk by (unfold PAGE_SIZE; zdm). destruct (decide (block_of i (o / PAGE_SIZE) = 0)) as [|Hnz]; [by left|right].
    destruct (core_entry _ _ _ _ _ _ _ (fo_core _ _ _ Hok) Hk Hnz) as (e & He & _ & Hc & _). exists e. split; [done|].
    specialize (Hb _ e Hk Hnz He). unfold covers in Hc. lia.
Qed.

(** What a read through [fd] needs: it starts inside the file or at its end. *)
Definition read_ok (y : sys) (fd len offset : Z) : Prop :=
  0 <= fd < FD_MAX /\ 0 <= offset /\ 0 <= len < 2 ^ 31 /\
  forall fh i, f_table (y_rt y) !! Z.to_nat fd = Some fh -> fh_valid fh = true -> inodes (y_fs y) !! fh_file fh = Some i ->
    is_dir i = false /\ offset <= i_size i.

(** The read of a plain file. *)
Lemma plain_read y D P a p i ub buf len offset :
  session y D P a -> p ∈ P -> inodes (y_fs y) !! p = Some i -> 0 <= offset <= i_size i -> 0 <= len ->
  let n := Z.min len (i_size i - offset) in
  exists ub', inode_read sb stray p ub buf len offset (y_fs y) = Ok ((n, ub'), y_fs y) /\ filled sb (y_fs y) i ub ub' buf n offset.
Proof.
  intros (Hfs & _ & HL) Hp Hi Ho Hl n. destruct (fs_reg _ _ _ _ _ (fa_inv _ _ _ _ Hfs) Hp) as (x & Hx & Hok & _). rewrite Hi in Hx. injection Hx as <-.
  pose proof (fa_plain _ _ _ _ Hfs p i Hp Hi) as Hpl.
  apply (inode_read_spec sb Hlo stray p (y_fs y) i ub buf len offset Hi Hok); [|done|done|].
  { unfold locks in HL. rewrite HL. apply not_elem_of_empty. }
  intros Hn. fold n in Hn |- *. split; [|apply (plain_step _ _ _ _ Hok Hpl); lia].
  apply Z.le_lt_trans with ((i_size i - 1) / PAGE_SIZE); [unfold PAGE_SIZE; zdm|].
  apply (block_capacity sb _ _ _ Hok); [unfold PAGE_SIZE; zdm|]. apply Hpl. lia.
Qed.

Lemma sim_pread y D P a fd ub buf len offset :
  session y D P a -> read_ok y fd len offset ->
  exists r y' a', do_call sb w (Pread fd ub buf len offset) y = Ok (r, y') /\ astep a (Pread fd ub buf len offset) r a' /\ session y' D P a'.
Proof.
  intros Hs (Hfd & Ho & Hl & Hrdy). pose proof Hs as (Hfs & Hrt & HL). pose proof (fa_inv _ _ _ _ Hfs) as Hinv.
  destruct (fd_cases y D P a fd Hs Hfd) as (fh & Hfh & Hcase). destruct (a_open a fd) as [k|] eqn:Ea.
  - destruct Hcase as (i & Hv & Hp & Hi & Ei & Hnz). destruct (Hrdy fh i Hfh Hv Hi) as (Hnd & Hsz).
    destruct (fi_kind _ _ _ _ Hinv _ i Hi) as [Kd _]. assert (fh_file fh ∈ P) as HpP.
    { apply elem_of_app in Hp as [Hp|Hp]; [|done]. rewrite Kd in Hnd by done. discriminate Hnd. }
    destruct (plain_read y D P a (fh_file fh) i ub buf len offset Hs HpP Hi) as (ub' & Hr & Hfill); [lia|lia|].
    set (n := Z.min len (i_size i - offset)) in *. assert (0 <= n < 2 ^ 31) as Hn by lia.
    assert (exists y', slotfs_pread sb stray fd ub buf len offset y = Ok ((n, ub'), y') /\ session y' D P a) as (y' & Hrun & Hs').
    { unfold slotfs_pread. erewrite M_bind_step by (apply on_rt_run, get_fh_at; [lia|exact Hfh]).
      rewrite Hv, (proj2 (Z.eqb_neq _ _) Hnz). cbn [negb orb]. erewrite M_bind_step by (apply on_fs_run; exact Hr). cbv beta iota zeta. rewrite i32_small by lia.
      destruct (Z.gtb_spec n 0).
      - erewrite M_bind_step by (eapply set_offset_run; [|exact Hfh]; lia). eexists. split; [reflexivity|].
        split; [exact Hfs|]. split; [|exact HL]. apply rt_move; [done|lia|done].
      - eexists. split; [reflexivity|]. destruct y. exact Hs. }
    exists (Buf n ub'), y', a. split_and!; [|..|exact Hs'].
    + cbn [do_call]. erewrite M_bind_step by exact Hrun. cbv beta iota. rewrite (proj2 (Z.eqb_neq n (-1))) by lia. reflexivity.
    + destruct (fa_files _ _ _ _ Hfs (fh_file fh) i HpP Hi) as (Ek & Es & Eb). rewrite Ei in Ek, Es, Eb. eapply as_pread; [exact Ea|exact Ek|by rewrite Es|by rewrite Es|..].
      * intros d v Hd Hvd. rewrite Hfill, (proj2 (Z.leb_le buf (buf + d))), (proj2 (Z.ltb_lt (buf + d) (buf + n))) by lia. cbn [andb].
        replace (offset + (buf + d - buf)) with (offset + d) by lia. apply Eb; [lia|done].
      * intros x Hx. rewrite Hfill. destruct (Z.leb_spec buf x), (Z.ltb_spec x (buf + n)); cbn [andb]; try done. lia.
  - exists (Err (- EBADFD)), (upd_y_rt (upd_errno (fun _ => - EBADFD)) y), a. split_and!.
    + cbn [do_call]. unfold slotfs_pread. erewrite M_bind_step; [|erewrite M_bind_step by (apply on_rt_run, get_fh_at; [lia|exact Hfh]); rewrite Hcase; reflexivity].
      destruct y; reflexivity.
    + by apply as_pread_bad.
    + by apply bad_fd.
Qed.

(** *** Closing *)

Lemma rt_close s r D P a fd fh :
  rt_abs s r D P a -> 0 <= fd < FD_MAX -> f_table r !! Z.to_nat fd = Some fh ->
  rt_abs s (upd_f_table <[Z.to_nat fd := mk_fh (fh_fd fh) 0 (fh_offset fh) (fh_flags fh) false (temp_dirent fh)]> r) D P (a_set_open fd None a).
Proof.
  intros [[R1 R1'] R2 R3 R4] Hfd Hfh. pose proof (lookup_lt_Some _ _ _ Hfh) as Hlt.
  constructor; [constructor; simpl; [by rewrite zlength_insert|done]|done| |]; intros x; cbn [a_open a_set_open f_table upd_f_table]; destruct (Z.eqb_spec x fd) as [->|Hne].
  - done.
  - intros k Hk. destruct (R3 x k Hk) as (Hx & g & i & Hg & Hrest). split; [done|]. exists g, i. by rewrite list_lookup_insert_ne by lia.
  - intros g _ _. rewrite list_lookup_insert_eq by done. intros [= <-]. by left.
  - intros g Hx Ho. rewrite list_lookup_insert_ne by lia. by apply R4.
Qed.

(** Locks and the flushed inode are not in the tree. *)
Lemma abs_locks f s D P a : fs_abs s D P a -> fs_abs (upd_ilocks f s) D P a.
Proof.
  intros H. pose proof (so_mem _ _ (dv_shared _ _ _ (fi_dirs _ _ _ _ (fa_inv _ _ _ _ H)))) as Hm.
  apply (abs_same s _ D P a a H); try done; [by apply (fs_low sb Hlo)|apply H|apply H| |].
  - intros q j _ Hj. by exists j.
  - intros q h Hq. by apply (fs_low_view sb Hlo s _ D P _ _ (fa_inv _ _ _ _ H)).
Qed.
Lemma abs_flush s D P a p i : fs_abs s D P a -> p ∈ D ++ P -> inodes s !! p = Some i ->
  exists pm, inode_flush sb p s = Ok (tt, upd_dev (fun _ => pm) s) /\ fs_abs (upd_dev (fun _ => pm) s) D P a.
Proof.
  intros H Hp Hi. destruct (flush_keeps sb Hlo s D P p i (fa_inv _ _ _ _ H) Hp Hi) as (pm & Hf & Hk & Hv). exists pm. split; [done|].
  apply (abs_same s _ D P a a H); try done; [apply H|apply H|]. intros q j _ Hj. by exists j.
Qed.

(** One reference less, and the inode flushed when it was the last. *)
Lemma close_run y D P a fd fh i :
  session y D P a -> 0 <= fd < FD_MAX -> f_table (y_rt y) !! Z.to_nat fd = Some fh -> fh_valid fh = true -> fh_file fh <> 0 ->
  fh_file fh ∈ D ++ P -> inodes (y_fs y) !! fh_file fh = Some i -> i_link i <> 0 ->
  exists s', slotfs_close sb fd y = Ok (0, upd_y_rt (upd_f_table <[Z.to_nat fd := mk_fh (fh_fd fh) 0 (fh_offset fh) (fh_flags fh) false (temp_dirent fh)]>)
      (upd_y_fs (fun _ => s') y)) /\
    fs_abs s' D P a /\ same_nodes D P (y_fs y) s' /\ root s' = root (y_fs y) /\ ilocks s' = ∅.
Proof.
  intros (Hfs & Hrt & HL) Hfd Hfh Hv Hnz Hp Hi Hlink. set (p := fh_file fh) in *. set (i1 := upd_i_ref (fun n => u32 (n - 1)) i).
  set (s1 := upd_inodes <[p := i1]> (upd_ilocks (fun l => {[i_ino i]} ∪ l) (y_fs y))). unfold locks in HL.
  destruct (abs_attrs (y_fs y) s1 D P a p i i1 Hfs Hi) as [Hfs1 Hn1]; try done. assert (inodes s1 !! p = Some i1) as Hi1 by apply lookup_insert_eq.
  destruct (abs_flush s1 D P a p i1 Hfs1 Hp Hi1) as (pm & Hfl & Hfs2).
  assert (({[i_ino i]} ∪ ilocks (y_fs y)) ∖ {[i_ino i]} = ∅) as EL by (rewrite HL; clear; set_solver).
  assert (on_fs (lock_inode p) y = Ok (tt, upd_y_fs (upd_ilocks (fun l => {[i_ino i]} ∪ l)) y)) as Hlk.
  { unfold on_fs, zoom, lock_inode. erewrite M_bind_step by (apply rd_inode_eq; exact Hi). unfold inode_lock. rewrite decide_False; [done|]. rewrite HL. apply not_elem_of_empty. }
  assert (slotfs_close sb fd y = (_ ← (if i_ref i1 =? 0 then _ ← on_fs (inode_flush sb p); unlock p else unlock p); _ ← on_rt (fd_free fd); mret 0) (upd_y_fs (fun _ => s1) y)) as Hc.
  { unfold slotfs_close. erewrite M_bind_step by (apply on_rt_run, get_fh_at; [apply Hfd|exact Hfh]). cbv zeta. fold p.
    rewrite Hv, (proj2 (Z.eqb_neq p 0)) by done. cbn [negb]. erewrite M_bind_step by exact Hlk.
    erewrite M_bind_step by (apply on_fs_run, upd_inode_eq; exact Hi). erewrite M_bind_step by (apply on_fs_run, rd_inode_eq; exact Hi1).
    change (i_link i1) with (i_link i). by rewrite (proj2 (Z.eqb_neq _ _) Hlink), andb_false_r. }
  assert (forall s2, inodes s2 !! p = Some i1 -> fs_abs s2 D P a -> inodes s2 = inodes s1 -> root s2 = root s1 -> ilocks s2 = ilocks s1 ->
    exists s', unlock p (upd_y_fs (fun _ => s2) y) = Ok (tt, upd_y_fs (fun _ => s') y) /\
    fs_abs s' D P a /\ same_nodes D P (y_fs y) s' /\ root s' = root (y_fs y) /\ ilocks s' = ∅) as Hun.
  { intros s2 Hi2 Hf2 En Er El. exists (upd_ilocks (fun l => l ∖ {[i_ino i]}) s2). split_and!.
    - by erewrite unlock_run by exact Hi2.
    - by apply abs_locks.
    - intros q j Hq Hj. change (inodes (upd_ilocks (fun l => l ∖ {[i_ino i]}) s2)) with (inodes s2). rewrite En. by apply Hn1.
    - exact Er.
    - change (ilocks s2 ∖ {[i_ino i]} = ∅). rewrite El. exact EL. }
  assert (exists s', (if i_ref i1 =? 0 then _ ← on_fs (inode_flush sb p); unlock p else unlock p) (upd_y_fs (fun _ => s1) y) = Ok (tt, upd_y_fs (fun _ => s') y) /\
    fs_abs s' D P a /\ same_nodes D P (y_fs y) s' /\ root s' = root (y_fs y) /\ ilocks s' = ∅) as (s' & Hrun & Hrest).
  { destruct (i_ref i1 =? 0); [|by apply Hun]. destruct (Hun (upd_dev (fun _ => pm) s1)) as (s' & Hr & Hrest); try done. exists s'. split; [|done].
    erewrite M_bind_step by (apply on_fs_run; exact Hfl). exact Hr. }
  exists s'. split; [|done]. rewrite Hc. erewrite M_bind_step by exact Hrun. unfold fd_free.
  erewrite M_bind_step; [|apply on_rt_run; erewrite M_bind_step by (apply get_fh_at; [apply Hfd|exact Hfh]); eapply set_fh_at; [apply Hfd|exact Hfh]]. done.
Qed.

Lemma sim_close y D P a fd :
  session y D P a -> 0 <= fd < FD_MAX -> exists r y' a', do_call sb w (Close fd) y = Ok (r, y') /\ astep a (Close fd) r a' /\ session y' D P a'.
Proof.
  intros Hs Hfd. pose proof Hs as (Hfs & Hrt & HL). destruct (fd_cases y D P a fd Hs Hfd) as (fh & Hfh & Hcase). destruct (a_open a fd) as [k|] eqn:Ea.
  - destruct Hcase as (i & Hv & Hp & Hi & Ei & Hnz). destruct (close_run y D P a fd fh i Hs Hfd Hfh Hv Hnz Hp Hi (fa_link _ _ _ _ Hfs _ i Hp Hi)) as (s' & Hrun & Hfs' & Hn & Er & EL).
    exists (Int 0). eexists. exists (a_set_open fd None a). split_and!.
    + cbn [do_call]. unfold int. erewrite M_bind_step by exact Hrun. reflexivity.
    + by apply (as_close a fd k).
    + split; [by apply (abs_open_irrelevant _ _ _ a)|]. split; [|done]. apply (rt_same (y_fs y) s' _ D P (a_set_open fd None a)); try done. by apply rt_close.
  - exists (Err (- EBADFD)), (upd_y_rt (upd_errno (fun _ => - EBADFD)) y), a. split_and!.
    + cbn [do_call]. unfold int, slotfs_close. erewrite M_bind_step; [|erewrite M_bind_step by (apply on_rt_run, get_fh_at; [lia|exact Hfh]);
        instantiate (1 := upd_y_rt (upd_errno (fun _ => - EBADFD)) y); instantiate (1 := -1)].
      * reflexivity.
      * destruct (fh_file fh =? 0); [by destruct y|]. rewrite orb_false_r in Hcase. rewrite Hcase. by destruct y.
    + by apply as_close_bad.
    + by apply bad_fd.
Qed.

(** *** Renaming *)

(** What a rename needs; a directory does not move into itself. *)
Definition rename_ok (s : fs) (path1 path2 : list Z) : Prop :=
  components path1 <> [] /\ components path2 <> [] /\ Forall name_ok (components path1) /\ Forall name_ok (components path2) /\
  entry_arena s <> [] /\ (exists k, sa_valid (map_dir s) k /\ sa_used (map_dir s) k = false) /\
  forall D names1 l1 q1 names2 l2 q2 i2 k, components path1 = names1 ++ [l1] -> components path2 = names2 ++ [l2] ->
    resolves s D (root s) names1 (inl q1) -> resolves s D (root s) names2 (inl q2) -> inodes s !! q2 = Some i2 ->
    entry_ino s q1 (BKDRHash l1) = Some k -> k <> i_ino i2.

Lemma abs_entry s D P a q i l : fs_abs s D P a -> q ∈ D -> inodes s !! q = Some i ->
  match a_name a (i_ino i) (BKDRHash l) with Some _ => exists d, entry_at s D q l d | None => no_entry s D q l end.
Proof.
  intros H Hq Hi. destruct (fa_dirs _ _ _ _ H q i Hq Hi) as [_ ->]. destruct (fs_dir _ _ _ _ q (fa_inv _ _ _ _ H) Hq) as (x & Hx & Hok & _).
  rewrite Hi in Hx. injection Hx as <-. destruct (fi_kind _ _ _ _ (fa_inv _ _ _ _ H) q i Hi) as [Hdir _]. specialize (Hdir Hq).
  destruct (hash_dec s (i_list i) (BKDRHash l)) as [(d & Hd & Eh)|Hno].
  - destruct (do_objs _ _ _ Hok d Hd) as (_ & e & He & _). assert (d_hash e = BKDRHash l) as Ee by (unfold hash_of in Eh; by rewrite He in Eh).
    rewrite <- Ee, (entry_ino_hit sb s q i d e) by done. exists d. split; [done|]. by exists i.
  - rewrite (entry_ino_miss sb s q i) by done. split; [done|]. by exists i.
Qed.

Lemma abs_renamed s s' D P a q1 i1 l1 q2 i2 l2 k :
  fs_abs s D P a -> q1 ∈ D -> inodes s !! q1 = Some i1 -> q2 ∈ D -> inodes s !! q2 = Some i2 -> a_name a (i_ino i1) (BKDRHash l1) = Some k -> k <> i_ino i2 ->
  keeps sb D P s s' -> rest_same s s' -> serial (jnl_mgr s') -> moved s s' D q1 (BKDRHash l1) q2 (BKDRHash l2) ->
  fs_abs s' D P (a_set_name (i_ino i1) (BKDRHash l1) None (a_set_name (i_ino i2) (BKDRHash l2) (Some k) a)) /\ same_nodes D P s s'.
Proof.
  intros H Hq1 Hi1 Hq2 Hi2 Hk Hne Hkp (_ & Et & Er & _ & Eb & Hino) Hser Hmv. destruct (Hkp (fa_inv _ _ _ _ H)) as [Hinv Hf].
  assert (same_nodes D P s s') as Hn by (intros q j _ Hj; by apply Hino). destruct (fa_dirs _ _ _ _ H q1 i1 Hq1 Hi1) as [_ E1]. rewrite E1 in Hk.
  assert (forall q j x ix, q ∈ D -> inodes s !! q = Some j -> x ∈ D -> inodes s !! x = Some ix -> (i_ino j =? i_ino ix) = true <-> q = x) as Hnum.
  { intros q j x ix Hq Hj Hx Hix. rewrite Z.eqb_eq. split; [|intros ->; congruence]. intros E. apply (fa_inj s D P a q x j ix); try done; apply elem_of_app; by left. }
  split; [|done]. apply (abs_step s s' D P a _ H); try done.
  - rewrite Eb. apply H.
  - intros q j h Hq Hj. rewrite (Hmv q h Hq), Hk. cbn [a_name a_set_name]. destruct (fa_dirs _ _ _ _ H q j Hq Hj) as [_ ->].
    pose proof (Hnum q j q1 i1 Hq Hj Hq1 Hi1) as N1. pose proof (Hnum q j q2 i2 Hq Hj Hq2 Hi2) as N2.
    destruct (i_ino j =? i_ino i1) eqn:X1, (i_ino j =? i_ino i2) eqn:X2, (Z.eqb_spec h (BKDRHash l1)), (Z.eqb_spec h (BKDRHash l2)); cbn [andb];
      repeat case_decide; try done; exfalso; naive_solver.
  - intros q j h z Hq Hj Hz. rewrite (Hmv q h Hq) in Hz. destruct (decide _); [done|]. destruct (decide (q = q2 /\ h = BKDRHash l2)) as [[-> ->]|].
    + rewrite Hk in Hz. injection Hz as <-. rewrite Hi2 in Hj. injection Hj as <-. split; [done|]. by exists q1, (BKDRHash l1).
    + destruct (fa_closed _ _ _ _ H q j h z Hq Hj Hz) as [Hz' _]. split; [done|]. by exists q, h.
  - intros p j j' Hp Hj Hj'. destruct (Hf p j Hp Hj) as (x & Hx & Hs & Hz & _ & _ & Hb). rewrite Hj' in Hx. injection Hx as <-.
    destruct (fa_files _ _ _ _ H p j Hp Hj) as (_ & Es & Ebb). cbn [a_size a_byte a_set_name]. rewrite Hz. split; [done|].
    intros o v Ho Hv. rewrite (same_file_block j j' Hs), Hb by done. by apply Ebb.
  - intros p j j' Hp Hj Hj'. destruct (Hf p j Hp Hj) as (x & Hx & Hs & Hz & _ & Hxt & _). rewrite Hj' in Hx. injection Hx as <-.
    apply plain_same; [by apply same_file_block|done|done].
Qed.

Lemma run_rename_int path1 path2 y r y' :
  slotfs_rename sb cpu now stray junk stk stk' fake_ts path1 path2 y = Ok (r, y') -> r <> -1 -> do_call sb w (Rename path1 path2) y = Ok (Int r, y').
Proof. intros H Hr. cbn [do_call]. unfold int. mstep H. by rewrite (proj2 (Z.eqb_neq _ _) Hr). Qed.
Lemma walk_error y D P a names e : fs_abs (y_fs y) D P a -> a_parent a names = inr e -> e <> -1.
Proof. intros H E. pose proof (parent_walk y D P a names H) as Hw. rewrite E in Hw. destruct Hw as (_ & _ & _ & He). intros ->.
  unfold a_parent in E. pose proof (root_walk _ _ _ _ names H) as Hr. destruct (a_walk a 0 names) as [d|e'].
  - by destruct (a_kind a d) as [[|]|].
  - injection E as ->. by destruct (resolves_err _ _ _ _ _ Hr).
Qed.

Lemma sim_rename y D P a path1 path2 :
  session y D P a -> rename_ok (y_fs y) path1 path2 ->
  exists r y' a', do_call sb w (Rename path1 path2) y = Ok (r, y') /\ astep a (Rename path1 path2) r a' /\ session y' D P a'.
Proof.
  intros Hs (Hc1 & Hc2 & Hn1 & Hn2 & Hobj & Hslot & Hself). pose proof Hs as (Hfs & Hrt & HL). pose proof (fa_inv _ _ _ _ Hfs) as Hinv.
  pose proof (start_root y D P a path1 Hs) as Es1. pose proof (start_root y D P a path2 Hs) as Es2. pose proof (root_live _ _ _ _ Hfs) as Hroot.
  pose proof (fi_dirs _ _ _ _ Hinv) as Hd. pose proof (fi_cache _ _ _ _ Hinv) as Hc.
  apply exists_last in Hc1 as (names1 & l1 & Hcomp1). apply exists_last in Hc2 as (names2 & l2 & Hcomp2).
  pose proof (parent_walk y D P a names1 Hfs) as Hw1. destruct (a_parent a names1) as [d1|e] eqn:Ep1.
  2: { destruct Hw1 as (Hf & Hne & _). exists (Int e), y, a. split_and!; [|by eapply as_rename_old_fails|done].
    apply run_rename_int; [|by eapply walk_error]. eapply slotfs_rename_old_fails; [exact Hd|exact Hc|exact HL|rewrite Es1; exact Hroot|exact Hcomp1|rewrite Es1; exact Hf|done]. }
  destruct Hw1 as (q1 & i1 & Hres1 & Hq1 & Hi1 & Ei1). assert (is_dir i1 = true) as Hdir1 by (by apply (fi_kind _ _ _ _ Hinv q1 i1 Hi1)).
  pose proof (parent_walk y D P a names2 Hfs) as Hw2. destruct (a_parent a names2) as [d2|e] eqn:Ep2.
  2: { destruct Hw2 as (Hf & Hne & _). exists (Int e), y, a. split_and!; [|by eapply as_rename_new_fails|done].
    apply run_rename_int; [|by eapply walk_error].
    eapply slotfs_rename_new_fails; [exact Hd|exact Hc|exact HL|rewrite Es1; exact Hroot|exact Hcomp1|rewrite Es1; exact Hres1|exact Hi1|done|rewrite Es2; exact Hroot|exact Hcomp2|rewrite Es2; exact Hf|done]. }
  destruct Hw2 as (q2 & i2 & Hres2 & Hq2 & Hi2 & Ei2). assert (is_dir i2 = true) as Hdir2 by (by apply (fi_kind _ _ _ _ Hinv q2 i2 Hi2)).
  pose proof (abs_entry _ D P a q1 i1 l1 Hfs Hq1 Hi1) as Ha1. pose proof (abs_entry _ D P a q2 i2 l2 Hfs Hq2 Hi2) as Ha2.
  assert (no_entry (y_fs y) D q1 l1 \/ ((exists d, entry_at (y_fs y) D q1 l1 d) /\ exists d, entry_at (y_fs y) D q2 l2 d) ->
    exists r y' a', do_call sb w (Rename path1 path2) y = Ok (r, y') /\ astep a (Rename path1 path2) r a' /\ session y' D P a') as Hrefuse.
  { intros Hwhy. destruct (slotfs_rename_refused sb cpu now stray junk stk stk' fake_ts Hlo Hcpu y D path1 names1 l1 q1 i1 0 path2 names2 l2 q2 i2 0) as (e & Hrun & He);
      rewrite ?Es1, ?Es2; try done. exists (Int e), y, a. split_and!; [|eapply as_rename_refused; try done|done].
    - apply run_rename_int; [done|]. by destruct He as [(-> & _)|[(-> & _)|(-> & _)]].
    - rewrite <- Ei1, <- Ei2. destruct He as [(-> & -> & ->)|[(-> & Hno)|(-> & d & Hat)]]; [left|right; left|right; right]; split; try done.
      + rewrite Hi1 in Hi2. by injection Hi2 as <-.
      + destruct (a_name a (i_ino i1) (BKDRHash l1)); [|done]. exfalso. destruct Ha1 as (d & _ & j & Hj & _ & Hd1 & Eh). destruct Hno as (_ & j' & Hj' & _ & Hno). rewrite Hj in Hj'. injection Hj' as <-. by apply (Hno d).
      + destruct (a_name a (i_ino i2) (BKDRHash l2)); [done|]. exfalso. destruct Hat as (_ & j & Hj & _ & Hd1 & Eh). destruct Ha2 as (_ & j' & Hj' & _ & Hno). rewrite Hj in Hj'. injection Hj' as <-. by apply (Hno d). }
  destruct (a_name a (i_ino i1) (BKDRHash l1)) as [k|] eqn:En1; [|apply Hrefuse; by left].
  destruct (a_name a (i_ino i2) (BKDRHash l2)) as [k2|] eqn:En2; [apply Hrefuse; by right|]. clear Hrefuse.
  assert (name_ok l1 /\ name_ok l2) as Hnok.
  { rewrite Hcomp1 in Hn1. rewrite Hcomp2 in Hn2. apply Forall_app in Hn1 as [_ Hn1], Hn2 as [_ Hn2]. inversion Hn1. inversion Hn2. done. }
  destruct (slotfs_rename_run sb cpu now stray junk stk stk' fake_ts Hlo Hcpu y D path1 names1 l1 q1 0 path2 names2 l2 q2 0) as (y' & Ert & Hrun & _ & Hmv & HL' & Hser & Hrs & Hkp);
    rewrite ?Es1, ?Es2; try done.
  { constructor; try done; [|apply Hfs]. destruct (entry_arena (y_fs y)) as [|d l] eqn:Eo; [done|]. exists d, l. split; [done|].
    assert (0 < d < 2 ^ 62); [|lia]. apply (fs_addr _ _ (fv_shared _ _ _ (fi_files _ _ _ _ Hinv))). rewrite Eo. by left. }
  assert (k <> i_ino i2) as Hne.
  { apply (Hself D names1 l1 q1 names2 l2 q2 i2 k); try done. rewrite <- En1. symmetry. by apply (fa_dirs _ _ _ _ Hfs q1 i1). }
  destruct (abs_renamed (y_fs y) (y_fs y') D P a q1 i1 l1 q2 i2 l2 k) as [Hfs' Hn]; try done.
  eexists (Int 0), y', _. split_and!; [by apply run_rename_int|eapply as_rename; try done; by rewrite <- ?Ei1, <- ?Ei2|].
  rewrite <- Ei1, <- Ei2. split; [exact Hfs'|]. split; [|exact HL']. rewrite Ert. apply (rt_same (y_fs y) _ _ D P a); try done. apply Hrs.
Qed.
End session.
