(* ===== verification/Trace.v ===== *)
(** * Traces

    The system calls of a process from the start of the file system on, with
    what they answer.  Every call that finds what it needs returns, and the
    trace is one that the abstract file system of Session.v allows; what the
    program reads back from a file follows from the abstract file system
    alone. *)
From stdpp Require Import base numbers list gmap.
From S2P Require Import Prelude Bitops Slot Btree Pm Mkfs Heap Fs Journal Dir DirView File FileIndex FileLog FileRead FileWrite.
From S2P Require Import Runtime Vfs VfsLocks VfsWalk FsInv Create Func FuncFile FuncRename Recover Mount FuncCreate Session.
Local Open Scope Z_scope.

(** ** Traces *)

(** The calls that the theorems are about, and what they find.
    - [Open] finds a free descriptor; with [O_CREAT] it is for a directory or a
      regular file, with names of at most [MAX_NAME_LEN] bytes in the path, and
      finds free objects and slots ([create_ok]).
    - [Pwrite] to a file is within one page ([write_ok]).
    - [Pread] of a file starts inside the file or at its end ([read_ok]).
    - [Rename] has two paths other than [/], does not move a directory into
      itself, and finds a free entry and a free slot ([rename_ok]).
    - The descriptors of [Close], [Pwrite] and [Pread] are numbers of the table,
      open or not. *)
Definition ready (sb : pm_super_block) (w : around) (y : sys) (c : call) : Prop :=
  0 <= r_cpu w /\
  match c with
  | Open path flags mode => fd_left (y_rt y) /\ (has_flag flags O_CREAT = true -> create_ok (y_fs y) path mode)
  | Close fd => 0 <= fd < FD_MAX
  | Pwrite fd ub buf len offset => write_ok sb (r_junk w) y fd ub len offset
  | Pread fd ub buf len offset => read_ok y fd len offset
  | Rename old new => rename_ok (y_fs y) old new
  end.

Definition trace : Type := list (call * reply).

Inductive exec (sb : pm_super_block) : sys -> trace -> sys -> Prop :=
  | ex_nil y : exec sb y [] y
  | ex_call w y c r y1 t y2 : ready sb w y c -> do_call sb w c y = Ok (r, y1) -> exec sb y1 t y2 -> exec sb y ((c, r) :: t) y2.

Inductive allowed : afs -> trace -> afs -> Prop :=
  | al_nil a : allowed a [] a
  | al_call a c r a1 t a2 : astep a c r a1 -> allowed a1 t a2 -> allowed a ((c, r) :: t) a2.

(** ** Every call simulates a step *)

Lemma run_step sb w y D P a c :
  layout_ok sb -> session sb y D P a -> ready sb w y c ->
  exists r y' a' D' P', do_call sb w c y = Ok (r, y') /\ astep a c r a' /\ session sb y' D' P' a'.
Proof.
  intros Hlo Hs [Hcpu Hr]. destruct w as [cpu now stray junk stk stk' ts]. cbn [r_cpu r_junk] in *. destruct c as [path flags mode|fd|fd ub buf len offset|fd ub buf len offset|p1 p2].
  - destruct Hr as [Hfd Hc]. destruct (has_flag flags O_CREAT) eqn:E.
    + by apply sim_create with D P; auto.
    + destruct (sim_open sb Hlo cpu now stray junk stk stk' ts y D P a path flags mode) as (r & y' & a' & H); try done. by exists r, y', a', D, P.
  - destruct (sim_close sb Hlo cpu now stray junk stk stk' ts y D P a fd) as (r & y' & a' & H); try done. by exists r, y', a', D, P.
  - destruct (sim_pwrite sb Hlo cpu now stray junk stk stk' ts Hcpu y D P a fd ub buf len offset) as (r & y' & a' & H); try done. by exists r, y', a', D, P.
  - destruct (sim_pread sb Hlo cpu now stray junk stk stk' ts y D P a fd ub buf len offset) as (r & y' & a' & H); try done. by exists r, y', a', D, P.
  - destruct (sim_rename sb Hlo cpu now stray junk stk stk' ts Hcpu y D P a p1 p2) as (r & y' & a' & H); try done. by exists r, y', a', D, P.
Qed.

Lemma exec_allowed sb y t y' :
  layout_ok sb -> exec sb y t y' -> forall D P a, session sb y D P a -> exists a' D' P', allowed a t a' /\ session sb y' D' P' a'.
Proof.
  intros Hlo. induction 1 as [y|w y c r y1 t y2 Hr Hrun _ IH]; intros D P a Hs.
  - exists a, D, P. split; [constructor|done].
  - destruct (run_step sb w y D P a c Hlo Hs Hr) as (r' & y1' & a1 & D1 & P1 & Hrun' & Hst & Hs1). rewrite Hrun in Hrun'. injection Hrun' as <- <-.
    destruct (IH D1 P1 a1 Hs1) as (a2 & D2 & P2 & Hal & Hs2). exists a2, D2, P2. split; [by econstructor|done].
Qed.

(** ** The start *)

Lemma fresh_session sb y :
  fresh_fs sb (y_fs y) -> rt_ok (y_rt y) -> cwd (y_rt y) = root (y_fs y) -> Forall (fun fh => fh_valid fh = false) (f_table (y_rt y)) ->
  session sb y [root (y_fs y)] [] a_empty.
Proof.
  intros F Hr Hc Hv. destruct (ff_root _ _ F) as (_ & i & Hi & Ei). pose proof (ff_link _ _ F i Hi) as El. split; [|split].
  - constructor; try apply F.
    + split; [by left|]. by exists i.
    + rewrite app_nil_r. intros p j ->%list_elem_of_singleton Hj. rewrite Hi in Hj. injection Hj as <-. rewrite (ff_table _ _ F), Ei. apply lookup_singleton_eq.
    + by intros p j ?%elem_of_nil.
    + intros p j h k ->%list_elem_of_singleton _. by rewrite (ff_empty _ _ F).
    + intros p j ->%list_elem_of_singleton Hj. rewrite Hi in Hj. injection Hj as <-. rewrite Ei. split; [done|]. intros h. by rewrite (ff_empty _ _ F).
    + by intros p j ?%elem_of_nil.
    + intros k b. cbn. destruct (Z.eqb_spec k 0) as [->|]; [|done]. intros _. exists (root (y_fs y)), i. split; [by left|done].
    + rewrite app_nil_r. intros p j ->%list_elem_of_singleton Hj. rewrite Hi in Hj. injection Hj as <-. by rewrite El.
    + by intros p j ?%elem_of_nil.
  - constructor; [done|done|done|]. intros fd fh _ _ Hfh. left. rewrite Forall_lookup in Hv. by apply (Hv _ _ Hfh).
  - apply F.
Qed.

(** ** What the abstract file system keeps *)

(** A call that neither closes [fd] nor writes to the bytes at [offset]. *)
Definition quiet (fd offset len : Z) (c : call) : bool :=
  match c with
  | Close fd' => negb (fd' =? fd)
  | Pwrite _ _ _ len' offset' => (offset' + len' <=? offset) || (offset + len <=? offset')
  | _ => true
  end.

Lemma astep_quiet a c r a' fd k offset len :
  astep a c r a' -> quiet fd offset len c = true -> a_open a fd = Some k -> a_kind a k = Some false ->
  a_open a' fd = Some k /\ a_kind a' k = Some false /\ a_size a k <= a_size a' k /\
  forall o, offset <= o < offset + len -> a_byte a' k o = a_byte a k o.
Proof.
  intros Hs Hq Ho Hk.
  assert (forall fd' z b, a_open b fd = Some k -> a_open a fd' = None -> a_open (a_set_open fd' z b) fd = Some k) as Hset.
  { intros fd' z b Hb Hn. cbn. destruct (Z.eqb_spec fd fd') as [->|]; [congruence|done]. }
  destruct Hs; cbn [quiet] in Hq; try (split_and!; [done|done|done|done]); try (split_and!; [by apply Hset|done|done|done]).
  - assert (k <> k0) as Hne by congruence. split_and!; [by apply Hset|..]; cbn; apply Z.eqb_neq in Hne; rewrite Hne; done.
  - cbn. apply negb_true_iff, Z.eqb_neq in Hq. rewrite (proj2 (Z.eqb_neq fd fd0)) by done. done.
  - split_and!; [done|done|cbn; destruct (k =? k0); lia|]. intros o Hr. cbn. destruct ((offset0 <=? o) && (o <? offset0 + len0)) eqn:E; [|by rewrite andb_false_r].
    apply andb_true_iff in E as [E1%Z.leb_le E2%Z.ltb_lt]. apply orb_true_iff in Hq as [H1%Z.leb_le|H1%Z.leb_le]; lia.
Qed.

Lemma allowed_quiet a t a' fd k offset len :
  allowed a t a' -> Forall (fun x => quiet fd offset len x.1 = true) t -> a_open a fd = Some k -> a_kind a k = Some false ->
  a_open a' fd = Some k /\ a_size a k <= a_size a' k /\ forall o, offset <= o < offset + len -> a_byte a' k o = a_byte a k o.
Proof.
  induction 1 as [a|a c r a1 t a2 Hs _ IH]; intros Hq Ho Hk; [done|]. apply Forall_cons in Hq as [Hq Hqs].
  destruct (astep_quiet a c r a1 fd k offset len Hs Hq Ho Hk) as (Ho1 & Hk1 & Hz1 & Hb1). destruct (IH Hqs Ho1 Hk1) as (Ho2 & Hz2 & Hb2).
  split; [done|]. split; [lia|]. intros o Hr. by rewrite Hb2, Hb1.
Qed.

Lemma allowed_app a t1 t2 a' : allowed a (t1 ++ t2) a' -> exists a1, allowed a t1 a1 /\ allowed a1 t2 a'.
Proof.
  revert a. induction t1 as [|[c r] t1 IH]; intros a H; [exists a; split; [constructor|done]|].
  inversion H as [|a0 c0 r0 a1 t a2 Hs Ht]; subst. destruct (IH a1 Ht) as (b & H1 & H2). exists b. split; [by econstructor|done].
Qed.

Lemma allowed_read_back a before between fd ub buf len offset ub1 ub2 buf' n a' :
  allowed a (before ++ (Pwrite fd ub buf len offset, Int len) :: between ++ [(Pread fd ub1 buf' len offset, Buf n ub2)]) a' ->
  Forall (fun x => quiet fd offset len x.1 = true) between ->
  n = len /\ forall d, 0 <= d < len -> ub2 (buf' + d) = ub (buf + d).
Proof.
  intros (a1 & _ & H)%allowed_app Hq. inversion H as [|x c r a2 t z Hw Ht]; subst. apply allowed_app in Ht as (a3 & Hbt & Hr).
  inversion Hr as [|x c r a4 t z Hrd Hnil]; subst. inversion Hw; subst.
  destruct (allowed_quiet _ _ _ fd k offset len Hbt Hq) as (Ho3 & Hz3 & Hb3); [done|done|]. inversion Hrd; subst.
  replace k0 with k in * by congruence. cbn [a_size a_write] in Hz3. rewrite Z.eqb_refl in Hz3.
  match goal with |- context [Z.min len ?x] => replace (Z.min len x) with len in * by lia end. split; [done|]. intros d Hd.
  match goal with H : forall d v, _ -> a_byte _ k _ = Some v -> _ |- _ => apply H; [done|] end.
  rewrite Hb3 by lia. cbn [a_byte a_write]. rewrite Z.eqb_refl. destruct (Z.leb_spec offset (offset + d)), (Z.ltb_spec (offset + d) (offset + len)); try lia.
  cbn [andb]. f_equal. f_equal. lia.
Qed.

(** ** The system after its start *)

Section started.
Context (E : env) (pages_junk cpu now stray : Z) (junk : mem).
Context (fresh : rc_inode) (fresh_ref : Z) (heap : list Z) (sched : list nat) (fake_ts : Z).
Context (n n' : inst).
Hypothesis Hst : first_start E.
Hypothesis Hm : mem_ok (bytes (dev (y_fs (n_sys n)))).
Hypothesis Hs : shm_ok (y_fs (n_sys n)).
Hypothesis Hj : 0 <= pages_junk < 2 ^ 64.
Hypothesis Hn : 0 <= now < 2 ^ 64.
Hypothesis Hi : slotfs_init E pages_junk cpu now stray junk fresh fresh_ref heap sched fake_ts n = Ok (0, n').
Local Abbreviation sb := (mkfs_sb pages_junk now DAX_SIZE).

Lemma started_session : session sb (n_sys n') [root (y_fs (n_sys n'))] [] a_empty.
Proof.
  destruct (slotfs_init_run E pages_junk cpu now stray junk fresh fresh_ref heap sched fake_ts n Hst Hm Hs Hj Hn) as (n1 & H1 & _ & _ & _ & Hf & _ & Hr & Hc & Hv).
  rewrite Hi in H1. injection H1 as <-. by apply fresh_session.
Qed.

(** C2: The file system does not get stuck and stays well formed.  After the first
    start and any sequence of calls that were [ready] (open and create, close,
    writes within a page, reads from inside a file, renames of other paths than
    [/] that do not move a directory into itself, with resources left), the
    directories and files on the device and in memory satisfy the invariants of
    the components, the root is a directory and no lock is held; and every next
    call that is [ready] returns, with a number or an error.  A call that does not
    return, here, faults: it follows a null or stale pointer, leaves an array in
    memory, fails an assertion or waits for a lock it holds; loads and stores on
    the device are not checked. *)
Theorem calls_are_safe t y :
  exec sb (n_sys n') t y ->
  (exists D P, fs_inv sb (y_fs y) D P /\ root (y_fs y) ∈ D) /\ locks y = ∅ /\
  forall w c, ready sb w y c -> exists r y', do_call sb w c y = Ok (r, y').
Proof.
  intros Hx. pose proof (sb_ok pages_junk now) as Hlo. destruct (exec_allowed _ _ _ _ Hlo Hx _ _ _ started_session) as (a & D & P & _ & Hss).
  split; [|split; [apply Hss|]].
  - exists D, P. destruct Hss as (H & _). split; [apply H|]. apply (proj1 (fa_root _ _ _ _ _ H)).
  - intros w c Hr. destruct (run_step _ w y D P a c Hlo Hss Hr) as (r & y' & _ & _ & _ & Hrun & _). by exists r, y'.
Qed.

End started.

(** C3: A file reads back what was written to it.  In a session (as after the
    first start) of [ready] calls: after a [pwrite] within a page that returned its
    length, and whatever files are created, opened, closed, renamed, read, or written
    at other offsets, with the descriptor kept open, a [pread] of the same bytes
    through the same descriptor returns the length and what the [pwrite] was given. *)
Theorem calls_read_back sb y D P a before between fd ub buf len offset ub1 buf' m ub2 y' :
  layout_ok sb -> session sb y D P a ->
  exec sb y (before ++ (Pwrite fd ub buf len offset, Int len) :: between ++ [(Pread fd ub1 buf' len offset, Buf m ub2)]) y' ->
  Forall (fun x => quiet fd offset len x.1 = true) between ->
  m = len /\ forall d, 0 <= d < len -> ub2 (buf' + d) = ub (buf + d).
Proof.
  intros Hlo Hs Hx Hq. destruct (exec_allowed _ _ _ _ Hlo Hx _ _ _ Hs) as (a' & _ & _ & Ha & _). by eapply allowed_read_back.
Qed.
