(* ===== verification/Lib.v ===== *)
(** * The calls of the C library (src/slotfs/lib.c, lib.h)

    SlotFS is loaded before the C library and defines its calls: [OP_DEFINE(X)]
    is the definition [X] here.  A call goes to SlotFS, or to the function of
    the C library that [dlsym] found, a field of the record [real_ops].  The C
    library and the kernel are a state of an arbitrary type [H], and their
    functions parameters.  [slotfs_mmap] (slotfs_func.c) is here because it
    calls the kernel. *)
From stdpp Require Import base numbers list gmap.
From S2P Require Import Prelude Slot Btree Rbtree RbErase DirIndex Pm Mkfs Heap Fs Journal Dir File Runtime Vfs Func.
Local Open Scope Z_scope.

Definition FD_OFFSET : Z := 1024.
Definition BACKSLASH : Z := 92.
Definition AT_SYMLINK_NOFOLLOW : Z := 0x100.
Definition EFAULT : Z := 14.
Definition MAP_FIXED : Z := 0x10.
Definition MAP_FAILED : Z := -1.

(** ** State *)

(** What a [stat] buffer is filled with. *)
Inductive stat_buf : Type := Stat (b : option stat) | Statx (b : option (list Z)).
(** What [__errno_location] points to: a word of the C library or [err]. *)
Inductive int_ptr : Type := Errno (p : Z) | Err_var.

(** [struct real_ops], [None] for [NULL].  The last argument of [open] is only
    given when a file is to be created. *)
Record real_ops (H : Type) : Type := mk_real {
  real_OPEN : option (list Z -> Z -> option Z -> M H Z);
  real_OPENAT : option (Z -> list Z -> Z -> option Z -> M H Z);
  real_MKDIR : option (list Z -> Z -> M H Z);
  real_CLOSE : option (Z -> M H Z);
  real_SEEK : option (Z -> Z -> Z -> M H Z);
  real_READ : option (Z -> mem -> Z -> Z -> M H (Z * mem));
  real_WRITE : option (Z -> mem -> Z -> Z -> M H Z);
  real_PREAD : option (Z -> mem -> Z -> Z -> Z -> M H (Z * mem));
  real_PWRITE : option (Z -> mem -> Z -> Z -> Z -> M H Z);
  real_STAT : option (list Z -> M H (Z * option stat));
  real_LSTAT : option (list Z -> M H (Z * option stat));
  real_FSTAT : option (Z -> M H (Z * option stat));
  real_XSTAT : option (Z -> list Z -> M H (Z * option stat));
  real_NEWFSTATAT : option (Z -> list Z -> Z -> M H (Z * option stat));
  real_FTRUNC : option (Z -> Z -> M H Z);
  real_MMAP : option (Z -> Z -> Z -> Z -> Z -> Z -> M H Z);
  real_FSYNC : option (Z -> M H Z);
  real_FDATASYNC : option (Z -> M H Z);
  real_SYNC_FILE_RANGE : option (Z -> Z -> Z -> Z -> M H Z);
  real_OPENDIR : option (list Z -> M H Z);
  real_READDIR : option (Z -> M H Z);
  real_RENAME : option (list Z -> list Z -> M H Z);
  real_LINK : option (list Z -> list Z -> M H Z);
  real_UNLINK : option (list Z -> M H Z);
  real_SYMLINK : option (list Z -> list Z -> M H Z);
  real_FOPEN : option (list Z -> list Z -> M H Z);
  real_FPUTS : option (list Z -> Z -> M H Z);
  real_FGETS : option (mem -> Z -> Z -> Z -> M H (Z * mem));
  real_FWRITE : option (mem -> Z -> Z -> Z -> Z -> M H Z);
  real_FREAD : option (mem -> Z -> Z -> Z -> Z -> M H (Z * mem));
  real_FCLOSE : option (Z -> M H Z);
  real_FSEEK : option (Z -> Z -> Z -> M H Z);
  real_FFLUSH : option (Z -> M H Z);
  real_ERROR : option (M H Z);
}.
Arguments real_OPEN {H}. Arguments real_OPENAT {H}. Arguments real_MKDIR {H}. Arguments real_CLOSE {H}. Arguments real_SEEK {H}.
Arguments real_READ {H}. Arguments real_WRITE {H}. Arguments real_PREAD {H}. Arguments real_PWRITE {H}. Arguments real_STAT {H}.
Arguments real_LSTAT {H}. Arguments real_FSTAT {H}. Arguments real_XSTAT {H}. Arguments real_NEWFSTATAT {H}. Arguments real_FTRUNC {H}.
Arguments real_MMAP {H}. Arguments real_FSYNC {H}. Arguments real_FDATASYNC {H}. Arguments real_SYNC_FILE_RANGE {H}.
Arguments real_OPENDIR {H}. Arguments real_READDIR {H}. Arguments real_RENAME {H}. Arguments real_LINK {H}. Arguments real_UNLINK {H}.
Arguments real_SYMLINK {H}. Arguments real_FOPEN {H}. Arguments real_FPUTS {H}. Arguments real_FGETS {H}. Arguments real_FWRITE {H}.
Arguments real_FREAD {H}. Arguments real_FCLOSE {H}. Arguments real_FSEEK {H}. Arguments real_FFLUSH {H}. Arguments real_ERROR {H}.

(** The fields of a [FILE] that SlotFS uses. *)
Record FILE : Type := mk_FILE { _flags : Z; _fileno : Z }.

(** The process: SlotFS, [real_ops], the C library, the variable [err], and the
    [FILE]s of SlotFS at their addresses. *)
Record lib (H : Type) : Type := mk_lib { l_sys : sys; l_real : real_ops H; l_host : H; l_err : Z; l_files : gmap Z FILE }.
Arguments mk_lib {H}. Arguments l_sys {H}. Arguments l_real {H}. Arguments l_host {H}. Arguments l_err {H}. Arguments l_files {H}.

Section lib.
Context {H : Type}.
(** What [dlsym] finds, and [munmap], which is not interposed. *)
Context (dlsym : real_ops H) (munmap : Z -> Z -> M H Z).
Context (sb : pm_super_block) (cpu now stray : Z) (junk : mem) (stk stk' : nameidata) (wild fake_ts : Z).

Definition on_sys {A} (m : M sys A) : M (lib H) A := zoom l_sys (fun y l => mk_lib y (l_real l) (l_host l) (l_err l) (l_files l)) m.
Definition on_host {A} (m : M H A) : M (lib H) A := zoom l_host (fun h l => mk_lib (l_sys l) (l_real l) h (l_err l) (l_files l)) m.

Definition insert_real_op : M (lib H) unit := modify (fun l => mk_lib (l_sys l) dlsym (l_host l) (l_err l) (l_files l)).
(** The first lines of every call. *)
Definition check_ops : M (lib H) unit :=
  r ← gets l_real; match real_ERROR r with None => insert_real_op | Some _ => mret tt end.
(** [real_ops.X(...)] *)
Definition real {A B} (f : real_ops H -> option A) (k : A -> M H B) : M (lib H) B :=
  r ← gets l_real; match f r with Some op => on_host (k op) | None => throw NullDeref end.

(** ** Descriptors and paths *)

Definition ours (file : Z) : bool := (FD_OFFSET <=? file) && (file <? FD_MAX + FD_OFFSET).
(** [path[k]], 0 behind the end. *)
Definition char_at (path : list Z) (k : nat) : Z := default 0 (path !! k).
Definition first (path : list Z) : Z := char_at path 0.
(** [while ( *p == '\\') p++]. *)
Fixpoint skip_backslashes (path : list Z) : list Z :=
  match path with c :: p => if c =? BACKSLASH then skip_backslashes p else path | [] => [] end.
Definition local_path (path : list Z) : bool := (first path =? BACKSLASH) || negb (first path =? SLASH).
Definition local_path2 (path : list Z) : bool := local_path path || (char_at path 1 =? BACKSLASH).
(** [ret < 0 && *path != '\\']: the call is made again outside of SlotFS. *)
Definition retry (ret : Z) (path : list Z) : bool := (ret <? 0) && negb (first path =? BACKSLASH).

(** ** Positions, sizes and mappings *)

Definition SEEK (file offset whence : Z) : M (lib H) Z :=
  _ ← check_ops;
  if ours file then on_sys (slotfs_lseek (file - FD_OFFSET) offset whence) else
  real real_SEEK (fun op => op file offset whence).
Definition SEEK64 (file offset whence : Z) : M (lib H) Z := SEEK file offset whence.

Definition FTRUNC (file length : Z) : M (lib H) Z :=
  _ ← check_ops;
  if ours file then on_sys (slotfs_ftruncate sb cpu stray junk (file - FD_OFFSET) length) else
  real real_FTRUNC (fun op => op file length).
Definition FTRUNC64 (file length : Z) : M (lib H) Z := FTRUNC file length.

(** [mmap(addr, len, prot, flags, -1, 0)]: [MMAP] for a file that is not ours. *)
Definition anonymous_mmap (addr len prot flags : Z) : M (lib H) Z :=
  _ ← check_ops; real real_MMAP (fun op => op addr len prot flags (-1) 0).

(** The loop of [slotfs_mmap]: the end address, or [MAP_FAILED].  [phys_addr] is
    not used in the code. *)
Fixpoint mmap_loop (fuel : nat) (inode addr len prot flags off mapped curr_map : Z) : M (lib H) Z :=
  match fuel with
  | O => throw OutOfFuel
  | S fuel' =>
      let unlock := on_sys (i ← on_fs (rd_inode inode); on_fs (inode_unlock (i_ino i))) in
      if mapped <? len then
        let block_idx := Z.shiftr (u64 (off + mapped)) PAGE_SHIFT in
        fe ← on_sys (on_fs (filent_lookup stray inode block_idx));
        if fe =? 0 then _ ← unlock; _ ← on_sys (on_rt (set_errno EIO)); mret MAP_FAILED else
        let block_offset := Z.land (u64 (off + mapped)) PAGE_MASK in
        e ← on_sys (on_fs (rd_filent fe));
        let extent_bytes := u64 (u64 (f_blocks e * PAGE_SIZE) - block_offset) in
        let to_map := if u64 (len - mapped) <? extent_bytes then u64 (len - mapped) else extent_bytes in
        vaddr ← anonymous_mmap (if addr =? 0 then 0 else addr + mapped) to_map prot (Z.lor flags MAP_FIXED);
        if vaddr =? MAP_FAILED then _ ← unlock; mret MAP_FAILED else
        if (0 <? mapped) && negb (curr_map + to_map =? vaddr) then
          _ ← unlock; _ ← on_host (munmap addr mapped); _ ← on_sys (on_rt (set_errno EFAULT)); mret MAP_FAILED
        else mmap_loop fuel' inode addr len prot flags off (u64 (mapped + to_map)) vaddr
      else _ ← unlock; mret (if addr =? 0 then curr_map else addr)
  end.
Definition mmap_fuel (len : Z) : nat := 3 + Z.to_nat (len / PAGE_SIZE).
Definition slotfs_mmap (addr len prot flags file off : Z) : M (lib H) Z :=
  inode ← on_sys (file_table_get file);
  if IS_ERR inode then _ ← on_sys (on_rt (set_errno (- EBADFD))); mret MAP_FAILED else
  i ← on_sys (on_fs (rd_inode inode));
  _ ← on_sys (on_fs (inode_lock (i_ino i)));
  mmap_loop (mmap_fuel len) inode addr len prot flags off 0 0.
Definition MMAP (addr len prot flags file off : Z) : M (lib H) Z :=
  _ ← check_ops;
  if ours file then slotfs_mmap addr len prot flags (file - FD_OFFSET) off else
  real real_MMAP (fun op => op addr len prot flags file off).
Definition MMAP64 (addr len prot flags file off : Z) : M (lib H) Z := MMAP addr len prot flags file off.

(** ** Synchronisation *)

Definition FSYNC (file : Z) : M (lib H) Z :=
  _ ← check_ops; if ours file then mret 0 else real real_FSYNC (fun op => op file).
Definition FDATASYNC (fd : Z) : M (lib H) Z :=
  _ ← check_ops; if ours fd then mret 0 else real real_FDATASYNC (fun op => op fd).
Definition SYNC_FILE_RANGE (fd offset nbytes flags : Z) : M (lib H) Z :=
  _ ← check_ops; if ours fd then mret 0 else real real_SYNC_FILE_RANGE (fun op => op fd offset nbytes flags).

(** ** Directories *)

Definition MKDIR (path : list Z) (mode : Z) : M (lib H) Z :=
  _ ← check_ops;
  if local_path2 path then
    ret ← on_sys (slotfs_open sb cpu now stray junk stk AT_FDCWD (skip_backslashes path) O_CREAT (Z.lor mode S_IFDIR));
    if retry ret path then real real_MKDIR (fun op => op path mode) else mret (if 0 <=? ret then 0 else -1)
  else real real_MKDIR (fun op => op path mode).

(** The path is handed on with its backslashes. *)
Definition OPENDIR (path : list Z) : M (lib H) Z :=
  _ ← check_ops;
  if local_path path then
    r ← on_sys (slotfs_opendir sb cpu now stray junk stk path);
    let ret := u64 r in
    if (ret =? 0) && negb (first path =? BACKSLASH) then real real_OPENDIR (fun op => op path) else mret ret
  else real real_OPENDIR (fun op => op path).

Definition READDIR (dirp : Z) : M (lib H) Z :=
  _ ← check_ops;
  if ours dirp then on_sys (slotfs_readdir sb (i32 (dirp - FD_OFFSET))) else real real_READDIR (fun op => op dirp).

Definition RENAME (old new : list Z) : M (lib H) Z :=
  _ ← check_ops;
  if local_path2 old && local_path2 new then
    ret ← on_sys (slotfs_rename sb cpu now stray junk stk stk' fake_ts (skip_backslashes old) (skip_backslashes new));
    if (ret <? 0) && (negb (first old =? BACKSLASH) || negb (first new =? BACKSLASH)) then real real_RENAME (fun op => op old new)
    else mret ret
  else real real_RENAME (fun op => op old new).

(** ** Attributes *)

Definition stat_path (flags : Z) (again : M (lib H) (Z * option stat)) (path : list Z) : M (lib H) (Z * option stat) :=
  if local_path path then
    '(ret, b) ← on_sys (slotfs_stat sb now stray junk stk wild AT_FDCWD (Some (skip_backslashes path)) flags);
    if retry ret path then again else mret (ret, b)
  else again.
Definition STAT (path : list Z) : M (lib H) (Z * option stat) :=
  _ ← check_ops; stat_path 0 (real real_STAT (fun op => op path)) path.
Definition STAT64 (path : list Z) : M (lib H) (Z * option stat) := STAT path.
Definition LSTAT (path : list Z) : M (lib H) (Z * option stat) :=
  _ ← check_ops; stat_path AT_SYMLINK_NOFOLLOW (real real_LSTAT (fun op => op path)) path.
Definition LSTAT64 (path : list Z) : M (lib H) (Z * option stat) := LSTAT path.

(** SlotFS fills a [struct statx] where the caller has a [struct stat]. *)
Definition XSTAT (val : Z) (path : list Z) : M (lib H) (Z * stat_buf) :=
  _ ← check_ops;
  let again := ('(ret, b) ← real real_XSTAT (fun op => op 0 path); mret (ret, Stat b)) in
  if local_path path then
    '(ret, b) ← on_sys (slotfs_xstat sb now stray junk stk wild AT_FDCWD (Some (skip_backslashes path)) 0 0);
    if retry ret path then again else mret (ret, Statx b)
  else again.
Definition XSTAT64 (val : Z) (path : list Z) : M (lib H) (Z * stat_buf) :=
  _ ← check_ops;
  let again := ('(ret, b) ← real real_XSTAT (fun op => op 0 path); mret (ret, Stat b)) in
  if local_path path then
    '(ret, b) ← on_sys (slotfs_xstat sb now stray junk stk wild AT_FDCWD (Some (skip_backslashes path)) 0 0);
    if retry ret path then again else mret (ret, Statx b)
  else again.

Definition FSTAT (file : Z) : M (lib H) (Z * option stat) :=
  _ ← check_ops;
  if ours file then on_sys (slotfs_stat sb now stray junk stk wild (file - FD_OFFSET) None 0) else
  real real_FSTAT (fun op => op file).
Definition FSTAT64 (file : Z) : M (lib H) (Z * option stat) := FSTAT file.

Definition NEWFSTATAT (dirfd : Z) (path : list Z) (flags : Z) : M (lib H) (Z * option stat) :=
  _ ← check_ops;
  let again := real real_NEWFSTATAT (fun op => op dirfd path flags) in
  if local_path path then
    if (dirfd =? AT_FDCWD) || ours dirfd then
      let fd := if dirfd =? AT_FDCWD then AT_FDCWD else dirfd - FD_OFFSET in
      '(ret, b) ← on_sys (slotfs_stat sb now stray junk stk wild fd (Some (skip_backslashes path)) flags);
      if retry ret path then again else mret (ret, b)
    else again
  else again.

(** ** Opening and closing *)

Definition OPEN (path : list Z) (oflag mode : Z) : M (lib H) Z :=
  _ ← check_ops;
  let vararg := if has_flag oflag O_CREAT then Some mode else None in
  let again := real real_OPEN (fun op => op path oflag vararg) in
  if local_path2 path then
    ret ← on_sys (if has_flag oflag O_CREAT
                  then slotfs_open sb cpu now stray junk stk AT_FDCWD (skip_backslashes path) oflag mode
                  else slotfs_open sb cpu now stray junk stk AT_FDCWD (if first path =? BACKSLASH then drop 1 path else path) oflag 0);
    if retry ret path then again else
    if ret <? 0 then mret ret else mret (ret + FD_OFFSET)
  else again.
Definition OPEN64 (path : list Z) (oflag mode : Z) : M (lib H) Z := OPEN path oflag mode.
Definition LIBC_OPEN64 (path : list Z) (oflag mode : Z) : M (lib H) Z := OPEN path oflag mode.

(** When the call is made again, [dirfd] is already that of SlotFS. *)
Definition OPENAT (dirfd : Z) (path : list Z) (oflag mode : Z) : M (lib H) Z :=
  _ ← check_ops;
  let create := has_flag oflag O_CREAT in
  if local_path path then
    if (dirfd =? AT_FDCWD) || ours dirfd then
      let fd := if dirfd =? AT_FDCWD then AT_FDCWD else dirfd - FD_OFFSET in
      ret ← on_sys (slotfs_open sb cpu now stray junk stk fd (skip_backslashes path) oflag (if create then mode else 0));
      if retry ret path then real real_OPENAT (fun op => op fd path oflag (if create then Some mode else None))
      else mret (ret + FD_OFFSET)
    else real real_OPENAT (fun op => op dirfd path oflag (Some (if create then mode else 0)))
  else real real_OPEN (fun op => op path oflag (if create then Some mode else None)).

Definition CLOSE (file : Z) : M (lib H) Z :=
  _ ← check_ops;
  if ours file then on_sys (slotfs_close sb (file - FD_OFFSET)) else real real_CLOSE (fun op => op file).

(** ** Links *)

Definition LINK (oldpath newpath : list Z) : M (lib H) Z :=
  _ ← check_ops;
  if local_path2 newpath && local_path2 oldpath then
    ret ← on_sys (slotfs_link sb cpu now stray junk stk (skip_backslashes oldpath) (skip_backslashes newpath));
    if (ret <? 0) && negb (first oldpath =? BACKSLASH) && negb (first newpath =? BACKSLASH) then real real_LINK (fun op => op oldpath newpath)
    else mret ret
  else real real_LINK (fun op => op oldpath newpath).

Definition UNLINK (path : list Z) : M (lib H) Z :=
  _ ← check_ops;
  if local_path2 path then
    ret ← on_sys (slotfs_unlink sb now stray junk stk (skip_backslashes path));
    if retry ret path then real real_UNLINK (fun op => op path) else mret ret
  else real real_UNLINK (fun op => op path).

Definition SYMLINK (target link : list Z) : M (lib H) Z :=
  _ ← check_ops;
  if local_path2 target && local_path2 link then
    ret ← on_sys (slotfs_symlink sb cpu now stray junk stk (skip_backslashes target) (skip_backslashes link));
    if (ret <? 0) && negb (first link =? BACKSLASH) && negb (first target =? BACKSLASH) then real real_SYMLINK (fun op => op target link)
    else mret ret
  else real real_SYMLINK (fun op => op target link).

(** ** Reading and writing *)

Definition READ (file : Z) (ub : mem) (buf length : Z) : M (lib H) (Z * mem) :=
  _ ← check_ops;
  if ours file then on_sys (slotfs_read sb stray (file - FD_OFFSET) ub buf length) else real real_READ (fun op => op file ub buf length).
Definition READ2 (file : Z) (ub : mem) (buf length : Z) : M (lib H) (Z * mem) := READ file ub buf length.
Definition WRITE (file : Z) (ub : mem) (buf length : Z) : M (lib H) Z :=
  _ ← check_ops;
  if ours file then on_sys (slotfs_write sb cpu now stray junk (file - FD_OFFSET) ub buf length) else
  real real_WRITE (fun op => op file ub buf length).

Definition PREAD (file : Z) (ub : mem) (buf count offset : Z) : M (lib H) (Z * mem) :=
  _ ← check_ops;
  if ours file then on_sys (slotfs_pread sb stray (file - FD_OFFSET) ub buf count offset) else
  real real_PREAD (fun op => op file ub buf count offset).
Definition PREAD64 (file : Z) (ub : mem) (buf count offset : Z) : M (lib H) (Z * mem) := PREAD file ub buf count offset.
Definition PWRITE (file : Z) (ub : mem) (buf count offset : Z) : M (lib H) Z :=
  _ ← check_ops;
  if ours file then on_sys (slotfs_pwrite sb cpu now stray junk (file - FD_OFFSET) ub buf count offset) else
  real real_PWRITE (fun op => op file ub buf count offset).
Definition PWRITE64 (file : Z) (ub : mem) (buf count offset : Z) : M (lib H) Z := PWRITE file ub buf count offset.

(** ** The error number *)

Definition ERROR : M (lib H) int_ptr :=
  _ ← check_ops;
  e ← on_sys (gets (fun y => _errno (y_rt y)));
  if e =? 0 then p ← real real_ERROR (fun op => op); mret (Errno p) else
  _ ← modify (fun l => mk_lib (l_sys l) (l_real l) (l_host l) e (l_files l));
  _ ← on_sys (on_rt (set_errno 0));
  mret Err_var.

(** ** Running the calls *)

Definition filled (l : lib H) : real_ops H := match real_ERROR (l_real l) with None => dlsym | Some _ => l_real l end.
Definition moved_on (y : sys) (h : H) (l : lib H) : lib H := mk_lib y (filled l) h (l_err l) (l_files l).

Lemma check_ops_run l : check_ops l = Ok (tt, moved_on (l_sys l) (l_host l) l).
Proof. unfold check_ops, moved_on, filled. erewrite M_bind_step by reflexivity. destruct (real_ERROR (l_real l)); [by destruct l|done]. Qed.
Lemma on_sys_run {A} (m : M sys A) (l : lib H) :
  on_sys m l = match m (l_sys l) with Ok (a, y) => Ok (a, mk_lib y (l_real l) (l_host l) (l_err l) (l_files l)) | Fault f => Fault f end.
Proof. reflexivity. Qed.
Lemma bind_run {S A B} (m : M S A) (k : A -> M S B) s :
  (m ≫= k) s = match m s with Ok (a, s') => k a s' | Fault f => Fault f end.
Proof. unfold mbind, M_bind. by destruct (m s) as [[? ?]|]. Qed.

Lemma real_run {A B} (f : real_ops H -> option A) (k : A -> M H B) l :
  real f k l = match (match f (l_real l) with Some o => k o | None => throw NullDeref end) (l_host l) with
               | Ok (b, h) => Ok (b, mk_lib (l_sys l) (l_real l) h (l_err l) (l_files l)) | Fault e => Fault e end.
Proof. unfold real. rewrite bind_run. cbn [gets]. by destruct (f (l_real l)) as [o|]. Qed.

(** ** The rounds of [slotfs_mmap] *)

Lemma bind_cong {S A B} (m : M S A) (k k' : A -> M S B) s :
  (forall a s', m s = Ok (a, s') -> k a s' = k' a s') -> (m ≫= k) s = (m ≫= k') s.
Proof. intros Hk. rewrite !bind_run. destruct (m s) as [[a s']|] eqn:E; [by apply Hk|done]. Qed.

(** The extents of a file have blocks. *)
Definition extents_ok (l : lib H) : Prop := forall fe e, filents (y_fs (l_sys l)) !! fe = Some e -> 1 <= f_blocks e < 2 ^ 51.

Lemma filent_lookup_filents inode k l fe l' :
  on_sys (on_fs (filent_lookup stray inode k)) l = Ok (fe, l') -> filents (y_fs (l_sys l')) = filents (y_fs (l_sys l)).
Proof.
  rewrite on_sys_run. unfold on_fs, zoom, filent_lookup, on_btree. rewrite bind_run. unfold rd_inode, lift. destruct (deref (inodes (y_fs (l_sys l))) inode) as [i|]; [|done].
  unfold zoom. destruct (btree_get stray k (tree_of i (btree_arena (y_fs (l_sys l))))) as [[r t]|]; [|done]. by intros [= <- <-].
Qed.
Lemma anonymous_mmap_sys addr len prot flags l r l' : anonymous_mmap addr len prot flags l = Ok (r, l') -> l_sys l' = l_sys l.
Proof.
  unfold anonymous_mmap. rewrite bind_run, check_ops_run, real_run. cbn [moved_on l_real l_host l_sys].
  destruct (real_MMAP (filled l)) as [o|]; [|done]. destruct (o _ _ _ _ _ _ _) as [[? ?]|]; [|done]. by intros [= <- <-].
Qed.
Lemma rd_filent_run fe l e l' : on_sys (on_fs (rd_filent fe)) l = Ok (e, l') -> l' = l /\ filents (y_fs (l_sys l)) !! fe = Some e.
Proof.
  rewrite on_sys_run. unfold on_fs, zoom, rd_filent, lift. destruct (deref (filents (y_fs (l_sys l))) fe) as [x|] eqn:E; [|done]. intros [= <- <-].
  split; [by destruct l as [[? ? ?] ? ? ? ?]|]. unfold deref in E. destruct (filents (y_fs (l_sys l)) !! fe); [congruence|done].
Qed.

(** The number of rounds from [mapped] on, with the one that ends the loop. *)
Definition rounds (len off mapped : Z) : nat :=
  if mapped <? len then Z.to_nat ((len - mapped) / PAGE_SIZE + if (off + mapped) mod PAGE_SIZE =? 0 then 2 else 3) else 1%nat.

(** A round maps the rest, or up to the end of a page, and at least a page when
    it starts with one. *)
Lemma rounds_step len off mapped b :
  0 <= mapped < len -> 0 <= off -> 1 <= b ->
  let ext := b * PAGE_SIZE - (off + mapped) mod PAGE_SIZE in
  let n := if len - mapped <? ext then len - mapped else ext in
  0 < n <= len - mapped /\ (rounds len off (mapped + n) < rounds len off mapped)%nat.
Proof.
  intros Hm Ho Hb. cbv zeta. unfold rounds, PAGE_SIZE. pose proof (Z.mod_pos_bound (off + mapped) 4096 ltac:(lia)) as Hmod.
  pose proof (Z.div_pos (len - mapped) 4096 ltac:(lia) ltac:(lia)) as Hdiv. destruct (Z.ltb_spec mapped len); [|lia].
  destruct (Z.ltb_spec (len - mapped) (b * 4096 - (off + mapped) mod 4096)) as [Hlt|Hge].
  - split; [lia|]. destruct (Z.ltb_spec (mapped + (len - mapped)) len); [lia|]. destruct (_ =? 0); lia.
  - split; [lia|]. set (n := b * 4096 - (off + mapped) mod 4096) in *. assert (0 < n) as Hn by lia.
    destruct (Z.ltb_spec (mapped + n) len) as [Hl|]; [|destruct (_ =? 0); lia].
    assert ((off + (mapped + n)) mod 4096 = 0) as ->.
    { replace (off + (mapped + n)) with ((b + (off + mapped) / 4096) * 4096) by (unfold n; pose proof (Z.div_mod (off + mapped) 4096); lia). apply Z.mod_mul. lia. }
    pose proof (Z.div_pos (len - (mapped + n)) 4096 ltac:(lia) ltac:(lia)). cbn [Z.eqb].
    destruct (Z.eqb_spec ((off + mapped) mod 4096) 0) as [E|E].
    + assert ((len - (mapped + n)) / 4096 < (len - mapped) / 4096); [|lia].
      replace (len - mapped) with (len - (mapped + n) + b * 4096) by (unfold n; lia). rewrite Z.div_add by lia. lia.
    + assert ((len - (mapped + n)) / 4096 <= (len - mapped) / 4096) by (apply Z.div_le_mono; lia). lia.
Qed.

(** The fuel does not matter once it covers the rounds. *)
Lemma mmap_loop_fuel inode addr len prot flags off n n' l mapped curr :
  0 <= off -> off + len < 2 ^ 63 -> 0 <= mapped -> extents_ok l ->
  (rounds len off mapped <= n)%nat -> (rounds len off mapped <= n')%nat ->
  mmap_loop n inode addr len prot flags off mapped curr l = mmap_loop n' inode addr len prot flags off mapped curr l.
Proof.
  intros Ho Hlen. revert n' l mapped curr. induction n as [|n IH]; intros n' l mapped curr Hm Hx Hn Hn'.
  { exfalso. unfold rounds in Hn. destruct (Z.ltb_spec mapped len); [|lia]. pose proof (Z.div_pos (len - mapped) PAGE_SIZE ltac:(lia) ltac:(done)). destruct (_ =? 0); lia. }
  destruct n' as [|n']. { exfalso. unfold rounds in Hn'. destruct (Z.ltb_spec mapped len); [|lia]. pose proof (Z.div_pos (len - mapped) PAGE_SIZE ltac:(lia) ltac:(done)). destruct (_ =? 0); lia. }
  cbn [mmap_loop]. destruct (Z.ltb_spec mapped len) as [Hlt|]; [|done]. apply bind_cong. intros fe l1 H1. pose proof (filent_lookup_filents _ _ _ _ _ H1) as E1.
  destruct (fe =? 0); [done|]. apply bind_cong. intros e l2 H2. apply rd_filent_run in H2 as [-> He]. rewrite E1 in He. destruct (Hx fe e He) as [Hb1 Hb2].
  apply bind_cong. intros v l3 H3. pose proof (anonymous_mmap_sys _ _ _ _ _ _ _ H3) as E3. destruct (v =? MAP_FAILED); [done|].
  destruct ((0 <? mapped) && _); [done|]. rewrite !(u64_small (off + mapped)), !(u64_small (len - mapped)) by lia.
  change PAGE_MASK with (Z.ones 12). rewrite Z.land_ones by lia. change (2 ^ 12) with PAGE_SIZE. rewrite (u64_small (f_blocks e * PAGE_SIZE)) by (unfold PAGE_SIZE; lia).
  pose proof (Z.mod_pos_bound (off + mapped) PAGE_SIZE ltac:(done)) as Hmod. rewrite (u64_small (_ - _)) by (unfold PAGE_SIZE in *; lia).
  destruct (rounds_step len off mapped (f_blocks e) ltac:(lia) Ho Hb1) as [Hstep Hless]. cbv zeta in Hstep, Hless.
  rewrite (u64_small (mapped + _)) by lia. apply IH; [lia| |lia|lia]. intros fe' e'. rewrite E3, E1. apply Hx.
Qed.
End lib.
