(* ===== verification/LibTrace.v ===== *)
(** * SlotFS behind the calls of the C library

    A program calls the C library; lib.c takes the calls for paths that start
    with a backslash and for the descriptors 1024 to 9215 to SlotFS, and passes
    those for other absolute paths and descriptors on.  The two worlds do not
    interfere: an interleaving of calls is a sequence of calls of Trace.v on the
    file system and a sequence of calls of the C library on its state. *)
From stdpp Require Import base numbers list gmap.
From S2P Require Import Prelude Slot Pm Mkfs Heap Fs Dir Runtime Vfs Func Recover Mount FsInv FuncCreate Session Trace Lib.
Local Open Scope Z_scope.

(** What a call of the C library returns. *)
Inductive raw : Type := RInt (r : Z) | RBuf (r : Z) (ub : mem).

Definition as_int {S} (c : M S Z) : M S raw := r ← c; mret (RInt r).
Definition as_buf {S} (c : M S (Z * mem)) : M S raw := '(r, ub) ← c; mret (RBuf r ub).

Section libtrace.
Context {H : Type} (dlsym : real_ops H) (sb : pm_super_block).

(** The calls of Session.v as calls of the C library. *)
Definition lib_call (w : around) (c : call) : M (lib H) raw :=
  let 'mk_around cpu now stray junk stk stk' fake_ts := w in
  match c with
  | Open path flags mode => as_int (OPEN dlsym sb cpu now stray junk stk path flags mode)
  | Close fd => as_int (CLOSE dlsym sb fd)
  | Pwrite fd ub buf len offset => as_int (PWRITE dlsym sb cpu now stray junk fd ub buf len offset)
  | Pread fd ub buf len offset => as_buf (PREAD dlsym sb stray fd ub buf len offset)
  | Rename old new => as_int (RENAME dlsym sb cpu now stray junk stk stk' fake_ts old new)
  end.
(** The same calls on the C library alone. *)
Definition host_call (r : real_ops H) (c : call) : M H raw :=
  let op {A B} (f : real_ops H -> option A) (k : A -> M H B) := match f r with Some o => k o | None => throw NullDeref end in
  match c with
  | Open path flags mode => as_int (op real_OPEN (fun o => o path flags (if has_flag flags O_CREAT then Some mode else None)))
  | Close fd => as_int (op real_CLOSE (fun o => o fd))
  | Pwrite fd ub buf len offset => as_int (op real_PWRITE (fun o => o fd ub buf len offset))
  | Pread fd ub buf len offset => as_buf (op real_PREAD (fun o => o fd ub buf len offset))
  | Rename old new => as_int (op real_RENAME (fun o => o old new))
  end.

(** Which calls are meant for SlotFS, said without the tests of lib.c: the
    descriptors 1024 to 9215, and the paths of one backslash and a path of
    SlotFS. *)
Definition inside_fd (fd : Z) : option Z := if decide (1024 <= fd < 9216) then Some (fd - 1024) else None.
Definition inside_path (path : list Z) : option (list Z) :=
  match path with
  | 92 :: 92 :: _ => None
  | 92 :: p => Some p
  | _ => None
  end.
(** Those of the C library: the other descriptors, and the absolute paths whose
    slash is not followed by a backslash. *)
Definition outside_fd (fd : Z) : bool := bool_decide (fd < 1024 \/ 9216 <= fd).
Definition outside_path (path : list Z) : bool :=
  match path with
  | 47 :: 92 :: _ => false
  | 47 :: _ => true
  | _ => false
  end.

(** A call that is meant for SlotFS, as it is to arrive there. *)
Definition inner (c : call) : option call :=
  match c with
  | Open path flags mode => (fun p => Open p flags (if has_flag flags O_CREAT then mode else 0)) <$> inside_path path
  | Close fd => Close <$> inside_fd fd
  | Pwrite fd ub buf len offset => (fun d => Pwrite d ub buf len offset) <$> inside_fd fd
  | Pread fd ub buf len offset => (fun d => Pread d ub buf len offset) <$> inside_fd fd
  | Rename old new => match inside_path old, inside_path new with Some p, Some q => Some (Rename p q) | _, _ => None end
  end.
(** The calls for the C library; a rename is one of them as soon as one of its
    paths is outside. *)
Definition outer (c : call) : bool :=
  match c with
  | Open path _ _ => outside_path path
  | Close fd | Pwrite fd _ _ _ _ | Pread fd _ _ _ _ => outside_fd fd
  | Rename old new => outside_path old || outside_path new
  end.

(** The answer of SlotFS and what the program gets; the error number is in the
    process. *)
Definition shows (c : call) (r : reply) (x : raw) : Prop :=
  match c, r with
  | Open _ _ _, Int fd => x = RInt (if fd <? 0 then fd else fd + 1024)
  | Pread _ _ _ _ _, Err _ => exists ub, x = RBuf (-1) ub
  | _, Int r => x = RInt r
  | _, Err _ => x = RInt (-1)
  | _, Buf r ub => x = RBuf r ub
  end.

(** ** Every call goes one way *)

Lemma ours_inside fd d : inside_fd fd = Some d -> ours fd = true /\ d = fd - FD_OFFSET.
Proof. unfold inside_fd, ours. case_decide as Hf; [|done]. intros [= <-]. split; [|done]. change FD_MAX with 8192. change FD_OFFSET with 1024. lia. Qed.
Lemma ours_outside fd : outside_fd fd = true -> ours fd = false.
Proof. unfold outside_fd, ours. rewrite bool_decide_eq_true. change FD_MAX with 8192. change FD_OFFSET with 1024. lia. Qed.

Lemma path_inside path p : inside_path path = Some p -> path = BACKSLASH :: p /\ first p <> BACKSLASH.
Proof.
  unfold inside_path, first, char_at, BACKSLASH. intros E.
  repeat case_match; simplify_eq; cbn; (split; [done|lia]).
Qed.
Lemma path_outside path : outside_path path = true -> local_path2 path = false.
Proof.
  unfold outside_path, local_path2, local_path, first, char_at, BACKSLASH, SLASH. intros E.
  repeat case_match; simplify_eq; reflexivity.
Qed.
Lemma local_inside p : local_path2 (BACKSLASH :: p) = true.
Proof. reflexivity. Qed.
Lemma skip_inside p : first p <> BACKSLASH -> skip_backslashes (BACKSLASH :: p) = p.
Proof. destruct p as [|c p]; [done|]. cbn [skip_backslashes]. rewrite Z.eqb_refl. intros Hc. by rewrite (proj2 (Z.eqb_neq c BACKSLASH) Hc). Qed.
Lemma retry_inside r p : retry r (BACKSLASH :: p) = false.
Proof. unfold retry. cbn [first char_at]. apply andb_false_r. Qed.

Lemma open_inner cpu now stray junk stk p flags mode l : first p <> BACKSLASH ->
  OPEN dlsym sb cpu now stray junk stk (BACKSLASH :: p) flags mode l =
  match slotfs_open sb cpu now stray junk stk AT_FDCWD p flags (if has_flag flags O_CREAT then mode else 0) (l_sys l) with
  | Ok (r, y) => Ok (if r <? 0 then r else r + FD_OFFSET, moved_on dlsym y (l_host l) l)
  | Fault f => Fault f
  end.
Proof.
  intros Hp. unfold OPEN. rewrite bind_run, check_ops_run, local_inside, skip_inside by done.
  change (if first (BACKSLASH :: p) =? BACKSLASH then drop 1 (BACKSLASH :: p) else BACKSLASH :: p) with p.
  destruct (has_flag flags O_CREAT); rewrite bind_run, on_sys_run; cbn [l_sys moved_on l_real l_host l_err l_files];
    destruct (slotfs_open _ _ _ _ _ _ _ _ _ _ _) as [[r y]|f]; try done; rewrite retry_inside; by destruct (r <? 0).
Qed.

Lemma lib_inner w c c' l : inner c = Some c' ->
  match do_call sb w c' (l_sys l) with
  | Ok (r, y) => exists x, lib_call w c l = Ok (x, moved_on dlsym y (l_host l) l) /\ shows c r x
  | Fault f => lib_call w c l = Fault f
  end.
Proof.
  destruct w as [cpu now stray junk stk stk' ts]. destruct c as [path flags mode|fd|fd ub buf len offset|fd ub buf len offset|old new]; cbn [inner lib_call].
  - destruct (inside_path path) as [p|] eqn:Ep; [|done]. intros [= <-]. destruct (path_inside _ _ Ep) as [-> Hp]. unfold as_int. rewrite bind_run, open_inner by done.
    cbn [do_call]. unfold int. rewrite bind_run. destruct (slotfs_open _ _ _ _ _ _ _ _ _ _ _) as [[r y]|f]; [|done].
    destruct (Z.eqb_spec r (-1)) as [->|Hr]; (eexists; split; [reflexivity|done]).
  - destruct (inside_fd fd) as [d|] eqn:Ed; [|done]. intros [= <-]. destruct (ours_inside _ _ Ed) as [Eo ->].
    unfold as_int, CLOSE. rewrite !bind_run, check_ops_run, Eo, on_sys_run. cbn [do_call l_sys moved_on]. unfold int. rewrite bind_run.
    destruct (slotfs_close _ _ _) as [[r y]|f]; [|done]. destruct (Z.eqb_spec r (-1)) as [->|Hr]; (eexists; split; [reflexivity|done]).
  - destruct (inside_fd fd) as [d|] eqn:Ed; [|done]. intros [= <-]. destruct (ours_inside _ _ Ed) as [Eo ->].
    unfold as_int, PWRITE. rewrite !bind_run, check_ops_run, Eo, on_sys_run. cbn [do_call l_sys moved_on]. unfold int. rewrite bind_run.
    destruct (slotfs_pwrite _ _ _ _ _ _ _ _ _ _ _) as [[r y]|f]; [|done]. destruct (Z.eqb_spec r (-1)) as [->|Hr]; (eexists; split; [reflexivity|done]).
  - destruct (inside_fd fd) as [d|] eqn:Ed; [|done]. intros [= <-]. destruct (ours_inside _ _ Ed) as [Eo ->].
    unfold as_buf, PREAD. rewrite !bind_run, check_ops_run, Eo, on_sys_run. cbn [do_call l_sys moved_on]. rewrite bind_run.
    destruct (slotfs_pread _ _ _ _ _ _ _ _) as [[[r ub'] y]|f]; [|done]. destruct (Z.eqb_spec r (-1)) as [->|Hr]; (eexists; split; [reflexivity|]); [by exists ub'|done].
  - destruct (inside_path old) as [p|] eqn:E1; [|done]. destruct (inside_path new) as [q|] eqn:E2; [|done]. intros [= <-].
    destruct (path_inside _ _ E1) as [-> Hp], (path_inside _ _ E2) as [-> Hq]. unfold as_int, RENAME.
    rewrite !bind_run, check_ops_run, !local_inside, !skip_inside by done. cbn [andb]. rewrite bind_run, on_sys_run. cbn [do_call l_sys moved_on]. unfold int. rewrite bind_run.
    destruct (slotfs_rename _ _ _ _ _ _ _ _ _ _ _) as [[r y]|f]; [|done]. cbn [first char_at]. rewrite andb_false_r.
    destruct (Z.eqb_spec r (-1)) as [->|Hr]; (eexists; split; [reflexivity|done]).
Qed.

Lemma fd_apart fd d : inside_fd fd = Some d -> outside_fd fd = false.
Proof. unfold inside_fd, outside_fd. case_decide; [|done]. intros _. apply bool_decide_eq_false. lia. Qed.
Lemma path_apart path p : inside_path path = Some p -> outside_path path = false.
Proof. intros E. by destruct (path_inside _ _ E) as [-> _]. Qed.
Lemma inner_not_outer c c' : inner c = Some c' -> outer c = false.
Proof.
  destruct c; cbn [inner outer]; try (destruct (inside_fd fd) eqn:E; [|done]; by rewrite (fd_apart _ _ E)).
  - destruct (inside_path path) eqn:E; [|done]. by rewrite (path_apart _ _ E).
  - destruct (inside_path oldpath) eqn:E1, (inside_path newpath) eqn:E2; try done. by rewrite (path_apart _ _ E1), (path_apart _ _ E2).
Qed.

Lemma lib_outer w c l : outer c = true ->
  lib_call w c l = match host_call (filled dlsym l) c (l_host l) with Ok (x, h) => Ok (x, moved_on dlsym (l_sys l) h l) | Fault f => Fault f end.
Proof.
  destruct w as [cpu now stray junk stk stk' ts]. destruct c as [path flags mode|fd|fd ub buf len offset|fd ub buf len offset|old new]; cbn [outer lib_call host_call]; intros Eo;
    [apply path_outside in Eo|apply ours_outside in Eo..|assert (local_path2 old && local_path2 new = false) as Ea
      by (apply orb_true_iff in Eo as [E1%path_outside|E1%path_outside]; rewrite E1; [done|apply andb_false_r]); clear Eo; rename Ea into Eo];
    unfold as_int, as_buf, OPEN, CLOSE, PWRITE, PREAD, RENAME; rewrite !bind_run, check_ops_run, Eo, real_run;
    cbn [l_sys l_real l_host l_err l_files moved_on]; unfold throw.
  - destruct (real_OPEN (filled dlsym l)) as [o|]; [|done]. by destruct (o _ _ _ _) as [[? ?]|].
  - destruct (real_CLOSE (filled dlsym l)) as [o|]; [|done]. by destruct (o _ _) as [[? ?]|].
  - destruct (real_PWRITE (filled dlsym l)) as [o|]; [|done]. by destruct (o _ _ _ _ _ _) as [[? ?]|].
  - destruct (real_PREAD (filled dlsym l)) as [o|]; [|done]. by destruct (o _ _ _ _ _ _) as [[[? ?] ?]|].
  - destruct (real_RENAME (filled dlsym l)) as [o|]; [|done]. by destruct (o _ _ _) as [[? ?]|].
Qed.

(** ** Sequences of calls *)

Definition lib_trace : Type := list (call * raw).

(** Calls for SlotFS find what they need there. *)
Inductive lib_exec : lib H -> lib_trace -> lib H -> Prop :=
  | lx_nil l : lib_exec l [] l
  | lx_call w l c x l1 t l2 :
      outer c = true \/ (exists c', inner c = Some c' /\ ready sb w (l_sys l) c') ->
      lib_call w c l = Ok (x, l1) -> lib_exec l1 t l2 -> lib_exec l ((c, x) :: t) l2.

Inductive host_exec (r : real_ops H) : H -> lib_trace -> H -> Prop :=
  | hx_nil h : host_exec r h [] h
  | hx_call h c x h1 t h2 : host_call r c h = Ok (x, h1) -> host_exec r h1 t h2 -> host_exec r h ((c, x) :: t) h2.

(** The calls that went to SlotFS, as they arrive there. *)
Inductive arrived : lib_trace -> trace -> Prop :=
  | ar_nil : arrived [] []
  | ar_outer c x t s : outer c = true -> arrived t s -> arrived ((c, x) :: t) s
  | ar_inner c c' x r t s : inner c = Some c' -> shows c r x -> arrived t s -> arrived ((c, x) :: t) ((c', r) :: s).

(** The calls that went to the C library. *)
Definition passed (t : lib_trace) : lib_trace := List.filter (fun x => outer x.1) t.

Lemma filled_on y h l : filled dlsym (moved_on dlsym y h l) = filled dlsym l.
Proof. unfold filled. cbn [moved_on l_real]. unfold filled. destruct (real_ERROR (l_real l)) eqn:E; [by rewrite E|]. by destruct (real_ERROR dlsym). Qed.

Lemma lib_split l t l' : lib_exec l t l' ->
  exists s, arrived t s /\ exec sb (l_sys l) s (l_sys l') /\ host_exec (filled dlsym l) (l_host l) (passed t) (l_host l').
Proof.
  induction 1 as [l|w l c x l1 t l2 Hc Hrun _ (s & Ha & Hx & Hh)]; [exists []; split_and!; constructor|].
  destruct Hc as [Ho|(c' & Hi & Hr)].
  - rewrite (lib_outer w c l Ho) in Hrun. destruct (host_call (filled dlsym l) c (l_host l)) as [[x' h]|] eqn:E; [|done]. injection Hrun as <- <-.
    exists s. split_and!; [by apply ar_outer|exact Hx|]. unfold passed. cbn [List.filter fst]. rewrite Ho. rewrite filled_on in Hh. by eapply hx_call.
  - pose proof (inner_not_outer c c' Hi) as Ho. pose proof (lib_inner w c c' l Hi) as Hin. destruct (do_call sb w c' (l_sys l)) as [[r y]|f] eqn:E; [|congruence].
    destruct Hin as (x' & Hrun' & Hs). rewrite Hrun in Hrun'. injection Hrun' as <- ->. exists ((c', r) :: s). split_and!.
    + by apply (ar_inner c c').
    + by eapply ex_call.
    + unfold passed. cbn [List.filter fst]. rewrite Ho. rewrite filled_on in Hh. exact Hh.
Qed.
End libtrace.

(** ** SlotFS under a program *)

Section started.
Context {H : Type} (dlsym : real_ops H) (E : env) (pages_junk cpu now stray : Z) (junk : mem).
Context (fresh : rc_inode) (fresh_ref : Z) (heap : list Z) (sched : list nat) (fake_ts : Z) (n n' : inst).
Local Abbreviation sb := (mkfs_sb pages_junk now DAX_SIZE).

(** The constructor and the destructor of the library. *)
Definition slotfs_ctor : M inst unit := _ ← slotfs_init E pages_junk cpu now stray junk fresh fresh_ref heap sched fake_ts; mret tt.
Definition slotfs_dtor : M inst unit := slotfs_exit E.

(** C5: SlotFS and the C library do not interfere under the calls open, close,
    pread, pwrite and rename of a program that has the library loaded.  For every
    interleaving of such calls, errors included, those for the descriptors below
    1024 or from 9216 on and for absolute paths whose slash is not followed by a
    backslash (for rename: one of the two paths) have the answers and effects
    that they have on the C library alone; those for the descriptors 1024 to 9215
    and for paths of exactly one backslash and a path, with 1024 and the backslash
    taken off, are a sequence of calls that the abstract file system allows, and
    the file system is then in the state of that tree.  Each call for SlotFS is
    [ready] (Trace.v) where it is made; relative paths and paths with two
    backslashes in front are in neither group. *)
Theorem interposition_refines l t l' :
  first_start E -> mem_ok (bytes (dev (y_fs (n_sys n)))) -> shm_ok (y_fs (n_sys n)) ->
  0 <= pages_junk < 2 ^ 64 -> 0 <= now < 2 ^ 64 ->
  slotfs_ctor n = Ok (tt, n') -> l_sys l = n_sys n' ->
  lib_exec dlsym sb l t l' ->
  host_exec (filled dlsym l) (l_host l) (passed t) (l_host l') /\
  exists s a D P, arrived t s /\ allowed a_empty s a /\ fs_abs sb (y_fs (l_sys l')) D P a /\ rt_abs (y_fs (l_sys l')) (y_rt (l_sys l')) D P a.
Proof.
  intros Hst Hm Hs Hj Hn Hc El Hx.
  destruct (slotfs_init_run E pages_junk cpu now stray junk fresh fresh_ref heap sched fake_ts n Hst Hm Hs Hj Hn) as (n1 & Hi & _).
  unfold slotfs_ctor in Hc. rewrite bind_run, Hi in Hc. injection Hc as <-. destruct (lib_split dlsym sb l t l' Hx) as (s & Ha & He & Hh). split; [exact Hh|].
  rewrite El in He. pose proof (started_session E pages_junk cpu now stray junk fresh fresh_ref heap sched fake_ts n n1 Hst Hm Hs Hj Hn Hi) as Hs0.
  destruct (exec_allowed _ _ _ _ (sb_ok pages_junk now) He _ _ _ Hs0) as (a & D & P & Hal & H1 & H2 & _). by exists s, a, D, P.
Qed.
End started.
