(* ===== verification/Stream.v ===== *)
(** * Streams (src/slotfs/glibc/ffile.c, ffile.h and the stream calls of lib.c)

    [fopen] and its relatives on files of SlotFS.  Such a stream is a [FILE] with
    a magic number in its flags; it has no buffer, every call is a call of
    SlotFS.  The functions of ffile.c keep their names; those of lib.c, which
    choose between them and the C library, are named after their operation. *)
From stdpp Require Import base numbers list gmap.
From S2P Require Import Prelude Slot Btree Rbtree RbErase DirIndex Pm Mkfs Heap Fs Journal Dir File FileIndex FileLog FileRead FileWrite Runtime Vfs Func FuncFile Lib.
Local Open Scope Z_scope.

Definition _IO_MAGIC_SLOT : Z := 0xFACE0000.
Definition _IO_MAGIC_MASK : Z := 0xFFFF0000.
Definition _IO_NO_READS : Z := 0x0004.
Definition _IO_NO_WRITES : Z := 0x0008.
Definition _IO_EOF_SEEN : Z := 0x0010.
Definition _IO_IS_APPENDING : Z := 0x1000.
Definition O_RDONLY : Z := 0.
Definition O_RDWR : Z := 2.
Definition O_EXCL : Z := 0x80.
Definition O_TRUNC : Z := 0x200.
Definition O_APPEND : Z := 0x400.
Definition ENOSYS : Z := 38.
Definition ESPIPE : Z := 29.
Definition POS_BAD : Z := -1.
Definition EOF : Z := -1.

(** ** Modes *)

(** The local variables of [_fopen]; [fm_rest] is the string behind
    [last_recognized]. *)
Record fmode : Type := mk_fmode { omode : Z; oflags : Z; read_write : Z; un_supported : bool; fm_rest : list Z }.

Definition first_mode (mode : list Z) : option fmode :=
  match mode with
  | c :: rest =>
      if c =? 114 (* r *) then Some (mk_fmode O_RDONLY 0 _IO_NO_WRITES false rest)
      else if c =? 119 (* w *) then Some (mk_fmode O_WRONLY (Z.lor O_CREAT O_TRUNC) _IO_NO_READS false rest)
      else if c =? 97 (* a *) then Some (mk_fmode O_WRONLY (Z.lor O_CREAT O_APPEND) (Z.lor _IO_NO_READS _IO_IS_APPENDING) false rest)
      else None
  | [] => None
  end.
(** The rounds of the loop over the rest of the mode. *)
Fixpoint mode_loop (n : nat) (mode : list Z) (m : fmode) : fmode :=
  match n, mode with
  | S n', c :: rest =>
      mode_loop n' rest
        (if c =? 43 (* + *) then mk_fmode O_RDWR (oflags m) (Z.land (read_write m) _IO_IS_APPENDING) (un_supported m) rest
         else if c =? 120 (* x *) then mk_fmode (omode m) (Z.lor (oflags m) O_EXCL) (read_write m) (un_supported m) rest
         else if c =? 98 (* b *) then mk_fmode (omode m) (oflags m) (read_write m) (un_supported m) rest
         else if (c =? 109) || (c =? 99) || (c =? 101) (* m c e *) then mk_fmode (omode m) (oflags m) (read_write m) true (fm_rest m)
         else m)
  | _, _ => m
  end.
(** [strstr(s, ",ccs=") != NULL] *)
Fixpoint has_ccs (s : list Z) : bool :=
  bool_decide (take 5 s = [44; 99; 99; 115; 61]) || match s with [] => false | _ :: s' => has_ccs s' end.

Section stream.
Context {H : Type} (dlsym : real_ops H).
Context (sb : pm_super_block) (cpu now stray : Z) (junk : mem) (stk : nameidata).
(** The words of the C library, and the flags of its own streams. *)
Context (peek : Z -> M H Z) (poke : Z -> Z -> M H unit) (real_flags : Z -> M H Z).

(** ** Streams and the error number *)

Definition get_file (fp : Z) : M (lib H) FILE :=
  f ← gets l_files; match f !! fp with Some x => mret x | None => throw BadPointer end.
Definition set_file (fp : Z) (x : FILE) : M (lib H) unit :=
  modify (fun l => mk_lib (l_sys l) (l_real l) (l_host l) (l_err l) (<[fp := x]> (l_files l))).
(** [fp->_flags]: of a stream of SlotFS, or of the C library. *)
Definition get_flags (fp : Z) : M (lib H) Z :=
  if fp =? 0 then throw NullDeref else
  f ← gets l_files; match f !! fp with Some x => mret (_flags x) | None => on_host (real_flags fp) end.
Definition is_slot (fp : Z) : M (lib H) bool := f ← get_flags fp; mret (Z.land f _IO_MAGIC_MASK =? _IO_MAGIC_SLOT).

(** [errno] is [*__errno_location()], which lib.c defines. *)
Definition set_lib_errno (e : Z) : M (lib H) unit :=
  p ← ERROR dlsym;
  match p with
  | Errno p => on_host (poke p e)
  | Err_var => modify (fun l => mk_lib (l_sys l) (l_real l) (l_host l) e (l_files l))
  end.
Definition get_lib_errno : M (lib H) Z :=
  p ← ERROR dlsym; match p with Errno p => on_host (peek p) | Err_var => gets l_err end.

(** ** ffile.c *)

(** [fp] is what [malloc] returned. *)
Definition _fopen (fp : Z) (filename mode : list Z) : M (lib H) Z :=
  if fp =? 0 then mret 0 else
  match first_mode mode with
  | None => _ ← set_lib_errno EINVAL; mret 0
  | Some m =>
      let m := mode_loop 6 (drop 1 mode) m in
      if un_supported m then _ ← set_lib_errno ENOSYS; mret 0 else
      fdesc ← on_sys (slotfs_open sb cpu now stray junk stk AT_FDCWD filename (Z.lor (omode m) (oflags m)) 438);
      if fdesc <? 0 then mret 0 else
      let mask := _IO_NO_READS + _IO_NO_WRITES + _IO_IS_APPENDING in
      _ ← set_file fp (mk_FILE (Z.lor (Z.ldiff _IO_MAGIC_SLOT mask) (Z.land (read_write m) mask)) fdesc);
      new_pos ← on_sys (slotfs_lseek fdesc 0 SEEK_END);
      bad ← (if new_pos =? POS_BAD then e ← get_lib_errno; mret (negb (e =? ESPIPE)) else mret false);
      if (bad : bool) then _ ← on_sys (slotfs_close sb fdesc); mret 0 else
      _ ← (if read_write m =? _IO_NO_WRITES then on_sys (slotfs_lseek fdesc 0 SEEK_SET) else mret 0);
      if has_ccs (fm_rest m) then _ ← set_lib_errno ENOSYS; mret 0 else mret fp
  end.

Definition _fputs (str : list Z) (stream : Z) : M (lib H) Z :=
  f ← get_file stream;
  if _fileno f <? 0 then mret (-1) else
  r ← on_sys (slotfs_write sb cpu now stray junk (_fileno f) (list_mem str) 0 (zlength str)); mret (i32 r).

(** The pointer that is returned, and the memory of the caller. *)
Definition _fgets (ub : mem) (str n stream : Z) : M (lib H) (Z * mem) :=
  f ← get_file stream;
  if (_fileno f <? 0) || (n <=? 0) then mret (0, ub) else
  original_file_ptr ← on_sys (slotfs_lseek (_fileno f) 0 SEEK_CUR);
  '(read_len, ub) ← on_sys (slotfs_read sb stray (_fileno f) ub str (n - 1));
  if read_len =? -1 then _ ← on_sys (slotfs_lseek (_fileno f) original_file_ptr SEEK_SET); mret (0, ub) else
  let again := (read_len =? 0) || (read_len <? n - 1) in
  if again && negb (Z.land (_flags f) _IO_EOF_SEEN =? 0) && (read_len =? 0) then mret (0, ub) else
  _ ← (if again then set_file stream (mk_FILE (Z.lor (_flags f) _IO_EOF_SEEN) (_fileno f)) else mret tt);
  mret (str, store (str + read_len) 1 0 ub).

Definition _fwrite (ub : mem) (ptr size nmemb stream : Z) : M (lib H) Z :=
  f ← get_file stream;
  if _fileno f <? 0 then mret (u64 (-1)) else
  r ← on_sys (slotfs_write sb cpu now stray junk (_fileno f) ub ptr (u64 (size * nmemb))); mret (u64 r).

Definition _fread (ub : mem) (buffer size count stream : Z) : M (lib H) (Z * mem) :=
  f ← get_file stream;
  if _fileno f <? 0 then mret (u64 (-1), ub) else
  original_file_ptr ← on_sys (slotfs_lseek (_fileno f) 0 SEEK_CUR);
  '(r, ub) ← on_sys (slotfs_read sb stray (_fileno f) ub buffer (u64 (size * count)));
  if r =? -1 then _ ← on_sys (slotfs_lseek (_fileno f) original_file_ptr SEEK_SET); mret (0, ub) else
  mret (u64 r, ub).

Definition _fclose (stream : Z) : M (lib H) Z :=
  f ← get_file stream;
  if _fileno f <? 0 then mret EOF else
  _ ← on_sys (slotfs_close sb (_fileno f));
  _ ← set_file stream (mk_FILE (_flags f) (-1));
  mret 0.

Definition _fseek (stream offset whence : Z) : M (lib H) Z :=
  f ← get_file stream;
  if _fileno f <? 0 then mret EOF else
  r ← on_sys (slotfs_lseek (_fileno f) offset whence); mret (if r =? -1 then 1 else 0).

Definition _fflush (stream : Z) : M (lib H) Z :=
  f ← get_file stream; if _fileno f <? 0 then mret EOF else mret 0.

(** ** lib.c *)

(** The path without its backslashes is also what the C library gets. *)
Definition FOPEN (fp : Z) (path mode : list Z) : M (lib H) Z :=
  _ ← check_ops dlsym;
  if local_path path then
    let path := skip_backslashes path in
    ret ← _fopen fp path mode;
    if (ret =? 0) && negb (first path =? BACKSLASH) then real real_FOPEN (fun op => op path mode) else mret ret
  else real real_FOPEN (fun op => op path mode).
Definition FPUTS (str : list Z) (stream : Z) : M (lib H) Z :=
  _ ← check_ops dlsym;
  b ← is_slot stream;
  if (b : bool) then _fputs str stream else real real_FPUTS (fun op => op str stream).
Definition FGETS (ub : mem) (str n stream : Z) : M (lib H) (Z * mem) :=
  _ ← check_ops dlsym;
  b ← (if stream =? 0 then mret false else is_slot stream);
  if (b : bool) then _fgets ub str n stream else real real_FGETS (fun op => op ub str n stream).
Definition FWRITE (ub : mem) (buf length nmemb fp : Z) : M (lib H) Z :=
  _ ← check_ops dlsym;
  b ← is_slot fp;
  if (b : bool) then _fwrite ub buf length nmemb fp else real real_FWRITE (fun op => op ub buf length nmemb fp).
Definition FREAD (ub : mem) (buf length nmemb fp : Z) : M (lib H) (Z * mem) :=
  _ ← check_ops dlsym;
  b ← (if fp =? 0 then mret false else is_slot fp);
  if (b : bool) then _fread ub buf length nmemb fp else real real_FREAD (fun op => op ub buf length nmemb fp).
Definition FCLOSE (fp : Z) : M (lib H) Z :=
  _ ← check_ops dlsym;
  b ← (if fp =? 0 then mret false else is_slot fp);
  if (b : bool) then _fclose fp else real real_FCLOSE (fun op => op fp).
Definition FSEEK (fp offset whence : Z) : M (lib H) Z :=
  _ ← check_ops dlsym;
  b ← (if fp =? 0 then mret false else is_slot fp);
  if (b : bool) then _fseek fp offset whence else real real_FSEEK (fun op => op fp offset whence).
Definition FFLUSH (fp : Z) : M (lib H) Z :=
  _ ← check_ops dlsym;
  b ← (if fp =? 0 then mret false else is_slot fp);
  if (b : bool) then _fflush fp else real real_FFLUSH (fun op => op fp).

(** ** The position of a descriptor *)

Definition opened_at (r : runtime) (fd p off : Z) : Prop :=
  0 <= fd /\ p <> 0 /\ exists fh, f_table r !! Z.to_nat fd = Some fh /\ fh_valid fh = true /\ fh_file fh = p /\ fh_offset fh = off.

Lemma opened_at_opened r fd p off : opened_at r fd p off -> opened r fd p.
Proof. intros (H1 & H2 & fh & H3 & H4 & H5 & _). split_and!; try done. by exists fh. Qed.

Lemma seek_moves y fd p off off' fh : opened_at (y_rt y) fd p off -> f_table (y_rt y) !! Z.to_nat fd = Some fh ->
  exists y', set_offset fd off' y = Ok (tt, y') /\ y_fs y' = y_fs y /\ opened_at (y_rt y') fd p off'.
Proof.
  intros (Hfd & Hp & g & Hg & Hv & Hf & _) Hfh. rewrite Hg in Hfh. injection Hfh as ->. eexists. split; [by apply set_offset_run|]. split; [done|].
  split_and!; [done|done|]. eexists. split; [apply list_lookup_insert_eq; by eapply lookup_lt_Some|done].
Qed.
Lemma seek_set y fd p off off' : opened_at (y_rt y) fd p off ->
  exists y', slotfs_lseek fd off' SEEK_SET y = Ok (0, y') /\ y_fs y' = y_fs y /\ opened_at (y_rt y') fd p off'.
Proof.
  intros Ho. pose proof Ho as (Hfd & _ & fh & Hfh & _). destruct (seek_moves y fd p off off' fh Ho Hfh) as (y' & Hs & Hy). exists y'. split; [|done].
  unfold slotfs_lseek. erewrite M_bind_step by (apply on_rt_run, get_fh_at; done). replace (upd_y_rt (fun _ => y_rt y) y) with y by (by destruct y).
  change (SEEK_SET =? SEEK_SET) with true. cbv iota. by erewrite M_bind_step by exact Hs.
Qed.
Lemma seek_cur y fd p off : opened_at (y_rt y) fd p off -> 0 <= off < 2 ^ 63 ->
  exists y', slotfs_lseek fd 0 SEEK_CUR y = Ok (0, y') /\ y_fs y' = y_fs y /\ opened_at (y_rt y') fd p off.
Proof.
  intros Ho Hr. pose proof Ho as (Hfd & _ & fh & Hfh & _ & _ & Eo). destruct (seek_moves y fd p off off fh Ho Hfh) as (y' & Hs & Hy). exists y'. split; [|done].
  unfold slotfs_lseek. erewrite M_bind_step by (apply on_rt_run, get_fh_at; done). replace (upd_y_rt (fun _ => y_rt y) y) with y by (by destruct y).
  change (SEEK_CUR =? SEEK_SET) with false. change (SEEK_CUR =? SEEK_CUR) with true. cbv iota. rewrite Eo, Z.add_0_r, i64_small by lia. by erewrite M_bind_step by exact Hs.
Qed.
Lemma write_at y fd p off ub buf len : opened_at (y_rt y) fd p off ->
  slotfs_write sb cpu now stray junk fd ub buf len y = slotfs_pwrite sb cpu now stray junk fd ub buf len off y.
Proof.
  intros (Hfd & _ & fh & Hfh & _ & _ & <-). unfold slotfs_write, slotfs_pwrite.
  erewrite !M_bind_step by (apply on_rt_run, get_fh_at; done). done.
Qed.
Lemma read_at y fd p off ub buf len : opened_at (y_rt y) fd p off ->
  slotfs_read sb stray fd ub buf len y = slotfs_pread sb stray fd ub buf len off y.
Proof.
  intros (Hfd & _ & fh & Hfh & _ & _ & <-). unfold slotfs_read, slotfs_pread.
  erewrite !M_bind_step by (apply on_rt_run, get_fh_at; done). done.
Qed.

(** ** Streams of SlotFS *)

Definition slot_stream (l : lib H) (fp fd : Z) : Prop :=
  fp <> 0 /\ 0 <= fd /\ exists f, l_files l !! fp = Some (mk_FILE f fd) /\ Z.land f _IO_MAGIC_MASK = _IO_MAGIC_SLOT.

Lemma slot_stream_on l fp fd y h : slot_stream l fp fd -> slot_stream (moved_on dlsym y h l) fp fd.
Proof. done. Qed.
Lemma is_slot_run l fp fd : slot_stream l fp fd -> is_slot fp l = Ok (true, l).
Proof.
  intros (Hfp & _ & f & Hf & Hm). unfold is_slot, get_flags. rewrite (proj2 (Z.eqb_neq fp 0)) by done. rewrite !bind_run. cbn [gets]. rewrite Hf.
  unfold mret, M_ret. cbn [_flags]. by rewrite Hm.
Qed.
Lemma get_file_run l fp fd : slot_stream l fp fd -> exists f, get_file fp l = Ok (mk_FILE f fd, l).
Proof. intros (_ & _ & f & Hf & _). exists f. unfold get_file. rewrite bind_run. cbn [gets]. by rewrite Hf. Qed.

Lemma fwrite_run l fp fd ub buf size nmemb r y' :
  slot_stream l fp fd -> slotfs_write sb cpu now stray junk fd ub buf (u64 (size * nmemb)) (l_sys l) = Ok (r, y') ->
  FWRITE ub buf size nmemb fp l = Ok (u64 r, moved_on dlsym y' (l_host l) l).
Proof.
  intros Hs Hw. unfold FWRITE, _fwrite. pose proof (slot_stream_on l fp fd (l_sys l) (l_host l) Hs) as Hs'. destruct (get_file_run _ _ _ Hs') as (f & Hf).
  rewrite !bind_run, check_ops_run, bind_run, (is_slot_run _ _ _ Hs'), bind_run, Hf. cbn [_fileno].
  destruct (Z.ltb_spec fd 0); [destruct Hs as (_ & ? & _); lia|]. rewrite bind_run, on_sys_run. cbn [moved_on l_sys]. by rewrite Hw.
Qed.
Lemma fseek_run l fp fd off y' :
  slot_stream l fp fd -> slotfs_lseek fd off SEEK_SET (l_sys l) = Ok (0, y') -> FSEEK fp off SEEK_SET l = Ok (0, moved_on dlsym y' (l_host l) l).
Proof.
  intros Hs Hw. unfold FSEEK, _fseek. pose proof (slot_stream_on l fp fd (l_sys l) (l_host l) Hs) as Hs'. destruct (get_file_run _ _ _ Hs') as (f & Hf).
  pose proof Hs as (Hfp & Hfd & _). rewrite !bind_run, check_ops_run, bind_run, (proj2 (Z.eqb_neq fp 0)), (is_slot_run _ _ _ Hs'), bind_run, Hf by done. cbn [_fileno].
  destruct (Z.ltb_spec fd 0); [lia|]. rewrite bind_run, on_sys_run. cbn [moved_on l_sys]. by rewrite Hw.
Qed.
Lemma fread_run l fp fd ub buf size nmemb y1 r ub' y' :
  slot_stream l fp fd -> slotfs_lseek fd 0 SEEK_CUR (l_sys l) = Ok (0, y1) ->
  slotfs_read sb stray fd ub buf (u64 (size * nmemb)) y1 = Ok ((r, ub'), y') -> r <> -1 ->
  FREAD ub buf size nmemb fp l = Ok ((u64 r, ub'), moved_on dlsym y' (l_host l) l).
Proof.
  intros Hs Hk Hw Hr. unfold FREAD, _fread. pose proof (slot_stream_on l fp fd (l_sys l) (l_host l) Hs) as Hs'. destruct (get_file_run _ _ _ Hs') as (f & Hf).
  pose proof Hs as (Hfp & Hfd & _). rewrite !bind_run, check_ops_run, bind_run, (proj2 (Z.eqb_neq fp 0)), (is_slot_run _ _ _ Hs'), bind_run, Hf by done. cbn [_fileno].
  destruct (Z.ltb_spec fd 0); [lia|]. rewrite bind_run, on_sys_run. cbn [moved_on l_sys]. rewrite Hk, bind_run, on_sys_run. cbn [l_sys]. rewrite Hw.
  by rewrite (proj2 (Z.eqb_neq r (-1))).
Qed.

(** C13: A stream reads back what was written to it: [fwrite] to a stream of
    SlotFS, [fseek] to where it began, and [fread] of the same size return the
    size, 0 and the size, and the bytes read are those written; the C library is
    not called.  As for [pwrite_pread], the bytes are within one page below the
    capacity of the index of the file, there are a free data slot and the other
    objects that a write takes, and a write of less than 1024 bytes into a page
    that has data ends inside the size of the file. *)
Theorem fwrite_fread l fp fd P p i off ub buf size nmemb ub2 buf2 :
  layout_ok sb -> slot_stream l fp fd -> opened_at (y_rt (l_sys l)) fd p off ->
  files_inv sb (y_fs (l_sys l)) P -> p ∈ P -> inodes (y_fs (l_sys l)) !! p = Some i -> write_ready sb (y_fs (l_sys l)) i cpu 1 ->
  (exists k, 0 <= k < slot_num (sb_data sb) /\ sa_used (map_data (y_fs (l_sys l))) k = false) ->
  0 <= off -> 0 < size * nmemb -> off + size * nmemb <= 2 ^ 43 - PAGE_SIZE -> blocks_of off (size * nmemb) = 1 ->
  off / PAGE_SIZE < capacity (b_height i) -> (small_overwrite i off (size * nmemb) -> off + size * nmemb <= i_size i) ->
  exists l1 l2 l3 ub', FWRITE ub buf size nmemb fp l = Ok (size * nmemb, l1) /\ FSEEK fp off SEEK_SET l1 = Ok (0, l2) /\
    FREAD ub2 buf2 size nmemb fp l2 = Ok ((size * nmemb, ub'), l3) /\ l_host l3 = l_host l /\
    (forall d, 0 <= d < size * nmemb -> ub' (buf2 + d) = ub (buf + d)).
Proof.
  clear peek poke. intros Hlo Hs Ho Hinv Hp Hi Hrdy Hfree Hoff Hl Hmax Hn Hcap Hsm. set (len := size * nmemb) in *.
  destruct (write_read_spec sb Hlo cpu now stray junk P p ub buf len off (y_fs (l_sys l)) i ub2 buf2) as (s' & ub' & Hw & Hr & Hb); try done.
  assert (0 < len < 2 ^ 31) as Hlen by (unfold blocks_of, PAGE_SIZE in Hn; zdm). assert (u64 len = len) as Hu by (apply u64_small; lia).
  destruct (pwrite_run sb cpu now stray junk (l_sys l) fd p ub buf len off s' (opened_at_opened _ _ _ _ Ho)) as (y1 & H1 & E1 & Hop); [done|done|].
  rewrite <- (write_at _ _ p off) in H1 by done. assert (exists off1, opened_at (y_rt y1) fd p off1) as (off1 & Ho1).
  { destruct (Hop _ _ (opened_at_opened _ _ _ _ Ho)) as (Hfd & Hp0 & g & Hg & Hgv & Hgf). exists (fh_offset g). split_and!; [done|done|]. by exists g. }
  destruct (seek_set y1 fd p off1 off Ho1) as (y2 & H2 & E2 & Ho2). assert (0 <= off < 2 ^ 63) as Hoff' by (unfold PAGE_SIZE in Hmax; lia).
  destruct (seek_cur y2 fd p off Ho2 Hoff') as (y3 & H3 & E3 & Ho3).
  destruct (pread_run sb stray y3 fd p ub2 buf2 len off s' ub' (opened_at_opened _ _ _ _ Ho3)) as (y4 & H4 & _); [done|by rewrite E3, E2, E1|].
  rewrite <- (read_at _ _ p off) in H4 by done. exists (moved_on dlsym y1 (l_host l) l), (moved_on dlsym y2 (l_host l) (moved_on dlsym y1 (l_host l) l)).
  exists (moved_on dlsym y4 (l_host l) (moved_on dlsym y2 (l_host l) (moved_on dlsym y1 (l_host l) l))), ub'. split_and!; [|exact (fseek_run (moved_on dlsym y1 (l_host l) l) fp fd off y2 Hs H2)| |reflexivity|exact Hb].
  - pose proof (fwrite_run l fp fd ub buf size nmemb len y1 Hs) as Hf. fold len in Hf. rewrite Hu in Hf. by apply Hf.
  - pose proof (fread_run (moved_on dlsym y2 (l_host l) (moved_on dlsym y1 (l_host l) l)) fp fd ub2 buf2 size nmemb y3 len ub' y4 Hs) as Hf. fold len in Hf. rewrite Hu in Hf.
    apply Hf; [exact H3|exact H4|lia].
Qed.
End stream.
