(* ===== verification/TraceExample.v ===== *)
(** * A session on a small device

    An empty file system on the small device of Mkfs.v.  A process creates a
    file, writes to it, makes a directory, renames the file, closes the
    directory, reads over the end of the file and reads the file back; the theorems of Trace.v are applied to
    the run. *)
From stdpp Require Import base numbers list gmap.
From S2P Require Import Prelude Bitops Slot Btree Rbtree RbErase DirIndex Pm Mkfs Heap Fs Journal Dir DirView File FileIndex FileLog FileRead FileWrite FileExample.
From S2P Require Import Runtime Vfs VfsLocks VfsWalk FsInv Create Func FuncFile FuncRename Recover Mount FuncCreate Session Trace.
Local Open Scope Z_scope.

(** ** An empty file system *)

Definition small_fs : fs :=
  mk_fs (mk_pmem example_mem [])
    [example_map [1; 0; 0; 0; 0; 0; 0; 0] 64 1] [example_map empty_dir_bits 64 2]
    [example_map [1; 0; 0; 0; 0; 0; 0; 0] 64 1] [example_map free_data 64 1]
    {[4096 := example_root]} ∅ ∅ [8192; 12288] [65536; 65664; 65792; 65920; 66048] (seqZ 3 40) {[0 := 4096]} ∅
    (replicate 128 (mk_ebuf (replicate 512 (mk_unit 0 0 0)) 0 512 0 false))
    journal_mgr_init [] 0 4096.
Definition small : sys := mk_sys small_fs (mk_heap 0 0 [] (fun _ => 0)) (empty_rt 4096).

Lemma small_root p i : p ∈ [4096] -> inodes small_fs !! p = Some i -> p = 4096 /\ i = example_root.
Proof. intros ->%list_elem_of_singleton Hi. change (({[4096 := example_root]} : gmap Z dram_inode) !! 4096 = Some i) in Hi. rewrite lookup_singleton_eq in Hi. by injection Hi as <-. Qed.
Lemma small_at : inodes small_fs !! 4096 = Some example_root.
Proof. apply lookup_singleton_eq. Qed.
Lemma small_arena : NoDup (entry_arena small_fs) /\ forall d, d ∈ entry_arena small_fs -> aligned d /\ 0 < d < 2 ^ 62.
Proof.
  split.
  - repeat (apply NoDup_cons; split; [rewrite ?elem_of_cons, elem_of_nil; lia|]). apply NoDup_nil_2.
  - intros d. cbn. rewrite !elem_of_cons, elem_of_nil. intros [->|[->|[->|[->|[->|[]]]]]]; split; try done; lia.
Qed.

Lemma small_dir_ok : dir_ok example_sb small_fs example_root.
Proof.
  constructor.
  - simpl. lia.
  - exists []. split; [apply index_rep_empty|done].
  - by intros d ?%elem_of_nil.
  - apply NoDup_singleton.
  - intros k Hk%list_elem_of_singleton. subst k. split; [simpl; lia|done].
  - done.
  - split; [|by apply (example_next 1)]. unfold pm_head, bytes, dev. simpl. apply load_store_i64. lia.
Qed.
Lemma small_dirs : dirs_inv example_sb small_fs [4096].
Proof.
  constructor.
  - constructor.
    + change (maps_wf 1 [example_map empty_dir_bits 64 2]). example_wf.
    + intros k. apply (single_map_valid (example_map empty_dir_bits 64 2)). done.
    + done.
    + intros k Hk _. by apply example_next.
    + apply small_arena.
    + intros d Hd. by apply small_arena.
    + apply store_ok. intros x. lia.
  - intros p ->%list_elem_of_singleton. exists example_root. split; [apply small_at|apply small_dir_ok].
  - intros p q i j ->%list_elem_of_singleton ->%list_elem_of_singleton. congruence.
Qed.
Lemma small_files : files_inv example_sb small_fs [].
Proof.
  constructor; [|by intros p ?%elem_of_nil|by intros p q i j ?%elem_of_nil]. constructor.
  - split; [exact free_data_wf|]. intros k. by apply (single_map_valid (example_map free_data 64 1)).
  - change (maps_wf 1 [example_map [1; 0; 0; 0; 0; 0; 0; 0] 64 1]). example_wf.
  - intros k. by apply (single_map_valid (example_map [1; 0; 0; 0; 0; 0; 0; 0] 64 1)).
  - done.
  - apply small_arena.
  - intros d Hd. by apply small_arena.
Qed.
Lemma small_table k p : inode_table small_fs !! k = Some p -> k = 0 /\ p = 4096.
Proof. intros Hk. change (({[0 := 4096]} : gmap Z Z) !! k = Some p) in Hk. by apply lookup_singleton_Some in Hk as [<- <-]. Qed.
Lemma small_cache : cache_ok small_fs.
Proof.
  constructor.
  - intros k p [-> ->]%small_table. split; [|by exists example_root; split; [apply small_at|]].
    split; [lia|]. cbn. rewrite !elem_of_cons, elem_of_nil. lia.
  - repeat (apply NoDup_cons; split; [rewrite ?elem_of_cons, elem_of_nil; lia|]). apply NoDup_nil_2.
  - intros p. cbn. rewrite !elem_of_cons, elem_of_nil. lia.
Qed.
Lemma small_entry h : entry_ino small_fs 4096 h = None.
Proof. apply (entry_ino_miss example_sb small_fs 4096 example_root); [apply small_at|apply small_dir_ok|by intros d ?%elem_of_nil]. Qed.

Lemma small_inv : fs_inv example_sb small_fs [4096] [].
Proof.
  constructor.
  - apply small_dirs.
  - apply small_files.
  - apply small_cache.
  - split; [change (maps_wf 1 [example_map [1; 0; 0; 0; 0; 0; 0; 0] 64 1]); example_wf|].
    intros k. by apply (single_map_valid (example_map [1; 0; 0; 0; 0; 0; 0; 0] 64 1)).
  - split; [apply (NoDup_seqZ 3 40)|]. intros H0. change (0 ∈ seqZ 3 40) in H0. apply elem_of_seqZ in H0. lia.
  - intros p i Hi. split; [|by intros ?%elem_of_nil]. intros Hp. by destruct (small_root p i Hp Hi) as [_ ->].
  - intros p i Hp Hi. rewrite app_nil_r in Hp. destruct (small_root p i Hp Hi) as [-> ->]. split; [|done].
    cbn. rewrite !elem_of_cons, elem_of_nil. lia.
  - by intros p q i j _ ?%elem_of_nil.
  - intros p i d Hp Hi. destruct (small_root p i Hp Hi) as [_ ->]. by intros ?%elem_of_nil.
  - intros k p [-> _]%small_table. split; [simpl; lia|done].
  - intros p h k ->%list_elem_of_singleton. by rewrite small_entry.
Qed.

Lemma small_descriptors : f_table (y_rt small) = empty_table.
Proof. reflexivity. Qed.
Lemma small_session : session example_sb small [4096] [] a_empty.
Proof.
  split; [|split; [|reflexivity]].
  - constructor.
    + apply small_inv.
    + split; [done|by left].
    + split; [done|]. by apply Forall_replicate.
    + split; [by left|]. exists example_root. split; [apply small_at|done].
    + rewrite app_nil_r. intros p i Hp Hi. by destruct (small_root p i Hp Hi) as [-> ->].
    + by intros p i ?%elem_of_nil.
    + intros p i h k ->%list_elem_of_singleton _. by rewrite small_entry.
    + intros p i Hp Hi. destruct (small_root p i Hp Hi) as [-> ->]. split; [done|]. intros h. by rewrite small_entry.
    + by intros p i ?%elem_of_nil.
    + intros k b. cbn. destruct (Z.eqb_spec k 0) as [->|]; [|done]. intros _. exists 4096, example_root. split; [by left|]. split; [apply small_at|done].
    + rewrite app_nil_r. intros p i Hp Hi. by destruct (small_root p i Hp Hi) as [-> ->].
    + by intros p i ?%elem_of_nil.
  - constructor; [apply empty_rt_ok|done|done|]. intros fd fh _ _ Hfh. left.
    rewrite small_descriptors in Hfh. exact (proj1 (Forall_lookup _ _) (proj2 (empty_table_ok 0 0 0)) _ _ Hfh).
Qed.

(** ** The calls *)

Definition w0 : around := mk_around 0 0 0 (fun _ => 0) (mk_nd [] 4096 0 0 0 0 [] 0) (mk_nd [] 4096 0 0 0 0 [] 0) 0.
Definition after (c : call) (y : sys) : sys := match do_call example_sb w0 c y with Ok (_, y') => y' | Fault _ => y end.
Definition answer (c : call) (y : sys) : reply := match do_call example_sb w0 c y with Ok (r, _) => r | Fault _ => Err 0 end.
Definition returns_int (c : call) (y : sys) : option Z := match do_call example_sb w0 c y with Ok (Int r, _) => Some r | _ => None end.
Definition returns_buf (c : call) (y : sys) : option Z := match do_call example_sb w0 c y with Ok (Buf r _, _) => Some r | _ => None end.
Definition memory_of (r : reply) : mem := match r with Buf _ ub => ub | _ => fun _ => 0 end.

Lemma run_int c y r : returns_int c y = Some r -> do_call example_sb w0 c y = Ok (Int r, after c y).
Proof. unfold returns_int, after. destruct (do_call example_sb w0 c y) as [[[r'|e|r' ub] y']|]; try discriminate. by intros [= ->]. Qed.
Lemma run_buf c y r : returns_buf c y = Some r -> do_call example_sb w0 c y = Ok (Buf r (memory_of (answer c y)), after c y).
Proof. unfold returns_buf, answer, after. destruct (do_call example_sb w0 c y) as [[[r'|e|r' ub] y']|]; try discriminate. by intros [= ->]. Qed.

Definition create_a : call := Open [47; 97] O_CREAT 33188.
Definition mkdir_d : call := Open [47; 100] O_CREAT 16877.
Definition write_a : call := Pwrite 0 example_ub 0 3000 0.
Definition rename_a_b : call := Rename [47; 97] [47; 98].
Definition close_d : call := Close 1.
Definition read_end : call := Pread 0 (fun _ => 255) 0 5000 1000.
Definition read_b : call := Pread 0 (fun _ => 255) 0 3000 0.

Local Abbreviation y1 := (after create_a small).
Local Abbreviation y2 := (after write_a y1).
Local Abbreviation y3 := (after mkdir_d y2).
Local Abbreviation y4 := (after rename_a_b y3).
Local Abbreviation y5 := (after close_d y4).
Local Abbreviation y6 := (after read_end y5).
Local Abbreviation y7 := (after read_b y6).

(** ** The calls find what they need *)

Definition is_single (l : list dram_bitmap) : bool := match l with [b] => bit_num b =? 64 | _ => false end.
Lemma slot_free l k : is_single l = true -> (0 <=? k) && (k <? 64) = true -> sa_used l k = false -> exists k, sa_valid l k /\ sa_used l k = false.
Proof.
  intros Hl Hk Hf. exists k. split; [|done]. apply andb_true_iff in Hk as [?%Z.leb_le ?%Z.ltb_lt]. destruct l as [|b [|? ?]]; try discriminate. apply Z.eqb_eq in Hl.
  apply (single_map_valid b); [done|lia].
Qed.
Lemma fd_free r k g : (0 <=? k) && (k <? FD_MAX) = true -> f_table r !! Z.to_nat k = Some g -> fh_valid g = false -> fd_left r.
Proof. intros Hk Hg Hv. apply andb_true_iff in Hk as [?%Z.leb_le ?%Z.ltb_lt]. by exists k, g. Qed.
Lemma name_one c : (0 <=? c) && (c <? 256) = true -> Forall name_ok [[c]].
Proof. intros Hk. apply andb_true_iff in Hk as [?%Z.leb_le ?%Z.ltb_lt]. constructor; [|constructor]. split; [done|]. by constructor. Qed.
Ltac evaluate := vm_compute; reflexivity.

Lemma ready_1 : ready example_sb w0 small create_a.
Proof.
  split; [done|]. split; [eapply (fd_free _ 0); [evaluate|evaluate|reflexivity]|]. intros _. split; [done|]. split; [done|]. split; [by apply name_one|].
  constructor; [done|eapply (slot_free _ 1); evaluate|done|].
  change (mode_dir 33188) with false. cbv iota. split; [eapply (slot_free _ 2); evaluate|]. split; [eapply (slot_free _ 1); evaluate|done].
Qed.
Lemma ready_3 : ready example_sb w0 y2 mkdir_d.
Proof.
  split; [done|]. split; [eapply (fd_free _ 1); [evaluate|evaluate|reflexivity]|]. intros _. split; [done|]. split; [done|]. split; [by apply name_one|].
  constructor; [vm_compute; discriminate|eapply (slot_free _ 5); evaluate|vm_compute; discriminate|].
  change (mode_dir 16877) with true. cbv iota. exists 10, 11. split_and!; [lia| | |evaluate|evaluate].
  all: assert (is_single (map_dir (y_fs y2)) = true) as Hl by evaluate; destruct (map_dir (y_fs y2)) as [|b [|? ?]]; try discriminate;
    apply Z.eqb_eq in Hl; apply (single_map_valid b); [done|lia].
Qed.

(** The file behind a descriptor. *)
Definition file_of (y : sys) (fd : Z) : option (bool * dram_inode) :=
  match f_table (y_rt y) !! Z.to_nat fd with
  | Some fh => match inodes (y_fs y) !! fh_file fh with Some i => Some (fh_valid fh, i) | None => None end
  | None => None
  end.
Lemma file_of_fd y fd fh i : f_table (y_rt y) !! Z.to_nat fd = Some fh -> inodes (y_fs y) !! fh_file fh = Some i -> file_of y fd = Some (fh_valid fh, i).
Proof. intros Hfh Hi. unfold file_of. by rewrite Hfh, Hi. Qed.

Lemma ready_2 : ready example_sb w0 y1 write_a.
Proof.
  split; [done|]. split; [done|]. split; [intros x; apply Z.mod_pos_bound; lia|]. split; [intros x; cbn; lia|]. split; [lia|]. split; [lia|].
  split; [done|]. split; [done|]. intros fh i Hfh _ Hi. pose proof (file_of_fd y1 0 fh i Hfh Hi) as Hf.
  vm_compute in Hf. injection Hf as _ <-. split; [done|]. split; [by left|]. split; [intros (_ & _ & H & _); lia|].
  split; [vm_compute; discriminate|]. split; [exists 5; split; [split; done|evaluate]|].
  split; [exists 1; split; [split; done|evaluate]|]. vm_compute; repeat constructor.
Qed.

Lemma single_last {A} (x : A) l z : [x] = l ++ [z] -> l = [] /\ z = x.
Proof. destruct l as [|y l]; [by intros [= ->]|]. intros [= _ H]. by destruct l. Qed.

Lemma resolves_here s D p q : resolves s D p [] (inl q) -> q = p.
Proof. intros H. by inversion H. Qed.

Lemma ready_4 : ready example_sb w0 y3 rename_a_b.
Proof.
  split; [done|]. split; [done|]. split; [done|]. split; [by apply name_one|]. split; [by apply name_one|]. split; [vm_compute; discriminate|].
  split; [eapply (slot_free _ 20); evaluate|]. intros D names1 l1 q1 names2 l2 q2 i2 k H1 H2 R1 R2 Hi Hk.
  apply single_last in H1 as [-> ->]. apply single_last in H2 as [-> ->]. apply resolves_here in R1 as ->. apply resolves_here in R2 as ->.
  vm_compute in Hi, Hk. injection Hi as <-. by injection Hk as <-.
Qed.
Lemma ready_5 : ready example_sb w0 y4 close_d.
Proof. split; done. Qed.
Lemma ready_6 : ready example_sb w0 y5 read_end.
Proof.
  split; [done|]. split; [done|]. split; [lia|]. split; [lia|]. intros fh i Hfh _ Hi. pose proof (file_of_fd y5 0 fh i Hfh Hi) as Hf. vm_compute in Hf.
  clear Hfh Hi. injection Hf as _ <-. split; [reflexivity|vm_compute; discriminate].
Qed.
Lemma ready_7 : ready example_sb w0 y6 read_b.
Proof.
  split; [done|]. split; [done|]. split; [lia|]. split; [lia|]. intros fh i Hfh _ Hi. pose proof (file_of_fd y6 0 fh i Hfh Hi) as Hf. vm_compute in Hf.
  clear Hfh Hi. injection Hf as _ <-. split; [reflexivity|vm_compute; discriminate].
Qed.

(** ** The run *)

Definition read_tail : mem := memory_of (answer read_end y5).
Definition read_back : mem := memory_of (answer read_b y6).

Lemma session_run :
  exec example_sb small ([(create_a, Int 0)] ++ (write_a, Int 3000) :: [(mkdir_d, Int 1); (rename_a_b, Int 0); (close_d, Int 0); (read_end, Buf 2000 read_tail)] ++
    [(read_b, Buf 3000 read_back)]) y7.
Proof.
  apply (ex_call _ w0 small create_a (Int 0) y1); [exact ready_1|apply run_int; evaluate|].
  apply (ex_call _ w0 y1 write_a (Int 3000) y2); [exact ready_2|apply run_int; evaluate|].
  apply (ex_call _ w0 y2 mkdir_d (Int 1) y3); [exact ready_3|apply run_int; evaluate|].
  apply (ex_call _ w0 y3 rename_a_b (Int 0) y4); [exact ready_4|apply run_int; evaluate|].
  apply (ex_call _ w0 y4 close_d (Int 0) y5); [exact ready_5|apply run_int; evaluate|].
  apply (ex_call _ w0 y5 read_end (Buf 2000 read_tail) y6); [exact ready_6|apply run_buf; evaluate|].
  apply (ex_call _ w0 y6 read_b (Buf 3000 read_back) y7); [exact ready_7|apply run_buf; evaluate|]. apply ex_nil.
Qed.

Lemma calls_read_back_witness : 3000 = 3000 /\ forall d, 0 <= d < 3000 -> read_back (0 + d) = example_ub (0 + d).
Proof.
  refine (calls_read_back example_sb small [4096] [] a_empty [(create_a, Int 0)] [(mkdir_d, Int 1); (rename_a_b, Int 0); (close_d, Int 0); (read_end, Buf 2000 read_tail)]
    0 example_ub 0 3000 0 (fun _ => 255) 0 3000 read_back y7 example_layout small_session session_run _).
  repeat (constructor; [reflexivity|]). constructor.
Defined.

(** ** A file created on a new file system *)

Lemma fd_mounted r : rt_ok r -> Forall (fun fh => fh_valid fh = false) (f_table r) -> fd_left r.
Proof.
  intros Hr Hv. assert (0 <= 0 < FD_MAX) as H0 by (unfold FD_MAX; lia). destruct (get_fh_eq 0 r Hr H0) as (fh & Hfh & _).
  exists 0, fh. split; [exact H0|]. split; [exact Hfh|]. exact (proj1 (Forall_lookup _ _) Hv _ _ Hfh).
Qed.

Section mounted.
Context (pages_junk now : Z) (y : sys).
Local Abbreviation sb := (mkfs_sb pages_junk now DAX_SIZE).
Hypothesis F : fresh_fs sb (y_fs y).

Lemma mounted_free (l : list dram_bitmap) n k :
  (forall k, sa_valid l k <-> 0 <= k < n) -> 0 <= k < n -> sa_used l k = false -> exists k, sa_valid l k /\ sa_used l k = false.
Proof. intros Hv Hk Hf. exists k. split; [by apply Hv|done]. Qed.
Lemma mounted_ready : create_ready (y_fs y) 33188.
Proof.
  destruct (sb_nums pages_junk now) as (N1 & N2 & N3 & _), (ff_objects _ _ F) as (O1 & O2 & O3), (ff_inv _ _ F) as [I1 I2 _ [_ I4] _ _ _ _ _ _ _].
  pose proof (ff_inodes _ _ F 1) as U1. pose proof (ff_dirents _ _ F 2) as U2. pose proof (ff_filents _ _ F 1) as U3. rewrite N1 in *. rewrite N2 in *. rewrite N3 in *.
  constructor; [intros E; by rewrite E in O1|by apply (mounted_free _ _ 1 I4); [|apply U1]|intros E; by rewrite E in O2|].
  change (mode_dir 33188) with false. cbv iota. pose proof (so_valid _ _ (dv_shared _ _ _ I1)) as V2. pose proof (fs_valid _ _ (fv_shared _ _ _ I2)) as V3.
  rewrite N2 in V2. rewrite N3 in V3. split; [by apply (mounted_free _ _ 2 V2); [|apply U2]|]. split; [by apply (mounted_free _ _ 1 V3); [|apply U3]|].
  intros E. by rewrite E in O3.
Qed.
Lemma mounted_create_ready : rt_ok (y_rt y) -> Forall (fun fh => fh_valid fh = false) (f_table (y_rt y)) -> ready sb w0 y create_a.
Proof.
  intros Hr Hv. split; [done|]. split; [exact (fd_mounted _ Hr Hv)|]. intros _.
  split; [done|]. split; [done|]. split; [by apply name_one|exact mounted_ready].
Qed.
End mounted.

Local Abbreviation start n := (slotfs_init new_env 0 0 7 0 (fun _ => 0) (mk_rci 0 0 0 false 0 0 0 0 0 ∅ (mk_ptr 0 0 0) []) 0 [] [] 0 n).
Lemma word_0 : 0 <= 0 < 2 ^ 64.
Proof. lia. Qed.
Lemma word_7 : 0 <= 7 < 2 ^ 64.
Proof. lia. Qed.

Lemma mounted_create : exists n r y, start blank = Ok (0, n) /\ ready (mkfs_sb 0 7 DAX_SIZE) w0 (n_sys n) create_a /\
  exec (mkfs_sb 0 7 DAX_SIZE) (n_sys n) [(create_a, r)] y.
Proof.
  destruct (slotfs_init_run new_env 0 0 7 0 (fun _ => 0) (mk_rci 0 0 0 false 0 0 0 0 0 ∅ (mk_ptr 0 0 0) []) 0 [] [] 0 blank
    new_env_first blank_mem blank_shm word_0 word_7) as (n & H1 & _ & _ & _ & Hf & _ & Hr & Hc & Hv).
  pose proof (mounted_create_ready 0 7 (n_sys n) Hf Hr Hv) as Hrd.
  destruct (run_step _ w0 (n_sys n) _ _ _ create_a (sb_ok 0 7) (fresh_session _ _ Hf Hr Hc Hv) Hrd) as (r & y & _ & _ & _ & Hrun & _).
  exists n, r, y. split; [exact H1|]. split; [exact Hrd|]. eapply ex_call; [exact Hrd|exact Hrun|apply ex_nil].
Qed.

Lemma calls_are_safe_witness : exists n r y, start blank = Ok (0, n) /\
  exec (mkfs_sb 0 7 DAX_SIZE) (n_sys n) [(create_a, r)] y /\ exists D P, fs_inv (mkfs_sb 0 7 DAX_SIZE) (y_fs y) D P /\ root (y_fs y) ∈ D.
Proof.
  destruct mounted_create as (n & r & y & Hs & _ & Hx). exists n, r, y. split; [exact Hs|]. split; [exact Hx|].
  exact (proj1 (calls_are_safe new_env 0 0 7 0 (fun _ => 0) (mk_rci 0 0 0 false 0 0 0 0 0 ∅ (mk_ptr 0 0 0) []) 0 [] [] 0 blank n
    new_env_first blank_mem blank_shm word_0 word_7 Hs _ _ Hx)).
Defined.


