(* ===== verification/FuncExample.v ===== *)
(** * A small system

    A directory with one file, on which the theorems about path lookup, system
    calls and directory streams are applied. *)
From stdpp Require Import base numbers list gmap sorting.
From S2P Require Import Prelude Bitops Slot Btree Rbtree RbErase DirIndex DirIter Pm Mkfs Heap Fs Journal Dir.
From S2P Require Import File FileIndex FileLog FileRead FileWrite FileExample Runtime Vfs VfsLocks VfsWalk Func FuncDir FuncFile FuncRename.
Local Open Scope Z_scope.

Definition example_heap : heap_t := default (mk_heap 0 0 [] (fun _ => 0))
  (match heap_init 1048576 65536 (fun _ => 0) with Ok h => Some h | Fault _ => None end).

(** The directory [/] with the file [ab], whose inode is cached. *)
Definition example_dir : fs :=
  match dir_append_entry example_sb 0 4096 8192 [97; 98] (example_fs empty_dir_bits) with
  | Ok (_, s) => upd_jnl_mgr (fun _ => journal_mgr_init) (upd_inode_table (fun _ => {[0 := 4096; 5 := 8192]}) s)
  | Fault _ => example_fs empty_dir_bits
  end.
Definition example_sys : sys := mk_sys example_dir example_heap (empty_rt 4096).

Lemma example_dir_inv : dirs_inv example_sb example_dir [4096].
Proof.
  destruct (dir_append_spec example_sb 0 example_layout ltac:(lia) (example_fs empty_dir_bits) [4096] 4096 8192
    example_root example_file [97; 98] 65536 [65664; 65792]) as (s' & H1 & H2 & _);
    [apply example_inv|by left|done|done|done|apply example_name|simpl; lia|apply example_fresh|apply example_free|].
  unfold example_dir. rewrite H1. destruct H2 as [[] He Ha]. constructor; [by constructor| |done].
  intros p Hp. destruct (He p Hp) as (i & Hi & []). exists i. split; [done|by constructor].
Qed.

Definition example_dir_inode : dram_inode := default example_root (inodes example_dir !! 4096).
Definition example_file_inode : dram_inode := default example_root (inodes example_dir !! 8192).
Lemma example_dir_at : inodes example_dir !! 4096 = Some example_dir_inode.
Proof.
  unfold example_dir_inode. assert (bool_decide (is_Some (inodes example_dir !! 4096)) = true) as H by (by vm_compute).
  apply bool_decide_eq_true in H as [i ->]. done.
Qed.
Lemma example_file_at : inodes example_dir !! 8192 = Some example_file_inode.
Proof.
  unfold example_file_inode. assert (bool_decide (is_Some (inodes example_dir !! 8192)) = true) as H by (by vm_compute).
  apply bool_decide_eq_true in H as [i ->]. done.
Qed.
Lemma example_dir_facts :
  i_ino example_dir_inode = 0 /\ is_dir example_dir_inode = true /\ i_list example_dir_inode = [65536] /\
  i_ino example_file_inode = 5 /\ is_dir example_file_inode = false /\ is_symlink example_file_inode = false.
Proof. vm_compute. done. Qed.
Lemma example_entry : dirents example_dir !! 65536 = Some (mk_dirent 1 0 5 (BKDRHash [97; 98])).
Proof. vm_compute. done. Qed.
Lemma example_table : inode_table example_dir = {[0 := 4096; 5 := 8192]} /\ ilocks example_dir = ∅ /\ inode_arena example_dir = [] /\ root example_dir = 4096.
Proof. vm_compute. done. Qed.

Lemma example_free_parts : entry_arena example_dir = [65664; 65792] /\ jnl_mgr example_dir = journal_mgr_init /\
  map_dir example_dir = [example_map [7; 0; 0; 0; 0; 0; 0; 0] 64 3].
Proof. vm_compute. done. Qed.

Opaque example_dir example_dir_inode example_file_inode example_heap.

Lemma example_live_dir : live example_dir 4096 0.
Proof.
  destruct example_table as (_ & _ & E & _), example_dir_facts as (E0 & _). split; [split; [lia|rewrite E; by intros ?%elem_of_nil]|].
  exists example_dir_inode. split; [apply example_dir_at|done].
Qed.
Lemma example_live_file : live example_dir 8192 5.
Proof.
  destruct example_table as (_ & _ & E & _), example_dir_facts as (_ & _ & _ & E0 & _).
  split; [split; [lia|rewrite E; by intros ?%elem_of_nil]|]. exists example_file_inode. split; [apply example_file_at|done].
Qed.
Lemma example_cache : cache_ok example_dir.
Proof.
  destruct example_table as (E & _ & Ea & _). constructor.
  - intros k p. rewrite E. intros [[<- <-]|[_ [<- <-]%lookup_singleton_Some]]%lookup_insert_Some;
      [apply example_live_dir|apply example_live_file].
  - rewrite Ea. constructor.
  - intros p. rewrite Ea. by intros ?%elem_of_nil.
Qed.
Lemma example_rooted : rooted example_dir.
Proof. exists 0. destruct example_table as (_ & _ & _ & ->). apply example_live_dir. Qed.

(** [/ab] is the file; [/ab/x] and [/c] are errors. *)
Lemma example_child : child example_dir [4096] 4096 [97; 98] 8192.
Proof.
  destruct example_dir_facts as (E0 & Ed & El & _), example_table as (Et & _).
  exists 65536, (mk_dirent 1 0 5 (BKDRHash [97; 98])), example_dir_inode. split; [|split; [apply example_entry|split; [|split; [|split]]]].
  - split; [by left|]. exists example_dir_inode. split; [apply example_dir_at|]. split; [exact Ed|]. split; [rewrite El; by left|].
    unfold hash_of. by rewrite example_entry.
  - rewrite Et. apply lookup_insert_Some. right. split; [done|]. apply lookup_singleton_eq.
  - simpl. lia.
  - apply example_dir_at.
  - rewrite E0. simpl. lia.
Qed.
Lemma example_resolves : resolves example_dir [4096] 4096 (components [47; 47; 97; 98; 47]) (inl 8192).
Proof.
  change (components [47; 47; 97; 98; 47]) with [[97; 98]]. destruct example_dir_facts as (_ & _ & _ & _ & _ & Es).
  eapply res_step; [apply example_child|apply example_file_at|done|done|constructor].
Qed.
Lemma example_resolves_err : resolves example_dir [4096] 4096 (components [47; 97; 98; 47; 120]) (inr (- ENOTDIR)).
Proof.
  change (components [47; 97; 98; 47; 120]) with [[97; 98]; [120]]. destruct example_dir_facts as (_ & _ & _ & _ & Ed & Es).
  eapply res_not_dir; [apply example_child|apply example_file_at|done|done].
Qed.

(** ** The theorems at work *)

Definition example_nd (path : list Z) (flags : Z) : nameidata := mk_nd path 4096 0 0 0 flags [] 0.

Lemma path_lookup_terminates_witness :
  nested example_sb 0 0 (fun _ => 0) (fun _ => throw NullDeref) lookup_fuel (example_nd [47; 97] 0) example_sys =
  path_lookup example_sb 0 0 (fun _ => 0) (example_nd [47; 97] 0) example_sys.
Proof. exact (proj1 (path_lookup_terminates example_sb 0 0 (fun _ => 0) (example_nd [47; 97] 0) example_sys eq_refl) _). Defined.

Lemma path_lookup_correct_witness :
  returns example_sys (path_lookup example_sb 0 0 (fun _ => 0) (example_nd [47; 47; 97; 98; 47] 0) example_sys) (inl 8192) /\
  returns example_sys (path_lookup example_sb 0 0 (fun _ => 0) (example_nd [47; 97; 98; 47; 120] 0) example_sys) (inr (- ENOTDIR)).
Proof.
  split.
  - apply (path_lookup_correct example_sb 0 0 (fun _ => 0) example_sys [4096] example_dir_inv example_cache _ 0);
      [apply example_table|apply example_live_dir|done|apply example_resolves].
  - apply (path_lookup_correct example_sb 0 0 (fun _ => 0) example_sys [4096] example_dir_inv example_cache _ 0);
      [apply example_table|apply example_live_dir|done|apply example_resolves_err].
Defined.

Lemma path_lookup_parent_witness :
  exists nd' y', path_lookup example_sb 0 0 (fun _ => 0) (example_nd [47; 99; 100] ND_PARENT) example_sys = Ok ((0, nd'), y') /\
    nd_parent nd' = 4096 /\ last_name nd' = [99; 100].
Proof.
  destruct (path_lookup_parent example_sb 0 0 (fun _ => 0) example_sys [4096] example_dir_inv example_cache
    (example_nd [47; 99; 100] ND_PARENT) 0 [] [99; 100] 4096 example_dir_inode) as (nd' & kq & H1 & H2 & _ & H3 & _);
    [apply example_table|apply example_live_dir|done|done|constructor|apply example_dir_at|apply example_dir_facts|].
  exists nd', (VfsWalk.st example_sys {[kq]}). split; [exact H1|split; [exact H2|exact H3]].
Defined.

Lemma path_lookup_locks_witness :
  exists nd' y', path_lookup example_sb 0 0 (fun _ => 0) (example_nd [47; 97; 98] 0) example_sys = Ok ((0, nd'), y') /\
    exists k', live (y_fs y') (nd_current nd') k' /\ (locks y' = {[k']} ∪ locks example_sys) /\ (k' ∉ locks example_sys).
Proof.
  destruct (path_lookup_walk example_sb 0 0 (fun _ => 0) example_sys [4096] example_dir_inv example_cache
    (example_nd [47; 97; 98] 0) 0 (inl 8192)) as (nd' & k & H & _);
    [apply example_table|apply example_live_dir|done|apply example_resolves|].
  exists nd', (VfsWalk.st example_sys {[k]}). split; [exact H|].
  apply (path_lookup_locks example_sb 0 0 (fun _ => 0) (example_nd [47; 97; 98] 0) example_sys _ _ _ 0 example_cache example_rooted example_live_dir eq_refl H).
  reflexivity.
Defined.


(** Descriptors 3 and 4 are open. *)
Definition two_open (p : Z) (q : Z) : runtime :=
  upd_f_table (fun t => <[3%nat := mk_fh 3 p 0 0 true 0]> (<[4%nat := mk_fh 4 q 0 0 true 0]> t)) (empty_rt 4096).
Lemma two_open_length : length (f_table (empty_rt 4096)) = 8192%nat.
Proof. unfold empty_rt, empty_table. cbn [f_table]. by rewrite length_fmap, length_seq. Qed.
Lemma two_opened p q : p <> 0 -> q <> 0 -> opened (two_open p q) 3 p /\ opened (two_open p q) 4 q.
Proof.
  intros Hp Hq. pose proof two_open_length as Hl. split; (split; [lia|]; split; [done|]).
  - exists (mk_fh 3 p 0 0 true 0). split; [|split; reflexivity]. apply list_lookup_insert_eq. rewrite length_insert, Hl. apply Nat.ltb_lt. reflexivity.
  - exists (mk_fh 4 q 0 0 true 0). split; [|split; reflexivity]. unfold two_open. cbn [f_table upd_f_table].
    rewrite list_lookup_insert_ne by done. apply list_lookup_insert_eq. rewrite Hl. apply Nat.ltb_lt. reflexivity.
Qed.

Lemma pwrite_pread_witness :
  exists y1 y2 ub, slotfs_pwrite example_sb 0 0 0 (fun _ => 0) 3 example_ub 0 3000 0
      (mk_sys (two_files free_data 1) example_heap (two_open 8192 8192)) = Ok (3000, y1) /\
    slotfs_pread example_sb 0 4 (fun _ => 0) 500 3000 0 y1 = Ok ((3000, ub), y2) /\
    (forall d, 0 <= d < 3000 -> ub (500 + d) = example_ub (0 + d)).
Proof.
  destruct (two_opened 8192 8192 ltac:(done) ltac:(done)) as [H3 H4].
  apply (pwrite_pread example_sb 0 0 0 (fun _ => 0) example_layout (mk_sys (two_files free_data 1) example_heap (two_open 8192 8192))
    [8192; 12288] 8192 (empty_file 5 1 1) 3 4 example_ub 0 3000 0);
    [exact H3|exact H4|apply two_files_inv, free_data_wf|by left|apply two_inode_1|apply two_ready|apply two_free|lia|lia|done|done|done|].
  intros (_ & _ & _ & H). by rewrite empty_blocks in H.
Defined.

(** Listing [/]: the buffer of the stream is allocated by the first call. *)
Definition dir_sys : sys := mk_sys example_dir example_heap (two_open 4096 8192).
Lemma example_buffer : exists b h, buffer_ok example_heap 0 b h.
Proof.
  assert (match heap_alloc SIZEOF_DE example_heap with
          | Ok (b, h) => negb (b =? 0) && in_region h b (Z.to_nat SIZEOF_DE) | Fault _ => false end = true) as H by (vm_compute; reflexivity).
  destruct (heap_alloc SIZEOF_DE example_heap) as [[b h]|] eqn:E; [|discriminate H].
  apply andb_true_iff in H as [H1 H2]. apply negb_true_iff, Z.eqb_neq in H1. exists b, h. split; [exact H1|]. split; [exact H2|exact E].
Qed.
Lemma example_stream :
  stream example_sb example_dir (two_open 4096 8192) 3 4096 example_dir_inode (mk_fh 3 4096 0 0 true 0) [65536] [].
Proof.
  destruct example_dir_facts as (_ & Ed & El & _). pose proof two_open_length as Hlen.
  destruct (dv_each _ _ _ example_dir_inv 4096) as (i & Hi & Hok); [by left|].
  rewrite example_dir_at in Hi. injection Hi as <-. destruct (do_index _ _ _ Hok) as (l & Hl & Hp).
  rewrite El in Hp. apply Permutation_singleton_r in Hp as ->. constructor.
  - lia.
  - apply list_lookup_insert_eq. rewrite length_insert, Hlen. apply Nat.ltb_lt. reflexivity.
  - reflexivity.
  - reflexivity.
  - lia.
  - reflexivity.
  - apply example_dir_at.
  - exact Ed.
  - exact Hok.
  - exact Hl.
  - rewrite El. reflexivity.
  - intros d ->%list_elem_of_singleton. unfold hash_of. rewrite example_entry. vm_compute. split; reflexivity.
  - apply (so_mem _ _ (dv_shared _ _ _ example_dir_inv)).
  - reflexivity.
Qed.
Lemma example_names :
  entry_name example_sb example_dir 65536 = [97; 98] /\
  bytes (dev example_dir) (entry_slot example_sb example_dir 65536 + PD_name + entry_name_len example_sb example_dir 65536) = 0.
Proof. vm_compute. done. Qed.
Lemma readdir_lists_directory_witness :
  exists y', read_all example_sb 2 3 dir_sys = Ok ([(5, [97; 98])], y') /\ y_fs y' = example_dir.
Proof.
  destruct example_buffer as (b & h & Hb). destruct example_table as (_ & El & _). destruct example_names as [En Ez].
  destruct (readdir_lists_directory example_sb dir_sys 3 4096 example_dir_inode (mk_fh 3 4096 0 0 true 0) [65536] b h)
    as (vs & y' & H & Hf & Hl & _).
  - exact example_stream.
  - change (i_ino example_dir_inode ∉ ilocks example_dir). rewrite El. apply not_elem_of_empty.
  - exact Hb.
  - intros d ->%list_elem_of_singleton. change (0 ∉ entry_name example_sb example_dir 65536). rewrite En.
    rewrite !elem_of_cons, elem_of_nil. intros [E|[E|[]]]; discriminate E.
  - exists y'. split; [|exact Hf]. change (y_fs dir_sys) with example_dir in Hl.
    apply Forall2_cons_inv_l in Hl as ([ino name] & vs' & ((e & He & Eino) & _ & Hname) & Hnil & ->).
    apply Forall2_nil_inv_l in Hnil as ->. specialize (Hname Ez). rewrite En in Hname. rewrite example_entry in He.
    injection He as <-. cbn in Eino, Hname. subst ino name. exact H.
Defined.

(** Renaming [/ab] to [/c]. *)
Lemma example_rename_ready : rename_ready example_dir [4096] 4096 [97; 98] 4096 [99].
Proof.
  destruct example_dir_facts as (_ & Ed & El & _), example_free_parts as (Ea & Ej & Em). constructor.
  - exists 65536. split; [by left|]. exists example_dir_inode. split; [apply example_dir_at|]. split; [exact Ed|].
    split; [rewrite El; by left|]. unfold hash_of. by rewrite example_entry.
  - split; [by left|]. exists example_dir_inode. split; [apply example_dir_at|]. split; [exact Ed|].
    intros d. rewrite El. intros ->%list_elem_of_singleton. unfold hash_of. rewrite example_entry. vm_compute. discriminate.
  - split; (split; [unfold zlength, MAX_NAME_LEN; simpl; lia|repeat (constructor; [lia|]); constructor]).
  - exists 65664, [65792]. split; [exact Ea|lia].
  - rewrite Em. exists 3. split; [by apply (single_map_valid (example_map [7; 0; 0; 0; 0; 0; 0; 0] 64 3))|done].
  - rewrite Ej. split; [reflexivity|by left].
Qed.
