(* ===== verification/FuncCases.v ===== *)
(** * Runs of the system calls

    Sequences of calls on the small system of FuncExample.v, with objects to
    create more files, evaluated.  They show where the system calls of
    src/slotfs/slotfs_func.c do not do what they mean to. *)
From stdpp Require Import base numbers list gmap.
From S2P Require Import Prelude Bitops Slot Btree Rbtree RbErase DirIndex DirIter Pm Mkfs Heap Fs Journal Dir DirView File.
From S2P Require Import FileRead FileWrite FileExample Runtime Vfs VfsLocks VfsWalk Func FuncDir FuncFile FuncRename FuncExample.
Local Open Scope Z_scope.

(** The directory [/] with the file [ab] and free objects of every kind. *)
Definition stocked : sys :=
  upd_y_fs (fun s =>
    upd_entry_arena (fun _ => [65664; 65792; 65920; 66048; 66176; 66304]) (upd_inode_arena (fun _ => [16384; 20480; 24576])
      (upd_btree_arena (fun _ => seqZ 3 40) (upd_ebuf_mgr (fun _ => replicate 128 (mk_ebuf (replicate 512 (mk_unit 0 0 0)) 0 512 0 false))
        (upd_map_inode (fun _ => [example_map [33; 0; 0; 0; 0; 0; 0; 0] 64 1]) s))))) example_sys.

Definition open_ (path : list Z) (flags mode : Z) : M sys Z :=
  slotfs_open example_sb 0 0 0 (fun _ => 0) (example_nd [] 0) AT_FDCWD path flags mode.
Definition close_ (fd : Z) : M sys Z := slotfs_close example_sb fd.
Definition link_ (target link : list Z) : M sys Z := slotfs_link example_sb 0 0 0 (fun _ => 0) (example_nd [] 0) target link.
Definition unlink_ (path : list Z) : M sys Z := slotfs_unlink example_sb 0 0 (fun _ => 0) (example_nd [] 0) path.
Definition symlink_ (target link : list Z) : M sys Z := slotfs_symlink example_sb 0 0 0 (fun _ => 0) (example_nd [] 0) target link.
Definition pwrite_ (fd v len off : Z) : M sys Z := slotfs_pwrite example_sb 0 0 0 (fun _ => 0) fd (fun _ => v) 0 len off.

Definition rename_ (old new : list Z) : M sys Z := slotfs_rename example_sb 0 0 0 (fun _ => 0) (example_nd [] 0) (example_nd [] 0) 0 old new.
(** A new process has no cached inode but the root. *)
Definition forget_inodes : M sys unit := modify (upd_y_fs (upd_inode_table (filter (fun x => x.1 = 0)))).

(** The names [/ab], [/d], [/s] and [/s/x]. *)
Definition p_ab : list Z := [47; 97; 98].
Definition p_c : list Z := [47; 99].
Definition p_d : list Z := [47; 100].
Definition p_s : list Z := [47; 115].
Definition p_s_x : list Z := [47; 115; 47; 120].
Definition p_d_x : list Z := [47; 100; 47; 120].
Definition MODE_DIR : Z := 16877.
Definition MODE_REG : Z := 33188.

(** A failed [open] keeps its descriptor: 0 stays valid. *)
Theorem open_leaks_descriptor :
  eval (r ← open_ p_c 0 0; fh ← on_rt (get_fh 0); mret (r, fh_valid fh)) stocked = Ok (-1, true).
Proof. vm_compute. reflexivity. Qed.

(** [open] with [O_CREAT] of a file that exists takes no reference, and
    [close] gives one back: the count wraps around. *)
Theorem create_existing_no_reference :
  eval (fd ← open_ p_ab O_CREAT MODE_REG; r ← close_ fd; i ← on_fs (rd_inode 8192); mret (r, i_ref i)) stocked
  = Ok (0, 4294967295).
Proof. vm_compute. reflexivity. Qed.

(** [link] does not count the new link: removing it releases the inode, which
    [/ab] still names. *)
Theorem unlink_releases_linked_inode :
  eval (r1 ← link_ p_ab p_c; r2 ← unlink_ p_c; y ← get;
        mret (r1, r2, release_list (y_fs y), entry_ino (y_fs y) 4096 (BKDRHash [97; 98]))) stocked
  = Ok (0, 0, [8192], Some 5).
Proof. vm_compute. reflexivity. Qed.

(** [unlink] of a directory returns [-EISDIR] and gives the entry object,
    which is still on the list and in the index, back to the arena. *)
Theorem unlink_directory_frees_entry :
  eval (_ ← open_ p_d O_CREAT MODE_DIR; r ← unlink_ p_d; y ← get;
        mret (r, head (entry_arena (y_fs y)), i_list <$> inodes (y_fs y) !! 4096)) stocked
  = Ok (- EISDIR, Some 65664, Some [65536; 65664]).
Proof. vm_compute. reflexivity. Qed.

(** Creating a file through a symbolic link to a directory: the nested lookup
    inherits [ND_PARENT], leaves [current] NULL, and the walk goes on from there. *)
Theorem create_through_symlink_faults :
  eval (_ ← open_ p_d O_CREAT MODE_DIR; r ← symlink_ p_d p_s; mret r) stocked = Ok 0 /\
  eval (_ ← open_ p_d O_CREAT MODE_DIR; _ ← symlink_ p_d p_s; open_ p_s_x O_CREAT MODE_REG) stocked = Fault NullDeref.
Proof. split; vm_compute; reflexivity. Qed.

(** A symbolic link to a regular file in the middle of a path: [inode_lookup]
    returns [ENOTDIR] as a pointer, which is followed. *)
Theorem symlink_to_file_in_path_faults :
  eval (_ ← symlink_ p_ab p_s; open_ p_s_x 0 0) stocked = Fault BadPointer.
Proof. vm_compute. reflexivity. Qed.

(** [symlink] to a name that exists returns with the lock of the directory. *)
Theorem symlink_existing_keeps_lock :
  eval (_ ← symlink_ p_ab p_s; r ← symlink_ p_ab p_s; y ← get; mret (r, elements (ilocks (y_fs y)))) stocked
  = Ok (- EEXIST, [0]).
Proof. vm_compute. reflexivity. Qed.

(** [pwrite] moves the offset of the descriptor; [lseek] returns 0 instead of
    the new offset. *)
Theorem pwrite_moves_offset :
  eval (fd ← open_ p_c O_CREAT MODE_REG; n ← pwrite_ fd 7 10 0; fh ← on_rt (get_fh fd);
        r ← slotfs_lseek fd 100 SEEK_SET; fh' ← on_rt (get_fh fd); mret (n, fh_offset fh, r, fh_offset fh')) stocked
  = Ok (10, 10, 0, 100).
Proof. vm_compute. reflexivity. Qed.

(** [inode_flush] does not store the number of links, which [inode_rebuild]
    reads: a new file whose inode is read from the device, as after a restart,
    has no links, and [close] releases it, although [/c] still names it. *)
Theorem close_releases_reread_file :
  eval (fd ← open_ p_c O_CREAT MODE_REG; _ ← close_ fd; _ ← forget_inodes;
        fd ← open_ p_c 0 0; fh ← on_rt (get_fh fd); i ← on_fs (rd_inode (fh_file fh)); r ← close_ fd; y ← get;
        mret (i_link i, r, bool_decide (fh_file fh ∈ release_list (y_fs y)), bool_decide (entry_ino (y_fs y) 4096 (BKDRHash [99]) = Some (i_ino i)))) stocked
  = Ok (0, 0, true, true).
Proof. vm_compute. reflexivity. Qed.

(** [rename] moves a directory into itself: [/d] becomes [/d/x], which no path
    leads to anymore. *)
Theorem rename_into_itself :
  eval (fd ← open_ p_d O_CREAT MODE_DIR; fh ← on_rt (get_fh fd); i ← on_fs (rd_inode (fh_file fh)); r ← rename_ p_d p_d_x; y ← get;
        mret (r, entry_ino (y_fs y) 4096 (BKDRHash [100]), bool_decide (entry_ino (y_fs y) (fh_file fh) (BKDRHash [120]) = Some (i_ino i)))) stocked
  = Ok (0, None, true).
Proof. vm_compute. reflexivity. Qed.

(** [rename] from or to [/]: the lookup of the parent succeeds with no parent,
    which is unlocked. *)
Theorem rename_root_faults :
  eval (rename_ [47] p_c) stocked = Fault NullDeref /\ eval (rename_ p_ab [47]) stocked = Fault NullDeref.
Proof. split; vm_compute; reflexivity. Qed.

(** [n] renames between two names. *)
Fixpoint swap (n : nat) (a b : list Z) : M sys unit :=
  match n with O => mret tt | S n' => _ ← rename_ a b; swap n' b a end.

(** [readdir] does not look at the length of a name: when the slot of [/ab] is
    used again for the name [c], the directory lists [cb], which no path leads to. *)
Theorem readdir_shows_old_name :
  eval (_ ← rename_ p_ab p_c; _ ← swap 62 p_c p_d; fd ← open_ [47] 0 0; l ← read_all example_sb 2 fd; y ← get;
        mret (l, entry_ino (y_fs y) 4096 (BKDRHash [99]), entry_ino (y_fs y) 4096 (BKDRHash [99; 98]))) stocked
  = Ok ([(5, [99; 98])], Some 5, None).
Proof. vm_compute. reflexivity. Qed.

(** [dir_append_entry] stores [next] before the name: a crash in between leaves
    an entry on the log, here in the slot 2, that has no name. *)
Theorem entry_linked_before_named :
  eval (_ ← open_ p_c O_CREAT MODE_REG; y ← get;
        mret (existsb (fun m => (dent_next example_sb m 2 =? 3) && (m (IDX2DENT example_sb 2 + PD_name_len) =? 0))
          (crashes (dev (y_fs y))))) stocked = Ok true.
Proof. vm_compute. reflexivity. Qed.

(** [i_size - offset] is computed without a sign: [pread] behind the end of a
    file of 10 bytes returns all the bytes it was asked for. *)
Theorem pread_behind_end :
  eval (fd ← open_ p_c O_CREAT MODE_REG; n ← pwrite_ fd 7 10 0;
        '(r, _) ← slotfs_pread example_sb 0 fd (fun _ => 0) 0 50 100; mret (n, r)) stocked
  = Ok (10, 50).
Proof. vm_compute. reflexivity. Qed.

(** Neither [pwrite] nor [write] looks at the access mode: a file that is opened
    for reading only (the flags are 0) is written. *)
Theorem pwrite_read_only :
  eval (fd ← open_ p_c O_CREAT MODE_REG; _ ← close_ fd; fd ← open_ p_c 0 0; n ← pwrite_ fd 7 10 0;
        fh ← on_rt (get_fh fd); i ← on_fs (rd_inode (fh_file fh)); mret (fh_flags fh, n, i_size i)) stocked
  = Ok (0, 10, 10).
Proof. vm_compute. reflexivity. Qed.

(** [n] pages of [v] to a file, from the page [i] on. *)
Fixpoint pages (n : nat) (fd v i : Z) : M sys unit :=
  match n with O => mret tt | S n' => _ ← pwrite_ fd v 4096 (i * 4096); pages n' fd v (i + 1) end.

(** [inode_read] goes on behind the part of an entry that is still in use: the
    second write replaces the block 2 of the first, whose slot the other file then
    gets, and a [pread] of the bytes of the first write returns its bytes. *)
Theorem pread_other_file :
  eval (a ← open_ p_c O_CREAT MODE_REG; b ← open_ p_d O_CREAT MODE_REG;
        n1 ← pwrite_ a 7 8000 4000; n2 ← pwrite_ a 8 2000 12000; _ ← pages 59 b 9 0;
        '(r, ub) ← slotfs_pread example_sb 0 a (fun _ => 0) 0 8000 4000; mret (n1, n2, r, ub 0, ub 4191, ub 4192, ub 7999)) stocked
  = Ok (8000, 2000, 8000, 7, 7, 9, 9).
Proof. vm_compute. reflexivity. Qed.
