(* ===== verification/LibCases.v ===== *)
(** * Runs of the interposed calls

    A C library that counts its calls, under SlotFS: the theorems of LibTrace.v
    and Stream.v are applied, and runs evaluated in which the calls of lib.c,
    ffile.c and [slotfs_mmap] do not do what they mean to. *)
From stdpp Require Import base numbers list gmap.
From S2P Require Import Prelude Bitops Slot Btree Rbtree RbErase DirIndex DirIter Pm Mkfs Heap Fs Journal Dir DirView File FileRead FileWrite FileExample.
From S2P Require Import Runtime Vfs VfsLocks VfsWalk FsInv Func FuncFile Recover Mount Session Trace TraceExample Lib LibTrace Stream FuncExample FuncCases.
Local Open Scope Z_scope.

(** ** A small C library *)

(** Every call fails and is counted; [close] succeeds. *)
Definition counted {A} (a : A) : M Z A := fun h => Ok (a, h + 1).
Definition small_libc : real_ops Z :=
  mk_real Z (Some (fun _ _ _ => counted (-1))) (Some (fun _ _ _ _ => counted (-1))) (Some (fun _ _ => counted (-1))) (Some (fun _ => counted 0))
    (Some (fun _ _ _ => counted (-1))) (Some (fun _ ub _ _ => counted (-1, ub))) (Some (fun _ _ _ _ => counted (-1)))
    (Some (fun _ ub _ _ _ => counted (-1, ub))) (Some (fun _ _ _ _ _ => counted (-1))) (Some (fun _ => counted (-1, None)))
    (Some (fun _ => counted (-1, None))) (Some (fun _ => counted (-1, None))) (Some (fun _ _ => counted (-1, None)))
    (Some (fun _ _ _ => counted (-1, None))) (Some (fun _ _ => counted (-1)))
    (Some (fun addr _ _ _ _ _ => counted addr)) (Some (fun _ => counted (-1))) (Some (fun _ => counted (-1)))
    (Some (fun _ _ _ _ => counted (-1))) (Some (fun _ => counted 0)) (Some (fun _ => counted 0)) (Some (fun _ _ => counted (-1)))
    (Some (fun _ _ => counted (-1))) (Some (fun _ => counted (-1))) (Some (fun _ _ => counted (-1))) (Some (fun _ _ => counted 0))
    (Some (fun _ _ => counted (-1))) (Some (fun ub _ _ _ => counted (0, ub))) (Some (fun _ _ _ _ _ => counted 0))
    (Some (fun ub _ _ _ _ => counted (0, ub))) (Some (fun _ => counted (-1))) (Some (fun _ _ _ => counted (-1))) (Some (fun _ => counted (-1)))
    (Some (mret 4096)).
Definition no_ops : real_ops Z :=
  mk_real Z None None None None None None None None None None None None None None None None None None None None None None None None None None None
    None None None None None None None.
(** A process that has not called the C library yet. *)
Definition process (y : sys) : lib Z := mk_lib y no_ops 0 0 ∅.

(** ** The theorems at work *)

(** [close(3)], and the file [a] created. *)
Definition open_backslash : call := Open [92; 47; 97] O_CREAT 33188.

Lemma interposition_refines_witness : exists n l x s a,
  slotfs_ctor new_env 0 0 7 0 (fun _ => 0) (mk_rci 0 0 0 false 0 0 0 0 0 ∅ (mk_ptr 0 0 0) []) 0 [] [] 0 blank = Ok (tt, n) /\
  lib_exec small_libc (mkfs_sb 0 7 DAX_SIZE) (process (n_sys n)) [(Close 3, RInt 0); (open_backslash, x)] l /\
  l_host l = 1 /\ arrived [(Close 3, RInt 0); (open_backslash, x)] s /\ allowed a_empty s a.
Proof.
  destruct mounted_create as (n & r & y & Hi & Hr & Hx).
  assert (slotfs_ctor new_env 0 0 7 0 (fun _ => 0) (mk_rci 0 0 0 false 0 0 0 0 0 ∅ (mk_ptr 0 0 0) []) 0 [] [] 0 blank = Ok (tt, n)) as Hs
    by (unfold slotfs_ctor; rewrite bind_run, Hi; reflexivity).
  inversion Hx as [|w0' y0 c0 r0 y1 t0 y2 Hr' Hc Hnil]; subst. inversion Hnil; subst.
  set (l1 := moved_on small_libc (l_sys (process (n_sys n))) 1 (process (n_sys n))).
  pose proof (lib_inner small_libc (mkfs_sb 0 7 DAX_SIZE) w0' open_backslash create_a l1 eq_refl) as Hin. change (l_sys l1) with (n_sys n) in Hin. rewrite Hc in Hin.
  destruct Hin as (x & Hcall & _). set (l2 := moved_on small_libc y (l_host l1) l1) in *.
  assert (lib_exec small_libc (mkfs_sb 0 7 DAX_SIZE) (process (n_sys n)) [(Close 3, RInt 0); (open_backslash, x)] l2) as Hlx.
  { eapply lx_call; [by left|exact (lib_outer small_libc (mkfs_sb 0 7 DAX_SIZE) w0 (Close 3) (process (n_sys n)) eq_refl)|].
    eapply lx_call; [right; exists create_a; split; [reflexivity|exact Hr']|exact Hcall|apply lx_nil]. }
  destruct (interposition_refines small_libc new_env 0 0 7 0 (fun _ => 0) (mk_rci 0 0 0 false 0 0 0 0 0 ∅ (mk_ptr 0 0 0) []) 0 [] [] 0 blank n (process (n_sys n)) _ l2
    new_env_first blank_mem blank_shm word_0 word_7 Hs eq_refl Hlx) as (_ & s & a & _ & _ & Ha & Hal & _).
  exists n, l2, x, s, a. split; [exact Hs|]. split; [exact Hlx|]. split; [reflexivity|]. split; [exact Ha|exact Hal].
Defined.

Definition two_process : lib Z :=
  mk_lib (mk_sys (two_files free_data 1) example_heap (two_open 8192 8192)) no_ops 0 0 {[600 := mk_FILE _IO_MAGIC_SLOT 3]}.
Local Abbreviation no_flags := (fun _ : Z => counted 0).

Lemma fwrite_fread_witness :
  exists l1 l2 l3 ub', FWRITE small_libc example_sb 0 0 0 (fun _ => 0) no_flags example_ub 0 10 300 600 two_process = Ok (10 * 300, l1) /\
    FSEEK small_libc no_flags 600 0 SEEK_SET l1 = Ok (0, l2) /\
    FREAD small_libc example_sb 0 no_flags (fun _ => 0) 500 10 300 600 l2 = Ok ((10 * 300, ub'), l3) /\ l_host l3 = l_host two_process /\
    (forall d, 0 <= d < 10 * 300 -> ub' (500 + d) = example_ub (0 + d)).
Proof.
  apply (fwrite_fread small_libc example_sb 0 0 0 (fun _ => 0) no_flags two_process 600 3 [8192; 12288] 8192 (empty_file 5 1 1) 0 example_ub 0 10 300);
    [exact example_layout| | |apply two_files_inv, free_data_wf|by left|apply two_inode_1|apply two_ready|apply two_free|lia|lia|done|done|done|].
  - split; [done|]. split; [done|]. exists _IO_MAGIC_SLOT. split; [reflexivity|done].
  - destruct (two_opened 8192 8192 ltac:(done) ltac:(done)) as [(_ & _ & g & Hg & Hv & Hf) _]. split; [done|]. split; [done|]. exists g. split; [exact Hg|].
    split; [exact Hv|]. split; [exact Hf|]. assert (g = mk_fh 3 8192 0 0 true 0) as ->; [|reflexivity].
    unfold two_open in Hg. cbn [f_table upd_f_table] in Hg. rewrite list_lookup_insert_eq in Hg; [by injection Hg as <-|].
    rewrite length_insert, two_open_length. apply Nat.ltb_lt. reflexivity.
  - intros (_ & _ & _ & H). by rewrite empty_blocks in H.
Defined.

(** ** Where the code does not do what it means to *)

Definition nd0 : nameidata := example_nd [] 0.
Definition open_l (path : list Z) (flags mode : Z) : M (lib Z) Z := OPEN small_libc example_sb 0 0 0 (fun _ => 0) nd0 path flags mode.
Definition openat_l (path : list Z) (flags mode : Z) : M (lib Z) Z := OPENAT small_libc example_sb 0 0 0 (fun _ => 0) nd0 AT_FDCWD path flags mode.
Definition mkdir_l (path : list Z) : M (lib Z) Z := MKDIR small_libc example_sb 0 0 0 (fun _ => 0) nd0 path 493.
Definition opendir_l (path : list Z) : M (lib Z) Z := OPENDIR small_libc example_sb 0 0 0 (fun _ => 0) nd0 path.
Definition pwrite_l (fd len off : Z) : M (lib Z) Z := PWRITE small_libc example_sb 0 0 0 (fun _ => 0) fd (fun _ => 7) 0 len off.
Definition mmap_l (addr len fd : Z) : M (lib Z) Z := MMAP small_libc (fun _ _ => counted 0) 0 addr len 3 1 fd 0.
Definition fopen_l (path mode : list Z) : M (lib Z) Z :=
  FOPEN small_libc example_sb 0 0 0 (fun _ => 0) nd0 (fun _ => counted 0) (fun _ _ => counted tt) 600 path mode.
Definition position (fd : Z) : M (lib Z) Z := on_sys (fh ← on_rt (get_fh fd); mret (fh_offset fh)).
Definition slot_errno : M (lib Z) Z := on_sys (gets (fun y => _errno (y_rt y))).

(** [openat] adds 1024 to the error of a path that starts with a backslash: the
    program gets the descriptor 1023. *)
Theorem openat_error_is_descriptor : eval (openat_l [92; 47; 120] 0 0) (process stocked) = Ok 1023.
Proof. vm_compute. reflexivity. Qed.

(** [mkdir] opens the new directory and does not close it. *)
Theorem mkdir_leaks_descriptor :
  eval (r ← mkdir_l [92; 47; 100]; fh ← on_sys (on_rt (get_fh 0)); mret (r, fh_valid fh)) (process stocked) = Ok (0, true).
Proof. vm_compute. reflexivity. Qed.

(** [opendir] hands the path on with its backslash, which is then part of the
    first name: [\/d] does not exist, and the error comes back as a pointer. *)
Theorem opendir_keeps_backslash :
  eval (_ ← mkdir_l [92; 47; 100]; r ← opendir_l [92; 47; 100]; e ← slot_errno; mret (r, e)) (process stocked) = Ok (2 ^ 64 - 1, - ENOENT).
Proof. vm_compute. reflexivity. Qed.

(** [opendir] returns a descriptor without the offset, so that [readdir] of it
    goes to the C library. *)
Theorem opendir_without_offset :
  eval (_ ← mkdir_l [92; 47; 100]; r ← opendir_l [100]; h ← gets l_host; _ ← READDIR small_libc example_sb r; h' ← gets l_host; mret (r, h' - h)) (process stocked)
  = Ok (1, 1).
Proof. vm_compute. reflexivity. Qed.
(** The first descriptor of a process, 0, counts as an error: it stays open, and
    the C library is asked for the directory. *)
Theorem opendir_zero_is_null :
  eval (_ ← mkdir_l [92; 47; 100]; _ ← on_sys (modify (upd_y_rt (fun _ => empty_rt 4096))); r ← opendir_l [100]; h ← gets l_host;
        fh ← on_sys (on_rt (get_fh 0)); mret (r, h, fh_valid fh)) (process stocked)
  = Ok (0, 1, true).
Proof. vm_compute. reflexivity. Qed.

(** [open] takes off all backslashes to create a file, but only one to open it. *)
Theorem open_strips_one_backslash :
  eval (r1 ← open_l [92; 92; 47; 97; 98] 0 0; r2 ← open_l [92; 92; 47; 97; 98] O_CREAT 33188; mret (r1, r2)) (process stocked) = Ok (-1, 1025).
Proof. vm_compute. reflexivity. Qed.

(** The error number that the program sees is negative. *)
Theorem errno_is_negative :
  eval (r ← open_l [92; 47; 120] 0 0; p ← ERROR small_libc; e ← gets l_err; mret (r, p, e)) (process stocked) = Ok (-1, Err_var, - ENOENT).
Proof. vm_compute. reflexivity. Qed.

(** [__xstat] hands its [struct stat] to [slotfs_xstat], which fills a
    [struct statx]. *)
Theorem xstat_fills_statx :
  eval ('(r, b) ← XSTAT small_libc example_sb 0 0 (fun _ => 0) nd0 0 1 [92; 47; 97; 98]; mret (r, match b with Statx (Some _) => true | _ => false end)) (process stocked)
  = Ok (0, true).
Proof. vm_compute. reflexivity. Qed.

(** [slotfs_mmap] does not use the address of the data: it maps anonymous
    memory, and for a file of two extents of different lengths it fails. *)
Theorem mmap_two_extents_fails :
  eval (fd ← open_l [92; 47; 99] O_CREAT 33188; _ ← pwrite_l fd 4096 0; _ ← pwrite_l fd 8192 4096;
        r1 ← mmap_l 1048576 4096 fd; r2 ← mmap_l 1048576 12288 fd; e ← slot_errno; mret (r1, r2, e)) (process stocked)
  = Ok (1048576, MAP_FAILED, EFAULT).
Proof. vm_compute. reflexivity. Qed.

(** [fopen] for writing keeps the contents of a file and starts at its end, and
    so does reading and writing ([r+]). *)
Theorem fopen_does_not_truncate :
  eval (fd ← open_l [92; 47; 99] O_CREAT 33188; _ ← pwrite_l fd 100 0; fp ← fopen_l [92; 47; 99] [119];
        p ← position 1; fh ← on_sys (on_rt (get_fh 0)); i ← on_sys (on_fs (rd_inode (fh_file fh))); _ ← fopen_l [92; 47; 99] [114; 43]; p' ← position 2; mret (fp, p, i_size i, p')) (process stocked)
  = Ok (600, 100, 100, 100).
Proof. vm_compute. reflexivity. Qed.
